(* ===== verification/_CoqProject ===== *)
-Q . S2P
Prelude.v
PyNum.v
PyString.v
PyDict.v
PyPath.v
PyShlex.v
PyFloat.v
PyXml.v
RadSeq.v
RadLists.v
RadBits.v
RadNum.v
RadUnits.v
TopSort.v
FindCycles.v
StyleCheck.v
ShellCmd.v
BuildConfig.v
Wutils.v
WafModules.v
WafBuild.v
WafTasks.v
WafHeaders.v
WafSource.v
BindScan.v
BindBuild.v
BindGen.v
WafMain.v
RegressTests.v
CreateModule.v
Timeline.v
GridRender.v
GridSpec.v
GridGtk.v
TestJobs.v
TestReport.v
TestSelect.v
TestMain.v
FlowMon.v
VizThread.v
VizSvg.v
VizScene.v
VizScan.v
VizArrows.v
VizView.v
VizPlugins.v
VizHud.v
VizWindows.v
Console.v
