(* ===== verification/Prelude.v ===== *)
(** * Verification of the Python tools of ns3-fancy

    ns3-fancy is the ns-3 network simulator with the FANcY failure detection
    system (C++, [src/contrib/p4-switch]).  What is verified here is the logic
    of its Python programs: the test driver, the build helpers, the style
    checker, the timeline viewer, the live visualizer, the reader of flow monitor
    results and the library of the binding generator.  The
    development is a shallow embedding: a Python function is a Rocq function, an
    exception is a value of [result], an object is a record, and what a program
    asks of the outside (a process, [eval], cairo, an XML parser) is a parameter.

    ** How the programs work together

    [test.py] is the largest program.  [main] reads the options and calls
    [run_tests], which reads the configuration that waf has saved, builds, makes
    lists of the examples and test suites, puts a job for each on a queue that
    worker threads empty, collects what they report, and writes the summary, the
    reports and the exit status.  It shares [get_list_from_file] with waf
    ([utils.py]).  waf itself runs programs through [wutils.py] and command lines
    of the build through [waf-tools/shellcmd.py], and takes its compiler flags
    from [waf-tools/cflags.py].  The wscripts choose the modules: those of the command line
    or of [.ns3rc] with their dependencies; what needs other modules is not built, the
    headers of the modules are copied to the build directory, and the list of runnable
    programs is left for [test.py], in the file [build-status.py] that [shutdown] writes.  [check-style.py] indents the sources and reports
    the differences as patches.  [grid.py] shows recorded timelines in a window.
    The visualizer runs the simulator in a thread of its own and shows nodes, links
    and traffic while it runs: a timer of the view reads what the thread has
    sampled, moves the nodes and redraws the arrows, under a lock that the thread
    holds while it simulates.
    Its plugins add windows, links and axes, which every update of the view redraws.
    The generator of the Python bindings uses [topsort.py] and [rad_util.py]: the scan of
    the headers decides in which module each declaration is wrapped, in an order in which
    a module comes after its dependencies.

    ** Files

    Shared layers.
    - [Prelude]: [result] with its monad, [loop] (a [while] loop with fuel) and
      its rules [loop_total] and [loop_inv], [stateful] (calls that change a state and may
      raise halfway), schedules of threads, list indexing and slices as
      Python has them, sorting with a comparison function, the tactics
      [inv_bind] and [walk] that follow a computation that returned.
    - [PyNum]: integers and IEEE 754 doubles of Python 2.  [PyString]: strings as
      lists of characters, their methods, decimal numerals, the regular
      expressions of the repository.  [PyDict]: dictionaries; the order of their
      keys is the interface [DictOrder], against which [TopSort], [FindCycles]
      and [RadLists] are proved.  [PyPath]: [os.path].  [PyShlex]: [shlex.split].
      [PyFloat]: numerals of floats, the formats [%.nf] and [%.ng], [round].
      [PyXml]: parsed XML.

    Components.
    - [RadSeq], [RadLists], [RadBits], [RadNum], [RadUnits]:
      [bindings/python/rad_util.py], by kind of function.
    - [TopSort], [FindCycles]: [bindings/python/topsort.py]; [topsort],
      [topsort_levels], [find_cycles].
    - [StyleCheck]: [utils/check-style.py]; the patch classes with their parser
      and printer, the whitespace pass, [indent_files] and [run_as_main].
    - [ShellCmd]: [waf-tools/shellcmd.py]; [Pipeline.parse] is [parse], a state
      machine on tokens, [Pipeline.run] is [run], on a world of processes and
      open files that keeps a trace.
    - [BuildConfig]: [utils.py] (module [Ns3rc]) and [waf-tools/cflags.py]
      (module [CFlags]).  [Wutils]: [wutils.py].
    - [WafModules]: [configure] of [src/wscript] and the closure under dependencies
      ([enable_dependencies]); [WafBuild]: [build] of [wscript], which excludes what
      needs a disabled module and lists what can be run; [WafHeaders]: the tasks that copy
      and remove headers, on a file system with permissions, the header of a module and
      its description for pkg-config; [WafSource]: the directories of modules; [WafTasks]: [waf-tools/misc.py] and
      [waf-tools/command.py], over [ShellCmd].
    - [BindScan]: [ns3modulescan-modular.py], [ns3modulescan.py] and the smart pointers of
      [ns3modulegen_core_customizations.py] in [bindings/python]; [pre_scan_hook] and
      [scan_hook] are the two hooks, [module_sections] uses [topsort].  [BindBuild]:
      [bindings/python/wscript] and [ns3_python_bindings] of [src/wscript], the decision of
      [configure], the tasks of a scan and the module [ns3.py]; [BindGen]: the generators
      [ns3modulegen-modular.py] and [ns3modulegen.py] with the classes for callbacks.
    - [WafMain]: the beginning and the end of a build in [wscript], [shutdown], the
      documentation, the report of coverage and the shell, in the monad [waf] (effects that
      have been asked for, the directory, the environment); [RegressTests]: the programs of
      [utils/tests], which run waf and [test.py] and count the failures.
    - [CreateModule]: [src/create-module.py]; its templates, and [main] as the list
      of what it asks of the file system.
    - [Timeline]: the data, the searches, the colours and the input file of
      [utils/grid.py]; [GridRender]: its renderers, whose drawings are lists of
      calls on the context (the monad [draw]; [LiftRes] lets one definition serve
      both [res] and [draw]); [GridSpec]: what they guarantee; [GridGtk]: the
      window, its event handlers and [main].
    - [TestJobs]: the jobs, the queues and the threads of [test.py]; [TestReport]:
      the results (modules [Tally], [Translate], [Finish]); [TestSelect]: the
      configuration, the environment and the choice of jobs; [TestMain]:
      [run_tests] as a whole.
    - [FlowMon]: [src/flow-monitor/examples/flowmon-parse-results.py]; the flows of a
      simulation, which its list and its map share, and the report.

    - [VizThread]: the threads of [src/visualizer/visualizer/core.py]
      ([SimulationThread] and the handlers of [Visualizer] that share its lock),
      as an interleaved system of the same form as that of [TestJobs].
    - [VizScene]: what is on the canvas of [core.py] ([Node], [Channel], [WiredLink],
      the selection): a store of nodes, channels and links that refer to each other,
      with the operations on them; [VizSvg]: the icons of [svgitem.py]; [VizScan]:
      [scan_topology], which builds the scene from the devices and channels of the
      simulation ([base.py]); [VizArrows]: the arrows that show transmissions and
      drops, also as an exception leaves them; [VizView]: the window around it, zoom,
      scrolling, dragging and [update_view], with the canvas as the interface [CanvasGeometry]; [VizPlugins]: the
      interface statistics, the links of WiFi stations and the packet filter of
      [src/visualizer/visualizer/plugins]; [VizHud]: the axes of [hud.py];
      [VizWindows]: [load_plugins] of [base.py], the information windows and their tables,
      the tooltips and the snapshots; [Console]: [ipython_view.py], the handlers of keys and
      the queue of callbacks, over the interface [TextBuffer] of a text with marks.

    ** What the theorems show

    - Sorting: [topsort_ok], [topsort_cyclic], [topsort_levels_spec] (against the
      longest chain of ancestors), [find_cycles_spec] (every simple cycle exactly
      once up to rotation).
    - Command lines: [parse_print] and [parse_tokens_wf]; [run_value] refines the
      pipeline's meaning, [run_closes_files] is about resources on every path, also when a
      file or a process cannot be opened: [file_left_open].
    - Threads: [do_action] is the executable step of the system of threads and
      [step] the same as a relation; [inv] is its invariant, by induction over the
      steps.  [jobs_reported] refines the interleaved system to running the jobs
      one after the other; [jobs_finish] bounds every schedule and shows that the
      threads can always end; [jobs_hang] is the one way in which they cannot.
      [run_tests_verdict] composes them: the exit status does not depend on the
      schedule.  [jobs_reported] and [jobs_finish] ask that every process can be
      started ([runnable]), which is what fails in [jobs_hang].
    - The visualizer: [viz_inv] is the invariant of its threads.  The simulator runs
      only under the lock ([lock_exclusive]); the pause messages are shown in their order
      and only lost when an update of the view raises ([pause_messages_kept],
      [message_lost]); the simulator is at most a period ahead of the view
      ([view_follows], for a simulator that stops when it is told); no handler waits
      for ever ([handler_returns]) and closing the window ends the thread
      ([quit_ends]).  [samples_lost] and [two_timers] are executions that go wrong.
    - The scene of the visualizer: [scene_consistent] (links, labels, icons and the
      selection always show the present state, by induction over the operations, and which
      icons are left on the canvas, [icon_left]),
      [scan_topology_spec] (what is drawn for a topology), [transmissions_shown] and
      [drops_shown] (which arrows are visible, with a pool that is reused),
      [positions_updated], [wifi_links_shown], [drag_follows], and [window_consistent], the invariant of
      the window over its events, which goes on after handlers that raise ([arrow_left_out]).  [cable_twice], [bus_at_origin], [width_read],
      [double_click_motion], [autoscale_zoomed], [two_channels] and [empty_packets]
      are inputs on which the code does not do what it means to.
    - Around the scene: the axes ([axes_update_view_spec], [axes_session] for any sequence
      of their operations, [draw_marks_ends]); plugins and windows ([load_plugins_spec],
      [failing_window_blocks], [interface_statistics_spec], [offered_types_spec],
      [capture_filter_spec], [tooltip_object_spec]).  [labels_stay_hidden],
      [compute_divisions_once], [far_marks], [broken_plugin], [markup_in_name],
      [new_interface] and [unknown_access_point] are inputs that go wrong.
    - The console: [transcript_kept] (what was printed is never changed, by induction over
      the events, pastes left out), [written_spec], [change_line_spec], [history_steps] and [complete_spec];
      [colour_mistaken], [unknown_colour] and [second_line_stays] go wrong.
    - The build: [enable_dependencies_spec] (the closure under dependencies, with its
      termination), [not_built_spec] and [build_spec] (what is excluded, and what is
      listed as runnable before the programs of [utils] are added), [install_spec], [remove_spec] and [module_header_complete] (the
      headers of the build directory, whatever the order of the tasks),
      [pcfile_fields_spec], [subst_func_spec], [command_run_value] and
      [cmd_output_absolute].  Around the build: [program_runs], [build_status_read] (what
      [shutdown] writes is what [test.py] reads), [lcov_directory], [shell_consistent],
      [print_module_names_spec], [config_sorted] and [sources_agree] (what [configure] enables
      is what [build] reads); [runtests_spec] and [waf_cmds_framed]
      for the tests of the tools.  [check_before_status] and [missing_comma] go wrong.
    - The scans for the bindings: [relative_path_spec] and [foreign_path], [class_import],
      [scans_agree] (the two hooks up to their comments, an equivalence [≡] with [Proper]
      instances), [module_sections_spec] (over [topsort_answer]) and
      [smart_pointer_roundtrip].  [enum_import] and
      [scan_python3] go wrong.
    - The bindings in the build: [configure_bindings_spec] (when there are bindings, and
      which errors end [configure]), [bindings_importable] (it composes that decision with
      the modules and [ns3.py]), [scan_only], [scan_modules_spec], [apiscan_run_spec] over
      [ilp32_text_spec], [split_version_spec], [drop_arch_spec] (a loop against recursion),
      [get_headers_map_spec]; [modular_main_runs] joins the command of the build to the
      generator, [wrappers_have_classes] its wrappers to its classes, [sections_have_sinks]
      the sections of the scan to their files.  [castxml_ten], [two_numbers],
      [unknown_return] and [reported_elsewhere] go wrong.
    - Choice of jobs and reports: [suites_spec], [all_jobs_queued],
      [make_paths_spec], [translate_to_text_spec], [translate_to_html_nested].
    - Style checker: [parse_write], [ws_chunk_spec], [indent_files_inplace],
      [indent_files_check].
    - Timeline viewer: searches and input file ([get_ranges_spec],
      [get_events_spec], [read_data_spec]); scale and legend ([scale_ticks_spec],
      [draw_events_labels]); drawing reads only what is set and saves and restores
      in pairs ([draw_after_set_range], [gr_draw_saves]); the window keeps a
      consistent state between any two events ([session_consistent], by induction
      over the events), and what the handlers do ([expose_spec], [drag_left_spec],
      [main_spec]).
    - Numbers and bits: [int2bin_roundtrip], [binary_range_spec], [gcf_spec],
      [permutations_spec], [nice_units_spec]; configuration: [get_list_spec], [read_config_spec];
      programs: [get_run_program_spec], [run_argv_valgrind]; skeletons:
      [create_module_spec]; results of the flow monitor: [new_simulation_spec].

    Where the code does not do what it means to, a theorem or an example states
    what it does ([drag_right_beyond], [zoom_too_far], [get_ranges_gap],
    [same_time], [and_or_stops], [run_argv_valgrind], [make_paths_spec], ...).

    ** Fuel and bounds

    A loop whose number of rounds is not structural is [loop fuel step s].  The
    fuel is computed from the input, and the theorems show that [NoFuel] is not
    reached: the number of nodes for [topsort]; a bound on the simple paths
    ([search_fuel]) for [find_cycles]; one more than the length for the binary
    searches; [decades] for the scale; powers of two for [binary_range].  For
    [gcf], [lcm] and [reduce_fraction], which need not end on floats, the fuel is
    an argument and the theorems on integers hold from [fuel_for] on.  A schedule
    of threads is a list of actions; [run_tests] is [NoFuel] when it is too short,
    and [jobs_finish] gives schedules that suffice.  [enable_dependencies] takes one more
    round than there are modules; the searches through types and objects of the visualizer
    their depth; [get_ns3_relative_path] one more step than the path has characters.  The
    fuel of [draw_marks] and [scan_relative_path] is an argument: [draw_marks_ends] and
    [relative_path_spec] bound it, [far_marks] and [foreign_path] are where they never end.  Python integers are
    unbounded, so there is no overflow except in conversions to float.

    ** Abstractions

    - Python 2 semantics for [grid.py], [rad_util.py], [topsort.py] and the flow
      monitor (integer division, comparison of mixed numbers), Python 3 for [test.py], the waf
      tools and the visualizer; [ns3modulescan.py] takes the version as an argument.  Strings are ASCII.
    - Text printed on standard error, verbose messages and temporary files are not
      kept, unless something depends on them.
    - A computation that raises has no value: what it wrote before is only kept
      where a theorem needs it (the trace of [ShellCmd], the drawings, the logs of
      [GridGtk], the arrows of [VizArrows]).  A GTK handler that raises ends the modelled
      session of [GridGtk], where PyGTK would print the exception and go on; in [VizThread]
      and [VizView] the run goes on, except, in the latter, when the placing of nodes,
      labels or icons raises.
    - [find_cycles] is a generator; the model is the list of what it yields to a
      consumer that does not change it.
    - In [VizThread] the C++ simulator is a parameter; of the handlers that take the
      lock for a moment only [set_nodes_of_interest] is there, the others (tooltips,
      dragging, information windows) take it in the same way.  The timers may fire
      at any moment, and any update of the view may raise.
    - In the other files of the visualizer the canvas, the logarithm and the
      arctangent, [PyViz.LineClipping], the layout by graphviz and the library of
      icons are parameters.  A canvas item is what was last asked of it; which objects
      are aggregated to a node does not change, so [has_mobility] is not cached.
    - In [test.py] each [get] and [put] of a queue is one step, and so is a whole
      process; [thread_exit] may be set between any two steps.

    ** Not modelled

    - The C++ of the simulator and of FANcY, and the generated binding
      definitions ([modulegen__gcc_*.py]): another language, or generated.
    - [scan_callback_classes], the monolithic [main] of [ns3modulegen.py] and the binding
      customizations that only call PyBindGen and pygccxml.  [boost.py], [relocation.py] and
      [clang_compilation_database.py] are copies of extras of waf.  Of [wscript] the options
      and, in [configure], the checks of compilers and libraries.
    - In [rad_util.py]: [timestamp], which asks the clock.  In [grid.py]: the
      creation of widgets and the file dialog, and [EventFloat], which nothing
      creates.  In [test.py]: the option parser, and the directories that are made
      and removed.
    - In the visualizer: the menus, the creation of widgets and the initialization hooks;
      the window of the console, which the misspelt import of [core.py] switches off. *)

From Stdlib Require Import ZArith Lia.
From stdpp Require Export base tactics numbers list list_numbers gmap sets strings sorting.

(** ** Python results *)

(** The exceptions that the modelled code can raise.  [OtherError] stands for
    a bare [raise Exception(...)]; [SystemExit] ends the program. *)
Inductive py_exn :=
| AssertionError | AttributeError | IndexError | IOError | KeyError | NameError
| OtherError | OverflowError | RuntimeError | SystemExit (status : Z) | TypeError | UnboundLocalError | ValueError | WafError
| ZeroDivisionError.

#[export] Instance py_exn_eq_dec : EqDecision py_exn.
Proof. solve_decision. Defined.

(** What a call does: it returns a value, raises an exception, or has not
    finished within the fuel given to its loops. *)
Inductive result (E A : Type) :=
| Ok (a : A)
| Raise (e : E)
| NoFuel.
Arguments Ok {E A} a.
Arguments Raise {E A} e.
Arguments NoFuel {E A}.

#[export] Instance result_eq_dec {E A} `{EqDecision E, EqDecision A} :
  EqDecision (result E A).
Proof. solve_decision. Defined.

#[export] Instance result_ret {E} : MRet (result E) := fun A a => Ok a.
#[export] Instance result_bind {E} : MBind (result E) := fun A B f m =>
  match m with Ok a => f a | Raise e => Raise e | NoFuel => NoFuel end.
#[export] Instance result_fmap {E} : FMap (result E) := fun A B f m =>
  match m with Ok a => Ok (f a) | Raise e => Raise e | NoFuel => NoFuel end.

Abbreviation res := (result py_exn).

Lemma bind_ok {E A B} (m : result E A) (f : A -> result E B) b :
  m ≫= f = Ok b -> exists a, m = Ok a /\ f a = Ok b.
Proof. destruct m; cbn; [eauto|done..]. Qed.

Lemma fmap_ok {E A B} (f : A -> B) (m : result E A) b :
  f <$> m = Ok b -> exists a, m = Ok a /\ b = f a.
Proof. destruct m; cbn; [intros [= <-]; eauto|done..]. Qed.

(** Unlike [injection], leaves the values as they are. *)
Lemma ok_inj {E A} (x y : A) : @Ok E A x = Ok y -> x = y.
Proof. congruence. Qed.

(** A test that evaluates to [true] on a computation holds of what it returned. *)
Lemma ok_test {E A} (f : A -> bool) (m : result E A) x : m = Ok x ->
  match m with Ok x => f x | _ => true end = true -> f x = true.
Proof. by intros ->. Qed.

(** Splits a hypothesis that a sequence of calls returned. *)
Ltac inv_bind H :=
  let a := fresh "a" in let Ha := fresh "Ha" in
  apply bind_ok in H; destruct H as (a & Ha & H).

(** Follows the run of a computation that returned, from call to call and
    through its branches. *)
Ltac walk H :=
  repeat (cbn zeta in H; first
    [ inv_bind H
    | match type of H with
      | (let '(_, _) := ?p in _) = Ok _ => destruct p
      | (if ?b then _ else _) = Ok _ => let E := fresh "E" in destruct b eqn:E
      end ]);
  try (injection H as <-); try done.

Definition is_ok {E A} (r : result E A) : bool :=
  match r with Ok _ => true | _ => false end.

(** A Python [assert]. *)
Definition py_assert (b : bool) : res unit :=
  if b then Ok () else Raise AssertionError.

(** An optional value whose absence is the exception [e]. *)
Definition or_raise {E A} (e : E) (o : option A) : result E A :=
  match o with Some a => Ok a | None => Raise e end.

(** ** Loops

    [loop fuel step s] runs a [while] loop: [step] performs one test of the
    guard and one execution of the body; it answers [inl s'] to go round again
    and [inr r] to leave the loop. *)
Fixpoint loop {E S R} (fuel : nat) (step : S -> result E (S + R)) (s : S)
    : result E R :=
  match fuel with
  | O => NoFuel
  | Datatypes.S fuel =>
      match step s with
      | Ok (inl s') => loop fuel step s'
      | Ok (inr r) => Ok r
      | Raise e => Raise e
      | NoFuel => NoFuel
      end
  end.

(** What one step has to establish for [loop_total]: the invariant again with
    a smaller measure, or the postcondition of the whole loop. *)
Definition step_ok {E S R} (I : S -> Prop) (mu : S -> nat)
    (Q : result E R -> Prop) (s : S) (r : result E (S + R)) : Prop :=
  match r with
  | Ok (inl s') => I s' /\ mu s' < mu s
  | Ok (inr v) => Q (Ok v)
  | Raise e => Q (Raise e)
  | NoFuel => False
  end.

(** The total-correctness rule of [loop]: an invariant and a measure. *)
Lemma loop_total {E S R} (step : S -> result E (S + R)) I mu Q :
  (forall s, I s -> step_ok I mu Q s (step s)) ->
  forall fuel s, I s -> mu s < fuel -> Q (loop fuel step s).
Proof.
  intros Hstep fuel. induction fuel as [|fuel IH]; intros s Hs Hmu; [lia|].
  specialize (Hstep s Hs). cbn.
  destruct (step s) as [[s'|v]| |]; cbn in Hstep; try done.
  destruct Hstep as [HI Hlt]. apply IH; [done|lia].
Qed.

(** The partial-correctness rule, for loops whose fuel is a parameter. *)
Lemma loop_inv {E S R} (step : S -> result E (S + R)) (I : S -> Prop)
    (Q : R -> Prop) :
  (forall s s', I s -> step s = Ok (inl s') -> I s') ->
  (forall s v, I s -> step s = Ok (inr v) -> Q v) ->
  forall fuel s v, I s -> loop fuel step s = Ok v -> Q v.
Proof.
  intros Hl Hr fuel. induction fuel as [|fuel IH]; intros s v Hs; [done|].
  cbn. destruct (step s) as [[s'|w]| |] eqn:Es; intros; simplify_eq; eauto.
Qed.

(** A [for x in l: s = f s x] whose body can raise. *)
Fixpoint for_each {E S X} (f : S -> X -> result E S) (l : list X) (s : S)
    : result E S :=
  match l with
  | [] => Ok s
  | x :: l => s' ← f s x; for_each f l s'
  end.

Lemma for_each_app {E S X} (f : S -> X -> result E S) l1 l2 s :
  for_each f (l1 ++ l2) s = (s' ← for_each f l1 s; for_each f l2 s').
Proof.
  revert s; induction l1 as [|x l1 IH]; intros s; [done|].
  cbn. destruct (f s x); cbn; [apply IH|done|done].
Qed.

(** The invariant rule of [for_each]; the invariant sees what was consumed
    and what is left. *)
Lemma for_each_inv {E S X} (f : S -> X -> result E S)
    (I : list X -> list X -> S -> Prop) :
  (forall pre x post s, I pre (x :: post) s ->
     exists s', f s x = Ok s' /\ I (pre ++ [x]) post s') ->
  forall l s, I [] l s -> exists s', for_each f l s = Ok s' /\ I l [] s'.
Proof.
  intros Hf l s Hs.
  enough (Hg : forall post pre s, I pre post s ->
    exists s', for_each f post s = Ok s' /\ I (pre ++ post) [] s').
  { destruct (Hg l [] s Hs) as (s' & ? & ?); eauto. }
  clear l s Hs. induction post as [|x post IH]; intros pre s Hs; cbn.
  - exists s. by rewrite app_nil_r.
  - destruct (Hf _ _ _ _ Hs) as (s1 & -> & Hs1). cbn.
    destruct (IH _ _ Hs1) as (s2 & ? & H2). exists s2.
    split; [done|]. by rewrite <- app_assoc in H2.
Qed.

(** What every successful step preserves. *)
Lemma for_each_preserve {E S X} (f : S -> X -> result E S) (I : S -> Prop) :
  (forall s x s', I s -> f s x = Ok s' -> I s') ->
  forall l s s', I s -> for_each f l s = Ok s' -> I s'.
Proof.
  intros Hf l. induction l as [|x l IH]; intros s s' Hs; cbn; [by intros [= <-]|].
  destruct (f s x) as [s1| |] eqn:E1; cbn; [|done..].
  apply IH. by eapply Hf.
Qed.

(** ** Calls that change a state

    An exception in the middle leaves the state as far as it came. *)

Definition stateful (S A : Type) : Type := S -> S * res A.
#[export] Instance stateful_ret {S} : MRet (stateful S) := fun A a s => (s, Ok a).
#[export] Instance stateful_bind {S} : MBind (stateful S) := fun A B f m s =>
  match m s with
  | (s, Ok a) => f a s
  | (s, Raise e) => (s, Raise e)
  | (s, NoFuel) => (s, NoFuel)
  end.
Definition st_call {S A} (r : res A) : stateful S A := fun s => (s, r).
Definition st_set {S} (f : S -> S) : stateful S unit := fun s => (f s, Ok ()).
Definition st_get {S A} (f : S -> A) : stateful S A := fun s => (s, Ok (f s)).
Fixpoint st_each {S X} (f : X -> stateful S unit) (l : list X) : stateful S unit :=
  match l with [] => mret () | x :: l => _ ← f x; st_each f l end.
(** The state, if there was no exception. *)
Definition st_result {S} (x : S * res unit) : res S := (fun _ => x.1) <$> x.2.

Lemma st_bind_inv {S A B} (m : stateful S A) (f : A -> stateful S B) s s' r : (m ≫= f) s = (s', r) ->
  (exists a s1, m s = (s1, Ok a) /\ f a s1 = (s', r)) \/ (m s = (s', match r with Raise e => Raise e | _ => NoFuel end) /\ is_ok r = false).
Proof. unfold mbind, stateful_bind. destruct (m s) as [s1 [a| |]]; [eauto|by intros [= <- <-]; right..]. Qed.
Lemma st_bind_ok {S A B} (m : stateful S A) (f : A -> stateful S B) s s' b : (m ≫= f) s = (s', Ok b) ->
  exists a s1, m s = (s1, Ok a) /\ f a s1 = (s', Ok b).
Proof. by intros [?|[_ ?]]%st_bind_inv. Qed.
Lemma st_call_bind_ok {S A B} (r : res A) (f : A -> stateful S B) s s' b : (st_call r ≫= f) s = (s', Ok b) ->
  exists a, r = Ok a /\ f a s = (s', Ok b).
Proof. by intros (a & s1 & [= <- ->] & H)%st_bind_ok; eauto. Qed.
Lemma st_call_bind_eq {S A B} (r : res A) a (f : A -> stateful S B) s : r = Ok a -> (st_call r ≫= f) s = f a s.
Proof. by intros ->. Qed.
Lemma st_set_bind {S B} (g : S -> S) (f : unit -> stateful S B) s : (st_set g ≫= f) s = f () (g s).
Proof. done. Qed.
Lemma st_result_ok {S} (x : S * res unit) s : st_result x = Ok s <-> x = (s, Ok ()).
Proof. destruct x as [s1 [[]| |]]; cbn; split; congruence. Qed.

(** A loop keeps [I] from round to round; an exception leaves a state with [J]. *)
Lemma st_each_inv {S X} (f : X -> stateful S unit) (I J : S -> Prop) l :
  (forall x s s' r, x ∈ l -> I s -> f x s = (s', r) -> if is_ok r then I s' else J s') ->
  forall s s' r, I s -> st_each f l s = (s', r) -> if is_ok r then I s' else J s'.
Proof.
  induction l as [|x l IH]; intros Hf s s' r Hs; [by intros [= <- <-]|]. cbn.
  intros [([] & s1 & H1 & H)|[H1 Hr]]%st_bind_inv.
  - apply (IH ltac:(intros y ? ? ? Hy; apply Hf; by constructor) s1); [|done]. by apply (Hf x s s1 (Ok ()) ltac:(constructor)).
  - specialize (Hf x s s' _ ltac:(constructor) Hs H1). rewrite Hr. by destruct r.
Qed.

(** Follows the run of a call that changes a state and returned. *)
Ltac st_walk H :=
  repeat first
    [ rewrite st_set_bind in H
    | let a := fresh "a" in let Ha := fresh "Ha" in apply st_call_bind_ok in H; destruct H as (a & Ha & H) ].

(** ** Python sequences *)

Definition zlen {A} (l : list A) : Z := Z.of_nat (length l).

(** [l[i]]: negative indices count from the end. *)
Definition py_get {A} (l : list A) (i : Z) : res A :=
  let n := zlen l in
  if (0 <=? i)%Z then or_raise IndexError (l !! Z.to_nat i)
  else if (0 <=? i + n)%Z then or_raise IndexError (l !! Z.to_nat (i + n))
  else Raise IndexError.

(** The position a slice bound denotes in a sequence of length [n]. *)
Definition slice_bound (n i : Z) : Z :=
  if (i <? 0)%Z then Z.max 0 (i + n) else Z.min i n.

(** [l[a:b]], [l[a:]] and [l[:b]]. *)
Definition py_slice {A} (l : list A) (a b : Z) : list A :=
  let n := zlen l in
  let i := slice_bound n a in
  let j := slice_bound n b in
  take (Z.to_nat (j - i)) (drop (Z.to_nat i) l).
Definition py_from {A} (l : list A) (a : Z) : list A := py_slice l a (zlen l).
Definition py_upto {A} (l : list A) (b : Z) : list A := py_slice l 0 b.

(** [l.remove(x)] when [x in l]. *)
Fixpoint remove_first {A} `{EqDecision A} (x : A) (l : list A) : list A :=
  match l with
  | [] => []
  | y :: l => if decide (x = y) then l else y :: remove_first x l
  end.

(** [l.index(x)] *)
Fixpoint py_index {A} `{EqDecision A} (x : A) (l : list A) : res nat :=
  match l with
  | [] => Raise ValueError
  | y :: l => if decide (y = x) then Ok 0 else S <$> py_index x l
  end.

Lemma py_index_app {A} `{EqDecision A} (x : A) l1 l2 :
  x ∉ l1 -> py_index x (l1 ++ x :: l2) = Ok (length l1).
Proof.
  induction l1 as [|y l1 IH]; cbn; intros Hx; [by rewrite decide_True|].
  rewrite decide_False by (intros ->; apply Hx; left).
  rewrite IH; [done|]. intros ?. apply Hx. by right.
Qed.

Declare Scope py_scope.
Delimit Scope py_scope with py.
Notation "l .[ a : b ]" := (py_slice l a b)
  (at level 1, left associativity, a at level 60, b at level 60,
   format "l .[ a : b ]") : py_scope.
Notation "l .[ a : ]" := (py_from l a)
  (at level 1, left associativity, format "l .[ a : ]") : py_scope.
Notation "l .[: b ]" := (py_upto l b)
  (at level 1, left associativity, format "l .[: b ]") : py_scope.
Notation "l .[ i ]" := (py_get l i)
  (at level 1, left associativity, format "l .[ i ]") : py_scope.

Lemma py_get_nat {A} (l : list A) (i : nat) :
  py_get l (Z.of_nat i) = or_raise IndexError (l !! i).
Proof.
  unfold py_get. rewrite (proj2 (Z.leb_le _ _)) by lia. by rewrite Nat2Z.id.
Qed.

Lemma slice_bound_nat (n i : nat) :
  slice_bound (Z.of_nat n) (Z.of_nat i) = Z.of_nat (i `min` n).
Proof. unfold slice_bound. destruct (Z.ltb_spec (Z.of_nat i) 0); lia. Qed.

Lemma slice_bound_neg (n k : nat) :
  0 < k -> slice_bound (Z.of_nat n) (- Z.of_nat k) = Z.of_nat (n - k).
Proof. unfold slice_bound. destruct (Z.ltb_spec (- Z.of_nat k) 0); lia. Qed.

Lemma py_slice_bounds {A} (l : list A) a b (i j : nat) :
  slice_bound (zlen l) a = Z.of_nat i ->
  slice_bound (zlen l) b = Z.of_nat j ->
  py_slice l a b = take (j - i) (drop i l).
Proof.
  intros Ha Hb. unfold py_slice. rewrite Ha, Hb, Nat2Z.id. f_equal. lia.
Qed.

Lemma py_slice_nat {A} (l : list A) (i j : nat) :
  i <= j <= length l ->
  py_slice l (Z.of_nat i) (Z.of_nat j) = take (j - i) (drop i l).
Proof.
  intros. apply py_slice_bounds; unfold zlen; rewrite slice_bound_nat; lia.
Qed.

Lemma py_from_bounds {A} (l : list A) a (i : nat) :
  slice_bound (zlen l) a = Z.of_nat i -> py_from l a = drop i l.
Proof.
  intros Ha. unfold py_from. rewrite (py_slice_bounds l a (zlen l) i (length l)).
  - rewrite take_ge; [done|]. rewrite length_drop. lia.
  - done.
  - unfold zlen. rewrite slice_bound_nat. lia.
Qed.

Lemma py_upto_bounds {A} (l : list A) b (j : nat) :
  slice_bound (zlen l) b = Z.of_nat j -> py_upto l b = take j l.
Proof.
  intros Hb. unfold py_upto. rewrite (py_slice_bounds l 0 b 0 j); [|by apply (slice_bound_nat _ 0)|done].
  by rewrite drop_0, Nat.sub_0_r.
Qed.

Lemma py_from_nat {A} (l : list A) (i : nat) :
  py_from l (Z.of_nat i) = drop i l.
Proof.
  rewrite (py_from_bounds l _ (i `min` length l)) by apply slice_bound_nat.
  destruct (decide (i <= length l)); [by rewrite Nat.min_l by lia|].
  rewrite Nat.min_r by lia. rewrite !drop_ge; [done|lia..].
Qed.

Lemma py_upto_nat {A} (l : list A) (j : nat) :
  py_upto l (Z.of_nat j) = take j l.
Proof.
  rewrite (py_upto_bounds l _ (j `min` length l)) by apply slice_bound_nat.
  destruct (decide (j <= length l)); [by rewrite Nat.min_l by lia|].
  rewrite Nat.min_r by lia. rewrite !take_ge; [done|lia..].
Qed.

(** [l[:-k]] and [l[-k:]] for a positive [k]. *)
Lemma py_upto_neg {A} (l : list A) (k : nat) :
  0 < k -> py_upto l (- Z.of_nat k) = take (length l - k) l.
Proof. intros. by apply py_upto_bounds, slice_bound_neg. Qed.

Lemma py_from_neg {A} (l : list A) (k : nat) :
  0 < k -> py_from l (- Z.of_nat k) = drop (length l - k) l.
Proof. intros. by apply py_from_bounds, slice_bound_neg. Qed.

(** ** Lists *)

Lemma NoDup_not_in_take {A} (l : list A) i x :
  NoDup l -> l !! i = Some x -> x ∉ take i l.
Proof.
  intros Hnd Hi (j & Hj & Hlt)%elem_of_take.
  pose proof (NoDup_lookup l j i x Hnd). naive_solver lia.
Qed.

Lemma elem_of_concat {A} (ls : list (list A)) x :
  x ∈ concat ls <-> exists l, x ∈ l /\ l ∈ ls.
Proof.
  rewrite list_elem_of_In, in_concat.
  setoid_rewrite list_elem_of_In. naive_solver.
Qed.

Lemma py_last_cons {A} (l : list A) x d : List.last (x :: l) d = List.last l x.
Proof.
  revert x d. induction l as [|y l IH]; intros x d; [done|].
  change (List.last (y :: l) d = List.last (y :: l) x). by rewrite !IH.
Qed.

Lemma py_last_app {A} (l1 l2 : list A) x d :
  List.last (l1 ++ x :: l2) d = List.last l2 x.
Proof.
  revert d. induction l1 as [|y l1 IH]; intros d; cbn [app];
    rewrite py_last_cons; [done|apply IH].
Qed.

Lemma py_get_last {A} (x : A) l : py_get (x :: l) (-1) = Ok (List.last l x).
Proof.
  unfold py_get, zlen. cbn [Z.leb Z.compare].
  rewrite (proj2 (Z.leb_le 0 _)) by (cbn; lia).
  replace (Z.to_nat _) with (length l) by (cbn [length]; lia).
  enough ((x :: l) !! length l = Some (List.last l x)) as -> by done.
  revert x. induction l as [|y l IH]; intros x; [done|].
  rewrite py_last_cons. apply IH.
Qed.

Lemma py_last_in {A} (l : list A) x : List.last l x ∈ x :: l.
Proof.
  revert x. induction l as [|y l IH]; intros x; [left|].
  rewrite py_last_cons. right. apply IH.
Qed.

Lemma StronglySorted_lookup {A} (R : A -> A -> Prop) l i j x y :
  StronglySorted R l -> i < j -> l !! i = Some x -> l !! j = Some y -> R x y.
Proof.
  intros Hs Hij Hi Hj. apply (StronglySorted_app_1_elem_of R (take j l) (drop j l)).
  - by rewrite take_drop.
  - apply elem_of_take. eauto.
  - apply list_elem_of_lookup. exists 0. by rewrite lookup_drop, Nat.add_0_r.
Qed.

(** ** Filters *)

Lemma filter_id {A} (P : A -> Prop) `{!forall x, Decision (P x)} (l : list A) : Forall P l -> filter P l = l.
Proof. induction 1 as [|x l Hx _ IH]; [done|]. rewrite filter_cons_True by done. by f_equal. Qed.

Lemma remove_first_filter {A} `{EqDecision A} (x : A) l : NoDup l -> remove_first x l = filter (fun y => y <> x) l.
Proof.
  induction 1 as [|y l Hy _ IH]; [done|]. cbn [remove_first]. case_decide as Hxy.
  - subst y. rewrite filter_cons_False by auto. symmetry. apply filter_id, Forall_forall.
    by intros z Hz ->.
  - rewrite filter_cons_True by congruence. by f_equal.
Qed.

Lemma remove_all_filter {A} `{EqDecision A} (p l : list A) : NoDup l -> foldl (fun l t => remove_first t l) l p = filter (fun y => y ∉ p) l.
Proof.
  revert l. induction p as [|x p IH]; intros l Hl; cbn [foldl].
  - symmetry. apply filter_id, Forall_forall. intros. apply not_elem_of_nil.
  - rewrite remove_first_filter by done. rewrite IH by (by apply NoDup_filter).
    rewrite list_filter_filter. apply list_filter_iff. intros y. rewrite not_elem_of_cons. tauto.
Qed.

Lemma filter_agree {A} (P Q : A -> Prop) `{!forall x, Decision (P x), !forall x, Decision (Q x)} (l : list A) :
  (forall x, x ∈ l -> P x <-> Q x) -> filter P l = filter Q l.
Proof.
  intros Hpq. induction l as [|x l IH]; [done|]. rewrite !filter_cons.
  rewrite IH by (intros y Hy; apply Hpq; by right). pose proof (Hpq x ltac:(left)). repeat case_decide; tauto.
Qed.

Lemma filter_all {A} (P : A -> Prop) `{!forall x, Decision (P x)} (l : list A) : length (filter P l) = length l <-> Forall P l.
Proof.
  induction l as [|x l IH]; [done|]. rewrite filter_cons, Forall_cons. pose proof (length_filter P l).
  case_decide; simpl; rewrite <- IH; (split; [intros; split; [done|lia] || lia|intros [? ?]; lia || tauto]).
Qed.

(** ** Schedules

    A system of threads is a partial function on states; an execution is a list of
    actions. *)
Section schedules.
Context {S A : Type} (act : A -> S -> option S).

Definition run_schedule (acts : list A) (s : S) : option S := foldl (fun s a => s ≫= act a) (Some s) acts.

Lemma run_schedule_cons a acts s : run_schedule (a :: acts) s = act a s ≫= run_schedule acts.
Proof.
  unfold run_schedule. simpl. destruct (act a s) as [s'|]; [done|]. simpl. by induction acts.
Qed.
Lemma run_schedule_app acts1 acts2 s :
  run_schedule (acts1 ++ acts2) s = run_schedule acts1 s ≫= run_schedule acts2.
Proof.
  revert s. induction acts1 as [|a acts1 IH]; intros s; [done|]. cbn [app]. rewrite !run_schedule_cons.
  destruct (act a s); [apply IH|done].
Qed.
Lemma run_schedule_ind (P : S -> Prop) acts s s' : run_schedule acts s = Some s' -> P s ->
  (forall a t t', a ∈ acts -> act a t = Some t' -> P t -> P t') -> P s'.
Proof.
  revert s. induction acts as [|a acts IH]; intros s Hr Hs Hstep; [by injection Hr as <-|].
  rewrite run_schedule_cons in Hr. destruct (act a s) as [t|] eqn:Ha; [|done]. simpl in Hr.
  apply (IH t); [done| |].
  - apply (Hstep a s); [constructor|done|done].
  - intros b u u' Hb. apply Hstep. by constructor.
Qed.
End schedules.

(** ** [list.sort] with a comparison function

    A stable sort: an item goes behind those that do not compare above it. *)
Section sort_cmp.
Context {A : Type} (cmp : A -> A -> Z).

Fixpoint insert_cmp (x : A) (l : list A) : list A :=
  match l with
  | [] => [x]
  | y :: l => if (cmp x y <? 0)%Z then x :: y :: l else y :: insert_cmp x l
  end.
Definition sort_cmp (l : list A) : list A := foldl (fun sorted x => insert_cmp x sorted) [] l.

Lemma insert_cmp_perm x l : insert_cmp x l ≡ₚ x :: l.
Proof.
  induction l as [|y l IH]; [done|]. cbn. destruct (cmp x y <? 0)%Z; [done|].
  by rewrite IH, Permutation_swap.
Qed.

Lemma sort_cmp_snoc l x : sort_cmp (l ++ [x]) = insert_cmp x (sort_cmp l).
Proof. unfold sort_cmp. by rewrite foldl_app. Qed.

Lemma sort_cmp_perm l : sort_cmp l ≡ₚ l.
Proof.
  induction l as [|x l IH] using rev_ind; [done|].
  by rewrite sort_cmp_snoc, insert_cmp_perm, IH, Permutation_app_comm.
Qed.

(** The comparison is by a key. *)
Context (key : A -> Z).
Hypothesis cmp_key : forall a b, (cmp a b < 0)%Z <-> (key a < key b)%Z.

Lemma insert_cmp_sorted x l :
  StronglySorted (fun a b => (key a <= key b)%Z) l ->
  StronglySorted (fun a b => (key a <= key b)%Z) (insert_cmp x l).
Proof using cmp_key.
  induction 1 as [|y l Hs IH Hy]; cbn; [by repeat constructor|].
  destruct (Z.ltb_spec (cmp x y) 0) as [Hlt|Hge].
  - apply cmp_key in Hlt. constructor; [by constructor|]. constructor; [lia|].
    eapply Forall_impl; [exact Hy|]. cbn. lia.
  - constructor; [done|]. rewrite insert_cmp_perm. constructor; [|done].
    destruct (Z.lt_ge_cases (key x) (key y)) as [Hk|]; [|done]. apply cmp_key in Hk. lia.
Qed.

Lemma sort_cmp_sorted l : StronglySorted (fun a b => (key a <= key b)%Z) (sort_cmp l).
Proof using cmp_key.
  induction l as [|x l IH] using rev_ind; [constructor|].
  rewrite sort_cmp_snoc. by apply insert_cmp_sorted.
Qed.

(** A sorted list stays as it is: the sort is stable. *)
Lemma insert_cmp_last x l : Forall (fun y => (key y <= key x)%Z) l -> insert_cmp x l = l ++ [x].
Proof using cmp_key.
  induction 1 as [|y l Hy _ IH]; [done|]. cbn. rewrite (proj2 (Z.ltb_ge _ _)).
  - by rewrite IH.
  - destruct (Z.le_gt_cases 0 (cmp x y)) as [|Hlt]; [done|]. apply cmp_key in Hlt. lia.
Qed.

Lemma sort_cmp_id l : StronglySorted (fun a b => (key a <= key b)%Z) l -> sort_cmp l = l.
Proof using cmp_key.
  induction l as [|x l IH] using rev_ind; [done|]. rewrite StronglySorted_app.
  intros (Hx & Hl & _). rewrite sort_cmp_snoc, IH by done. apply insert_cmp_last.
  apply Forall_forall. intros y Hy. apply Hx; [done|left].
Qed.
End sort_cmp.
