(* ===== verification/PyNum.v ===== *)
(** * Python 2 numbers: unbounded integers and IEEE 754 doubles.

    The scripts of the repository that compute with numbers ([utils/grid.py],
    [bindings/python/rad_util.py]) mix integers and floats freely, so a number
    is a tagged value, as in Python.  A float is a [spec_float] of the Standard
    Library with 53 bits of precision, rounded to nearest even. *)
From S2P Require Import Prelude.
From Stdlib Require Import SpecFloat.
#[local] Open Scope Z_scope.

Notation prec := 53 (only parsing).
Notation emax := 1024 (only parsing).

Inductive num :=
| PInt (z : Z)
| PFloat (f : spec_float).

Definition is_nan (x : num) : bool :=
  match x with PFloat S754_nan => true | _ => false end.

(** ** The exact value of a number *)

(** [Fin m e] is [m * 2 ^ e]. *)
Inductive value := VNan | VInf (neg : bool) | Fin (m e : Z).

Definition float_value (f : spec_float) : value :=
  match f with
  | S754_zero _ => Fin 0 0
  | S754_infinity s => VInf s
  | S754_nan => VNan
  | S754_finite s m e => Fin (if s then Z.neg m else Z.pos m) e
  end.

Definition num_value (x : num) : value :=
  match x with PInt z => Fin z 0 | PFloat f => float_value f end.

(** [m * 2 ^ (e - e0)] for [e0 <= e] *)
Definition scale (m e e0 : Z) : Z := Z.shiftl m (e - e0).

Definition value_compare (a b : value) : option comparison :=
  match a, b with
  | VNan, _ | _, VNan => None
  | VInf s, VInf s' => Some (if Bool.eqb s s' then Eq else if s then Lt else Gt)
  | VInf s, Fin _ _ => Some (if s then Lt else Gt)
  | Fin _ _, VInf s => Some (if s then Gt else Lt)
  | Fin m e, Fin m' e' =>
      let e0 := Z.min e e' in Some (scale m e e0 ?= scale m' e' e0)
  end.

(** ** Comparisons

    Python compares an integer with a float exactly. *)
Definition num_compare (x y : num) : option comparison :=
  value_compare (num_value x) (num_value y).

Definition num_ltb x y := match num_compare x y with Some Lt => true | _ => false end.
Definition num_leb x y :=
  match num_compare x y with Some Lt | Some Eq => true | _ => false end.
Definition num_eqb x y := match num_compare x y with Some Eq => true | _ => false end.
Definition num_gtb x y := num_ltb y x.
Definition num_geb x y := num_leb y x.

(** [max(a, b)] and [min(a, b)]: the first argument unless the second is
    strictly better. *)
Definition num_max a b := if num_gtb b a then b else a.
Definition num_min a b := if num_ltb b a then b else a.

(** The truth value of a number. *)
Definition num_true (x : num) : bool := negb (num_eqb x (PInt 0)).

(** ** Conversions *)

Definition float_of_Z (z : Z) : res spec_float :=
  match binary_normalize prec emax z 0 false with
  | S754_infinity _ => Raise OverflowError
  | f => Ok f
  end.

Definition to_float (x : num) : res spec_float :=
  match x with PInt z => float_of_Z z | PFloat f => Ok f end.

(** [float(x)] *)
Definition py_float (x : num) : res num := f ← to_float x; Ok (PFloat f).

(** Truncation of [m * 2 ^ e] towards zero. *)
Definition trunc (m e : Z) : Z :=
  if 0 <=? e then Z.shiftl m e else Z.quot m (2 ^ (- e)).

(** [int(x)] *)
Definition py_int (x : num) : res num :=
  match num_value x with
  | VNan => Raise ValueError
  | VInf _ => Raise OverflowError
  | Fin m e => Ok (PInt (trunc m e))
  end.

(** ** Arithmetic *)

Definition arith (fi : Z -> Z -> res num)
    (ff : spec_float -> spec_float -> res num) (x y : num) : res num :=
  match x, y with
  | PInt a, PInt b => fi a b
  | _, _ => a ← to_float x; b ← to_float y; ff a b
  end.

Definition num_add := arith (fun a b => Ok (PInt (a + b)))
  (fun a b => Ok (PFloat (SFadd prec emax a b))).
Definition num_sub := arith (fun a b => Ok (PInt (a - b)))
  (fun a b => Ok (PFloat (SFsub prec emax a b))).
Definition num_mul := arith (fun a b => Ok (PInt (a * b)))
  (fun a b => Ok (PFloat (SFmul prec emax a b))).

(** Python 2: the quotient of two integers is rounded down. *)
Definition num_div := arith
  (fun a b => if b =? 0 then Raise ZeroDivisionError else Ok (PInt (a / b)))
  (fun a b => match b with
              | S754_zero _ => Raise ZeroDivisionError
              | _ => Ok (PFloat (SFdiv prec emax a b)) end).

Definition float_neg (f : spec_float) : bool :=
  match f with
  | S754_zero s | S754_infinity s | S754_finite s _ _ => s
  | S754_nan => false
  end.

(** The C function [fmod]: exact. *)
Definition fmod (x y : spec_float) : spec_float :=
  match float_value x, float_value y with
  | VNan, _ | _, VNan | VInf _, _ => S754_nan
  | Fin _ _, VInf _ => x
  | Fin m e, Fin m' e' =>
      let e0 := Z.min e e' in
      if m' =? 0 then S754_nan
      else binary_normalize prec emax
             (Z.rem (scale m e e0) (scale m' e' e0)) e0 (float_neg x)
  end.

(** [float_rem] of CPython: the result has the sign of the divisor. *)
Definition float_rem (x y : spec_float) : res num :=
  match y with
  | S754_zero _ => Raise ZeroDivisionError
  | _ =>
      let r := fmod x y in
      match r with
      | S754_zero _ => Ok (PFloat (S754_zero (float_neg y)))
      | S754_nan => Ok (PFloat S754_nan)
      | _ => if Bool.eqb (float_neg y) (float_neg r) then Ok (PFloat r)
             else Ok (PFloat (SFadd prec emax r y))
      end
  end.

Definition num_mod := arith
  (fun a b => if b =? 0 then Raise ZeroDivisionError else Ok (PInt (a mod b)))
  float_rem.

Definition num_abs (x : num) : num :=
  match x with PInt z => PInt (Z.abs z) | PFloat f => PFloat (SFabs f) end.
Definition num_opp (x : num) : num :=
  match x with PInt z => PInt (- z) | PFloat f => PFloat (SFopp f) end.

(** The float nearest to the fraction [n / d]: decimal literals. *)
Definition frac (n d : Z) : num :=
  PFloat (SFdiv prec emax (binary_normalize prec emax n 0 false)
                          (binary_normalize prec emax d 0 false)).

(** ** Expressions

    An operand may itself have raised; operands are evaluated left to right. *)
Definition lift2 (f : num -> num -> res num) (a b : res num) : res num :=
  x ← a; y ← b; f x y.

#[warning="-uniform-inheritance"]
Coercion PInt : Z >-> num.
Definition val (x : num) : res num := Ok x.
#[warning="-uniform-inheritance"]
Coercion val : num >-> result.

Declare Scope num_scope.
Delimit Scope num_scope with num.
Infix ".+" := (lift2 num_add) (at level 50, left associativity) : num_scope.
Infix ".-" := (lift2 num_sub) (at level 50, left associativity) : num_scope.
Infix ".*" := (lift2 num_mul) (at level 40, left associativity) : num_scope.
Infix "./" := (lift2 num_div) (at level 40, left associativity) : num_scope.
Infix ".%" := (lift2 num_mod) (at level 40, left associativity) : num_scope.
Infix "<?" := num_ltb (at level 70, no associativity) : num_scope.
Infix "<=?" := num_leb (at level 70, no associativity) : num_scope.
Infix ">?" := num_gtb (at level 70, no associativity) : num_scope.
Infix ">=?" := num_geb (at level 70, no associativity) : num_scope.
Infix "=?" := num_eqb (at level 70, no associativity) : num_scope.

Example half : frac 1 2 = PFloat (S754_finite false 4503599627370496 (-53)).
Proof. vm_compute. reflexivity. Qed.
Example mixed : (PInt 7 ./ PInt 2 .+ frac 1 2)%num = Ok (PFloat (S754_finite false 7881299347898368 (-51))).
Proof. vm_compute. reflexivity. Qed.
Example fmod_neg : num_mod (PInt (-7)) (frac 5 2) = Ok (frac 1 2).
Proof. vm_compute. reflexivity. Qed.
Example exact_compare : num_ltb (PInt (2 ^ 53)) (PInt (2^53 + 1)) = true
  /\ num_ltb (PFloat (S754_finite false 4503599627370496 1)) (PInt (2 ^ 53 + 1)) = true.
Proof. vm_compute. done. Qed.

(** ** Integers *)

Lemma num_compare_int a b : num_compare (PInt a) (PInt b) = Some (a ?= b).
Proof. reflexivity. Qed.

Lemma num_ltb_int a b : num_ltb (PInt a) (PInt b) = (a <? b).
Proof. unfold num_ltb, Z.ltb. rewrite num_compare_int. by destruct (a ?= b). Qed.
Lemma num_leb_int a b : num_leb (PInt a) (PInt b) = (a <=? b).
Proof. unfold num_leb, Z.leb. rewrite num_compare_int. by destruct (a ?= b). Qed.
Lemma num_eqb_int a b : num_eqb (PInt a) (PInt b) = (a =? b).
Proof.
  unfold num_eqb. rewrite num_compare_int.
  destruct (Z.compare_spec a b), (Z.eqb_spec a b); done || lia.
Qed.
Lemma num_gtb_int a b : num_gtb (PInt a) (PInt b) = (b <? a).
Proof. apply num_ltb_int. Qed.
Lemma num_geb_int a b : num_geb (PInt a) (PInt b) = (b <=? a).
Proof. apply num_leb_int. Qed.
Lemma num_true_int a : num_true (PInt a) = negb (a =? 0).
Proof. unfold num_true. by rewrite num_eqb_int. Qed.
Lemma num_max_int a b : num_max (PInt a) (PInt b) = PInt (Z.max a b).
Proof.
  unfold num_max. rewrite num_gtb_int. destruct (Z.ltb_spec a b); f_equal; lia.
Qed.
Lemma num_min_int a b : num_min (PInt a) (PInt b) = PInt (Z.min a b).
Proof.
  unfold num_min. rewrite num_ltb_int. destruct (Z.ltb_spec b a); f_equal; lia.
Qed.
Lemma py_int_int a : py_int (PInt a) = Ok (PInt a).
Proof. unfold py_int. cbn. by rewrite Z.shiftl_0_r. Qed.
Lemma num_div_int a b : b <> 0 -> num_div (PInt a) (PInt b) = Ok (PInt (a / b)).
Proof. intros Hb. cbn. by rewrite (proj2 (Z.eqb_neq _ _)). Qed.
Lemma num_mod_int a b : b <> 0 -> num_mod (PInt a) (PInt b) = Ok (PInt (a mod b)).
Proof. intros Hb. cbn. by rewrite (proj2 (Z.eqb_neq _ _)). Qed.

Create HintDb pynum.
#[export] Hint Rewrite num_ltb_int num_leb_int num_eqb_int num_gtb_int
  num_geb_int num_true_int num_max_int num_min_int py_int_int : pynum.

(** ** The order of the numbers other than NaN *)

Lemma scale_trans m e e0 e1 :
  e1 <= e0 -> e0 <= e -> scale m e e1 = scale m e e0 * 2 ^ (e0 - e1).
Proof.
  intros. unfold scale. rewrite !Z.shiftl_mul_pow2 by lia.
  rewrite <- Z.mul_assoc, <- Z.pow_add_r by lia. do 2 f_equal. lia.
Qed.

(** The comparison of two finite values at any common exponent. *)
Lemma value_compare_fin m e m' e' e0 :
  e0 <= e -> e0 <= e' ->
  value_compare (Fin m e) (Fin m' e') = Some (scale m e e0 ?= scale m' e' e0).
Proof.
  intros He He'. cbn. f_equal.
  rewrite (scale_trans m e (Z.min e e') e0), (scale_trans m' e' (Z.min e e') e0) by lia.
  apply Zmult_compare_compat_r.
  apply Z.lt_gt. apply Z.pow_pos_nonneg; lia.
Qed.

Definition vle (a b : value) : Prop :=
  match value_compare a b with Some Lt | Some Eq => True | _ => False end.

Lemma vle_fin m e m' e' e0 :
  e0 <= e -> e0 <= e' -> vle (Fin m e) (Fin m' e') <-> scale m e e0 <= scale m' e' e0.
Proof.
  intros. unfold vle. rewrite (value_compare_fin m e m' e' e0) by done.
  destruct (Z.compare_spec (scale m e e0) (scale m' e' e0)); lia.
Qed.

Lemma num_leb_vle x y : num_leb x y = true <-> vle (num_value x) (num_value y).
Proof.
  unfold num_leb, num_compare, vle. destruct (value_compare _ _) as [[]|]; done.
Qed.

Lemma vle_trans a b c : vle a b -> vle b c -> vle a c.
Proof.
  destruct a as [|[]|m e], b as [|[]|m' e'], c as [|[]|m'' e'']; try done.
  set (e0 := Z.min e (Z.min e' e'')).
  rewrite !(vle_fin _ _ _ _ e0) by lia. lia.
Qed.

Lemma num_leb_trans x y z :
  num_leb x y = true -> num_leb y z = true -> num_leb x z = true.
Proof. rewrite !num_leb_vle. apply vle_trans. Qed.

Lemma value_compare_antisym a b :
  value_compare b a = CompOpp <$> value_compare a b.
Proof.
  destruct a as [|[]|m e], b as [|[]|m' e']; try done.
  cbn. rewrite Z.compare_antisym, Z.min_comm. done.
Qed.

Lemma num_value_nan x : num_value x = VNan <-> is_nan x = true.
Proof. destruct x as [|[]]; done. Qed.

Lemma num_compare_some x y :
  is_nan x = false -> is_nan y = false -> is_Some (num_compare x y).
Proof.
  intros Hx Hy. unfold num_compare.
  destruct (num_value x) as [| |] eqn:Ex, (num_value y) as [| |] eqn:Ey;
    rewrite ?num_value_nan in *; try congruence; cbn; eauto.
Qed.

Lemma num_ltb_not_leb x y :
  is_nan x = false -> is_nan y = false -> num_ltb x y = negb (num_leb y x).
Proof.
  intros Hx Hy. destruct (num_compare_some x y Hx Hy) as [c Hc].
  unfold num_ltb, num_leb. unfold num_compare in *.
  rewrite (value_compare_antisym (num_value x)), Hc. by destruct c.
Qed.

Lemma num_leb_total x y :
  is_nan x = false -> is_nan y = false ->
  num_leb x y = true \/ num_leb y x = true.
Proof.
  intros Hx Hy. destruct (num_leb y x) eqn:E; [by right|left].
  pose proof (num_ltb_not_leb x y Hx Hy) as Hl. rewrite E in Hl.
  unfold num_ltb, num_leb in *. by destruct (num_compare x y) as [[]|].
Qed.

Lemma num_leb_refl x : is_nan x = false -> num_leb x x = true.
Proof. intros Hx. by destruct (num_leb_total x x Hx Hx). Qed.

Lemma num_ltb_leb x y : num_ltb x y = true -> num_leb x y = true.
Proof. unfold num_ltb, num_leb. by destruct (num_compare x y) as [[]|]. Qed.

Lemma num_leb_not_ltb x y : num_leb y x = true -> num_ltb x y = false.
Proof.
  unfold num_ltb, num_leb, num_compare. rewrite (value_compare_antisym (num_value x)).
  by destruct (value_compare (num_value x) (num_value y)) as [[]|].
Qed.

(** [max] and [min] choose one of their arguments, and the right one. *)
Lemma num_max_spec a b :
  is_nan a = false -> is_nan b = false ->
  (num_max a b = a \/ num_max a b = b) /\
  num_leb a (num_max a b) = true /\ num_leb b (num_max a b) = true.
Proof.
  intros Ha Hb. unfold num_max, num_gtb.
  destruct (num_ltb a b) eqn:E.
  - apply num_ltb_leb in E. auto using num_leb_refl.
  - rewrite num_ltb_not_leb in E by done. apply negb_false_iff in E.
    auto using num_leb_refl.
Qed.

Lemma num_min_spec a b :
  is_nan a = false -> is_nan b = false ->
  (num_min a b = a \/ num_min a b = b) /\
  num_leb (num_min a b) a = true /\ num_leb (num_min a b) b = true.
Proof.
  intros Ha Hb. unfold num_min.
  destruct (num_ltb b a) eqn:E.
  - apply num_ltb_leb in E. auto using num_leb_refl.
  - rewrite num_ltb_not_leb in E by done. apply negb_false_iff in E.
    auto using num_leb_refl.
Qed.
