(* ===== verification/PyString.v ===== *)
(** * Python strings and the regular expressions of the repository.

    A string is a [string]; the functions that look inside work on its list of
    characters, a [text]. *)
From S2P Require Import Prelude.
From Stdlib Require Export Ascii String.
From stdpp Require Export strings list.

Abbreviation text := (list ascii).

Definition txt (s : string) : text := list_ascii_of_string s.
Definition str (t : text) : string := string_of_list_ascii t.

Lemma str_txt s : str (txt s) = s.
Proof. apply string_of_list_ascii_of_string. Qed.
Lemma txt_str t : txt (str t) = t.
Proof. apply list_ascii_of_string_of_list_ascii. Qed.
#[export] Hint Rewrite str_txt txt_str : pystr.

#[export] Instance txt_inj : Inj (=) (=) txt.
Proof. intros s1 s2 Heq. by rewrite <- (str_txt s1), Heq, str_txt. Qed.

Definition newline : ascii := "010".
Definition tab : ascii := "009".
Definition space : ascii := " ".

(** The ASCII characters that [str.strip] removes and [\s] matches in a string. *)
Definition is_space (c : ascii) : bool :=
  bool_decide (c ∈ [" "; "009"; "010"; "011"; "012"; "013"; "028"; "029"; "030"; "031"]%char).

Definition is_digit (c : ascii) : bool :=
  let n := nat_of_ascii c in (48 <=? n) && (n <=? 57).
Definition is_alnum_ (c : ascii) : bool :=
  let n := nat_of_ascii c in
  is_digit c || ((65 <=? n) && (n <=? 90)) || ((97 <=? n) && (n <=? 122)) || (n =? 95).
Definition is_hex (c : ascii) : bool :=
  let n := nat_of_ascii c in
  is_digit c || ((65 <=? n) && (n <=? 70)) || ((97 <=? n) && (n <=? 102)).

(** The longest prefix whose characters satisfy [p], and the rest. *)
Fixpoint span {A} (p : A -> bool) (l : list A) : list A * list A :=
  match l with
  | [] => ([], [])
  | x :: l => if p x then let '(a, b) := span p l in (x :: a, b) else ([], x :: l)
  end.

(** [s.split(c, 1)], when [c] occurs in [s]. *)
Fixpoint split_once {A} `{EqDecision A} (c : A) (l : list A) : option (list A * list A) :=
  match l with
  | [] => None
  | x :: l => if decide (x = c) then Some ([], l)
              else '(a, b) ← split_once c l; Some (x :: a, b)
  end.

(** [s.split(c)] *)
Fixpoint split_on {A} `{EqDecision A} (c : A) (l : list A) : list (list A) :=
  match l with
  | [] => [[]]
  | x :: l => if decide (x = c) then [] :: split_on c l
              else match split_on c l with
                   | w :: ws => (x :: w) :: ws
                   | [] => [[x]]
                   end
  end.

(** [s in l] for strings: [s] occurs somewhere in [l]. *)
Fixpoint occurs (s l : text) : bool :=
  bool_decide (s `prefix_of` l) ||
  match l with [] => false | _ :: l => occurs s l end.

Definition lstrip (p : ascii -> bool) (t : text) : text := (span p t).2.
Definition rstrip (p : ascii -> bool) (t : text) : text :=
  reverse (lstrip p (reverse t)).
(** [s.strip()] *)
Definition strip (t : text) : text := rstrip is_space (lstrip is_space t).

(** [sep.join(l)] *)
Fixpoint join (sep : text) (l : list text) : text :=
  match l with
  | [] => []
  | [t] => t
  | t :: l => t ++ sep ++ join sep l
  end.
Definition show_dir (d : option text) : text := default (txt "None") d.

(** [os.path.join(a, b)] on POSIX. *)
Definition path_join (a b : text) : text :=
  if decide (head b = Some "/"%char) then b
  else if decide (a = [] \/ last a = Some "/"%char) then a ++ b
  else a ++ txt "/" ++ b.

(** [str.upper] *)
Definition upper_char (c : ascii) : ascii :=
  let n := nat_of_ascii c in if (97 <=? n)%nat && (n <=? 122)%nat then ascii_of_nat (n - 32) else c.
Definition upper (s : text) : text := upper_char <$> s.

(** [str.lower], [str.capitalize] *)
Definition lower_char (c : ascii) : ascii :=
  let n := nat_of_ascii c in if (65 <=? n)%nat && (n <=? 90)%nat then ascii_of_nat (n + 32) else c.
Definition lower (s : text) : text := lower_char <$> s.
Definition capitalize (s : text) : text :=
  match s with [] => [] | c :: s => upper_char c :: lower s end.

(** [list.sort] on strings. *)
Fixpoint text_leb (a b : text) : bool :=
  match a, b with
  | [], _ => true
  | _, [] => false
  | x :: a, y :: b =>
      if (nat_of_ascii x <? nat_of_ascii y)%nat then true
      else if (nat_of_ascii x =? nat_of_ascii y)%nat then text_leb a b else false
  end.
Fixpoint insert_text (x : text) (l : list text) : list text :=
  match l with
  | [] => [x]
  | y :: l' => if text_leb y x then y :: insert_text x l' else x :: l
  end.
Definition sort_texts (l : list text) : list text := foldl (fun sorted x => insert_text x sorted) [] l.

(** [repr] of a string of printable characters. *)
Definition py_repr (s : text) : text :=
  let q := if decide ("'"%char ∈ s /\ "034"%char ∉ s) then "034"%char else "'"%char in
  [q] ++ (s ≫= fun c => if decide (c = q \/ c = "\"%char) then ["\"%char; c] else [c]) ++ [q].
(** [str] of a list of such strings. *)
Fixpoint join_reprs (l : list text) : text :=
  match l with [] => [] | [s] => py_repr s | s :: l => py_repr s ++ txt ", " ++ join_reprs l end.
Definition list_repr (l : list text) : text := txt "[" ++ join_reprs l ++ txt "]".

(** [f.readlines()]: every line keeps its newline. *)
Fixpoint readlines (t : text) : list text :=
  match t with
  | [] => []
  | c :: t =>
      if decide (c = newline) then [c] :: readlines t
      else match readlines t with
           | l :: ls => (c :: l) :: ls
           | [] => [[c]]
           end
  end.

(** ** Facts *)

Lemma span_app {A} (p : A -> bool) l : (span p l).1 ++ (span p l).2 = l.
Proof.
  induction l as [|x l IH]; [done|]. cbn. destruct (p x); [|done].
  destruct (span p l); cbn in *. by f_equal.
Qed.

Lemma span_all {A} (p : A -> bool) l1 l2 :
  Forall (fun x => p x = true) l1 ->
  match l2 with x :: _ => p x = false | [] => True end ->
  span p (l1 ++ l2) = (l1, l2).
Proof.
  intros H1 H2. induction H1 as [|x l1 Hx _ IH]; cbn.
  - destruct l2 as [|y l2]; [done|]. cbn. by rewrite H2.
  - by rewrite Hx, IH.
Qed.

Lemma span_forall {A} (p : A -> bool) l : Forall (fun x => p x = true) (span p l).1.
Proof.
  induction l as [|x l IH]; cbn; [constructor|].
  destruct (p x) eqn:E; [|constructor]. destruct (span p l). by constructor.
Qed.

Lemma split_once_app {A} `{EqDecision A} (c : A) l1 l2 :
  c ∉ l1 -> split_once c (l1 ++ c :: l2) = Some (l1, l2).
Proof.
  induction l1 as [|x l1 IH]; cbn; intros Hc; [by rewrite decide_True|].
  rewrite decide_False by (intros ->; apply Hc; left).
  rewrite IH by (intros ?; apply Hc; by right). done.
Qed.

Lemma split_once_None {A} `{EqDecision A} (c : A) l :
  c ∉ l -> split_once c l = None.
Proof.
  induction l as [|x l IH]; cbn; intros Hc; [done|].
  rewrite decide_False by (intros ->; apply Hc; left).
  rewrite IH by (intros ?; apply Hc; by right). done.
Qed.

Lemma split_on_app {A} `{EqDecision A} (c : A) l1 l2 :
  c ∉ l1 -> split_on c (l1 ++ c :: l2) = l1 :: split_on c l2.
Proof.
  induction l1 as [|x l1 IH]; cbn; intros Hc; [by rewrite decide_True|].
  rewrite decide_False by (intros ->; apply Hc; left).
  rewrite IH by (intros ?; apply Hc; by right). done.
Qed.

Lemma split_on_notin {A} `{EqDecision A} (c : A) l : Forall (fun w => c ∉ w) (split_on c l).
Proof.
  induction l as [|x l IH]; cbn; [repeat constructor; apply not_elem_of_nil|].
  case_decide; [constructor; [apply not_elem_of_nil|done]|].
  destruct (split_on c l) as [|w ws]; apply Forall_cons; [by split; [set_solver|]|].
  apply Forall_cons in IH as [Hw Hws]. split; [set_solver|done].
Qed.

Lemma split_on_cover {A} `{EqDecision A} (c : A) l x : x ∈ l -> x = c \/ exists w, w ∈ split_on c l /\ x ∈ w.
Proof.
  induction l as [|y l IH]; intros Hx; [by apply not_elem_of_nil in Hx|]. cbn. case_decide as Hy.
  - apply elem_of_cons in Hx as [->|Hx]; [by left|]. destruct (IH Hx) as [?|(w & Hw & Hxw)]; [by left|].
    right. exists w. split; [by right|done].
  - destruct (split_on c l) as [|v ws].
    + apply elem_of_cons in Hx as [->|Hx]; [right; exists [y]; set_solver|].
      destruct (IH Hx) as [?|(w & Hw & _)]; [by left|by apply not_elem_of_nil in Hw].
    + apply elem_of_cons in Hx as [->|Hx]; [right; exists (y :: v); split; left|].
      destruct (IH Hx) as [?|(w & Hw & Hxw)]; [by left|]. right. apply elem_of_cons in Hw as [->|Hw].
      * exists (y :: v). split; [left|by right].
      * exists w. split; [by right|done].
Qed.

Lemma split_on_none {A} `{EqDecision A} (c : A) l : c ∉ l -> split_on c l = [l].
Proof.
  induction l as [|x l IH]; cbn; intros Hc; [done|].
  rewrite decide_False by (intros ->; apply Hc; left).
  rewrite IH by (intros ?; apply Hc; by right). done.
Qed.

(** ** Decimal integers

    [int(s)] on a run of digits, and [str(n)]. *)

Definition digit_value (c : ascii) : Z := Z.of_nat (nat_of_ascii c) - 48.
Definition digits_value (t : text) : Z :=
  fold_left (fun n c => 10 * n + digit_value c)%Z t 0%Z.

Definition digit (n : Z) : ascii := ascii_of_nat (48 + Z.to_nat n).

(** The digits of a natural number, most significant first. *)
Fixpoint digits_of (fuel : nat) (n : Z) : text :=
  match fuel with
  | O => []
  | S fuel => if (n <? 10)%Z then [digit n]
              else digits_of fuel (n / 10) ++ [digit (n mod 10)]
  end.
Definition show_Z (n : Z) : text :=
  let digits m := digits_of (S (Z.to_nat (Z.log2 m))) m in
  if (n <? 0)%Z then "-"%char :: digits (- n)%Z else digits n.

Lemma nat_of_digit n : (0 <= n < 10)%Z -> nat_of_ascii (digit n) = 48 + Z.to_nat n.
Proof. intros Hn. unfold digit. rewrite nat_ascii_embedding; lia. Qed.

Lemma is_digit_digit n : (0 <= n < 10)%Z -> is_digit (digit n) = true.
Proof.
  intros Hn. unfold is_digit. rewrite nat_of_digit by done.
  apply andb_true_intro. split; apply Nat.leb_le; lia.
Qed.

Lemma digits_of_spec fuel n :
  (0 <= n)%Z -> (n < 2 ^ Z.of_nat fuel)%Z ->
  Forall (fun c => is_digit c = true) (digits_of fuel n) /\
  digits_value (digits_of fuel n) = n /\ (0 < fuel -> digits_of fuel n <> []).
Proof.
  revert n. induction fuel as [|fuel IH]; intros n Hn Hlt.
  - cbn in Hlt. assert (n = 0)%Z as -> by lia. split; [constructor|]. split; [done|lia].
  - cbn [digits_of]. destruct (Z.ltb_spec n 10).
    + split; [constructor; [by apply is_digit_digit|constructor]|].
      split; [|done]. unfold digits_value, digit_value. cbn [fold_left].
      rewrite nat_of_digit by lia. lia.
    + assert (Hmod := Z.mod_pos_bound n 10 ltac:(lia)).
      destruct (IH (n / 10)%Z) as (Hall & Hval & _).
      * apply Z.div_pos; lia.
      * rewrite Nat2Z.inj_succ, Z.pow_succ_r in Hlt by lia.
        apply Z.div_lt_upper_bound; lia.
      * split; [apply Forall_app; split; [done|]; constructor; [by apply is_digit_digit|constructor]|].
        split; [|intros _ ?%app_nil; naive_solver].
        unfold digits_value in *. rewrite fold_left_app, Hval. cbn [fold_left].
        unfold digit_value. rewrite nat_of_digit by done.
        pose proof (Z.div_mod n 10). lia.
Qed.

Lemma show_Z_spec n :
  (0 <= n)%Z ->
  Forall (fun c => is_digit c = true) (show_Z n) /\
  digits_value (show_Z n) = n /\ show_Z n <> [].
Proof.
  intros Hn. unfold show_Z. rewrite (proj2 (Z.ltb_ge _ _)) by lia.
  destruct (digits_of_spec (S (Z.to_nat (Z.log2 n))) n) as (? & ? & Hne); [done| |].
  - rewrite Nat2Z.inj_succ, Z2Nat.id by apply Z.log2_nonneg.
    destruct (Z.eq_dec n 0%Z) as [->|]; [done|]. apply Z.log2_spec. lia.
  - split; [done|]. split; [done|]. apply Hne. lia.
Qed.

(** ** Regular expressions

    Every expression of the repository is a sequence of character classes, each
    with a number of repetitions, some captured by a group, with optional
    anchors.  The matcher is the backtracking one of Python: a repetition takes
    as many characters as it can and gives them back one by one. *)

Record atom := Atom {
  a_class : ascii -> bool;
  a_min : nat;
  a_max : option nat;    (* [None]: no upper bound *)
  a_group : bool
}.

Inductive re :=
| RDone
| REnd                                (* [$]: the end, or before a final newline *)
| RAtom (a : atom) (k : re).

(** The numbers of repetitions to try, from [n] down to [lo]. *)
Fixpoint try_down {A} (f : nat -> option A) (n extra : nat) : option A :=
  match f (n + extra) with
  | Some r => Some r
  | None => match extra with O => None | S extra => try_down f n extra end
  end.

Fixpoint re_match_at (r : re) (s : text) : option (list text * text) :=
  match r with
  | RDone => Some ([], s)
  | REnd => if decide (s = [] \/ s = [newline]) then Some ([], s) else None
  | RAtom a k =>
      let run := length (span (a_class a) s).1 in
      let hi := match a_max a with Some m => min m run | None => run end in
      if hi <? a_min a then None
      else try_down (fun n =>
             '(gs, rest) ← re_match_at k (drop n s);
             Some (if a_group a then (take n s :: gs, rest) else (gs, rest)))
           (a_min a) (hi - a_min a)
  end.

(** [re.match]: the groups of a match at the start of the string. *)
Definition re_match (r : re) (s : text) : option (list text) := fst <$> re_match_at r s.

(** Notations for patterns. *)
Definition is_char (c : ascii) (x : ascii) : bool := bool_decide (x = c).
Definition dot (x : ascii) : bool := negb (is_char newline x).
Definition re_class (p : ascii -> bool) (k : re) : re := RAtom (Atom p 1 (Some 1) false) k.
Definition re_plus (p : ascii -> bool) (k : re) : re := RAtom (Atom p 1 None true) k.
Definition re_star (p : ascii -> bool) (k : re) : re := RAtom (Atom p 0 None true) k.
Fixpoint re_lit (t : text) (k : re) : re :=
  match t with [] => k | c :: t => re_class (is_char c) (re_lit t k) end.

(** A literal matches itself and nothing else. *)
Lemma re_match_class p k c s :
  p c = true -> re_match_at (re_class p k) (c :: s) = re_match_at k s.
Proof.
  intros Hc. cbn. rewrite Hc. destruct (span p s) as [a b]. cbn.
  rewrite drop_0. destruct (re_match_at k s) as [[??]|]; done.
Qed.

Lemma re_match_class_fail p k s :
  match s with c :: _ => p c = false | [] => True end ->
  re_match_at (re_class p k) s = None.
Proof. destruct s as [|c s]; [done|]. intros Hc. cbn. by rewrite Hc. Qed.

Lemma re_match_lit t k s : re_match_at (re_lit t k) (t ++ s) = re_match_at k s.
Proof.
  induction t as [|c t IH]; [done|]. cbn [re_lit app].
  rewrite re_match_class by (by apply bool_decide_eq_true). done.
Qed.

Lemma re_match_lit_inv t k s r :
  re_match_at (re_lit t k) s = Some r -> exists s', s = t ++ s' /\ re_match_at k s' = Some r.
Proof.
  revert s. induction t as [|c t IH]; intros s; [by exists s|]. cbn [re_lit].
  destruct s as [|x s]; [done|]. destruct (is_char c x) eqn:E.
  - rewrite re_match_class by done. apply bool_decide_eq_true in E as ->.
    intros (s' & -> & ?)%IH. by exists s'.
  - by rewrite re_match_class_fail.
Qed.

Lemma re_match_lit_fail t k s :
  ~ t `prefix_of` s -> re_match_at (re_lit t k) s = None.
Proof.
  intros Hn. destruct (re_match_at _ s) as [r|] eqn:E; [|done].
  apply re_match_lit_inv in E as (s' & -> & _). destruct Hn. by exists s'.
Qed.

(** A repetition takes the whole run when what follows then matches. *)
Lemma try_down_first {A} (f : nat -> option A) n extra r :
  f (n + extra) = Some r -> try_down f n extra = Some r.
Proof. intros Hf. destruct extra; cbn; by rewrite Hf. Qed.

Lemma try_down_none {A} (f : nat -> option A) n extra :
  (forall i, n <= i <= n + extra -> f i = None) -> try_down f n extra = None.
Proof.
  induction extra as [|extra IH]; intros Hf; cbn; rewrite Hf by lia; [done|].
  apply IH. intros. apply Hf. lia.
Qed.

Lemma try_down_inv {A} (f : nat -> option A) n extra r :
  try_down f n extra = Some r -> exists i, n <= i <= n + extra /\ f i = Some r /\
    forall j, i < j <= n + extra -> f j = None.
Proof.
  induction extra as [|extra IH]; cbn; destruct (f _) eqn:E; intros Hr; simplify_eq.
  - exists (n + 0). split; [lia|]. split; [done|]. intros; lia.
  - exists (n + S extra). split; [lia|]. split; [done|]. intros; lia.
  - destruct (IH Hr) as (i & ? & ? & Hj). exists i. split; [lia|]. split; [done|].
    intros j ?. destruct (decide (j = n + S extra)) as [->|]; [done|]. apply Hj. lia.
Qed.

Lemma re_match_run p lo g k run s gs rest :
  Forall (fun c => p c = true) run ->
  match s with c :: _ => p c = false | [] => True end ->
  lo <= length run -> re_match_at k s = Some (gs, rest) ->
  re_match_at (RAtom (Atom p lo None g) k) (run ++ s) =
    Some (if g then (run :: gs, rest) else (gs, rest)).
Proof.
  intros Hrun Hs Hlo Hk. cbn [re_match_at a_class a_min a_max a_group].
  rewrite (span_all p run s) by done. cbn [fst].
  destruct (Nat.ltb_spec (length run) lo); [lia|]. apply try_down_first.
  replace (lo + (length run - lo)) with (length run) by lia.
  rewrite drop_app_length, take_app_length, Hk. cbn. by destruct g.
Qed.

Lemma re_match_plus p k run s gs rest :
  Forall (fun c => p c = true) run -> run <> [] ->
  match s with c :: _ => p c = false | [] => True end ->
  re_match_at k s = Some (gs, rest) ->
  re_match_at (re_plus p k) (run ++ s) = Some (run :: gs, rest).
Proof.
  intros Hrun Hne Hs Hk. unfold re_plus. erewrite re_match_run; [done|done..|  |done].
  destruct run; [done|cbn; lia].
Qed.

Lemma re_match_star p k run s gs rest :
  Forall (fun c => p c = true) run ->
  match s with c :: _ => p c = false | [] => True end ->
  re_match_at k s = Some (gs, rest) ->
  re_match_at (re_star p k) (run ++ s) = Some (run :: gs, rest).
Proof. intros Hrun Hs Hk. unfold re_star. erewrite re_match_run; [done|done..|lia|done]. Qed.

(** Sorting keeps the texts. *)
Lemma insert_text_perm x l : insert_text x l ≡ₚ x :: l.
Proof. induction l as [|y l IH]; [done|]. cbn. case_match; [|done]. rewrite IH. apply Permutation_swap. Qed.
Lemma sort_texts_perm l : sort_texts l ≡ₚ l.
Proof.
  induction l as [|x l IH] using rev_ind; [done|]. unfold sort_texts. rewrite foldl_app. cbn.
  by rewrite insert_text_perm, IH, Permutation_app_comm.
Qed.

Lemma readlines_line l rest : newline ∉ l -> readlines (l ++ newline :: rest) = (l ++ [newline]) :: readlines rest.
Proof.
  induction l as [|c l IH]; intros H; cbn [app readlines]; [by rewrite decide_True|].
  rewrite not_elem_of_cons in H. rewrite decide_False, IH by naive_solver. done.
Qed.

Lemma elem_of_repr c s : c ∈ py_repr s -> c ∈ s \/ c = "'"%char \/ c = "034"%char \/ c = "\"%char.
Proof.
  unfold py_repr. set (q := if decide _ then _ else _). assert (q = "'"%char \/ q = "034"%char) as Hq by (unfold q; case_decide; tauto).
  rewrite !elem_of_app, !list_elem_of_singleton, list_elem_of_bind. intros [->|[(d & Hd & Hin)| ->]]; [tauto| |tauto].
  case_decide; rewrite ?elem_of_cons, ?elem_of_nil in Hd; [|naive_solver]. destruct Hd as [->|[->|[]]]; tauto.
Qed.
Lemma elem_of_list_repr c l : c ∈ list_repr l ->
  (exists s, s ∈ l /\ c ∈ s) \/ c ∈ txt "[], '" \/ c = "034"%char \/ c = "\"%char.
Proof.
  unfold list_repr. rewrite !elem_of_app. intros [H|[H|H]]; [right; left; revert H; cbn; set_solver| |right; left; revert H; cbn; set_solver].
  induction l as [|s [|s' l] IH]; cbn [join_reprs] in H; [by apply not_elem_of_nil in H| |].
  - apply elem_of_repr in H as [H|[->|[->| ->]]]; [left; exists s; split; [left|done]| |tauto..]. right. left. cbn. set_solver.
  - rewrite !elem_of_app in H. destruct H as [H|[H|H]].
    + apply elem_of_repr in H as [H|[->|[->| ->]]]; [left; exists s; split; [left|done]| |tauto..]. right. left. cbn. set_solver.
    + right. left. revert H. cbn. set_solver.
    + destruct (IH H) as [(s0 & ? & ?)|?]; [left; exists s0; split; [by right|done]|tauto].
Qed.

(** A character that is not stripped ends the stripping. *)
Lemma lstrip_stop p pre c rest : Forall (fun x => p x = true) pre -> p c = false -> lstrip p (pre ++ c :: rest) = c :: rest.
Proof. intros H Hc. unfold lstrip. by rewrite span_all. Qed.
Lemma rstrip_stop p rest c post : Forall (fun x => p x = true) post -> p c = false -> rstrip p (rest ++ c :: post) = rest ++ [c].
Proof.
  intros H Hc. unfold rstrip. rewrite reverse_app, reverse_cons, <- app_assoc. cbn [app]. rewrite lstrip_stop; [|by apply Forall_reverse|done].
  by rewrite reverse_cons, reverse_involutive.
Qed.

(** A text that begins and ends with no blank. *)
Lemma strip_id s :
  (forall c t, s = c :: t -> is_space c = false) ->
  (forall c t, s = t ++ [c] -> is_space c = false) -> strip s = s.
Proof.
  intros Hl Hr. unfold strip, rstrip, lstrip.
  assert (forall s', (forall c t, s' = c :: t -> is_space c = false) -> (span is_space s').2 = s') as Hs.
  { intros [|c t] Hc; [done|]. cbn. by rewrite (Hc c t). }
  rewrite (Hs s Hl), Hs; [apply reverse_involutive|].
  intros c t Hc. apply (Hr c (reverse t)).
  by rewrite <- (reverse_involutive s), Hc, reverse_cons.
Qed.

Lemma strip_plain s : Forall (fun c => is_space c = false) s -> strip s = s.
Proof.
  intros H. apply strip_id; intros c t ->; [by apply Forall_cons in H as [? _]|].
  by apply Forall_app in H as [_ [? _]%Forall_cons].
Qed.

(** The digits of a number and other characters. *)
Lemma show_Z_not n c : (0 <= n)%Z -> is_digit c = false -> c ∉ show_Z n.
Proof. intros Hn Hc H. destruct (show_Z_spec n Hn) as (Hd & _). rewrite Forall_forall in Hd. specialize (Hd c H). congruence. Qed.
Lemma strip_show_Z n : (0 <= n)%Z -> strip (show_Z n) = show_Z n.
Proof.
  intros Hn. apply strip_plain. eapply Forall_impl; [apply show_Z_spec, Hn|]. intros c. unfold is_digit, is_space. by destruct c as [[] [] [] [] [] [] [] []].
Qed.

Lemma occurs_prefix s l : occurs s (s ++ l) = true.
Proof.
  assert (bool_decide (s `prefix_of` s ++ l) = true) as H by (by apply bool_decide_true, prefix_app_r).
  destruct (s ++ l); cbn; by rewrite H.
Qed.

(** A character that is not in a closed text. *)
Ltac not_in := apply (bool_decide_unpack _); vm_compute; exact I.
