(* ===== verification/PyDict.v ===== *)
(** * Python 2 dictionaries.

    A dictionary is a [gmap]; the order of its keys is the interface
    [DictOrder], against which the clients ([TopSort], [FindCycles],
    [RadLists]) are proved. *)
From S2P Require Import Prelude.

(** The order in which a Python 2 dictionary lists its keys is not specified:
    it is a parameter, any permutation of the keys. *)
Class DictOrder (K : Type) `{Countable K} := {
  dict_keys {V : Type} : gmap K V -> list K;
  dict_keys_perm {V} (m : gmap K V) : dict_keys m ≡ₚ (map_to_list m).*1
}.

(** One possible order, used to evaluate the definitions. *)
#[export, refine] Instance map_order (K : Type) `{Countable K} : DictOrder K | 100 :=
  {| dict_keys V m := (map_to_list m).*1 |}.
Proof. done. Defined.

Lemma elem_of_dict_keys {K} `{DictOrder K} {V} (m : gmap K V) x :
  x ∈ dict_keys m <-> is_Some (m !! x).
Proof.
  rewrite dict_keys_perm, list_elem_of_fmap. split.
  - intros ([y v] & -> & Hin%elem_of_map_to_list). eauto.
  - intros [v Hv]. exists (x, v). by rewrite elem_of_map_to_list.
Qed.

Lemma NoDup_dict_keys {K} `{DictOrder K} {V} (m : gmap K V) : NoDup (dict_keys m).
Proof. rewrite dict_keys_perm. apply NoDup_fst_map_to_list. Qed.
