(* ===== verification/PyPath.v ===== *)
(** * POSIX paths, as [os.path] has them. *)
From S2P Require Import Prelude PyString.

Notation slash := "/"%char (only parsing).

(** [os.path.basename] *)
Definition basename (p : text) : text := default [] (last (split_on slash p)).

(** [os.path.dirname] *)
Definition dirname (p : text) : text :=
  let head := take (length p - length (basename p)) p in
  if forallb (fun c => bool_decide (c = slash)) head then head
  else rstrip (fun c => bool_decide (c = slash)) head.

Definition up : text := txt "..".
Definition here : text := txt ".".

(** The components that [normpath] keeps, in reverse order. *)
Definition norm_step (absolute : bool) (kept : list text) (c : text) : list text :=
  if decide (c = [] \/ c = here) then kept
  else if decide (c <> up) then c :: kept
  else match kept with
       | [] => if absolute then [] else [up]
       | k :: kept' => if decide (k = up) then up :: kept else kept'
       end.
Definition norm_parts (absolute : bool) (parts : list text) : list text :=
  reverse (foldl (norm_step absolute) [] parts).

Definition is_absolute (p : text) : bool := bool_decide (head p = Some slash).

Definition join_parts (parts : list text) : text :=
  match parts with
  | [] => []
  | p :: parts => p ++ concat ((fun q => slash :: q) <$> parts)
  end.

(** Two leading slashes stay two, more become one. *)
Definition root (p : text) : text :=
  match p with
  | "/"%char :: "/"%char :: "/"%char :: _ => [slash]
  | "/"%char :: "/"%char :: _ => [slash; slash]
  | "/"%char :: _ => [slash]
  | _ => []
  end.

(** [os.path.normpath] *)
Definition normpath (p : text) : text :=
  match root p ++ join_parts (norm_parts (is_absolute p) (split_on slash p)) with
  | [] => here
  | q => q
  end.

(** [os.path.abspath] in the working directory [cwd]. *)
Definition abspath (cwd p : text) : text := normpath (if is_absolute p then p else path_join cwd p).

Fixpoint common_prefix (a b : list text) : nat :=
  match a, b with
  | x :: a, y :: b => if decide (x = y) then S (common_prefix a b) else 0
  | _, _ => 0
  end.

Definition parts_of (p : text) : list text := filter (fun c => c <> []) (split_on slash p).

(** [os.path.relpath(p, start)] *)
Definition relpath (cwd p start : text) : res text :=
  match p with
  | [] => Raise ValueError
  | _ =>
      let start_list := parts_of (abspath cwd start) in
      let path_list := parts_of (abspath cwd p) in
      let i := common_prefix start_list path_list in
      Ok match replicate (length start_list - i) up ++ drop i path_list with
         | [] => here
         | l => join_parts l
         end
  end.

(** ** Facts *)

(** A component that [normpath] keeps as it is. *)
Definition simple (c : text) : Prop := c <> [] /\ c <> here /\ c <> up /\ slash ∉ c.

Lemma split_on_join parts : Forall (fun p => slash ∉ p) parts -> parts <> [] ->
  split_on slash (join_parts parts) = parts.
Proof.
  destruct parts as [|p parts]; [done|]. intros [Hp Hps]%Forall_cons _. cbn [join_parts]. revert p Hp.
  induction Hps as [|q parts Hq _ IH]; intros p Hp; cbn.
  - rewrite app_nil_r. by apply split_on_none.
  - rewrite split_on_app by done. f_equal. by apply IH.
Qed.

Lemma norm_simple absolute parts : Forall simple parts -> norm_parts absolute parts = parts.
Proof.
  intros H. unfold norm_parts. enough (forall kept, foldl (norm_step absolute) kept parts = reverse parts ++ kept) as ->.
  { by rewrite app_nil_r, reverse_involutive. }
  induction H as [|c parts (Hn & Hh & Hu & _) _ IH]; intros kept; [done|]. cbn [foldl].
  unfold norm_step at 2. rewrite decide_False by tauto. rewrite decide_True by done.
  by rewrite IH, reverse_cons, <- app_assoc.
Qed.

Lemma common_prefix_app a b : common_prefix a (a ++ b) = length a.
Proof. induction a as [|x a IH]; [done|]. cbn. rewrite decide_True by done. by f_equal. Qed.

Lemma simple_noslash parts : Forall simple parts -> Forall (fun p => slash ∉ p) parts.
Proof. intros H. eapply Forall_impl; [exact H|]. by intros c (_ & _ & _ & ?). Qed.

Lemma simple_filter parts : Forall simple parts -> filter (fun c => c <> []) parts = parts.
Proof. induction 1 as [|c parts (Hc & _) _ IH]; [done|]. rewrite filter_cons_True by done. by f_equal. Qed.

Lemma split_abs parts : Forall simple parts -> parts <> [] ->
  split_on slash (slash :: join_parts parts) = [] :: parts.
Proof.
  intros H Hn. pose proof (split_on_join parts (simple_noslash _ H) Hn) as Hs. cbn.
  rewrite decide_True by done. by rewrite Hs.
Qed.

Lemma root_abs parts : Forall simple parts -> root (slash :: join_parts parts) = [slash].
Proof.
  destruct parts as [|[|c p] parts]; [done|by intros [(? & _) _]%Forall_cons|].
  intros [(_ & _ & _ & Hc) _]%Forall_cons. apply not_elem_of_cons in Hc as [Hc _]. cbn.
  repeat (case_match; try done).
Qed.

Lemma norm_nil absolute parts : norm_parts absolute ([] :: parts) = norm_parts absolute parts.
Proof. done. Qed.

(** An absolute path of simple components is normal. *)
Lemma normpath_abs parts : Forall simple parts -> normpath (slash :: join_parts parts) = slash :: join_parts parts.
Proof.
  intros H. unfold normpath. rewrite root_abs by done. destruct parts as [|p parts]; [done|].
  rewrite split_abs, norm_nil by done. by rewrite norm_simple.
Qed.

(** The components of [/a/b/...] *)
Lemma parts_abs cwd parts : Forall simple parts -> parts_of (abspath cwd (slash :: join_parts parts)) = parts.
Proof.
  intros H. unfold abspath. replace (is_absolute _) with true by done. rewrite normpath_abs by done.
  unfold parts_of. destruct parts as [|p parts]; [done|]. rewrite split_abs by done.
  rewrite filter_cons_False by (intros Hc; by apply Hc). by apply simple_filter.
Qed.

Lemma join_parts_app a b : a <> [] -> b <> [] -> join_parts (a ++ b) = join_parts a ++ slash :: join_parts b.
Proof.
  destruct a as [|x a]; [done|]. destruct b as [|y b]; [done|]. intros _ _. cbn.
  rewrite fmap_app, concat_app. cbn. by rewrite <- app_assoc.
Qed.

Lemma last_simple parts : Forall simple parts -> parts <> [] ->
  exists init c, join_parts parts = init ++ [c] /\ c <> slash.
Proof.
  intros H Hn. destruct (exists_last Hn) as (l & p & ->). apply Forall_app in H as [_ [(Hp & _ & _ & Hs) _]%Forall_cons].
  destruct (exists_last Hp) as (q & c & ->). assert (c <> slash) by (intros ->; apply Hs; set_solver).
  destruct l as [|x l].
  - exists q, c. cbn. by rewrite app_nil_r.
  - exists (join_parts (x :: l) ++ slash :: q), c. rewrite join_parts_app by done.
    change (join_parts [q ++ [c]]) with ((q ++ [c]) ++ []). by rewrite app_nil_r, <- app_assoc.
Qed.

Lemma path_join_below dir below : Forall simple dir -> Forall simple below -> dir <> [] -> below <> [] ->
  path_join (slash :: join_parts dir) (join_parts below) = slash :: join_parts (dir ++ below).
Proof.
  intros Hd Hb Hdn Hbn. unfold path_join. rewrite decide_False.
  - rewrite decide_False; [by rewrite join_parts_app|]. intros [?|Hl]; [done|].
    destruct (last_simple dir) as (init & c & Hj & Hc); [done..|]. rewrite Hj, app_comm_cons, last_snoc in Hl. congruence.
  - destruct below as [|[|c p] below]; [done| |]; apply Forall_cons in Hb as [(Hp & _ & _ & Hs) _]; [done|].
    cbn. intros [= ->]. apply Hs. constructor.
Qed.

(** [relpath] undoes [join] below an absolute directory. *)
Lemma relpath_below cwd dir below : Forall simple dir -> Forall simple below -> dir <> [] -> below <> [] ->
  relpath cwd (path_join (slash :: join_parts dir) (join_parts below)) (slash :: join_parts dir) = Ok (join_parts below).
Proof.
  intros Hd Hb Hdn Hbn. rewrite path_join_below by done. unfold relpath.
  rewrite !parts_abs by (try apply Forall_app; done). rewrite common_prefix_app.
  rewrite Nat.sub_diag, drop_app_length. by destruct below.
Qed.
