(* ===== verification/PyShlex.v ===== *)
(** * [shlex.split] in POSIX mode, and ["%s"] formatting. *)
From S2P Require Import Prelude PyString.

Definition squote : ascii := "'"%char.
Definition dquote : ascii := "034"%char.
Definition backslash : ascii := "\"%char.
Definition is_quote (c : ascii) : bool := bool_decide (c = squote \/ c = dquote).
(** The separators: blank, tab, carriage return, newline. *)
Definition is_blank_char (c : ascii) : bool :=
  bool_decide (c = space \/ c = tab \/ c = "013"%char \/ c = newline).

(** Between tokens, in a word, in quotes, or after a backslash in either. *)
Inductive lex_state := Between | Word | Quoted (q : ascii) | Escaped (back : lex_state).

(** [quoted]: the token has had a quoted part, so it is kept even if empty. *)
Fixpoint shlex_from (st : lex_state) (token : text) (quoted : bool) (s : text) : res (list text) :=
  let emit (k : res (list text)) : res (list text) :=
    if bool_decide (token <> []) || quoted then ts ← k; Ok (token :: ts) else k in
  match s with
  | [] =>
      match st with
      | Between | Word => emit (Ok [])
      | Quoted _ | Escaped _ => Raise ValueError
      end
  | c :: s =>
      match st with
      | Between | Word =>
          if is_blank_char c then emit (shlex_from Between [] false s)
          else if decide (c = backslash) then shlex_from (Escaped Word) token quoted s
          else if is_quote c then shlex_from (Quoted c) token quoted s
          else shlex_from Word (token ++ [c]) quoted s
      | Quoted q =>
          if decide (c = q) then shlex_from Word token true s
          else if decide (c = backslash /\ q = dquote) then shlex_from (Escaped st) token true s
          else shlex_from st (token ++ [c]) true s
      | Escaped back =>
          match back with
          | Quoted q => shlex_from back (if decide (c = backslash \/ c = q) then token ++ [c] else token ++ [backslash; c]) quoted s
          | _ => shlex_from back (token ++ [c]) quoted s
          end
      end
  end.
Definition shlex_split (s : text) : res (list text) := shlex_from Between [] false s.

(** [template % (arg,)]; what is not ["%s"] or ["%%"] is not used. *)
Fixpoint percent_from (arg : option text) (template : text) : res text :=
  match template with
  | [] => match arg with None => Ok [] | Some _ => Raise TypeError end
  | "%"%char :: "%"%char :: t => r ← percent_from arg t; Ok ("%"%char :: r)
  | "%"%char :: "s"%char :: t =>
      match arg with
      | Some a => r ← percent_from None t; Ok (a ++ r)
      | None => Raise TypeError
      end
  | "%"%char :: _ => Raise ValueError
  | c :: t => r ← percent_from arg t; Ok (c :: r)
  end.
Definition percent (template arg : text) : res text := percent_from (Some arg) template.

(** [s.replace('\\', '\\\\')]: every backslash twice. *)
Definition double_backslashes (s : text) : text :=
  s ≫= fun c => if decide (c = backslash) then [c; c] else [c].

(** ** Facts *)

(** A character that neither separates nor quotes. *)
Definition safe_char (c : ascii) : bool := negb (is_blank_char c) && negb (is_quote c).
Definition safe_word (w : text) : Prop := w <> [] /\ Forall (fun c => safe_char c = true) w.

Notation join_words := (join [space]).

Lemma double_app s t : double_backslashes (s ++ t) = double_backslashes s ++ double_backslashes t.
Proof. apply bind_app. Qed.
Lemma double_id s : backslash ∉ s -> double_backslashes s = s.
Proof.
  induction s as [|c s IH]; intros Hs; [done|]. apply not_elem_of_cons in Hs as [Hc Hs].
  unfold double_backslashes. rewrite bind_cons, decide_False by congruence. cbn. f_equal. by apply IH.
Qed.

Lemma shlex_word st w token quoted rest : (st = Between \/ st = Word) -> w <> [] ->
  Forall (fun c => safe_char c = true) w ->
  shlex_from st token quoted (double_backslashes w ++ rest) = shlex_from Word (token ++ w) quoted rest.
Proof.
  intros Hst Hn Hw. revert st token Hst Hn. induction Hw as [|c w Hc Hw IH]; intros st token Hst Hn; [done|].
  unfold safe_char in Hc. rewrite andb_true_iff, !negb_true_iff in Hc. destruct Hc as [Hb Hq].
  change (c :: w) with ([c] ++ w). rewrite double_app, <- app_assoc.
  assert (forall r, shlex_from st token quoted (double_backslashes [c] ++ r) = shlex_from Word (token ++ [c]) quoted r) as ->.
  { intros r. unfold double_backslashes. cbn [mbind list_bind]. rewrite app_nil_r. case_decide as Hs.
    - subst c. by destruct Hst as [->| ->].
    - destruct Hst as [->| ->]; cbn; by rewrite Hb, decide_False, Hq by done. }
  destruct w as [|d w]; [done|]. rewrite IH by auto. by rewrite <- app_assoc.
Qed.

(** Doubling the backslashes makes them stand for themselves. *)
Lemma shlex_doubled ws : Forall safe_word ws -> shlex_split (double_backslashes (join_words ws)) = Ok ws.
Proof.
  unfold shlex_split. induction 1 as [|w ws [Hn Hw] Hws IH]; [done|].
  destruct ws as [|v ws].
  - cbn [join_words]. rewrite <- (app_nil_r (double_backslashes w)). rewrite shlex_word by auto. cbn.
    by rewrite bool_decide_eq_true_2.
  - change (join_words (w :: v :: ws)) with (w ++ [space] ++ join_words (v :: ws)).
    rewrite !double_app, shlex_word by auto. change (double_backslashes [space]) with [space]. cbn [app shlex_from].
    change (is_blank_char space) with true. cbv iota. rewrite IH. cbn. by rewrite bool_decide_eq_true_2.
Qed.

Lemma shlex_plain ws : Forall (fun w => safe_word w /\ backslash ∉ w) ws -> shlex_split (join_words ws) = Ok ws.
Proof.
  intros H. rewrite <- (double_id (join_words ws)).
  - apply shlex_doubled. eapply Forall_impl; [exact H|]. by intros w [? _].
  - induction H as [|w ws [_ Hw] Hws IH]; [apply not_elem_of_nil|]. destruct ws as [|v ws]; [done|].
    change (join_words (w :: v :: ws)) with (w ++ [space] ++ join_words (v :: ws)).
    rewrite !not_elem_of_app. split; [done|]. split; [|done]. apply not_elem_of_cons. split; [done|apply not_elem_of_nil].
Qed.
