(* ===== verification/PyFloat.v ===== *)
(** * Numbers in texts: ["%.kf"], [int], [long] and [float]. *)
From S2P Require Import Prelude PyNum PyString.
From Stdlib Require Import SpecFloat.

(** ** Printing *)

(** [n / d], half to even and half away from zero, for [0 <= n] and [0 < d]. *)
Definition div_even (n d : Z) : Z :=
  let q := (n / d)%Z in
  let r := (n mod d)%Z in
  if (2 * r <? d)%Z || ((2 * r =? d)%Z && Z.even q) then q else (q + 1)%Z.
Definition div_away (n d : Z) : Z := ((2 * n + d) / (2 * d))%Z.

(** [m * 2 ^ e * 10 ^ digits] rounded to an integer, half to even, for
    [0 <= m]. *)
Definition scaled (digits m e : Z) : Z :=
  let m := (m * 10 ^ digits)%Z in
  if (0 <=? e)%Z then Z.shiftl m e else div_even m (Z.shiftl 1 (- e)).

(** The last [n] digits of a number, with zeros in front. *)
Fixpoint last_digits (n : nat) (k : Z) : text :=
  match n with
  | O => []
  | S n => last_digits n (k / 10) ++ [digit (k mod 10)]
  end.

(** The digits after the point, and the point unless there are none. *)
Definition decimals (n : nat) (k : Z) : text := if decide (n = 0) then [] else "."%char :: last_digits n k.

(** ["%.nf" % f] *)
Definition show_fixed (n : nat) (f : spec_float) : text :=
  match f with
  | S754_nan => txt "nan"
  | S754_infinity s => if s then txt "-inf" else txt "inf"
  | S754_zero s => (if s then txt "-" else []) ++ txt "0" ++ decimals n 0
  | S754_finite s m e =>
      let k := scaled (Z.of_nat n) (Z.pos m) e in
      (if s then txt "-" else []) ++ show_Z (k / 10 ^ Z.of_nat n) ++ decimals n k
  end.
Definition fmt (n : nat) (x : num) : res text := f ← to_float x; Ok (show_fixed n f).

(** ** Reading *)

Definition sign_of (s : text) : bool * text :=
  match s with
  | "-"%char :: s => (true, s)
  | "+"%char :: s => (false, s)
  | _ => (false, s)
  end.
Definition is_digits (s : text) : bool := bool_decide (s <> []) && forallb is_digit s.

(** [int(s)] *)
Definition int_of_text (s : text) : res Z :=
  let '(neg, s) := sign_of (strip s) in
  if is_digits s then Ok (if neg then (- digits_value s)%Z else digits_value s) else Raise ValueError.

(** [long(s)] of Python 2: a final [L] is allowed. *)
Definition long_of_text (s : text) : res Z :=
  let s := strip s in
  int_of_text (match last s with
               | Some c => if decide (c = "L"%char \/ c = "l"%char) then take (length s - 1) s else s
               | None => s
               end).

(** The float nearest to [n / d], for any integers with [0 < d]. *)
Definition ratio (n d : Z) : spec_float :=
  match n, d with
  | Z0, _ | _, Z0 => S754_zero false
  | Zpos n, Zpos d | Zneg n, Zneg d => SFdiv prec emax (S754_finite false n 0) (S754_finite false d 0)
  | Zpos n, Zneg d | Zneg n, Zpos d => SFdiv prec emax (S754_finite true n 0) (S754_finite false d 0)
  end.

(** An optional exponent. *)
Definition exponent_of (s : text) : res Z :=
  match s with
  | [] => Ok 0%Z
  | c :: s =>
      if decide (c = "e"%char \/ c = "E"%char) then
        let '(neg, s) := sign_of s in
        if is_digits s then Ok (if neg then (- digits_value s)%Z else digits_value s) else Raise ValueError
      else Raise ValueError
  end.

(** [float(s)] on decimal numerals; the names of infinities and of NaN are not
    accepted. *)
Definition float_of_text (s : text) : res num :=
  let '(neg, s) := sign_of (strip s) in
  let '(whole, s) := span is_digit s in
  let '(frac, s) := match s with "."%char :: s => span is_digit s | _ => ([], s) end in
  if bool_decide (whole = [] /\ frac = []) then Raise ValueError
  else
    e ← exponent_of s;
    let e := (e - Z.of_nat (length frac))%Z in
    let m := digits_value (whole ++ frac) in
    let f := if (0 <=? e)%Z then ratio (m * 10 ^ e) 1 else ratio m (10 ^ (- e)) in
    Ok (PFloat (if neg then SFopp f else f)).

(** ** Decimal digits

    A finite float is [N * 10 ^ s] for integers [N] and [s]. *)
Definition decimal_of (m e : Z) : Z * Z :=
  if (0 <=? e)%Z then (Z.shiftl m e, 0%Z) else ((m * 5 ^ (- e))%Z, e).

(** The number rounded to [p] significant digits: these, and the exponent of the
    first. *)
Definition significant (p : nat) (m e : Z) : text * Z :=
  let '(n, s) := decimal_of m e in
  let len := Z.of_nat (length (show_Z n)) in
  let pz := Z.of_nat p in
  if (len <=? pz)%Z then (show_Z (n * 10 ^ (pz - len)), (len - 1 + s)%Z)
  else
    let ds := show_Z (div_even n (10 ^ (len - pz))) in
    (take p ds, (len - 1 + s + (Z.of_nat (length ds) - pz))%Z).

Definition drop_zeros (s : text) : text := reverse (span (fun c => bool_decide (c = "0"%char)) (reverse s)).2.
Definition with_point (whole digits : text) : text :=
  match drop_zeros digits with [] => whole | ds => whole ++ "."%char :: ds end.

Definition show_exponent (x : Z) : text :=
  txt "e" ++ (if (x <? 0)%Z then txt "-" else txt "+") ++
  (if (Z.abs x <? 10)%Z then txt "0" else []) ++ show_Z (Z.abs x).

(** ["%.pg" % f] *)
Definition show_general (p : nat) (f : spec_float) : text :=
  let p := Nat.max p 1 in
  match f with
  | S754_nan => txt "nan"
  | S754_infinity s => if s then txt "-inf" else txt "inf"
  | S754_zero s => if s then txt "-0" else txt "0"
  | S754_finite s m e =>
      let '(ds, x) := significant p (Z.pos m) e in
      (if s then txt "-" else []) ++
      (if (x <? -4)%Z || (Z.of_nat p <=? x)%Z then with_point (take 1 ds) (drop 1 ds) ++ show_exponent x
       else if (x <? 0)%Z then with_point (txt "0") (replicate (Z.to_nat (- x - 1)) "0"%char ++ ds)
       else with_point (take (Z.to_nat x + 1) ds) (drop (Z.to_nat x + 1) ds))
  end.
Definition fmt_general (p : nat) (x : num) : res text := f ← to_float x; Ok (show_general p f).

(** [str(x)]; a float shows that it is one. *)
Definition str_num (x : num) : text :=
  match x with
  | PInt z => show_Z z
  | PFloat f =>
      let s := show_general 12 f in
      if existsb (fun c => bool_decide (c = "."%char \/ c = "e"%char \/ c = "n"%char)) s then s else s ++ txt ".0"
  end.

(** [round(x, n)], half away from zero.  A result that is not finite raises. *)
Definition round_float (f : spec_float) (n : Z) : res spec_float :=
  match f with
  | S754_finite s m e =>
      let '(d, t) := decimal_of (Z.pos m) e in
      let x := (t + n)%Z in
      let k := if (0 <=? x)%Z then (d * 10 ^ x)%Z else div_away d (10 ^ (- x)) in
      let r := if (0 <=? n)%Z then ratio k (10 ^ n) else ratio (k * 10 ^ (- n)) 1 in
      match r with
      | S754_infinity _ => Raise OverflowError
      | r => Ok (if s then SFopp r else r)
      end
  | _ => Ok f
  end.
Definition py_round (x : num) (n : Z) : res num := f ← to_float x; PFloat <$> round_float f n.

(** ** Facts *)

Example fmt_half_even : fmt 3 (frac 5 2000) = Ok (txt "0.003") /\ fmt 3 (frac 1 16) = Ok (txt "0.062") /\
  fmt 2 (frac (-1)%Z 3) = Ok (txt "-0.33") /\ fmt 3 (PInt 0) = Ok (txt "0.000").
Proof. repeat split; vm_compute; reflexivity. Qed.

Example fmt_general_ex :
  fmt_general 12 (frac 1 10) = Ok (txt "0.1") /\ fmt_general 3 (PInt 999500%Z) = Ok (txt "1e+06") /\
  fmt_general 3 (PInt 99950%Z) = Ok (txt "1e+05") /\ fmt_general 6 (PInt 99950%Z) = Ok (txt "99950") /\
  fmt_general 2 (frac 1 30000) = Ok (txt "3.3e-05") /\ fmt_general 2 (frac 1 3000) = Ok (txt "0.00033").
Proof. repeat split; vm_compute; reflexivity. Qed.

Example str_num_ex : str_num (frac 18 10) = txt "1.8" /\ str_num (frac 4 2) = txt "2.0" /\
  str_num (frac (10 ^ 12) 1) = txt "1e+12" /\ str_num (PFloat S754_nan) = txt "nan".
Proof. repeat split; vm_compute; reflexivity. Qed.

Example py_round_ex : py_round (frac 5 2) 0 = Ok (frac 3 1) /\ py_round (frac 2675 1000) 2 = Ok (frac 267 100) /\
  py_round (PInt (-1250)%Z) (-2)%Z = Ok (frac (-1300)%Z 1).
Proof. repeat split; vm_compute; reflexivity. Qed.

Example float_of_text_ex : float_of_text (txt "1.5e+3") = py_float 1500%Z /\ float_of_text (txt "0.1") = Ok (frac 1 10) /\
  float_of_text (txt " -2 ") = py_float (-2)%Z /\ float_of_text (txt ".") = Raise ValueError.
Proof. repeat split; vm_compute; reflexivity. Qed.

Lemma last_digits_length n k : length (last_digits n k) = n.
Proof. revert k. induction n as [|n IH]; intros k; [done|]. cbn. rewrite length_app, IH. cbn. lia. Qed.

(** Both roundings are to nearest: twice the error is at most the divisor. *)
Lemma div_even_nearest n d : (0 < d)%Z -> (Z.abs (2 * (div_even n d * d - n)) <= d)%Z.
Proof.
  intros Hd. unfold div_even. pose proof (Z.div_mod n d ltac:(lia)). pose proof (Z.mod_pos_bound n d ltac:(lia)).
  destruct (Z.ltb_spec (2 * (n mod d)) d); cbn [orb]; [nia|].
  destruct (Z.eqb_spec (2 * (n mod d)) d); cbn [andb]; [destruct (Z.even _)|]; nia.
Qed.
Lemma div_away_nearest n d : (0 < d)%Z -> (Z.abs (2 * (div_away n d * d - n)) <= d)%Z.
Proof.
  intros Hd. unfold div_away. pose proof (Z.div_mod (2 * n + d) (2 * d) ltac:(lia)).
  pose proof (Z.mod_pos_bound (2 * n + d) (2 * d) ltac:(lia)). nia.
Qed.

Lemma scaled_nearest digits m e : (0 <= digits)%Z -> (0 <= m)%Z -> (e < 0)%Z ->
  (Z.abs (2 * (scaled digits m e * 2 ^ (- e) - m * 10 ^ digits)) <= 2 ^ (- e))%Z.
Proof.
  intros Hd Hm He. unfold scaled. rewrite (proj2 (Z.leb_gt 0 e)) by lia.
  rewrite Z.shiftl_mul_pow2, Z.mul_1_l by lia. apply div_even_nearest, Z.pow_pos_nonneg; lia.
Qed.

(** [decimal_of] loses nothing. *)
Lemma decimal_of_exact m e : (e < 0)%Z ->
  let '(n, s) := decimal_of m e in s = e /\ (n * 2 ^ (- s) = m * 10 ^ (- s))%Z.
Proof.
  intros He. unfold decimal_of. rewrite (proj2 (Z.leb_gt 0 e)) by lia. split; [done|].
  rewrite <- Z.mul_assoc, <- Z.pow_mul_l. done.
Qed.
