(* ===== verification/PyXml.v ===== *)
(** * Parsed XML, as [xml.etree.ElementTree] has it. *)
From S2P Require Import Prelude PyString.

(** An element: its tag, its text, its attributes and the elements inside. *)
Inductive element := Element (tag : text) (etext : option text) (attrs : list (text * text)) (children : list element).
Definition etag (e : element) : text := let 'Element t _ _ _ := e in t.
Definition etext (e : element) : option text := let 'Element _ x _ _ := e in x.
Definition eattrs (e : element) : list (text * text) := let 'Element _ _ a _ := e in a.
Definition echildren (e : element) : list element := let 'Element _ _ _ c := e in c.

Definition findall (e : element) (tag : text) : list element := filter (fun c => etag c = tag) (echildren e).
Definition efind (e : element) (tag : text) : option element := head (findall e tag).
Definition eget (e : element) (key : text) : option text :=
  snd <$> head (filter (fun kv => kv.1 = key) (eattrs e)).

(** [e.findall("outer/inner")] *)
Definition findall_in (e : element) (outer inner : text) : list element :=
  findall e outer ≫= fun o => findall o inner.

(** ** Induction *)

Lemma element_ind' (P : element -> Prop) :
  (forall tag x attrs children, Forall P children -> P (Element tag x attrs children)) -> forall e, P e.
Proof.
  intros H. fix IH 1. intros [tag x attrs children]. apply H.
  induction children as [|c children IHc]; constructor; [apply IH|exact IHc].
Qed.
