(* ===== verification/RadSeq.v ===== *)
(** * Sequence functions of [bindings/python/rad_util.py]. *)
From S2P Require Import Prelude.

Section is_rotated.
Context {A : Type} `{EqDecision A}.

(** [s2] is [s1] with a prefix moved to the end. *)
Definition rotation (s1 s2 : list A) : Prop :=
  exists a b, s1 = a ++ b /\ s2 = b ++ a.

Definition is_rotated (seq1 seq2 : list A) : res bool :=
  if decide (length seq1 = length seq2) then
    head_item ← py_get seq2 0;
    let start_indexes :=
      filter (fun index1 => seq1 !! index1 = Some head_item)
             (seq 0 (length seq1)) in
    let double_seq1 := seq1 ++ seq1 in
    Ok (existsb (fun index1 => bool_decide
          (py_slice double_seq1 (Z.of_nat index1)
             (Z.of_nat (index1 + length seq1)) = seq2)) start_indexes)
  else Ok false.

Lemma take_drop_double (l : list A) i :
  i <= length l -> take (length l) (drop i (l ++ l)) = drop i l ++ take i l.
Proof.
  intros Hi. rewrite drop_app_le by done.
  rewrite take_app. rewrite take_ge by (rewrite length_drop; lia).
  f_equal. rewrite length_drop. f_equal. lia.
Qed.

Lemma rotation_index (s1 s2 : list A) :
  s2 <> [] -> rotation s1 s2 <->
  exists i, i < length s1 /\ s2 = drop i s1 ++ take i s1.
Proof.
  intros Hne. split.
  - intros (a & b & -> & ->). destruct b as [|x b].
    + exists 0. rewrite drop_0, take_0, !app_nil_r.
      destruct a; [done|]. cbn. split; [lia|done].
    + exists (length a). rewrite drop_app_length, take_app_length.
      rewrite length_app. cbn. split; [lia|done].
  - intros (i & Hi & ->). exists (take i s1), (drop i s1).
    by rewrite take_drop.
Qed.

Lemma rotation_length s1 s2 : rotation s1 s2 -> length s1 = length s2.
Proof. intros (a & b & -> & ->). rewrite !length_app. lia. Qed.

Lemma rotation_refl s : rotation s s.
Proof. exists [], s. by rewrite app_nil_r. Qed.

Lemma rotation_sym s1 s2 : rotation s1 s2 -> rotation s2 s1.
Proof. intros (a & b & -> & ->). by exists b, a. Qed.

Lemma rotation_trans s1 s2 s3 :
  rotation s1 s2 -> rotation s2 s3 -> rotation s1 s3.
Proof.
  intros (a & b & -> & ->) (c & d & Heq & ->).
  apply app_eq_inv in Heq as [(k & -> & ->)|(k & -> & ->)].
  - exists (a ++ c), k. rewrite <- !app_assoc. done.
  - exists k, (d ++ b). rewrite !app_assoc. done.
Qed.

#[export] Instance rotation_equiv : Equivalence rotation.
Proof.
  split; [exact rotation_refl|exact rotation_sym|exact rotation_trans].
Qed.

Lemma is_rotated_ok (s1 s2 : list A) :
  s2 <> [] ->
  exists b, is_rotated s1 s2 = Ok b /\ (b = true <-> rotation s1 s2).
Proof.
  intros Hne. unfold is_rotated.
  destruct (decide (length s1 = length s2)) as [Hlen|Hlen].
  2:{ exists false. split; [done|]. split; [done|].
      intros ?%rotation_length. lia. }
  destruct s2 as [|h s2]; [done|]. cbn [py_get]. eexists. split; [done|].
  rewrite existsb_exists, rotation_index by done. split.
  - intros (i & Hin & Heq%bool_decide_eq_true).
    apply list_elem_of_In, list_elem_of_filter in Hin as [_ Hin%elem_of_seq].
    exists i. split; [lia|]. rewrite <- Heq, py_slice_nat.
    + rewrite <- take_drop_double by lia. f_equal. lia.
    + rewrite length_app. lia.
  - intros (i & Hi & Heq). exists i. split.
    + apply list_elem_of_In, list_elem_of_filter. split.
      * destruct (drop i s1) as [|x t] eqn:Ed.
        { apply (f_equal length) in Ed. rewrite length_drop in Ed. cbn in Ed. lia. }
        cbn in Heq. simplify_eq. rewrite <- (Nat.add_0_r i), <- lookup_drop.
        by rewrite Ed.
      * apply elem_of_seq. lia.
    + apply bool_decide_eq_true. rewrite py_slice_nat by (rewrite length_app; lia).
      rewrite Heq, <- take_drop_double by lia. f_equal. lia.
Qed.

(** [is_rotated] answers whether one sequence is a rotation of the other
    on every pair of sequences but the empty pair, where looking at the head
    of the second one raises [IndexError]. *)
Theorem is_rotated_spec (s1 s2 : list A) :
  (is_rotated s1 s2 = Raise IndexError <-> s1 = [] /\ s2 = []) /\
  (is_rotated s1 s2 = Ok true <-> rotation s1 s2 /\ s1 <> []) /\
  (is_rotated s1 s2 = Ok false <-> ~ rotation s1 s2).
Proof.
  destruct (decide (s2 = [])) as [->|Hne].
  - destruct s1 as [|x s1]; [|pose proof (rotation_length (x :: s1) [])];
      cbn; naive_solver eauto using rotation_refl.
  - destruct (is_rotated_ok s1 s2 Hne) as (b & -> & Hb).
    pose proof (rotation_length s1 s2) as Hl.
    assert (s1 = [] -> ~ rotation s1 s2) by (intros -> ?%Hl; by destruct s2).
    destruct b; naive_solver.
Qed.
End is_rotated.
