(* ===== verification/RadLists.v ===== *)
(** * List and dictionary functions of [bindings/python/rad_util.py].

    [reverse], [transpose], [permutations], [uniquify], [reverse_dict],
    [find_common_fixes] and [get_args]. *)
From S2P Require Import Prelude PyString PyDict.

(** ** [reverse] and [transpose] *)

Definition reverse_string (input_string : text) : text := reverse input_string.

(** [zip( *rows )] stops with the shortest row. *)
Definition shortest {A} (rows : list (list A)) : nat :=
  match rows with
  | [] => 0
  | r :: rows => foldr (fun r n => length r `min` n) (length r) rows
  end.
Definition transpose {A} (matrix : list (list A)) : list (list A) :=
  (fun j => omap (fun row => row !! j) matrix) <$> seq 0 (shortest matrix).

(** ** [permutations] *)

(** [new_list.insert(i, item)] *)
Definition list_insert_at {A} (i : nat) (x : A) (l : list A) : list A :=
  take i l ++ x :: drop i l.

Fixpoint permutations {A} (input_list : list A) : list (list A) :=
  match input_list with
  | item :: ((_ :: _) as rest) =>
      sub_list ← permutations rest;
      i ← seq 0 (length input_list);
      [list_insert_at i item sub_list]
  | _ => [input_list]
  end.

(** ** [uniquify] *)

Section uniquify.
Context {A : Type} `{DictOrder A}.

(** Using an unhashable item as a key raises [TypeError]. *)
Context (hashable : A -> bool).
Definition key (x : A) : res A := if hashable x then Ok x else Raise TypeError.

Definition uniquify_fast (seq : list A) (preserve_order : bool) : res (list A) :=
  if preserve_order then
    s ← for_each (fun s x => k ← key x;
          Ok (if decide (is_Some (s.1 !! k)) then s
              else (<[k := 0%Z]> s.1, s.2 ++ [k]))) seq (∅ : gmap A Z, []);
    Ok s.2
  else
    d ← for_each (fun d x => k ← key x; Ok (<[k := 0%Z]> d)) seq (∅ : gmap A Z);
    Ok (dict_keys d).

Definition uniquify_slow (seq : list A) : list A :=
  foldl (fun result x => if decide (x ∈ result) then result else result ++ [x]) [] seq.

Definition uniquify (seq : list A) (preserve_order : bool) : res (list A) :=
  match uniquify_fast seq preserve_order with
  | Raise TypeError => Ok (uniquify_slow seq)
  | r => r
  end.
End uniquify.

(** ** [reverse_dict] *)

Definition reverse_dict {K V} `{DictOrder K} `{Countable V} (d : gmap K V) : gmap V K :=
  foldl (fun result k =>
    match d !! k with Some value => <[value := k]> result | None => result end)
    ∅ (dict_keys d).

(** ** [find_common_fixes] *)

Section find_common_fixes.
Context {A : Type} `{EqDecision A}.

(** One round of either loop: the [i]-th characters (counted by [at]) are
    compared and collected. *)
Definition fix_step (s1 s2 : list A) (pos : nat -> Z) (bound : nat) (s : nat * list A) :
    res (nat * list A + list A) :=
  let '(i, fix_) := s in
  if i <? bound then
    c1 ← py_get s1 (pos i);
    c2 ← py_get s2 (pos i);
    if decide (c1 = c2) then Ok (inl (S i, fix_ ++ [c1])) else Ok (inr fix_)
  else Ok (inr fix_).

Definition find_common_fixes (s1 s2 : list A) : res (list A * list A) :=
  let common_len := length s1 `min` length s2 in
  prefix ← loop (S common_len) (fix_step s1 s2 (fun i => Z.of_nat i) common_len) (0, []);
  suffix ← loop (S common_len)
    (fix_step s1 s2 (fun i => (- Z.of_nat i)%Z) (common_len + 1)) (1, []);
  Ok (prefix, reverse suffix).
End find_common_fixes.

(** ** [get_args] *)

Inductive arg_value := NoValue | Value (v : text) | Items (args : list text).

(** The key and the value of an argument that starts with a dash. *)
Definition parse_option (arg : text) : option (text * arg_value) :=
  match arg with
  | "-"%char :: _ =>
      match split_on "="%char (span (is_char "-"%char) arg).2 with
      | [k; v] => Some (k, Value v)
      | k :: _ => Some (k, NoValue)
      | [] => None
      end
  | _ => None
  end.

Definition get_args (argv : list text) : gmap text arg_value :=
  let '(d, args) := foldl (fun '(d, args) arg =>
    match parse_option arg with
    | Some (k, v) => (<[k := v]> d, args)
    | None => (d, args ++ [arg])
    end) (∅, []) argv in
  <[txt "args" := Items args]> d.

Example transpose_doc : transpose [[1; 2; 3]; [4; 5; 6]] = [[1; 4]; [2; 5]; [3; 6]].
Proof. reflexivity. Qed.
Example permutations_doc :
  permutations [1; 2; 3] = [[1;2;3]; [2;1;3]; [2;3;1]; [1;3;2]; [3;1;2]; [3;2;1]].
Proof. reflexivity. Qed.
Example uniquify_doc : uniquify (fun _ => true) [1; 7; 2; 2; 1] true = Ok [1; 7; 2] /\
  uniquify (fun x => x <? 7) [1; 7; 2; 2; 1] false = Ok [1; 7; 2].
Proof. by vm_compute. Qed.
Example fixes_doc :
  find_common_fixes (txt "abcelephantdef") (txt "abccowdef") = Ok (txt "abc", txt "def").
Proof. by vm_compute. Qed.
Example get_args_doc : map_to_list (get_args (txt <$> ["-v"; "--x=1"; "f"; "--y=a=b"])) ≡ₚ
  [(txt "v", NoValue); (txt "x", Value (txt "1")); (txt "y", NoValue);
   (txt "args", Items [txt "f"])].
Proof. vm_compute. solve_Permutation. Qed.

(** ** [transpose] *)

Lemma shortest_spec {A} (rows : list (list A)) j :
  j < shortest rows <-> rows <> [] /\ Forall (fun r => j < length r) rows.
Proof.
  destruct rows as [|r rows]; cbn; [split; [lia|by intros [? _]]|].
  rewrite Forall_cons. enough (j < foldr (fun r n => length r `min` n) (length r) rows <->
    j < length r /\ Forall (fun r => j < length r) rows) as -> by naive_solver.
  induction rows as [|r' rows IH]; cbn; [rewrite Forall_nil; tauto|].
  rewrite Forall_cons, Nat.min_glb_lt_iff, IH. tauto.
Qed.

Lemma omap_column {A} (rows : list (list A)) j i :
  Forall (fun r => j < length r) rows ->
  omap (fun row => row !! j) rows !! i = rows !! i ≫= (fun row => row !! j).
Proof.
  intros Hall. revert i. induction Hall as [|r rows Hr _ IH]; intros i; [done|].
  cbn. destruct (lookup_lt_is_Some_2 r j Hr) as [x Hx]. rewrite Hx.
  destruct i as [|i]; [by cbn|]. apply IH.
Qed.

Lemma transpose_lookup {A} (matrix : list (list A)) i j :
  j < shortest matrix ->
  transpose matrix !! j ≫= (fun col => col !! i) = matrix !! i ≫= (fun row => row !! j).
Proof.
  intros Hj. unfold transpose. rewrite list_lookup_fmap.
  rewrite (proj2 (lookup_seq 0 _ j j)) by (split; [done|lia]). cbn.
  apply omap_column, shortest_spec. done.
Qed.

Lemma transpose_shape {A} (matrix : list (list A)) :
  length (transpose matrix) = shortest matrix /\
  Forall (fun col => length col = length matrix) (transpose matrix).
Proof.
  unfold transpose. rewrite length_fmap, length_seq. split; [done|].
  apply Forall_fmap, Forall_forall. intros j [_ Hj]%elem_of_seq.
  apply shortest_spec in Hj as [_ Hall]. cbn.
  induction Hall as [|r rows Hr _ IH]; [done|]. cbn.
  destruct (lookup_lt_is_Some_2 r j Hr) as [x ->]. cbn. lia.
Qed.

Lemma shortest_uniform {A} (rows : list (list A)) n :
  rows <> [] -> Forall (fun r => length r = n) rows -> shortest rows = n.
Proof.
  destruct rows as [|r rows]; [done|]. intros _ [Hr Hall]%Forall_cons. cbn.
  induction Hall as [|r' rows Hr' _ IH]; cbn; lia.
Qed.

(** On a rectangular matrix that is not empty [transpose] exchanges rows
    and columns, and is its own inverse. *)
Theorem transpose_spec {A} (matrix : list (list A)) n :
  matrix <> [] -> 0 < n -> Forall (fun row => length row = n) matrix ->
  length (transpose matrix) = n /\
  Forall (fun col => length col = length matrix) (transpose matrix) /\
  (forall i j, j < n ->
     transpose matrix !! j ≫= (fun col => col !! i) = matrix !! i ≫= (fun row => row !! j)) /\
  transpose (transpose matrix) = matrix.
Proof.
  intros Hne Hn Hall. pose proof (shortest_uniform matrix n Hne Hall) as Hs.
  destruct (transpose_shape matrix) as [Hl Hc]. rewrite Hs in Hl.
  assert (Hne' : transpose matrix <> []) by (intros Hnil; rewrite Hnil in Hl; cbn in Hl; lia).
  pose proof (shortest_uniform _ _ Hne' Hc) as Hs'.
  destruct (transpose_shape (transpose matrix)) as [Hl' Hc']. rewrite Hs' in Hl'.
  split; [done|]. split; [done|]. split; [intros i j Hj; apply transpose_lookup; lia|].
  apply list_eq_same_length with (length matrix); [done..|]. intros i r r' Hi Hr Hr'.
  pose proof (Forall_lookup_1 _ _ _ _ Hall Hr') as Hlr'.
  pose proof (Forall_lookup_1 _ _ _ _ Hc' Hr) as Hlr.
  cbn in Hlr, Hlr'. apply list_eq_same_length with n; [congruence..|]. intros j x y Hj Hx Hy.
  pose proof (transpose_lookup (transpose matrix) j i ltac:(lia)) as H1.
  pose proof (transpose_lookup matrix i j ltac:(lia)) as H2.
  rewrite Hr in H1. rewrite Hr' in H2. cbn in *. congruence.
Qed.

(** ** [permutations] *)

Lemma insert_at_perm {A} i (x : A) l : list_insert_at i x l ≡ₚ x :: l.
Proof.
  unfold list_insert_at. by rewrite <- Permutation_middle, take_drop.
Qed.

Lemma permutations_cons {A} (x y : A) l :
  permutations (x :: y :: l) =
    sub ← permutations (y :: l);
    (fun i => list_insert_at i x sub) <$> seq 0 (S (S (length l))).
Proof. reflexivity. Qed.

Lemma elem_of_permutations_cons {A} (x : A) l p :
  p ∈ permutations (x :: l) <->
  exists sub i, sub ∈ permutations l /\ i <= length l /\ p = list_insert_at i x sub.
Proof.
  destruct l as [|y l].
  - cbn. rewrite list_elem_of_singleton. split.
    + intros ->. exists [], 0. split; [left|]. split; [lia|done].
    + intros (sub & i & ->%list_elem_of_singleton & Hi & ->). by destruct i; [|cbn in Hi; lia].
  - rewrite permutations_cons, list_elem_of_bind. split.
    + intros (sub & Hp & Hsub). apply list_elem_of_fmap in Hp as (i & -> & Hi%elem_of_seq).
      exists sub, i. split; [done|]. split; [cbn; lia|done].
    + intros (sub & i & Hsub & Hi & ->). exists sub. split; [|done].
      apply list_elem_of_fmap. exists i. split; [done|]. apply elem_of_seq. cbn in Hi. lia.
Qed.

Lemma elem_of_permutations {A} (l p : list A) : p ∈ permutations l <-> p ≡ₚ l.
Proof.
  revert p. induction l as [|x l IH]; intros p.
  - cbn. rewrite list_elem_of_singleton, Permutation_nil_r. done.
  - rewrite elem_of_permutations_cons. setoid_rewrite IH. split.
    + intros (sub & i & Hsub & _ & ->). by rewrite insert_at_perm, Hsub.
    + intros Hp. assert (Hx : x ∈ p) by (rewrite Hp; left).
      apply list_elem_of_split in Hx as (l1 & l2 & ->).
      exists (l1 ++ l2), (length l1). split; [|split].
      * by rewrite <- Permutation_middle in Hp; apply Permutation_cons_inv in Hp.
      * apply Permutation_length in Hp. rewrite length_app in Hp. cbn in Hp. lia.
      * unfold list_insert_at. by rewrite take_app_length, drop_app_length.
Qed.

Lemma permutations_length {A} (l : list A) : length (permutations l) = fact (length l).
Proof.
  induction l as [|x l IH]; [done|]. destruct l as [|y l]; [done|].
  rewrite permutations_cons. change (length (x :: y :: l)) with (S (length (y :: l))).
  cbn [fact]. rewrite <- IH. change (length (y :: l)) with (S (length l)).
  clear IH. induction (permutations (y :: l)) as [|p ps IHp]; [cbn; lia|].
  cbn [mbind list_bind]. rewrite length_app, length_fmap, length_seq.
  cbn [mbind] in IHp. rewrite IHp. cbn [length]. lia.
Qed.

Lemma insert_at_inj {A} (x : A) i j l l' :
  x ∉ l -> x ∉ l' -> i <= length l -> j <= length l' ->
  list_insert_at i x l = list_insert_at j x l' -> i = j /\ l = l'.
Proof.
  revert j l l'. induction i as [|i IH]; intros [|j] l l' Hl Hl' Hi Hj; unfold list_insert_at; cbn.
  - rewrite !take_0, !drop_0. by intros [= ->].
  - destruct l' as [|y l']; [cbn in Hj; lia|]. cbn. intros [= -> _]. by destruct Hl'; left.
  - destruct l as [|y l]; [cbn in Hi; lia|]. cbn. intros [= -> _]. by destruct Hl; left.
  - destruct l as [|y l], l' as [|z l']; cbn in Hi, Hj; try lia. cbn.
    rewrite not_elem_of_cons in Hl, Hl'. intros [= -> Heq].
    destruct (IH j l l') as [-> ->]; [tauto|tauto|lia|lia|exact Heq|done].
Qed.

(** [permutations] lists every permutation of a list, [n!] of them, and
    every one only once when the items are different. *)
Theorem permutations_spec {A} (l : list A) :
  (forall p, p ∈ permutations l <-> p ≡ₚ l) /\
  length (permutations l) = fact (length l) /\
  (NoDup l -> NoDup (permutations l)).
Proof.
  split; [apply elem_of_permutations|]. split; [apply permutations_length|].
  induction 1 as [|x l Hx Hnd IH]; [apply NoDup_singleton|].
  destruct l as [|y l]; [apply NoDup_singleton|]. rewrite permutations_cons.
  assert (Hnot : forall sub, sub ∈ permutations (y :: l) -> x ∉ sub /\ length sub = S (length l)).
  { intros sub Hsub%elem_of_permutations. by rewrite Hsub. }
  clear Hx Hnd. induction IH as [|sub subs Hsub _ IHs]; [constructor|]. cbn [mbind list_bind].
  assert (x ∉ sub /\ length sub = S (length l)) as [Hxs Hls] by (apply Hnot; left).
  apply NoDup_app. split; [|split; [|apply IHs; intros; apply Hnot; by right]].
  - apply NoDup_fmap_2_strong; [|apply NoDup_seq].
    intros i j Hi%elem_of_seq Hj%elem_of_seq Heq.
    apply insert_at_inj in Heq as [? _]; done || lia.
  - intros p Hp Hp'. apply list_elem_of_fmap in Hp as (i & -> & Hi%elem_of_seq).
    apply list_elem_of_bind in Hp' as (sub' & Hp' & Hsub').
    apply list_elem_of_fmap in Hp' as (j & Heq & Hj%elem_of_seq).
    destruct (Hnot sub') as [Hx' Hl']; [by right|].
    apply insert_at_inj in Heq as [_ ->]; done || lia.
Qed.

(** ** [uniquify] *)

Section uniquify_spec.
Context {A : Type} `{DictOrder A}.

(** The items in the order in which they first occur. *)
Fixpoint first_occurrences (l : list A) : list A :=
  match l with
  | [] => []
  | x :: l => x :: filter (fun y => y <> x) (first_occurrences l)
  end.

Lemma elem_of_first_occurrences l x : x ∈ first_occurrences l <-> x ∈ l.
Proof.
  induction l as [|y l IH]; [done|]. cbn. rewrite !elem_of_cons, list_elem_of_filter, IH.
  destruct (decide (x = y)); tauto.
Qed.

Lemma NoDup_first_occurrences l : NoDup (first_occurrences l).
Proof.
  induction l as [|y l IH]; [constructor|]. cbn. constructor; [|by apply NoDup_filter].
  rewrite list_elem_of_filter. tauto.
Qed.

Lemma first_occurrences_snoc l x :
  first_occurrences (l ++ [x]) =
    if decide (x ∈ l) then first_occurrences l else first_occurrences l ++ [x].
Proof.
  induction l as [|y l IH]; [done|]. cbn. rewrite IH.
  destruct (decide (x ∈ l)) as [Hx|Hx].
  - by rewrite decide_True by by right.
  - rewrite filter_app. destruct (decide (x = y)) as [->|Hxy].
    + rewrite decide_True by left. by rewrite filter_cons_False, app_nil_r by tauto.
    + rewrite decide_False by (rewrite elem_of_cons; tauto).
      by rewrite filter_cons_True.
Qed.

Lemma uniquify_slow_eq seq : uniquify_slow seq = first_occurrences seq.
Proof.
  unfold uniquify_slow. induction seq as [|x seq IH] using rev_ind; [done|].
  rewrite foldl_app, first_occurrences_snoc, IH. cbn.
  case_decide as Hx; case_decide as Hx'; rewrite elem_of_first_occurrences in Hx; tauto.
Qed.

Context (hashable : A -> bool).

Lemma for_each_key {S} (f : S -> A -> S) seq s :
  for_each (fun s x => k ← key hashable x; Ok (f s k)) seq s =
    if forallb hashable seq then Ok (foldl f s seq) else Raise TypeError.
Proof.
  revert s. induction seq as [|x seq IH]; intros s; [done|]. cbn [for_each forallb foldl].
  assert (key hashable x = if hashable x then Ok x else Raise TypeError) as -> by done.
  destruct (hashable x); [apply IH|done].
Qed.

Lemma preserve_fold seq :
  (foldl (fun s k => if decide (is_Some (s.1 !! k)) then s
                     else (<[k := 0%Z]> s.1, s.2 ++ [k])) (∅ : gmap A Z, []) seq).2
  = first_occurrences seq.
Proof.
  set (f := fun s k => _).
  enough (Hgen : (foldl f (∅, []) seq).2 = first_occurrences seq /\
    forall x, is_Some ((foldl f (∅, []) seq).1 !! x) <-> x ∈ seq) by apply Hgen.
  induction seq as [|x seq [IH1 IH2]] using rev_ind.
  - split; [done|]. intros x. cbn. rewrite lookup_empty, is_Some_alt.
    by split; [|intros ?%not_elem_of_nil].
  - rewrite foldl_app. cbn [foldl]. unfold f at 1 3.
    rewrite first_occurrences_snoc, <- IH1.
    destruct (decide (is_Some _)) as [Hx|Hx]; rewrite (IH2 x) in Hx.
    + rewrite decide_True by done. split; [done|]. intros y. rewrite IH2, elem_of_app, list_elem_of_singleton.
      naive_solver.
    + rewrite decide_False by done. split; [done|]. cbn [fst]. intros y.
      rewrite elem_of_app, list_elem_of_singleton, <- IH2. rewrite lookup_insert_is_Some.
      destruct (decide (x = y)); naive_solver.
Qed.

Lemma keys_fold seq : dict_keys (foldl (fun d k => <[k := 0%Z]> d) (∅ : gmap A Z) seq)
  ≡ₚ first_occurrences seq.
Proof.
  apply NoDup_Permutation; [apply NoDup_dict_keys|apply NoDup_first_occurrences|].
  intros x. rewrite elem_of_dict_keys, elem_of_first_occurrences.
  induction seq as [|y seq IH] using rev_ind.
  - cbn. rewrite lookup_empty, is_Some_alt. by split; [|intros ?%not_elem_of_nil].
  - rewrite foldl_app. cbn [foldl]. rewrite lookup_insert_is_Some, IH, elem_of_app, list_elem_of_singleton.
    destruct (decide (y = x)); naive_solver.
Qed.

(** [uniquify] never raises; it keeps the first occurrence of every item,
    in order unless the dictionary's own order was good enough, whether the
    items can be hashed or not. *)
Theorem uniquify_spec seq preserve_order :
  exists r, uniquify hashable seq preserve_order = Ok r /\ r ≡ₚ first_occurrences seq /\
    (preserve_order = true \/ forallb hashable seq = false -> r = first_occurrences seq).
Proof.
  unfold uniquify, uniquify_fast. rewrite !for_each_key.
  destruct (forallb hashable seq); [|destruct preserve_order; exists (uniquify_slow seq);
    by rewrite uniquify_slow_eq].
  destruct preserve_order; cbn [mbind result_bind].
  - rewrite preserve_fold. eauto.
  - eexists. split; [done|]. split; [apply keys_fold|naive_solver].
Qed.
End uniquify_spec.

(** ** [reverse_dict] *)

(** Every item of the reversed dictionary is an item of the original, every
    value is a key of it, and an injective dictionary is exactly inverted. *)
Theorem reverse_dict_spec {K V} `{DictOrder K} `{Countable V} (d : gmap K V) :
  (forall v k, reverse_dict d !! v = Some k -> d !! k = Some v) /\
  (forall v, is_Some (reverse_dict d !! v) <-> exists k, d !! k = Some v) /\
  ((forall k k' v, d !! k = Some v -> d !! k' = Some v -> k = k') ->
   forall v k, reverse_dict d !! v = Some k <-> d !! k = Some v).
Proof.
  unfold reverse_dict. set (f := fun (result : gmap V K) k => _).
  enough (Hgen : forall ks,
    (forall v k, foldl f ∅ ks !! v = Some k -> d !! k = Some v) /\
    (forall v, is_Some (foldl f ∅ ks !! v) <-> exists k, k ∈ ks /\ d !! k = Some v)).
  { destruct (Hgen (dict_keys d)) as [Hg1 Hg2]. split; [done|].
    assert (forall v, is_Some (foldl f ∅ (dict_keys d) !! v) <-> exists k, d !! k = Some v) as Hg3.
    { intros v. rewrite Hg2. setoid_rewrite elem_of_dict_keys. naive_solver. }
    split; [done|]. intros Hinj v k. split; [apply Hg1|]. intros Hk.
    destruct (proj2 (Hg3 v) ltac:(eauto)) as [k' Hk']. rewrite Hk'. f_equal.
    eapply Hinj; [by apply Hg1|done]. }
  induction ks as [|k ks [IH1 IH2]] using rev_ind.
  - split; intros v; cbn; rewrite lookup_empty; [done|]. rewrite is_Some_alt.
    split; [done|]. by intros (k & ?%not_elem_of_nil & _).
  - rewrite foldl_app. cbn [foldl]. unfold f at 1 3. setoid_rewrite elem_of_app.
    setoid_rewrite list_elem_of_singleton. destruct (d !! k) as [w|] eqn:Hk.
    + split.
      * intros v k' [[-> ->]|[_ ?%IH1]]%lookup_insert_Some; done.
      * intros v. rewrite lookup_insert_is_Some, IH2. destruct (decide (w = v)); naive_solver.
    + split; [done|]. intros v. rewrite IH2. naive_solver.
Qed.

(** ** [find_common_fixes] *)

Section fixes_spec.
Context {A : Type} `{EqDecision A}.
Implicit Types (l s : list A).

Fixpoint common_prefix l1 l2 : list A :=
  match l1, l2 with
  | x :: l1, y :: l2 => if decide (x = y) then x :: common_prefix l1 l2 else []
  | _, _ => []
  end.

Lemma common_prefix_spec l1 l2 :
  common_prefix l1 l2 `prefix_of` l1 /\ common_prefix l1 l2 `prefix_of` l2 /\
  forall q, q `prefix_of` l1 -> q `prefix_of` l2 -> q `prefix_of` common_prefix l1 l2.
Proof.
  revert l2. induction l1 as [|x l1 IH]; intros l2.
  { cbn. split; [done|]. split; [apply prefix_nil|done]. }
  destruct l2 as [|y l2]; [cbn; split; [apply prefix_nil|done]|]. cbn.
  destruct (decide (x = y)) as [->|Hne].
  - destruct (IH l2) as (H1 & H2 & H3). split; [by apply prefix_cons|].
    split; [by apply prefix_cons|]. intros [|z q] Hq1 Hq2; [apply prefix_nil|].
    pose proof (prefix_cons_inv_1 _ _ _ _ Hq1) as ->.
    apply prefix_cons, H3; by eapply prefix_cons_inv_2.
  - split; [apply prefix_nil|]. split; [apply prefix_nil|]. intros [|z q] Hq1 Hq2; [done|].
    pose proof (prefix_cons_inv_1 _ _ _ _ Hq1) as ->.
    by pose proof (prefix_cons_inv_1 _ _ _ _ Hq2).
Qed.

(** The loop collects the common prefix of two lists that [pos] enumerates. *)
Lemma fix_loop s1 s2 pos l1 : forall l2 fuel i acc,
  (forall k, k < length l1 -> py_get s1 (pos (i + k)) = or_raise IndexError (l1 !! k)) ->
  (forall k, k < length l2 -> py_get s2 (pos (i + k)) = or_raise IndexError (l2 !! k)) ->
  length l1 `min` length l2 < fuel ->
  loop fuel (fix_step s1 s2 pos (i + length l1 `min` length l2)) (i, acc)
    = Ok (acc ++ common_prefix l1 l2).
Proof.
  induction l1 as [|x l1 IH]; intros [|y l2] fuel i acc Hl1 Hl2 Hf;
    (destruct fuel as [|fuel]; [lia|]); cbn [loop]; unfold fix_step at 1; cbn [length] in *;
    rewrite ?Nat.min_0_l, ?Nat.min_0_r, ?Nat.add_0_r, ?Nat.ltb_irrefl;
    try (cbn; by rewrite app_nil_r).
  rewrite (proj2 (Nat.ltb_lt _ _)) by lia.
  pose proof (Hl1 0 ltac:(lia)) as Hx. pose proof (Hl2 0 ltac:(lia)) as Hy.
  rewrite Nat.add_0_r in Hx, Hy. rewrite Hx, Hy. cbn [lookup list_lookup or_raise mbind result_bind common_prefix].
  destruct (decide (x = y)) as [->|]; [|by rewrite app_nil_r].
  replace (i + S (length l1) `min` S (length l2)) with (S i + length l1 `min` length l2) by lia.
  rewrite IH.
  - by rewrite <- app_assoc.
  - intros k Hk. rewrite Nat.add_succ_comm. apply (Hl1 (S k)). lia.
  - intros k Hk. rewrite Nat.add_succ_comm. apply (Hl2 (S k)). lia.
  - lia.
Qed.

Lemma py_get_reverse s k : k < length s ->
  py_get s (- Z.of_nat (1 + k)) = or_raise IndexError (reverse s !! k).
Proof.
  intros Hk. unfold py_get, zlen. rewrite (proj2 (Z.leb_gt _ _)) by lia.
  rewrite (proj2 (Z.leb_le _ _)) by lia. rewrite reverse_lookup by done.
  do 2 f_equal. lia.
Qed.

Lemma find_common_fixes_eq s1 s2 :
  find_common_fixes s1 s2 =
    Ok (common_prefix s1 s2, reverse (common_prefix (reverse s1) (reverse s2))).
Proof.
  unfold find_common_fixes.
  pose proof (fix_loop s1 s2 (fun i => Z.of_nat i) s1 s2 (S (length s1 `min` length s2)) 0 []) as Hp.
  cbn [Nat.add app] in Hp. rewrite Hp; [|intros; apply py_get_nat..|lia]. cbn [mbind result_bind].
  pose proof (fix_loop s1 s2 (fun i => (- Z.of_nat i)%Z) (reverse s1) (reverse s2)
    (S (length s1 `min` length s2)) 1 []) as Hs.
  rewrite !length_reverse, (Nat.add_comm 1 (length s1 `min` length s2)) in Hs. rewrite Hs; [done| | |lia];
    intros k Hk; by apply py_get_reverse.
Qed.

(** [find_common_fixes] terminates without an exception and gives the
    longest common prefix and the longest common suffix. *)
Theorem find_common_fixes_spec s1 s2 :
  exists p s, find_common_fixes s1 s2 = Ok (p, s) /\
    (p `prefix_of` s1 /\ p `prefix_of` s2) /\
    (forall q, q `prefix_of` s1 -> q `prefix_of` s2 -> q `prefix_of` p) /\
    (s `suffix_of` s1 /\ s `suffix_of` s2) /\
    (forall q, q `suffix_of` s1 -> q `suffix_of` s2 -> q `suffix_of` s).
Proof.
  rewrite find_common_fixes_eq. eexists _, _. split; [done|].
  destruct (common_prefix_spec s1 s2) as (Hp1 & Hp2 & Hp).
  destruct (common_prefix_spec (reverse s1) (reverse s2)) as (Hs1 & Hs2 & Hs).
  split; [done|]. split; [done|].
  rewrite !suffix_prefix_reverse, !reverse_involutive. split; [done|].
  intros q. rewrite !suffix_prefix_reverse, !reverse_involutive. apply Hs.
Qed.
End fixes_spec.

(** ** [get_args] *)

(** What an argument says about the key [k]. *)
Definition says (k : text) (arg : text) : option arg_value :=
  '(k', v) ← parse_option arg; if decide (k' = k) then Some v else None.

Lemma omap_says k arg : omap (says k) [arg] =
  match parse_option arg with
  | Some (k', v) => if decide (k' = k) then [v] else []
  | None => []
  end.
Proof.
  cbn. unfold says. destruct (parse_option arg) as [[k' v]|]; [|done]. cbn.
  by destruct (decide (k' = k)).
Qed.

(** [get_args] keeps the arguments without a dash, in order, under [args];
    under any other key it keeps what the last option of that name says. *)
Theorem get_args_spec argv :
  get_args argv !! txt "args" = Some (Items (filter (fun a => parse_option a = None) argv)) /\
  forall k, k <> txt "args" -> get_args argv !! k = last (omap (says k) argv).
Proof.
  unfold get_args. set (f := fun '(d, args) arg => _).
  enough (Hgen : exists d, foldl f (∅, []) argv = (d, filter (fun a => parse_option a = None) argv) /\
    forall k, d !! k = last (omap (says k) argv)).
  { destruct Hgen as (d & -> & Hd). split; [apply lookup_insert_eq|].
    intros k Hk. by rewrite lookup_insert_ne by done. }
  induction argv as [|arg argv (d & IH & Hd)] using rev_ind; [by exists ∅|].
  rewrite foldl_app, IH. cbn [foldl f]. rewrite filter_app. setoid_rewrite omap_app.
  setoid_rewrite omap_says. destruct (parse_option arg) as [[k v]|] eqn:Ho.
  - exists (<[k := v]> d). rewrite filter_cons_False, app_nil_r by congruence.
    split; [done|]. intros k'. destruct (decide (k = k')) as [->|Hne].
    + by rewrite lookup_insert_eq, last_snoc.
    + by rewrite lookup_insert_ne, app_nil_r.
  - exists d. rewrite filter_cons_True by done. split; [done|].
    intros k'. by rewrite app_nil_r.
Qed.

(** ** Witnesses *)

Lemma transpose_spec_witness : transpose (transpose [[1; 2; 3]; [4; 5; 6]]) = [[1; 2; 3]; [4; 5; 6]].
Proof. apply (transpose_spec [[1; 2; 3]; [4; 5; 6]] 3); [done|lia|by repeat constructor]. Defined.
