(* ===== verification/RadBits.v ===== *)
(** * Binary strings of [bindings/python/rad_util.py].

    [int2bin], [bin2int], [lsb], [gray_encode], [random_vec] and
    [binary_range].  A binary string is a text of the characters 0 and 1, most
    significant first; [bin n i] is the reference: the [n] lowest bits of [i]. *)
From S2P Require Import Prelude PyString.
#[local] Open Scope Z_scope.

(** ** [int2bin] and [bin2int] *)

(** The digits of [n] in base 16, most significant first. *)
Fixpoint nibbles (fuel : nat) (n : Z) : list Z :=
  match fuel with
  | O => []
  | S fuel => if n <? 16 then [n] else nibbles fuel (n / 16) ++ [n mod 16]
  end.
Definition hex_digit (d : Z) : ascii :=
  default "0"%char (txt "0123456789abcdef" !! Z.to_nat d).

(** [hex(i)]: a number that does not fit a machine word is a [long]. *)
Definition py_hex (i : Z) : text :=
  let m := Z.abs i in
  (if i <? 0 then txt "-" else []) ++ txt "0x" ++
  (hex_digit <$> nibbles (S (Z.to_nat (Z.log2 m))) m) ++
  (if (- 2 ^ 63 <=? i) && (i <? 2 ^ 63) then [] else txt "L").

(** [str.lower] *)
Definition lower (c : ascii) : ascii :=
  let n := nat_of_ascii c in
  if (65 <=? n)%nat && (n <=? 90)%nat then ascii_of_nat (n + 32) else c.

Definition hex2bin (c : ascii) : res text :=
  match c with
  | "0" => Ok (txt "0000") | "1" => Ok (txt "0001") | "2" => Ok (txt "0010")
  | "3" => Ok (txt "0011") | "4" => Ok (txt "0100") | "5" => Ok (txt "0101")
  | "6" => Ok (txt "0110") | "7" => Ok (txt "0111") | "8" => Ok (txt "1000")
  | "9" => Ok (txt "1001") | "a" => Ok (txt "1010") | "b" => Ok (txt "1011")
  | "c" => Ok (txt "1100") | "d" => Ok (txt "1101") | "e" => Ok (txt "1110")
  | "f" => Ok (txt "1111")
  | _ => Raise KeyError
  end%char.

(** ['0' * n] *)
Definition zeros (n : Z) : text := replicate (Z.to_nat n) "0"%char.

Definition int2bin (i n : Z) : res text :=
  let digits := py_from (filter (fun c => c <> "l"%char) (lower <$> py_hex i)) 2 in
  parts ← mapM hex2bin digits;
  let result := concat parts in
  if decide ("1"%char ∈ py_upto result (- n)) then Raise ValueError
  else
    let result := py_from result (- n) in
    Ok (zeros (n - zlen result) ++ result).

Definition is_bit (c : ascii) : bool := bool_decide (c = "0"%char \/ c = "1"%char).
Definition bit_value (c : ascii) : Z := if decide (c = "1"%char) then 1 else 0.
Definition bits_value (s : text) : Z := fold_left (fun n c => 2 * n + bit_value c) s 0.

(** [int(s, 2)]: blanks around, a sign and the prefix [0b] are accepted. *)
Definition bin2int (bin_string : text) : res Z :=
  let s := strip bin_string in
  let '(neg, s) := match s with
    | "-" :: s => (true, s) | "+" :: s => (false, s) | s => (false, s) end%char in
  let s := match s with
    | "0" :: "b" :: s => s | "0" :: "B" :: s => s | s => s end%char in
  if bool_decide (s <> []) && forallb is_bit s
  then Ok (if neg then - bits_value s else bits_value s)
  else Raise ValueError.

(** ** [lsb] and [gray_encode] *)

(** [2 ** n] is a float for a negative [n], which [&] refuses. *)
Definition lsb (x n : Z) : res Z :=
  if n <? 0 then Raise TypeError else Ok (Z.land x (2 ^ n - 1)).

Definition gray_encode (i : Z) : Z := Z.lxor i (Z.shiftr i 1).

(** ** [random_vec]

    [draws k] is the [k]-th value of [int((2**10) * random.random())]. *)
Definition random_vec (draws : nat -> Z) (bits : nat) (max_value : option Z) : res text :=
  parts ← mapM (fun k => int2bin (draws k) 10) (seq 0 (bits / 10 + 1));
  let vector := concat parts in
  let top := 2 ^ Z.of_nat bits - 1 in
  vector ←
    (match max_value with
     | Some m =>
         if negb (m =? 0) && (m <? top) then
           v ← bin2int vector;
           if top =? 0 then Raise ZeroDivisionError
           else int2bin (v / top * m) (Z.of_nat bits)
         else Ok vector
     | None => Ok vector
     end);
  Ok (py_slice vector 0 (Z.of_nat bits)).

(** ** [binary_range] *)

Record counter := Counter { ct_i : nat; ct_v : text; ct_toggle : list Z }.

(** One round of the inner loop: add the carry [toggle[i]] to [v[i]]. *)
Definition carry_step (bits : Z) (s : counter) : res (counter + counter) :=
  let i := ct_i s in
  if Z.of_nat i <? bits then
    t ← or_raise IndexError (ct_toggle s !! i);
    if t =? 1 then
      c ← or_raise IndexError (ct_v s !! i);
      if decide (c = "0"%char)
      then Ok (inl (Counter (S i) (<[i := "1"%char]> (ct_v s)) (<[S i := 0]> (ct_toggle s))))
      else Ok (inl (Counter (S i) (<[i := "0"%char]> (ct_v s)) (<[S i := 1]> (ct_toggle s))))
    else Ok (inr s)
  else Ok (inr s).

(** One round of the outer loop; its state is [v], [toggle] and [l]. *)
Definition range_step (bits : Z) (s : text * list Z * list text) :
    res (text * list Z * list text + list text) :=
  let '(v, toggle, l) := s in
  t ← py_get toggle bits;
  if t =? 1 then Ok (inr l)
  else
    let l := l ++ [reverse v] in
    c ← loop (S (Z.to_nat bits)) (carry_step bits)
          (Counter 0 v (1 :: replicate (Z.to_nat bits) 0));
    Ok (inl (ct_v c, ct_toggle c, l)).

Definition binary_range (bits : Z) : res (list text) :=
  loop (S (Z.to_nat (2 ^ bits))) (range_step bits)
    (zeros bits, 1 :: replicate (Z.to_nat bits) 0, []).

Example int2bin_doc : int2bin 123 8 = Ok (txt "01111011") /\ int2bin 15 2 = Raise ValueError
  /\ bin2int (txt "0101") = Ok 5 /\ int2bin (-1) 8 = Raise KeyError.
Proof. by vm_compute. Qed.
Example binary_range_2 : binary_range 2 = Ok (txt <$> ["00"; "01"; "10"; "11"]%string)
  /\ binary_range 0 = Ok [] /\ binary_range (-1) = Ok [] /\ binary_range (-2) = Raise IndexError.
Proof. by vm_compute. Qed.

(** ** The reference *)

Definition bit (b : bool) : ascii := if b then "1"%char else "0"%char.

Fixpoint bin (n : nat) (i : Z) : text :=
  match n with O => [] | S n => bin n (i / 2) ++ [bit (Z.odd i)] end.

Lemma bin_length n i : length (bin n i) = n.
Proof.
  revert i. induction n as [|n IH]; intros i; [done|].
  cbn. rewrite length_app, IH. cbn. lia.
Qed.

Lemma bin_app n m i : bin (n + m) i = bin n (i / 2 ^ Z.of_nat m) ++ bin m i.
Proof.
  revert i. induction m as [|m IH]; intros i.
  - by rewrite Nat.add_0_r, Z.div_1_r, app_nil_r.
  - rewrite Nat.add_succ_r. cbn [bin]. rewrite IH, app_assoc. do 3 f_equal.
    rewrite Nat2Z.inj_succ, Z.pow_succ_r by lia. rewrite Z.div_div by lia. done.
Qed.

Lemma bin_mod n i : bin n (i mod 2 ^ Z.of_nat n) = bin n i.
Proof.
  revert i. induction n as [|n IH]; intros i; [done|]. cbn [bin].
  rewrite Nat2Z.inj_succ, Z.pow_succ_r by lia. f_equal.
  - rewrite <- (IH (i / 2)). f_equal. rewrite Z.rem_mul_r by lia.
    rewrite (Z.mul_comm 2), Z.div_add by lia.
    by rewrite (Z.div_small (i mod 2)) by (apply Z.mod_pos_bound; lia).
  - f_equal. f_equal. rewrite Z.rem_mul_r by lia.
    rewrite Z.odd_add_mul_2, Zmod_odd. by destruct (Z.odd i).
Qed.

Lemma bin_0 n : bin n 0 = replicate n "0"%char.
Proof.
  induction n as [|n IH]; [done|]. cbn [bin]. rewrite Z.div_0_l, IH by lia.
  change [bit (Z.odd 0)] with (replicate 1 "0"%char).
  rewrite <- replicate_add. f_equal. lia.
Qed.

Lemma bits_value_app s c : bits_value (s ++ [c]) = 2 * bits_value s + bit_value c.
Proof. unfold bits_value. by rewrite fold_left_app. Qed.

Lemma bits_value_bin n i : bits_value (bin n i) = i mod 2 ^ Z.of_nat n.
Proof.
  revert i. induction n as [|n IH]; intros i; [by rewrite Z.mod_1_r|].
  cbn [bin]. rewrite bits_value_app, IH, Nat2Z.inj_succ, Z.pow_succ_r by lia.
  rewrite Z.rem_mul_r, Zmod_odd by lia. destruct (Z.odd i); cbn [bit]; unfold bit_value;
    case_decide; try done; lia.
Qed.

Lemma bin_bits n i : forallb is_bit (bin n i) = true.
Proof.
  revert i. induction n as [|n IH]; intros i; [done|]. cbn [bin].
  rewrite forallb_app, IH. by destruct (Z.odd i).
Qed.

Lemma one_in_bin n i : "1"%char ∈ bin n i <-> i mod 2 ^ Z.of_nat n <> 0.
Proof.
  revert i. induction n as [|n IH]; intros i.
  - rewrite Z.mod_1_r. split; [by intros ?%not_elem_of_nil|done].
  - cbn [bin]. rewrite elem_of_app, list_elem_of_singleton, IH.
    rewrite Nat2Z.inj_succ, Z.pow_succ_r, Z.rem_mul_r, Zmod_odd by lia.
    pose proof (Z.mod_pos_bound (i / 2) (2 ^ Z.of_nat n) ltac:(lia)).
    destruct (Z.odd i); cbn [bit]; split; [lia|by right|intros [?|?]; [lia|done]|left; lia].
Qed.

(** ** [int2bin] against the reference *)

Lemma hex_digit_spec d : 0 <= d < 16 ->
  lower (hex_digit d) = hex_digit d /\ hex_digit d <> "l"%char /\
  hex2bin (hex_digit d) = Ok (bin 4 d).
Proof.
  intros Hd. rewrite <- (Z2Nat.id d) by lia. generalize (Z.to_nat d), (Z2Nat.id d ltac:(lia)).
  intros k Hk. assert (Hk' : (k < 16)%nat) by lia. clear -Hk'.
  do 16 (destruct k as [|k]; [by vm_compute|]). lia.
Qed.

Lemma nibbles_spec fuel n :
  0 <= n < 2 ^ Z.of_nat fuel -> (0 < fuel)%nat ->
  let ds := nibbles fuel n in
  Forall (fun d => 0 <= d < 16) ds /\ (0 < length ds)%nat /\
  n < 2 ^ Z.of_nat (4 * length ds) /\ concat (bin 4 <$> ds) = bin (4 * length ds) n.
Proof.
  revert n. induction fuel as [|fuel IH]; intros n Hn Hf ds; [lia|]. subst ds.
  cbn [nibbles]. destruct (Z.ltb_spec n 16) as [Hlt|Hge].
  { split; [apply Forall_singleton; lia|]. split; [cbn; lia|]. split; [done|].
    cbn [fmap list_fmap concat]. by rewrite app_nil_r. }
  rewrite Nat2Z.inj_succ, Z.pow_succ_r in Hn by lia.
  assert (0 < fuel)%nat by (destruct fuel; [cbn in Hn; lia|lia]).
  destruct (IH (n / 16)) as (Hall & Hpos & Hlt & Hbin); [|done|].
  { split; [apply Z.div_pos; lia|]. apply Z.div_lt_upper_bound; lia. }
  pose proof (Z.mod_pos_bound n 16 ltac:(lia)) as Hmod.
  rewrite length_app. cbn [length]. split; [apply Forall_app; split; [done|apply Forall_singleton; lia]|].
  replace (4 * (length (nibbles fuel (n / 16)) + 1))%nat
    with (4 * length (nibbles fuel (n / 16)) + 4)%nat by lia.
  split; [lia|]. split.
  - rewrite Nat2Z.inj_add, Z.pow_add_r by lia. change (2 ^ Z.of_nat 4) with 16.
    pose proof (Z.div_mod n 16). lia.
  - rewrite fmap_app, concat_app, Hbin. cbn [fmap list_fmap concat]. rewrite app_nil_r.
    rewrite (bin_app _ 4). change (2 ^ Z.of_nat 4) with 16. f_equal.
    by rewrite <- (bin_mod 4 n).
Qed.

Lemma mapM_hex ds : Forall (fun d => 0 <= d < 16) ds ->
  mapM hex2bin (hex_digit <$> ds) = Ok (bin 4 <$> ds).
Proof.
  induction 1 as [|d ds Hd _ IH]; [done|]. cbn.
  destruct (hex_digit_spec d Hd) as (_ & _ & ->). cbn. by rewrite IH.
Qed.

Lemma hex_digits i : 0 <= i ->
  py_from (filter (fun c => c <> "l"%char) (lower <$> py_hex i)) 2
  = hex_digit <$> nibbles (S (Z.to_nat (Z.log2 i))) i.
Proof.
  intros Hi. unfold py_hex. rewrite (proj2 (Z.ltb_ge _ _)), Z.abs_eq by lia.
  destruct (nibbles_spec (S (Z.to_nat (Z.log2 i))) i) as (Hall & _); [|lia|].
  { rewrite Nat2Z.inj_succ, Z2Nat.id by apply Z.log2_nonneg. split; [done|].
    destruct (decide (i = 0)) as [->|]; [done|]. apply Z.log2_spec. lia. }
  set (ds := nibbles _ i) in *. set (suffix := if _ && _ then _ else _).
  rewrite !fmap_app, !filter_app. change (filter _ (lower <$> [])) with (@nil ascii).
  change (filter _ (lower <$> txt "0x")) with (txt "0x").
  assert (filter (fun c => c <> "l"%char) (lower <$> suffix) = []) as ->
    by (subst suffix; by destruct (_ && _)).
  assert (filter (fun c => c <> "l"%char) (lower <$> (hex_digit <$> ds)) = hex_digit <$> ds) as ->.
  { induction Hall as [|d ds' Hd _ IH]; [done|]. cbn [fmap list_fmap].
    destruct (hex_digit_spec d Hd) as (-> & Hne & _). rewrite filter_cons_True by done.
    by f_equal. }
  rewrite app_nil_r. cbn [app]. by rewrite (py_from_nat (txt "0x" ++ (hex_digit <$> ds)) 2).
Qed.

Lemma zeros_bin (n m : nat) i : 0 <= i < 2 ^ Z.of_nat m ->
  zeros (Z.of_nat n) ++ bin m i = bin (n + m) i.
Proof.
  intros Hi. rewrite bin_app, Z.div_small, bin_0 by lia. unfold zeros. by rewrite Nat2Z.id.
Qed.

(** The whole of [int2bin] for a positive width. *)
Lemma int2bin_eq i (n : nat) : (0 < n)%nat -> 0 <= i ->
  int2bin i (Z.of_nat n) =
    if decide (i < 2 ^ Z.of_nat n) then Ok (bin n i) else Raise ValueError.
Proof.
  intros Hn Hi. unfold int2bin. rewrite hex_digits by done.
  destruct (nibbles_spec (S (Z.to_nat (Z.log2 i))) i) as (Hall & Hpos & Hlt & Hbin); [|lia|].
  { rewrite Nat2Z.inj_succ, Z2Nat.id by apply Z.log2_nonneg. split; [done|].
    destruct (decide (i = 0)) as [->|]; [done|]. apply Z.log2_spec. lia. }
  set (ds := nibbles _ i) in *. rewrite mapM_hex by done. cbn [mbind result_bind].
  rewrite Hbin. set (k := (4 * length ds)%nat) in *. clearbody k. clear ds Hall Hpos Hbin.
  rewrite py_upto_neg, py_from_neg by done. rewrite bin_length.
  destruct (decide (k <= n)%nat) as [Hle|Hgt].
  - replace (k - n)%nat with 0%nat by lia. rewrite take_0, drop_0.
    rewrite decide_False by apply not_elem_of_nil.
    assert (2 ^ Z.of_nat k <= 2 ^ Z.of_nat n) by (apply Z.pow_le_mono_r; lia).
    rewrite decide_True by lia. f_equal. unfold zlen. rewrite bin_length.
    replace (Z.of_nat n - Z.of_nat k) with (Z.of_nat (n - k)) by lia.
    rewrite zeros_bin by lia. f_equal. lia.
  - replace k with ((k - n) + n)%nat by lia. rewrite bin_app.
    replace (k - n + n - n)%nat with (k - n)%nat by lia.
    rewrite take_app_length', drop_app_length' by (by rewrite bin_length).
    assert (Hq : 0 <= i / 2 ^ Z.of_nat n < 2 ^ Z.of_nat (k - n)).
    { split; [apply Z.div_pos; lia|]. apply Z.div_lt_upper_bound; [lia|].
      rewrite <- Z.pow_add_r by lia. by replace (Z.of_nat n + _) with (Z.of_nat k) by lia. }
    pose proof (one_in_bin (k - n) (i / 2 ^ Z.of_nat n)) as Hone.
    rewrite Z.mod_small in Hone by done.
    unfold zlen. rewrite bin_length, Z.sub_diag. cbn [zeros Z.to_nat replicate app].
    assert (Hiff : i < 2 ^ Z.of_nat n <-> i / 2 ^ Z.of_nat n = 0) by (rewrite Z.div_small_iff; lia).
    destruct (decide (i < _)); [rewrite decide_False by tauto|rewrite decide_True by tauto]; done.
Qed.

Lemma bin_head n i : (0 < n)%nat -> exists b s, bin n i = bit b :: s /\ forallb is_bit s = true.
Proof.
  intros Hn. pose proof (bin_bits n i) as Hb. pose proof (bin_length n i) as Hl.
  destruct (bin n i) as [|c s]; [cbn in Hl; lia|]. cbn in Hb.
  apply andb_true_iff in Hb as [Hc Hs]. unfold is_bit in Hc. apply bool_decide_eq_true in Hc.
  destruct Hc as [->| ->]; [by exists false, s|by exists true, s].
Qed.

Lemma bin2int_bits s : s <> [] -> forallb is_bit s = true -> bin2int s = Ok (bits_value s).
Proof.
  intros Hne Hall. unfold bin2int.
  assert (Hc : forall c, c ∈ s -> c = "0"%char \/ c = "1"%char).
  { intros c Hin. rewrite forallb_forall in Hall.
    specialize (Hall c (proj1 (list_elem_of_In _ _) Hin)). by apply bool_decide_eq_true in Hall. }
  rewrite strip_id.
  - destruct s as [|c s]; [done|].
    destruct (Hc c) as [->| ->]; [left| |].
    + destruct s as [|c' s]; [done|].
      destruct (Hc c') as [->| ->]; [right; left| |]; by rewrite Hall.
    + by rewrite Hall.
  - intros c t ->. by destruct (Hc c) as [->| ->]; [left|..].
  - intros c t ->. by destruct (Hc c) as [->| ->]; [apply elem_of_app; right; left|..].
Qed.

(** [int2bin] of a natural number at a positive width gives the binary
    string of that width, which [bin2int] reads back, exactly when the number
    fits, and raises [ValueError] otherwise. *)
Theorem int2bin_roundtrip i n : 0 <= i -> 0 < n ->
  (i < 2 ^ n -> exists s, int2bin i n = Ok s /\ zlen s = n /\ forallb is_bit s = true /\
     bin2int s = Ok i) /\
  (2 ^ n <= i -> int2bin i n = Raise ValueError).
Proof.
  intros Hi Hn. rewrite <- (Z2Nat.id n) by lia. assert (0 < Z.to_nat n)%nat as Hpos by lia.
  generalize dependent (Z.to_nat n). clear n Hn. intros n Hn. rewrite int2bin_eq by done.
  split; intros H; [rewrite decide_True by lia|by rewrite decide_False by lia].
  exists (bin n i). split; [done|]. split; [unfold zlen; by rewrite bin_length|].
  split; [apply bin_bits|]. rewrite bin2int_bits, bits_value_bin, Z.mod_small; [done|lia| |apply bin_bits].
  intros Hnil%(f_equal length). rewrite bin_length in Hnil. cbn in Hnil. lia.
Qed.

(** A negative number has a sign in front of its prefix [0x]. *)
Lemma int2bin_negative i n : i < 0 -> int2bin i n = Raise KeyError.
Proof.
  intros Hi. unfold int2bin, py_hex. rewrite (proj2 (Z.ltb_lt _ _)) by done.
  rewrite !fmap_app, !filter_app.
  change (filter _ (lower <$> txt "-")) with (txt "-").
  change (filter _ (lower <$> txt "0x")) with (txt "0x").
  cbn [txt list_ascii_of_string app].
  rewrite (py_from_nat _ 2). by cbn.
Qed.

(** ** The Gray code *)

Lemma lxor_succ i : 0 <= i -> exists k, 0 <= k /\ Z.lxor i (i + 1) = Z.ones (k + 1).
Proof.
  intros Hi. revert i Hi. refine (Zlt_0_ind _ _). intros i IH Hi.
  rewrite (Z.div2_odd (Z.lxor i (i + 1))), <- Z.bit0_odd, Z.lxor_spec, !Z.bit0_odd.
  rewrite Z.div2_spec, Z.shiftr_lxor, <- !Z.div2_spec, (Z.odd_add i 1).
  pose proof (Z.div2_odd i) as Hdiv. destruct (Z.odd i) eqn:Hodd; cbn in Hdiv.
  - destruct (IH (Z.div2 i)) as (k & Hk & Hx); [lia..|]. exists (k + 1). split; [lia|].
    replace (Z.div2 (i + 1)) with (Z.div2 i + 1)
      by (rewrite (Z.div2_div (i + 1)); apply (Z.div_unique _ _ _ 0); lia).
    rewrite Hx, !Z.ones_equiv, !Z.pow_add_r by lia. cbn. lia.
  - exists 0. split; [lia|].
    replace (Z.div2 (i + 1)) with (Z.div2 i)
      by (rewrite (Z.div2_div (i + 1)); apply (Z.div_unique _ _ _ 1); lia).
    by rewrite Z.lxor_nilpotent.
Qed.

Lemma gray_lxor i j : Z.lxor (gray_encode i) (gray_encode j) = gray_encode (Z.lxor i j).
Proof.
  unfold gray_encode. rewrite Z.shiftr_lxor. apply Z.bits_inj'. intros n Hn.
  rewrite !Z.lxor_spec. by repeat destruct (Z.testbit _ _).
Qed.

Lemma gray_ones k : 0 <= k -> gray_encode (Z.ones (k + 1)) = 2 ^ k.
Proof.
  intros Hk. unfold gray_encode. apply Z.bits_inj'. intros n Hn.
  rewrite Z.lxor_spec, Z.shiftr_spec, !Z.testbit_ones, Z.pow2_bits_eqb by lia.
  repeat match goal with |- context [?a <? ?b] => destruct (Z.ltb_spec a b) end;
    destruct (Z.leb_spec 0 n), (Z.leb_spec 0 (n + 1)), (Z.eqb_spec k n); cbn; lia || done.
Qed.

(** [gray_encode] is a Gray code: the codes of neighbours differ in exactly
    one bit, different naturals have different codes, and the codes of the
    [n]-bit numbers are [n]-bit numbers. *)
Theorem gray_encode_spec i : 0 <= i ->
  (exists k, 0 <= k /\ Z.lxor (gray_encode i) (gray_encode (i + 1)) = 2 ^ k) /\
  (forall j, 0 <= j -> gray_encode i = gray_encode j -> i = j) /\
  (forall n, 0 <= n -> i < 2 ^ n -> 0 <= gray_encode i < 2 ^ n).
Proof.
  intros Hi. split; [|split].
  - destruct (lxor_succ i Hi) as (k & Hk & Hx). exists k. split; [done|].
    by rewrite gray_lxor, Hx, gray_ones.
  - intros j Hj Heq. apply Z.lxor_eq. set (d := Z.lxor i j).
    assert (Hd : gray_encode d = 0) by (unfold d; by rewrite <- gray_lxor, Heq, Z.lxor_nilpotent).
    apply Z.lxor_eq in Hd. rewrite Z.shiftr_div_pow2 in Hd by lia. change (2 ^ 1) with 2 in Hd.
    assert (0 <= d) by (apply Z.lxor_nonneg; tauto).
    pose proof (Z.div_mod d 2). pose proof (Z.mod_pos_bound d 2). lia.
  - intros n Hn Hlt. assert (0 <= Z.shiftr i 1) by (by apply Z.shiftr_nonneg).
    split; [by apply Z.lxor_nonneg|].
    destruct (decide (gray_encode i = 0)) as [->|Hne]; [lia|].
    assert (0 <= gray_encode i) by (by apply Z.lxor_nonneg).
    apply Z.log2_lt_pow2; [lia|]. unfold gray_encode.
    pose proof (Z.log2_lxor i (Z.shiftr i 1) Hi ltac:(done)).
    destruct (decide (i = 0)) as [->|]; [done|].
    assert (Z.log2 i < n) by (apply Z.log2_lt_pow2; lia).
    assert (Z.log2 (Z.shiftr i 1) <= Z.log2 i); [|lia].
    apply Z.log2_le_mono. rewrite Z.shiftr_div_pow2 by lia. apply Z.div_le_upper_bound; lia.
Qed.

(** [lsb] is the remainder modulo [2 ** n]. *)
Theorem lsb_spec x n : 0 <= n -> lsb x n = Ok (x mod 2 ^ n).
Proof.
  intros Hn. unfold lsb. rewrite (proj2 (Z.ltb_ge _ _)) by done.
  by rewrite Z.sub_1_r, <- Z.ones_equiv, Z.land_ones.
Qed.

(** ** [binary_range]

    The inner loop adds one to a little-endian word; the carry that leaves it
    is left in [toggle[bits]]. *)

Fixpoint inc (v : text) : text * bool :=
  match v with
  | [] => ([], true)
  | c :: v => if decide (c = "0"%char) then ("1"%char :: v, false)
              else let '(v, b) := inc v in ("0"%char :: v, b)
  end.

Lemma inc_bin n i :
  inc (reverse (bin n i)) = (reverse (bin n (i + 1)), bool_decide ((i + 1) mod 2 ^ Z.of_nat n = 0)).
Proof.
  revert i. induction n as [|n IH]; intros i.
  { cbn. by rewrite Z.mod_1_r. }
  cbn [bin]. rewrite !reverse_snoc. rewrite Z.odd_add. cbn [inc].
  rewrite Nat2Z.inj_succ, Z.pow_succ_r, Z.rem_mul_r by lia.
  pose proof (Z.div2_odd i) as Hdiv. rewrite Z.div2_div in Hdiv.
  destruct (Z.odd i) eqn:Hodd; cbn in Hdiv; cbn [bit].
  - rewrite decide_False by done. rewrite IH.
    replace ((i + 1) / 2) with (i / 2 + 1) by (apply (Z.div_unique _ _ _ 0); lia).
    replace ((i + 1) mod 2) with 0 by (apply (Z.mod_unique _ _ (i / 2 + 1)); lia).
    cbn. f_equal. apply bool_decide_ext. lia.
  - rewrite decide_True by done.
    replace ((i + 1) / 2) with (i / 2) by (apply (Z.div_unique _ _ _ 1); lia).
    replace ((i + 1) mod 2) with 1 by (apply (Z.mod_unique _ _ (i / 2)); lia).
    rewrite bool_decide_eq_false_2; [done|].
    pose proof (Z.mod_pos_bound (i / 2) (2 ^ Z.of_nat n)). lia.
Qed.

Lemma carry_loop n hi : forall fuel lo toggle,
  (length lo + length hi = n)%nat -> length toggle = S n ->
  toggle !! length lo = Some 1 -> (hi <> [] -> toggle !! n = Some 0) ->
  (length hi < fuel)%nat ->
  exists c, loop fuel (carry_step (Z.of_nat n)) (Counter (length lo) (lo ++ hi) toggle) = Ok c /\
    ct_v c = lo ++ (inc hi).1 /\ length (ct_toggle c) = S n /\
    ct_toggle c !! n = Some (Z.b2z (inc hi).2).
Proof.
  induction hi as [|c hi IH]; intros fuel lo toggle Hn Hlen Hj Hz Hf;
    (destruct fuel as [|fuel]; [cbn in *; lia|]); cbn [loop];
    unfold carry_step at 1; cbn [ct_i ct_v ct_toggle]; cbn [length] in *.
  { rewrite (proj2 (Z.ltb_ge _ _)) by lia. eexists. split; [done|]. cbn.
    split; [done|]. split; [done|]. rewrite Nat.add_0_r in Hn. by rewrite <- Hn. }
  rewrite (proj2 (Z.ltb_lt _ _)), Hj by lia. cbn [or_raise mbind result_bind Z.eqb Pos.eqb].
  rewrite list_lookup_middle by done. cbn [or_raise mbind result_bind inc].
  assert (Hn' : toggle !! n = Some 0) by (by apply Hz).
  rewrite !insert_app_r_alt, !Nat.sub_diag by done. cbn [insert list_insert].
  destruct (decide (c = "0"%char)) as [_|_].
  - destruct fuel as [|fuel]; [lia|]. cbn [loop]. unfold carry_step at 1.
    cbn [ct_i ct_v ct_toggle]. eexists. split; [|split; [|split]].
    + destruct (Z.ltb_spec (Z.of_nat (S (length lo))) (Z.of_nat n)); [|reflexivity].
      rewrite list_lookup_insert_eq by lia. reflexivity.
    + done.
    + cbn [ct_toggle]. by rewrite length_insert.
    + cbn [ct_toggle inc snd Z.b2z]. destruct (decide (S (length lo) = n)) as [->|].
      * apply list_lookup_insert_eq. lia.
      * by rewrite list_lookup_insert_ne.
  - destruct (IH fuel (lo ++ ["0"%char]) (<[S (length lo) := 1]> toggle)) as (r & Hr & Hv & Hl & Ht).
    + rewrite length_app. cbn. lia.
    + by rewrite length_insert.
    + rewrite length_app, Nat.add_1_r. apply list_lookup_insert_eq. lia.
    + intros Hne. rewrite list_lookup_insert_ne; [done|]. destruct hi; [done|cbn in *; lia].
    + lia.
    + rewrite length_app, Nat.add_1_r, <- app_assoc in Hr. exists r.
      split; [done|]. rewrite Hv, <- app_assoc. by destruct (inc hi).
Qed.

Lemma last_zero n : (0 < n)%nat -> (1 :: replicate n 0) !! n = Some 0.
Proof.
  intros Hn. destruct n as [|n]; [lia|]. change (replicate (S n) 0 !! n = Some 0).
  apply lookup_replicate. split; [done|lia].
Qed.

(** What holds before a round of the outer loop: [k] words are listed. *)
Definition range_inv (n : nat) (s : text * list Z * list text) : Prop :=
  let '(v, toggle, l) := s in
  exists k : nat, l = bin n <$> (Z.of_nat <$> seq 0 k) /\ v = reverse (bin n (Z.of_nat k)) /\
    Z.of_nat k <= 2 ^ Z.of_nat n /\ length toggle = S n /\
    toggle !! n = Some (Z.b2z (bool_decide (Z.of_nat k = 2 ^ Z.of_nat n))).

Definition range_left (n : nat) (s : text * list Z * list text) : nat :=
  (Z.to_nat (2 ^ Z.of_nat n) - length s.2)%nat.

Definition all_words (n : nat) : list text :=
  bin n <$> (Z.of_nat <$> seq 0 (Z.to_nat (2 ^ Z.of_nat n))).

Lemma range_step_ok n s : (0 < n)%nat -> range_inv n s ->
  step_ok (range_inv n) (range_left n) (fun r => r = Ok (all_words n)) s
    (range_step (Z.of_nat n) s).
Proof.
  destruct s as [[v toggle] l]. intros Hn (k & -> & -> & Hk & Hlen & Ht).
  unfold range_step. rewrite py_get_nat, Ht. cbn [or_raise mbind result_bind].
  case_bool_decide as Hend; cbn [Z.b2z Z.eqb Pos.eqb].
  { cbn. do 2 f_equal. unfold all_words. rewrite <- Hend, Nat2Z.id. done. }
  rewrite !Nat2Z.id. pose proof (carry_loop n (reverse (bin n (Z.of_nat k))) (S n) []
    (1 :: replicate n 0)) as Hc. cbn [length app] in Hc.
  rewrite inc_bin, length_reverse, bin_length in Hc.
  destruct Hc as (c & -> & Hv & Hl & Htog); [done|by rewrite length_replicate|done| |lia|].
  { intros _. by apply last_zero. }
  cbn [mbind result_bind step_ok range_inv range_left snd]. split.
  - exists (S k). rewrite reverse_involutive. split; [|split; [|split; [lia|split; [done|]]]].
    + rewrite seq_S, !fmap_app. done.
    + rewrite Hv. cbn [fst]. do 2 f_equal. lia.
    + rewrite Htog. cbn [snd]. do 2 f_equal. apply bool_decide_ext.
      replace (Z.of_nat (S k)) with (Z.of_nat k + 1) by lia. split; intros Heq.
      * apply Z.mod_divide in Heq as [q Hq]; [|lia]. assert (q = 1) as -> by nia. lia.
      * by rewrite Heq, Z.mod_same by lia.
  - unfold range_left. cbn [snd]. rewrite length_app, !length_fmap, length_seq. cbn [length]. lia.
Qed.

(** [binary_range] terminates and lists the binary strings of a positive
    width in order: what [int2bin] gives for [0], [1], ..., [2 ** bits - 1]. *)
Theorem binary_range_spec bits : 0 < bits ->
  exists l, binary_range bits = Ok l /\ zlen l = 2 ^ bits /\
    forall i s, l !! i = Some s -> int2bin (Z.of_nat i) bits = Ok s.
Proof.
  intros Hb. rewrite <- (Z2Nat.id bits) by lia.
  assert (0 < Z.to_nat bits)%nat as Hn by lia. generalize dependent (Z.to_nat bits).
  clear bits Hb. intros n Hn. exists (all_words n). split; [|split].
  - unfold binary_range, zeros. rewrite Nat2Z.id.
    apply (loop_total (range_step (Z.of_nat n)) (range_inv n) (range_left n)
             (fun r => r = Ok (all_words n))).
    + intros s Hs. by apply range_step_ok.
    + exists 0%nat. split; [done|]. split; [by rewrite bin_0, reverse_replicate|].
      split; [lia|]. split; [cbn; by rewrite length_replicate|].
      rewrite bool_decide_eq_false_2 by (pose proof (Z.pow_pos_nonneg 2 (Z.of_nat n)); lia).
      by apply last_zero.
    + unfold range_left. cbn. lia.
  - unfold zlen, all_words. rewrite !length_fmap, length_seq. lia.
  - intros i s Hs. unfold all_words in Hs. rewrite !list_lookup_fmap in Hs.
    destruct (seq 0 _ !! i) as [j|] eqn:Hj; [|done]. apply lookup_seq in Hj as [-> Hlt].
    cbn in Hs. injection Hs as <-. rewrite int2bin_eq, decide_True by lia. done.
Qed.

(** ** [random_vec] *)

Lemma mapM_int2bin (draws : nat -> Z) (ks : list nat) : (forall k, 0 <= draws k < 2 ^ 10) ->
  mapM (fun k => int2bin (draws k) 10) ks = Ok (bin 10 <$> (draws <$> ks)).
Proof.
  intros Hd. induction ks as [|k ks IH]; [done|]. cbn [mapM fmap list_fmap].
  pose proof (int2bin_eq (draws k) 10 ltac:(lia) (proj1 (Hd k))) as Heq.
  rewrite decide_True in Heq by apply Hd. change (Z.of_nat 10) with 10 in Heq.
  rewrite Heq. cbn [mbind result_bind]. by rewrite IH.
Qed.

Lemma concat_bin n (ns : list Z) :
  length (concat (bin n <$> ns)) = (length ns * n)%nat /\
  forallb is_bit (concat (bin n <$> ns)) = true.
Proof.
  induction ns as [|i ns [IHl IHb]]; [done|]. cbn [fmap list_fmap concat].
  rewrite length_app, forallb_app, bin_length, bin_bits, IHl, IHb. cbn [length]. split; [lia|done].
Qed.

Lemma forallb_take {A} (p : A -> bool) n l : forallb p l = true -> forallb p (take n l) = true.
Proof.
  rewrite <- (take_drop n l) at 1. rewrite forallb_app. by intros [? _]%andb_true_iff.
Qed.

(** Without a maximum [random_vec] gives a binary string of the width that
    was asked for, whatever is drawn. *)
Theorem random_vec_spec (draws : nat -> Z) (bits : nat) : (forall k, 0 <= draws k < 2 ^ 10) ->
  exists v, random_vec draws bits None = Ok v /\ length v = bits /\ forallb is_bit v = true.
Proof.
  intros Hd. unfold random_vec. rewrite mapM_int2bin by done. cbn [mbind result_bind].
  set (ns := (draws <$> seq 0 (bits / 10 + 1)%nat : list Z)). destruct (concat_bin 10 ns) as [Hl Hb].
  assert (Hge : (bits <= length (concat (bin 10 <$> ns)))%nat).
  { rewrite Hl. unfold ns. rewrite length_fmap, length_seq.
    pose proof (Nat.div_mod_eq bits 10). pose proof (Nat.mod_upper_bound bits 10). lia. }
  eexists. split; [done|]. rewrite (py_slice_nat _ 0) by lia.
  rewrite drop_0, Nat.sub_0_r. split; [rewrite length_take; lia|by apply forallb_take].
Qed.

(** With a maximum the vector, which is longer than [bits], is divided by
    [2 ** bits - 1] in integers: the result need not fit. *)
Example random_vec_max_raises : random_vec (fun _ => 1023) 4 (Some 5) = Raise ValueError.
Proof. by vm_compute. Qed.

(** ** Witnesses *)

Lemma int2bin_roundtrip_witness :
  (exists s, int2bin 5 3 = Ok s /\ zlen s = 3 /\ forallb is_bit s = true /\ bin2int s = Ok 5) /\
  int2bin 8 3 = Raise ValueError.
Proof. split; apply int2bin_roundtrip; lia. Defined.

Lemma gray_encode_spec_witness :
  exists k, 0 <= k /\ Z.lxor (gray_encode 7) (gray_encode (7 + 1)) = 2 ^ k.
Proof. apply gray_encode_spec. lia. Defined.

Lemma lsb_spec_witness : lsb 13 3 = Ok 5.
Proof. rewrite lsb_spec by lia. reflexivity. Defined.

Lemma binary_range_spec_witness : exists l, binary_range 3 = Ok l /\ zlen l = 8.
Proof. destruct (binary_range_spec 3) as (l & ? & ? & _); [lia|]. exists l. by split. Defined.

Lemma random_vec_spec_witness :
  exists v, random_vec (fun k => Z.of_nat k mod 2 ^ 10) 12 None = Ok v /\ length v = 12%nat.
Proof.
  destruct (random_vec_spec (fun k => Z.of_nat k mod 2 ^ 10) 12) as (v & ? & ? & _).
  - intros k. apply Z.mod_pos_bound. lia.
  - exists v. by split.
Defined.
