(* ===== verification/RadNum.v ===== *)
(** * Numeric functions of [bindings/python/rad_util.py].

    [polygon_area], [gcf], [lcm], [reduce_fraction], [quantile], [trim],
    [float_range] and [round_grid], on Python 2 numbers: integers are unbounded
    and divided downwards, floats are rounded. *)
From S2P Require Import Prelude PyNum.
#[local] Open Scope Z_scope.

(** ** [polygon_area] *)

Definition point : Type := num * num.

(** [(int(p[0] * precision), int(p[1] * precision))] *)
Definition scale_point (precision : num) (p : point) : res point :=
  x ← (p.1 .* precision)%num; x ← py_int x;
  y ← (p.2 .* precision)%num; y ← py_int y;
  Ok (x, y).

Definition point_eqb (p q : point) : bool := (num_eqb p.1 q.1 && num_eqb p.2 q.2)%bool.

(** [area + (x_i_plus_1 * y_i) - (y_i_plus_1 * x_i)] *)
Definition add_edge (area : num) (e : point * point) : res num :=
  let '((x_i, y_i), (x_i_plus_1, y_i_plus_1)) := e in
  (area .+ (x_i_plus_1 .* y_i) .- (y_i_plus_1 .* x_i))%num.

Definition edges {A} (l : list A) : list (A * A) := zip l (tail l).

(** The area, and what the list that was passed has become. *)
Definition polygon_area (points_list : list point) (precision : num) :
    res (num * list point) :=
  points_list ← mapM (scale_point precision) points_list;
  last ← py_get points_list (-1);
  first ← py_get points_list 0;
  let points_list := if point_eqb last first then points_list else points_list ++ [first] in
  area ← for_each add_edge (edges points_list) (PInt 0);
  area ← num_div area (PInt 2);
  area ← py_float (num_abs area);
  (fun area : num => (area, points_list)) <$> (val area ./ (precision .* precision))%num.

(** ** [gcf], [lcm] and [reduce_fraction] *)

(** The default [1e-16]. *)
Definition default_epsilon : num := frac 1 (10 ^ 16).

Definition gcf_step (epsilon : num) (s : num * num) : res (num * num + num) :=
  let '(result, remainder) := s in
  if (num_true remainder && num_gtb (num_abs remainder) epsilon)%bool then
    new_remainder ← num_mod result remainder;
    Ok (inl (remainder, new_remainder))
  else Ok (inr (num_abs result)).

Definition gcf (fuel : nat) (a b epsilon : num) : res num :=
  loop fuel (gcf_step epsilon) (num_max a b, num_min a b).

Definition lcm (fuel : nat) (a b : num) : res num :=
  denom ← gcf fuel a b default_epsilon;
  if num_eqb denom (PInt 0) then Ok (PInt 0)
  else q ← num_div b denom; num_mul a q.

Definition reduce_fraction (fuel : nat) (fraction : num * num) : res (num * num) :=
  let '(numerator, denominator) := fraction in
  common_factor ← gcf fuel numerator denominator default_epsilon;
  let common_factor := num_abs common_factor in
  n ← num_div numerator common_factor;
  d ← num_div denominator common_factor;
  Ok (n, d).

(** ** [quantile] and [trim] *)

(** [list.sort]: stable. *)
Fixpoint insert_sorted (x : num) (l : list num) : list num :=
  match l with
  | [] => [x]
  | y :: l => if num_ltb x y then x :: y :: l else y :: insert_sorted x l
  end.
Definition py_sort (l : list num) : list num :=
  foldl (fun sorted x => insert_sorted x sorted) [] l.

Definition quantile (l : list num) (p : num) : res num :=
  let l_sort := py_sort l in
  let n := PInt (zlen l) in
  r ← (PInt 1 .+ ((n .- PInt 1) .* p))%num;
  i ← py_int r;
  f ← num_sub r i;
  match i with
  | PInt k =>
      if num_ltb i n then
        lo ← py_get l_sort (k - 1);
        hi ← py_get l_sort k;
        (((PInt 1 .- val f) .* val lo) .+ (val f .* val hi))%num
      else py_get l_sort (k - 1)
  | PFloat _ => Raise TypeError
  end.

(** The median is computed and not used. *)
Definition trim (l : list num) : res (list num) :=
  let l_sort := py_sort l in
  let index := zlen l_sort / 2 in
  _ ← (if zlen l_sort mod 2 =? 0 then
         a ← py_get l_sort index;
         b ← py_get l_sort (index - 1);
         s ← num_add a b; m ← py_float s; num_div m (PInt 2)
       else py_get l_sort index);
  q1 ← quantile l_sort (frac 1 4);
  q3 ← quantile l_sort (frac 3 4);
  iqr ← num_sub q3 q1;
  iqr_extra ← num_mul iqr (frac 3 2);
  kept ← for_each (fun kept x =>
    lo ← num_sub q1 iqr_extra;
    if num_geb x lo then
      hi ← num_add q3 iqr_extra;
      Ok (if num_leb x hi then kept ++ [x] else kept)
    else Ok kept) l_sort [];
  Ok kept.

(** ** [float_range] *)

Definition float_range_step (stop step : num) (s : num * list num) :
    res (num * list num + list num) :=
  let '(cur, l) := s in
  if num_ltb cur stop then
    next ← num_add cur step; Ok (inl (next, l ++ [cur]))
  else Ok (inr l).

Definition float_range (fuel : nat) (start : num) (stop step : option num) : res (list num) :=
  '(start, stop) ← (match stop with
                    | Some stop => Ok (start, stop)
                    | None => stop ← py_float start; z ← py_float (PInt 0); Ok (z, stop)
                    end);
  let step := default (frac 1 1) step in
  cur ← py_float start;
  loop fuel (float_range_step stop step) (cur, []).

(** ** [round_grid] *)

Definition round_grid (value grid : num) (mode : Z) : res num :=
  off_grid ← num_mod value grid;
  add_one ←
    (if mode =? 0 then
       half ← num_div grid (frac 2 1);
       Ok (Some (if num_geb off_grid half then 1 else 0))
     else if (mode =? 1) && num_true off_grid then Ok (Some 1)
     else if (mode =? -1) && num_true off_grid then Ok (Some 0)
     else Ok None);
  q ← num_div value grid;
  q ← py_int q;
  add_one ← or_raise UnboundLocalError add_one;
  ((val q .+ PInt add_one) .* grid)%num.

Example polygon_area_doc :
  (fun r => r.1) <$> polygon_area ((fun '(x, y) => (PInt x, PInt y)) <$>
     [(0, 0); (0, 1); (1, 1); (1, 2); (2, 2); (2, 0); (0, 0)]) (PInt 100) = Ok (frac 3 1).
Proof. vm_compute. reflexivity. Qed.
Example gcf_doc : gcf 9 12 34 default_epsilon = Ok (PInt 2) /\
  gcf 9 (frac 27 2) 4 default_epsilon = Ok (frac 1 2) /\
  gcf 9 (-2) 4 default_epsilon = Ok (PInt 2) /\ gcf 9 0 0 default_epsilon = Ok (PInt 0).
Proof. vm_compute. done. Qed.
Example lcm_doc : lcm 9 21 6 = Ok (PInt 42) /\ lcm 9 (frac 5 2) (frac 7 2) = Ok (frac 35 2).
Proof. vm_compute. done. Qed.
Example round_grid_doc : round_grid (frac 15 2) 5 0 = Ok (PInt 10) /\
  round_grid (frac 15 2) 5 (-1) = Ok (PInt 5) /\ round_grid (frac 73 10) 5 1 = Ok (PInt 10) /\
  round_grid (frac 73 10) (frac 5 1) 1 = Ok (frac 10 1) /\
  round_grid 10 5 1 = Raise UnboundLocalError.
Proof. vm_compute. done. Qed.
Example quantile_4 : quantile (PInt <$> [4; 1; 3; 2]) (frac 1 4) = Ok (frac 7 4) /\
  trim (PInt <$> [1; 2; 3; 1000; 2]) = Ok (PInt <$> [1; 2; 2; 3]).
Proof. vm_compute. done. Qed.
Example float_range_doc : float_range 9 3 None None = Ok [frac 0 1; frac 1 1; frac 2 1].
Proof. vm_compute. reflexivity. Qed.

(** ** The greatest common factor of integers *)

(** A positive integer is above the tolerance. *)
Lemma above_epsilon z : 0 < z -> num_gtb (PInt z) default_epsilon = true.
Proof.
  intros Hz. unfold num_gtb, num_ltb, num_compare. cbn [num_value].
  assert (num_value default_epsilon = Fin 8112963841460668 (-106)) as -> by (vm_compute; reflexivity).
  unfold value_compare, scale. change ((-106) `min` 0) with (-106).
  change ((-106) - (-106)) with 0. change (0 - (-106)) with 106.
  rewrite Z.shiftl_0_r, Z.shiftl_mul_pow2 by lia.
  destruct (Z.compare_spec 8112963841460668 (z * 2 ^ 106)); [nia|done|nia].
Qed.

Lemma gcf_step_int a b :
  gcf_step default_epsilon (PInt a, PInt b) =
    if decide (b = 0) then Ok (inr (PInt (Z.abs a)))
    else Ok (inl (PInt b, PInt (a mod b))).
Proof.
  unfold gcf_step. rewrite num_true_int. destruct (decide (b = 0)) as [->|Hb]; [done|].
  rewrite (proj2 (Z.eqb_neq _ _)) by done. cbn [negb andb num_abs].
  rewrite above_epsilon by lia. by rewrite num_mod_int.
Qed.

Definition fuel_for (a b : Z) : nat := S (Z.to_nat (Z.abs a + Z.abs b)).

Lemma gcf_int fuel a b : (fuel_for a b <= fuel)%nat ->
  gcf fuel a b default_epsilon = Ok (PInt (Z.gcd a b)).
Proof.
  unfold fuel_for, gcf. intros Hf. rewrite num_max_int, num_min_int.
  apply (loop_total (gcf_step default_epsilon)
    (fun s => exists x y, s = (PInt x, PInt y) /\ Z.gcd x y = Z.gcd a b)
    (fun s => match s.2 with PInt y => Z.to_nat (Z.abs y) | _ => 0%nat end)
    (fun r => r = Ok (PInt (Z.gcd a b)))).
  - intros s (x & y & -> & Hg). rewrite gcf_step_int. destruct (decide (y = 0)) as [->|Hy]; cbn.
    + by rewrite <- Hg, Z.gcd_0_r.
    + split; [exists y, (x mod y)|].
      * split; [done|]. by rewrite Z.gcd_comm, Z.gcd_mod, Z.gcd_comm.
      * destruct (Z.lt_trichotomy y 0) as [Hlt|[?|Hgt]]; [|done|].
        -- pose proof (Z.mod_neg_bound x y Hlt). lia.
        -- pose proof (Z.mod_pos_bound x y Hgt). lia.
  - exists (Z.max a b), (Z.min a b). split; [done|].
    destruct (Z.max_spec a b) as [[? ->]|[? ->]], (Z.min_spec a b) as [[? ->]|[? ->]];
      try lia; done || apply Z.gcd_comm || idtac.
  - cbn. lia.
Qed.

(** On integers [gcf] terminates with the greatest common divisor, which is
    not negative; the tolerance makes no difference. *)
Theorem gcf_spec fuel a b : (fuel_for a b <= fuel)%nat ->
  gcf fuel a b default_epsilon = Ok (PInt (Z.gcd a b)).
Proof. apply gcf_int. Qed.

(** On integers [lcm] is the least common multiple, with the sign of the
    product. *)
Theorem lcm_spec fuel a b : (fuel_for a b <= fuel)%nat ->
  exists m, lcm fuel a b = Ok (PInt m) /\ Z.abs m = Z.lcm a b /\ 0 <= m * (a * b).
Proof.
  intros Hf. unfold lcm. rewrite gcf_int by done. cbn [mbind result_bind].
  rewrite num_eqb_int. destruct (Z.eqb_spec (Z.gcd a b) 0) as [Hz|Hz].
  - apply Z.gcd_eq_0 in Hz as [-> ->]. by exists 0.
  - rewrite num_div_int by done. exists (a * (b / Z.gcd a b)). split; [done|]. split; [done|].
    destruct (Z.gcd_divide_r a b) as [q Hq]. pose proof (Z.gcd_nonneg a b).
    generalize dependent (Z.gcd a b). intros g Hg Hq Hpos. subst b.
    rewrite Z.div_mul by done. replace (a * q * (a * (q * g))) with (g * ((a * q) * (a * q))) by lia.
    apply Z.mul_nonneg_nonneg; [done|apply Z.square_nonneg].
Qed.

(** [reduce_fraction] gives a fraction in lowest terms of the same value,
    whose denominator has the sign it had; only [0/0] raises. *)
Theorem reduce_fraction_spec fuel n d : (fuel_for n d <= fuel)%nat ->
  (n = 0 /\ d = 0 /\ reduce_fraction fuel (PInt n, PInt d) = Raise ZeroDivisionError) \/
  exists n' d', reduce_fraction fuel (PInt n, PInt d) = Ok (PInt n', PInt d') /\
    n' * d = n * d' /\ Z.gcd n' d' = 1 /\ Z.sgn d' = Z.sgn d.
Proof.
  intros Hf. unfold reduce_fraction. rewrite gcf_int by done. cbn [mbind result_bind num_abs].
  pose proof (Z.gcd_nonneg n d) as Hg. rewrite Z.abs_eq by done.
  destruct (decide (Z.gcd n d = 0)) as [Hz|Hz].
  - left. rewrite Hz. apply Z.gcd_eq_0 in Hz as [-> ->]. by cbn.
  - right. rewrite !num_div_int by done. cbn [mbind result_bind]. eexists _, _. split; [done|].
    destruct (Z.gcd_divide_l n d) as [p Hp], (Z.gcd_divide_r n d) as [q Hq].
    split; [|split; [by apply Z.gcd_div_gcd|]];
      generalize dependent (Z.gcd n d); intros g Hz' Hg' Hp Hq; subst n d;
      rewrite !Z.div_mul by done; [lia|].
    rewrite Z.sgn_mul, (Z.sgn_pos g) by lia. lia.
Qed.

(** ** Rounding to a grid of integers *)

(** Rounding a value that is off the grid upwards (downwards) gives the
    next multiple of the grid in that direction; a value on the grid has no
    multiple chosen for it, and the function fails on its unbound local. *)
Theorem round_grid_directed value grid : 0 < grid ->
  (value mod grid = 0 -> forall mode, mode <> 0 ->
     round_grid (PInt value) (PInt grid) mode = Raise UnboundLocalError) /\
  (value mod grid <> 0 ->
     exists q, value < q * grid < value + grid /\
       round_grid (PInt value) (PInt grid) 1 = Ok (PInt (q * grid)) /\
       round_grid (PInt value) (PInt grid) (-1) = Ok (PInt ((q - 1) * grid))).
Proof.
  intros Hg. unfold round_grid. rewrite num_mod_int, num_div_int by lia.
  cbn [mbind result_bind]. rewrite py_int_int, num_true_int. split.
  - intros Hz mode Hm. rewrite Hz, (proj2 (Z.eqb_neq _ _)) by done.
    cbn [negb]. by rewrite !andb_false_r.
  - intros Hz. rewrite (proj2 (Z.eqb_neq (value mod grid) 0) Hz).
    exists (value / grid + 1). pose proof (Z.div_mod value grid). pose proof (Z.mod_pos_bound value grid Hg).
    split; [nia|]. split; cbn; do 2 f_equal; lia.
Qed.

(** ** Quantiles of integers *)

Lemma insert_sorted_perm x l : insert_sorted x l ≡ₚ x :: l.
Proof.
  induction l as [|y l IH]; [done|]. cbn. destruct (num_ltb x y); [done|].
  by rewrite IH, Permutation_swap.
Qed.

Lemma py_sort_snoc l x : py_sort (l ++ [x]) = insert_sorted x (py_sort l).
Proof. unfold py_sort. by rewrite foldl_app. Qed.

Lemma py_sort_perm l : py_sort l ≡ₚ l.
Proof.
  induction l as [|x l IH] using rev_ind; [done|].
  by rewrite py_sort_snoc, insert_sorted_perm, IH, Permutation_app_comm.
Qed.

Lemma insert_sorted_ok x l : is_nan x = false -> Forall (fun y => is_nan y = false) l ->
  StronglySorted (fun a b => num_leb a b = true) l ->
  StronglySorted (fun a b => num_leb a b = true) (insert_sorted x l).
Proof.
  intros Hx Hl Hs. induction Hs as [|y l Hs IH Hy]; [by repeat constructor|].
  apply Forall_cons in Hl as [Hyn Hl]. cbn. destruct (num_ltb x y) eqn:E.
  - apply num_ltb_leb in E. constructor; [by constructor|]. constructor; [done|].
    eapply Forall_impl; [exact Hy|]. intros z Hz. by eapply num_leb_trans.
  - rewrite num_ltb_not_leb in E by done. apply negb_false_iff in E.
    constructor; [by apply IH|]. rewrite insert_sorted_perm. by constructor.
Qed.

(** [py_sort] sorts: on numbers other than NaN the result is ascending and
    a permutation of the list. *)
Lemma py_sort_ok l : Forall (fun y => is_nan y = false) l ->
  StronglySorted (fun a b => num_leb a b = true) (py_sort l).
Proof.
  induction l as [|x l IH] using rev_ind; [constructor|].
  intros [Hl Hx]%Forall_app. rewrite Forall_singleton in Hx. rewrite py_sort_snoc.
  apply insert_sorted_ok; [done| |by apply IH]. by rewrite py_sort_perm.
Qed.

Lemma py_sort_ints (l : list Z) : exists s, py_sort (PInt <$> l) = PInt <$> s /\ s ≡ₚ l /\
  StronglySorted Z.le s.
Proof.
  destruct (Permutation_map_inv PInt l (py_sort_perm (PInt <$> l))) as (s & Hs & Hp).
  exists s. split; [done|]. split; [by symmetry|].
  assert (Hsort : StronglySorted (fun a b => num_leb a b = true) (PInt <$> s)).
  { change (PInt <$> s) with (map PInt s). rewrite <- Hs. apply py_sort_ok, Forall_fmap, Forall_true. done. }
  clear Hs Hp. induction s as [|x s IH]; [constructor|]. cbn in Hsort.
  apply StronglySorted_inv in Hsort as [Hsort Hx]. constructor; [by apply IH|].
  apply Forall_fmap in Hx. eapply Forall_impl; [exact Hx|]. intros y Hy.
  apply Z.leb_le. by rewrite <- num_leb_int.
Qed.

Lemma py_get_fmap (s : list Z) i x : s !! i = Some x ->
  py_get (PInt <$> s) (Z.of_nat i) = Ok (PInt x).
Proof. intros Hx. by rewrite py_get_nat, list_lookup_fmap, Hx. Qed.

Lemma sorted_ends (s : list Z) x : StronglySorted Z.le s -> x ∈ s ->
  exists lo hi, s !! 0%nat = Some lo /\ s !! (length s - 1)%nat = Some hi /\
    lo ∈ s /\ hi ∈ s /\ lo <= x <= hi.
Proof.
  intros Hs Hx. apply list_elem_of_lookup in Hx as [i Hi].
  pose proof (lookup_lt_Some _ _ _ Hi) as Hlt.
  destruct (lookup_lt_is_Some_2 s 0) as [lo Hlo]; [lia|].
  destruct (lookup_lt_is_Some_2 s (length s - 1)) as [hi Hhi]; [lia|].
  exists lo, hi. split; [done|]. split; [done|].
  split; [by eapply list_elem_of_lookup_2|]. split; [by eapply list_elem_of_lookup_2|].
  assert (Hle : forall a b y z, (a <= b)%nat -> s !! a = Some y -> s !! b = Some z -> y <= z).
  { intros a b y z Hab Hy Hz. destruct (decide (a = b)) as [->|]; [simplify_eq; lia|].
    apply (StronglySorted_lookup Z.le s a b); [done|lia|done..]. }
  split; [apply (Hle 0%nat i); [lia|done..]|apply (Hle i (length s - 1)%nat); [lia|done..]].
Qed.

(** The quantiles 0 and 1 of a list of integers are its least and its
    greatest element; an empty list raises. *)
Theorem quantile_ends (l : list Z) :
  (l = [] /\ quantile (PInt <$> l) (PInt 0) = Raise IndexError /\
     quantile (PInt <$> l) (PInt 1) = Raise IndexError) \/
  exists lo hi, lo ∈ l /\ hi ∈ l /\ (forall x, x ∈ l -> lo <= x <= hi) /\
    quantile (PInt <$> l) (PInt 0) = Ok (PInt lo) /\
    quantile (PInt <$> l) (PInt 1) = Ok (PInt hi).
Proof.
  destruct l as [|x l]; [by left|right]. set (l' := x :: l).
  destruct (py_sort_ints l') as (s & Hs & Hp & Hsort).
  assert (Hlen : length s = length l') by (by rewrite Hp).
  destruct (sorted_ends s x Hsort) as (lo & hi & Hlo & Hhi & Hlo' & Hhi' & _); [rewrite Hp; left|].
  exists lo, hi. split; [by rewrite <- Hp|]. split; [by rewrite <- Hp|]. split.
  { intros y Hy. rewrite <- Hp in Hy. destruct (sorted_ends s y Hsort Hy) as (? & ? & ? & ? & ? & ? & ?).
    by simplify_eq. }
  assert (Hn : zlen (PInt <$> l') = Z.of_nat (length s)) by (unfold zlen; by rewrite length_fmap, Hlen).
  assert (Hpos : (0 < length s)%nat) by (rewrite Hlen; cbn; lia).
  unfold quantile. rewrite Hs, Hn. cbn [lift2 val mbind result_bind num_sub num_mul num_add arith].
  rewrite !py_int_int. cbn [mbind result_bind num_sub arith]. rewrite !num_ltb_int.
  replace (Z.of_nat (length s) - 1) with (Z.of_nat (length s - 1)) by lia.
  split.
  - replace (1 + Z.of_nat (length s - 1) * 0) with 1 by lia.
    pose proof (py_get_fmap s 0 lo Hlo) as Hg. change (Z.of_nat 0) with 0 in Hg.
    change (1 - 1) with 0. rewrite Hg. destruct (Z.ltb_spec 1 (Z.of_nat (length s))); [|done].
    destruct (lookup_lt_is_Some_2 s 1) as [y Hy]; [lia|].
    pose proof (py_get_fmap s 1 y Hy) as Hg1. change (Z.of_nat 1) with 1 in Hg1. rewrite Hg1.
    cbn [mbind result_bind lift2 val num_sub num_mul num_add arith]. do 2 f_equal. lia.
  - replace (1 + Z.of_nat (length s - 1) * 1) with (Z.of_nat (length s)) by lia.
    rewrite (proj2 (Z.ltb_ge _ _)) by lia.
    replace (Z.of_nat (length s) - 1) with (Z.of_nat (length s - 1)) by lia.
    by apply py_get_fmap.
Qed.

(** ** Witnesses *)

Lemma gcf_spec_witness : gcf 47 12 34 default_epsilon = Ok (PInt 2).
Proof. apply (gcf_spec 47 12 34). unfold fuel_for. lia. Defined.

Lemma lcm_spec_witness : exists m, lcm 28 21 6 = Ok (PInt m) /\ Z.abs m = 42.
Proof. destruct (lcm_spec 28 21 6) as (m & ? & ? & _); [unfold fuel_for; lia|]. exists m. by split. Defined.

Lemma reduce_fraction_spec_witness : exists n' d',
  reduce_fraction 22 (PInt 14, PInt 7) = Ok (PInt n', PInt d') /\ Z.gcd n' d' = 1.
Proof.
  destruct (reduce_fraction_spec 22 14 7) as [(H & _)|(n' & d' & ? & _ & ? & _)].
  - unfold fuel_for. lia.
  - discriminate H.
  - exists n', d'. by split.
Defined.

Lemma round_grid_directed_witness :
  exists q, 7 < q * 5 < 12 /\ round_grid (PInt 7) (PInt 5) 1 = Ok (PInt (q * 5)).
Proof.
  destruct (round_grid_directed 7 5) as [_ H]; [lia|]. destruct H as (q & Hq & Hr & _); [done|].
  exists q. split; [lia|exact Hr].
Defined.
