(* ===== verification/RadUnits.v ===== *)
(** * The rest of [bindings/python/rad_util.py]: [nice_units], [pt2str] and
    [getmodule]. *)
From S2P Require Import Prelude PyNum PyString PyDict PyFloat RadNum.
From Stdlib Require Import SpecFloat.
#[local] Open Scope Z_scope.

Definition pt2str (point : num * num) : text :=
  txt "(" ++ str_num point.1 ++ txt ", " ++ str_num point.2 ++ txt ")".

(** ** [nice_units] *)

(** The literals [1e24], ..., [1e-24]. *)
Definition ten_to (n : Z) : num := PFloat (if 0 <=? n then ratio (10 ^ n) 1 else ratio 1 (10 ^ (- n))).

(** Multipliers with the symbol and the name. *)
Notation prefixes := (list (num * (text * text))).

Definition si_prefixes : prefixes :=
  [(ten_to 24, (txt "Y", txt "yotta")); (ten_to 21, (txt "Z", txt "zetta")); (ten_to 18, (txt "E", txt "exa"));
   (ten_to 15, (txt "P", txt "peta")); (ten_to 12, (txt "T", txt "tera")); (ten_to 9, (txt "G", txt "giga"));
   (ten_to 6, (txt "M", txt "mega")); (ten_to 3, (txt "k", txt "kilo")); (ten_to (-3), (txt "m", txt "milli"));
   (ten_to (-6), (txt "u", txt "micro")); (ten_to (-9), (txt "n", txt "nano")); (ten_to (-12), (txt "p", txt "pico"));
   (ten_to (-15), (txt "f", txt "femto")); (ten_to (-18), (txt "a", txt "atto")); (ten_to (-21), (txt "z", txt "zepto"));
   (ten_to (-24), (txt "y", txt "yocto"))].
Definition extra_prefixes : prefixes :=
  [(ten_to 2, (txt "h", txt "hecto")); (ten_to 1, (txt "da", txt "deka"));
   (ten_to (-1), (txt "d", txt "deci")); (ten_to (-2), (txt "c", txt "centi"))].
Definition bin_prefixes : prefixes :=
  [(PInt (2 ^ 10), (txt "K", txt "kilo")); (PInt (2 ^ 20), (txt "M", txt "mega")); (PInt (2 ^ 30), (txt "G", txt "mega"));
   (PInt (2 ^ 40), (txt "T", txt "tera")); (PInt (2 ^ 50), (txt "P", txt "peta")); (PInt (2 ^ 60), (txt "E", txt "exa"))].

(** All keys are different; their order in the dictionary is lost by the sorting. *)
Definition prefixes_of (bin use_extra_prefixes : bool) : prefixes :=
  (if bin then bin_prefixes else si_prefixes ++ (if use_extra_prefixes then extra_prefixes else [])) ++ [(PInt 1, ([], []))].

(** The index [i] that the loop stops at: [l] is the list from [i] on. *)
Fixpoint find_interval (value : num) (i : nat) (l : list num) : option nat :=
  match l with
  | lower_mult :: (upper_mult :: _) as l =>
      if num_leb lower_mult value && num_ltb value upper_mult then Some i else find_interval value (S i) l
  | _ => None
  end%bool.

(** [mult] is still [None] after the loop, so the two tests are made in any case;
    [None] is a [mult_i] that is not bound. *)
Definition select_mult (value : num) (multipliers : list num) : option nat :=
  match multipliers, last multipliers with
  | first :: _, Some last =>
      if num_ltb value first then Some 0%nat
      else if num_geb value last then Some (length multipliers - 1)%nat
      else find_interval value 0 multipliers
  | _, _ => find_interval value 0 multipliers
  end.

(** Whether the value, as it will be shown, is that of the next multiplier. *)
Definition rounds_up (multipliers : list num) (mult_i : nat) (mult new_value : num) (dp : Z) : res bool :=
  match multipliers !! S mult_i with
  | None => Ok false
  | Some next =>
      a ← py_round new_value dp; q ← num_div next mult; b ← py_round q dp; Ok (num_eqb a b)
  end.

(** The format ["%.kf"]: a sign is not understood. *)
Definition precision_format (show : nat -> num -> res text) (k : Z) (x : num) : res text :=
  if k <? 0 then Raise ValueError else show (Z.to_nat k) x.

Definition label (p : prefixes) (mult : num) (use_full_name : bool) : res text :=
  x ← or_raise KeyError (head (filter (fun kv : num * (text * text) => num_eqb kv.1 mult = true) p));
  Ok (if use_full_name then x.2.2 else x.2.1).

Definition nice_units (value : num) (dp : Z) (sigfigs : option Z) (suffix space : text)
    (use_extra_prefixes use_full_name bin : bool) : res text :=
  let p := prefixes_of bin use_extra_prefixes in
  let multipliers := py_sort p.*1 in
  mult_i ← or_raise UnboundLocalError (select_mult value multipliers);
  mult ← or_raise IndexError (multipliers !! mult_i);
  new_value ← num_div value mult;
  up ← (match sigfigs with None => rounds_up multipliers mult_i mult new_value dp | Some _ => Ok false end : res bool);
  mult ← (if (up : bool) then or_raise IndexError (multipliers !! S mult_i) else Ok mult);
  new_value ← (if (up : bool) then num_div value mult else Ok new_value);
  str_value ← match sigfigs with
              | None => precision_format fmt dp new_value
              | Some s => precision_format fmt_general s new_value
              end;
  l ← label p mult use_full_name;
  Ok (str_value ++ space ++ l ++ suffix).

Definition units (value : num) : res text := nice_units value 0 None [] (txt " ") false false false.
Definition bin_units (value : num) (dp : Z) : res text := nice_units value dp None [] (txt " ") false false true.

Example nice_units_doc : units (frac 2 (10 ^ 11)) = Ok (txt "20 p").
Proof. vm_compute. reflexivity. Qed.
Example pt2str_doc : pt2str (frac 18 10, frac 19 10) = txt "(1.8, 1.9)".
Proof. vm_compute. reflexivity. Qed.
Example rounded_up : units (frac 9999 10) = Ok (txt "1 k") /\ units (PInt 999) = Ok (txt "999 ").
Proof. split; vm_compute; reflexivity. Qed.
Example significant_digits :
  nice_units (PInt 1234567) 0 (Some 3) (txt "Hz") [] false false false = Ok (txt "1.23MHz").
Proof. vm_compute. reflexivity. Qed.
Example no_precision : nice_units (PInt 1) (-1) None [] [] false false false = Raise ValueError.
Proof. vm_compute. reflexivity. Qed.

(** The name of 2 ** 30 is that of 2 ** 20. *)
Example giga_is_mega : nice_units (PInt (2 ^ 30)) 0 None [] (txt " ") false true true = Ok (txt "1 mega").
Proof. vm_compute. reflexivity. Qed.
(** The quotient of an integer and a binary multiplier is rounded down. *)
Example binary_truncated : bin_units (PInt 1536) 1 = Ok (txt "1.0 K") /\ bin_units (frac 1536 1) 1 = Ok (txt "1.5 K").
Proof. split; vm_compute; reflexivity. Qed.
(** Every negative number is below the smallest multiplier, and NaN has none. *)
Example negative_units : units (PInt (-5)) = Ok (txt "-5000000000000000452984832 y") /\ units (PInt 0) = Ok (txt "0 y") /\
  units (PFloat S754_nan) = Raise UnboundLocalError.
Proof. repeat split; vm_compute; reflexivity. Qed.

(** ** The multiplier of [nice_units] *)

Lemma find_interval_cons value i m m' l : find_interval value i (m :: m' :: l) =
  if (num_leb m value && num_ltb value m')%bool then Some i else find_interval value (S i) (m' :: l).
Proof. done. Qed.

Lemma find_interval_spec value i m l last_ :
  is_nan value = false -> Forall (fun m => is_nan m = false) (m :: l) ->
  last (m :: l) = Some last_ -> num_leb m value = true -> num_geb value last_ = false ->
  exists k lo hi, find_interval value i (m :: l) = Some (i + k)%nat /\ (m :: l) !! k = Some lo /\ num_leb lo value = true /\
    (m :: l) !! S k = Some hi /\ num_ltb value hi = true.
Proof.
  intros Hv Hl Hlast. revert i m Hl Hlast. induction l as [|m' l IH]; intros i m Hl Hlast Hlo Hhi.
  - injection Hlast as <-. unfold num_geb in Hhi. congruence.
  - rewrite find_interval_cons, Hlo. apply Forall_cons in Hl as [_ Hl].
    destruct (num_ltb value m') eqn:Hlt; cbn [andb].
    + exists 0%nat, m, m'. by rewrite Nat.add_0_r.
    + apply Forall_cons in Hl as Hm'. destruct Hm' as [Hm' _].
      rewrite num_ltb_not_leb in Hlt by done. apply negb_false_iff in Hlt.
      destruct (IH (S i) m' Hl Hlast Hlt Hhi) as (k & lo & hi & Hk & Hlok & Hlo' & Hhik & Hhi').
      exists (S k), lo, hi. rewrite Hk. split; [f_equal; lia|]. done.
Qed.

Lemma select_mult_spec value ms : is_nan value = false -> Forall (fun m => is_nan m = false) ms -> ms <> [] ->
  exists i m, select_mult value ms = Some i /\ ms !! i = Some m /\ (i = 0%nat \/ num_leb m value = true) /\
    forall next, ms !! S i = Some next -> num_ltb value next = true \/ (i = 0%nat /\ num_ltb value m = true).
Proof.
  intros Hv Hms Hne. destruct ms as [|m ms]; [done|]. unfold select_mult.
  destruct (last (m :: ms)) as [l|] eqn:Hlast; [|by apply last_None in Hlast].
  destruct (num_ltb value m) eqn:Hlt.
  - exists 0%nat, m. do 3 (split; [by eauto|]). intros next _. by right.
  - apply Forall_cons in Hms as Hm. destruct Hm as [Hm _]. rewrite num_ltb_not_leb in Hlt by done. apply negb_false_iff in Hlt.
    destruct (num_geb value l) eqn:Hge.
    + rewrite last_lookup in Hlast. cbn [length pred] in *. exists (length ms), l.
      replace (S (length ms) - 1)%nat with (length ms) by lia. split; [done|]. split; [done|]. split; [by right|].
      intros next Hn. apply lookup_lt_Some in Hn. cbn in Hn. lia.
    + destruct (find_interval_spec value 0 m ms l Hv Hms Hlast Hlt Hge) as (k & lo & hi & -> & Hk & Hlo & Hhi & Hlt').
      exists k, lo. split; [done|]. split; [done|]. split; [by right|]. intros next Hn. left. congruence.
Qed.

#[local] Instance spec_float_eq_dec : EqDecision spec_float.
Proof. solve_decision. Defined.
#[local] Instance num_eq_dec : EqDecision num.
Proof. solve_decision. Defined.

(** Every prefix has a number and is found by it. *)
Lemma prefixes_found bin extra kv full : kv ∈ prefixes_of bin extra ->
  is_nan kv.1 = false /\ label (prefixes_of bin extra) kv.1 full = Ok (if full then kv.2.2 else kv.2.1).
Proof.
  assert (Forall (fun kv => is_nan kv.1 = false /\
    label (prefixes_of bin extra) kv.1 full = Ok (if full then kv.2.2 else kv.2.1)) (prefixes_of bin extra)) as H.
  { destruct bin, extra, full; repeat (apply Forall_cons; split; [split; vm_compute; reflexivity|]); constructor. }
  rewrite Forall_forall in H. apply H.
Qed.

Definition num_le (a b : num) : Prop := num_leb a b = true.

Lemma select_prefix bin extra value : is_nan value = false ->
  let ms := py_sort (prefixes_of bin extra).*1 in
  exists i kv, select_mult value ms = Some i /\ ms !! i = Some kv.1 /\ kv ∈ prefixes_of bin extra /\
    (num_le kv.1 value \/ forall other, other ∈ prefixes_of bin extra -> num_le kv.1 other.1) /\
    forall other, other ∈ prefixes_of bin extra -> num_le other.1 value -> num_le other.1 kv.1.
Proof.
  intros Hv ms. unfold num_le.
  assert (forall m, m ∈ ms <-> m ∈ (prefixes_of bin extra).*1) as Hin by (intros m; unfold ms; by rewrite py_sort_perm).
  assert (Forall (fun m => is_nan m = false) (prefixes_of bin extra).*1) as Hnan'.
  { apply Forall_fmap, Forall_forall. intros kv Hkv. by apply (prefixes_found bin extra kv true). }
  assert (Forall (fun m => is_nan m = false) ms) as Hnan by (unfold ms; by rewrite py_sort_perm).
  pose proof (py_sort_ok _ Hnan') as Hs. fold ms in Hs.
  destruct (select_mult_spec value ms Hv Hnan) as (i & m & Hsel & Hi & Hlo & Hhi).
  { intros Hms. apply (f_equal length) in Hms. unfold ms in Hms. rewrite py_sort_perm in Hms. by destruct bin, extra. }
  assert (m ∈ (prefixes_of bin extra).*1) as Hm by (apply Hin; by eapply list_elem_of_lookup_2).
  apply list_elem_of_fmap in Hm as (kv & -> & Hkv). exists i, kv. do 3 (split; [done|]).
  assert (forall a b x y, (a <= b)%nat -> ms !! a = Some x -> ms !! b = Some y -> num_leb x y = true) as Hle.
  { intros a b x y Hab Ha Hb. destruct (decide (a = b)) as [<-|Hne].
    - assert (x = y) as <- by congruence. apply num_leb_refl. rewrite Forall_forall in Hnan.
      by apply Hnan, (list_elem_of_lookup_2 _ a).
    - apply (StronglySorted_lookup (fun a b => num_leb a b = true) ms a b); [done|lia|done..]. }
  assert (forall other, other ∈ prefixes_of bin extra -> exists j, ms !! j = Some other.1) as Hidx.
  { intros other Ho. apply list_elem_of_lookup. by apply Hin, list_elem_of_fmap_2. }
  split.
  - destruct Hlo as [->|Hlo]; [right|by left]. intros other Ho. destruct (Hidx other Ho) as [j Hj].
    apply (Hle 0%nat j); [lia|done..].
  - intros other Ho Hov. destruct (Hidx other Ho) as [j Hj].
    destruct (decide (j <= i)%nat) as [Hji|Hji]; [by apply (Hle j i)|].
    destruct (lookup_lt_is_Some_2 ms (S i)) as [next Hnext]; [apply lookup_lt_Some in Hj; lia|].
    destruct (Hhi next Hnext) as [Hlt|[_ Hlt]]; exfalso.
    + rewrite num_leb_not_ltb in Hlt; [done|].
      apply (num_leb_trans _ other.1); [apply (Hle (S i) j); [lia|done..]|done].
    + rewrite num_leb_not_ltb in Hlt; [done|].
      apply (num_leb_trans _ other.1); [apply (Hle i j); [lia|done..]|done].
Qed.


(** With a number of significant digits: the multiplier is the greatest that is not
    above the value, or the smallest when all are; the quotient is shown with its
    symbol or name. *)
Theorem nice_units_spec value dp s suffix space extra full bin : is_nan value = false -> 0 <= s ->
  exists kv, kv ∈ prefixes_of bin extra /\
    (num_le kv.1 value \/ forall other, other ∈ prefixes_of bin extra -> num_le kv.1 other.1) /\
    (forall other, other ∈ prefixes_of bin extra -> num_le other.1 value -> num_le other.1 kv.1) /\
    nice_units value dp (Some s) suffix space extra full bin =
      (q ← num_div value kv.1; t ← fmt_general (Z.to_nat s) q;
       Ok (t ++ space ++ (if full then kv.2.2 else kv.2.1) ++ suffix)).
Proof.
  intros Hv Hs. destruct (select_prefix bin extra value Hv) as (i & kv & Hsel & Hi & Hkv & Hlo & Hmax).
  exists kv. do 3 (split; [done|]). unfold nice_units. rewrite Hsel. cbn [or_raise mbind result_bind]. rewrite Hi.
  cbn [or_raise mbind result_bind]. destruct (num_div value kv.1) as [q| |]; [|done..]. cbn [mbind result_bind].
  unfold precision_format. rewrite (proj2 (Z.ltb_ge s 0)) by done.
  destruct (fmt_general (Z.to_nat s) q) as [t| |]; [|done..]. cbn [mbind result_bind].
  by rewrite (proj2 (prefixes_found bin extra kv full Hkv)).
Qed.

Lemma nice_units_spec_witness : exists kv, kv ∈ prefixes_of false false /\
  nice_units (PInt 1234567) 0 (Some 3) [] [] false false false =
    (q ← num_div (PInt 1234567) kv.1; t ← fmt_general 3 q; Ok (t ++ [] ++ kv.2.1 ++ [])).
Proof.
  destruct (nice_units_spec (PInt 1234567) 0 3 [] [] false false false) as (kv & H & _ & _ & He); [done|lia|].
  exists kv. split; [exact H|exact He].
Defined.

(** ** [getmodule]

    A function has the global names of its module.  Of a class only the functions
    in its [__dict__] matter: an attribute is the globals that it has, if any. *)
Notation globals := (gmap text text).
Inductive definition_obj :=
| Function (func_globals : globals)
| ClassObj (attributes : gmap text (option globals)).

Section Modules.
Context {Mod : Type} `{!DictOrder text} (modules : gmap text Mod).

(** The values in the order of the dictionary. *)
Definition dict_values {V} (d : gmap text V) : list V := omap (fun k => d !! k) (dict_keys d).

Definition getmodule (obj : definition_obj) : res Mod :=
  func ← match obj with
         | Function g => Ok g
         | ClassObj d => or_raise ValueError (head (omap id (dict_values d)))
         end;
  module_name ← or_raise KeyError (func !! txt "__name__");
  or_raise KeyError (modules !! module_name).

Lemma elem_of_dict_values {V} (d : gmap text V) v : v ∈ dict_values d <-> exists k, d !! k = Some v.
Proof.
  unfold dict_values. rewrite list_elem_of_omap. split.
  - intros (k & _ & Hk). eauto.
  - intros [k Hk]. exists k. split; [|done]. apply elem_of_dict_keys. eauto.
Qed.

(** When the functions of a class all come from one module, that module is found in
    whatever order the dictionary is ... *)
Theorem getmodule_class d name m k g :
  (forall k g, d !! k = Some (Some g) -> g !! txt "__name__" = Some name) -> modules !! name = Some m ->
  d !! k = Some (Some g) -> getmodule (ClassObj d) = Ok m.
Proof.
  intros Hd Hm Hk. unfold getmodule.
  assert (g ∈ omap id (dict_values d)) as Hin by (apply list_elem_of_omap; exists (Some g); split; [|done]; apply elem_of_dict_values; eauto).
  destruct (omap id (dict_values d)) as [|g' l] eqn:Hl; [by apply not_elem_of_nil in Hin|].
  assert (g' ∈ omap id (dict_values d)) as Hg' by (rewrite Hl; constructor).
  apply list_elem_of_omap in Hg' as (o & Ho & Hog). apply elem_of_dict_values in Ho as [k' Hk']. unfold id in Hog. subst o.
  cbn [head or_raise mbind result_bind]. rewrite (Hd k' g' Hk'). cbn [or_raise mbind result_bind]. by rewrite Hm.
Qed.

(** ... and a class without functions is refused. *)
Theorem getmodule_empty d : (forall k g, d !! k <> Some (Some g)) -> getmodule (ClassObj d) = Raise ValueError.
Proof.
  intros Hd. unfold getmodule. destruct (omap id (dict_values d)) as [|g l] eqn:Hl; [done|].
  assert (g ∈ omap id (dict_values d)) as Hg by (rewrite Hl; constructor).
  apply list_elem_of_omap in Hg as (o & Ho & Hog). apply elem_of_dict_values in Ho as [k Hk]. unfold id in Hog. subst o.
  by destruct (Hd k g).
Qed.
End Modules.
