(* ===== verification/TopSort.v ===== *)
(** * [bindings/python/topsort.py]: topological sorting and cycle finding. *)
From S2P Require Import Prelude PyDict RadSeq.
From stdpp Require Import relations.

(** ** The dependency dictionaries *)

Section topsort.
Context {K : Type} `{DictOrder K}.
Implicit Types (np : gmap K Z) (ch : gmap K (list K)).

Record cycle_error := CycleError {
  ce_answer : option (list K);   (* only in the error of [topsort] *)
  ce_num_parents : gmap K Z;
  ce_children : gmap K (list K) }.

Inductive topsort_exn :=
| Cycle (err : cycle_error)
| PyExn (e : py_exn).

Definition lift {A} (r : res A) : result topsort_exn A :=
  match r with Ok a => Ok a | Raise e => Raise (PyExn e) | NoFuel => NoFuel end.

(** [d[k] += z] *)
Definition dict_add (d : gmap K Z) (k : K) (z : Z) : res (gmap K Z) :=
  v ← or_raise KeyError (d !! k); Ok (<[k := (v + z)%Z]> d).

(** [del d[k]] *)
Definition dict_del {V} (d : gmap K V) (k : K) : res (gmap K V) :=
  _ ← or_raise KeyError (d !! k); Ok (delete k d).

Definition ensure_key np (k : K) : gmap K Z :=
  match np !! k with Some _ => np | None => <[k := 0%Z]> np end.

(** The body of the loop over [pairlist]. *)
Definition add_pair (g : gmap K Z * gmap K (list K)) (pair : K * K) :
    res (gmap K Z * gmap K (list K)) :=
  let '(num_parents, children) := g in
  let '(parent, child) := pair in
  let num_parents := ensure_key num_parents parent in
  let num_parents := ensure_key num_parents child in
  num_parents ← dict_add num_parents child 1;
  let children :=
    <[parent := default [] (children !! parent) ++ [child]]> children in
  Ok (num_parents, children).

Definition count_pairs (pairlist : list (K * K)) :
    res (gmap K Z * gmap K (list K)) :=
  for_each add_pair pairlist (∅, ∅).

(** The keys without a parent. *)
Definition no_parents np : list K :=
  filter (fun x => np !! x = Some 0%Z) (dict_keys np).

(** ** [topsort] *)

(** The body of [for child in children[parent]]. *)
Definition knock_down (s : gmap K Z * list K) (child : K) :
    res (gmap K Z * list K) :=
  let '(num_parents, answer) := s in
  num_parents ← dict_add num_parents child (-1);
  n ← or_raise KeyError (num_parents !! child);
  if decide (n = 0%Z) then Ok (num_parents, answer ++ [child])
  else Ok (num_parents, answer).

Record sort_state := SortState {
  st_np : gmap K Z; st_ch : gmap K (list K);
  st_answer : list K;
  st_next : nat }.       (* how far [for parent in answer] has gone *)

(** One round of [for parent in answer]; [answer] grows in the loop. *)
Definition topsort_step (s : sort_state) : res (sort_state + sort_state) :=
  match st_answer s !! st_next s with
  | None => Ok (inr s)
  | Some parent =>
      num_parents ← dict_del (st_np s) parent;
      match st_ch s !! parent with
      | Some cs =>
          '(num_parents, answer) ← for_each knock_down cs (num_parents, st_answer s);
          children ← dict_del (st_ch s) parent;
          Ok (inl (SortState num_parents children answer (S (st_next s))))
      | None =>
          Ok (inl (SortState num_parents (st_ch s) (st_answer s) (S (st_next s))))
      end
  end.

Definition topsort (pairlist : list (K * K)) : result topsort_exn (list K) :=
  '(num_parents, children) ← lift (count_pairs pairlist);
  let answer := no_parents num_parents in
  s ← lift (loop (S (size num_parents)) topsort_step
              (SortState num_parents children answer 0));
  if decide (st_np s = ∅) then Ok (st_answer s)
  else Raise (Cycle (CycleError (Some (st_answer s)) (st_np s) (st_ch s))).

(** ** [topsort_levels] *)

(** What a generator has yielded, and how it ended. *)
Definition generated : Type := list (list K) * result topsort_exn unit.

(** The body of [for level_parent in level_parents]. *)
Definition drop_parent (g : gmap K Z * gmap K (list K)) (level_parent : K) :
    res (gmap K Z * gmap K (list K)) :=
  let '(num_parents, children) := g in
  num_parents ← dict_del num_parents level_parent;
  match children !! level_parent with
  | Some cs =>
      num_parents ← for_each (fun np child => dict_add np child (-1)) cs num_parents;
      children ← dict_del children level_parent;
      Ok (num_parents, children)
  | None => Ok (num_parents, children)
  end.

Record levels_state := LevelsState {
  lv_np : gmap K Z; lv_ch : gmap K (list K);
  lv_out : list (list K) }.   (* the levels yielded so far *)

Definition levels_end (s : levels_state) : generated :=
  if decide (lv_np s = ∅) then (lv_out s, Ok ())
  else (lv_out s, Raise (Cycle (CycleError None (lv_np s) (lv_ch s)))).

Definition levels_step (s : levels_state) :
    res (levels_state + generated) :=
  let level_parents := no_parents (lv_np s) in
  if decide (level_parents = []) then Ok (inr (levels_end s))
  else
    let out := lv_out s ++ [level_parents] in
    match for_each drop_parent level_parents (lv_np s, lv_ch s) with
    | Ok (num_parents, children) =>
        Ok (inl (LevelsState num_parents children out))
    | Raise e => Ok (inr (out, Raise (PyExn e)))
    | NoFuel => Ok (inr (out, NoFuel))
    end.

Definition topsort_levels_core np ch : res generated :=
  loop (S (size np)) levels_step (LevelsState np ch []).

Definition topsort_levels (pairlist : list (K * K)) : res generated :=
  '(num_parents, children) ← count_pairs pairlist;
  topsort_levels_core num_parents children.

End topsort.
Arguments cycle_error K {_ _}.
Arguments topsort_exn K {_ _}.
Arguments sort_state K {_ _}.
Arguments levels_state K {_ _}.
Arguments generated K {_ _}.

Example topsort_doc1 :
  topsort (K:=nat) [(1,2); (3,4); (5,6); (1,3); (1,5); (1,6); (2,5)]
  = Ok [1; 2; 3; 5; 4; 6].
Proof. vm_compute. reflexivity. Qed.
Example topsort_doc3 :
  match topsort (K:=nat) [(1,2); (2,3); (3,2)] with
  | Raise (Cycle e) => (ce_answer e, map_to_list (ce_num_parents e),
                        map_to_list (ce_children e))
  | _ => (None, [], []) end
  = (Some [1], [(2,1%Z);(3,1%Z)], [(2,[3]); (3,[2])]).
Proof. vm_compute. reflexivity. Qed.
Example levels_doc1 :
  topsort_levels (K:=nat) [(1,2); (3,4); (5,6); (1,3); (1,5); (1,6); (2,5)]
  = Ok ([[1]; [2; 3]; [4; 5]; [6]], Ok ()).
Proof. vm_compute. reflexivity. Qed.

(** ** Specification of the dictionaries *)

Section spec.
Context {K : Type} `{DictOrder K}.
Implicit Types (np : gmap K Z) (ch : gmap K (list K)) (E : list (K * K)).
Implicit Types (P l : list K) (x p c : K).

Definition node E x : Prop := x ∈ E.*1 \/ x ∈ E.*2.

(** The number of pairs [(p, x)] whose parent [p] is not in [P]. *)
Definition indeg E P x : nat := length (filter (fun e => e.2 = x /\ e.1 ∉ P) E).

Definition succs E p : list K := (filter (fun e => e.1 = p) E).*2.

Definition occ x l : nat := length (filter (fun y => y = x) l).

(** The dictionaries when the elements of [P] have been processed. *)
Definition np_spec E P np : Prop := forall x,
  np !! x = if decide (node E x /\ x ∉ P) then Some (Z.of_nat (indeg E P x)) else None.
Definition ch_spec E P ch : Prop := forall p,
  ch !! p = if decide (p ∈ E.*1 /\ p ∉ P) then Some (succs E p) else None.

#[local] Arguments occ : simpl never.
#[local] Arguments indeg : simpl never.
#[local] Arguments succs : simpl never.

Lemma occ_app x l1 l2 : occ x (l1 ++ l2) = occ x l1 + occ x l2.
Proof. unfold occ. by rewrite filter_app, length_app. Qed.

Lemma occ_cons x y l : occ x (y :: l) = (if decide (y = x) then 1 else 0) + occ x l.
Proof. unfold occ. rewrite filter_cons. by destruct (decide (y = x)). Qed.

Lemma occ_cons_eq x l : occ x (x :: l) = 1 + occ x l.
Proof. rewrite occ_cons. by rewrite decide_True. Qed.

Lemma occ_elem x l : x ∈ l <-> 0 < occ x l.
Proof.
  unfold occ. rewrite <- (Nat.neq_0_lt_0 (length _)), length_zero_iff_nil.
  split.
  - intros Hx Hnil. assert (x ∈ filter (fun y => y = x) l) as Hf.
    { by apply list_elem_of_filter. }
    rewrite Hnil in Hf. by apply not_elem_of_nil in Hf.
  - intros Hne. destruct (filter _ _) as [|y t] eqn:Ef; [done|].
    assert (y ∈ filter (fun y => y = x) l) as Hf by (rewrite Ef; left).
    apply list_elem_of_filter in Hf as [-> ?]. done.
Qed.

Lemma succs_app E1 E2 p : succs (E1 ++ E2) p = succs E1 p ++ succs E2 p.
Proof. unfold succs. by rewrite filter_app, fmap_app. Qed.

Lemma elem_of_succs E p c : c ∈ succs E p <-> (p, c) ∈ E.
Proof.
  unfold succs. rewrite list_elem_of_fmap. split.
  - intros ([a b] & -> & Hin). by apply list_elem_of_filter in Hin as [<- ?].
  - intros Hin. exists (p, c). split; [done|]. by apply list_elem_of_filter.
Qed.

Lemma node_l E p c : (p, c) ∈ E -> node E p.
Proof. intros. left. apply list_elem_of_fmap. by exists (p, c). Qed.
Lemma node_r E p c : (p, c) ∈ E -> node E c.
Proof. intros. right. apply list_elem_of_fmap. by exists (p, c). Qed.

Lemma indeg_cons E e P x :
  indeg (e :: E) P x =
    (if decide (e.2 = x /\ e.1 ∉ P) then 1 else 0) + indeg E P x.
Proof. unfold indeg. rewrite filter_cons. by case_decide. Qed.

Lemma indeg_app E1 E2 P x : indeg (E1 ++ E2) P x = indeg E1 P x + indeg E2 P x.
Proof. unfold indeg. by rewrite filter_app, length_app. Qed.

Lemma indeg_pos E P x : 0 < indeg E P x <-> exists p, (p, x) ∈ E /\ p ∉ P.
Proof.
  unfold indeg. rewrite <- (Nat.neq_0_lt_0 (length _)), length_zero_iff_nil. split.
  - intros Hne. destruct (filter _ E) as [|[p y] t] eqn:Ef; [done|].
    assert ((p, y) ∈ filter (fun e : K * K => e.2 = x /\ e.1 ∉ P) E) as Hf
      by (rewrite Ef; left).
    apply list_elem_of_filter in Hf as [[<- ?] ?]. eauto.
  - intros (p & Hin & Hp) Hnil.
    assert ((p, x) ∈ filter (fun e : K * K => e.2 = x /\ e.1 ∉ P) E) as Hf
      by (apply list_elem_of_filter; done).
    rewrite Hnil in Hf. by apply not_elem_of_nil in Hf.
Qed.

Lemma indeg_0 E P x : indeg E P x = 0 <-> forall p, (p, x) ∈ E -> p ∈ P.
Proof.
  destruct (decide (indeg E P x = 0)) as [H0'|H0'].
  - split; [|done]. intros _ p Hp.
    destruct (decide (p ∈ P)); [done|].
    assert (0 < indeg E P x) by (apply indeg_pos; eauto). lia.
  - split; [done|]. intros Hall.
    destruct (proj1 (indeg_pos E P x) ltac:(lia)) as (p & ? & ?). naive_solver.
Qed.

(** Processing [p] takes its edges off the counts of its children. *)
Lemma indeg_snoc E P p x :
  p ∉ P -> indeg E P x = indeg E (P ++ [p]) x + occ x (succs E p).
Proof.
  intros Hp. induction E as [|[a b] E IH]; [done|].
  rewrite !indeg_cons, IH. unfold succs. rewrite filter_cons. cbn [fst snd].
  destruct (decide (a = p)) as [->|Hne]; cbn [fmap list_fmap].
  - rewrite (decide_False (P := _ /\ p ∉ P ++ [p])) by (rewrite elem_of_app, list_elem_of_singleton; tauto).
    rewrite occ_cons. fold (succs E p). cbn [snd]. destruct (decide (b = x)).
    + rewrite decide_True by done. lia.
    + rewrite decide_False by naive_solver. lia.
  - fold (succs E p).
    rewrite (decide_ext (b = x /\ a ∉ P) (b = x /\ a ∉ P ++ [p])); [lia|].
    set_solver.
Qed.

Lemma dict_add_Some np k v z :
  np !! k = Some v -> dict_add np k z = Ok (<[k := (v + z)%Z]> np).
Proof. intros Hv. unfold dict_add. by rewrite Hv. Qed.

Lemma dict_del_Some {V} (m : gmap K V) k :
  is_Some (m !! k) -> dict_del m k = Ok (delete k m).
Proof. intros [v Hv]. unfold dict_del. by rewrite Hv. Qed.

Lemma ensure_key_lookup np k x :
  ensure_key np k !! x =
    match np !! x with Some v => Some v
    | None => if decide (x = k) then Some 0%Z else None end.
Proof.
  unfold ensure_key. destruct (np !! k) eqn:Ek.
  - destruct (np !! x) eqn:Ex; [done|]. rewrite decide_False by congruence. done.
  - destruct (decide (x = k)) as [->|].
    + by rewrite lookup_insert_eq, Ek.
    + rewrite lookup_insert_ne by done. by destruct (np !! x).
Qed.

Lemma node_snoc E p c x :
  node (E ++ [(p, c)]) x <-> node E x \/ x = p \/ x = c.
Proof.
  unfold node. rewrite !fmap_app. cbn.
  rewrite !elem_of_app, !list_elem_of_singleton. tauto.
Qed.

Lemma not_node_indeg E P x : ~ node E x -> indeg E P x = 0.
Proof. intros Hx. apply indeg_0. by intros p Hp%node_r. Qed.

Lemma succs_nil E p : p ∉ E.*1 -> succs E p = [].
Proof.
  intros Hp. destruct (succs E p) as [|c t] eqn:Es; [done|]. destruct Hp.
  apply list_elem_of_fmap. exists (p, c). split; [done|].
  apply elem_of_succs. rewrite Es. left.
Qed.

Lemma succs_snoc E p c q :
  succs (E ++ [(p, c)]) q = succs E q ++ (if decide (p = q) then [c] else []).
Proof.
  rewrite succs_app. f_equal. unfold succs. rewrite filter_cons. cbn [fst].
  by destruct (decide (p = q)).
Qed.

(** [add_pair] extends the dictionaries by one edge. *)
Lemma add_pair_np E p c np :
  np_spec E [] np ->
  exists np', dict_add (ensure_key (ensure_key np p) c) c 1 = Ok np' /\
    np_spec (E ++ [(p, c)]) [] np'.
Proof.
  intros Hnp. set (np1 := ensure_key (ensure_key np p) c).
  assert (Hnx : forall x, np1 !! x = if decide (node (E ++ [(p, c)]) x)
                  then Some (Z.of_nat (indeg E [] x)) else None).
  { intros x. subst np1. rewrite !ensure_key_lookup, (Hnp x).
    rewrite (decide_ext (node E x /\ x ∉ []) (node E x))
      by (split; [tauto|]; intros; split; [done|apply not_elem_of_nil]).
    destruct (decide (node E x)) as [|Hn].
    - rewrite decide_True by (apply node_snoc; tauto). done.
    - rewrite (not_node_indeg E [] x) by done.
      pose proof (node_snoc E p c x). repeat case_decide; tauto || done. }
  unfold dict_add. rewrite Hnx, decide_True by (apply node_snoc; tauto). cbn.
  eexists. split; [done|]. intros x.
  rewrite (decide_ext (_ /\ x ∉ []) (node (E ++ [(p, c)]) x))
    by (split; [tauto|]; intros; split; [done|apply not_elem_of_nil]).
  rewrite indeg_app, indeg_cons. cbn [fst snd]. change (indeg [] [] x) with 0.
  rewrite (decide_ext (c = x /\ p ∉ []) (c = x))
    by (split; [tauto|]; intros; split; [done|apply not_elem_of_nil]).
  destruct (decide (c = x)) as [->|Hxc].
  - rewrite lookup_insert_eq, decide_True by (apply node_snoc; tauto).
    f_equal. lia.
  - by rewrite lookup_insert_ne, Hnx, Nat.add_0_r by done.
Qed.

Lemma add_pair_ch E p c ch :
  ch_spec E [] ch ->
  ch_spec (E ++ [(p, c)]) [] (<[p := default [] (ch !! p) ++ [c]]> ch).
Proof.
  intros Hch q. rewrite fmap_app, succs_snoc. cbn.
  assert (Hnil : forall x (l : list K), (x ∈ l /\ x ∉ []) <-> x ∈ l)
    by (split; [tauto|]; intros; split; [done|apply not_elem_of_nil]).
  rewrite (decide_ext _ _ _ _ (Hnil _ _)), (decide_ext _ _ _ _ (elem_of_app _ _ _)).
  destruct (decide (p = q)) as [->|Hq].
  - rewrite lookup_insert_eq, decide_True by (right; apply list_elem_of_singleton; done).
    f_equal. f_equal. rewrite (Hch q), (decide_ext _ _ _ _ (Hnil _ _)).
    case_decide; [done|]. cbn. by rewrite succs_nil.
  - rewrite lookup_insert_ne, (Hch q), (decide_ext _ _ _ _ (Hnil _ _)) by done.
    rewrite app_nil_r. apply decide_ext.
    rewrite list_elem_of_singleton. naive_solver.
Qed.

Lemma count_pairs_spec E :
  exists np ch, count_pairs E = Ok (np, ch) /\ np_spec E [] np /\ ch_spec E [] ch.
Proof.
  unfold count_pairs.
  destruct (for_each_inv add_pair
    (fun pre _ g => np_spec pre [] g.1 /\ ch_spec pre [] g.2)) with E
    (∅ : gmap K Z, ∅ : gmap K (list K)) as ([np ch] & Heq & Hnp & Hch).
  - intros pre [p c] post [np ch] [Hnp Hch]. cbn [add_pair].
    destruct (add_pair_np pre p c np Hnp) as (np' & -> & Hnp').
    eexists. split; [done|]. split; [done|]. by apply add_pair_ch.
  - unfold np_spec, ch_spec, node. cbn.
    split; intros x; rewrite lookup_empty, decide_False;
      rewrite ?elem_of_nil; tauto.
  - exists np, ch. done.
Qed.

(** *** Processing one element *)

(** Every parent of a processed element is processed. *)
Definition closed E P : Prop := forall x, x ∈ P -> indeg E P x = 0.

Lemma closed_snoc E P p :
  closed E P -> p ∉ P -> indeg E P p = 0 -> closed E (P ++ [p]).
Proof.
  intros Hcl Hp Hi x. rewrite elem_of_app, list_elem_of_singleton.
  pose proof (indeg_snoc E P p x Hp). intros [Hx| ->]; [|lia].
  specialize (Hcl x Hx). lia.
Qed.

(** The children of an unprocessed [p] are unprocessed. *)
Lemma succ_unprocessed E P p c :
  closed E P -> p ∉ P -> indeg E P p = 0 -> c ∈ succs E p ->
  node E c /\ c ∉ P /\ c <> p /\ occ c (succs E p) <= indeg E P c.
Proof.
  intros Hcl Hp Hi Hc%elem_of_succs.
  assert (0 < indeg E P c) by (apply indeg_pos; eauto).
  split; [by eapply node_r|]. split; [intros Hin; specialize (Hcl c Hin); lia|].
  split; [intros ->; lia|]. rewrite (indeg_snoc E P p c Hp). lia.
Qed.

Lemma np_spec_lookup E P np x :
  np_spec E P np -> node E x -> x ∉ P -> np !! x = Some (Z.of_nat (indeg E P x)).
Proof. intros Hnp ??. rewrite (Hnp x). by rewrite decide_True. Qed.

Lemma np_spec_Some E P np x v :
  np_spec E P np -> np !! x = Some v ->
  node E x /\ x ∉ P /\ v = Z.of_nat (indeg E P x).
Proof. intros Hnp. rewrite (Hnp x). case_decide; naive_solver. Qed.

(** The counts after the children of [p] have been knocked down. *)
Definition knocked np cs np' : Prop := forall x,
  np' !! x = (fun v => (v - Z.of_nat (occ x cs))%Z) <$> np !! x.

Lemma knocked_nil np : knocked np [] np.
Proof.
  intros x. change (occ x []) with 0.
  destruct (np !! x); [cbn; f_equal; lia|done].
Qed.

Lemma np_spec_snoc E P p np np' :
  np_spec E P np -> p ∉ P -> knocked (delete p np) (succs E p) np' ->
  np_spec E (P ++ [p]) np'.
Proof.
  intros Hnp Hp Hk x. rewrite (Hk x).
  rewrite (decide_ext (node E x /\ x ∉ P ++ [p]) ((node E x /\ x ∉ P) /\ x <> p)).
  2:{ rewrite elem_of_app, list_elem_of_singleton. tauto. }
  destruct (decide (x = p)) as [->|Hx].
  - rewrite lookup_delete_eq, decide_False by tauto. done.
  - rewrite lookup_delete_ne, (Hnp x) by done.
    rewrite (indeg_snoc E P p x Hp).
    destruct (decide (node E x /\ x ∉ P)).
    + rewrite decide_True by tauto. cbn. f_equal. lia.
    + rewrite decide_False by tauto. done.
Qed.

Lemma ch_spec_snoc E P p ch :
  ch_spec E P ch -> ch_spec E (P ++ [p]) (delete p ch).
Proof.
  intros Hch x. destruct (decide (x = p)) as [->|Hx].
  - rewrite lookup_delete_eq, decide_False; [done|].
    rewrite elem_of_app, list_elem_of_singleton. tauto.
  - rewrite lookup_delete_ne, (Hch x) by done. apply decide_ext.
    rewrite elem_of_app, list_elem_of_singleton. tauto.
Qed.

Lemma dec_children cs np :
  (forall c, c ∈ cs -> is_Some (np !! c)) ->
  exists np', for_each (fun np c => dict_add np c (-1)) cs np = Ok np' /\
    knocked np cs np'.
Proof.
  revert np. induction cs as [|c cs IH]; intros np Hcs.
  - exists np. split; [done|]. apply knocked_nil.
  - destruct (Hcs c) as [v Hv]; [left|]. cbn [for_each].
    rewrite (dict_add_Some _ _ v) by done. cbn [mbind result_bind].
    destruct (IH (<[c:=(v + -1)%Z]> np)) as (np' & Heq & Hk).
    { intros y Hy. destruct (decide (y = c)) as [->|].
      - rewrite lookup_insert_eq. eauto.
      - rewrite lookup_insert_ne by done. apply Hcs. by right. }
    exists np'. split; [done|]. intros x. rewrite (Hk x), occ_cons.
    destruct (decide (c = x)) as [->|Hx].
    + rewrite lookup_insert_eq, Hv. cbn. f_equal. lia.
    + by rewrite lookup_insert_ne.
Qed.

Lemma knock_children cs np answer :
  (forall c, c ∈ cs -> exists v, np !! c = Some v /\ (Z.of_nat (occ c cs) <= v)%Z) ->
  exists np' new, for_each knock_down cs (np, answer) = Ok (np', answer ++ new) /\
    knocked np cs np' /\ NoDup new /\
    forall x, x ∈ new <-> x ∈ cs /\ np !! x = Some (Z.of_nat (occ x cs)).
Proof.
  revert np answer. induction cs as [|c cs IH]; intros np answer Hcs.
  - exists np, []. rewrite app_nil_r. split; [done|]. split; [|split].
    + apply knocked_nil.
    + constructor.
    + intros x. rewrite !elem_of_nil. tauto.
  - destruct (Hcs c) as (v & Hv & Hle); [left|]. rewrite occ_cons_eq in Hle.
    set (np1 := <[c:=(v + -1)%Z]> np).
    assert (Hother : forall y, y <> c -> np1 !! y = np !! y)
      by (intros; by apply lookup_insert_ne).
    assert (Hc1 : np1 !! c = Some (v - 1)%Z) by apply lookup_insert_eq.
    assert (Hocc : forall y, y <> c -> occ y (c :: cs) = occ y cs).
    { intros y Hy. rewrite occ_cons, decide_False by done. done. }
    set (answer1 := if decide (v - 1 = 0)%Z then answer ++ [c] else answer).
    assert (Hstep : knock_down (np, answer) c = Ok (np1, answer1)).
    { cbn [knock_down]. rewrite (dict_add_Some _ _ v) by done.
      cbn [mbind result_bind]. fold np1. rewrite Hc1. cbn [or_raise mbind result_bind].
      subst answer1. by destruct (decide (v - 1 = 0)%Z). }
    destruct (IH np1 answer1) as (np' & new & Heq & Hk & Hnd & Hnew).
    { intros y Hy. destruct (decide (y = c)) as [->|Hne].
      - exists (v - 1)%Z. split; [done|lia].
      - rewrite Hother by done. destruct (Hcs y) as (w & ? & ?); [by right|].
        exists w. rewrite Hocc in * by done. done. }
    exists np', ((if decide (v - 1 = 0)%Z then [c] else []) ++ new).
    cbn [for_each]. rewrite Hstep. cbn. rewrite Heq. subst answer1. split; [|split; [|split]].
    + f_equal. f_equal. by destruct (decide (v - 1 = 0)%Z); rewrite <- ?app_assoc.
    + intros x. rewrite (Hk x), occ_cons. destruct (decide (c = x)) as [->|Hx].
      * rewrite Hc1, Hv. cbn. f_equal. lia.
      * by rewrite Hother by done.
    + destruct (decide (v - 1 = 0)%Z); [|done]. constructor; [|done].
      rewrite Hnew. intros [Hin%occ_elem _]. lia.
    + intros x. rewrite elem_of_app, Hnew, elem_of_cons.
      destruct (decide (x = c)) as [->|Hne].
      * rewrite Hc1, Hv, occ_cons_eq.
        pose proof (occ_elem c cs). 
        destruct (decide (v - 1 = 0)%Z); rewrite ?list_elem_of_singleton, ?elem_of_nil.
        -- split; [intros _|tauto]. split; [tauto|]. f_equal. lia.
        -- split; [|intros [_ ?]; simplify_eq].
           ++ intros [[]|[? ?]]; simplify_eq. split; [tauto|]. f_equal. lia.
           ++ right. split; [|f_equal; lia]. apply occ_elem. lia.
      * rewrite Hother, Hocc by done.
        destruct (decide (v - 1 = 0)%Z); rewrite ?list_elem_of_singleton, ?elem_of_nil; tauto.
Qed.


Lemma knocked_size np cs np' : knocked np cs np' -> size np' = size np.
Proof.
  intros Hk. rewrite <- !size_dom. f_equal. apply set_eq. intros x.
  rewrite !elem_of_dom, (Hk x). by rewrite fmap_is_Some.
Qed.

Lemma size_delete_lt {V} (m : gmap K V) k :
  is_Some (m !! k) -> size (delete k m) < size m.
Proof.
  intros [v Hv]. rewrite map_size_delete, Hv. cbn.
  assert (size m <> 0); [|lia]. intros ->%map_size_empty_inv.
  by rewrite lookup_empty in Hv.
Qed.

(** *** Chains of dependencies *)

Definition edge E (a b : K) : Prop := (a, b) ∈ E.
Definition cyclic E : Prop := exists x, tc (edge E) x x.

(** A list in which every element comes after its parents comes after all its
    ancestors, and has no element of a cycle. *)
Definition parents_before E (l : list K) : Prop := forall j p c,
  l !! j = Some c -> (p, c) ∈ E -> exists k, k < j /\ l !! k = Some p.

Lemma parents_before_tc E l a b :
  parents_before E l -> tc (edge E) a b ->
  forall j, l !! j = Some b -> exists i, i < j /\ l !! i = Some a.
Proof.
  intros Hl. induction 1 as [a b Hab|a b c Hab _ IH]; intros j Hj.
  - by eapply Hl.
  - destruct (IH j Hj) as (k & ? & Hk). destruct (Hl k a b Hk Hab) as (i & ? & ?).
    exists i. split; [lia|done].
Qed.

Lemma parents_before_acyclic E l x :
  NoDup l -> parents_before E l -> x ∈ l -> ~ tc (edge E) x x.
Proof.
  intros Hnd Hl [j Hj]%list_elem_of_lookup Hx.
  destruct (parents_before_tc E l x x Hl Hx j Hj) as (i & ? & Hi).
  pose proof (NoDup_lookup _ _ _ _ Hnd Hi Hj). lia.
Qed.

(** *** The invariant of [topsort] *)

Record sort_inv E (s : sort_state K) : Prop := {
  si_next : st_next s <= length (st_answer s);
  si_nodup : NoDup (st_answer s);
  si_np : np_spec E (take (st_next s) (st_answer s)) (st_np s);
  si_ch : ch_spec E (take (st_next s) (st_answer s)) (st_ch s);
  si_mem : forall x, x ∈ st_answer s <->
    node E x /\ indeg E (take (st_next s) (st_answer s)) x = 0;
  si_order : parents_before E (st_answer s)
}.

Lemma sort_inv_closed E s :
  sort_inv E s -> closed E (take (st_next s) (st_answer s)).
Proof.
  intros Hs x Hx. apply (si_mem _ _ Hs). apply elem_of_take in Hx.
  destruct Hx as (i & Hi & _). by eapply list_elem_of_lookup_2.
Qed.

(** What [topsort_step] does to the dictionaries and to [answer]. *)
Lemma topsort_step_eq E s p :
  sort_inv E s -> st_answer s !! st_next s = Some p ->
  exists np' new,
    topsort_step s = Ok (inl (SortState np' (delete p (st_ch s))
                                (st_answer s ++ new) (S (st_next s)))) /\
    knocked (delete p (st_np s)) (succs E p) np' /\ NoDup new /\
    forall x, x ∈ new <-> x ∈ succs E p /\
      delete p (st_np s) !! x = Some (Z.of_nat (occ x (succs E p))).
Proof.
  intros Hs Hp. set (P := take (st_next s) (st_answer s)).
  assert (HpP : p ∉ P) by (eapply NoDup_not_in_take; eauto using si_nodup).
  destruct (proj1 (si_mem _ _ Hs p)) as [Hnode Hi];
    [by eapply list_elem_of_lookup_2|].
  assert (Hnp : is_Some (st_np s !! p)).
  { rewrite (np_spec_lookup E P) by (done || apply Hs). eauto. }
  unfold topsort_step. rewrite Hp, (dict_del_Some (st_np s)) by done. cbn [mbind result_bind].
  rewrite (si_ch _ _ Hs p). fold P.
  case_decide as Hch.
  - destruct (knock_children (succs E p) (delete p (st_np s)) (st_answer s))
      as (np' & new & Heq & Hk & Hnd & Hnew).
    { intros c Hc. destruct (succ_unprocessed E P p c) as (? & ? & ? & ?);
        [by apply sort_inv_closed|done..|].
      exists (Z.of_nat (indeg E P c)). split; [|lia].
      rewrite lookup_delete_ne by done. eapply np_spec_lookup; [apply Hs|done..]. }
    exists np', new. rewrite Heq. cbn [mbind result_bind].
    rewrite dict_del_Some; [done|]. rewrite (si_ch _ _ Hs p), decide_True by done. eauto.
  - exists (delete p (st_np s)), [].
    rewrite succs_nil by tauto. split.
    + rewrite app_nil_r, (delete_id (st_ch s)); [done|]. rewrite (si_ch _ _ Hs p).
      by rewrite decide_False.
    + split; [apply knocked_nil|]. split; [constructor|].
      intros x. rewrite !elem_of_nil. tauto.
Qed.

Lemma topsort_step_inv E s p :
  sort_inv E s -> st_answer s !! st_next s = Some p ->
  exists s', topsort_step s = Ok (inl s') /\ sort_inv E s' /\
    size (st_np s') < size (st_np s).
Proof.
  intros Hs Hp. destruct (topsort_step_eq E s p Hs Hp) as (np' & new & -> & Hk & Hnd & Hnew).
  set (P := take (st_next s) (st_answer s)) in *.
  assert (HpP : p ∉ P) by (eapply NoDup_not_in_take; eauto using si_nodup).
  assert (Hlt : st_next s < length (st_answer s)) by (by eapply lookup_lt_Some).
  destruct (proj1 (si_mem _ _ Hs p)) as [Hnode Hi];
    [by eapply list_elem_of_lookup_2|]. fold P in Hi.
  assert (Hcl : closed E P) by (by apply sort_inv_closed).
  assert (HP' : take (S (st_next s)) (st_answer s ++ new) = P ++ [p]).
  { rewrite take_app_le by lia. by apply take_S_r. }
  assert (Hnew' : forall x, x ∈ new -> x ∉ st_answer s /\ node E x /\ indeg E (P ++ [p]) x = 0).
  { intros x (Hx & Hd)%Hnew.
    destruct (succ_unprocessed E P p x) as (? & ? & ? & ?); [done..|].
    rewrite lookup_delete_ne in Hd by done.
    rewrite (np_spec_lookup E P) in Hd by (done || apply Hs). simplify_eq.
    pose proof (indeg_snoc E P p x HpP). apply occ_elem in Hx.
    split; [|split; [done|lia]]. rewrite (si_mem _ _ Hs x). fold P. lia. }
  eexists. split; [done|]. split.
  - constructor; cbn [st_next st_answer st_np st_ch]; rewrite ?HP'.
    + rewrite length_app. lia.
    + apply NoDup_app. split; [apply Hs|]. split; [|done]. naive_solver.
    + eapply np_spec_snoc; [apply Hs|done..].
    + apply ch_spec_snoc, Hs.
    + intros x. rewrite elem_of_app, (si_mem _ _ Hs x). fold P.
      pose proof (indeg_snoc E P p x HpP). split.
      * intros [[? ?]|Hx]; [split; [done|lia]|]. by apply Hnew' in Hx as (_ & ? & ?).
      * intros [Hx Hz]. destruct (decide (indeg E P x = 0)); [by left|]. right.
        apply Hnew. assert (x ∈ succs E p) as Hsx by (apply occ_elem; lia).
        split; [done|]. destruct (succ_unprocessed E P p x) as (? & ? & ? & ?); [done..|].
        rewrite lookup_delete_ne by done. rewrite (np_spec_lookup E P) by (done || apply Hs).
        f_equal. lia.
    + intros j q c [Hj|[Hge Hj]]%lookup_app_Some Hq.
      * destruct (si_order _ _ Hs j q c Hj Hq) as (k & ? & Hk').
        exists k. split; [done|]. by apply lookup_app_l_Some.
      * apply list_elem_of_lookup_2, Hnew' in Hj as (_ & _ & Hz).
        rewrite indeg_0 in Hz. apply Hz in Hq. apply list_elem_of_lookup in Hq as [k Hk'].
        assert (k < length (P ++ [p])) by (by eapply lookup_lt_Some).
        rewrite length_app in *. unfold P in *. rewrite length_take in *. cbn in *.
        exists k. split; [lia|]. rewrite <- HP' in Hk'.
        rewrite lookup_take in Hk'. by case_decide.
  - cbn. rewrite (knocked_size _ _ _ Hk). apply size_delete_lt.
    rewrite (np_spec_lookup E P) by (done || apply Hs). eauto.
Qed.

Lemma topsort_loop E np ch :
  np_spec E [] np -> ch_spec E [] ch ->
  exists s, loop (S (size np)) topsort_step (SortState np ch (no_parents np) 0) = Ok s /\
    sort_inv E s /\ st_next s = length (st_answer s).
Proof.
  intros Hnp Hch.
  apply (loop_total topsort_step (sort_inv E) (fun s => size (st_np s))
    (fun r => exists s, r = Ok s /\ sort_inv E s /\ st_next s = length (st_answer s))).
  - intros s Hs. destruct (st_answer s !! st_next s) as [p|] eqn:Hp.
    + destruct (topsort_step_inv E s p Hs Hp) as (s' & -> & ? & ?). done.
    + unfold topsort_step. rewrite Hp. cbn. exists s. split; [done|]. split; [done|].
      apply lookup_ge_None in Hp. pose proof (si_next _ _ Hs). lia.
  - assert (Hmem : forall x, x ∈ no_parents np <-> node E x /\ indeg E [] x = 0).
    { intros x. unfold no_parents. rewrite list_elem_of_filter, elem_of_dict_keys. split.
      - intros [Hx _]. apply (np_spec_Some E []) in Hx as (? & ? & ?); [|done].
        split; [done|lia].
      - intros [Hx Hz]. rewrite (np_spec_lookup E []) by (done || apply not_elem_of_nil).
        rewrite Hz. eauto. }
    constructor; cbn [st_next st_answer st_np st_ch]; rewrite ?take_0; try done.
    + lia.
    + apply NoDup_filter, NoDup_dict_keys.
    + intros j p c Hj Hp. apply list_elem_of_lookup_2, Hmem in Hj as [_ Hz].
      rewrite indeg_0 in Hz. apply Hz in Hp. by apply not_elem_of_nil in Hp.
  - cbn. lia.
Qed.


(** *** Cycles *)

(** Going from an unprocessed node to an unprocessed parent, again and again,
    comes back to a node seen before. *)
Lemma leftover_walk E P n y vs :
  (forall z, node E z -> z ∉ P -> indeg E P z <> 0) ->
  node E y -> y ∉ P -> NoDup (y :: vs) -> (y :: vs) ⊆ E.*1 ++ E.*2 ->
  (forall v, v ∈ vs -> tc (edge E) y v) ->
  length (E.*1 ++ E.*2) <= n + length vs -> cyclic E.
Proof.
  intros Hrest. revert y vs. induction n as [|n IH]; intros y vs Hy HyP Hnd Hsub Hvs Hn.
  - apply NoDup_submseteq, submseteq_length in Hsub; [|done]. cbn in *. lia.
  - destruct (proj1 (indeg_pos E P y)) as (p & Hp & HpP).
    { specialize (Hrest y Hy HyP). lia. }
    destruct (decide (p ∈ y :: vs)) as [Hin|Hin].
    + exists p. apply elem_of_cons in Hin as [->|Hin]; [by apply tc_once|].
      eapply tc_l; [exact Hp|by apply Hvs].
    + apply (IH p (y :: vs)); [by eapply node_l|done|by constructor| | |cbn; lia].
      * intros z [->|Hz]%elem_of_cons; [|by apply Hsub].
        apply elem_of_app. left. apply list_elem_of_fmap. by exists (p, y).
      * intros v [->|Hv]%elem_of_cons; [by apply tc_once|].
        eapply tc_l; [exact Hp|by apply Hvs].
Qed.

(** When a processed set leaves some node over, the rest contains a cycle. *)
Lemma leftover_cyclic E P x :
  node E x -> x ∉ P -> (forall y, node E y -> y ∉ P -> indeg E P y <> 0) -> cyclic E.
Proof.
  intros Hx HxP Hrest.
  apply (leftover_walk E P (length (E.*1 ++ E.*2)) x []); [done..| | | |lia].
  - apply NoDup_singleton.
  - intros y ->%list_elem_of_singleton. by apply elem_of_app.
  - intros v Hv. by apply not_elem_of_nil in Hv.
Qed.

Definition topological E (answer : list K) : Prop :=
  NoDup answer /\ (forall x, x ∈ answer <-> node E x) /\
  forall p c, (p, c) ∈ E ->
    exists i j, answer !! i = Some p /\ answer !! j = Some c /\ i < j.

(** What [topsort] computes, before the test of [num_parents]. *)
Lemma topsort_final E :
  exists s, sort_inv E s /\ st_next s = length (st_answer s) /\
    topsort E = if decide (st_np s = ∅) then Ok (st_answer s)
      else Raise (Cycle (CycleError (Some (st_answer s)) (st_np s) (st_ch s))).
Proof.
  destruct (count_pairs_spec E) as (np & ch & Heq & Hnp & Hch).
  destruct (topsort_loop E np ch Hnp Hch) as (s & Hl & Hs & Hlast).
  exists s. split; [done|]. split; [done|].
  unfold topsort. rewrite Heq. cbn [lift mbind result_bind]. rewrite Hl. done.
Qed.

Lemma sort_inv_done E s :
  sort_inv E s -> st_next s = length (st_answer s) ->
  np_spec E (st_answer s) (st_np s) /\ ch_spec E (st_answer s) (st_ch s) /\
  forall x, x ∈ st_answer s <-> node E x /\ indeg E (st_answer s) x = 0.
Proof.
  intros Hs Hlast. destruct Hs as [_ _ Hnp Hch Hmem _].
  rewrite Hlast, take_ge in Hnp, Hch, Hmem by done. done.
Qed.

Lemma topsort_inv_topological E s :
  sort_inv E s -> st_next s = length (st_answer s) -> st_np s = ∅ ->
  topological E (st_answer s).
Proof.
  intros Hs Hlast Hemp. destruct (sort_inv_done E s Hs Hlast) as (Hnp & _ & Hmem).
  assert (Hall : forall x, node E x -> x ∈ st_answer s).
  { intros x Hx. destruct (decide (x ∈ st_answer s)); [done|].
    pose proof (np_spec_lookup E _ _ x Hnp Hx) as Hl.
    rewrite Hemp, lookup_empty in Hl. naive_solver. }
  split; [apply Hs|]. split; [intros x; rewrite Hmem; split; [tauto|]; intros; by apply Hmem, Hall|].
  intros p c Hpc. assert (Hc : c ∈ st_answer s) by (eapply Hall, node_r; done).
  apply list_elem_of_lookup in Hc as [j Hj].
  destruct (si_order _ _ Hs j p c Hj Hpc) as (i & ? & ?). eauto.
Qed.

(** The dictionaries left over are not empty exactly when there is a cycle. *)
Lemma topsort_inv_cyclic E s :
  sort_inv E s -> st_next s = length (st_answer s) -> st_np s <> ∅ -> cyclic E.
Proof.
  intros Hs Hlast Hne. destruct (sort_inv_done E s Hs Hlast) as (Hnp & _ & Hmem).
  apply map_choose in Hne as (x & v & Hx).
  apply (np_spec_Some E (st_answer s)) in Hx as (Hx & HxP & _); [|done].
  apply (leftover_cyclic E (st_answer s) x); [done..|].
  intros y Hy HyP Hz. apply HyP. by apply Hmem.
Qed.


(** *** The main theorems about [topsort] *)

(** [topsort] always ends, with an answer or with [CycleError]: no other
    exception, and no run without end. *)
Theorem topsort_total E :
  (exists answer, topsort E = Ok answer) \/ (exists err, topsort E = Raise (Cycle err)).
Proof.
  destruct (topsort_final E) as (s & _ & _ & ->). case_decide; eauto.
Qed.

Lemma topsort_answer E answer : topsort E = Ok answer -> topological E answer.
Proof.
  destruct (topsort_final E) as (s & Hs & Hlast & ->).
  case_decide; intros; simplify_eq. by apply topsort_inv_topological.
Qed.
Lemma topsort_acyclic E : ~ cyclic E -> exists answer, topsort E = Ok answer.
Proof.
  intros Hc. destruct (topsort_final E) as (s & Hs & Hlast & ->). case_decide; [by eexists|].
  destruct Hc. by eapply topsort_inv_cyclic.
Qed.

(** C1: the answer of [topsort] holds every node once, and every parent before
    its children. *)
Theorem topsort_ok E answer : topsort E = Ok answer -> topological E answer.
Proof. apply topsort_answer. Qed.

(** C2: [topsort] raises [CycleError] exactly on the graphs that have a cycle. *)
Theorem topsort_cyclic E :
  cyclic E <-> exists err, topsort E = Raise (Cycle err).
Proof.
  destruct (topsort_final E) as (s & Hs & Hlast & ->). case_decide as Hd.
  - split; [|intros [? ?]; done]. intros [x Hx]. exfalso.
    destruct (topsort_inv_topological E s Hs Hlast Hd) as (_ & Hmem & _).
    eapply (parents_before_acyclic E (st_answer s)); [apply Hs..| |done].
    apply Hmem. inversion Hx; subst; by eapply node_l.
  - split; [eauto|]. intros _. by apply (topsort_inv_cyclic E s).
Qed.

(** What [CycleError] reports: [answer] is what could be ordered, and the
    other nodes, each with the number of its parents that are left. *)
Theorem topsort_cycle_report E err :
  topsort E = Raise (Cycle err) ->
  exists answer, ce_answer err = Some answer /\ NoDup answer /\
    (forall x, x ∈ answer <->
       node E x /\ forall p, (p, x) ∈ E -> p ∈ answer) /\
    (forall x n, ce_num_parents err !! x = Some n <->
       node E x /\ x ∉ answer /\ n = Z.of_nat (indeg E answer x) /\ (0 < n)%Z) /\
    (forall x, tc (edge E) x x -> is_Some (ce_num_parents err !! x)) /\
    (forall p cs, ce_children err !! p = Some cs <->
       p ∈ E.*1 /\ p ∉ answer /\ cs = succs E p).
Proof.
  destruct (topsort_final E) as (s & Hs & Hlast & ->).
  case_decide as Hd; intros; simplify_eq. cbn.
  destruct (sort_inv_done E s Hs Hlast) as (Hnp & Hch & Hmem).
  exists (st_answer s). split; [done|]. split; [apply Hs|].
  assert (Hpos : forall x, node E x -> x ∉ st_answer s -> 0 < indeg E (st_answer s) x).
  { intros x Hx Hxa. rewrite (Hmem x) in Hxa. apply Nat.neq_0_lt_0. tauto. }
  split; [intros x; by rewrite (Hmem x), indeg_0|]. split; [|split].
  - intros x n. rewrite (Hnp x). case_decide as Hx; [|naive_solver].
    destruct Hx as [Hx Hxa]. specialize (Hpos x Hx Hxa). split.
    + intros ?; simplify_eq. split; [done|]. split; [done|]. split; [done|lia].
    + intros (_ & _ & -> & _). done.
  - intros x Hx. assert (node E x) by (inversion Hx; subst; by eapply node_l).
    rewrite (np_spec_lookup E _ _ x Hnp); [eauto|done|].
    intros Hin. by eapply (parents_before_acyclic E (st_answer s)); [apply Hs..| |].
  - intros p cs. rewrite (Hch p). case_decide; naive_solver.
Qed.


(** *** [topsort_levels] *)

Lemma closed_app_step E P p np ch :
  np_spec E P np -> ch_spec E P ch -> closed E P ->
  node E p -> p ∉ P -> indeg E P p = 0 ->
  exists np' ch', drop_parent (np, ch) p = Ok (np', ch') /\
    np_spec E (P ++ [p]) np' /\ ch_spec E (P ++ [p]) ch' /\ closed E (P ++ [p]).
Proof.
  intros Hnp Hch Hcl Hp HpP Hi. cbn [drop_parent].
  rewrite (dict_del_Some np) by (rewrite (np_spec_lookup E P) by done; eauto).
  cbn [mbind result_bind]. pose proof (ch_spec_snoc E P p ch Hch) as Hch'.
  pose proof (closed_snoc E P p Hcl HpP Hi) as Hcl'.
  destruct (ch !! p) as [cs|] eqn:Hcs.
  - assert (cs = succs E p) as ->.
    { rewrite (Hch p) in Hcs. case_decide; by simplify_eq. }
    destruct (dec_children (succs E p) (delete p np)) as (np' & -> & Hk).
    { intros c Hc. destruct (succ_unprocessed E P p c) as (? & ? & ? & ?); [done..|].
      rewrite lookup_delete_ne, (np_spec_lookup E P) by done. eauto. }
    cbn [mbind result_bind]. rewrite dict_del_Some by eauto. cbn [mbind result_bind].
    eexists _, _. split; [done|]. split; [|done]. by eapply np_spec_snoc.
  - eexists _, _. split; [done|]. rewrite delete_id in Hch' by done.
    split; [|done]. eapply np_spec_snoc; [done..|].
    rewrite succs_nil; [apply knocked_nil|].
    intros Hin. rewrite (Hch p), decide_True in Hcs by done. done.
Qed.

(** One level: all its elements are dropped without an exception. *)
Lemma drop_level E level : forall P np ch,
  np_spec E P np -> ch_spec E P ch -> closed E P ->
  NoDup level -> (forall p, p ∈ level -> node E p /\ p ∉ P /\ indeg E P p = 0) ->
  exists np' ch', for_each drop_parent level (np, ch) = Ok (np', ch') /\
    np_spec E (P ++ level) np' /\ ch_spec E (P ++ level) ch' /\ closed E (P ++ level) /\
    size np' + length level <= size np.
Proof.
  induction level as [|p level IH]; intros P np ch Hnp Hch Hcl Hnd Hlev.
  - rewrite app_nil_r. exists np, ch. cbn. repeat split; [done..|lia].
  - apply NoDup_cons in Hnd as [Hpl Hnd].
    destruct (Hlev p) as (Hp & HpP & Hi); [left|].
    destruct (closed_app_step E P p np ch) as (np1 & ch1 & Heq & Hnp1 & Hch1 & Hcl1); [done..|].
    destruct (IH (P ++ [p]) np1 ch1) as (np2 & ch2 & Heq2 & Hnp2 & Hch2 & Hcl2 & Hsz); [done..| |].
    { intros q Hq. destruct (Hlev q) as (? & ? & Hqi); [by right|].
      split; [done|]. rewrite (indeg_snoc E P p q HpP) in Hqi.
      split; [|lia]. rewrite elem_of_app, list_elem_of_singleton.
      intros [?| ->]; done. }
    rewrite <- app_assoc in Hnp2, Hch2, Hcl2. cbn in Hnp2, Hch2, Hcl2.
    exists np2, ch2. cbn [for_each]. rewrite Heq. cbn [mbind result_bind].
    split; [done|]. split; [done|]. split; [done|]. split; [done|].
    cbn [length]. assert (size np1 < size np); [|lia].
    cbn [drop_parent] in Heq. rewrite (dict_del_Some np) in Heq
      by (rewrite (np_spec_lookup E P) by done; eauto).
    assert (Hlt : size (delete p np) < size np).
    { apply size_delete_lt. rewrite (np_spec_lookup E P) by done. eauto. }
    enough (size np1 = size (delete p np)) by lia.
    rewrite <- !size_dom. f_equal. apply set_eq. intros x.
    rewrite !elem_of_dom, (Hnp1 x), lookup_delete_is_Some, (Hnp x).
    rewrite (decide_ext (node E x /\ x ∉ P ++ [p]) ((node E x /\ x ∉ P) /\ x <> p))
      by (rewrite elem_of_app, list_elem_of_singleton; tauto).
    repeat case_decide; rewrite ?is_Some_alt; naive_solver.
Qed.

Record levels_inv E (s : levels_state K) : Prop := {
  li_np : np_spec E (concat (lv_out s)) (lv_np s);
  li_ch : ch_spec E (concat (lv_out s)) (lv_ch s);
  li_closed : closed E (concat (lv_out s));
  li_nodup : NoDup (concat (lv_out s));
  li_node : forall x, x ∈ concat (lv_out s) -> node E x;
  li_level : forall k level x, lv_out s !! k = Some level -> x ∈ level ->
    indeg E (concat (take k (lv_out s))) x = 0;
  (* what was not yet yielded at level [k] had a parent not yet yielded then *)
  li_rest : forall k x, k < length (lv_out s) -> node E x ->
    x ∉ concat (take (S k) (lv_out s)) -> indeg E (concat (take k (lv_out s))) x <> 0
}.

Lemma elem_of_no_parents E P np x :
  np_spec E P np -> x ∈ no_parents np <-> node E x /\ x ∉ P /\ indeg E P x = 0.
Proof.
  intros Hnp. unfold no_parents. rewrite list_elem_of_filter, elem_of_dict_keys. split.
  - intros [Hx _]. apply (np_spec_Some E P) in Hx as (? & ? & ?); [|done].
    split; [done|]. split; [done|lia].
  - intros (? & ? & Hz). rewrite (np_spec_lookup E P) by done. rewrite Hz. eauto.
Qed.

Lemma levels_step_inv E s :
  levels_inv E s -> no_parents (lv_np s) <> [] ->
  exists s', levels_step s = Ok (inl s') /\ levels_inv E s' /\
    size (lv_np s') < size (lv_np s).
Proof.
  intros Hs Hne. set (level := no_parents (lv_np s)) in *. set (P := concat (lv_out s)).
  assert (Hlev : forall p, p ∈ level <-> node E p /\ p ∉ P /\ indeg E P p = 0)
    by (intros; apply elem_of_no_parents, Hs).
  assert (Hndl : NoDup level) by apply NoDup_filter, NoDup_dict_keys.
  destruct (drop_level E level P (lv_np s) (lv_ch s))
    as (np' & ch' & Heq & Hnp & Hch & Hcl & Hsz); try apply Hs; [done|by intros; apply Hlev|].
  exists (LevelsState np' ch' (lv_out s ++ [level])).
  unfold levels_step. fold level. rewrite decide_False, Heq by done.
  split; [done|].
  assert (HP : concat (lv_out s ++ [level]) = P ++ level)
    by (rewrite concat_app; cbn; by rewrite app_nil_r).
  split; [constructor; cbn [lv_np lv_ch lv_out]; rewrite ?HP; try done|].
  - apply NoDup_app. split; [apply Hs|]. split; [|done]. intros x Hx Hx'. by apply Hlev in Hx' as (_ & ? & _).
  - intros x [Hx|Hx]%elem_of_app; [by apply (li_node _ _ Hs)|by apply Hlev].
  - intros k l x Hk Hx. apply lookup_snoc_Some in Hk as [[Hlt Hk]|[-> ->]].
    + rewrite take_app_le by lia. by eapply (li_level _ _ Hs).
    + rewrite take_app_length. by apply Hlev.
  - intros k x Hk Hx. rewrite length_app in Hk. cbn in Hk.
    destruct (decide (k < length (lv_out s))).
    + rewrite !take_app_le by lia. by apply (li_rest _ _ Hs).
    + assert (k = length (lv_out s)) as -> by lia.
      rewrite take_app_length, take_ge by (rewrite length_app; cbn; lia).
      rewrite HP, elem_of_app. intros Hn Hz. apply Hn. right. apply Hlev. tauto.
  - cbn. destruct level; [done|]. cbn in Hsz. lia.
Qed.

Lemma topsort_levels_final E :
  exists s, levels_inv E s /\ no_parents (lv_np s) = [] /\
    topsort_levels E = Ok (levels_end s).
Proof.
  destruct (count_pairs_spec E) as (np & ch & Heq & Hnp & Hch).
  unfold topsort_levels. rewrite Heq. cbn [mbind result_bind].
  unfold topsort_levels_core.
  apply (loop_total levels_step (levels_inv E) (fun s => size (lv_np s))
    (fun r => exists s, levels_inv E s /\ no_parents (lv_np s) = [] /\ r = Ok (levels_end s))).
  - intros s Hs. destruct (decide (no_parents (lv_np s) = [])) as [Hnil|Hne].
    + unfold levels_step. rewrite decide_True by done. cbn. eauto.
    + destruct (levels_step_inv E s Hs Hne) as (s' & -> & ? & ?). done.
  - constructor; cbn; try done.
    + intros x Hx. by apply not_elem_of_nil in Hx.
    + constructor.
    + intros x Hx. by apply not_elem_of_nil in Hx.
    + intros k x Hk. lia.
  - cbn. lia.
Qed.

(** [n] edges lead from some node to [x]. *)
Definition chain_to E n x : Prop := exists a, nsteps (edge E) n a x.

Lemma levels_chain_le E s k level x n :
  levels_inv E s -> lv_out s !! k = Some level -> x ∈ level -> chain_to E n x -> n <= k.
Proof.
  intros Hs. revert k level x. induction n as [|n IH]; intros k level x Hk Hx [a Ha]; [lia|].
  apply nsteps_inv_r in Ha as (p & Ha & Hp).
  assert (Hz : indeg E (concat (take k (lv_out s))) x = 0) by (by eapply (li_level _ _ Hs)).
  rewrite indeg_0 in Hz. apply Hz, elem_of_concat in Hp as (l & Hpl & Hl).
  apply elem_of_take in Hl as (j & Hj & Hlt).
  specialize (IH j l p Hj Hpl ltac:(by exists a)). lia.
Qed.

Lemma levels_chain_ge E s k level x :
  levels_inv E s -> lv_out s !! k = Some level -> x ∈ level -> chain_to E k x.
Proof.
  intros Hs. revert level x. induction k as [|k IH]; intros level x Hk Hx.
  - exists x. constructor.
  - assert (Hlen : S k < length (lv_out s)) by (by eapply lookup_lt_Some).
    destruct (lookup_lt_is_Some_2 (lv_out s) k) as [prev Hprev]; [lia|].
    assert (Hsplit : concat (take (S k) (lv_out s)) = concat (take k (lv_out s)) ++ prev).
    { rewrite (take_S_r _ _ prev) by done. rewrite concat_app. cbn. by rewrite app_nil_r. }
    assert (Hxc : x ∈ concat (lv_out s)).
    { apply elem_of_concat. exists level. split; [done|]. by eapply list_elem_of_lookup_2. }
    assert (Hnx : x ∉ concat (take (S k) (lv_out s))).
    { pose proof (li_nodup _ _ Hs) as Hnd.
      rewrite <- (take_drop (S k) (lv_out s)), concat_app in Hnd.
      apply NoDup_app in Hnd as (_ & Hdis & _). intros Hin. apply (Hdis x Hin).
      apply elem_of_concat. exists level. split; [done|].
      apply list_elem_of_lookup. exists 0. rewrite lookup_drop, Nat.add_0_r. done. }
    assert (Hpos : indeg E (concat (take k (lv_out s))) x <> 0)
      by (apply (li_rest _ _ Hs); [lia|by apply (li_node _ _ Hs)|done]).
    destruct (proj1 (indeg_pos E (concat (take k (lv_out s))) x)) as (p & Hp & HpP); [lia|].
    assert (Hz : indeg E (concat (take (S k) (lv_out s))) x = 0)
      by (by eapply (li_level _ _ Hs)).
    rewrite indeg_0 in Hz. specialize (Hz p Hp). rewrite Hsplit in Hz.
    apply elem_of_app in Hz as [?|Hpp]; [done|].
    destruct (IH prev p Hprev Hpp) as [a Ha]. exists a. by eapply nsteps_r.
Qed.

(** C4: [topsort_levels] never raises anything but [CycleError]; level [k] holds
    the nodes whose longest chain of ancestors has [k] edges, and the levels
    hold every node once unless there is a cycle. *)
Theorem topsort_levels_spec E :
  exists out fin, topsort_levels E = Ok (out, fin) /\
    NoDup (concat out) /\
    (forall k level x, out !! k = Some level -> x ∈ level ->
       node E x /\ chain_to E k x /\ forall n, chain_to E n x -> n <= k) /\
    ((fin = Ok () /\ ~ cyclic E /\ forall x, node E x -> x ∈ concat out) \/
     (cyclic E /\ exists err, fin = Raise (Cycle err) /\
        forall x, is_Some (ce_num_parents err !! x) <-> node E x /\ x ∉ concat out)).
Proof.
  destruct (topsort_levels_final E) as (s & Hs & Hnil & ->).
  exists (lv_out s), (levels_end s).2. split; [unfold levels_end; by case_decide|].
  split; [apply Hs|]. split.
  { intros k level x Hk Hx. split; [|split].
    - apply (li_node _ _ Hs), elem_of_concat. exists level.
      split; [done|]. by eapply list_elem_of_lookup_2.
    - by eapply levels_chain_ge.
    - intros n Hn. by eapply levels_chain_le. }
  unfold levels_end. case_decide as Hd; cbn [snd].
  - left. split; [done|].
    assert (Hall : forall x, node E x -> x ∈ concat (lv_out s)).
    { intros x Hx. destruct (decide (x ∈ concat (lv_out s))) as [|Hn]; [done|].
      pose proof (np_spec_lookup E _ _ x (li_np _ _ Hs) Hx Hn) as Hl.
      by rewrite Hd, lookup_empty in Hl. }
    split; [|done]. intros [x Hx]. apply tc_nsteps in Hx as (n & Hn & Hx).
    assert (Hnx : node E x).
    { destruct n as [|n]; [lia|]. inversion Hx; subst. by eapply node_l. }
    apply Hall, elem_of_concat in Hnx as (level & Hxl & [k Hk]%list_elem_of_lookup).
    assert (Hrep : forall m, nsteps (edge E) (m * n) x x).
    { induction m as [|m IH]; [constructor|]. cbn. by eapply nsteps_trans. }
    pose proof (levels_chain_le E s k level x (S k * n) Hs Hk Hxl
      ltac:(exists x; apply Hrep)). nia.
  - right. pose proof (li_np _ _ Hs) as Hnp. split.
    + apply map_choose in Hd as (x & v & Hx).
      apply (np_spec_Some _ _ _ _ _ Hnp) in Hx as (Hx & HxP & _).
      apply (leftover_cyclic E (concat (lv_out s)) x); [done..|].
      intros y Hy HyP Hz. assert (Hin : y ∈ no_parents (lv_np s)).
      { eapply elem_of_no_parents; [exact Hnp|]. done. }
      rewrite Hnil in Hin. by apply not_elem_of_nil in Hin.
    + eexists. split; [done|]. cbn. intros x. rewrite (Hnp x).
      case_decide; rewrite is_Some_alt; tauto.
Qed.

End spec.

(** ** Witnesses *)

Lemma topsort_ok_witness :
  topsort [(1, 2); (1, 3); (2, 3)] = Ok [1; 2; 3] /\
  topological [(1, 2); (1, 3); (2, 3)] [1; 2; 3].
Proof.
  assert (H : topsort [(1, 2); (1, 3); (2, 3)] = Ok [1; 2; 3]) by (vm_compute; reflexivity).
  split; [exact H|exact (topsort_ok _ _ H)].
Defined.

Lemma topsort_cycle_report_witness :
  exists err, topsort [(1, 2); (2, 3); (3, 2)] = Raise (Cycle err) /\
    exists answer, ce_answer err = Some answer /\ NoDup answer.
Proof.
  eexists. assert (H : topsort [(1, 2); (2, 3); (3, 2)] = Raise (Cycle (CycleError (Some [1])
    {[2 := 1%Z; 3 := 1%Z]} {[2 := [3]; 3 := [2]]}))) by (vm_compute; reflexivity).
  split; [exact H|]. destruct (topsort_cycle_report _ _ H) as (a & Ha & Hn & _).
  exists a. split; [exact Ha|exact Hn].
Defined.
