(* ===== verification/FindCycles.v ===== *)
(** * [find_cycles] of [bindings/python/topsort.py]. *)
From S2P Require Import Prelude PyDict RadSeq TopSort.
From stdpp Require Import relations.

Section find_cycles.
Context {K : Type} `{DictOrder K}.
Implicit Types (parent_children : gmap K (list K)).

(** ** The search *)

Record search := Search {
  cycles : list (list K);      (* what the generator has yielded *)
  visited_nodes : gset K;
  paths : list (list K)        (* the stack; its top, [paths[-1]], comes first *)
}.

(** The search for a duplicate: the loop over [cycles] with its [break]. *)
Fixpoint is_dup (others : list (list K)) (cycle : list K) : res bool :=
  match others with
  | [] => Ok false
  | other_cycle :: others =>
      b ← is_rotated other_cycle cycle;
      if (b : bool) then Ok true else is_dup others cycle
  end.

(** The body of [for child in children]. *)
Definition visit_child (path : list K) (s : search) (child : K) : res search :=
  if decide (child ∈ path) then
    i ← py_index child path;
    let cycle := py_from path (Z.of_nat i) in
    dup ← is_dup (cycles s) cycle;
    if (dup : bool) then Ok s
    else Ok (Search (cycles s ++ [cycle]) (visited_nodes s) (paths s))
  else Ok (Search (cycles s) ({[child]} ∪ visited_nodes s)
             ((path ++ [child]) :: paths s)).

(** One round of [while paths]. *)
Definition search_step parent_children (s : search) : res (search + search) :=
  match paths s with
  | [] => Ok (inr s)
  | path :: rest =>
      let s := Search (cycles s) (visited_nodes s) rest in
      parent ← py_get path (-1);
      match parent_children !! parent with
      | None => Ok (inl s)          (* except KeyError: continue *)
      | Some children => s ← for_each (visit_child path) children s; Ok (inl s)
      end
  end.

(** The nodes of the graph and the largest number of children of a node give
    a bound for the number of simple paths, which is the fuel. *)
Definition graph_nodes parent_children : gset K :=
  dom parent_children ∪
  list_to_set (concat (map_to_list parent_children).*2).
Definition max_children parent_children : nat :=
  max_list (length <$> (map_to_list parent_children).*2).
Definition search_fuel parent_children : nat :=
  S (S (max_children parent_children) ^ size (graph_nodes parent_children)).

(** The body of [for parent in parent_children]. *)
Definition search_from parent_children (s : search) (parent : K) : res search :=
  if decide (parent ∈ visited_nodes s) then Ok s
  else loop (search_fuel parent_children) (search_step parent_children)
         (Search (cycles s) (visited_nodes s) [[parent]]).

(** [list(find_cycles(parent_children))] *)
Definition find_cycles parent_children : res (list (list K)) :=
  s ← for_each (search_from parent_children) (dict_keys parent_children)
        (Search [] ∅ []);
  Ok (cycles s).

(** ** Walks and simple cycles *)

Definition child_of parent_children (a b : K) : Prop :=
  exists cs, parent_children !! a = Some cs /\ b ∈ cs.

Fixpoint walk parent_children (a : K) (l : list K) : Prop :=
  match l with
  | [] => True
  | b :: l => child_of parent_children a b /\ walk parent_children b l
  end.

Definition simple_cycle parent_children (c : list K) : Prop :=
  exists x l, c = x :: l /\ walk parent_children x l /\ NoDup c /\
    child_of parent_children (List.last l x) x.

Variable g : gmap K (list K).

Lemma walk_app a l1 l2 :
  walk g a (l1 ++ l2) <-> walk g a l1 /\ walk g (List.last l1 a) l2.
Proof.
  revert a. induction l1 as [|b l1 IH]; intros a; [cbn; tauto|].
  cbn [app walk]. rewrite IH, py_last_cons. tauto.
Qed.

Lemma walk_reach a l : walk g a l -> rtc (child_of g) a (List.last l a).
Proof.
  revert a. induction l as [|b l IH]; intros a; [constructor|].
  intros [Hab Hl]. rewrite py_last_cons. econstructor; [exact Hab|by apply IH].
Qed.

(** The walk from a node into a set [P] that stops at its first element of
    [P] and does not repeat a node. *)
Lemma simple_walk_into (P : list K) a x :
  rtc (child_of g) a x -> x ∈ P ->
  exists l, walk g a l /\ NoDup (a :: l) /\ List.last l a ∈ P /\
    forall y, y ∈ a :: l -> y ∈ P -> y = List.last l a.
Proof.
  intros Hr Hx. induction Hr as [x|a b x Hab _ IH].
  - exists []. cbn. split; [done|]. split; [apply NoDup_singleton|]. split; [done|].
    by intros y ->%list_elem_of_singleton.
  - destruct (IH Hx) as (l & Hl & Hnd & Hlast & Hfirst).
    destruct (decide (a ∈ P)) as [HaP|HaP].
    { exists []. cbn. split; [done|]. split; [apply NoDup_singleton|]. split; [done|].
      by intros y ->%list_elem_of_singleton. }
    destruct (decide (a ∈ b :: l)) as [Hin|Hin].
    + apply list_elem_of_split in Hin as (l1 & l2 & Heq).
      assert (Hw : walk g a l2 /\ List.last l2 a = List.last l b).
      { destruct l1 as [|c l1]; cbn in Heq; simplify_eq; [done|].
        rewrite py_last_app. apply walk_app in Hl as [_ [_ ?]]. done. }
      destruct Hw as [Hw Hlw]. exists l2. split; [done|].
      rewrite Heq in Hnd. apply NoDup_app in Hnd as (_ & _ & Hnd).
      split; [done|]. rewrite Hlw. split; [done|].
      intros y Hy HyP. apply Hfirst; [|done]. rewrite Heq. apply elem_of_app. by right.
    + exists (b :: l). rewrite py_last_cons. split; [by split|].
      split; [by constructor|]. split; [done|].
      intros y [->|Hy]%elem_of_cons HyP; [done|]. by apply Hfirst.
Qed.

(** A simple cycle can be entered at any of its nodes. *)
Lemma simple_cycle_rotate c x :
  simple_cycle g c -> x ∈ c ->
  exists l, rotation (x :: l) c /\ walk g x l /\ NoDup (x :: l) /\
    child_of g (List.last l x) x.
Proof.
  intros (y & l & -> & Hw & Hnd & Hback) [l1 [l2 Heq]]%list_elem_of_split.
  exists (l2 ++ l1).
  assert (Hrot : rotation (x :: l2 ++ l1) (y :: l))
    by (rewrite Heq; by exists (x :: l2), l1).
  split; [done|]. assert (NoDup (x :: l2 ++ l1)).
  { rewrite Heq in Hnd. by rewrite (Permutation_app_comm (x :: l2) l1 : _ ≡ₚ _). }
  destruct l1 as [|z l1]; cbn in Heq; simplify_eq; [rewrite app_nil_r; done|].
  apply walk_app in Hw as [Hw1 [He Hw2]].
  rewrite py_last_app in Hback. rewrite walk_app. cbn [walk].
  split; [split; [done|split; done]|]. split; [done|]. by rewrite py_last_app.
Qed.

(** ** What is recorded *)

(** The cycles found so far: genuine, and no two of them the same up to
    rotation. *)
Record cycles_inv (cs : list (list K)) : Prop := {
  ci_simple : forall c, c ∈ cs -> simple_cycle g c;
  ci_distinct : forall i j c d, cs !! i = Some c -> cs !! j = Some d ->
    rotation c d -> i = j
}.

Definition recorded (cs : list (list K)) (c : list K) : Prop :=
  exists d, d ∈ cs /\ rotation d c.

Lemma recorded_mono cs cs' c : cs ⊆ cs' -> recorded cs c -> recorded cs' c.
Proof. intros Hsub (d & ? & ?). exists d. auto. Qed.

Lemma is_dup_spec others c :
  c <> [] -> exists b, is_dup others c = Ok b /\ (b = true <-> recorded others c).
Proof.
  intros Hne. induction others as [|o others IH]; cbn [is_dup].
  - exists false. split; [done|]. split; [done|]. intros (d & Hd & _).
    by apply not_elem_of_nil in Hd.
  - destruct (is_rotated_ok o c Hne) as (b & -> & Hb). cbn [mbind result_bind].
    destruct IH as (b' & -> & Hb'). unfold recorded in *.
    setoid_rewrite elem_of_cons. destruct b.
    + exists true. split; [done|]. split; [|done]. intros _. exists o.
      split; [by left|]. by apply Hb.
    + exists b'. split; [done|]. rewrite Hb'. split; [naive_solver|].
      intros (d & [->|?] & Hr); [|by eauto]. by apply Hb in Hr.
Qed.

Lemma cycles_inv_snoc cs c :
  cycles_inv cs -> simple_cycle g c -> ~ recorded cs c -> cycles_inv (cs ++ [c]).
Proof.
  intros [Hs Hd] Hc Hnew. split.
  - intros d [?| ->%list_elem_of_singleton]%elem_of_app; auto.
  - intros i j d e Hi Hj Hr.
    apply lookup_snoc_Some in Hi as [[Hlti Hi]|[-> <-]];
    apply lookup_snoc_Some in Hj as [[Hltj Hj]|[-> <-]]; [by eapply Hd| | |done].
    + destruct Hnew. exists d. split; [by eapply list_elem_of_lookup_2|done].
    + destruct Hnew. exists e. split; [by eapply list_elem_of_lookup_2|].
      by apply rotation_sym.
Qed.

(** *** The children of the top of the stack *)

Definition pushed (path cs : list K) : list (list K) :=
  (fun c => path ++ [c]) <$> filter (.∉ path) cs.

(** All cycles that close at the end of [path] through a child in [cs]. *)
Definition closed_in (path cs : list K) (found : list (list K)) : Prop :=
  forall c l1 l2, c ∈ cs -> path = l1 ++ c :: l2 -> recorded found (c :: l2).

Lemma visit_child_spec a l c s :
  walk g a l -> NoDup (a :: l) -> child_of g (List.last l a) c -> cycles_inv (cycles s) ->
  exists s', visit_child (a :: l) s c = Ok s' /\
    cycles_inv (cycles s') /\ cycles s ⊆ cycles s' /\
    closed_in (a :: l) [c] (cycles s') /\
    paths s' = pushed (a :: l) [c] ++ paths s /\
    visited_nodes s' = list_to_set (filter (.∉ a :: l) [c]) ∪ visited_nodes s.
Proof.
  intros Hw Hnd Hc Hcs. unfold visit_child, pushed. rewrite filter_cons.
  destruct (decide (c ∈ a :: l)) as [Hin|Hin].
  - rewrite decide_False by tauto. cbn [filter list_filter fmap list_fmap app].
    change (list_to_set (C:=gset K) []) with (∅ : gset K).
    rewrite union_empty_l_L. apply list_elem_of_split in Hin as (l1 & l2 & Heq).
    assert (Hc1 : c ∉ l1).
    { rewrite Heq in Hnd. apply NoDup_app in Hnd as (_ & Hd & _).
      intros ?. apply (Hd c); [done|left]. }
    rewrite Heq, py_index_app by done. cbn [mbind result_bind].
    rewrite py_from_nat, drop_app_length.
    assert (Hclose : forall m1 m2, l1 ++ c :: l2 = m1 ++ c :: m2 -> m2 = l2).
    { intros m1 m2 Hm. rewrite <- Heq in Hm. rewrite Heq in Hnd.
      rewrite Heq in Hm. clear -Hm Hnd.
      revert m1 Hm Hnd. induction l1 as [|x l1 IH]; intros [|y m1] Hm Hnd; cbn in *; simplify_eq; try done.
      - apply NoDup_cons in Hnd as [Hx _]. destruct Hx. apply elem_of_app. right. left.
      - apply NoDup_cons in Hnd as [Hx _]. destruct Hx. apply elem_of_app. right. left.
      - apply NoDup_cons in Hnd as [_ ?]. by eapply IH. }
    assert (Hsc : simple_cycle g (c :: l2)).
    { exists c, l2. split; [done|].
      assert (Hwl : walk g c l2 /\ List.last l2 c = List.last l a).
      { destruct l1 as [|x l1]; cbn in Heq; simplify_eq; [done|].
        rewrite py_last_app. apply walk_app in Hw as [_ [_ ?]]. done. }
      destruct Hwl as [? ->]. split; [done|]. split; [|done].
      rewrite Heq in Hnd. by apply NoDup_app in Hnd as (_ & _ & ?). }
    destruct (is_dup_spec (cycles s) (c :: l2)) as (b & -> & Hb); [done|].
    cbn [mbind result_bind]. destruct b.
    + exists s. split; [done|]. split; [done|]. split; [done|]. split; [|done].
      intros c' m1 m2 ->%list_elem_of_singleton Hm%Hclose. subst. by apply Hb.
    + eexists. split; [done|]. cbn [cycles paths visited_nodes].
      split; [apply cycles_inv_snoc; [done..|]; intros Hr%Hb; done|].
      split; [apply list_subseteq_app_l; done|]. split; [|done].
      intros c' m1 m2 ->%list_elem_of_singleton Hm%Hclose. subst.
      exists (c :: l2). split; [|apply rotation_refl]. apply elem_of_app. right. left.
  - rewrite decide_True by done. eexists. split; [done|]. cbn.
    rewrite union_empty_r_L. split; [done|]. split; [done|]. split; [|done].
    intros c' m1 m2 ->%list_elem_of_singleton Hm. destruct Hin. rewrite Hm.
    apply elem_of_app. right. left.
Qed.

Lemma visit_children_spec a l cs s :
  walk g a l -> NoDup (a :: l) -> (forall c, c ∈ cs -> child_of g (List.last l a) c) ->
  cycles_inv (cycles s) ->
  exists s', for_each (visit_child (a :: l)) cs s = Ok s' /\
    cycles_inv (cycles s') /\ cycles s ⊆ cycles s' /\
    closed_in (a :: l) cs (cycles s') /\
    paths s' = reverse (pushed (a :: l) cs) ++ paths s /\
    visited_nodes s' = list_to_set (filter (.∉ a :: l) cs) ∪ visited_nodes s.
Proof.
  intros Hw Hnd. revert s. induction cs as [|c cs IH]; intros s Hcs Hinv.
  - exists s. split; [done|]. split; [done|]. split; [done|].
    split; [intros c l1 l2 Hc; by apply not_elem_of_nil in Hc|].
    split; [done|]. cbn. by rewrite union_empty_l_L.
  - destruct (visit_child_spec a l c s) as (s1 & Heq & Hinv1 & Hsub1 & Hcl1 & Hp1 & Hv1);
      [done|done|apply Hcs; left|done|].
    destruct (IH s1) as (s2 & Heq2 & Hinv2 & Hsub2 & Hcl2 & Hp2 & Hv2);
      [intros; apply Hcs; by right|done|].
    exists s2. cbn [for_each]. rewrite Heq. cbn [mbind result_bind].
    split; [done|]. split; [done|]. split; [by etrans|]. split; [|split].
    + intros d l1 l2 [->|Hd]%elem_of_cons Heqp; [|by eapply Hcl2].
      eapply recorded_mono; [exact Hsub2|]. eapply Hcl1; [left|done].
    + rewrite Hp2, Hp1. unfold pushed. rewrite !filter_cons.
      case_decide; cbn [fmap list_fmap]; [|done].
      rewrite reverse_cons, <- app_assoc. done.
    + rewrite Hv2, Hv1, !filter_cons. case_decide; cbn; set_solver.
Qed.

(** *** The fuel *)

Lemma child_in_nodes a b : child_of g a b -> b ∈ graph_nodes g.
Proof.
  intros (cs & Hcs & Hb). apply elem_of_union. right.
  apply elem_of_list_to_set, elem_of_concat. exists cs. split; [done|].
  apply list_elem_of_fmap. exists (a, cs). by rewrite elem_of_map_to_list.
Qed.

Lemma walk_in_nodes a l : a ∈ graph_nodes g -> walk g a l ->
  forall x, x ∈ a :: l -> x ∈ graph_nodes g.
Proof.
  revert a. induction l as [|b l IH]; intros a Ha Hw x.
  - by intros ->%list_elem_of_singleton.
  - destruct Hw as [Hab Hw]. intros [->|Hx]%elem_of_cons; [done|].
    eapply IH; [|done..]. by eapply child_in_nodes.
Qed.

Lemma nodup_in_nodes l :
  NoDup l -> (forall x, x ∈ l -> x ∈ graph_nodes g) -> length l <= size (graph_nodes g).
Proof.
  intros Hnd Hin. rewrite <- (size_list_to_set (C:=gset K) l) by done.
  apply subseteq_size. intros x Hx%elem_of_list_to_set. auto.
Qed.

Lemma max_children_le a cs : g !! a = Some cs -> length cs <= max_children g.
Proof.
  intros Ha. apply max_list_elem_of_le, list_elem_of_fmap. exists cs. split; [done|].
  apply list_elem_of_fmap. exists (a, cs). by rewrite elem_of_map_to_list.
Qed.

(** The number of paths that a path on the stack may still lead to. *)
Definition weight (path : list K) : nat :=
  S (max_children g) ^ (size (graph_nodes g) - length path).
Definition stack_weight (stack : list (list K)) : nat := sum_list (weight <$> stack).

Lemma weight_pos path : 0 < weight path.
Proof. unfold weight. apply Nat.neq_0_lt_0, Nat.pow_nonzero. lia. Qed.

Lemma stack_weight_app st1 st2 :
  stack_weight (st1 ++ st2) = stack_weight st1 + stack_weight st2.
Proof. unfold stack_weight. by rewrite fmap_app, sum_list_with_app. Qed.

Lemma stack_weight_pushed path cs :
  stack_weight (pushed path cs) <=
    length cs * S (max_children g) ^ (size (graph_nodes g) - S (length path)).
Proof.
  unfold pushed. induction cs as [|c cs IH]; [cbn; lia|].
  rewrite filter_cons. case_decide; [|cbn [length]; lia].
  cbn [fmap list_fmap]. unfold stack_weight in *. cbn [fmap list_fmap sum_list sum_list_with foldr].
  cbn [length]. assert (weight (path ++ [c]) =
    S (max_children g) ^ (size (graph_nodes g) - S (length path))) as Hw.
  { unfold weight. rewrite length_app. cbn. f_equal. lia. }
  unfold sum_list in *. cbn in *. unfold id in *. lia.
Qed.

Lemma pushed_lighter a l cs :
  a ∈ graph_nodes g -> walk g a l -> NoDup (a :: l) ->
  g !! List.last l a = Some cs ->
  stack_weight (reverse (pushed (a :: l) cs)) < weight (a :: l).
Proof.
  intros Ha Hw Hnd Hcs.
  assert (stack_weight (reverse (pushed (a :: l) cs)) = stack_weight (pushed (a :: l) cs)) as ->.
  { unfold stack_weight. by rewrite reverse_Permutation. }
  destruct (pushed (a :: l) cs) as [|p ps] eqn:Ep; [apply weight_pos|].
  pose proof (stack_weight_pushed (a :: l) cs) as Hle. rewrite Ep in Hle.
  assert (Hlen : S (length (a :: l)) <= size (graph_nodes g)).
  { assert (p ∈ pushed (a :: l) cs) as Hp by (rewrite Ep; left).
    apply list_elem_of_fmap in Hp as (c & -> & [Hc Hcc]%list_elem_of_filter).
    assert (length (c :: a :: l) <= size (graph_nodes g)); [|done].
    apply nodup_in_nodes; [by constructor|].
    intros x [->|Hx]%elem_of_cons; [|by eapply walk_in_nodes].
    eapply child_in_nodes. by exists cs. }
  pose proof (max_children_le _ _ Hcs).
  unfold weight at 1.
  replace (size (graph_nodes g) - length (a :: l))
    with (S (size (graph_nodes g) - S (length (a :: l)))) by lia.
  rewrite Nat.pow_succ_r'.
  assert (0 < S (max_children g) ^ (size (graph_nodes g) - S (length (a :: l))))
    by (apply Nat.neq_0_lt_0, Nat.pow_nonzero; lia).
  nia.
Qed.

(** *** The search from one node *)

(** Everything that ends at the end of [path] has been dealt with. *)
Definition done_path (s : search) (a : K) (l : list K) : Prop :=
  forall c, child_of g (List.last l a) c ->
    closed_in (a :: l) [c] (cycles s) /\ (c ∉ a :: l -> c ∈ visited_nodes s).

Record search_inv (a : K) (V0 : gset K) (C0 : list (list K)) (s : search) : Prop := {
  fi_cycles : cycles_inv (cycles s);
  fi_mono : C0 ⊆ cycles s;
  fi_paths : forall p, p ∈ paths s -> exists l, p = a :: l /\ walk g a l /\ NoDup p;
  fi_done : forall l, walk g a l -> NoDup (a :: l) ->
    (exists p, p ∈ paths s /\ p `prefix_of` a :: l) \/ done_path s a l;
  fi_visited : forall v, v ∈ visited_nodes s -> v ∈ V0 \/ rtc (child_of g) a v;
  fi_visited_mono : V0 ⊆ visited_nodes s
}.

Lemma done_path_mono s s' a l :
  cycles s ⊆ cycles s' -> visited_nodes s ⊆ visited_nodes s' ->
  done_path s a l -> done_path s' a l.
Proof.
  intros Hc Hv Hd c Hch. destruct (Hd c Hch) as [H1 H2]. split; [|auto].
  intros d l1 l2 Hdc Heq. eapply recorded_mono; [exact Hc|]. by eapply H1.
Qed.

(** A path that extends [p] properly extends one of the paths [p] pushes. *)
Lemma prefix_pushed a l m cs :
  g !! List.last l a = Some cs -> walk g a m -> NoDup (a :: m) ->
  a :: l `prefix_of` a :: m ->
  m = l \/ exists p, p ∈ pushed (a :: l) cs /\ p `prefix_of` a :: m.
Proof.
  intros Hcs Hw Hnd [k Hk]. cbn in Hk. simplify_eq.
  destruct k as [|c k]; [left; by rewrite app_nil_r|]. right.
  exists (a :: l ++ [c]). split.
  - apply list_elem_of_fmap. exists c. split; [done|]. apply list_elem_of_filter. split.
    + rewrite app_comm_cons in Hnd. apply NoDup_app in Hnd as (_ & Hd & _).
      intros Hin. apply (Hd c Hin). left.
    + apply walk_app in Hw as [_ [(cs' & Hcs' & Hc) _]]. by simplify_eq.
  - exists k. by rewrite <- app_comm_cons, <- app_assoc.
Qed.

Lemma search_step_inv a V0 C0 s l rest :
  a ∈ graph_nodes g -> search_inv a V0 C0 s -> paths s = (a :: l) :: rest ->
  exists s', search_step g s = Ok (inl s') /\ search_inv a V0 C0 s' /\
    stack_weight (paths s') < stack_weight (paths s).
Proof.
  intros Ha Hs Hp.
  destruct (fi_paths _ _ _ _ Hs (a :: l)) as (l' & Heq & Hw & Hnd); [rewrite Hp; left|].
  simplify_eq. unfold search_step. rewrite Hp, py_get_last. cbn [mbind result_bind].
  pose proof (weight_pos (a :: l')) as Hpos.
  assert (Hrest : forall p, p ∈ rest -> exists m, p = a :: m /\ walk g a m /\ NoDup p).
  { intros p Hin. apply (fi_paths _ _ _ _ Hs). rewrite Hp. by right. }
  destruct (g !! List.last l' a) as [cs|] eqn:Hcs.
  - destruct (visit_children_spec a l' cs (Search (cycles s) (visited_nodes s) rest))
      as (s' & -> & Hinv & Hsub & Hcl & Hps & Hvs); [done..| |apply Hs|].
    { intros c Hc. by exists cs. }
    cbn [mbind result_bind cycles paths visited_nodes] in *. exists s'. split; [done|].
    assert (Hvsub : visited_nodes s ⊆ visited_nodes s') by (rewrite Hvs; set_solver).
    split; [constructor|].
    + done.
    + etrans; [apply Hs|done].
    + intros p. rewrite Hps, elem_of_app, elem_of_reverse. intros [Hin|Hin]; [|by apply Hrest].
      apply list_elem_of_fmap in Hin as (c & -> & [Hc Hcc]%list_elem_of_filter).
      exists (l' ++ [c]). split; [done|]. split.
      * apply walk_app. cbn. split; [done|]. split; [by exists cs|done].
      * apply NoDup_app. split; [done|].
        split; [|apply NoDup_singleton]. by intros x Hx ->%list_elem_of_singleton.
    + intros m Hwm Hndm. destruct (fi_done _ _ _ _ Hs m Hwm Hndm) as [(p & Hin & Hpre)|Hd].
      2:{ right. by eapply done_path_mono. }
      rewrite Hp in Hin. apply elem_of_cons in Hin as [->|Hin].
      * destruct (prefix_pushed a l' m cs) as [->|(q & Hq & Hpre')]; [done..| |].
        -- right. intros c (cs' & Hcs' & Hc). simplify_eq. split.
           ++ intros d l1 l2 ->%list_elem_of_singleton. by eapply Hcl.
           ++ intros Hn. rewrite Hvs. apply elem_of_union. left.
              apply elem_of_list_to_set, list_elem_of_filter. done.
        -- left. exists q. split; [|done]. rewrite Hps. apply elem_of_app. left.
           by apply elem_of_reverse.
      * left. exists p. split; [|done]. rewrite Hps. apply elem_of_app. by right.
    + intros v. rewrite Hvs, elem_of_union, elem_of_list_to_set, list_elem_of_filter.
      intros [[_ Hv]|Hv]; [right|by apply (fi_visited _ _ _ _ Hs)].
      eapply rtc_r; [by apply walk_reach|by exists cs].
    + etrans; [apply Hs|done].
    + rewrite Hps, stack_weight_app.
      pose proof (pushed_lighter a l' cs Ha Hw Hnd Hcs).
      unfold stack_weight at 3. cbn. unfold stack_weight in *. lia.
  - eexists. split; [done|]. split; [|cbn; unfold stack_weight; lia].
    constructor; cbn [cycles paths visited_nodes]; try apply Hs; [done|].
    intros m Hwm Hndm. destruct (fi_done _ _ _ _ Hs m Hwm Hndm) as [(p & Hin & Hpre)|Hd]; [|by right].
    rewrite Hp in Hin. apply elem_of_cons in Hin as [->|Hin]; [|left; by exists p].
    right. destruct Hpre as [k Hk]. cbn in Hk. simplify_eq. destruct k as [|c k].
    + rewrite app_nil_r. intros c (? & ? & ?). congruence.
    + apply walk_app in Hwm as [_ [(? & ? & ?) _]]. congruence.
Qed.

(** The loop from one node: it stops, with every simple path done. *)
Lemma search_loop a s :
  a ∈ graph_nodes g -> cycles_inv (cycles s) ->
  exists s', loop (search_fuel g) (search_step g)
      (Search (cycles s) (visited_nodes s) [[a]]) = Ok s' /\
    search_inv a (visited_nodes s) (cycles s) s' /\ paths s' = [].
Proof.
  intros Ha Hinv.
  apply (loop_total (search_step g) (search_inv a (visited_nodes s) (cycles s))
    (fun s => stack_weight (paths s))
    (fun r => exists s', r = Ok s' /\ search_inv a (visited_nodes s) (cycles s) s' /\ paths s' = [])).
  - intros s1 Hs1. destruct (paths s1) as [|p rest] eqn:Hp.
    + unfold search_step. rewrite Hp. cbn. eauto.
    + destruct (fi_paths _ _ _ _ Hs1 p) as (l & -> & _); [rewrite Hp; left|].
      destruct (search_step_inv _ _ _ _ _ _ Ha Hs1 Hp) as (s' & -> & ? & ?).
      by split.
  - constructor; cbn [cycles paths visited_nodes]; try done.
    + intros p ->%list_elem_of_singleton. exists []. split; [done|]. split; [done|].
      apply NoDup_singleton.
    + intros l _ _. left. exists [a]. split; [left|]. by exists l.
    + by left.
  - cbn [paths]. unfold search_fuel, stack_weight, weight.
    cbn [fmap list_fmap sum_list_with length].
    assert (S (max_children g) ^ (size (graph_nodes g) - 1) <=
      S (max_children g) ^ size (graph_nodes g)) by (apply Nat.pow_le_mono_r; lia).
    unfold sum_list. cbn. lia.
Qed.

(** *** The whole generator *)

(** Every simple cycle that can be reached from [v] is recorded. *)
Definition found_from (s : search) (v : K) : Prop := forall c x,
  simple_cycle g c -> x ∈ c -> rtc (child_of g) v x -> recorded (cycles s) c.

Lemma found_from_mono s s' v :
  cycles s ⊆ cycles s' -> found_from s v -> found_from s' v.
Proof. intros Hsub Hf c x ???. eapply recorded_mono; [exact Hsub|]. by eapply Hf. Qed.

Lemma search_found a V0 C0 s :
  search_inv a V0 C0 s -> paths s = [] -> found_from s a.
Proof.
  intros Hs Hp c x Hc Hx Hr.
  destruct (simple_walk_into c a x Hr Hx) as (l & Hw & Hnd & Hy & Hfirst).
  set (y := List.last l a) in *.
  destruct (simple_cycle_rotate c y Hc Hy) as (l2 & Hrot & Hw2 & Hnd2 & Hback).
  assert (Hsplit : exists m, a :: l = m ++ [y]).
  { exists (removelast (a :: l)). unfold y. rewrite <- (py_last_cons l a a).
    by apply app_removelast_last. }
  destruct Hsplit as [m Hm].
  assert (Hcl : forall z, z ∈ y :: l2 -> z ∈ c).
  { intros z Hz. destruct Hrot as (p & q & Hpq & ->). rewrite Hpq in Hz.
    rewrite elem_of_app in *. tauto. }
  assert (Hnd' : NoDup (a :: l ++ l2)).
  { rewrite app_comm_cons. apply NoDup_cons in Hnd2 as [Hyl2 Hnd2].
    apply NoDup_app. split; [done|]. split; [|done]. intros z Hz Hz2.
    apply Hyl2. rewrite <- (Hfirst z); [done|done|]. apply Hcl. by right. }
  assert (Hw' : walk g a (l ++ l2)) by (apply walk_app; done).
  destruct (fi_done _ _ _ _ Hs (l ++ l2) Hw' Hnd') as [(p & Hin & _)|Hd].
  { rewrite Hp in Hin. by apply not_elem_of_nil in Hin. }
  assert (Hlast : List.last (l ++ l2) a = List.last l2 y).
  { rewrite <- (py_last_cons (l ++ l2) a a), app_comm_cons, Hm, <- app_assoc.
    cbn [app]. apply py_last_app. }
  destruct (Hd y) as [Hrec _]; [by rewrite Hlast|].
  destruct (Hrec y m l2) as (d & Hd1 & Hd2); [left| |].
  - by rewrite app_comm_cons, Hm, <- app_assoc.
  - exists d. split; [done|]. by eapply rotation_trans.
Qed.

Lemma search_from_inv pre a s :
  a ∈ graph_nodes g -> cycles_inv (cycles s) ->
  (forall v, v ∈ pre \/ v ∈ visited_nodes s -> found_from s v) ->
  exists s', search_from g s a = Ok s' /\ cycles_inv (cycles s') /\
    forall v, v ∈ pre ++ [a] \/ v ∈ visited_nodes s' -> found_from s' v.
Proof.
  intros Ha Hinv Hf. unfold search_from. case_decide as Hv.
  - exists s. split; [done|]. split; [done|]. intros v.
    rewrite elem_of_app, list_elem_of_singleton. intros [[?| ->]|?]; auto.
  - destruct (search_loop a s Ha Hinv) as (s' & Heq & Hs & Hp).
    exists s'. split; [done|]. split; [apply Hs|].
    pose proof (search_found _ _ _ _ Hs Hp) as Hfa.
    assert (Hmono : forall v, found_from s v -> found_from s' v)
      by (intros; eapply found_from_mono; [apply Hs|done]).
    intros v. rewrite elem_of_app, list_elem_of_singleton.
    intros [[?| ->]|Hvis]; [by apply Hmono; auto|done|].
    apply (fi_visited _ _ _ _ Hs) in Hvis as [?|Hr]; [by apply Hmono; auto|].
    intros c x Hc Hx Hvx. eapply Hfa; [done..|]. by etrans.
Qed.

(** C3: [find_cycles] terminates without an exception; it yields simple cycles
    only, never two that are the same up to rotation, and every simple cycle of
    the graph up to rotation. *)
Theorem find_cycles_spec :
  exists cs, find_cycles g = Ok cs /\
    (forall c, c ∈ cs -> simple_cycle g c) /\
    (forall i j c d, cs !! i = Some c -> cs !! j = Some d -> rotation c d -> i = j) /\
    (forall c, simple_cycle g c -> exists d, d ∈ cs /\ rotation d c).
Proof.
  destruct (for_each_inv (search_from g)
    (fun pre post s => post ⊆ dict_keys g /\ cycles_inv (cycles s) /\
       forall v, v ∈ pre \/ v ∈ visited_nodes s -> found_from s v))
    with (dict_keys g) (Search [] ∅ [] : search) as (s & Heq & _ & Hinv & Hf).
  - intros pre a post s (Hsub & Hinv & Hf).
    destruct (search_from_inv pre a s) as (s' & Heq & Hinv' & Hf'); [|done..|].
    + apply elem_of_union. left. apply elem_of_dom, elem_of_dict_keys, Hsub. left.
    + exists s'. split; [done|]. split; [|done]. intros x Hx. apply Hsub. by right.
  - split; [done|]. split; [|cbn; intros v [Hv|Hv]; set_solver].
    split; [intros c Hc; by apply not_elem_of_nil in Hc|done].
  - exists (cycles s). unfold find_cycles. rewrite Heq. split; [done|].
    destruct Hinv as [Hsim Hdis]. split; [done|]. split; [done|].
    intros c Hc. destruct Hc as (x & l & -> & Hw & Hnd & Hback).
    apply (Hf x) with x; [|by exists x, l|left|done]. left. apply elem_of_dict_keys.
    destruct l as [|b l]; [destruct Hback as (? & ? & _)|destruct Hw as [(? & ? & _) _]];
      eauto.
Qed.
End find_cycles.

(** ** The examples of the doc string *)

Example find_cycles_simplest :
  find_cycles (K:=string) {["A" := ["B"]; "B" := ["A"]]} = Ok [["A"; "B"]].
Proof. vm_compute. reflexivity. Qed.

Example find_cycles_diamond :
  find_cycles (K:=nat) {[0 := [1; 2]; 1 := [3]; 2 := [3]; 3 := [0; 1]]}
  = Ok [[3; 1]; [2; 3; 0]; [3; 0; 1]].
Proof. vm_compute. reflexivity. Qed.

Example find_cycles_hairy :
  find_cycles (K:=nat) {[ 0 := [1]; 2 := [3]; 3 := [4]; 5 := [4]; 4 := [6; 7];
                          6 := [8]; 8 := [9; 5] ]} = Ok [[6; 8; 5; 4]].
Proof. vm_compute. reflexivity. Qed.
