(* ===== verification/StyleCheck.v ===== *)
(** * [utils/check-style.py]: the C++ style checker.

    Patches (their classes, parser and printer), the removal of trailing
    whitespace changes, and the driver that indents files and reports those
    that change.  The programs it runs ([uncrustify], [patch]) and [difflib]
    are parameters. *)
From S2P Require Import Prelude PyString.

(** ** The configuration of uncrustify *)

Definition level2 : string := "
nl_collapse_empty_body=False
nl_if_brace=Add
nl_brace_else=Add
nl_elseif_brace=Add
nl_else_brace=Add
nl_while_brace=Add
nl_do_brace=Add
nl_for_brace=Add
nl_brace_while=Add
nl_switch_brace=Add
nl_after_case=True
nl_namespace_brace=Remove
nl_after_brace_open=True
nl_class_leave_one_liners=False
nl_enum_leave_one_liners=False
nl_func_leave_one_liners=False
nl_if_leave_one_liners=False
nl_class_colon=Ignore
nl_after_access_spec=1
nl_after_semicolon=True
pos_class_colon=Lead
pos_class_comma=Trail
pos_bool=Lead
nl_class_init_args=Add
nl_template_class=Add
nl_class_brace=Add
# does not work very well
nl_func_type_name=Ignore
nl_func_scope_name=Ignore
nl_func_type_name_class=Ignore
nl_func_proto_type_name=Ignore
# function\n(
nl_func_paren=Remove
nl_fdef_brace=Add
nl_struct_brace=Add
nl_enum_brace=Add
nl_union_brace=Add
mod_full_brace_do=Add
mod_full_brace_for=Add
mod_full_brace_if=Add
mod_full_brace_while=Add
mod_full_brace_for=Add
mod_remove_extra_semicolon=True
# max code width
#code_width=128
#ls_for_split_full=True
#ls_func_split_full=True
".
Definition level1 : string := "
# extra spaces here and there
sp_brace_typedef=Add
sp_enum_assign=Add
sp_before_sparen=Add
sp_after_semi_for=Add
sp_arith=Add
sp_assign=Add
sp_compare=Add
sp_func_class_paren=Add
sp_after_type=Add
sp_type_func=Add
sp_angle_paren=Add
".
Definition level0 : string := "
sp_func_proto_paren=Add
sp_func_def_paren=Add
sp_func_call_paren=Add
sp_after_semi_for=Ignore
sp_before_sparen=Ignore
sp_type_func=Ignore
sp_after_type=Ignore
nl_class_leave_one_liners=True
nl_enum_leave_one_liners=True
nl_func_leave_one_liners=True
nl_assign_leave_one_liners=True
#nl_collapse_empty_body=False
nl_getset_leave_one_liners=True
nl_if_leave_one_liners=True
nl_fdef_brace=Ignore
# finally, indentation configuration
indent_with_tabs=0
indent_namespace=false
indent_columns=2
indent_brace=2
indent_case_brace=2
indent_class=true
indent_class_colon=True
# alignment
indent_align_assign=False
align_left_shift=True
# comment reformating disabled
cmt_reflow_mode=1 # do not touch comments at all
cmt_indent_multi=False # really, do not touch them
".

(** The text that [uncrustify_config_file] writes. *)
Definition uncrustify_config (level : Z) : string :=
  (level0 +:+ (if (1 <=? level)%Z then level1 else "")
          +:+ (if (2 <=? level)%Z then level2 else ""))%string.

(** ** Patches *)

Inductive line_type := NoType | SRC | DST | BOTH.
#[export] Instance line_type_eq_dec : EqDecision line_type.
Proof. solve_decision. Defined.

Record chunk_line := ChunkLine { cl_type : line_type; cl_line : text }.

Definition new_chunk_line : chunk_line := ChunkLine NoType [].
Definition set_src (l : chunk_line) (line : text) : chunk_line := ChunkLine SRC line.
Definition set_dst (l : chunk_line) (line : text) : chunk_line := ChunkLine DST line.
Definition set_both (l : chunk_line) (line : text) : chunk_line := ChunkLine BOTH line.
Definition append_to_line (l : chunk_line) (s : text) : chunk_line :=
  ChunkLine (cl_type l) (cl_line l ++ s).
Definition is_src (l : chunk_line) : bool :=
  bool_decide (cl_type l = SRC \/ cl_type l = BOTH).
Definition is_dst (l : chunk_line) : bool :=
  bool_decide (cl_type l = DST \/ cl_type l = BOTH).

(** What [PatchChunkLine.write] writes. *)
Definition write_line (l : chunk_line) : res text :=
  match cl_type l with
  | SRC => Ok (txt "-" ++ cl_line l ++ [newline])
  | DST => Ok (txt "+" ++ cl_line l ++ [newline])
  | BOTH => Ok (txt " " ++ cl_line l ++ [newline])
  | NoType => Raise OtherError
  end.

Record chunk := Chunk { ch_lines : list chunk_line; src_pos : Z; dst_pos : Z }.

Definition new_chunk (src_pos dst_pos : Z) : chunk := Chunk [] src_pos dst_pos.
Definition add_line (c : chunk) (l : chunk_line) : chunk :=
  Chunk (ch_lines c ++ [l]) (src_pos c) (dst_pos c).

(** [PatchChunk.src] and [PatchChunk.dst] return references to the lines of
    the chunk; a reference is the index of the line. *)
Definition line_refs (p : chunk_line -> bool) (lines : list chunk_line) : list nat :=
  filter (fun i => p <$> lines !! i = Some true) (seq 0 (length lines)).
Definition src_len (c : chunk) : nat := length (filter (fun l => is_src l = true) (ch_lines c)).
Definition dst_len (c : chunk) : nat := length (filter (fun l => is_dst l = true) (ch_lines c)).

(** What [PatchChunk.write] writes: a list of lines. *)
Definition write_chunk (c : chunk) : res (list text) :=
  let header :=
    txt "@@ -" ++ show_Z (src_pos c) ++ txt "," ++ show_Z (Z.of_nat (src_len c)) ++
    txt " +" ++ show_Z (dst_pos c) ++ txt "," ++ show_Z (Z.of_nat (dst_len c)) ++
    txt " @@" ++ [newline] in
  body ← mapM write_line (ch_lines c);
  Ok (header :: body).

Record patch := Patch { p_src : text; p_dst : text; p_chunks : list chunk }.

Definition new_patch : patch := Patch [] [] [].
Definition add_chunk (p : patch) (c : chunk) : patch :=
  Patch (p_src p) (p_dst p) (p_chunks p ++ [c]).
Definition patch_set_src (p : patch) (src : text) : patch :=
  Patch src (p_dst p) (p_chunks p).
Definition patch_set_dst (p : patch) (dst : text) : patch :=
  Patch (p_src p) dst (p_chunks p).

Definition write_patch (p : patch) : res (list text) :=
  chunks ← mapM write_chunk (p_chunks p);
  Ok ((txt "--- " ++ p_src p ++ [newline]) ::
      (txt "+++ " ++ p_dst p ++ [newline]) :: concat chunks).

(** ** [parse_patchset] *)

Definition rx_line (prefix : string) : re :=
  re_lit (txt prefix) (re_star dot REnd).
Definition src_file : re := rx_line "--- ".
Definition dst_file : re := rx_line "+++ ".
Definition chunk_start : re :=
  re_lit (txt "@@ -") (re_plus is_digit (re_lit (txt ",") (re_plus is_digit
    (re_lit (txt " +") (re_plus is_digit (re_lit (txt ",") (re_plus is_digit
      (re_lit (txt " @@") RDone)))))))).
Definition rx_src : re := rx_line "-".
Definition rx_dst : re := rx_line "+".
Definition rx_both : re := rx_line " ".

(** The parser's variables: [current_patch] is [None] or the last element of
    [patchset]; [current_chunk] is unbound or a reference to a chunk, which may
    be in an earlier patch. *)
Record parser := Parser {
  patchset : list patch;
  current_chunk : option (nat * nat)
}.

Definition group1 (gs : list text) : text := default [] (gs !! 0).

Definition update_last (f : patch -> patch) (ps : list patch) : res (list patch) :=
  match reverse ps with
  | [] => Raise AttributeError            (* current_patch is None *)
  | p :: before => Ok (reverse before ++ [f p])
  end.

Definition add_to_chunk (s : parser) (l : chunk_line) : res parser :=
  match current_chunk s with
  | None => Raise UnboundLocalError
  | Some (i, j) =>
      Ok (Parser (alter (fun p =>
            Patch (p_src p) (p_dst p) (alter (fun c => add_line c l) j (p_chunks p)))
            i (patchset s)) (current_chunk s))
  end.

(** The body of [for line in generator]. *)
Definition parse_line (s : parser) (line : text) : res parser :=
  match re_match src_file line with
  | Some gs =>
      Ok (Parser (patchset s ++ [patch_set_src new_patch (group1 gs)]) (current_chunk s))
  | None =>
  match re_match dst_file line with
  | Some gs =>
      ps ← update_last (fun p => patch_set_dst p (group1 gs)) (patchset s);
      Ok (Parser ps (current_chunk s))
  | None =>
  match re_match chunk_start line with
  | Some gs =>
      let c := new_chunk (digits_value (group1 gs)) (digits_value (default [] (gs !! 2))) in
      ps ← update_last (fun p => add_chunk p c) (patchset s);
      let i := length ps - 1 in
      let j := length (default [] (p_chunks <$> ps !! i)) - 1 in
      Ok (Parser ps (Some (i, j)))
  | None =>
  match re_match rx_src line with
  | Some gs => add_to_chunk s (set_src new_chunk_line (group1 gs))
  | None =>
  match re_match rx_dst line with
  | Some gs => add_to_chunk s (set_dst new_chunk_line (group1 gs))
  | None =>
  match re_match rx_both line with
  | Some gs => add_to_chunk s (set_both new_chunk_line (group1 gs))
  | None => Raise OtherError
  end end end end end end.

Definition parse_patchset (lines : list text) : res (list patch) :=
  s ← for_each parse_line lines (Parser [] None); Ok (patchset s).

(** ** [remove_trailing_whitespace_changes] *)

Definition is_blank (c : ascii) : bool := bool_decide (c = space \/ c = tab).
Definition whitespace : re := re_star dot (re_plus is_blank REnd).

(** The body of [for i in range(0, len(src))]; [false]: an exception, which the
    bare [except] turns into the end of the function. *)
Fixpoint ws_lines (srcs dsts : list nat) (lines : list chunk_line) :
    list chunk_line * bool :=
  match srcs with
  | [] => (lines, true)
  | si :: srcs =>
      match dsts with
      | [] => (lines, false)                     (* dst[i]: IndexError *)
      | di :: dsts =>
          let s := default new_chunk_line (lines !! si) in
          let d := default new_chunk_line (lines !! di) in
          let lines :=
            match re_match whitespace (cl_line s) with
            | Some gs =>
                if decide (group1 gs = cl_line d)
                then <[di := append_to_line d (default [] (gs !! 1))]> lines
                else lines
            | None => lines
            end in
          ws_lines srcs dsts lines
      end
  end.

Definition ws_chunk (c : chunk) : chunk * bool :=
  let '(lines, ok) :=
    ws_lines (line_refs is_src (ch_lines c)) (line_refs is_dst (ch_lines c)) (ch_lines c) in
  (Chunk lines (src_pos c) (dst_pos c), ok).

(** The two loops; [false] stops them. *)
Fixpoint ws_chunks (cs : list chunk) : list chunk * bool :=
  match cs with
  | [] => ([], true)
  | c :: cs =>
      let '(c, ok) := ws_chunk c in
      if ok then let '(cs, ok) := ws_chunks cs in (c :: cs, ok) else (c :: cs, false)
  end.

Fixpoint ws_patches (ps : list patch) : list patch :=
  match ps with
  | [] => []
  | p :: ps =>
      let '(cs, ok) := ws_chunks (p_chunks p) in
      let p := Patch (p_src p) (p_dst p) cs in
      if ok then p :: ws_patches ps else p :: ps
  end.

Definition remove_trailing_whitespace_changes (lines : list text) : res (list patch) :=
  patchset ← parse_patchset lines; Ok (ws_patches patchset).

(** ** The driver *)

Section driver.
(** [uncrustify]: the configuration and the source to the output; [None]
    when the program is not installed. *)
Context (uncrustify : string -> text -> option text).
(** [difflib.unified_diff] and the program [patch]. *)
Context (unified_diff : list text -> list text -> list text).
Context (patch_program : text -> list text -> text).
Implicit Types (fs : gmap string text) (files : list string).

(** The content of the file that [indent] returns.  The diff is a generator:
    with [debug] the write of the initial diff exhausts it. *)
Definition indent fs (source : string) (debug : bool) (level : Z) : res text :=
  src ← or_raise IOError (fs !! source);
  out ← or_raise OtherError (uncrustify (uncrustify_config level) src);
  let diff := unified_diff (readlines src) (readlines out) in
  let diff := if debug then [] else diff in
  final_diff ←
    (if (level <? 3)%Z then
       patchset ← remove_trailing_whitespace_changes diff;
       match patchset with [] => Ok [] | p :: _ => write_patch p end
     else Ok diff);
  Ok (patch_program src final_diff).

Record report := Report {
  rp_ok : bool; rp_fs : gmap string text; rp_stdout : list text }.

Definition print_failed (diff : bool) fs (failed : list (string * text)) : list text :=
  match failed with
  | [] => []
  | _ =>
      if diff then
        concat ((fun '(src, dst) =>
          unified_diff (readlines (default [] (fs !! src))) (readlines dst)) <$> failed)
      else
        (txt "Found " ++ show_Z (zlen failed) ++ txt " badly indented files:" ++ [newline])
        :: ((fun '(src, _) => txt "  " ++ txt src ++ [newline]) <$> failed)
  end.

Definition indent_files fs files (diff debug : bool) (level : Z) (inplace : bool) :
    res report :=
  output ← mapM (fun f => dst ← indent fs f debug level; Ok (f, dst)) files;
  if inplace then
    Ok (Report true (foldl (fun fs '(src, dst) => <[src := dst]> fs) fs output) [])
  else
    let failed := filter (fun '(src, dst) => fs !! src <> Some dst) output in
    Ok (Report (bool_decide (failed = [])) fs (print_failed diff fs failed)).

(** [run_as_hg_hook]: whether the commit is refused. *)
Definition run_as_hg_hook fs (hg_files : list string) : res (bool * gmap string text * list text) :=
  r ← indent_files fs hg_files false false 0 false;
  Ok (negb (rp_ok r), rp_fs r, rp_stdout r).

(** The options of [run_as_main]. *)
Record options := Options {
  o_debug : bool; o_level : Z; o_hg_hook : bool; o_hg : bool;
  o_file : string; o_diff : bool; o_in_place : bool }.

(** [run_as_main]: the exit status, the files and what was printed;
    [hg_files] is the output of [hg_modified_files]. *)
Definition run_as_main fs (hg_files : list string) (o : options) :
    res (Z * gmap string text * list text) :=
  if o_hg_hook o then
    r ← indent_files fs hg_files false (o_debug o) (o_level o) false;
    Ok (if rp_ok r then 0%Z else 1%Z, rp_fs r, rp_stdout r)
  else if o_hg o then
    r ← indent_files fs hg_files (o_diff o) (o_debug o) (o_level o) (o_in_place o);
    Ok (0%Z, rp_fs r, rp_stdout r)
  else if decide (o_file o = "") then Ok (0%Z, fs, [])
  else if decide (fs !! o_file o = None) then
    Ok (1%Z, fs, [txt "file " ++ txt (o_file o) ++ txt " does not exist" ++ [newline]])
  else
    r ← indent_files fs [o_file o] (o_diff o) (o_debug o) (o_level o) (o_in_place o);
    Ok (0%Z, rp_fs r, rp_stdout r).
End driver.

(** ** Printing and parsing back *)

Definition no_newline (t : text) : Prop := Forall (fun c => dot c = true) t.

(** A removed line that starts with [-- ] prints as the header of a file, and
    so does an added one that starts with [++ ]. *)
Definition wf_line (l : chunk_line) : Prop :=
  cl_type l <> NoType /\ no_newline (cl_line l) /\
  (cl_type l = SRC -> ~ txt "-- " `prefix_of` cl_line l) /\
  (cl_type l = DST -> ~ txt "++ " `prefix_of` cl_line l).
Definition wf_chunk (c : chunk) : Prop :=
  Forall wf_line (ch_lines c) /\ (0 <= src_pos c)%Z /\ (0 <= dst_pos c)%Z.
Definition wf_patch (p : patch) : Prop :=
  no_newline (p_src p) /\ no_newline (p_dst p) /\ Forall wf_chunk (p_chunks p).

Lemma rx_line_match prefix t :
  no_newline t -> re_match (rx_line prefix) (txt prefix ++ t ++ [newline]) = Some [t].
Proof.
  intros Ht. unfold re_match, rx_line. rewrite re_match_lit.
  by rewrite (re_match_star dot REnd t [newline] [] [newline]).
Qed.

Lemma rx_line_fail prefix s :
  ~ txt prefix `prefix_of` s -> re_match (rx_line prefix) s = None.
Proof. intros Hs. unfold re_match, rx_line. by rewrite re_match_lit_fail. Qed.

Lemma parse_src_header s t :
  no_newline t ->
  parse_line s (txt "--- " ++ t ++ [newline]) =
    Ok (Parser (patchset s ++ [Patch t [] []]) (current_chunk s)).
Proof. intros Ht. unfold parse_line, src_file. by rewrite rx_line_match. Qed.

Lemma update_last_snoc f ps p : update_last f (ps ++ [p]) = Ok (ps ++ [f p]).
Proof. unfold update_last. by rewrite reverse_snoc, reverse_involutive. Qed.

Lemma parse_dst_header ps p cur t :
  no_newline t ->
  parse_line (Parser (ps ++ [p]) cur) (txt "+++ " ++ t ++ [newline]) =
    Ok (Parser (ps ++ [Patch (p_src p) t (p_chunks p)]) cur).
Proof.
  intros Ht. unfold parse_line. change (re_match src_file _) with (@None (list text)).
  unfold dst_file. rewrite rx_line_match by done. cbn [patchset current_chunk].
  by rewrite update_last_snoc.
Qed.

(** A literal followed by a decimal number in a pattern. *)
Lemma rx_number pre n c s k gs rest :
  (0 <= n)%Z -> is_digit c = false -> re_match_at k (c :: s) = Some (gs, rest) ->
  re_match_at (re_lit (txt pre) (re_plus is_digit k)) (txt pre ++ show_Z n ++ c :: s) =
    Some (show_Z n :: gs, rest).
Proof.
  intros Hn Hc Hk. destruct (show_Z_spec n Hn) as (Hd & _ & Hne).
  rewrite re_match_lit. by apply re_match_plus.
Qed.

Lemma chunk_start_match a b c d :
  (0 <= a)%Z -> (0 <= b)%Z -> (0 <= c)%Z -> (0 <= d)%Z ->
  re_match chunk_start
    (txt "@@ -" ++ show_Z a ++ txt "," ++ show_Z b ++ txt " +" ++ show_Z c ++
     txt "," ++ show_Z d ++ txt " @@" ++ [newline])
  = Some [show_Z a; show_Z b; show_Z c; show_Z d].
Proof.
  intros. unfold re_match, chunk_start.
  match goal with |- fst <$> ?m = _ =>
    enough (m = Some ([show_Z a; show_Z b; show_Z c; show_Z d], [newline])) as -> by done
  end.
  apply (rx_number "@@ -" a ","); [done..|].
  apply (rx_number "," b " "); [done..|].
  apply (rx_number " +" c ","); [done..|].
  by apply (rx_number "," d " ").
Qed.

Lemma parse_chunk_header ps p cur c :
  (0 <= src_pos c)%Z -> (0 <= dst_pos c)%Z ->
  parse_line (Parser (ps ++ [p]) cur)
    (txt "@@ -" ++ show_Z (src_pos c) ++ txt "," ++ show_Z (Z.of_nat (src_len c)) ++
     txt " +" ++ show_Z (dst_pos c) ++ txt "," ++ show_Z (Z.of_nat (dst_len c)) ++
     txt " @@" ++ [newline]) =
  Ok (Parser (ps ++ [add_chunk p (new_chunk (src_pos c) (dst_pos c))])
        (Some (length ps, length (p_chunks p)))).
Proof.
  intros Hs Hd. unfold parse_line.
  change (re_match src_file _) with (@None (list text)).
  change (re_match dst_file _) with (@None (list text)).
  rewrite chunk_start_match by (done || lia).
  cbn [group1 lookup list_lookup default patchset current_chunk].
  rewrite update_last_snoc. cbn [mbind result_bind].
  unfold id. rewrite (proj1 (proj2 (show_Z_spec _ Hs))), (proj1 (proj2 (show_Z_spec _ Hd))).
  rewrite length_app. cbn [length]. rewrite Nat.add_sub.
  rewrite lookup_app_r by lia. rewrite Nat.sub_diag.
  cbn. rewrite length_app. cbn. by rewrite Nat.add_sub.
Qed.

Lemma add_to_chunk_last ps p cs c l :
  p_chunks p = cs ++ [c] ->
  add_to_chunk (Parser (ps ++ [p]) (Some (length ps, length cs))) l =
    Ok (Parser (ps ++ [Patch (p_src p) (p_dst p) (cs ++ [add_line c l])])
          (Some (length ps, length cs))).
Proof.
  intros Hp. unfold add_to_chunk. cbn [current_chunk patchset].
  rewrite alter_app_r_alt, Nat.sub_diag by done. cbn.
  by rewrite Hp, alter_app_r_alt, Nat.sub_diag by done.
Qed.

(** Every well-formed line comes back. *)
Lemma parse_body_line s l :
  wf_line l ->
  exists t, write_line l = Ok t /\ parse_line s t = add_to_chunk s l.
Proof.
  destruct l as [ty t]. intros (Hty & Ht & Hsrc & Hdst). cbn in *.
  destruct ty; [done| | |].
  - exists (txt "-" ++ t ++ [newline]). split; [done|]. unfold parse_line.
    assert (re_match src_file (txt "-" ++ t ++ [newline]) = None) as ->.
    { apply rx_line_fail. intros [k Hk]. cbn in Hk. injection Hk as Hk.
      apply Hsrc; [done|]. destruct t as [|c1 [|c2 [|c3 t]]]; cbn in Hk; try (simplify_eq; done).
      injection Hk as -> -> -> Hk. by exists t. }
    change (re_match dst_file _) with (@None (list text)).
    change (re_match chunk_start _) with (@None (list text)).
    unfold rx_src. by rewrite rx_line_match.
  - exists (txt "+" ++ t ++ [newline]). split; [done|]. unfold parse_line.
    change (re_match src_file _) with (@None (list text)).
    assert (re_match dst_file (txt "+" ++ t ++ [newline]) = None) as ->.
    { apply rx_line_fail. intros [k Hk]. cbn in Hk. injection Hk as Hk.
      apply Hdst; [done|]. destruct t as [|c1 [|c2 [|c3 t]]]; cbn in Hk; try (simplify_eq; done).
      injection Hk as -> -> -> Hk. by exists t. }
    change (re_match chunk_start _) with (@None (list text)).
    change (re_match rx_src _) with (@None (list text)).
    unfold rx_dst. by rewrite rx_line_match.
  - exists (txt " " ++ t ++ [newline]). split; [done|]. unfold parse_line.
    change (re_match src_file _) with (@None (list text)).
    change (re_match dst_file _) with (@None (list text)).
    change (re_match chunk_start _) with (@None (list text)).
    change (re_match rx_src _) with (@None (list text)).
    change (re_match rx_dst _) with (@None (list text)).
    unfold rx_both. by rewrite rx_line_match.
Qed.

Lemma parse_body ls : forall ps p cs c,
  Forall wf_line ls -> p_chunks p = cs ++ [c] ->
  exists ts, mapM write_line ls = Ok ts /\
    for_each parse_line ts (Parser (ps ++ [p]) (Some (length ps, length cs))) =
      Ok (Parser (ps ++ [Patch (p_src p) (p_dst p)
                    (cs ++ [Chunk (ch_lines c ++ ls) (src_pos c) (dst_pos c)])])
            (Some (length ps, length cs))).
Proof.
  induction ls as [|l ls IH]; intros ps p cs c Hwf Hp.
  - exists []. split; [done|]. cbn. rewrite app_nil_r. destruct p, c; cbn in *. by subst.
  - apply Forall_cons in Hwf as [Hl Hls].
    set (p' := Patch (p_src p) (p_dst p) (cs ++ [add_line c l])).
    destruct (IH ps p' cs (add_line c l)) as (ts & Hts & Hparse); [done..|].
    destruct (parse_body_line (Parser (ps ++ [p]) (Some (length ps, length cs))) l Hl)
      as (t & Ht & Heq).
    exists (t :: ts). cbn [mapM]. split; [cbn; by rewrite Ht, Hts|].
    cbn [for_each]. rewrite Heq, (add_to_chunk_last ps p cs c l Hp).
    cbn [mbind result_bind]. fold p'. rewrite Hparse. cbn.
    by rewrite <- app_assoc.
Qed.

Lemma parse_chunk ps p cur c :
  wf_chunk c ->
  exists ts cur', write_chunk c = Ok ts /\
    for_each parse_line ts (Parser (ps ++ [p]) cur) =
      Ok (Parser (ps ++ [add_chunk p c]) cur').
Proof.
  intros (Hls & Hs & Hd). set (p' := add_chunk p (new_chunk (src_pos c) (dst_pos c))).
  destruct (parse_body (ch_lines c) ps p' (p_chunks p) (new_chunk (src_pos c) (dst_pos c)))
    as (ts & Hts & Hparse); [done..|].
  eexists _, _. split.
  - unfold write_chunk. rewrite Hts. done.
  - cbn [for_each]. rewrite parse_chunk_header by done. cbn [mbind result_bind].
    fold p'. rewrite Hparse. by destruct c.
Qed.

Lemma parse_chunks cs : forall ps p cur,
  Forall wf_chunk cs ->
  exists tss cur', mapM write_chunk cs = Ok tss /\
    for_each parse_line (concat tss) (Parser (ps ++ [p]) cur) =
      Ok (Parser (ps ++ [Patch (p_src p) (p_dst p) (p_chunks p ++ cs)]) cur').
Proof.
  induction cs as [|c cs IH]; intros ps p cur Hwf.
  - exists [], cur. split; [done|]. cbn. rewrite app_nil_r. by destruct p.
  - apply Forall_cons in Hwf as [Hc Hcs].
    destruct (parse_chunk ps p cur c Hc) as (ts & cur1 & Hts & Hp1).
    destruct (IH ps (add_chunk p c) cur1 Hcs) as (tss & cur2 & Htss & Hp2).
    exists (ts :: tss), cur2. split; [cbn; by rewrite Hts, Htss|].
    cbn [concat]. rewrite for_each_app, Hp1. cbn [mbind result_bind].
    rewrite Hp2. cbn. by rewrite <- app_assoc.
Qed.

Lemma parse_patch s p :
  wf_patch p ->
  exists ts cur', write_patch p = Ok ts /\
    for_each parse_line ts s = Ok (Parser (patchset s ++ [p]) cur').
Proof.
  intros (Hsrc & Hdst & Hcs).
  destruct (parse_chunks (p_chunks p) (patchset s) (Patch (p_src p) (p_dst p) [])
    (current_chunk s) Hcs) as (tss & cur & Htss & Hparse).
  eexists _, cur. split; [unfold write_patch; by rewrite Htss|].
  cbn [for_each]. rewrite parse_src_header by done. cbn [mbind result_bind].
  rewrite parse_dst_header by done. cbn [mbind result_bind p_src p_chunks].
  rewrite Hparse. by destruct p.
Qed.

(** C16: parsing what [Patch.write] prints gives the patches back, when no name and no line
    has a newline, every line has a type, no position is negative, and no removed line begins
    with [-- ] and no added one with [++ ]: those print as the headers of a file, see
    [dashes_line]. *)
Theorem parse_write ps :
  Forall wf_patch ps ->
  exists tss, mapM write_patch ps = Ok tss /\ parse_patchset (concat tss) = Ok ps.
Proof.
  intros Hwf. enough (Hgen : forall s, exists tss cur, mapM write_patch ps = Ok tss /\
    for_each parse_line (concat tss) s = Ok (Parser (patchset s ++ ps) cur)).
  { destruct (Hgen (Parser [] None)) as (tss & cur & ? & Hp). exists tss. split; [done|].
    unfold parse_patchset. by rewrite Hp. }
  induction Hwf as [|p ps Hp _ IH]; intros s.
  - exists [], (current_chunk s). split; [done|]. cbn. rewrite app_nil_r. by destruct s.
  - destruct (parse_patch s p Hp) as (ts & cur & Hts & Hp1).
    destruct (IH (Parser (patchset s ++ [p]) cur)) as (tss & cur2 & Htss & Hp2).
    exists (ts :: tss), cur2. split; [cbn; by rewrite Hts, Htss|].
    cbn [concat]. rewrite for_each_app, Hp1. cbn [mbind result_bind].
    rewrite Hp2. cbn. by rewrite <- app_assoc.
Qed.

(** ** Trailing whitespace *)

Lemma blank_dot c : is_blank c = true -> dot c = true.
Proof.
  unfold is_blank. intros [->| ->]%bool_decide_eq_true; reflexivity.
Qed.

Lemma no_newline_app t1 t2 : no_newline (t1 ++ t2) <-> no_newline t1 /\ no_newline t2.
Proof. apply Forall_app. Qed.

Lemma span_no_newline t : no_newline t -> span dot t = (t, []).
Proof. intros Ht. rewrite <- (app_nil_r t) at 1. by apply span_all. Qed.

(** [(.* )] is greedy: [([ \t]+)] is left with the last character. *)
Lemma whitespace_match t c :
  no_newline t -> is_blank c = true -> re_match whitespace (t ++ [c]) = Some [t; [c]].
Proof.
  intros Ht Hc. unfold re_match, whitespace, re_star.
  cbn [re_match_at a_class a_min a_max a_group].
  rewrite span_no_newline; [|apply no_newline_app; split; [done|]; constructor; [by apply blank_dot|constructor]].
  cbn [fst Nat.ltb Nat.leb]. rewrite Nat.sub_0_r, length_app. cbn [length].
  rewrite Nat.add_comm. cbn [Nat.add try_down].
  replace (S (length t)) with (length (t ++ [c])) by (rewrite length_app; cbn; lia).
  rewrite drop_all. cbn [re_plus re_match_at span length a_class a_min a_max a_group].
  cbn [Nat.ltb Nat.leb fst length mbind option_bind].
  rewrite (try_down_first _ 0 (length t) ([t; [c]], [])); [done|].
  cbn [Nat.add]. rewrite drop_app_length, take_app_length.
  cbn. by rewrite Hc.
Qed.

Lemma plus_end_inv u r :
  no_newline u -> re_match_at (re_plus is_blank REnd) u = Some r ->
  u <> [] /\ Forall (fun c => is_blank c = true) u.
Proof.
  intros Hu. cbn [re_match_at re_plus a_class a_min a_max a_group].
  destruct (Nat.ltb_spec (length (span is_blank u).1) 1); [done|].
  intros (i & Hi & Hf & _)%try_down_inv. cbn [re_match_at] in Hf.
  case_decide as Hend; [|done].
  pose proof (span_app is_blank u) as Happ. pose proof (span_forall is_blank u) as Hall.
  assert (Hnil : drop i u = []).
  { destruct Hend as [?|Hnl]; [done|]. exfalso.
    rewrite <- (take_drop i u), Hnl in Hu. apply no_newline_app in Hu as [_ Hu].
    by apply Forall_cons in Hu as [? _]. }
  apply (f_equal length) in Hnil. rewrite length_drop in Hnil. cbn in Hnil.
  assert (Hlen : length (span is_blank u).2 = 0).
  { apply (f_equal length) in Happ. rewrite length_app in Happ. lia. }
  apply nil_length_inv in Hlen. rewrite Hlen, app_nil_r in Happ.
  rewrite Happ in *. split; [intros ->; cbn in *; lia|done].
Qed.

Lemma whitespace_inv s gs :
  no_newline s -> re_match whitespace s = Some gs ->
  exists t c, s = t ++ [c] /\ is_blank c = true /\ gs = [t; [c]].
Proof.
  intros Hs Hm. assert (Hsplit : exists t c, s = t ++ [c] /\ is_blank c = true).
  { unfold re_match, whitespace, re_star in Hm.
    cbn [re_match_at a_class a_min a_max a_group] in Hm.
    rewrite span_no_newline in Hm by done. cbn [fst Nat.ltb Nat.leb] in Hm.
    destruct (try_down _ 0 _) as [r|] eqn:E; [|done].
    apply try_down_inv in E as (i & _ & Hf & _). cbn [Nat.add] in Hf.
    destruct (re_match_at (re_plus is_blank REnd) (drop i s)) as [r'|] eqn:E'; [|done].
    rewrite <- (take_drop i s) in Hs. apply no_newline_app in Hs as [_ Hd].
    apply plus_end_inv in E' as [Hne Hall]; [|done].
    destruct (exists_last Hne) as (u & c & Hu). rewrite Hu in Hall.
    apply Forall_app in Hall as [_ Hc]. apply Forall_cons in Hc as [Hc _].
    exists (take i s ++ u), c. split; [|done].
    rewrite <- app_assoc, <- Hu. by rewrite take_drop. }
  destruct Hsplit as (t & c & -> & Hc). exists t, c. split; [done|]. split; [done|].
  apply no_newline_app in Hs as [Ht _]. rewrite whitespace_match in Hm by done. congruence.
Qed.

(** The change that one pair of lines makes. *)
Definition ws_fix (s d : chunk_line) : chunk_line :=
  match re_match whitespace (cl_line s) with
  | Some gs => if decide (group1 gs = cl_line d)
               then append_to_line d (default [] (gs !! 1)) else d
  | None => d
  end.

Lemma ws_fix_spec s d :
  no_newline (cl_line s) ->
  cl_type (ws_fix s d) = cl_type d /\
  ((exists c, is_blank c = true /\ cl_line s = cl_line d ++ [c] /\
      cl_line (ws_fix s d) = cl_line s) \/
   ((forall c, is_blank c = true -> cl_line s <> cl_line d ++ [c]) /\ ws_fix s d = d)).
Proof.
  intros Hs. unfold ws_fix. destruct (re_match whitespace (cl_line s)) as [gs|] eqn:E.
  - destruct (whitespace_inv _ _ Hs E) as (t & c & Hst & Hc & ->).
    cbn. unfold id. case_decide as Hd.
    + split; [done|]. left. exists c. cbn. rewrite <- Hd. done.
    + split; [done|]. right. split; [|done]. intros c' _ Heq. rewrite Heq in Hst.
      apply app_inj_tail in Hst as [? _]. congruence.
  - split; [done|]. right. split; [|done]. intros c Hc Heq.
    rewrite Heq in Hs, E. apply no_newline_app in Hs as [Ht _].
    by rewrite whitespace_match in E.
Qed.

Lemma ws_fix_no_newline s d :
  no_newline (cl_line s) -> no_newline (cl_line d) -> no_newline (cl_line (ws_fix s d)).
Proof.
  intros Hs Hd. destruct (ws_fix_spec s d Hs) as [_ [(c & _ & _ & ->)|[_ ->]]]; done.
Qed.

Lemma ws_lines_cons si srcs di dsts lines s d :
  lines !! si = Some s -> lines !! di = Some d ->
  ws_lines (si :: srcs) (di :: dsts) lines = ws_lines srcs dsts (<[di := ws_fix s d]> lines).
Proof.
  intros Hs Hd. cbn [ws_lines]. rewrite Hs, Hd. cbn [default from_option id].
  pose proof (list_insert_id lines di d Hd) as Hid. unfold ws_fix.
  destruct (re_match whitespace (cl_line s)); [case_decide|]; by rewrite ?Hid.
Qed.

(** A line is as before, or one blank longer. *)
Definition touched (l l' : chunk_line) : Prop :=
  cl_type l' = cl_type l /\
  (cl_line l' = cl_line l \/ exists c, is_blank c = true /\ cl_line l' = cl_line l ++ [c]).

Definition lines_ok (lines : list chunk_line) : Prop :=
  Forall (fun l => no_newline (cl_line l)) lines.

Lemma lines_ok_lookup lines i l : lines_ok lines -> lines !! i = Some l -> no_newline (cl_line l).
Proof. intros Hok Hl. by eapply Forall_lookup_1 in Hok. Qed.

(** The loop over the pairs: lines that are not among the destinations stay;
    a destination is fixed at most once. *)
Lemma ws_lines_spec srcs : forall dsts lines,
  lines_ok lines -> NoDup dsts ->
  (forall i, i ∈ srcs ++ dsts -> i < length lines) ->
  lines_ok (ws_lines srcs dsts lines).1 /\
  length (ws_lines srcs dsts lines).1 = length lines /\
  forall i l, lines !! i = Some l ->
    exists l', (ws_lines srcs dsts lines).1 !! i = Some l' /\ touched l l' /\
      (i ∉ dsts -> l' = l) /\
      (forall k si s, dsts !! k = Some i -> srcs !! k = Some si -> lines !! si = Some s ->
         si ∉ dsts -> l' = ws_fix s l).
Proof.
  induction srcs as [|si srcs IH]; intros dsts lines Hok Hnd Hlt.
  - cbn. split; [done|]. split; [done|]. intros i l Hl. exists l.
    split; [done|]. split; [by split; [|left]|]. split; [done|].
    intros k si s _ Hk. by rewrite lookup_nil in Hk.
  - destruct dsts as [|di dsts].
    { cbn. split; [done|]. split; [done|]. intros i l Hl. exists l.
      split; [done|]. split; [by split; [|left]|]. split; [done|].
      intros k ? s Hk. by rewrite lookup_nil in Hk. }
    destruct (lookup_lt_is_Some_2 lines si) as [s Hs]; [apply Hlt; left|].
    destruct (lookup_lt_is_Some_2 lines di) as [d Hd].
    { apply Hlt, elem_of_app. right. left. }
    rewrite (ws_lines_cons _ _ _ _ _ s d) by done.
    pose proof (lines_ok_lookup _ _ _ Hok Hs) as Hns.
    pose proof (lines_ok_lookup _ _ _ Hok Hd) as Hnd'.
    pose proof Hnd as Hnd0. apply NoDup_cons in Hnd as [Hdi Hnd].
    destruct (IH dsts (<[di := ws_fix s d]> lines)) as (Hok' & Hlen & Hspec).
    { apply Forall_insert; [done|]. by apply ws_fix_no_newline. }
    { done. }
    { intros i Hi. rewrite length_insert. apply Hlt.
      rewrite elem_of_app in *. rewrite !elem_of_cons. tauto. }
    rewrite length_insert in Hlen. split; [done|]. split; [done|].
    intros i l Hl. destruct (decide (i = di)) as [->|Hi].
    + assert (l = d) as -> by congruence.
      destruct (Hspec di (ws_fix s d)) as (l' & Hl' & _ & Hsame & _).
      { apply list_lookup_insert_eq. by eapply lookup_lt_Some. }
      specialize (Hsame Hdi) as ->. exists (ws_fix s d). split; [done|].
      destruct (ws_fix_spec s d Hns) as [Hty Hcase]. split; [|split].
      * split; [done|]. destruct Hcase as [(c & ? & Heq & ->)|[_ ->]]; [right; eauto|by left].
      * intros Hn. destruct Hn. left.
      * intros [|k] sj s' Hk Hsk Hs' _; cbn in *; simplify_eq; [done|].
        destruct Hdi. by eapply list_elem_of_lookup_2.
    + destruct (Hspec i l) as (l' & Hl' & Ht & Hsame & Hfix).
      { by rewrite list_lookup_insert_ne. }
      exists l'. split; [done|]. split; [done|]. split.
      * intros Hn. apply Hsame. intros Hin. apply Hn. by right.
      * intros [|k] sj s' Hk Hsk Hs' Hsj; cbn in *; [congruence|].
        rewrite elem_of_cons in Hsj. apply (Hfix k sj s'); [done|done| |tauto].
        rewrite list_lookup_insert_ne; [done|]. intros ->. tauto.
Qed.

Lemma line_refs_spec p lines i :
  i ∈ line_refs p lines <-> exists l, lines !! i = Some l /\ p l = true.
Proof.
  unfold line_refs. rewrite list_elem_of_filter, fmap_Some, elem_of_seq. split.
  - intros [(l & ? & ?) _]. by exists l.
  - intros (l & Hl & Hp). split; [by exists l|]. apply lookup_lt_Some in Hl. lia.
Qed.

Lemma line_refs_NoDup p lines : NoDup (line_refs p lines).
Proof. apply NoDup_filter, NoDup_seq. Qed.

(** One chunk: removed and added lines are paired in order.  An added line that
    is the removed one without its last blank becomes the removed one; every
    other line of type [DST], and every line of type [SRC], is unchanged by its
    pair; no line changes otherwise than by one blank at its end. *)
Theorem ws_chunk_spec c :
  lines_ok (ch_lines c) ->
  lines_ok (ch_lines (ws_chunk c).1) /\
  Forall2 touched (ch_lines c) (ch_lines (ws_chunk c).1) /\
  (forall i l, ch_lines c !! i = Some l -> cl_type l = SRC ->
     ch_lines (ws_chunk c).1 !! i = Some l) /\
  (forall k si di s d,
     line_refs is_src (ch_lines c) !! k = Some si ->
     line_refs is_dst (ch_lines c) !! k = Some di ->
     ch_lines c !! si = Some s -> ch_lines c !! di = Some d -> cl_type s = SRC ->
     exists d', ch_lines (ws_chunk c).1 !! di = Some d' /\
       (forall b, is_blank b = true -> cl_line s = cl_line d ++ [b] -> cl_line d' = cl_line s) /\
       ((forall b, is_blank b = true -> cl_line s <> cl_line d ++ [b]) -> d' = d)).
Proof.
  intros Hok. unfold ws_chunk.
  destruct (ws_lines_spec (line_refs is_src (ch_lines c)) (line_refs is_dst (ch_lines c))
    (ch_lines c)) as (Hok' & Hlen & Hspec); [done|apply line_refs_NoDup| |].
  { intros i Hi. rewrite elem_of_app, !line_refs_spec in Hi.
    destruct Hi as [(l & Hl & _)|(l & Hl & _)]; by eapply lookup_lt_Some. }
  destruct (ws_lines _ _ _) as [lines ok]. cbn [fst ch_lines] in *.
  assert (Hsrc : forall i l, ch_lines c !! i = Some l -> cl_type l = SRC ->
    i ∉ line_refs is_dst (ch_lines c)).
  { intros i l Hl Hty (l' & Hl' & Hd)%line_refs_spec. simplify_eq.
    unfold is_dst in Hd. rewrite Hty in Hd. by apply bool_decide_eq_true in Hd as [?|?]. }
  split; [done|]. split; [|split].
  - apply Forall2_same_length_lookup. split; [done|]. intros i l l' Hl Hl'.
    destruct (Hspec i l Hl) as (l2 & Hl2 & Ht & _). by simplify_eq.
  - intros i l Hl Hty. destruct (Hspec i l Hl) as (l' & Hl' & _ & Hsame & _).
    rewrite Hl'. f_equal. by eapply Hsame, Hsrc.
  - intros k si di s d Hsi Hdi Hs Hd Hty.
    destruct (Hspec di d Hd) as (d' & Hd' & _ & _ & Hfix).
    exists d'. split; [done|]. rewrite (Hfix k si s Hdi Hsi Hs (Hsrc _ _ Hs Hty)).
    destruct (ws_fix_spec s d) as [_ Hcase]; [exact (lines_ok_lookup _ _ _ Hok Hs)|].
    destruct Hcase as [(b & Hb & Heq & Hfx)|[Hno ->]].
    { split; [done|]. intros Hno. by destruct (Hno b Hb). }
    split; [|done]. intros b Hb Heq. by destruct (Hno b Hb).
Qed.

(** *** What the parser delivers satisfies the hypothesis *)

Definition patch_ok (p : patch) : Prop :=
  Forall (fun c => lines_ok (ch_lines c)) (p_chunks p).

Lemma rx_line_no_newline pre s gs :
  re_match (rx_line pre) s = Some gs -> no_newline (group1 gs).
Proof.
  unfold re_match, rx_line. destruct (re_match_at _ s) as [[gs' rest]|] eqn:E; [|done].
  cbn. intros [= <-]. apply re_match_lit_inv in E as (s' & -> & E).
  unfold re_star in E. cbn [re_match_at a_class a_min a_max a_group] in E.
  destruct (Nat.ltb _ 0); [done|].
  apply try_down_inv in E as (i & Hi & Hf & _). case_decide; [|done].
  cbn in Hf. injection Hf as <- _. unfold group1. cbn. unfold id.
  pose proof (span_app dot s') as Happ. pose proof (span_forall dot s') as Hall.
  rewrite <- Happ, take_app_le by lia. by apply Forall_take.
Qed.

Lemma add_to_chunk_ok s l s' :
  Forall patch_ok (patchset s) -> no_newline (cl_line l) ->
  add_to_chunk s l = Ok s' -> Forall patch_ok (patchset s').
Proof.
  intros Hs Hl. unfold add_to_chunk. destruct (current_chunk s) as [[i j]|]; [|done].
  intros [= <-]. cbn. apply Forall_alter; [done|]. intros p _ Hp.
  apply Forall_alter; [done|]. intros c _ Hc. apply Forall_app. by repeat constructor.
Qed.

Lemma update_last_ok f ps ps' :
  (forall p, patch_ok p -> patch_ok (f p)) ->
  Forall patch_ok ps -> update_last f ps = Ok ps' -> Forall patch_ok ps'.
Proof.
  intros Hf Hps. unfold update_last. rewrite <- (reverse_involutive ps) in Hps.
  destruct (reverse ps) as [|p before]; [done|]. intros [= <-].
  rewrite reverse_cons in Hps. apply Forall_app in Hps as [Hb Hp].
  apply Forall_app. split; [done|]. apply Forall_cons in Hp as [Hp _]. repeat constructor. auto.
Qed.

Lemma parse_line_ok s line s' :
  Forall patch_ok (patchset s) -> parse_line s line = Ok s' -> Forall patch_ok (patchset s').
Proof.
  intros Hs. unfold parse_line.
  destruct (re_match src_file line).
  { intros [= <-]. cbn. apply Forall_app. split; [done|]. repeat constructor. }
  destruct (re_match dst_file line).
  { destruct (update_last _ _) as [ps| |] eqn:E; [|done..]. intros [= <-]. cbn.
    by eapply update_last_ok in E. }
  destruct (re_match chunk_start line).
  { destruct (update_last _ _) as [ps| |] eqn:E; [|done..]. intros [= <-]. cbn.
    eapply update_last_ok in E; [done| |done]. intros p Hp. cbn.
    apply Forall_app. split; [done|]. repeat constructor. }
  destruct (re_match rx_src line) eqn:E1;
    [|destruct (re_match rx_dst line) eqn:E2; [|destruct (re_match rx_both line) eqn:E3; [|done]]];
    apply add_to_chunk_ok; try done; by eapply rx_line_no_newline.
Qed.

(** The lines of every chunk that [parse_patchset] delivers hold no newline. *)
Theorem parse_patchset_lines_ok lines ps :
  parse_patchset lines = Ok ps -> Forall patch_ok ps.
Proof.
  unfold parse_patchset. destruct (for_each _ _ _) as [s| |] eqn:E; [|done..].
  intros [= <-]. eapply (for_each_preserve parse_line (fun s => Forall patch_ok (patchset s)));
    [| |exact E]; [|constructor]. intros. by eapply parse_line_ok.
Qed.

(** ** The driver *)

Section driver_spec.
Context (uncrustify : string -> text -> option text).
Context (unified_diff : list text -> list text -> list text).
Context (patch_program : text -> list text -> text).
Abbreviation indent := (indent uncrustify unified_diff patch_program).
Abbreviation indent_files := (indent_files uncrustify unified_diff patch_program).

Lemma indent_all fs files debug level output :
  mapM (fun f => dst ← indent fs f debug level; Ok (f, dst)) files = Ok output ->
  output.*1 = files /\
  forall f dst, (f, dst) ∈ output <-> f ∈ files /\ indent fs f debug level = Ok dst.
Proof.
  revert output. induction files as [|f files IH]; intros output; cbn.
  - intros [= <-]. split; [done|]. intros f dst. rewrite !elem_of_nil. tauto.
  - destruct (indent fs f debug level) as [out| |] eqn:Ef; cbn; [|done..].
    destruct (mapM _ files) as [outs| |]; cbn; [|done..]. intros [= <-].
    destruct (IH outs eq_refl) as [Hf Hin]. split; [cbn; by f_equal|].
    intros g dst. rewrite !elem_of_cons, Hin. split.
    + intros [[= -> ->]|[? ?]]; auto.
    + intros [[->|?] Hg]; [left; congruence|auto].
Qed.

Lemma no_failed files fs debug level output :
  mapM (fun f => dst ← indent fs f debug level; Ok (f, dst)) files = Ok output ->
  filter (fun '(src, dst) => fs !! src <> Some dst) output = [] <->
  forall f, f ∈ files -> exists out, indent fs f debug level = Ok out /\ fs !! f = Some out.
Proof.
  intros E. destruct (indent_all _ _ _ _ _ E) as [Hfst Hin]. split.
  - intros Hnil f Hf. rewrite <- Hfst in Hf.
    apply list_elem_of_fmap in Hf as ([g dst] & -> & Hg).
    pose proof Hg as [Hgf Hgi]%Hin. exists dst. split; [done|].
    destruct (decide (fs !! g = Some dst)) as [|Hne]; [done|].
    assert (Hfl : (g, dst) ∈ filter (fun '(src, dst) => fs !! src <> Some dst) output)
      by (by apply list_elem_of_filter).
    cbn in Hfl. rewrite Hnil in Hfl. by apply not_elem_of_nil in Hfl.
  - intros Hall. destruct (filter _ output) as [|[g dst] t] eqn:Ef; [done|].
    assert (Hfl : (g, dst) ∈ filter (fun '(src, dst) => fs !! src <> Some dst) output)
      by (rewrite Ef; left).
    apply list_elem_of_filter in Hfl as [Hne [Hg Hgi]%Hin].
    destruct (Hall g Hg) as (out & ? & ?). congruence.
Qed.

(** Checking changes no file, and succeeds, silently, exactly when every
    listed file is its own indented version. *)
Theorem indent_files_check fs files diff debug level r :
  indent_files fs files diff debug level false = Ok r ->
  rp_fs r = fs /\
  (rp_ok r = true <-> forall f, f ∈ files ->
     exists out, indent fs f debug level = Ok out /\ fs !! f = Some out) /\
  (rp_ok r = true -> rp_stdout r = []).
Proof.
  unfold StyleCheck.indent_files. destruct (mapM _ files) as [output| |] eqn:E; [|done..].
  cbn. intros [= <-]. cbn. rewrite bool_decide_eq_true.
  split; [done|]. split; [by apply no_failed|by intros ->].
Qed.

Lemma copy_all (output : list (string * text)) (fs : gmap string text) f :
  let copied := foldl (fun (fs : gmap string text) '(src, dst) => <[src := dst]> fs) fs output in
  (forall dst1 dst2, (f, dst1) ∈ output -> (f, dst2) ∈ output -> dst1 = dst2) ->
  (f ∉ output.*1 -> copied !! f = fs !! f) /\
  (forall dst, (f, dst) ∈ output -> copied !! f = Some dst).
Proof.
  intros copied. subst copied.
  induction output as [|[g d] output IH] using rev_ind; intros Huniq.
  - split; [done|]. intros dst Hd. by apply not_elem_of_nil in Hd.
  - rewrite foldl_app, fmap_app. cbn.
    destruct IH as [IH1 IH2].
    { intros d1 d2 H1 H2. apply Huniq; apply elem_of_app; by left. }
    split.
    + rewrite not_elem_of_app, not_elem_of_cons. intros (Hn & Hg & _).
      rewrite lookup_insert_ne by done. auto.
    + intros dst Hd. destruct (decide (g = f)) as [->|Hg].
      * rewrite lookup_insert_eq. f_equal.
        apply Huniq; [apply elem_of_app; right; left|done].
      * rewrite lookup_insert_ne by done. apply IH2.
        apply elem_of_app in Hd as [?|Hd%list_elem_of_singleton]; [done|].
        by simplify_eq.
Qed.

(** Indenting in place gives every listed file its indented content and
    leaves the others alone. *)
Theorem indent_files_inplace fs files diff debug level r :
  indent_files fs files diff debug level true = Ok r ->
  rp_ok r = true /\
  (forall f, f ∈ files -> exists out, indent fs f debug level = Ok out /\
     rp_fs r !! f = Some out) /\
  (forall f, f ∉ files -> rp_fs r !! f = fs !! f).
Proof.
  unfold StyleCheck.indent_files. destruct (mapM _ files) as [output| |] eqn:E; [|done..].
  cbn. intros [= <-]. cbn. destruct (indent_all _ _ _ _ _ E) as [Hfst Hin].
  assert (Huniq : forall f dst1 dst2, (f, dst1) ∈ output -> (f, dst2) ∈ output -> dst1 = dst2).
  { intros f d1 d2 [_ H1]%Hin [_ H2]%Hin. congruence. }
  split; [done|]. split.
  - intros f Hf. rewrite <- Hfst in Hf.
    apply list_elem_of_fmap in Hf as ([g dst] & -> & Hg). exists dst.
    split; [by apply Hin|]. cbn.
    by apply (copy_all output fs g (Huniq g)).
  - intros f Hf. cbn. apply (copy_all output fs f (Huniq f)). by rewrite Hfst.
Qed.

(** [patch] with an empty diff leaves the file as it is. *)
Hypothesis patch_empty : forall s, patch_program s [] = s.

(** With [--debug] the diff generator is used up before it is read, and every
    file passes as well indented. *)
Theorem debug_reports_nothing fs files diff level r :
  indent_files fs files diff true level false = Ok r -> rp_ok r = true.
Proof using patch_empty.
  unfold StyleCheck.indent_files. destruct (mapM _ files) as [output| |] eqn:E; [|done..].
  cbn. intros [= <-]. cbn. apply bool_decide_eq_true, (no_failed _ _ _ _ _ E).
  destruct (indent_all _ _ _ _ _ E) as [Hfst Hin]. intros f Hf.
  rewrite <- Hfst in Hf. apply list_elem_of_fmap in Hf as ([g dst] & -> & [_ Hg]%Hin).
  exists dst. split; [done|]. unfold StyleCheck.indent in Hg. cbn.
  destruct (fs !! g) as [src|]; [|done]. cbn in Hg.
  destruct (uncrustify _ src); [|done]. cbn in Hg.
  destruct (level <? 3)%Z; cbn in Hg; rewrite patch_empty in Hg; congruence.
Qed.
End driver_spec.

(** ** Where the code and its intention part *)

(** [difflib] leaves out the length of a one-line hunk; the parser then
    rejects the whole diff. *)
Example one_line_hunk :
  parse_patchset [txt "--- a" ++ [newline]; txt "+++ b" ++ [newline];
                  txt "@@ -1 +1 @@" ++ [newline]; txt "-x" ++ [newline];
                  txt "+y" ++ [newline]] = Raise OtherError.
Proof. vm_compute. reflexivity. Qed.

(** Two trailing blanks: the change is not undone. *)
Example two_blanks :
  ch_lines (ws_chunk (Chunk [ChunkLine SRC (txt "x  "); ChunkLine DST (txt "x")] 1 1)).1
  = [ChunkLine SRC (txt "x  "); ChunkLine DST (txt "x")].
Proof. vm_compute. reflexivity. Qed.

(** A removed line that starts with [-- ] starts a new patch. *)
Example dashes_line :
  (fun ps => length ps) <$>
    (ls ← write_patch (Patch (txt "a") (txt "b") [Chunk [ChunkLine SRC (txt "-- x")] 1 1]);
     parse_patchset ls) = Ok 2.
Proof. vm_compute. reflexivity. Qed.

(** ** Witnesses *)

Definition small_patch : patch :=
  Patch (txt "a") (txt "b") [Chunk [ChunkLine SRC (txt "x "); ChunkLine DST (txt "x")] 1 1].

Lemma small_patch_wf : wf_patch small_patch.
Proof.
  unfold wf_patch, wf_chunk, wf_line, no_newline, small_patch. cbn.
  repeat split; try done; repeat constructor; try done; intros _ [k Hk]; discriminate Hk.
Qed.

Lemma parse_write_witness :
  exists tss, mapM write_patch [small_patch] = Ok tss /\
    parse_patchset (concat tss) = Ok [small_patch].
Proof. exact (parse_write [small_patch] (Forall_cons_2 _ _ _ small_patch_wf (Forall_nil_2 _))). Defined.

Lemma ws_chunk_spec_witness :
  lines_ok (ch_lines (ws_chunk (Chunk [ChunkLine SRC (txt "x ")] 1 1)).1).
Proof.
  apply (ws_chunk_spec (Chunk [ChunkLine SRC (txt "x ")] 1 1)). repeat constructor.
Defined.

Lemma parse_patchset_lines_ok_witness :
  Forall patch_ok [Patch (txt "a") (txt "b") []].
Proof.
  apply (parse_patchset_lines_ok [txt "--- a" ++ [newline]; txt "+++ b" ++ [newline]]).
  vm_compute. reflexivity.
Defined.

(** A uniform instance of the programs: [uncrustify] changes nothing. *)
Definition one_file : gmap string text := {["a.cc" := txt "x" ++ [newline]]}.
Definition id_indent : string -> text -> option text := fun _ s => Some s.
Definition no_diff : list text -> list text -> list text := fun _ _ => [].
Definition id_patch : text -> list text -> text := fun s _ => s.

Lemma indent_files_check_witness :
  exists r, indent_files id_indent no_diff id_patch one_file ["a.cc"] false false 0 false = Ok r /\
    rp_fs r = one_file.
Proof.
  eexists. split; [vm_compute; reflexivity|].
  apply (indent_files_check id_indent no_diff id_patch one_file ["a.cc"] false false 0).
  vm_compute. reflexivity.
Defined.

Lemma indent_files_inplace_witness :
  exists r, indent_files id_indent no_diff id_patch one_file ["a.cc"] false false 0 true = Ok r /\
    rp_ok r = true.
Proof.
  eexists. split; [vm_compute; reflexivity|].
  apply (indent_files_inplace id_indent no_diff id_patch one_file ["a.cc"] false false 0).
  vm_compute. reflexivity.
Defined.

Lemma debug_reports_nothing_witness :
  exists r, indent_files id_indent no_diff id_patch one_file ["a.cc"] false true 0 false = Ok r /\
    rp_ok r = true.
Proof.
  eexists. split; [vm_compute; reflexivity|].
  apply (debug_reports_nothing id_indent no_diff id_patch (fun s => eq_refl)
           one_file ["a.cc"] false 0).
  vm_compute. reflexivity.
Defined.
