(* ===== verification/ShellCmd.v ===== *)
(** * [waf-tools/shellcmd.py]: shell command lines of the build system.

    A command line is split into tokens ([shlex.split]), parsed into a pipeline
    of nodes by a state machine ([Pipeline.parse]) and run ([Pipeline.run]).
    The processes and the files they open are outside of the program: [run] is
    a function of what every [Popen] and [open] does, and leaves a trace. *)
From S2P Require Import Prelude PyString PyShlex.

(** ** Nodes *)

Definition dict : Type := list (text * text).

(** [d[k] = v] on a dictionary that keeps the order of insertion. *)
Fixpoint dict_set (k v : text) (d : dict) : dict :=
  match d with
  | [] => [(k, v)]
  | (k', v') :: d => if decide (k' = k) then (k, v) :: d else (k', v') :: dict_set k v d
  end.

(** [Command.PIPE], [Command.STDOUT], or a file name. *)
Inductive target := TPipe | TStdout | TFile (filename : text).

Record command := Command {
  c_name : text;
  c_argv : list text;
  c_stdin : option text;
  c_stdout : option target;
  c_stderr : option target;
  c_env_vars : dict             (* None in the code when there is none *)
}.

Inductive node := Cmd (c : command) | Chdir (dir : option text) | Pipe | And | Or.

#[export] Instance target_eq_dec : EqDecision target.
Proof. solve_decision. Defined.
#[export] Instance command_eq_dec : EqDecision command.
Proof. solve_decision. Defined.
#[export] Instance node_eq_dec : EqDecision node.
Proof. solve_decision. Defined.

Definition new_command (name : text) : command := Command name [name] None None None [].
Definition set_env (c : command) (env : dict) : command :=
  Command (c_name c) (c_argv c) (c_stdin c) (c_stdout c) (c_stderr c) env.
Definition add_arg (c : command) (a : text) : command :=
  Command (c_name c) (c_argv c ++ [a]) (c_stdin c) (c_stdout c) (c_stderr c) (c_env_vars c).
Definition set_stdin (c : command) (f : text) : command :=
  Command (c_name c) (c_argv c) (Some f) (c_stdout c) (c_stderr c) (c_env_vars c).
Definition set_stdout (c : command) (t : target) : command :=
  Command (c_name c) (c_argv c) (c_stdin c) (Some t) (c_stderr c) (c_env_vars c).
Definition set_stderr (c : command) (t : target) : command :=
  Command (c_name c) (c_argv c) (c_stdin c) (c_stdout c) (Some t) (c_env_vars c).

(** [get_abbreviated_command]: the second test for [And] was meant for [Or]. *)
Definition abbreviate (n : node) : list text :=
  match n with
  | Cmd c => [c_name c]
  | Chdir d => [txt "cd " ++ show_dir d]
  | Pipe => [txt "|"]
  | And => [txt "&&"]
  | Or => []
  end.
Definition get_abbreviated_command (pipeline : list node) : text :=
  join [space] (concat (abbreviate <$> pipeline)).

(** ** [Pipeline.parse] *)

Inductive parse_state := BEGIN | COMMAND | CHDIR | STDERR | STDOUT | STDIN.

Record parser := Parser {
  ps_state : parse_state;
  ps_current : option node;       (* [self.current_command] *)
  ps_pipeline : list node;
  ps_env : dict
}.

(** [([a-zA-Z0-9_]+)=(\S+)] *)
Definition env_var_rx : re :=
  re_plus is_alnum_ (re_lit (txt "=") (re_plus (fun c => negb (is_space c)) REnd)).

(** [_commit_command] *)
Definition commit (s : parser) : res parser :=
  match ps_current s with
  | Some n => Ok (Parser (ps_state s) None (ps_pipeline s ++ [n]) (ps_env s))
  | None => Raise AssertionError
  end.

(** The commit, the operator and the new state of an operator token. *)
Definition end_node (s : parser) (op : node) : res parser :=
  s ← commit s; Ok (Parser BEGIN (ps_current s) (ps_pipeline s ++ [op]) (ps_env s)).

(** The current node is a command in every state but [BEGIN] and [CHDIR]. *)
Definition current_cmd (s : parser) : res command :=
  match ps_current s with Some (Cmd c) => Ok c | _ => Raise AttributeError end.
Definition with_cmd (s : parser) (st : parse_state) (c : command) : parser :=
  Parser st (Some (Cmd c)) (ps_pipeline s) (ps_env s).
Definition with_state (s : parser) (st : parse_state) : parser :=
  Parser st (ps_current s) (ps_pipeline s) (ps_env s).
Definition is_none {A} (o : option A) : bool := match o with None => true | _ => false end.

Definition parse_begin (s : parser) (token : text) : res parser :=
  match re_match env_var_rx token with
  | Some [k; v] => Ok (Parser BEGIN (ps_current s) (ps_pipeline s) (dict_set k v (ps_env s)))
  | _ =>
      _ ← py_assert (is_none (ps_current s));
      if decide (token = txt "cd") then
        _ ← py_assert (bool_decide (ps_env s = []));
        Ok (Parser CHDIR (Some (Chdir None)) (ps_pipeline s) (ps_env s))
      else
        Ok (Parser COMMAND (Some (Cmd (set_env (new_command token) (ps_env s))))
              (ps_pipeline s) [])
  end.

Definition parse_command (s : parser) (token : text) : res parser :=
  if decide (token = txt ">") then Ok (with_state s STDOUT)
  else if decide (token = txt "2>") then Ok (with_state s STDERR)
  else if decide (token = txt "2>&1") then
    c ← current_cmd s;
    _ ← py_assert (is_none (c_stderr c));
    Ok (with_cmd s COMMAND (set_stderr c TStdout))
  else if decide (token = txt "<") then Ok (with_state s STDIN)
  else if decide (token = txt "|") then
    c ← current_cmd s;
    _ ← py_assert (is_none (c_stdout c));
    end_node (with_cmd s COMMAND (set_stdout c TPipe)) Pipe
  else if decide (token = txt "&&") then end_node s And
  else if decide (token = txt "||") then end_node s Or
  else c ← current_cmd s; Ok (with_cmd s COMMAND (add_arg c token)).

Definition parse_token (s : parser) (token : text) : res parser :=
  match ps_state s with
  | BEGIN => parse_begin s token
  | COMMAND => parse_command s token
  | CHDIR =>
      if decide (token = txt "&&") then end_node s And
      else
        match ps_current s with
        | Some (Chdir dir) =>
            _ ← py_assert (is_none dir);
            Ok (Parser CHDIR (Some (Chdir (Some token))) (ps_pipeline s) (ps_env s))
        | _ => Raise AttributeError
        end
  | STDOUT =>
      c ← current_cmd s; _ ← py_assert (is_none (c_stdout c));
      Ok (with_cmd s COMMAND (set_stdout c (TFile token)))
  | STDERR =>
      c ← current_cmd s; _ ← py_assert (is_none (c_stderr c));
      Ok (with_cmd s COMMAND (set_stderr c (TFile token)))
  | STDIN =>
      c ← current_cmd s; _ ← py_assert (is_none (c_stdin c));
      Ok (with_cmd s COMMAND (set_stdin c token))
  end.

Definition parse_tokens (tokens : list text) : res (list node) :=
  s ← for_each parse_token tokens (Parser BEGIN None [] []);
  s ← commit s;
  Ok (ps_pipeline s).

(** The argument of [parse]: a string or a list of tokens. *)
Definition parse (cmd : text + list text) : res (list node) :=
  tokens ← (match cmd with inl s => shlex_split s | inr tokens => Ok tokens end);
  parse_tokens tokens.

(** ** [Pipeline.run] *)

Inductive handle := DevNull | Opened (id : nat).
Inductive stream := Inherited | OfProcess (k : nat) | OfFile (h : handle) | NewPipe | ToStdout.

(** The arguments of [subprocess.Popen]; [sp_env] is the environment of the
    caller unless it is given. *)
Record spawn := Spawn {
  sp_argv : list text; sp_stdin : stream; sp_stdout : stream; sp_stderr : stream;
  sp_env : option dict; sp_cwd : option text
}.

Inductive event :=
| EOpen (id : nat) (filename : text)
| ESpawn (k : nat) (s : spawn)
| EWait (k : nat)
| EClose (h : handle)
| EPrint (t : text).

(** The world: what has happened, and how many files and processes there are. *)
Record world := World { w_trace : list event; w_files : nat; w_procs : nat }.
Definition exec (A : Type) : Type := world -> world * res A.
#[export] Instance exec_ret : MRet exec := fun A a w => (w, Ok a).
#[export] Instance exec_bind : MBind exec := fun A B f m w =>
  match m w with
  | (w, Ok a) => f a w
  | (w, Raise e) => (w, Raise e)
  | (w, NoFuel) => (w, NoFuel)
  end.
Definition raise {A} (e : py_exn) : exec A := fun w => (w, Raise e).
Definition lift {A} (r : res A) : exec A := fun w => (w, r).
Definition log (e : event) : exec unit := fun w =>
  (World (w_trace w ++ [e]) (w_files w) (w_procs w), Ok ()).

Record run_state := RunState {
  rs_close : list handle;        (* files_to_close *)
  rs_procs : list nat;           (* piped_commands *)
  rs_display : list text;        (* piped_commands_display *)
  rs_piped : bool;               (* state == PIPE *)
  rs_cwd : text
}.

Definition to_close (s : run_state) (h : handle) : run_state :=
  RunState (rs_close s ++ [h]) (rs_procs s) (rs_display s) (rs_piped s) (rs_cwd s).
Definition display (verbose : bool) (s : run_state) (t : text) : run_state :=
  if verbose
  then RunState (rs_close s) (rs_procs s) (rs_display s ++ [t]) (rs_piped s) (rs_cwd s)
  else s.

(** [env.update(cmd.env_vars)] *)
Definition dict_update (env d : dict) : dict :=
  foldl (fun env '(k, v) => dict_set k v env) env d.

Section run.
(** Whether [open] and the [k]-th [Popen] succeed, and the exit code of the
    [k]-th process. *)
Context (can_open : text -> bool) (can_spawn : nat -> spawn -> bool) (status : nat -> Z).
Context (environ : dict).

Definition open_file (filename : text) : exec handle := fun w =>
  if can_open filename then
    (World (w_trace w ++ [EOpen (w_files w) filename]) (S (w_files w)) (w_procs w),
     Ok (Opened (w_files w)))
  else (w, Raise IOError).

Definition open_out_file (filename : text) : exec handle :=
  if decide (filename = txt "NUL:" \/ filename = txt "/dev/null")
  then mret DevNull else open_file filename.

Definition popen (s : spawn) : exec nat := fun w =>
  if can_spawn (w_procs w) s then
    (World (w_trace w ++ [ESpawn (w_procs w) s]) (w_files w) (S (w_procs w)), Ok (w_procs w))
  else (w, Raise IOError).

Definition wait (k : nat) : exec Z := _ ← log (EWait k); mret (status k).

Fixpoint wait_each (commands : list nat) : exec (list Z) :=
  match commands with
  | [] => mret []
  | cmd :: commands => r ← wait cmd; retvals ← wait_each commands; mret (r :: retvals)
  end.

Definition exec_piped_commands (commands : list nat) : exec Z :=
  retvals ← wait_each commands;
  mret (if existsb (fun r => negb (r =? 0)%Z) retvals then List.last retvals 0%Z else 0%Z).

Fixpoint close_files (hs : list handle) : exec unit :=
  match hs with
  | [] => mret ()
  | DevNull :: hs => close_files hs
  | h :: hs => _ ← log (EClose h); close_files hs
  end.

(** The three streams of a command. *)
Definition setup_stdin (verbose : bool) (s : run_state) (cmd : command) :
    exec (stream * run_state) :=
  if rs_piped s then
    k ← lift (py_get (rs_procs s) (-1)); mret (OfProcess k, s)
  else
    match c_stdin cmd with
    | Some f =>
        h ← open_file f;
        mret (OfFile h, to_close (display verbose s (txt "< " ++ f)) h)
    | None => mret (Inherited, s)
    end.

Definition setup_stdout (verbose : bool) (s : run_state) (cmd : command) :
    exec (stream * run_state) :=
  match c_stdout cmd with
  | None => mret (Inherited, s)
  | Some TPipe => mret (NewPipe, s)
  | Some TStdout => raise TypeError       (* [open] of a class object *)
  | Some (TFile f) =>
      h ← open_out_file f;
      mret (OfFile h, display verbose (to_close s h) (txt "> " ++ f))
  end.

Definition setup_stderr (verbose : bool) (s : run_state) (cmd : command) :
    exec (stream * run_state) :=
  match c_stderr cmd with
  | None => mret (Inherited, s)
  | Some TPipe => mret (NewPipe, s)
  | Some TStdout => mret (ToStdout, display verbose s (txt "2>&1"))
  | Some (TFile f) =>
      h ← open_out_file f;
      mret (OfFile h, display verbose (to_close s h) (txt "2> " ++ f))
  end.

(** From the command to its process. *)
Definition start (verbose : bool) (s : run_state) (cmd : command) : exec run_state :=
  let env_vars_str := join [space] ((fun '(k, v) => k ++ txt "=" ++ v) <$> c_env_vars cmd) in
  let s := display verbose s
    (match c_env_vars cmd with
     | [] => join [space] (c_argv cmd)
     | _ => env_vars_str ++ [space] ++ join [space] (c_argv cmd)
     end) in
  '(stdin, s) ← setup_stdin verbose s cmd;
  '(stdout, s) ← setup_stdout verbose s cmd;
  '(stderr, s) ← setup_stderr verbose s cmd;
  let env := match c_env_vars cmd with [] => None | d => Some (dict_update environ d) end in
  let cwd := if decide (rs_cwd s = txt ".") then None else Some (rs_cwd s) in
  k ← popen (Spawn (c_argv cmd) stdin stdout stderr env cwd);
  mret (RunState (rs_close s) (rs_procs s ++ [k]) (rs_display s) (rs_piped s) (rs_cwd s)).

(** The end of a group of piped commands at [&&] or [||]: [Some] is what [run]
    returns, [None] goes on.  The messages read a variable [retval] that is
    bound by the last group only. *)
Definition end_group (verbose : bool) (s : run_state) (stops : Z -> bool) :
    exec (option Z * run_state) :=
  this_retval ← exec_piped_commands (rs_procs s);
  _ ← close_files (rs_close s);
  if verbose then raise UnboundLocalError
  else if stops this_retval then mret (Some this_retval, s)
  else mret (None, RunState [] [] [] false (rs_cwd s)).

(** [None]: the loop ends without a [return]. *)
Fixpoint run_loop (verbose : bool) (s : run_state) (pipeline : list node) : exec (option Z) :=
  match pipeline with
  | [] => mret None
  | Chdir d :: rest =>
      match rest with
      | [] => raise IndexError
      | And :: rest =>
          dir ← lift (or_raise TypeError d);
          let s := RunState (rs_close s) (rs_procs s) (rs_display s) (rs_piped s)
                     (path_join (rs_cwd s) dir) in
          run_loop verbose (display verbose s (txt "cd " ++ dir ++ txt " &&")) rest
      | _ :: _ => raise AssertionError
      end
  | Cmd cmd :: rest =>
      s ← start verbose s cmd;
      match rest with
      | [] =>
          retval ← exec_piped_commands (rs_procs s);
          _ ← (if verbose
               then log (EPrint (join [space] (rs_display s) ++ txt ": exit code " ++ show_Z retval))
               else mret ());
          _ ← close_files (rs_close s);
          mret (Some retval)
      | Pipe :: rest =>
          run_loop verbose (RunState (rs_close s) (rs_procs s) (rs_display s ++ [txt "|"])
                              true (rs_cwd s)) rest
      | Or :: rest =>
          '(r, s) ← end_group verbose s (fun r => (r =? 0)%Z);
          match r with Some _ => mret r | None => run_loop verbose s rest end
      | And :: rest =>
          '(r, s) ← end_group verbose s (fun r => negb (r =? 0)%Z);
          match r with Some _ => mret r | None => run_loop verbose s rest end
      | _ :: rest => run_loop verbose s rest
      end
  | _ :: _ => raise AssertionError
  end.

Definition run (verbose : bool) (pipeline : list node) : exec (option Z) :=
  run_loop verbose (RunState [] [] [] false (txt ".")) pipeline.
End run.

(** ** What [parse] accepts *)

Definition cmd_wf (c : command) : Prop :=
  head (c_argv c) = Some (c_name c) /\ c_stdout c <> Some TStdout /\ c_stderr c <> Some TPipe.

(** Operands and operators alternate; a command is piped exactly when a pipe
    follows, and nothing but [&&] follows a [cd]. *)
Inductive wf : list node -> Prop :=
| wf_end c : cmd_wf c -> c_stdout c <> Some TPipe -> wf [Cmd c]
| wf_end_cd d : wf [Chdir d]
| wf_pipe c rest : cmd_wf c -> c_stdout c = Some TPipe -> wf rest -> wf (Cmd c :: Pipe :: rest)
| wf_and c rest : cmd_wf c -> c_stdout c <> Some TPipe -> wf rest -> wf (Cmd c :: And :: rest)
| wf_or c rest : cmd_wf c -> c_stdout c <> Some TPipe -> wf rest -> wf (Cmd c :: Or :: rest)
| wf_cd d rest : wf rest -> wf (Chdir d :: And :: rest).

Definition current_ok (st : parse_state) (cur : option node) : Prop :=
  match st with
  | BEGIN => cur = None
  | CHDIR => exists d, cur = Some (Chdir d)
  | _ => exists c, cur = Some (Cmd c) /\ cmd_wf c /\ c_stdout c <> Some TPipe
  end.
Definition parser_ok (s : parser) : Prop :=
  current_ok (ps_state s) (ps_current s) /\
  forall rest, wf rest -> wf (ps_pipeline s ++ rest).

(** A step that succeeds with the invariant, or fails an assertion. *)
Definition ok_or_assert {A} (P : A -> Prop) (r : res A) : Prop :=
  (exists a, r = Ok a /\ P a) \/ r = Raise AssertionError.

Lemma oa_ret {A} (P : A -> Prop) a : P a -> ok_or_assert P (Ok a).
Proof. left. eauto. Qed.
Lemma oa_assert {A} (P : A -> Prop) b (r : res A) :
  (b = true -> ok_or_assert P r) -> ok_or_assert P (_ ← py_assert b; r).
Proof. destruct b; [|by right]. intros H. by apply H. Qed.
Lemma oa_bind {A B} (P : A -> Prop) (Q : B -> Prop) r (f : A -> res B) :
  ok_or_assert P r -> (forall a, P a -> ok_or_assert Q (f a)) -> ok_or_assert Q (r ≫= f).
Proof. intros [(a & -> & Ha)| ->] Hf; [by apply Hf|by right]. Qed.

Lemma end_node_ok s op n :
  parser_ok s -> ps_current s = Some n ->
  (forall rest, wf rest -> wf (n :: op :: rest)) ->
  ok_or_assert parser_ok (end_node s op).
Proof.
  intros [_ Hp] Hn Hop. unfold end_node, commit. rewrite Hn. apply oa_ret.
  split; [done|]. cbn. intros rest Hr. rewrite <- !app_assoc. by apply Hp, Hop.
Qed.

Lemma parse_begin_ok s token :
  ps_state s = BEGIN -> parser_ok s -> ok_or_assert parser_ok (parse_begin s token).
Proof.
  intros Hst [Hc Hp]. rewrite Hst in Hc. unfold parse_begin.
  assert (Hrest : ok_or_assert parser_ok
    (_ ← py_assert (is_none (ps_current s));
     if decide (token = txt "cd") then
       _ ← py_assert (bool_decide (ps_env s = []));
       Ok (Parser CHDIR (Some (Chdir None)) (ps_pipeline s) (ps_env s))
     else Ok (Parser COMMAND (Some (Cmd (set_env (new_command token) (ps_env s))))
                (ps_pipeline s) []))).
  { apply oa_assert. intros _. destruct (decide _).
    - apply oa_assert. intros _. apply oa_ret. split; [by eexists|done].
    - apply oa_ret. split; [|done]. by eexists. }
  destruct (re_match env_var_rx token) as [[|k [|v [|? ?]]]|]; try exact Hrest.
  apply oa_ret. by split.
Qed.

Lemma parse_token_ok s token : parser_ok s -> ok_or_assert parser_ok (parse_token s token).
Proof.
  intros Hs. pose proof Hs as [Hc Hp]. unfold parse_token.
  destruct (ps_state s) eqn:Hst; [by apply parse_begin_ok|..]; cbn in Hc.
  2:{ destruct Hc as [d Hd]. case_decide.
      { eapply end_node_ok; [done..|]. intros. by constructor. }
      rewrite Hd. apply oa_assert. intros _. apply oa_ret. split; [by eexists|done]. }
  all: destruct Hc as (c & Hcur & Hwf & Hnp).
  2-4: unfold current_cmd; rewrite Hcur; cbn [mbind result_bind]; apply oa_assert; intros _;
    apply oa_ret; (split; [|done]); eexists; by destruct Hwf as (? & ? & ?).
  unfold parse_command, current_cmd. rewrite Hcur. cbn [mbind result_bind].
  case_decide; [apply oa_ret; split; [by eexists|done]|].
  case_decide; [apply oa_ret; split; [by eexists|done]|].
  case_decide.
  { apply oa_assert. intros _. apply oa_ret. split; [|done]. eexists. by destruct Hwf as (? & ? & ?). }
  case_decide; [apply oa_ret; split; [by eexists|done]|].
  case_decide.
  { apply oa_assert. intros _. unfold end_node, commit. cbn. apply oa_ret.
    split; [done|]. cbn. intros rest Hr. rewrite <- !app_assoc. apply Hp. cbn.
    constructor; by destruct Hwf as (? & ? & ?). }
  case_decide; [eapply end_node_ok; [done..|]; intros; by constructor|].
  case_decide; [eapply end_node_ok; [done..|]; intros; by constructor|].
  apply oa_ret. split; [|done]. eexists. split; [done|]. split; [|done].
  destruct Hwf as (Hh & ? & ?). split; [|done]. cbn. by destruct (c_argv c).
Qed.

(** Parsing a list of tokens gives a well-formed pipeline or fails an
    assertion of the parser; no other exception is possible. *)
Theorem parse_tokens_wf tokens : ok_or_assert wf (parse_tokens tokens).
Proof.
  unfold parse_tokens. apply oa_bind with parser_ok.
  - assert (Hi : parser_ok (Parser BEGIN None [] [])) by by split.
    revert Hi. generalize (Parser BEGIN None [] []).
    induction tokens as [|t tokens IH]; intros s Hs; [by apply oa_ret|].
    cbn [for_each]. eapply oa_bind; [by apply parse_token_ok|done].
  - intros s [Hc Hp]. unfold commit.
    destruct (ps_current s) as [n|] eqn:Hn; [|by right].
    apply oa_ret. cbn. apply Hp. destruct (ps_state s); cbn in Hc;
      [done|destruct Hc as (c & [= ->] & ? & ?)|destruct Hc as [d [= ->]]|
       destruct Hc as (c & [= ->] & ? & ?)..]; by constructor.
Qed.

(** ** Printing a pipeline and parsing it back *)

Definition operators : list text := txt <$> [">"; "2>"; "2>&1"; "<"; "|"; "&&"; "||"].

Definition print_redirects (c : command) : list text :=
  (match c_stdin c with Some f => [txt "<"; f] | None => [] end) ++
  (match c_stdout c with Some (TFile f) => [txt ">"; f] | _ => [] end) ++
  (match c_stderr c with
   | Some (TFile f) => [txt "2>"; f] | Some TStdout => [txt "2>&1"] | _ => [] end).
Definition print_env (kv : text * text) : text := kv.1 ++ txt "=" ++ kv.2.
Definition print_command (c : command) : list text :=
  (print_env <$> c_env_vars c) ++ c_name c :: tail (c_argv c) ++ print_redirects c.
Definition print_node (n : node) : list text :=
  match n with
  | Cmd c => print_command c
  | Chdir None => [txt "cd"]
  | Chdir (Some d) => [txt "cd"; d]
  | Pipe => [txt "|"]
  | And => [txt "&&"]
  | Or => [txt "||"]
  end.
Definition print_pipeline (p : list node) : list text := concat (print_node <$> p).

(** Names and values that the expression for environment variables matches,
    a name that is neither an assignment nor [cd], arguments that are not
    operators. *)
Definition printable_env (kv : text * text) : Prop :=
  Forall (fun c => is_alnum_ c = true) kv.1 /\ kv.1 <> [] /\
  Forall (fun c => negb (is_space c) = true) kv.2 /\ kv.2 <> [].
Definition printable_cmd (c : command) : Prop :=
  Forall printable_env (c_env_vars c) /\ NoDup (c_env_vars c).*1 /\
  re_match env_var_rx (c_name c) = None /\ c_name c <> txt "cd" /\
  Forall (fun a => a ∉ operators) (tail (c_argv c)).
Definition printable (n : node) : Prop :=
  match n with
  | Cmd c => printable_cmd c
  | Chdir (Some d) => d <> txt "&&"
  | _ => True
  end.

Lemma env_var_match kv : printable_env kv -> re_match env_var_rx (print_env kv) = Some [kv.1; kv.2].
Proof.
  destruct kv as [k v]. intros (Hk & Hkn & Hv & Hvn). unfold print_env. cbn [fst snd] in *.
  unfold re_match, env_var_rx. erewrite re_match_plus; [done|done|done|done|].
  cbn [app]. rewrite re_match_lit. rewrite <- (app_nil_r v) at 1.
  by rewrite (re_match_plus _ REnd v [] [] []).
Qed.

Lemma dict_set_new k v d : k ∉ d.*1 -> dict_set k v d = d ++ [(k, v)].
Proof.
  induction d as [|[k' v'] d IH]; [done|]. cbn. rewrite not_elem_of_cons. intros [Hk Hd].
  rewrite decide_False by done. by rewrite IH.
Qed.

Lemma parse_env_token pl env0 kv : printable_env kv ->
  parse_token (Parser BEGIN None pl env0) (print_env kv)
    = Ok (Parser BEGIN None pl (dict_set kv.1 kv.2 env0)).
Proof.
  intros Hkv. change (parse_begin (Parser BEGIN None pl env0) (print_env kv)
    = Ok (Parser BEGIN None pl (dict_set kv.1 kv.2 env0))).
  unfold parse_begin. by rewrite env_var_match.
Qed.

Lemma parse_name pl env c : re_match env_var_rx c = None -> c <> txt "cd" ->
  parse_token (Parser BEGIN None pl env) c
    = Ok (Parser COMMAND (Some (Cmd (set_env (new_command c) env))) pl []).
Proof.
  intros Hrx Hcd. change (parse_begin (Parser BEGIN None pl env) c
    = Ok (Parser COMMAND (Some (Cmd (set_env (new_command c) env))) pl [])).
  unfold parse_begin. rewrite Hrx. cbn. by rewrite decide_False by done.
Qed.

Lemma parse_cd pl : parse_token (Parser BEGIN None pl []) (txt "cd")
  = Ok (Parser CHDIR (Some (Chdir None)) pl []).
Proof. reflexivity. Qed.

Lemma parse_dir pl d : d <> txt "&&" ->
  parse_token (Parser CHDIR (Some (Chdir None)) pl []) d
    = Ok (Parser CHDIR (Some (Chdir (Some d))) pl []).
Proof. intros Hd. cbn. by rewrite decide_False by done. Qed.

Lemma parse_pipe pl c : c_stdout c = None ->
  parse_token (Parser COMMAND (Some (Cmd c)) pl []) (txt "|")
    = Ok (Parser BEGIN None ((pl ++ [Cmd (set_stdout c TPipe)]) ++ [Pipe]) []).
Proof. intros Hc. unfold parse_token, parse_command. cbn. by rewrite Hc. Qed.

Lemma parse_and pl st n : st = COMMAND \/ st = CHDIR ->
  parse_token (Parser st (Some n) pl []) (txt "&&")
    = Ok (Parser BEGIN None ((pl ++ [n]) ++ [And]) []).
Proof. by intros [->| ->]. Qed.

Lemma parse_or pl n :
  parse_token (Parser COMMAND (Some n) pl []) (txt "||")
    = Ok (Parser BEGIN None ((pl ++ [n]) ++ [Or]) []).
Proof. reflexivity. Qed.

Lemma parse_env pl env : forall env0,
  Forall printable_env env -> NoDup (env0 ++ env).*1 ->
  for_each parse_token (print_env <$> env) (Parser BEGIN None pl env0)
    = Ok (Parser BEGIN None pl (env0 ++ env)).
Proof.
  induction env as [|[k v] env IH]; intros env0 Henv Hnd; [by rewrite app_nil_r|].
  apply Forall_cons in Henv as [Hkv Henv]. cbn [fmap list_fmap for_each].
  rewrite parse_env_token by done. cbn [mbind result_bind fst snd]. rewrite dict_set_new.
  - rewrite IH; [by rewrite <- app_assoc|done|by rewrite <- app_assoc].
  - rewrite fmap_app in Hnd. apply NoDup_app in Hnd as (_ & Hd & _).
    intros Hk. apply (Hd k Hk). left.
Qed.

Lemma parse_arg pl c a : a ∉ operators ->
  parse_token (Parser COMMAND (Some (Cmd c)) pl []) a
    = Ok (Parser COMMAND (Some (Cmd (add_arg c a))) pl []).
Proof.
  intros Ha. unfold parse_token, parse_command. cbn [ps_state].
  unfold operators in Ha. cbn [fmap list_fmap] in Ha.
  repeat (apply not_elem_of_cons in Ha as [? Ha]; rewrite decide_False by done). done.
Qed.

Lemma parse_args pl args : forall c, Forall (fun a => a ∉ operators) args ->
  for_each parse_token args (Parser COMMAND (Some (Cmd c)) pl [])
    = Ok (Parser COMMAND (Some (Cmd (foldl add_arg c args))) pl []).
Proof.
  induction args as [|a args IH]; intros c Hargs; [done|].
  apply Forall_cons in Hargs as [Ha Hargs]. cbn [for_each]. rewrite parse_arg by done.
  by apply IH.
Qed.

Lemma foldl_add_arg args c :
  foldl add_arg c args =
    Command (c_name c) (c_argv c ++ args) (c_stdin c) (c_stdout c) (c_stderr c) (c_env_vars c).
Proof.
  revert c. induction args as [|a args IH]; intros c; [cbn; rewrite app_nil_r; by destruct c|].
  cbn [foldl]. rewrite IH. cbn. by rewrite <- app_assoc.
Qed.

(** What a command is before its pipe is read. *)
Definition unpiped (c : command) : command :=
  Command (c_name c) (c_argv c) (c_stdin c)
    (match c_stdout c with Some TPipe => None | o => o end) (c_stderr c) (c_env_vars c).

Lemma parse_print_command pl c : cmd_wf c -> printable_cmd c ->
  for_each parse_token (print_command c) (Parser BEGIN None pl [])
    = Ok (Parser COMMAND (Some (Cmd (unpiped c))) pl []).
Proof.
  intros (Hh & Ho & He) (Henv & Hnd & Hrx & Hcd & Hargs). unfold print_command.
  rewrite for_each_app, parse_env by done. cbn [mbind result_bind app for_each].
  rewrite parse_name by done. cbn [mbind result_bind]. rewrite for_each_app, parse_args by done.
  rewrite foldl_add_arg. cbn [mbind result_bind].
  destruct c as [name argv si so se env]. cbn in *. destruct argv as [|x argv]; [done|].
  injection Hh as ->. unfold print_redirects, unpiped. cbn [c_stdin c_stdout c_stderr tail app].
  destruct si as [f|], so as [[| |g]|], se as [[| |h]|]; done.
Qed.

Lemma unpiped_id c : c_stdout c <> Some TPipe -> unpiped c = c.
Proof. intros Hc. by destruct c as [? ? ? [[]|] ? ?]. Qed.

Lemma unpiped_pipe c : c_stdout c = Some TPipe -> set_stdout (unpiped c) TPipe = c.
Proof. destruct c; cbn. by intros ->. Qed.

Lemma parse_print_nodes p : wf p -> Forall printable p -> forall pl,
  (s ← for_each parse_token (print_pipeline p) (Parser BEGIN None pl []);
   s ← commit s; Ok (ps_pipeline s)) = Ok (pl ++ p).
Proof.
  intros Hwf. induction Hwf as [c Hc Hnp|d|c rest Hc Hp _ IH|c rest Hc Hnp _ IH|c rest Hc Hnp _ IH|d rest _ IH];
    intros Hpr pl; unfold print_pipeline; cbn [fmap list_fmap concat print_node];
    repeat (apply Forall_cons in Hpr as [? Hpr]);
    rewrite ?app_nil_r; cbn [printable] in *.
  - rewrite parse_print_command by done. cbn. by rewrite (unpiped_id c).
  - destruct d as [d|]; [|done]. cbn [for_each]. rewrite parse_cd. cbn [mbind result_bind].
    by rewrite parse_dir by done.
  - rewrite for_each_app, parse_print_command by done. cbn [mbind result_bind app for_each].
    rewrite parse_pipe by (unfold unpiped; by rewrite Hp). cbn [mbind result_bind].
    rewrite unpiped_pipe by done. fold (print_pipeline rest). rewrite (IH Hpr).
    by rewrite <- !app_assoc.
  - rewrite for_each_app, parse_print_command by done. cbn [mbind result_bind app for_each].
    rewrite unpiped_id, parse_and by auto. fold (print_pipeline rest). cbn [mbind result_bind].
    rewrite (IH Hpr). by rewrite <- !app_assoc.
  - rewrite for_each_app, parse_print_command by done. cbn [mbind result_bind app for_each].
    rewrite unpiped_id, parse_or by auto. fold (print_pipeline rest). cbn [mbind result_bind].
    rewrite (IH Hpr). by rewrite <- !app_assoc.
  - fold (print_pipeline rest). destruct d as [d|]; cbn [app for_each]; rewrite parse_cd;
      cbn [mbind result_bind app for_each]; [rewrite parse_dir by done; cbn [mbind result_bind]|];
      rewrite parse_and by auto; cbn [mbind result_bind];
      rewrite (IH Hpr); by rewrite <- !app_assoc.
Qed.

(** C5: parsing the tokens of a well-formed pipeline gives the pipeline back. *)
Theorem parse_print p : wf p -> Forall printable p -> parse_tokens (print_pipeline p) = Ok p.
Proof. intros Hwf Hp. unfold parse_tokens. by rewrite (parse_print_nodes p Hwf Hp []). Qed.

(** ** Running a pipeline *)

Section run_spec.
Context (can_open : text -> bool) (can_spawn : nat -> spawn -> bool) (status : nat -> Z).
Context (environ : dict).
Notation run := (run can_open can_spawn status environ).
Notation run_loop := (run_loop can_open can_spawn status environ).
Notation start := (start can_open can_spawn environ).

Lemma wait_all ks w : exists w', wait_each status ks w = (w', Ok (status <$> ks)) /\
  w_procs w' = w_procs w.
Proof.
  revert w. induction ks as [|k ks IH]; intros w; [by exists w|].
  destruct (IH (World (w_trace w ++ [EWait k]) (w_files w) (w_procs w))) as (w' & Hw' & Hp).
  exists w'. split; [|done]. cbn [wait_each]. unfold wait, mbind, exec_bind. cbn [log mret exec_ret].
  by rewrite Hw'.
Qed.

(** The value of a group of piped commands is the exit code of the last one. *)
Lemma exec_piped_last ks k w : exists w',
  exec_piped_commands status (ks ++ [k]) w = (w', Ok (status k)) /\ w_procs w' = w_procs w.
Proof.
  destruct (wait_all (ks ++ [k]) w) as (w' & Hw & Hp). exists w'. split; [|done].
  unfold exec_piped_commands, mbind, exec_bind. rewrite Hw. cbn. do 2 f_equal.
  rewrite fmap_app. cbn. rewrite py_last_app. destruct (existsb _ _) eqn:E; [done|].
  rewrite existsb_app in E. apply orb_false_iff in E as [_ E]. cbn in E.
  rewrite orb_false_r in E. apply negb_false_iff, Z.eqb_eq in E. by rewrite E.
Qed.

Lemma close_files_ok hs w : exists w', close_files hs w = (w', Ok ()) /\ w_procs w' = w_procs w.
Proof.
  revert w. induction hs as [|[|id] hs IH]; intros w; [by exists w|apply IH|].
  destruct (IH (World (w_trace w ++ [EClose (Opened id)]) (w_files w) (w_procs w))) as (w' & Hw & ?).
  exists w'. cbn [close_files]. unfold mbind, exec_bind. cbn [log]. by rewrite Hw.
Qed.

(** *** The value of a run

    What the operators make of the exit codes: the processes are numbered in
    the order of the commands that are started. *)
Fixpoint value_from (k : nat) (p : list node) : Z :=
  match p with
  | Cmd _ :: Pipe :: rest => value_from (S k) rest
  | Cmd _ :: And :: rest => if (status k =? 0)%Z then value_from (S k) rest else status k
  | Cmd _ :: Or :: rest => if (status k =? 0)%Z then status k else value_from (S k) rest
  | Chdir _ :: And :: rest => value_from k rest
  | _ => status k
  end.

(** Every [cd] names a directory and is followed by a command. *)
Fixpoint dirs_ok (p : list node) : Prop :=
  match p with
  | [Chdir _] => False
  | Chdir None :: _ => False
  | _ :: p => dirs_ok p
  | [] => True
  end.

Hypothesis opens : forall f, can_open f = true.
Hypothesis spawns : forall k s, can_spawn k s = true.

Lemma open_out_file_ok f w : exists w' h,
  open_out_file can_open f w = (w', Ok h) /\ w_procs w' = w_procs w.
Proof using opens.
  unfold open_out_file, open_file. case_decide; [by eexists _, _|].
  rewrite opens. by eexists _, _.
Qed.

Lemma setup_stdin_ok v s c w : (rs_piped s = true -> rs_procs s <> []) -> exists w' i s',
  setup_stdin can_open v s c w = (w', Ok (i, s')) /\ w_procs w' = w_procs w /\
  rs_procs s' = rs_procs s.
Proof using opens.
  intros Hpiped. unfold setup_stdin. destruct (rs_piped s).
  - destruct (rs_procs s) as [|k ks] eqn:E; [by destruct Hpiped|].
    eexists _, _, s. unfold mbind, exec_bind, lift. rewrite py_get_last. by rewrite E.
  - destruct (c_stdin c) as [f|]; [|by eexists _, _, s].
    unfold mbind, exec_bind, open_file. rewrite opens. eexists _, _, _. split; [done|]. by destruct v.
Qed.

Lemma setup_stdout_ok v s c w : cmd_wf c -> exists w' o s',
  setup_stdout can_open v s c w = (w', Ok (o, s')) /\ w_procs w' = w_procs w /\
  rs_procs s' = rs_procs s.
Proof using opens.
  intros (_ & Hso & _). unfold setup_stdout. destruct (c_stdout c) as [[| |f]|];
    [by eexists _, _, s|done| |by eexists _, _, s].
  destruct (open_out_file_ok f w) as (w1 & h & Ho & ?). unfold mbind, exec_bind. rewrite Ho.
  eexists _, _, _. split; [done|]. by destruct v.
Qed.

Lemma setup_stderr_ok v s c w : exists w' o s',
  setup_stderr can_open v s c w = (w', Ok (o, s')) /\ w_procs w' = w_procs w /\
  rs_procs s' = rs_procs s.
Proof using opens.
  unfold setup_stderr. destruct (c_stderr c) as [[| |f]|];
    [by eexists _, _, s|eexists _, _, _; split; [done|]; by destruct v| |by eexists _, _, s].
  destruct (open_out_file_ok f w) as (w1 & h & Ho & ?). unfold mbind, exec_bind. rewrite Ho.
  eexists _, _, _. split; [done|]. by destruct v.
Qed.

Lemma start_ok v s c w : cmd_wf c -> (rs_piped s = true -> rs_procs s <> []) ->
  exists w' s', start v s c w = (w', Ok s') /\ w_procs w' = S (w_procs w) /\
    rs_procs s' = rs_procs s ++ [w_procs w].
Proof using opens spawns.
  intros Hc Hp. unfold ShellCmd.start. set (s0 := display v s _).
  assert (Hs0 : rs_procs s0 = rs_procs s /\ rs_piped s0 = rs_piped s)
    by (unfold s0; by destruct v).
  destruct Hs0 as [Hs0 Hs0']. rewrite <- Hs0, <- Hs0' in Hp.
  destruct (setup_stdin_ok v s0 c w Hp) as (w1 & i & s1 & H1 & Hw1 & Hs1).
  destruct (setup_stdout_ok v s1 c w1 Hc) as (w2 & o & s2 & H2 & Hw2 & Hs2).
  destruct (setup_stderr_ok v s2 c w2) as (w3 & e & s3 & H3 & Hw3 & Hs3).
  unfold mbind, exec_bind. rewrite H1, H2, H3. unfold popen. rewrite spawns.
  eexists _, _. split; [done|]. cbn. split; congruence.
Qed.

Lemma end_group_ok s ks k stops w : rs_procs s = ks ++ [k] -> exists w',
  end_group status false s stops w =
    (w', Ok (if stops (status k) then (Some (status k), s)
             else (None, RunState [] [] [] false (rs_cwd s)))) /\
  w_procs w' = w_procs w.
Proof.
  intros Hk. unfold end_group. rewrite Hk. unfold mbind, exec_bind.
  destruct (exec_piped_last ks k w) as (w1 & -> & H1).
  destruct (close_files_ok (rs_close s) w1) as (w2 & -> & H2).
  exists w2. split; [by destruct (stops _)|congruence].
Qed.

Lemma run_loop_value p : wf p -> dirs_ok p -> forall s w,
  (rs_piped s = true -> rs_procs s <> []) ->
  exists w', run_loop false s p w = (w', Ok (Some (value_from (w_procs w) p))).
Proof using opens spawns.
  intros Hwf. induction Hwf as [c Hc Hnp|d|c rest Hc Hp _ IH|c rest Hc Hnp _ IH|c rest Hc Hnp _ IH|d rest Hrest IH];
    intros Hd s w Hs; cbn [dirs_ok] in Hd; [|by destruct d|..|].
  5:{ destruct d as [d|]; [|by destruct rest]. destruct rest as [|n rest]; [by inversion Hrest|].
      cbn [run_loop value_from]. unfold mbind, exec_bind. cbn [lift or_raise].
      apply (IH Hd). done. }
  all: cbn [run_loop]; unfold mbind, exec_bind;
    destruct (start_ok false s c w Hc Hs) as (w1 & s1 & -> & Hw1 & Hs1).
  - destruct (exec_piped_last (rs_procs s) (w_procs w) w1) as (w2 & He & _).
    rewrite Hs1, He. destruct (close_files_ok (rs_close s1) w2) as (w3 & Hcl & _).
    cbn [mret exec_ret]. rewrite Hcl. by exists w3.
  - cbn [value_from]. rewrite <- Hw1. apply IH; [by destruct rest|].
    cbn. rewrite Hs1. intros _ ?%app_nil. naive_solver.
  - cbn [value_from].
    destruct (end_group_ok s1 _ _ (fun r => negb (r =? 0)%Z) w1 Hs1) as (w2 & -> & Hw2).
    destruct (Z.eqb_spec (status (w_procs w)) 0); cbn [negb]; [|by exists w2].
    rewrite <- Hw1, <- Hw2. by apply IH; [destruct rest|].
  - cbn [value_from].
    destruct (end_group_ok s1 _ _ (fun r => (r =? 0)%Z) w1 Hs1) as (w2 & -> & Hw2).
    destruct (Z.eqb_spec (status (w_procs w)) 0); [by exists w2|].
    rewrite <- Hw1, <- Hw2. by apply IH; [destruct rest|].
Qed.

(** C6: when files open and processes start, running a well-formed pipeline
    returns what the operators make of the exit codes: that of the last command
    of a group of pipes, and the first group that decides an operator ends the
    whole run. *)
Theorem run_value p w : wf p -> dirs_ok p ->
  exists w', run false p w = (w', Ok (Some (value_from (w_procs w) p))).
Proof using opens spawns. intros Hwf Hd. unfold ShellCmd.run. by apply run_loop_value. Qed.
End run_spec.

(** ** Files

    What happens to the files that are opened, however a run ends. *)

Definition opened (tr : list event) : list nat :=
  omap (fun e => match e with EOpen id _ => Some id | _ => None end) tr.
Definition closed (tr : list event) : list nat :=
  omap (fun e => match e with EClose (Opened id) => Some id | _ => None end) tr.
Definition ids (hs : list handle) : list nat :=
  omap (fun h => match h with Opened id => Some id | DevNull => None end) hs.

Lemma opened_app tr1 tr2 : opened (tr1 ++ tr2) = opened tr1 ++ opened tr2.
Proof. apply omap_app. Qed.
Lemma closed_app tr1 tr2 : closed (tr1 ++ tr2) = closed tr1 ++ closed tr2.
Proof. apply omap_app. Qed.

(** [tr] is what happens from [w] to [w']: files get new numbers, and the null device is
    not closed. *)
Record traced (w w' : world) (tr : list event) : Prop := Traced {
  t_trace : w_trace w' = w_trace w ++ tr;
  t_files : w_files w' = w_files w + length (opened tr);
  t_fresh : opened tr = seq (w_files w) (length (opened tr));
  t_null : EClose DevNull ∉ tr
}.

Lemma traced_refl w : traced w w [].
Proof. split; cbn; [by rewrite app_nil_r|lia|done|apply not_elem_of_nil]. Qed.
Lemma traced_trans w1 w2 w3 tr1 tr2 : traced w1 w2 tr1 -> traced w2 w3 tr2 -> traced w1 w3 (tr1 ++ tr2).
Proof.
  intros [T1 F1 S1 N1] [T2 F2 S2 N2]. split.
  - by rewrite T2, T1, app_assoc.
  - rewrite F2, F1, opened_app, length_app. lia.
  - by rewrite opened_app, length_app, seq_app, <- F1, <- S1, <- S2.
  - rewrite elem_of_app. tauto.
Qed.
Lemma traced_log e w : (forall id f, e <> EOpen id f) -> e <> EClose DevNull -> traced w (World (w_trace w ++ [e]) (w_files w) (w_procs w)) [e].
Proof.
  intros Ho Hc. assert (opened [e] = []) as E by (destruct e as [id f| | | |]; try done; by destruct (Ho id f)).
  split; cbn [w_trace w_files]; rewrite ?E; cbn; [done|lia|done|]. intros [=]%list_elem_of_singleton. by apply Hc.
Qed.

(** [m] closes nothing. *)
Definition silent {A} (m : exec A) : Prop := forall w, exists tr, traced w (m w).1 tr /\ closed tr = [].

(** An exception leaves open what was opened since all files were closed last, or all
    that was open, [pre], and what was opened. *)
Definition leaves (pre : list nat) (tr : list event) : Prop :=
  closed tr = [] \/ exists tr1 tr2, tr = tr1 ++ tr2 /\ opened tr1 ++ pre ≡ₚ closed tr1 /\ closed tr2 = [].

(** When [m] succeeds, the files that it opened and those of [pre] are the ones that it
    closed and those of [post a]. *)
Definition moves {A} (m : exec A) (pre : list nat) (post : A -> list nat) : Prop :=
  forall w, exists tr, traced w (m w).1 tr /\
    match (m w).2 with Ok a => opened tr ++ pre ≡ₚ closed tr ++ post a | _ => leaves pre tr end.

Lemma exec_bind_eq {A B} (m : exec A) (f : A -> exec B) w : (m ≫= f) w =
  match (m w).2 with Ok a => f a (m w).1 | Raise e => ((m w).1, Raise e) | NoFuel => ((m w).1, NoFuel) end.
Proof. unfold mbind, exec_bind. by destruct (m w) as [w' [| |]]. Qed.

Lemma silent_same {A} (r : res A) : silent (fun w => (w, r)).
Proof. intros w. exists []. split; [apply traced_refl|done]. Qed.
Lemma silent_log e : (forall id f, e <> EOpen id f) -> (forall h, e <> EClose h) -> silent (log e).
Proof. intros Ho Hc w. exists [e]. split; [by apply traced_log|]. destruct e as [| | |h|]; try done. by destruct (Hc h). Qed.
Lemma silent_bind {A B} (m : exec A) (f : A -> exec B) : silent m -> (forall a, silent (f a)) -> silent (m ≫= f).
Proof.
  intros Hm Hf w. destruct (Hm w) as (tr1 & T1 & C1). rewrite exec_bind_eq. destruct (m w).2 as [a| |]; [|by exists tr1..].
  destruct (Hf a (m w).1) as (tr2 & T2 & C2). exists (tr1 ++ tr2). split; [by eapply traced_trans|]. by rewrite closed_app, C1, C2.
Qed.

Lemma moves_same {A} (r : res A) pre post : (forall a, r = Ok a -> pre ≡ₚ post a) -> moves (fun w => (w, r)) pre post.
Proof. intros Hp w. exists []. split; [apply traced_refl|]. cbn. destruct r; [by apply Hp|by left..]. Qed.
Lemma moves_ret {A} (a : A) pre post : pre ≡ₚ post a -> moves (mret a) pre post.
Proof. intros Hp. apply moves_same. by intros ? [= <-]. Qed.

(** A step that closes nothing, or after which nothing is open, and what follows it. *)
Definition takes {A} (m : exec A) (pre : list nat) (post : A -> list nat) : Prop := silent m /\ moves m pre post.
Lemma moves_bind {A B} (m : exec A) (f : A -> exec B) pre mid post :
  takes m pre mid -> (forall a, moves (f a) (mid a) post) -> moves (m ≫= f) pre post.
Proof.
  intros [Hs Hm] Hf w. destruct (Hm w) as (tr1 & T1 & P1). rewrite exec_bind_eq. destruct (m w).2 as [a| |]; [|by exists tr1..].
  destruct (Hs w) as (tr & T & C). assert (tr = tr1) as -> by (apply (app_inv_head (w_trace w)); by rewrite <- (t_trace _ _ _ T), (t_trace _ _ _ T1)).
  destruct (Hf a (m w).1) as (tr2 & T2 & P2). exists (tr1 ++ tr2). split; [by eapply traced_trans|].
  rewrite C in P1. cbn in P1.
  assert (forall t, (opened (tr1 ++ t) ++ pre) ≡ₚ opened t ++ mid a) as Hmid
    by (intros t; rewrite opened_app, <- app_assoc, (Permutation_app_swap_app _ _ pre), P1; done).
  assert (leaves (mid a) tr2 -> leaves pre (tr1 ++ tr2)) as Hl.
  { intros [P|(t1 & t2 & -> & P & P3)]; [left; by rewrite closed_app, C|]. right. exists (tr1 ++ t1), t2.
    split; [by rewrite app_assoc|]. split; [|done]. by rewrite Hmid, closed_app, C. }
  destruct (f a (m w).1).2 as [b| |]; [|by apply Hl..]. by rewrite Hmid, closed_app, C.
Qed.
Lemma moves_after {A B} (m : exec A) (f : A -> exec B) pre post :
  moves m pre (fun _ => []) -> (forall a w, (m w).2 = Ok a -> moves (f a) [] post) -> moves (m ≫= f) pre post.
Proof.
  intros Hm Hf w. destruct (Hm w) as (tr1 & T1 & P1). rewrite exec_bind_eq. destruct (m w).2 as [a| |] eqn:E; [|by exists tr1..].
  destruct (Hf a w E (m w).1) as (tr2 & T2 & P2). exists (tr1 ++ tr2). split; [by eapply traced_trans|]. rewrite app_nil_r in P1.
  assert (leaves [] tr2 -> leaves pre (tr1 ++ tr2)) as Hl.
  { intros [P|(t1 & t2 & -> & P & P3)]; right; [by exists tr1, tr2|]. exists (tr1 ++ t1), t2.
    split; [by rewrite app_assoc|]. split; [|done]. rewrite opened_app, closed_app, <- app_assoc, (Permutation_app_swap_app _ _ pre), P1.
    rewrite app_nil_r in P. rewrite P. apply Permutation_app_comm. }
  destruct (f a (m w).1).2 as [b| |]; [|by apply Hl..].
  rewrite opened_app, closed_app, <- !app_assoc, (Permutation_app_swap_app _ _ pre), P1, (Permutation_app_comm (opened tr2)).
  rewrite app_nil_r in P2. by rewrite P2.
Qed.

Lemma takes_bind {A B} (m : exec A) (f : A -> exec B) pre mid post :
  takes m pre mid -> (forall a, takes (f a) (mid a) post) -> takes (m ≫= f) pre post.
Proof.
  intros Hm Hf. split; [apply silent_bind; [apply Hm|intros a; apply Hf]|]. eapply moves_bind; [exact Hm|]. intros a. apply Hf.
Qed.
Lemma takes_same {A} (r : res A) pre post : (forall a, r = Ok a -> pre ≡ₚ post a) -> takes (fun w => (w, r)) pre post.
Proof. intros Hp. split; [apply silent_same|by apply moves_same]. Qed.
Lemma takes_ret {A} (a : A) pre post : pre ≡ₚ post a -> takes (mret a) pre post.
Proof. intros Hp. apply takes_same. by intros ? [= <-]. Qed.
Lemma takes_log e pre : (forall id f, e <> EOpen id f) -> (forall h, e <> EClose h) -> takes (log e) pre (fun _ => pre).
Proof.
  intros Ho Hc. split; [by apply silent_log|]. intros w. exists [e]. split; [by apply traced_log|].
  assert (opened [e] = [] /\ closed [e] = []) as [Eo Ec]; [|cbn [log snd]; by rewrite Eo, Ec].
  destruct e as [id f|k s|k|h|t]; [by destruct (Ho id f)|done|done|by destruct (Hc h)|done].
Qed.

Section files.
Context (can_open : text -> bool) (can_spawn : nat -> spawn -> bool) (status : nat -> Z).
Context (environ : dict).

Lemma takes_open f pre : takes (open_file can_open f) pre (fun h => pre ++ ids [h]).
Proof.
  assert (forall w, traced w (World (w_trace w ++ [EOpen (w_files w) f]) (S (w_files w)) (w_procs w)) [EOpen (w_files w) f]) as T.
  { intros w. split; cbn; [done|lia|done|by intros [=]%list_elem_of_singleton]. }
  split; intros w; unfold open_file; destruct (can_open f).
  - by exists [EOpen (w_files w) f].
  - exists []. split; [apply traced_refl|done].
  - exists [EOpen (w_files w) f]. split; [apply T|]. cbn. apply Permutation_cons_append.
  - exists []. split; [apply traced_refl|by left].
Qed.

Lemma takes_open_out f pre : takes (open_out_file can_open f) pre (fun h => pre ++ ids [h]).
Proof.
  unfold open_out_file. case_decide; [|apply takes_open].
  apply takes_ret. by rewrite app_nil_r.
Qed.

Lemma takes_wait ks pre : takes (wait_each status ks) pre (fun _ => pre).
Proof.
  induction ks as [|k ks IH]; cbn [wait_each]; [by apply takes_ret|].
  apply (takes_bind _ _ _ (fun _ => pre)).
  - unfold wait. eapply takes_bind; [by apply takes_log|intros ?; by apply takes_ret].
  - intros z. eapply takes_bind; [exact IH|intros rs; by apply takes_ret].
Qed.

Lemma takes_group ks pre : takes (exec_piped_commands status ks) pre (fun _ => pre).
Proof.
  unfold exec_piped_commands. eapply takes_bind; [apply takes_wait|].
  intros rs. by apply takes_ret.
Qed.

(** All files are closed, and none of it raises. *)
Lemma close_files_trace hs w : exists tr, traced w (close_files hs w).1 tr /\ (close_files hs w).2 = Ok () /\ opened tr = [] /\ closed tr = ids hs.
Proof.
  revert w. induction hs as [|[|id] hs IH]; intros w; cbn [close_files]; [exists []; split; [apply traced_refl|done]|apply IH|].
  rewrite exec_bind_eq. cbn [log fst snd]. destruct (IH (World (w_trace w ++ [EClose (Opened id)]) (w_files w) (w_procs w))) as (tr & T & E & O & C).
  exists ([EClose (Opened id)] ++ tr). split; [eapply traced_trans; [by apply traced_log|exact T]|]. split; [done|].
  rewrite opened_app, closed_app, O, C. done.
Qed.
Lemma moves_close_files hs : moves (close_files hs) (ids hs) (fun _ => []).
Proof.
  intros w. destruct (close_files_trace hs w) as (tr & T & E & O & C). exists tr. split; [done|]. by rewrite E, O, C, app_nil_r.
Qed.

Lemma takes_stdin v s c :
  takes (setup_stdin can_open v s c) (ids (rs_close s)) (fun r => ids (rs_close r.2)).
Proof.
  unfold setup_stdin. destruct (rs_piped s).
  - apply (takes_bind _ _ _ (fun _ => ids (rs_close s))); [by apply takes_same|].
    intros k. by apply takes_ret.
  - destruct (c_stdin c) as [f|]; [|by apply takes_ret].
    eapply takes_bind; [apply takes_open|]. intros h. apply takes_ret.
    unfold ids. destruct v; cbn; by rewrite omap_app.
Qed.

Lemma takes_stdout v s c :
  takes (setup_stdout can_open v s c) (ids (rs_close s)) (fun r => ids (rs_close r.2)).
Proof.
  unfold setup_stdout. destruct (c_stdout c) as [[| |f]|];
    [by apply takes_ret|by apply takes_same| |by apply takes_ret].
  eapply takes_bind; [apply takes_open_out|]. intros h. apply takes_ret.
  unfold ids. destruct v; cbn; by rewrite omap_app.
Qed.

Lemma takes_stderr v s c :
  takes (setup_stderr can_open v s c) (ids (rs_close s)) (fun r => ids (rs_close r.2)).
Proof.
  unfold setup_stderr. destruct (c_stderr c) as [[| |f]|];
    [by apply takes_ret|apply takes_ret; by destruct v| |by apply takes_ret].
  eapply takes_bind; [apply takes_open_out|]. intros h. apply takes_ret.
  unfold ids. destruct v; cbn; by rewrite omap_app.
Qed.

Lemma takes_popen sp pre : takes (popen can_spawn sp) pre (fun _ => pre).
Proof.
  assert (forall w, traced w (World (w_trace w ++ [ESpawn (w_procs w) sp]) (w_files w) (S (w_procs w))) [ESpawn (w_procs w) sp]) as T.
  { intros w. split; cbn; [done|lia|done|by intros [=]%list_elem_of_singleton]. }
  split; intros w; unfold popen; destruct (can_spawn _ _).
  - by exists [ESpawn (w_procs w) sp].
  - exists []. split; [apply traced_refl|done].
  - exists [ESpawn (w_procs w) sp]. split; [apply T|]. cbn. done.
  - exists []. split; [apply traced_refl|by left].
Qed.

Lemma takes_start v s c :
  takes (start can_open can_spawn environ v s c) (ids (rs_close s)) (fun s' => ids (rs_close s')).
Proof.
  unfold start. set (s0 := display v s _).
  assert (rs_close s = rs_close s0) as -> by (unfold s0; by destruct v). clearbody s0.
  eapply takes_bind; [apply takes_stdin|]. intros [i s1]. cbn [snd].
  eapply takes_bind; [apply takes_stdout|]. intros [o s2]. cbn [snd].
  eapply takes_bind; [apply takes_stderr|]. intros [e s3]. cbn [snd].
  eapply takes_bind; [apply takes_popen|]. intros k. by apply takes_ret.
Qed.

(** After a group nothing is left open, whether the run goes on or ends, or the message
    raises. *)
Lemma moves_end_group v s stops : moves (end_group status v s stops) (ids (rs_close s)) (fun _ => []).
Proof.
  unfold end_group. eapply moves_bind; [apply takes_group|]. intros r. cbn beta.
  apply moves_after; [apply moves_close_files|]. intros ? w _.
  destruct v; [by apply moves_same|]. destruct (stops r); by apply moves_ret.
Qed.
Lemma end_group_next v s stops w s' : (end_group status v s stops w).2 = Ok (None, s') -> rs_close s' = [].
Proof.
  unfold end_group. rewrite exec_bind_eq. destruct (exec_piped_commands _ _ w).2 as [r| |]; [|done..]. rewrite exec_bind_eq.
  destruct (close_files _ _).2; [|done..]. destruct v; [done|]. destruct (stops r); [done|]. by intros [= <-].
Qed.

Lemma moves_run_loop v p : wf p -> forall s,
  moves (run_loop can_open can_spawn status environ v s p) (ids (rs_close s)) (fun _ => []).
Proof.
  intros Hwf. induction Hwf as [c Hc Hnp|d|c rest Hc Hp _ IH|c rest Hc Hnp _ IH|c rest Hc Hnp _ IH|d rest _ IH];
    intros s; cbn [run_loop]; [|by apply moves_same|..|];
    try (eapply moves_bind; [apply takes_start|]; intros s1; cbn beta).
  - eapply moves_bind; [apply takes_group|]. intros r. cbn beta.
    apply (moves_bind _ _ _ (fun _ => ids (rs_close s1))).
    + destruct v; [by apply takes_log|by apply takes_ret].
    + intros u. apply moves_after; [apply moves_close_files|intros u' w _; by apply moves_ret].
  - exact (IH _).
  - apply moves_after; [apply moves_end_group|]. intros [[r|] s2] w E; [by apply moves_ret|].
    apply end_group_next in E. specialize (IH s2). by rewrite E in IH.
  - apply moves_after; [apply moves_end_group|]. intros [[r|] s2] w E; [by apply moves_ret|].
    apply end_group_next in E. specialize (IH s2). by rewrite E in IH.
  - apply (moves_bind _ _ _ (fun _ => ids (rs_close s))); [by apply takes_same|].
    intros dir. cbn beta.
    set (s1 := RunState _ _ _ _ _). change (rs_close s) with (rs_close s1). clearbody s1.
    specialize (IH (display v s1 (txt "cd " ++ dir ++ txt " &&"))).
    by destruct v.
Qed.


(** A verbose run that comes to [&&] or [||] dies on the unbound variable
    [retval] of its own message. *)
Theorem run_verbose_operator c op rest w : op = And \/ op = Or ->
  forall r, (run can_open can_spawn status environ true (Cmd c :: op :: rest) w).2 <> Ok r.
Proof.
  intros Hop r. unfold run. cbn [run_loop]. unfold mbind at 1, exec_bind at 1.
  destruct (start _ _ _ _ _ _ w) as [w1 [s1| |]]; [|done..].
  assert (Hend : forall stops, exists w2,
    end_group status true s1 stops w1 = (w2, Raise UnboundLocalError)).
  { intros stops. unfold end_group, mbind, exec_bind.
    assert (exists w2 z, exec_piped_commands status (rs_procs s1) w1 = (w2, Ok z)) as (w2 & z & ->).
    { destruct (wait_all status (rs_procs s1) w1) as (w2 & Hw & _).
      unfold exec_piped_commands, mbind, exec_bind. rewrite Hw. by eexists _, _. }
    destruct (close_files_ok (rs_close s1) w2) as (w3 & -> & _). by exists w3. }
  destruct Hop as [->| ->]; unfold mbind, exec_bind;
    match goal with |- context [end_group _ _ _ ?st] => destruct (Hend st) as (w2 & ->) end; done.
Qed.
End files.

(** ** Examples *)

Definition no_world : world := World [] 0 0.
Definition run_all (status : nat -> Z) (cmd : string) : res (option Z) :=
  p ← parse (inl (txt cmd));
  (run (fun _ => true) (fun _ _ => true) status [] false p no_world).2.

(** The command line of [_main]. *)
Example parse_main :
  parse (inl (txt "./foo.py 2>&1 < xxx | cat && ls")) =
  Ok [Cmd (Command (txt "./foo.py") [txt "./foo.py"] (Some (txt "xxx")) (Some TPipe) (Some TStdout) []);
      Pipe; Cmd (new_command (txt "cat")); And; Cmd (new_command (txt "ls"))].
Proof. by vm_compute. Qed.

(** A shell goes on to [c] in [a && b || c] when [a] fails; [run] stops. *)
Example and_or_stops : run_all (fun _ => 1%Z) "a && b || c" = Ok (Some 1%Z) /\
  run_all (fun k => if k =? 0 then 1%Z else 0%Z) "a && b || c" = Ok (Some 1%Z).
Proof. by vm_compute. Qed.

(** A [cd] at the end makes [run] pop from an empty list. *)
Example cd_at_end : run_all (fun _ => 0%Z) "cd x" = Raise IndexError.
Proof. by vm_compute. Qed.

(** When a file cannot be opened, the one opened before it stays open. *)
Example file_left_open :
  let r := run (fun f => bool_decide (f = txt "in")) (fun _ _ => true) (fun _ => 0%Z) [] false
    [Cmd (Command (txt "sort") [txt "sort"] (Some (txt "in")) (Some (TFile (txt "/missing/out"))) None [])] no_world in
  r.2 = Raise IOError /\ w_trace r.1 = [EOpen 0 (txt "in")].
Proof. by vm_compute. Qed.

(** The abbreviation of [a || b] loses the operator. *)
Example abbreviated_or : get_abbreviated_command
  [Cmd (new_command (txt "a")); Or; Cmd (new_command (txt "b"))] = txt "a b".
Proof. reflexivity. Qed.

(** ** Witnesses *)

Definition cat_and_ls : list node :=
  [Cmd (Command (txt "cat") [txt "cat"; txt "-n"] (Some (txt "in")) (Some TPipe) None
          [(txt "LANG", txt "C")]);
   Pipe; Cmd (Command (txt "wc") [txt "wc"] None (Some (TFile (txt "out"))) None []);
   And; Cmd (new_command (txt "ls"))].

Lemma cat_and_ls_wf : wf cat_and_ls.
Proof. unfold cat_and_ls. repeat (constructor; try done). Qed.

Lemma cat_and_ls_printable : Forall printable cat_and_ls.
Proof.
  unfold cat_and_ls. repeat (apply Forall_cons_2); try exact I; try apply Forall_nil_2;
    unfold printable, printable_cmd, printable_env;
    apply (bool_decide_unpack _); by vm_compute.
Qed.

Lemma parse_print_witness : parse_tokens (print_pipeline cat_and_ls) = Ok cat_and_ls.
Proof. exact (parse_print _ cat_and_ls_wf cat_and_ls_printable). Defined.

Lemma run_value_witness : exists w',
  run (fun _ => true) (fun _ _ => true) (fun _ => 0%Z) [] false cat_and_ls no_world
    = (w', Ok (Some 0%Z)).
Proof.
  exact (run_value (fun _ => true) (fun _ _ => true) (fun _ => 0%Z) [] (fun _ => eq_refl)
           (fun _ _ => eq_refl) cat_and_ls no_world cat_and_ls_wf I).
Defined.


Lemma run_verbose_operator_witness :
  (run (fun _ => true) (fun _ _ => true) (fun _ => 0%Z) [] true
    [Cmd (new_command (txt "a")); Or; Cmd (new_command (txt "b"))] no_world).2 <> Ok (Some 0%Z).
Proof.
  apply (run_verbose_operator (fun _ => true) (fun _ _ => true) (fun _ => 0%Z) []).
  right. reflexivity.
Defined.
