(* ===== verification/BuildConfig.v ===== *)
(** * The configuration of the build.

    Module [Ns3rc]: [utils.py], which reads lists and booleans from the file
    [.ns3rc].  Module [CFlags]: [waf-tools/cflags.py], which chooses the flags of
    the compiler. *)
From S2P Require Import Prelude PyString.

Module Ns3rc.

(** What [eval] can give: the values that the readers look at. *)
Inductive py_value :=
| PyList (l : list text) | PyTuples (l : list (list text)) | PyBool (b : bool) | PyOther (truthy : bool).
Definition truthy (v : py_value) : bool :=
  match v with
  | PyList l => bool_decide (l <> [])
  | PyTuples l => bool_decide (l <> [])
  | PyBool b => b
  | PyOther b => b
  end.

(** [if '#' in line: (line, comment) = line.split('#', 1)] *)
Definition uncomment (line : text) : text :=
  match split_once "#"%char line with Some (line, _) => line | None => line end.

Section readers.
Context (eval : text -> res py_value).

(** [eval(s.split('=', 1)[1].strip())] *)
Definition eval_rhs (s : text) : res py_value :=
  rhs ← or_raise IndexError (snd <$> split_once "="%char s); eval (strip rhs).

Fixpoint scan_list (list_name list_string : text) (parsing_multiline_list : bool)
    (lines : list text) : res (option py_value) :=
  match lines with
  | [] => Ok None
  | line :: lines =>
      let line := uncomment line in
      if occurs list_name line || parsing_multiline_list then
        let list_string := list_string ++ line in
        if decide ("]"%char ∈ list_string) then Some <$> eval_rhs list_string
        else scan_list list_name list_string true lines
      else scan_list list_name list_string parsing_multiline_list lines
  end.

Definition get_list_from_file (fs : gmap text text) (file_path list_name : text) : res py_value :=
  match fs !! file_path with
  | Some content =>
      r ← scan_list list_name [] false (readlines content); Ok (default (PyList []) r)
  | None => Ok (PyList [])
  end.

Fixpoint scan_bool (bool_name : text) (lines : list text) : res (option py_value) :=
  match lines with
  | [] => Ok None
  | line :: lines =>
      let line := uncomment line in
      if occurs bool_name line then Some <$> eval_rhs line else scan_bool bool_name lines
  end.

(** [bool_found] is bound only when the file exists. *)
Definition get_bool_from_file (fs : gmap text text) (file_path bool_name : text)
    (value_if_missing : py_value) : res py_value :=
  match fs !! file_path with
  | Some content =>
      r ← scan_bool bool_name (readlines content); Ok (default value_if_missing r)
  | None => Raise UnboundLocalError
  end.

Record config := Config {
  config_file_exists : bool;
  modules_enabled : py_value;
  examples_enabled : py_value;
  tests_enabled : py_value
}.

(** [home] is [os.path.expanduser('~/')]. *)
Definition read_config_file (fs : gmap text text) (home : text) : res config :=
  let all_modules := PyList [txt "all_modules"] in
  let dot_ns3rc_name := txt ".ns3rc" in
  let found :=
    if decide (is_Some (fs !! dot_ns3rc_name)) then Some dot_ns3rc_name
    else if decide (is_Some (fs !! (home ++ dot_ns3rc_name)))
    then Some (home ++ dot_ns3rc_name) else None in
  match found with
  | None => Ok (Config false all_modules (PyBool false) (PyBool false))
  | Some path =>
      modules ← get_list_from_file fs path (txt "modules_enabled");
      let modules := if truthy modules then modules else all_modules in
      examples ← get_bool_from_file fs path (txt "examples_enabled") (PyBool false);
      tests ← get_bool_from_file fs path (txt "tests_enabled") (PyBool false);
      Ok (Config true modules examples tests)
  end.

(** *** The first definition counts, comments do not *)

Lemma scan_list_skip name pre rest ls :
  Forall (fun line => occurs name (uncomment line) = false) pre ->
  scan_list name ls false (pre ++ rest) = scan_list name ls false rest.
Proof.
  intros Hpre. induction Hpre as [|l pre Hl _ IH]; [done|]. cbn [app scan_list]. by rewrite Hl.
Qed.

Lemma scan_list_block name last rest init : forall ls multi,
  "]"%char ∉ ls ++ concat (uncomment <$> init) -> "]"%char ∈ uncomment last ->
  multi = true \/ (exists l, head (init ++ [last]) = Some l /\ occurs name (uncomment l) = true) ->
  scan_list name ls multi (init ++ last :: rest) =
    Some <$> eval_rhs (ls ++ concat (uncomment <$> init) ++ uncomment last).
Proof.
  induction init as [|l init IH]; intros ls multi Hnot Hin Hm; cbn [app scan_list].
  - assert (occurs name (uncomment last) || multi = true) as ->.
    { destruct Hm as [->|(l & [= <-] & ->)]; [apply orb_true_r|done]. }
    rewrite decide_True; [done|]. apply elem_of_app. by right.
  - assert (occurs name (uncomment l) || multi = true) as ->.
    { destruct Hm as [->|(l' & [= <-] & ->)]; [apply orb_true_r|done]. }
    cbn [fmap list_fmap concat] in *. rewrite decide_False.
    + rewrite IH; rewrite <- ?app_assoc; auto.
    + intros Hl. apply Hnot. rewrite app_assoc. apply elem_of_app. by left.
Qed.

(** A list that is spread over lines is evaluated from the text after its
    first equals sign to the end of the line with the bracket, without the
    comments; the lines before it that do not name it have no effect, nor has
    what follows. *)
Theorem get_list_spec fs path name pre init last rest content :
  fs !! path = Some content ->
  readlines content = pre ++ init ++ last :: rest ->
  Forall (fun line => occurs name (uncomment line) = false) pre ->
  (exists l, head (init ++ [last]) = Some l /\ occurs name (uncomment l) = true) ->
  "]"%char ∉ concat (uncomment <$> init) -> "]"%char ∈ uncomment last ->
  get_list_from_file fs path name = eval_rhs (concat (uncomment <$> init) ++ uncomment last).
Proof.
  intros Hf Hl Hpre Hname Hnot Hin. unfold get_list_from_file. rewrite Hf, Hl.
  rewrite scan_list_skip, (scan_list_block name last rest init [] false) by auto.
  cbn [app]. by destruct (eval_rhs _).
Qed.

(** A list that no line names is empty. *)
Lemma get_list_missing fs path name :
  (forall content, fs !! path = Some content ->
     Forall (fun line => occurs name (uncomment line) = false) (readlines content)) ->
  get_list_from_file fs path name = Ok (PyList []).
Proof.
  intros H. unfold get_list_from_file. destruct (fs !! path) as [content|]; [|done].
  specialize (H content eq_refl). rewrite <- (app_nil_r (readlines content)).
  by rewrite scan_list_skip.
Qed.

(** A boolean is read from the first line that names it; without such a line
    the default is returned, and without a file the function fails. *)
Theorem get_bool_spec fs path name default_value :
  (fs !! path = None /\ get_bool_from_file fs path name default_value = Raise UnboundLocalError) \/
  exists content, fs !! path = Some content /\
    ((Forall (fun line => occurs name (uncomment line) = false) (readlines content) /\
      get_bool_from_file fs path name default_value = Ok default_value) \/
     exists pre line post, readlines content = pre ++ line :: post /\
       Forall (fun line => occurs name (uncomment line) = false) pre /\
       occurs name (uncomment line) = true /\
       get_bool_from_file fs path name default_value = eval_rhs (uncomment line)).
Proof.
  unfold get_bool_from_file. destruct (fs !! path) as [content|]; [right|by left].
  exists content. split; [done|].
  assert (Hscan : (Forall (fun line => occurs name (uncomment line) = false) (readlines content) /\
      scan_bool name (readlines content) = Ok None) \/
     exists pre line post, readlines content = pre ++ line :: post /\
       Forall (fun line => occurs name (uncomment line) = false) pre /\
       occurs name (uncomment line) = true /\
       scan_bool name (readlines content) = Some <$> eval_rhs (uncomment line)).
  { induction (readlines content) as [|l ls IH]; [by left|]. cbn [scan_bool].
    destruct (occurs name (uncomment l)) eqn:E.
    - right. by exists [], l, ls.
    - destruct IH as [[Hall ->]|(pre & line & post & -> & Hpre & Hl & ->)].
      + left. split; [by constructor|done].
      + right. exists (l :: pre), line, post. split; [done|]. split; [by constructor|done]. }
  destruct Hscan as [[Hall ->]|(pre & line & post & Heq & Hpre & Hl & ->)]; [by left|right].
  exists pre, line, post. split; [done|]. split; [done|]. split; [done|].
  by destruct (eval_rhs _).
Qed.
End readers.

(** Without [.ns3rc] in the working or the home directory all modules are
    enabled and nothing else, and the file in the working directory hides the
    one at home. *)
Theorem read_config_spec eval fs home :
  (fs !! txt ".ns3rc" = None -> fs !! (home ++ txt ".ns3rc") = None ->
     read_config_file eval fs home =
       Ok (Config false (PyList [txt "all_modules"]) (PyBool false) (PyBool false))) /\
  (forall content other, fs !! txt ".ns3rc" = Some content -> home <> [] ->
     read_config_file eval fs home =
       read_config_file eval (<[home ++ txt ".ns3rc" := other]> fs) home).
Proof.
  unfold read_config_file. split.
  - intros -> ->. rewrite !decide_False by (by intros [? ?]). done.
  - intros content other Hc Hh. assert (Hne : home ++ txt ".ns3rc" <> txt ".ns3rc").
    { intros Heq%(f_equal length). rewrite length_app in Heq. destruct home; [done|cbn in Heq; lia]. }
    rewrite !lookup_insert_ne by done. rewrite Hc. rewrite !decide_True by eauto.
    unfold get_list_from_file, get_bool_from_file. by rewrite !lookup_insert_ne by done.
Qed.
End Ns3rc.

Module CFlags.

(** A class of traits and the [warnings_flags] of its instances. *)
Inductive traits := GccTraits | IccTraits | MsvcTraits.
#[export] Instance traits_eq_dec : EqDecision traits.
Proof. solve_decision. Defined.

Definition warnings_flags (t : traits) : list (list string) :=
  match t with
  | GccTraits => [["-Wall"]; ["-Werror"]; ["-Wextra"]]
  | IccTraits => [[]; []; ["-Wall"]]
  | MsvcTraits => [["/W2"]; ["/WX"]; ["/Wall"]]
  end.

(** The loop over [range(level)], [l] being its variable and [n] what is left. *)
Fixpoint extend_warnings (flags : list (list string)) (l n : nat) (warnings : list string) :
    list string :=
  match n with
  | O => warnings
  | S n =>
      match flags !! l with
      | Some fs => extend_warnings flags (S l) n (warnings ++ fs)
      | None => warnings
      end
  end.
Definition get_warnings_flags (t : traits) (level : Z) : list string :=
  extend_warnings (warnings_flags t) 0 (Z.to_nat level) [].

(** [None] where the chain of [elif]s ends without a [return]. *)
Definition get_optimization_flags (t : traits) (level : Z) : option (list string) :=
  match t with
  | GccTraits | IccTraits =>
      if (level =? 0)%Z then Some ["-O0"] else if (level =? 1)%Z then Some ["-O"]
      else if (level =? 2)%Z then Some ["-O2"] else if (level =? 3)%Z then Some ["-O3"] else None
  | MsvcTraits =>
      if (level =? 0)%Z then Some ["/Od"] else if (level =? 1)%Z then Some []
      else if (level =? 2)%Z then Some ["/O2"] else if (level =? 3)%Z then Some ["/Ox"] else None
  end.

Definition get_debug_flags (t : traits) (level : Z) : option (list string * list string) :=
  match t with
  | GccTraits | IccTraits =>
      if (level =? 0)%Z then Some (["-g0"], ["NDEBUG"]) else if (level =? 1)%Z then Some (["-g"], [])
      else if (2 <=? level)%Z then Some (["-ggdb"; "-g3"], ["_DEBUG"]) else None
  | MsvcTraits =>
      if (level =? 0)%Z then Some ([], ["NDEBUG"]) else if (level =? 1)%Z then Some (["/ZI"; "/RTC1"], [])
      else if (2 <=? level)%Z then Some (["/ZI"; "/RTC1"], ["_DEBUG"]) else None
  end.

Definition compiler_mapping : gmap string traits :=
  {["gcc" := GccTraits; "g++" := GccTraits; "msvc" := MsvcTraits; "icc" := IccTraits;
    "icpc" := IccTraits; "clang" := GccTraits; "clang++" := GccTraits]}.

(** Optimization, warnings and debug level. *)
Definition profiles : gmap string (Z * Z * Z) :=
  {["default" := (2, 1, 1)%Z; "debug" := (0, 2, 3)%Z; "release" := (3, 1, 0)%Z]}.
Definition default_profile : string := "default".

(** [conf.env]: the two compilers and the lists of flags. *)
Record env := Env {
  compiler_cc : option string;
  compiler_cxx : option string;
  vars : gmap string (list string)
}.
Definition env_get (e : env) (v : string) : list string := default [] (vars e !! v).
Definition append_value (e : env) (v : string) (l : list string) : env :=
  Env (compiler_cc e) (compiler_cxx e) (<[v := env_get e v ++ l]> (vars e)).

(** [conf.env['COMPILER_CC'] or None] *)
Definition set_name (o : option string) : option string :=
  match o with Some "" => None | o => o end.

Definition append_flags (e : env) (flags_var defs_var : string)
    (optimizations debug warnings debug_defs : list string) : env :=
  let e := append_value e flags_var optimizations in
  let e := append_value e flags_var debug in
  let e := append_value e flags_var warnings in
  append_value e defs_var debug_defs.

Definition configure (build_profile : string) (disable_werror : bool) (e : env) : res env :=
  let cc := set_name (compiler_cc e) in
  let cxx := set_name (compiler_cxx e) in
  if decide (cc = None /\ cxx = None) then Raise OtherError
  else
    let find c := c ≫= (fun name => compiler_mapping !! name) in
    match (match find cc with Some t => Some t | None => find cxx end) with
    | None => Ok e
    | Some compiler =>
        '(opt_level, warn_level, dbg_level) ← or_raise KeyError (profiles !! build_profile);
        optimizations ← or_raise TypeError (get_optimization_flags compiler opt_level);
        '(debug, debug_defs) ← or_raise TypeError (get_debug_flags compiler dbg_level);
        let warnings := get_warnings_flags compiler warn_level in
        let warnings := if disable_werror then remove_first "-Werror"%string warnings else warnings in
        let e := if decide (cc <> None /\ env_get e "CCFLAGS" = [])
                 then append_flags e "CCFLAGS" "CCDEFINES" optimizations debug warnings debug_defs
                 else e in
        Ok (if decide (cxx <> None /\ env_get e "CXXFLAGS" = [])
            then append_flags e "CXXFLAGS" "CXXDEFINES" optimizations debug warnings debug_defs
            else e)
    end.

(** *** Properties *)

(** The warnings of a level are those of the lower levels and its own; the
    levels above the highest add nothing. *)
Theorem get_warnings_flags_spec t level :
  get_warnings_flags t level = concat (take (Z.to_nat level) (warnings_flags t)).
Proof.
  unfold get_warnings_flags. enough (Hgen : forall n l w,
    extend_warnings (warnings_flags t) l n w = w ++ concat (take n (drop l (warnings_flags t)))).
  { by rewrite Hgen, drop_0. }
  induction n as [|n IH]; intros l w; [by rewrite take_0, app_nil_r|]. cbn [extend_warnings].
  destruct (warnings_flags t !! l) as [fs|] eqn:E.
  - rewrite IH, (drop_S _ fs l E), <- app_assoc. done.
  - rewrite drop_ge by (by apply lookup_ge_None). by rewrite app_nil_r.
Qed.

(** What the flags of a profile are. *)
Definition profile_flags (t : traits) (profile : string) (disable_werror : bool) :
    option (list string * list string) :=
  '(o, w, d) ← profiles !! profile;
  opt ← get_optimization_flags t o;
  '(debug, defs) ← get_debug_flags t d;
  let warnings := get_warnings_flags t w in
  Some (opt ++ debug ++ (if disable_werror then remove_first "-Werror"%string warnings else warnings), defs).

Lemma profile_flags_total t profile b :
  is_Some (profiles !! profile) -> is_Some (profile_flags t profile b).
Proof.
  intros [p Hp]. unfold profile_flags. rewrite Hp. unfold profiles in Hp.
  repeat (apply lookup_insert_Some in Hp as [[_ <-]|[_ Hp]]; [by destruct t; eexists|]).
  apply lookup_singleton_Some in Hp as [_ <-]. by destruct t; eexists.
Qed.

(** With a known compiler and a known profile [configure] does not fail; it
    gives the flags of the profile to the compilers that are set and have no
    flags yet, and leaves every other variable alone. *)
Theorem configure_spec e profile b t flags defs :
  (set_name (compiler_cc e) ≫= (fun n => compiler_mapping !! n) = Some t \/
   set_name (compiler_cc e) = None /\
   set_name (compiler_cxx e) ≫= (fun n => compiler_mapping !! n) = Some t) ->
  profile_flags t profile b = Some (flags, defs) ->
  exists e', configure profile b e = Ok e' /\
    (env_get e' "CCFLAGS" = if decide (set_name (compiler_cc e) <> None /\ env_get e "CCFLAGS" = [])
                            then flags else env_get e "CCFLAGS") /\
    (env_get e' "CXXFLAGS" = if decide (set_name (compiler_cxx e) <> None /\ env_get e "CXXFLAGS" = [])
                             then flags else env_get e "CXXFLAGS") /\
    (forall v, v ∉ ["CCFLAGS"; "CCDEFINES"; "CXXFLAGS"; "CXXDEFINES"] ->
       env_get e' v = env_get e v).
Proof.
  intros Hcomp Hflags. unfold configure.
  rewrite decide_False.
  2:{ intros [H1 H2]. rewrite H1, H2 in Hcomp. by destruct Hcomp as [?|[_ ?]]. }
  assert ((match set_name (compiler_cc e) ≫= (fun name => compiler_mapping !! name) with
           | Some t => Some t
           | None => set_name (compiler_cxx e) ≫= (fun name => compiler_mapping !! name) end)
          = Some t) as -> by (destruct Hcomp as [->|[-> ->]]; done).
  unfold profile_flags in Hflags. destruct (profiles !! profile) as [[[o w] d]|]; [|done].
  cbn in Hflags |- *. destruct (get_optimization_flags t o) as [opt|]; [|done].
  cbn in Hflags |- *. destruct (get_debug_flags t d) as [[debug ddefs]|]; [|done].
  cbn in Hflags |- *. injection Hflags as <- <-. set (warnings := if b then _ else _).
  eexists. split; [done|]. set (e1 := if decide _ then append_flags e _ _ _ _ _ _ else e).
  assert (Hcxx : env_get e1 "CXXFLAGS" = env_get e "CXXFLAGS" /\
    env_get e1 "CCFLAGS" = (if decide (set_name (compiler_cc e) <> None /\ env_get e "CCFLAGS" = [])
      then opt ++ debug ++ warnings else env_get e "CCFLAGS") /\
    forall v, v ∉ ["CCFLAGS"; "CCDEFINES"; "CXXFLAGS"; "CXXDEFINES"] -> env_get e1 v = env_get e v).
  { unfold e1. destruct (decide (_ /\ _)) as [[_ Hnil]|]; [|done].
    unfold append_flags, append_value, env_get in *. cbn [vars].
    split; [by simplify_map_eq|]. split.
    - simplify_map_eq. rewrite Hnil. by rewrite <- app_assoc.
    - intros v Hv. repeat (apply not_elem_of_cons in Hv as [? Hv]).
      rewrite !lookup_insert_ne by done. done. }
  destruct Hcxx as (Hx & Hc & Hv). rewrite <- Hc, <- Hx. clearbody e1. clear Hc Hx.
  destruct (decide (_ /\ _)) as [[_ Hnil]|].
  - unfold append_flags, append_value, env_get in *. cbn [vars]. split; [by simplify_map_eq|].
    split; [simplify_map_eq; rewrite Hnil; by rewrite <- app_assoc|].
    intros v Hnv. rewrite <- Hv by done. repeat (apply not_elem_of_cons in Hnv as [? Hnv]).
    by rewrite !lookup_insert_ne by done.
  - split; [done|]. by split.
Qed.
End CFlags.

(** ** Witnesses *)

Definition ns3rc_lines : list text :=
  [txt "# modules" ++ [newline]; txt "modules_enabled = ['core', # first" ++ [newline];
   txt "'lte']" ++ [newline]; txt "examples_enabled = True" ++ [newline]].
Definition ns3rc_fs : gmap text text := {[txt ".ns3rc" := concat ns3rc_lines]}.
(** An evaluator that returns the text it is given. *)
Definition quote_eval (t : text) : res Ns3rc.py_value := Ok (Ns3rc.PyList [t]).

Lemma get_list_spec_witness :
  Ns3rc.get_list_from_file quote_eval ns3rc_fs (txt ".ns3rc") (txt "modules_enabled")
    = Ok (Ns3rc.PyList [txt "['core', 'lte']"]).
Proof.
  rewrite (Ns3rc.get_list_spec quote_eval ns3rc_fs (txt ".ns3rc") (txt "modules_enabled")
    [txt "# modules" ++ [newline]] [txt "modules_enabled = ['core', # first" ++ [newline]]
    (txt "'lte']" ++ [newline]) [txt "examples_enabled = True" ++ [newline]] (concat ns3rc_lines)).
  - vm_compute. reflexivity.
  - vm_compute. reflexivity.
  - vm_compute. reflexivity.
  - apply Forall_singleton. vm_compute. reflexivity.
  - eexists. split; [reflexivity|]. vm_compute. reflexivity.
  - apply (bool_decide_unpack _). vm_compute. exact I.
  - apply (bool_decide_unpack _). vm_compute. exact I.
Defined.

Lemma configure_spec_witness : exists e',
  CFlags.configure "release" true (CFlags.Env None (Some "g++") ∅) = Ok e' /\
  CFlags.env_get e' "CXXFLAGS" = ["-O3"; "-g0"; "-Wall"].
Proof.
  destruct (CFlags.configure_spec (CFlags.Env None (Some "g++") ∅) "release" true CFlags.GccTraits
    ["-O3"; "-g0"; "-Wall"] ["NDEBUG"]) as (e' & He & _ & Hx & _).
  - right. split; vm_compute; reflexivity.
  - vm_compute. reflexivity.
  - exists e'. split; [exact He|]. rewrite Hx. vm_compute. reflexivity.
Defined.
