(* ===== verification/Wutils.v ===== *)
(** * [wutils.py]: finding and running programs from waf.

    The task generators and the nodes of waf are records with the paths that the
    code asks for; processes are a parameter. *)
From S2P Require Import Prelude PyString PyDict PyPath PyShlex RadLists.

(** What [bld.env] holds. *)
Record wenv := Wenv {
  NS3_MODULE_PATH : list text; NS3_EXECUTABLE_PATH : list text; VALGRIND : list text; PYTHON : list text }.

(** [Options.options], and [Options.cwd_launch]. *)
Record woptions := Woptions {
  command_template : option text; valgrind : bool; cwd_launch : option text; default_cwd_launch : text }.

(** A task generator: the directories of its sources and of its build, and the
    file of its target. *)
Record task_gen := TaskGen {
  is_ns3_program : bool; tg_name : text; tg_path : text; tg_build_path : text; tg_target : text }.

(** [o or d] for a string that may be [None]. *)
Definition or_else (o : option text) (d : text) : text := match o with None | Some [] => d | Some t => t end.

Definition pathsep : text := txt ":".

Section wutils.
Context (opts : woptions) (env : wenv) (platform cwd : text).
(** [os.environ], and the directories of the Python modules. *)
Context (environ : gmap text text) (pymoddir pyvizdir : text).
Context (all_task_gen : list task_gen) (launch_dir : text).
(** Runs a program with its arguments, environment and directory; gives its exit
    status and what it writes on standard error. *)
Context (popen : list text -> gmap text text -> option text -> res (Z * text)).
(** [WindowsError] is defined. *)
Context (windows : bool).

Definition get_command_template (arguments : list text) : text :=
  foldl (fun cmd arg => cmd ++ txt " " ++ arg) (or_else (command_template opts) (txt "%s")) arguments.

Definition starts_with (s p : text) : bool := bool_decide (p `prefix_of` s).

(** The generator and the names it can be called by. *)
Definition names (obj : task_gen) : res (list text) :=
  rel ← relpath cwd (tg_path obj) (abspath cwd launch_dir);
  Ok [tg_name obj; path_join rel (tg_name obj)].

Fixpoint find_in (program_name : text) (objs : list task_gen) : res task_gen :=
  match objs with
  | [] => Raise ValueError
  | obj :: objs =>
      if is_ns3_program obj &&
         (starts_with (tg_path obj) (abspath cwd launch_dir) || starts_with (tg_build_path obj) (abspath cwd launch_dir)) then
        ns ← names obj;
        if decide (program_name ∈ ns) then Ok obj else find_in program_name objs
      else find_in program_name objs
  end.
Definition find_program (program_name : text) : res task_gen := find_in program_name all_task_gen.

(** The variable with the path of the dynamic libraries. *)
Definition pathvar : text :=
  if decide (platform = txt "linux2" \/ platform = txt "linux") then txt "LD_LIBRARY_PATH"
  else if decide (platform = txt "darwin") then txt "DYLD_LIBRARY_PATH"
  else if decide (platform = txt "win32") then txt "PATH"
  else if decide (platform = txt "cygwin") then txt "PATH"
  else txt "LD_LIBRARY_PATH".

(** Puts directories in front of a variable. *)
Definition prepend (key : text) (dirs : list text) (proc_env : gmap text text) : gmap text text :=
  match proc_env !! key with
  | Some old => <[key := join pathsep (dirs ++ [old])]> proc_env
  | None => <[key := join pathsep dirs]> proc_env
  end.

Definition get_proc_env (os_env : option (gmap text text)) : gmap text text :=
  let proc_env := match os_env with Some e => e ∪ environ | None => environ end in
  let proc_env := prepend pathvar (NS3_MODULE_PATH env) proc_env in
  let proc_env := prepend (txt "PYTHONPATH") [pymoddir; pyvizdir] proc_env in
  prepend (txt "PATH") (NS3_EXECUTABLE_PATH env) proc_env.

(** [for line in stderrdata] goes through the characters of a string. *)
Definition leak_reported (stderrdata : text) : bool :=
  existsb (fun line => occurs (txt "== LEAK SUMMARY") [line]) stderrdata.

Definition run_argv (argv : list text) (os_env : option (gmap text text)) (dir : option text) (force_no_valgrind : bool)
    : res Z :=
  let proc_env := get_proc_env os_env in
  retval ← (if valgrind opts && negb force_no_valgrind then
              if bool_decide (or_else (command_template opts) [] <> []) then Raise WafError
              else match VALGRIND env with
                   | [] => Raise WafError
                   | v :: _ =>
                       '(retval, stderrdata) ←
                         popen ([v; txt "--leak-check=full"; txt "--show-reachable=yes"; txt "--error-exitcode=1"] ++ argv)
                           proc_env dir;
                       Ok (if (retval =? 0)%Z && leak_reported stderrdata then 1%Z else retval)
                   end
            else match popen argv proc_env dir with
                 | Ok (retval, _) => Ok retval
                 | Raise IOError => Raise (if windows then WafError else IOError)
                 | Raise e => Raise e
                 | NoFuel => NoFuel
                 end);
  if (retval =? 0)%Z then Ok retval else Raise WafError.

(** [find_program], with [ValueError] as [WafError]. *)
Definition find_program' (program_name : text) : res task_gen :=
  match find_program program_name with Raise ValueError => Raise WafError | r => r end.

Definition get_run_program (program_string : text) (template : option text) : res (text * list text) :=
  match template with
  | Some t =>
      if decide (t = txt "%s") then
        argv ← shlex_split program_string;
        program_name ← or_raise IndexError (head argv);
        program_obj ← find_program' program_name;
        Ok (program_name, tg_target program_obj :: tail argv)
      else
        program_obj ← find_program' program_string;
        tmpl ← percent t (tg_target program_obj);
        execvec ← shlex_split (double_backslashes tmpl);
        Ok (program_string, execvec)
  | None =>
      argv ← shlex_split program_string;
      program_name ← or_raise IndexError (head argv);
      program_obj ← find_program' program_name;
      Ok (program_name, tg_target program_obj :: tail argv)
  end.

Definition visual : text := txt "--SimulatorImplementationType=ns3::VisualSimulatorImpl".
Definition launch_cwd : text := or_else (cwd_launch opts) (default_cwd_launch opts).

Definition run_program (program_string : text) (template : option text) (dir : option text) (visualize : bool) : res Z :=
  '(_, execvec) ← get_run_program program_string template;
  let dir := match dir with None => launch_cwd | Some d => d end in
  run_argv (execvec ++ if visualize then [visual] else []) None (Some dir) false.

Definition run_python_program (program_string : text) (visualize : bool) : res Z :=
  execvec ← shlex_split program_string;
  python ← or_raise IndexError (head (PYTHON env));
  run_argv ([python] ++ execvec ++ if visualize then [visual] else []) None (Some launch_cwd) false.
End wutils.

(** [seen.add(x)] gives [None], so that the test is true for new items. *)
Fixpoint uniquify_from (seen : list text) (seq : list text) : list text :=
  match seq with
  | [] => []
  | x :: seq => if decide (x ∈ seen) then uniquify_from seen seq else x :: uniquify_from (x :: seen) seq
  end.
Definition uniquify_list (seq : list text) : list text := uniquify_from [] seq.

(** ** Facts *)

Lemma leak_never s : leak_reported s = false.
Proof.
  unfold leak_reported. induction s as [|c s IH]; [done|]. cbn [existsb]. rewrite IH, orb_false_r.
  unfold occurs. rewrite !bool_decide_eq_false_2; [done|by intros [k Hk]..].
Qed.

Section wutils_spec.
Context (opts : woptions) (env : wenv) (platform cwd : text).
Context (environ : gmap text text) (pymoddir pyvizdir : text).
Context (all_task_gen : list task_gen) (launch_dir : text).
Context (popen : list text -> gmap text text -> option text -> res (Z * text)) (windows : bool).
Notation find_program := (find_program cwd all_task_gen launch_dir).
Notation get_run_program := (get_run_program cwd all_task_gen launch_dir).
Notation get_proc_env := (get_proc_env env platform environ pymoddir pyvizdir).
Notation run_argv := (run_argv opts env platform environ pymoddir pyvizdir popen windows).

(** Under valgrind the exit status is that of valgrind, whatever it writes:
    the leak summary is looked for in single characters and never found. *)
Theorem run_argv_valgrind argv os_env dir v rest status err :
  valgrind opts = true -> or_else (command_template opts) [] = [] -> VALGRIND env = v :: rest ->
  popen ([v; txt "--leak-check=full"; txt "--show-reachable=yes"; txt "--error-exitcode=1"] ++ argv)
    (get_proc_env os_env) dir = Ok (status, err) ->
  run_argv argv os_env dir false = if (status =? 0)%Z then Ok 0%Z else Raise WafError.
Proof.
  intros Hv Ht Hvg Hp. unfold Wutils.run_argv. rewrite Hv, Hvg, bool_decide_eq_false_2 by (intros H; by apply H).
  cbn [negb andb]. rewrite Hp. cbn [mbind result_bind]. rewrite leak_never, andb_false_r.
  destruct (Z.eqb_spec status 0); [by subst|done].
Qed.

(** *** The environment of the process *)

Lemma prepend_ne key key' dirs e : key <> key' -> prepend key dirs e !! key' = e !! key'.
Proof. intros Hk. unfold prepend. destruct (e !! key); by rewrite lookup_insert_ne. Qed.
Lemma prepend_eq key dirs e :
  prepend key dirs e !! key = Some (join pathsep (dirs ++ match e !! key with Some old => [old] | None => [] end)).
Proof. unfold prepend. destruct (e !! key); rewrite lookup_insert_eq; [done|by rewrite app_nil_r]. Qed.

(** Where libraries are not searched in [PATH]: the three variables are extended
    in front, the others are those of the caller and then of the system. *)
Lemma get_proc_env_lookup os_env key : pathvar platform <> txt "PATH" ->
  let base := match os_env with Some e => e ∪ environ | None => environ end in
  let old := match base !! key with Some v => [v] | None => [] end in
  get_proc_env os_env !! key =
    if decide (key = txt "PATH") then Some (join pathsep (NS3_EXECUTABLE_PATH env ++ old))
    else if decide (key = txt "PYTHONPATH") then Some (join pathsep ([pymoddir; pyvizdir] ++ old))
    else if decide (key = pathvar platform) then Some (join pathsep (NS3_MODULE_PATH env ++ old))
    else base !! key.
Proof.
  intros Hp base old. unfold Wutils.get_proc_env. fold base.
  assert (pathvar platform <> txt "PYTHONPATH") as Hpp by (unfold pathvar; repeat case_decide; done).
  repeat case_decide; subst; rewrite ?prepend_eq, ?prepend_ne, ?prepend_eq, ?prepend_ne by done; try done.
  all: rewrite ?prepend_eq, ?prepend_ne by done; try done.
Qed.

(** *** Finding a program *)

(** The generators that are considered. *)
Definition candidate (obj : task_gen) : bool :=
  is_ns3_program obj &&
  (starts_with (tg_path obj) (abspath cwd launch_dir) || starts_with (tg_build_path obj) (abspath cwd launch_dir)).
Definition called (program_name : text) (obj : task_gen) : Prop :=
  exists ns, names cwd launch_dir obj = Ok ns /\ program_name ∈ ns.

Lemma find_program_first program_name obj :
  find_program program_name = Ok obj ->
  exists before after, all_task_gen = before ++ obj :: after /\ candidate obj = true /\ called program_name obj /\
    Forall (fun o => candidate o = false \/ ~ called program_name o) before.
Proof.
  unfold Wutils.find_program. induction all_task_gen as [|o objs IH]; intros H; [done|]. cbn [find_in] in H.
  change (is_ns3_program o && _) with (candidate o) in H. destruct (candidate o) eqn:Hc.
  - apply bind_ok in H as (ns & Hns & H). case_decide as Hin.
    + injection H as ->. exists [], objs. split; [done|]. split; [done|]. split; [by exists ns|constructor].
    + destruct (IH H) as (before & after & -> & ? & ? & Hb). exists (o :: before), after.
      split; [done|]. split; [done|]. split; [done|]. constructor; [|done]. right. intros (ns' & Hns' & ?).
      rewrite Hns in Hns'. injection Hns' as <-. done.
  - destruct (IH H) as (before & after & -> & ? & ? & Hb). exists (o :: before), after.
    split; [done|]. split; [done|]. split; [done|]. constructor; [by left|done].
Qed.

(** Every generator has a directory, so the search does not raise by itself. *)
Lemma find_program_complete program_name obj :
  Forall (fun o => tg_path o <> []) all_task_gen -> obj ∈ all_task_gen -> candidate obj = true -> called program_name obj ->
  exists obj', find_program program_name = Ok obj'.
Proof.
  intros Hp Hobj Hc Hn. unfold Wutils.find_program. induction Hp as [|o objs Ho _ IH]; [by apply not_elem_of_nil in Hobj|].
  cbn [find_in]. change (is_ns3_program o && _) with (candidate o).
  assert (exists ns, names cwd launch_dir o = Ok ns) as [ns Hns].
  { unfold names, relpath. destruct (tg_path o); [done|]. by eexists. }
  rewrite Hns. cbn [mbind result_bind]. apply elem_of_cons in Hobj as [<-|Hobj].
  - rewrite Hc. destruct Hn as (ns' & Hns' & Hin). rewrite Hns in Hns'. injection Hns' as <-. rewrite decide_True by done. by eexists.
  - destruct (candidate o); [|by apply IH]. case_decide; [by eexists|by apply IH].
Qed.

(** *** The command that is run *)

Definition no_percent (t : text) : Prop := "%"%char ∉ t.

Lemma percent_plain arg a rest : no_percent a ->
  percent_from arg (a ++ rest) = (r ← percent_from arg rest; Ok (a ++ r)).
Proof.
  induction a as [|c a IH]; intros Ha; [cbn; by destruct (percent_from arg rest)|].
  apply not_elem_of_cons in Ha as [Hc Ha]. cbn [app]. 
  assert (forall t, percent_from arg (c :: t) = (r ← percent_from arg t; Ok (c :: r))) as ->.
  { intros t. cbn. repeat (case_match; try congruence); done. }
  rewrite IH by done. by destruct (percent_from arg rest).
Qed.

Lemma percent_hole a b arg : no_percent a -> no_percent b -> percent (a ++ txt "%s" ++ b) arg = Ok (a ++ arg ++ b).
Proof.
  intros Ha Hb. unfold percent. rewrite percent_plain by done. cbn.
  assert (percent_from None b = Ok b) as ->; [|done].
  rewrite <- (app_nil_r b) at 1. rewrite percent_plain by done. cbn. by rewrite app_nil_r.
Qed.

Lemma join_words_hole pre post : Forall no_percent pre -> Forall no_percent post ->
  exists a b, no_percent a /\ no_percent b /\ forall w, join_words (pre ++ w :: post) = a ++ w ++ b.
Proof.
  intros Hpre Hpost. assert (exists b, no_percent b /\ forall w, join_words (w :: post) = w ++ b) as (b & Hb & Hw).
  { destruct post as [|v post]; [exists []; split; [apply not_elem_of_nil|intros; by rewrite app_nil_r]|].
    exists (space :: join_words (v :: post)). split; [|done].
    apply not_elem_of_cons. split; [done|]. clear pre Hpre. revert Hpost.
    generalize (v :: post). intros l Hl. induction Hl as [|u l Hu Hl IH]; [apply not_elem_of_nil|].
    destruct l as [|t l]; [done|]. change (join_words _) with (u ++ [space] ++ join_words (t :: l)).
    unfold no_percent in *. rewrite !not_elem_of_app. split; [done|]. split; [|done].
    apply not_elem_of_cons. split; [done|apply not_elem_of_nil]. }
  induction Hpre as [|u pre Hu Hpre IH]; [exists [], b; split; [apply not_elem_of_nil|]; by split|].
  destruct IH as (a & b' & Ha & Hb' & Hj). exists (u ++ [space] ++ a), b'. split; [|split; [done|]].
  - unfold no_percent in *. rewrite !not_elem_of_app. split; [done|]. split; [|done].
    apply not_elem_of_cons. split; [done|apply not_elem_of_nil].
  - intros w. rewrite <- !app_assoc, <- Hj. by destruct pre.
Qed.

Lemma join_words_length ws : (length ws <= S (length (join_words ws)))%nat.
Proof.
  induction ws as [|w ws IH]; [cbn; lia|]. destruct ws as [|v ws]; [cbn; lia|].
  change (join_words (w :: v :: ws)) with (w ++ [space] ++ join_words (v :: ws)). rewrite !length_app. cbn [length] in *. lia.
Qed.

(** The program is found by the first word and run with the other words as
    they are.  With a template, its words are run with the file of the program in
    the place of [%s], and backslashes in them stand for themselves. *)
Theorem get_run_program_spec program_name obj : find_program program_name = Ok obj ->
  (forall args template, template = None \/ template = Some (txt "%s") ->
     Forall (fun w => safe_word w /\ backslash ∉ w) (program_name :: args) ->
     get_run_program (join_words (program_name :: args)) template = Ok (program_name, tg_target obj :: args)) /\
  (forall pre post, pre ++ post <> [] -> Forall safe_word (pre ++ tg_target obj :: post) ->
     Forall no_percent (pre ++ post) ->
     get_run_program program_name (Some (join_words (pre ++ txt "%s" :: post))) =
       Ok (program_name, pre ++ tg_target obj :: post)).
Proof.
  intros Hf. assert (find_program' cwd all_task_gen launch_dir program_name = Ok obj) as Hf'.
  { unfold find_program'. by rewrite Hf. }
  split.
  - intros args template Ht Hw.
    enough ((argv ← shlex_split (join_words (program_name :: args));
             name ← or_raise IndexError (head argv);
             program_obj ← find_program' cwd all_task_gen launch_dir name;
             Ok (name, tg_target program_obj :: tail argv)) = Ok (program_name, tg_target obj :: args)) as H.
    { unfold Wutils.get_run_program. destruct Ht as [-> | ->]; [done|]. by rewrite decide_True. }
    rewrite shlex_plain by done. cbn [mbind result_bind or_raise head tail]. by rewrite Hf'.
  - intros pre post Hne Hs Hp. apply Forall_app in Hp as [Hp1 Hp2].
    destruct (join_words_hole pre post Hp1 Hp2) as (a & b & Ha & Hb & Hj).
    unfold Wutils.get_run_program. rewrite decide_False.
    + rewrite Hf'. cbn [mbind result_bind]. rewrite Hj, percent_hole by done. cbn [mbind result_bind].
      rewrite <- Hj, shlex_doubled by done. done.
    + intros Heq. rewrite Hj in Heq. apply (f_equal length) in Heq. rewrite !length_app in Heq. cbn in Heq.
      pose proof (join_words_length (pre ++ [] :: post)) as Hl. rewrite Hj, !length_app in Hl. cbn in Hl.
      apply Hne, nil_length_inv. rewrite length_app. lia.
Qed.

(** [uniquify_list] keeps the first occurrence of every item, as [uniquify]
    of rad_util does when the order is to be preserved. *)
Theorem uniquify_list_spec seq : uniquify_list seq = first_occurrences seq.
Proof.
  enough (forall seen, uniquify_from seen seq = filter (fun x => x ∉ seen) (first_occurrences seq)) as H.
  { unfold uniquify_list. rewrite H. apply filter_id, Forall_forall. intros. apply not_elem_of_nil. }
  induction seq as [|x seq IH]; intros seen; [done|]. cbn [uniquify_from first_occurrences].
  case_decide as Hx; rewrite IH, filter_cons, list_filter_filter.
  - rewrite decide_False by tauto. apply list_filter_iff. intros y. split; [|tauto]. intros Hy. split; [done|].
    by intros ->.
  - rewrite decide_True by done. f_equal. apply list_filter_iff. intros y. rewrite not_elem_of_cons. tauto.
Qed.
End wutils_spec.

(** ** Examples *)

Definition demo_gen (name path : text) : task_gen := TaskGen true name path (txt "/ns/build" ++ path) (txt "/ns/build/" ++ name).
Definition demo_gens : list task_gen := [demo_gen (txt "first") (txt "/ns/examples"); demo_gen (txt "udp") (txt "/ns/examples2")].

(** A directory that only starts like the launch directory is searched too. *)
Example find_outside :
  find_program (txt "/ns/examples") demo_gens (txt "/ns/examples") (txt "udp") = Ok (demo_gen (txt "udp") (txt "/ns/examples2")).
Proof. vm_compute. reflexivity. Qed.

Lemma get_run_program_spec_witness :
  get_run_program (txt "/ns") demo_gens (txt "/ns") (txt "first --nodes=2") None =
    Ok (txt "first", [txt "/ns/build/first"; txt "--nodes=2"]) /\
  get_run_program (txt "/ns") demo_gens (txt "/ns") (txt "examples/udp") None = Raise WafError /\
  get_run_program (txt "/ns") demo_gens (txt "/ns") (txt "first") (Some (txt "gdb --args %s a\b")) =
    Ok (txt "first", [txt "gdb"; txt "--args"; txt "/ns/build/first"; txt "a\b"]).
Proof.
  destruct (get_run_program_spec (txt "/ns") demo_gens (txt "/ns") (txt "first") (demo_gen (txt "first") (txt "/ns/examples")))
    as [H1 H2]; [vm_compute; reflexivity|].
  assert (forall w, forallb safe_char w && bool_decide (w <> []) = true -> safe_word w) as Hsafe.
  { intros w [Hf Hn%bool_decide_eq_true]%andb_true_iff. split; [exact Hn|].
    apply Forall_forall. intros c Hc. by apply (proj1 (forallb_forall _ _) Hf), list_elem_of_In. }
  split; [|split].
  - refine (H1 [txt "--nodes=2"] None (or_introl eq_refl) _).
    repeat constructor; try (apply Hsafe; reflexivity); apply (bool_decide_unpack (_ ∉ _)); exact I.
  - vm_compute. reflexivity.
  - refine (H2 [txt "gdb"; txt "--args"] [txt "a\b"] _ _ _); [discriminate| |].
    + repeat constructor; apply Hsafe; reflexivity.
    + repeat constructor; apply (bool_decide_unpack (_ ∉ _)); exact I.
Defined.

(** A program that leaks but ends with status 0. *)
Definition leaking (argv : list text) (e : gmap text text) (dir : option text) : res (Z * text) :=
  Ok (0%Z, txt "==1== LEAK SUMMARY:" ++ [newline]).
Lemma run_argv_valgrind_witness :
  run_argv (Woptions None true None []) (Wenv [] [] [txt "valgrind"] []) (txt "linux") ∅ [] [] leaking false
    [txt "prog"] None None false = Ok 0%Z.
Proof.
  exact (run_argv_valgrind (Woptions None true None []) (Wenv [] [] [txt "valgrind"] []) (txt "linux") ∅ [] [] leaking false
    [txt "prog"] None None (txt "valgrind") [] 0%Z (txt "==1== LEAK SUMMARY:" ++ [newline]) eq_refl eq_refl eq_refl eq_refl).
Defined.
