(* ===== verification/WafModules.v ===== *)
(** * The choice of modules of the build: [wscript] and [src/wscript].

    [configure] chooses the modules that are enabled and takes out those that cannot be
    built; [build] adds what they depend on (the loop [while changed]).  Waf is a
    parameter. *)
From S2P Require Import Prelude PyString PyPath BuildConfig Wutils.
Import Ns3rc.

Definition ns3_name (module : text) : text := txt "ns3-" ++ module.

(** [name.startswith('ns3-')] *)
Definition is_ns3 (name : text) : bool := starts_with name (txt "ns3-").

(** ** [configure]: the modules that are enabled *)

(** [conf.env].  With [all_modules] the lists of enabled modules are the lists of
    all modules, the same objects: [shared]. *)
Record module_env := ModuleEnv {
  NS3_MODULES : list text; NS3_CONTRIBUTED_MODULES : list text;
  NS3_ENABLED_MODULES : list text; NS3_ENABLED_CONTRIBUTED_MODULES : list text;
  MODULES_NOT_BUILT : list text; shared : bool }.

Definition set_enabled (ms cs : list text) (e : module_env) : module_env :=
  if shared e then ModuleEnv ms cs ms cs (MODULES_NOT_BUILT e) true
  else ModuleEnv (NS3_MODULES e) (NS3_CONTRIBUTED_MODULES e) ms cs (MODULES_NOT_BUILT e) false.

(** The module of a list that a name stands for, with or without its prefix. *)
Definition named_in (known : list text) (name : text) : option text :=
  if bool_decide (name ∈ known) && is_ns3 name then Some name
  else if bool_decide (ns3_name name ∈ known) then Some (ns3_name name) else None.

Definition select_module (e : module_env) (sel : list text * list text) (name : text) : list text * list text :=
  match named_in (NS3_MODULES e) name with
  | Some m => (sel.1 ++ [m], sel.2)
  | None =>
      match named_in (NS3_CONTRIBUTED_MODULES e) name with
      | Some m => (sel.1, sel.2 ++ [m])
      | None => sel
      end
  end.
Definition select_modules (mods : list text) (e : module_env) : module_env :=
  let '(ms, cs) := foldl (select_module e) ([], []) mods in
  ModuleEnv (NS3_MODULES e) (NS3_CONTRIBUTED_MODULES e) ms cs (MODULES_NOT_BUILT e) false.

(** [enable_modules] is the option, [modules_enabled] the list of the file [.ns3rc]. *)
Definition enable_modules (option : option text) (modules_enabled : list text) (e : module_env) : res module_env :=
  match or_else option [] with
  | [] =>
      first ← or_raise IndexError (head modules_enabled);
      if decide (first = txt "all_modules")
      then Ok (ModuleEnv (NS3_MODULES e) (NS3_CONTRIBUTED_MODULES e) (NS3_MODULES e) (NS3_CONTRIBUTED_MODULES e)
                 (MODULES_NOT_BUILT e) true)
      else Ok (select_modules modules_enabled e)
  | names => Ok (select_modules (split_on ","%char names) e)
  end.

Definition exclude_not_built (e : module_env) (not_built : text) : res module_env :=
  let not_built_name := ns3_name not_built in
  if decide (not_built_name ∈ NS3_ENABLED_MODULES e) then
    let ms := remove_first not_built_name (NS3_ENABLED_MODULES e) in
    match ms with
    | [] => Raise WafError
    | _ => Ok (set_enabled ms (NS3_ENABLED_CONTRIBUTED_MODULES e) e)
    end
  else if decide (not_built_name ∈ NS3_ENABLED_CONTRIBUTED_MODULES e) then
    Ok (set_enabled (NS3_ENABLED_MODULES e) (remove_first not_built_name (NS3_ENABLED_CONTRIBUTED_MODULES e)) e)
  else Ok e.

(** [template] is not built in a static build on Darwin. *)
Definition without_template (static_darwin : bool) (e : module_env) : module_env :=
  ModuleEnv (NS3_MODULES e) (NS3_CONTRIBUTED_MODULES e) (NS3_ENABLED_MODULES e) (NS3_ENABLED_CONTRIBUTED_MODULES e)
    (MODULES_NOT_BUILT e ++ if static_darwin then [txt "template"] else []) (shared e).

Definition configure_modules (option : option text) (modules_enabled : list text) (static_darwin : bool) (e : module_env)
    : res module_env :=
  e ← enable_modules option modules_enabled e;
  let e := without_template static_darwin e in
  for_each exclude_not_built (MODULES_NOT_BUILT e) e.

(** Whether tests, or examples, are built, and why. *)
Definition decide_feature (enable disable enabled_in_file file_exists : bool) (what : text) : bool * text :=
  if enable then (true, txt "option --enable-" ++ what ++ txt " selected")
  else if disable then (false, txt "option --disable-" ++ what ++ txt " selected")
  else (enabled_in_file,
        if file_exists then txt "based on configuration file"
        else if enabled_in_file then txt "defaults to enabled" else txt "defaults to disabled").

Record feature := Feature { f_name : text; f_caption : text; was_enabled : bool; reason_not_enabled : text }.
Definition report_optional_feature (f : feature) (fs : list feature) : list feature := fs ++ [f].
Fixpoint check_optional_feature (name : text) (fs : list feature) : res bool :=
  match fs with
  | [] => Raise KeyError
  | f :: fs => if decide (f_name f = name) then Ok (was_enabled f) else check_optional_feature name fs
  end.

(** ** [build]: the modules they depend on *)

(** The enabled modules, and the enabled contributed modules. *)
Abbreviation selection := (list text * list text)%type.
Definition is_enabled (sel : selection) (m : text) : bool := bool_decide (m ∈ sel.1) || bool_decide (m ∈ sel.2).

Section closure.
(** [NS3_MODULES] and [NS3_CONTRIBUTED_MODULES]; and the attribute [use] of
    [bld.get_tgen_by_name(module)], which is waf's and may raise or give [None]. *)
Context (modules contributed : list text).
Context (get_tgen_by_name : text -> py_exn + option (list text)).

Definition add_dependency (st : selection * bool) (dep : text) : res (selection * bool) :=
  let '(sel, changed) := st in
  if negb (is_ns3 dep) then Ok st
  else if is_enabled sel dep then Ok st
  else if decide (dep ∈ modules) then Ok ((sel.1 ++ [dep], sel.2), true)
  else if decide (dep ∈ contributed) then Ok ((sel.1, sel.2 ++ [dep]), true)
  else Raise (SystemExit 1).

Definition add_dependencies (st : selection * bool) (module : text) : res (selection * bool) :=
  match get_tgen_by_name module with
  | inl e => Raise e
  | inr None => Raise ValueError
  | inr (Some use) => for_each add_dependency use st
  end.

(** One round of [while changed]. *)
Definition closure_round (sel : selection) : res (selection + selection) :=
  '(sel', changed) ← for_each add_dependencies (sel.1 ++ sel.2) (sel, false);
  Ok (if changed : bool then inl sel' else inr sel').

Definition enable_dependencies (sel : selection) : res selection :=
  loop (S (length modules + length contributed)) closure_round sel.
End closure.

(** ** [get_build_profile]: the profile in the lock file of waf *)

(** [optkey, optval = x.split(':')] *)
Definition option_pair (x : text) : res (text * text) :=
  match split_on ":"%char x with [k; v] => Ok (k, v) | _ => Raise ValueError end.
Fixpoint find_profile (xs : list text) : res (option text) :=
  match xs with
  | [] => Ok None
  | x :: xs =>
      '(optkey, optval) ← option_pair x;
      if decide (lstrip is_space optkey = txt "'build_profile'")
      then Ok (Some (filter (fun c => c <> "'"%char) (lstrip is_space optval))) else find_profile xs
  end.
Fixpoint get_build_profile (lines : list text) : res text :=
  match lines with
  | [] => Ok (txt "not found")
  | line :: lines =>
      if starts_with line (txt "options =") then
        val ← or_raise ValueError (snd <$> split_once "="%char line);
        profile ← find_profile (split_on ","%char val);
        match profile with Some p => Ok p | None => get_build_profile lines end
      else get_build_profile lines
  end.

(** *** The closure *)

Section closure_facts.
Context (modules contributed : list text) (get_tgen_by_name : text -> py_exn + option (list text)).

Definition enabled_in (sel : selection) : list text := sel.1 ++ sel.2.
(** [dep] is a module that [m] uses. *)
Definition uses (m dep : text) : Prop :=
  exists use, get_tgen_by_name m = inr (Some use) /\ dep ∈ use /\ is_ns3 dep = true.
(** What is enabled in the end. *)
Definition needed (sel : selection) (m : text) : Prop := exists m0, m0 ∈ enabled_in sel /\ rtc uses m0 m.

(** Why [e] can be raised. *)
Definition missing (sel : selection) (e : py_exn) : Prop :=
  (exists m, needed sel m /\ get_tgen_by_name m = inl e) \/
  (e = ValueError /\ exists m, needed sel m /\ get_tgen_by_name m = inr None) \/
  (e = SystemExit 1 /\ exists m, needed sel m /\ m ∉ enabled_in sel /\ m ∉ modules /\ m ∉ contributed).

Lemma is_enabled_spec sel m : is_enabled sel m = true <-> m ∈ enabled_in sel.
Proof. unfold is_enabled, enabled_in. by rewrite orb_true_iff, !bool_decide_eq_true, elem_of_app. Qed.

(** What is added to a selection: modules that were not there, each in its list. *)
Definition added (sel : selection) (ab : selection) : Prop :=
  NoDup (enabled_in ab) /\ (forall m, m ∈ enabled_in ab -> m ∉ enabled_in sel) /\
  (forall m, m ∈ ab.1 -> m ∈ modules) /\ (forall m, m ∈ ab.2 -> m ∈ contributed /\ m ∉ modules).
Definition plus (sel ab : selection) : selection := (sel.1 ++ ab.1, sel.2 ++ ab.2).

Lemma elem_of_plus sel ab m : m ∈ enabled_in (plus sel ab) <-> m ∈ enabled_in sel \/ m ∈ enabled_in ab.
Proof. unfold enabled_in, plus. cbn. rewrite !elem_of_app. tauto. Qed.

Lemma added_length sel ab : added sel ab -> length (enabled_in ab) <= length modules + length contributed.
Proof.
  intros (Hnd & _ & H1 & H2). rewrite <- length_app. apply submseteq_length, NoDup_submseteq; [done|].
  intros m [Hm|Hm]%elem_of_app; apply elem_of_app; [left; auto|right; by apply H2].
Qed.

(** The selection [sel0] has grown to [st], by modules that it needs. *)
Record grown (sel0 : selection) (st : selection * bool) (ab : selection) : Prop := Grown {
  gr_sel : st.1 = plus sel0 ab;
  gr_added : added sel0 ab;
  gr_needed : forall m, m ∈ enabled_in ab -> needed sel0 m
}.

Lemma enabled_in_snoc1 a b d : enabled_in (a ++ [d], b) ≡ₚ d :: enabled_in (a, b).
Proof. unfold enabled_in. cbn. solve_Permutation. Qed.
Lemma enabled_in_snoc2 a b d : enabled_in (a, b ++ [d]) ≡ₚ d :: enabled_in (a, b).
Proof. unfold enabled_in. cbn. solve_Permutation. Qed.

Lemma grown_refl sel b : grown sel (sel, b) ([], []).
Proof.
  split; [unfold plus; cbn; rewrite !app_nil_r; by destruct sel| |intros m; cbn; by rewrite elem_of_nil].
  repeat split; cbn; try constructor; intros; by set_solver.
Qed.

(** One more module joins, at the end of the list it belongs to. *)
Lemma grown_snoc sel0 sel b b' ab ab' d : grown sel0 (sel, b) ab -> needed sel0 d -> d ∉ enabled_in sel ->
  (ab' = (ab.1 ++ [d], ab.2) /\ d ∈ modules) \/ (ab' = (ab.1, ab.2 ++ [d]) /\ d ∈ contributed /\ d ∉ modules) ->
  grown sel0 (plus sel0 ab', b') ab' /\ enabled_in ab' ≡ₚ d :: enabled_in ab.
Proof.
  intros [Hsel (Hdup & Hdis & H1 & H2) Hnee] Hn Hd Hab'. cbn in Hsel. rewrite Hsel, elem_of_plus in Hd.
  assert (enabled_in ab' ≡ₚ d :: enabled_in ab) as Hp.
  { destruct ab, Hab' as [[-> _]|[-> _]]; [apply enabled_in_snoc1|apply enabled_in_snoc2]. }
  split; [|done]. split; [done| |].
  - split; [rewrite Hp; apply NoDup_cons; tauto|]. split; [intros m; rewrite Hp; set_solver|].
    destruct Hab' as [[-> ?]|[-> ?]]; cbn; set_solver.
  - intros m. rewrite Hp, elem_of_cons. intros [->|Hm]; auto.
Qed.

Lemma grown_needed sel0 st ab m : grown sel0 st ab -> m ∈ enabled_in st.1 -> needed sel0 m.
Proof.
  intros H. rewrite (gr_sel _ _ _ H), elem_of_plus. intros [Hm|Hm]; [exists m; by split|by apply (gr_needed _ _ _ H)].
Qed.

Lemma needed_step sel m d : needed sel m -> uses m d -> needed sel d.
Proof. intros (m0 & Hm & Hr) Hu. exists m0. split; [done|]. by eapply rtc_r. Qed.

(** A step keeps what is enabled, and [changed] says whether it added anything. *)
Definition step_of (st st' : selection * bool) (n n' : nat) : Prop :=
  (forall m, m ∈ enabled_in st.1 -> m ∈ enabled_in st'.1) /\ n <= n' /\
  (if st'.2 then st.2 = true \/ n < n' else st' = st).

Lemma step_of_refl st n : step_of st st n n.
Proof. split; [done|]. split; [done|]. destruct st as [? []]; cbn; auto. Qed.
Lemma step_of_trans st1 st2 st3 n1 n2 n3 : step_of st1 st2 n1 n2 -> step_of st2 st3 n2 n3 -> step_of st1 st3 n1 n3.
Proof.
  intros (Hm & Hn & Hc) (Hm' & Hn' & Hc'). split; [auto|]. split; [lia|]. destruct (st3.2) eqn:H3.
  - destruct Hc' as [H2|]; [|right; lia]. rewrite H2 in Hc. destruct Hc; [auto|right; lia].
  - subst st3. by rewrite H3 in Hc.
Qed.

(** What [add_dependency] and the loops around it do to a selection that has grown
    from [sel0]: [P] holds of the new one. *)
Definition grows sel0 (st : selection * bool) (ab : selection) (P : selection -> Prop) (r : res (selection * bool)) : Prop :=
  match r with
  | Ok st' => exists ab', grown sel0 st' ab' /\ step_of st st' (length (enabled_in ab)) (length (enabled_in ab')) /\ P st'.1
  | Raise e => missing sel0 e
  | NoFuel => False
  end.

Lemma add_dependency_grows sel0 st ab m d : grown sel0 st ab -> m ∈ enabled_in st.1 ->
  (is_ns3 d = true -> uses m d) ->
  grows sel0 st ab (fun sel => uses m d -> d ∈ enabled_in sel) (add_dependency modules contributed st d).
Proof.
  intros Hg Hm Hu. pose proof (grown_needed _ _ _ m Hg Hm) as Hn. destruct st as [sel changed]. cbn [fst snd add_dependency] in *.
  destruct (is_ns3 d) eqn:Hs; cbn [negb].
  2:{ exists ab. split; [done|]. split; [apply step_of_refl|]. intros (? & _ & _ & Hd). by rewrite Hs in Hd. }
  specialize (Hu eq_refl). pose proof (needed_step _ _ _ Hn Hu) as Hnd.
  destruct (is_enabled sel d) eqn:He.
  { exists ab. split; [done|]. split; [apply step_of_refl|]. intros _. by apply is_enabled_spec. }
  assert (d ∉ enabled_in sel) as Hnew by (rewrite <- is_enabled_spec; by rewrite He).
  assert (forall ab', (ab' = (ab.1 ++ [d], ab.2) /\ d ∈ modules) \/ (ab' = (ab.1, ab.2 ++ [d]) /\ d ∈ contributed /\ d ∉ modules) ->
    grows sel0 (sel, changed) ab (fun sel => uses m d -> d ∈ enabled_in sel) (Ok (plus sel0 ab', true))) as Hadd.
  { intros ab' Hab'. destruct (grown_snoc _ _ _ true _ _ _ Hg Hnd Hnew Hab') as [Hg' Hp]. exists ab'. split; [done|].
    rewrite Hp. split; [|intros _; apply elem_of_plus; right; rewrite Hp; left].
    split; [|split; cbn; [lia|right; lia]]. intros x Hx. cbn in *. pose proof (gr_sel _ _ _ Hg) as Hsel. cbn in Hsel.
    rewrite Hsel in Hx. apply elem_of_plus in Hx. apply elem_of_plus. rewrite Hp, elem_of_cons. tauto. }
  pose proof (gr_sel _ _ _ Hg) as Hsel. cbn in Hsel.
  destruct (decide (d ∈ modules)) as [Hd|Hd]; [|destruct (decide (d ∈ contributed)) as [Hc|Hc]].
  - replace (sel.1 ++ [d], sel.2) with (plus sel0 (ab.1 ++ [d], ab.2)); [apply Hadd; by left|].
    rewrite Hsel. unfold plus. cbn. by rewrite app_assoc.
  - replace (sel.1, sel.2 ++ [d]) with (plus sel0 (ab.1, ab.2 ++ [d])); [apply Hadd; by right|].
    rewrite Hsel. unfold plus. cbn. by rewrite app_assoc.
  - right. right. split; [done|]. exists d. split; [done|]. split; [|done]. intros Hd0. apply Hnew.
    rewrite Hsel. apply elem_of_plus. by left.
Qed.

(** A loop whose rounds make a selection grow. *)
Lemma for_each_grows {X} sel0 (f : selection * bool -> X -> res (selection * bool)) (Q : X -> selection -> Prop) l :
  (forall x sel sel', (forall m, m ∈ enabled_in sel -> m ∈ enabled_in sel') -> Q x sel -> Q x sel') ->
  forall st ab, grown sel0 st ab ->
  (forall x st' ab', x ∈ l -> grown sel0 st' ab' -> (forall m, m ∈ enabled_in st.1 -> m ∈ enabled_in st'.1) ->
     grows sel0 st' ab' (Q x) (f st' x)) ->
  grows sel0 st ab (fun sel => Forall (fun x => Q x sel) l) (for_each f l st).
Proof.
  intros Hmono. induction l as [|x l IH]; intros st ab Hg Hf; cbn [for_each].
  - exists ab. split; [done|]. split; [apply step_of_refl|constructor].
  - pose proof (Hf x st ab ltac:(left) Hg ltac:(done)) as H1. destruct (f st x) as [st1|e|]; [|done..].
    destruct H1 as (ab1 & Hg1 & Hs1 & HQ). cbn [mbind result_bind].
    specialize (IH st1 ab1 Hg1). destruct (for_each f l st1) as [st2|e|].
    + destruct IH as (ab2 & Hg2 & Hs2 & HQ2).
      { intros y st' ab' Hy Hg' Hm. apply Hf; [by right|done|]. intros m Hin. apply Hm, Hs1, Hin. }
      exists ab2. split; [done|]. split; [by eapply step_of_trans|]. constructor; [|done]. eapply Hmono; [|exact HQ]. apply Hs2.
    + apply IH. intros y st' ab' Hy Hg' Hm. apply Hf; [by right|done|]. intros m Hin. apply Hm, Hs1, Hin.
    + apply IH. intros y st' ab' Hy Hg' Hm. apply Hf; [by right|done|]. intros m Hin. apply Hm, Hs1, Hin.
Qed.

(** [module] was found and all it uses is enabled. *)
Definition served (module : text) (sel : selection) : Prop :=
  (exists use, get_tgen_by_name module = inr (Some use)) /\ forall d, uses module d -> d ∈ enabled_in sel.

Lemma add_dependencies_grows sel0 st ab m : grown sel0 st ab -> m ∈ enabled_in st.1 ->
  grows sel0 st ab (served m) (add_dependencies modules contributed get_tgen_by_name st m).
Proof.
  intros Hg Hm. pose proof (grown_needed _ _ _ m Hg Hm) as Hn. unfold add_dependencies.
  destruct (get_tgen_by_name m) as [e|[use|]] eqn:Hget; [left; by eauto| |right; left; by eauto].
  pose proof (for_each_grows sel0 (add_dependency modules contributed) (fun d sel => uses m d -> d ∈ enabled_in sel) use) as H.
  specialize (H ltac:(cbn; auto) st ab Hg).
  assert (forall d st' ab', d ∈ use -> grown sel0 st' ab' -> (forall x, x ∈ enabled_in st.1 -> x ∈ enabled_in st'.1) ->
    grows sel0 st' ab' (fun sel => uses m d -> d ∈ enabled_in sel) (add_dependency modules contributed st' d)) as Hstep.
  { intros d st' ab' Hd Hg' Hmono. apply add_dependency_grows; [done|auto|]. intros Hp. by exists use. }
  specialize (H Hstep). destruct (for_each _ use st) as [st'|e|]; [|done..].
  destruct H as (ab' & Hg' & Hs & HQ). exists ab'. split; [done|]. split; [done|]. split; [by exists use|].
  intros d Hd. pose proof Hd as (use' & Hget' & Hin & _). rewrite Hget in Hget'. injection Hget' as <-.
  rewrite Forall_forall in HQ. by apply HQ.
Qed.

Lemma closure_round_grows sel0 sel ab : grown sel0 (sel, false) ab ->
  match closure_round modules contributed get_tgen_by_name sel with
  | Ok (inl sel') => exists ab', grown sel0 (sel', false) ab' /\ length (enabled_in ab) < length (enabled_in ab')
  | Ok (inr sel') => sel' = sel /\ Forall (fun m => served m sel) (enabled_in sel)
  | Raise e => missing sel0 e
  | NoFuel => False
  end.
Proof.
  intros Hg. unfold closure_round.
  pose proof (for_each_grows sel0 (add_dependencies modules contributed get_tgen_by_name) served (sel.1 ++ sel.2)) as H.
  specialize (H ltac:(by intros m s s' Hs [? ?]; split; auto) (sel, false) ab Hg).
  assert (forall m st' ab', m ∈ sel.1 ++ sel.2 -> grown sel0 st' ab' ->
    (forall x, x ∈ enabled_in sel -> x ∈ enabled_in st'.1) ->
    grows sel0 st' ab' (served m) (add_dependencies modules contributed get_tgen_by_name st' m)) as Hstep
    by (intros; apply add_dependencies_grows; auto).
  specialize (H Hstep). destruct (for_each _ _ _) as [[sel' changed]| |]; [|done..].
  destruct H as (ab' & [Hs Ha Hn] & (_ & _ & Hc) & HQ). cbn in *. destruct changed.
  - exists ab'. split; [by split|]. by destruct Hc.
  - by injection Hc as ->.
Qed.

(** C28: [enable_dependencies] always ends.  It adds to each of the two lists, after what was
    there, exactly the modules of that list that the enabled ones use, directly or
    not, each once; it raises exactly when a module in use has no generator or is in
    neither list of modules. *)
Theorem enable_dependencies_spec sel :
  match enable_dependencies modules contributed get_tgen_by_name sel with
  | Ok sel' => (exists ab, sel' = plus sel ab /\ added sel ab) /\
      (forall m, m ∈ enabled_in sel' <-> needed sel m) /\ forall e, ~ missing sel e
  | Raise e => missing sel e
  | NoFuel => False
  end.
Proof.
  unfold enable_dependencies. set (n := length modules + length contributed).
  apply (loop_total _ (fun s => exists ab, grown sel (s, false) ab) (fun s => n + length (enabled_in sel) - length (enabled_in s))
    (fun r => match r with Ok sel' => _ | Raise e => missing sel e | NoFuel => False end));
    [|exists ([], []); apply grown_refl|lia].
  intros s (ab & Hg). pose proof (closure_round_grows _ _ _ Hg) as H.
  assert (forall s ab, grown sel (s, false) ab -> length (enabled_in s) = length (enabled_in sel) + length (enabled_in ab)) as Hlen.
  { intros s1 ab1 Hg1. pose proof (gr_sel _ _ _ Hg1) as E. cbn in E. rewrite E. unfold enabled_in, plus. cbn.
    rewrite !length_app. lia. }
  destruct (closure_round _ _ _ s) as [[s'|s']| |]; [| |done..]; cbn.
  - destruct H as (ab' & Hg' & Hlt). split; [by exists ab'|]. rewrite (Hlen _ _ Hg), (Hlen _ _ Hg').
    pose proof (added_length _ _ (gr_added _ _ _ Hg')). lia.
  - destruct H as [-> Hserved]. rewrite Forall_forall in Hserved.
    assert (forall m, m ∈ enabled_in s <-> needed sel m) as Hiff.
    { intros m. split; [by apply (grown_needed _ _ _ m Hg)|]. intros (m0 & Hm & Hr).
      assert (m0 ∈ enabled_in s) as Hm0 by (pose proof (gr_sel _ _ _ Hg) as E; cbn in E; rewrite E, elem_of_plus; by left).
      clear Hm. induction Hr as [m|m1 m2 m3 Hu _ IH]; [done|]. apply IH. by apply Hserved in Hu. }
    split; [exists ab; split; [exact (gr_sel _ _ _ Hg)|exact (gr_added _ _ _ Hg)]|]. split; [done|].
    intros e [(m & Hm & He)|[(_ & m & Hm & He)|(_ & m & Hm & Hnot & H1 & H2)]]; apply Hiff in Hm.
    1,2: destruct (Hserved m Hm) as [(use & Hu) _]; congruence.
    pose proof (gr_sel _ _ _ Hg) as E. cbn in E. rewrite E, elem_of_plus in Hm.
    destruct Hm as [|Hm]; [done|]. destruct (gr_added _ _ _ Hg) as (_ & _ & Hin1 & Hin2).
    unfold enabled_in in Hm. apply elem_of_app in Hm as [Hm|Hm]; [by apply H1, Hin1|by apply H2, Hin2].
Qed.
End closure_facts.

(** *** What [configure] enables *)

Lemma select_modules_spec names e :
  NS3_ENABLED_MODULES (select_modules names e) = omap (named_in (NS3_MODULES e)) names /\
  NS3_ENABLED_CONTRIBUTED_MODULES (select_modules names e) =
    omap (fun name => match named_in (NS3_MODULES e) name with
                      | Some _ => None | None => named_in (NS3_CONTRIBUTED_MODULES e) name end) names.
Proof.
  unfold select_modules. set (f := fun name => _ : option text).
  enough (forall sel, foldl (select_module e) sel names = (sel.1 ++ omap (named_in (NS3_MODULES e)) names, sel.2 ++ omap f names)) as ->
    by done.
  induction names as [|name names IH]; intros sel; [cbn; rewrite !app_nil_r; by destruct sel|]. cbn [foldl omap list_omap].
  rewrite IH. unfold select_module, f. destruct (named_in (NS3_MODULES e) name); [cbn; by rewrite <- app_assoc|].
  destruct (named_in (NS3_CONTRIBUTED_MODULES e) name); [cbn; by rewrite <- app_assoc|done].
Qed.

(** The lists are consistent: each module once, and the shared lists are the same. *)
Definition env_ok (e : module_env) : Prop :=
  NoDup (NS3_ENABLED_MODULES e) /\ NoDup (NS3_ENABLED_CONTRIBUTED_MODULES e) /\
  (forall m, m ∈ NS3_ENABLED_MODULES e -> m ∉ NS3_ENABLED_CONTRIBUTED_MODULES e) /\
  (shared e = true -> NS3_MODULES e = NS3_ENABLED_MODULES e /\ NS3_CONTRIBUTED_MODULES e = NS3_ENABLED_CONTRIBUTED_MODULES e).

(** The modules of [l] that are built. *)
Definition built (not_built : list text) (l : list text) : list text := filter (fun m => m ∉ ns3_name <$> not_built) l.

Lemma built_cons n nb l : built (n :: nb) l = built nb (filter (fun m => m <> ns3_name n) l).
Proof.
  unfold built. rewrite list_filter_filter. apply list_filter_iff. intros m. rewrite fmap_cons, not_elem_of_cons. tauto.
Qed.

Lemma set_enabled_ok p (Hp : forall x : text, Decision (p x)) e : env_ok e ->
  env_ok (set_enabled (filter p (NS3_ENABLED_MODULES e)) (filter p (NS3_ENABLED_CONTRIBUTED_MODULES e)) e).
Proof.
  intros (H1 & H2 & H3 & H4). unfold env_ok, set_enabled. destruct (shared e) eqn:Hs; cbn.
  all: split; [by apply NoDup_filter|]; split; [by apply NoDup_filter|]; split; [|done].
  all: intros m; rewrite !list_elem_of_filter; intros [_ Hm] [_ Hc]; by apply (H3 m).
Qed.

Lemma set_enabled_twice ms cs ms' cs' e : set_enabled ms cs (set_enabled ms' cs' e) = set_enabled ms cs e.
Proof. unfold set_enabled. by destruct (shared e) eqn:Hs; cbn; rewrite ?Hs. Qed.

Lemma set_enabled_self e : env_ok e -> set_enabled (NS3_ENABLED_MODULES e) (NS3_ENABLED_CONTRIBUTED_MODULES e) e = e.
Proof.
  intros (_ & _ & _ & H). unfold set_enabled. destruct e as [ms cs em ec nb []]; cbn in *; [|done]. by destruct H as [-> ->].
Qed.

Lemma filter_absent (n : text) (l : list text) : n ∉ l -> filter (fun m => m <> n) l = l.
Proof. intros H. apply filter_id, Forall_forall. by intros m Hm ->. Qed.

Lemma exclude_not_built_spec e n : env_ok e ->
  let ms := filter (fun m => m <> ns3_name n) (NS3_ENABLED_MODULES e) in
  let cs := filter (fun m => m <> ns3_name n) (NS3_ENABLED_CONTRIBUTED_MODULES e) in
  exclude_not_built e n =
    if decide (NS3_ENABLED_MODULES e <> [] /\ ms = []) then Raise WafError else Ok (set_enabled ms cs e).
Proof.
  intros (H1 & H2 & H3 & H4) ms cs. unfold exclude_not_built. destruct (decide (ns3_name n ∈ NS3_ENABLED_MODULES e)) as [Hin|Hin].
  - rewrite remove_first_filter by done. fold ms.
    assert (cs = NS3_ENABLED_CONTRIBUTED_MODULES e) as -> by (apply filter_absent; by apply H3).
    destruct ms eqn:Hms; [rewrite decide_True; [done|split; [|done]; by intros E; rewrite E in Hin; apply not_elem_of_nil in Hin]|].
    rewrite decide_False; [done|by intros [_ Hnil]].
  - assert (ms = NS3_ENABLED_MODULES e) as Hms by (by apply filter_absent). clearbody ms. subst ms.
    rewrite (decide_False (P := NS3_ENABLED_MODULES e <> [] /\ _)) by tauto.
    destruct (decide (ns3_name n ∈ NS3_ENABLED_CONTRIBUTED_MODULES e)) as [Hc|Hc]; [by rewrite remove_first_filter by done|].
    assert (cs = NS3_ENABLED_CONTRIBUTED_MODULES e) as -> by (by apply filter_absent). f_equal.
    symmetry. by apply set_enabled_self.
Qed.

(** The modules that cannot be built leave the lists of enabled modules (and those of all
    modules, when they are the same); [WafError] is raised exactly when that leaves no
    module of [src], whatever is left of the contributed ones. *)
Theorem not_built_spec nb e : env_ok e ->
  for_each exclude_not_built nb e =
    if decide (NS3_ENABLED_MODULES e <> [] /\ built nb (NS3_ENABLED_MODULES e) = []) then Raise WafError
    else Ok (set_enabled (built nb (NS3_ENABLED_MODULES e)) (built nb (NS3_ENABLED_CONTRIBUTED_MODULES e)) e).
Proof.
  revert e. induction nb as [|n nb IH]; intros e He; cbn [for_each].
  - assert (forall l, built [] l = l) as Hnil by (intros l; apply filter_id, Forall_forall; intros m _; apply not_elem_of_nil).
    rewrite !Hnil, decide_False by tauto. by rewrite set_enabled_self.
  - rewrite exclude_not_built_spec by done. cbv zeta. rewrite !built_cons.
    set (ms := filter _ (NS3_ENABLED_MODULES e)). set (cs := filter _ (NS3_ENABLED_CONTRIBUTED_MODULES e)).
    case_decide as Hd; cbn [mbind result_bind].
    + destruct Hd as [Hne Hms]. by rewrite decide_True by (by rewrite Hms).
    + rewrite IH by (by apply set_enabled_ok). rewrite set_enabled_twice.
      assert (NS3_ENABLED_MODULES (set_enabled ms cs e) = ms /\ NS3_ENABLED_CONTRIBUTED_MODULES (set_enabled ms cs e) = cs) as [-> ->]
        by (unfold set_enabled; by destruct (shared e)).
      assert (ms <> [] <-> NS3_ENABLED_MODULES e <> []) as Hms.
      { split; [intros H E; apply H; unfold ms; by rewrite E|tauto]. }
      destruct (decide (ms <> [] /\ built nb ms = [])), (decide (NS3_ENABLED_MODULES e <> [] /\ built nb ms = [])); tauto.
Qed.

(** ** Examples *)

Definition core : text := txt "ns3-core".
Definition net : text := txt "ns3-network".
Definition p4 : text := txt "ns3-p4-switch".
Definition demo_env (enabled contributed not_built : list text) : module_env :=
  ModuleEnv [core; net; txt "ns3-template"] [p4] enabled contributed not_built false.

Lemma demo_env_ok : env_ok (demo_env [core; net] [p4] []).
Proof. repeat split; try done; repeat constructor; set_solver. Qed.

Lemma not_built_spec_witness : env_ok (demo_env [core; net] [p4] []) /\
  for_each exclude_not_built [txt "network"; txt "lte"] (demo_env [core; net] [p4] []) = Ok (demo_env [core] [p4] []).
Proof. split; [exact demo_env_ok|]. rewrite (not_built_spec _ _ demo_env_ok). vm_compute. reflexivity. Defined.

(** A contributed module is left, but [WafError] says that there is none. *)
Example only_core_counts : for_each exclude_not_built [txt "core"] (demo_env [core] [p4] []) = Raise WafError.
Proof. vm_compute. reflexivity. Qed.
(** A module that is named twice stays enabled though it cannot be built. *)
Example named_twice : NS3_ENABLED_MODULES <$>
  configure_modules (Some (txt "core,template,ns3-template")) [] false (demo_env [] [] [txt "template"]) =
  Ok [core; txt "ns3-template"].
Proof. vm_compute. reflexivity. Qed.
(** With all modules enabled the list of all modules is changed, too. *)
Example all_modules_shared : NS3_MODULES <$> configure_modules None [txt "all_modules"] true (demo_env [] [] []) = Ok [core; net].
Proof. vm_compute. reflexivity. Qed.
(** An unknown name is ignored. *)
Example unknown_ignored : NS3_ENABLED_MODULES <$> configure_modules (Some (txt "coer")) [] false (demo_env [] [] []) = Ok [].
Proof. vm_compute. reflexivity. Qed.

Example profile_found : get_build_profile [txt "top_dir = '/ns3'"; txt "options = {'jobs': 4, 'build_profile': 'debug', 'out': 'build'}"] =
  Ok (txt "debug").
Proof. vm_compute. reflexivity. Qed.
(** An option before it whose value has a comma or a colon. *)
Example profile_raises : get_build_profile [txt "options = {'files': ['a', 'b'], 'build_profile': 'debug'}"] = Raise ValueError.
Proof. vm_compute. reflexivity. Qed.
