(* ===== verification/WafBuild.v ===== *)
(** * What waf builds: [build] in [wscript].

    The task generators of modules that are not enabled leave the build, and so does
    what needs them; the rest is listed as runnable.  Waf and the wscripts of the
    subdirectories are parameters. *)
From S2P Require Import Prelude PyString PyPath Wutils WafModules.

(** ** [build]: what is excluded, and what can be run *)

(** A task generator, with the attributes that [build] looks at; [None] is a missing
    attribute. *)
Record generator := Generator {
  g_features : text; g_name : text; g_module : option text; is_ns3_module : bool;
  test_library_of : option text; ns3_module_dependencies : option (list text); g_use : list text;
  g_directory : text; g_mode : option text }.

(** [create_ns3_module], without the flags of the compilers and the paths: the module,
    and the generator of its description for pkg-config. *)
Definition create_ns3_module (static : bool) (name : text) (dependencies : list text) (dir : text) : generator * generator :=
  (Generator (if static then txt "cxx cxxstlib ns3module" else txt "cxx cxxshlib ns3module")
     (ns3_name name) None true None None (ns3_name <$> dependencies) dir None,
   Generator (txt "ns3pcfile") [] (Some (ns3_name name)) false None None [] dir None).
(** [create_ns3_module_test_library]: it is no module, and depends on the one it tests;
    with its entry of [NS3_MODULES_WITH_TEST_LIBRARIES]. *)
Definition create_ns3_module_test_library (static : bool) (name : text) (dir : text) : generator * generator * (text * text) :=
  let '(library, pcfile) := create_ns3_module static (name ++ txt "-test") [name] dir in
  (Generator (g_features library ++ txt " ns3testlib") (g_name library) None false (Some (ns3_name name)) None
     (g_use library) dir None, pcfile, (ns3_name name, g_name library)).
Definition create_ns3_program (name : text) (dependencies : list text) (dir : text) : generator :=
  Generator (txt "cxx cxxprogram") name None false None (Some (ns3_name <$> dependencies)) (ns3_name <$> dependencies) dir None.

(** [create_suid_program]: it declares no modules. *)
Definition create_suid_program (name : text) (dir : text) : generator :=
  Generator (txt "cxx cxxprogram") name None false None None [] dir None.

(** The build: the generators by number, their groups, and the lists of [bld.env]. *)
Record bld := Bld {
  generators : gmap nat generator; groups : list (list nat);
  enabled_modules : selection; ENABLE_TESTS : bool; ENABLE_EXAMPLES : bool;
  NS3_MODULES_WITH_TEST_LIBRARIES : list (text * text); NS3_ENABLED_MODULE_TEST_LIBRARIES : list text;
  NS3_SCRIPT_DEPENDENCIES : list (text * list text);
  NS3_RUNNABLE_PROGRAMS : list text; NS3_RUNNABLE_SCRIPTS : list text }.

Definition with_generators gs grps (b : bld) : bld :=
  Bld gs grps (enabled_modules b) (ENABLE_TESTS b) (ENABLE_EXAMPLES b) (NS3_MODULES_WITH_TEST_LIBRARIES b)
    (NS3_ENABLED_MODULE_TEST_LIBRARIES b) (NS3_SCRIPT_DEPENDENCIES b) (NS3_RUNNABLE_PROGRAMS b) (NS3_RUNNABLE_SCRIPTS b).
Definition with_enabled sel libs (b : bld) : bld :=
  Bld (generators b) (groups b) sel (ENABLE_TESTS b) (ENABLE_EXAMPLES b) (NS3_MODULES_WITH_TEST_LIBRARIES b)
    libs (NS3_SCRIPT_DEPENDENCIES b) (NS3_RUNNABLE_PROGRAMS b) (NS3_RUNNABLE_SCRIPTS b).
Definition with_runnable ps ss (b : bld) : bld :=
  Bld (generators b) (groups b) (enabled_modules b) (ENABLE_TESTS b) (ENABLE_EXAMPLES b) (NS3_MODULES_WITH_TEST_LIBRARIES b)
    (NS3_ENABLED_MODULE_TEST_LIBRARIES b) (NS3_SCRIPT_DEPENDENCIES b) ps ss.
(** The lists that [build] starts from. *)
Definition reset_lists (b : bld) : bld :=
  Bld (generators b) (groups b) (enabled_modules b) (ENABLE_TESTS b) (ENABLE_EXAMPLES b) [] [] [] [] [].

Definition all_task_gen (b : bld) : list nat := concat (groups b).

(** The first group that holds the generator loses it. *)
Fixpoint exclude_from (i : nat) (grps : list (list nat)) : list (list nat) :=
  match grps with
  | [] => []
  | grp :: grps => if decide (i ∈ grp) then remove_first i grp :: grps else grp :: exclude_from i grps
  end.
Definition exclude_taskgen (i : nat) (b : bld) : bld := with_generators (generators b) (exclude_from i (groups b)) b.
(** [obj.mode = 'remove'] *)
Definition to_remove (g : generator) : generator :=
  Generator (g_features g) (g_name g) (g_module g) (is_ns3_module g) (test_library_of g) (ns3_module_dependencies g)
    (g_use g) (g_directory g) (Some (txt "remove")).
Definition set_mode_remove (i : nat) (b : bld) : bld :=
  with_generators (alter to_remove i (generators b)) (groups b) b.

Section exclusion.
(** The name of the programs, and the directory that waf was started in. *)
Context (APPNAME VERSION BUILD_SUFFIX cwd launch_dir : text).
Context (modules contribModules : list text).
Definition in_modules (m : text) : bool := bool_decide (m ∈ modules) || bool_decide (m ∈ contribModules).

Definition object_name (g : generator) : text := APPNAME ++ VERSION ++ txt "-" ++ g_name g ++ BUILD_SUFFIX.
Definition object_relative_path (g : generator) : res text :=
  rel ← relpath cwd (g_directory g) (abspath cwd launch_dir); Ok (path_join rel (object_name g)).

(** The headers of a module that is not enabled are removed instead of installed. *)
Definition visit_header (feature : text) (i : nat) (g : generator) (b : bld) : res bld :=
  if occurs feature (g_features g) then
    m ← or_raise AttributeError (g_module g);
    Ok (if in_modules (ns3_name m) then b else set_mode_remove i b)
  else Ok b.
Definition visit_program (i : nat) (g : generator) (b : bld) : res bld :=
  match ns3_module_dependencies g with
  | None => Ok b
  | Some deps =>
      if forallb in_modules deps then
        path ← object_relative_path g;
        Ok (with_runnable (NS3_RUNNABLE_PROGRAMS b ++ [path]) (NS3_RUNNABLE_SCRIPTS b) b)
      else Ok (exclude_taskgen i b)
  end.
Definition visit_module (i : nat) (g : generator) (b : bld) : res bld :=
  Ok (if is_ns3_module g && negb (in_modules (g_name g)) then exclude_taskgen i b else b).
Definition visit_test_library (i : nat) (g : generator) (b : bld) : res bld :=
  Ok match test_library_of g with
     | Some m => if negb (ENABLE_TESTS b) || negb (in_modules m) then exclude_taskgen i b else b
     | None => b
     end.
Definition visit_pcfile (i : nat) (g : generator) (b : bld) : res bld :=
  if occurs (txt "ns3pcfile") (g_features g) then
    m ← or_raise AttributeError (g_module g);
    Ok (if is_enabled (enabled_modules b) m then b else exclude_taskgen i b)
  else Ok b.

Definition visit (b : bld) (i : nat) : res bld :=
  match generators b !! i with
  | None => Ok b
  | Some g =>
      b ← visit_header (txt "ns3moduleheader") i g b;
      b ← visit_program i g b;
      b ← visit_module i g b;
      b ← visit_test_library i g b;
      b ← visit_header (txt "ns3header") i g b;
      b ← visit_header (txt "ns3privateheader") i g b;
      visit_pcfile i g b
  end.

Definition exclude_disabled (b : bld) : res bld := for_each visit (all_task_gen b) b.
End exclusion.

(** ** [build] *)

(** [filename.endswith(suffix)], and the part before it. *)
Definition before_suffix (suffix filename : text) : option text :=
  let n := length filename - length suffix in
  if decide (drop n filename = suffix /\ length suffix <= length filename) then Some (take n filename) else None.

Section build.
Context (APPNAME VERSION BUILD_SUFFIX cwd launch_dir : text).
Context (get_tgen_by_name : bld -> text -> py_exn + option (list text)).
(** Runs the wscript of a directory. *)
Context (recurse : text -> bld -> bld).
(** [bld(...)], which adds a generator to the build. *)
Context (new_generator : generator -> bld -> bld).
(** [os.listdir], which can raise [OSError]; [os.path.isdir]; the directory of the build. *)
Context (listdir : text -> option (list text)) (isdir : text -> bool) (build_dir : text).

Definition hidden (filename : text) : bool := starts_with filename (txt ".") || bool_decide (filename = txt "CVS").

Definition add_examples_programs (b : bld) : bld :=
  if ENABLE_EXAMPLES b then
    foldl (fun b dir =>
        if hidden dir then b
        else if isdir (path_join (txt "examples") dir) then recurse (path_join (txt "examples") dir) b else b)
      b (default [] (listdir (txt "examples")))
  else b.

(** A program of [scratch] depends on all enabled modules; a file has the name of its
    program without [.cc], a directory is a program. *)
Definition scratch_program (all_modules : list text) (filename : text) : option generator :=
  if hidden filename then None
  else if isdir (path_join (txt "scratch") filename) then
    Some (create_ns3_program filename all_modules (path_join (path_join build_dir (txt "scratch")) filename))
  else (fun name => create_ns3_program name all_modules (path_join build_dir (txt "scratch"))) <$> before_suffix (txt ".cc") filename.
Definition add_scratch_programs (b : bld) : bld :=
  let all_modules := drop 4 <$> ((enabled_modules b).1 ++ (enabled_modules b).2) in
  foldl (fun b filename => match scratch_program all_modules filename with Some g => new_generator g b | None => b end)
    b (default [] (listdir (txt "scratch"))).

Definition any_enabled (b : bld) : bool := bool_decide ((enabled_modules b).1 <> [] \/ (enabled_modules b).2 <> []).

(** The libraries with the tests of enabled modules, when tests are built. *)
Definition test_libraries (sel : selection) (b : bld) : list text :=
  if ENABLE_TESTS b
  then omap (fun l => if is_enabled sel l.1 then Some l.2 else None) (NS3_MODULES_WITH_TEST_LIBRARIES b) else [].

Definition add_enabled (modules contributed : list text) (b : bld) : res bld :=
  sel ← enable_dependencies modules contributed (get_tgen_by_name b) (enabled_modules b);
  Ok (with_enabled sel (NS3_ENABLED_MODULE_TEST_LIBRARIES b ++ test_libraries sel b) b).

(** [modules] and [contribModules] are only bound when some module is enabled. *)
Definition script_runnable (modules : option selection) (dependencies : list text) : res bool :=
  match dependencies, modules with
  | [], _ => Ok true
  | _, None => Raise UnboundLocalError
  | _, Some sel => Ok (forallb (is_enabled sel) dependencies)
  end.
Definition runnable_script (modules : option selection) (b : bld) (script : text * list text) : res bld :=
  r ← script_runnable modules script.2;
  Ok (if r : bool then with_runnable (NS3_RUNNABLE_PROGRAMS b) (NS3_RUNNABLE_SCRIPTS b ++ [script.1]) b else b).

(** [utils/wscript]: the programs that are added when the modules are chosen; two need
    [network]. *)
Definition with_use (l : list text) (g : generator) : generator :=
  Generator (g_features g) (g_name g) (g_module g) (is_ns3_module g) (test_library_of g) (ns3_module_dependencies g) l (g_directory g) (g_mode g).
Definition utils_programs (b : bld) : list generator :=
  let dir := path_join build_dir (txt "utils") in
  let modules := (enabled_modules b).1 in
  [with_use (modules ++ NS3_ENABLED_MODULE_TEST_LIBRARIES b) (create_ns3_program (txt "test-runner") [txt "core"] dir);
   create_ns3_program (txt "bench-simulator") [txt "core"] dir] ++
  (if decide (txt "ns3-network" ∈ modules)
   then [create_ns3_program (txt "bench-packets") [txt "network"] dir;
         with_use modules (create_ns3_program (txt "print-introspected-doxygen") [txt "network"] dir)]
   else []).
Definition utils_build (b : bld) : bld := foldl (fun b g => new_generator g b) b (utils_programs b).

(** What [build] does up to the lists that are printed at its end. *)
Definition waf_build (modules contributed : list text) (b : bld) : res bld :=
  let b := recurse (txt "contrib") (recurse (txt "src") (reset_lists b)) in
  let bound := any_enabled b in
  b ← (if bound then add_enabled modules contributed b else Ok b);
  let sel := enabled_modules b in
  let b := add_scratch_programs (add_examples_programs b) in
  let sel := if any_enabled b then Some (enabled_modules b) else if bound then Some sel else None in
  b ← (if any_enabled b
       then exclude_disabled APPNAME VERSION BUILD_SUFFIX cwd launch_dir (enabled_modules b).1 (enabled_modules b).2 b
       else Ok b);
  b ← for_each (runnable_script sel) (NS3_SCRIPT_DEPENDENCIES b) b;
  Ok (utils_build (recurse (txt "bindings/python") b)).
End build.

(** *** What is excluded *)

Section exclusion_facts.
Context (APPNAME VERSION BUILD_SUFFIX cwd launch_dir : text) (sel : selection).
Abbreviation visits := (visit APPNAME VERSION BUILD_SUFFIX cwd launch_dir sel.1 sel.2).

Lemma in_modules_enabled m : in_modules sel.1 sel.2 m = is_enabled sel m.
Proof. done. Qed.

Lemma exclude_from_filter i grps : NoDup (concat grps) ->
  concat (exclude_from i grps) = filter (fun j => j <> i) (concat grps).
Proof.
  induction grps as [|grp grps IH]; cbn; [done|]. rewrite NoDup_app. intros (Hg & Hd & Hgs). rewrite filter_app.
  case_decide as Hi; cbn.
  - rewrite remove_first_filter by done. f_equal.
    symmetry. apply filter_id, Forall_forall. intros j Hj ->. by apply (Hd i).
  - rewrite IH by done. f_equal. symmetry. apply filter_id, Forall_forall. by intros j Hj ->.
Qed.

Definition has (feature : text) (g : generator) : bool := occurs feature (g_features g).
(** The mode of [g] becomes [remove]. *)
Definition header_off (g : generator) : bool :=
  (has (txt "ns3moduleheader") g || has (txt "ns3header") g || has (txt "ns3privateheader") g) &&
  match g_module g with Some m => negb (is_enabled sel (ns3_name m)) | None => false end.
(** [g] leaves the build. *)
Definition dropped (tests : bool) (g : generator) : bool :=
  match ns3_module_dependencies g with Some deps => negb (forallb (is_enabled sel) deps) | None => false end ||
  (is_ns3_module g && negb (is_enabled sel (g_name g))) ||
  match test_library_of g with Some m => negb tests || negb (is_enabled sel m) | None => false end ||
  (has (txt "ns3pcfile") g && match g_module g with Some m => negb (is_enabled sel m) | None => false end).
(** What [g] adds to the programs that can be run. *)
Definition program_path (g : generator) : list text :=
  match ns3_module_dependencies g with
  | Some deps =>
      if forallb (is_enabled sel) deps then
        match object_relative_path APPNAME VERSION BUILD_SUFFIX cwd launch_dir g with Ok p => [p] | _ => [] end
      else []
  | None => []
  end.
(** The attributes that [build] reads are there. *)
Definition complete_generator (g : generator) : Prop :=
  g_directory g <> [] /\
  (has (txt "ns3moduleheader") g || has (txt "ns3header") g || has (txt "ns3privateheader") g || has (txt "ns3pcfile") g = true ->
   is_Some (g_module g)).

(** What a part of the loop does to the build for the generator [i]: whether it excludes
    it, changes its mode, and the programs it adds. *)
Record effect (i : nat) (ex off : bool) (ps : list text) (b b' : bld) : Prop := Effect {
  ef_groups : concat (groups b') = if ex then filter (fun j => j <> i) (concat (groups b)) else concat (groups b);
  ef_generators : generators b' = if off then generators (set_mode_remove i b) else generators b;
  ef_programs : NS3_RUNNABLE_PROGRAMS b' = NS3_RUNNABLE_PROGRAMS b ++ ps;
  ef_rest : exists gs grps, b' = with_runnable (NS3_RUNNABLE_PROGRAMS b') (NS3_RUNNABLE_SCRIPTS b) (with_generators gs grps b)
}.

Lemma effect_none i b : effect i false false [] b b.
Proof. split; [done..| |]; [by rewrite app_nil_r|]. exists (generators b), (groups b). by destruct b. Qed.

Lemma effect_trans i ex1 ex2 off1 off2 ps1 ps2 b b1 b2 :
  effect i ex1 off1 ps1 b b1 -> effect i ex2 off2 ps2 b1 b2 -> effect i (ex1 || ex2) (off1 || off2) (ps1 ++ ps2) b b2.
Proof.
  intros [Hg1 Hs1 Hp1 (gs1 & gr1 & Hr1)] [Hg2 Hs2 Hp2 (gs2 & gr2 & Hr2)]. split.
  - rewrite Hg2, Hg1. destruct ex1, ex2; cbn [orb]; try done. rewrite list_filter_filter. apply list_filter_iff. tauto.
  - rewrite Hs2. destruct off1, off2; cbn [orb]; unfold set_mode_remove; cbn; rewrite Hs1; unfold set_mode_remove; cbn; try done.
    apply map_eq. intros j. rewrite !lookup_alter. destruct (decide (i = j)) as [->|]; [|done].
    rewrite decide_True by done. by destruct (generators b !! j).
  - by rewrite Hp2, Hp1, app_assoc.
  - exists gs2, gr2. rewrite Hr2, Hr1. done.
Qed.

Lemma exclude_effect i b : NoDup (all_task_gen b) -> effect i true false [] b (exclude_taskgen i b).
Proof.
  intros H. split; [by apply exclude_from_filter|done|by rewrite app_nil_r|]. cbn.
  exists (generators b), (exclude_from i (groups b)). by destruct b.
Qed.
Lemma remove_effect i b : effect i false true [] b (set_mode_remove i b).
Proof. split; [done|done|by rewrite app_nil_r|]. cbn.
  exists (alter to_remove i (generators b)), (groups b). by destruct b.
Qed.

Lemma effect_nodup i ex off ps b b' : effect i ex off ps b b' -> NoDup (all_task_gen b) -> NoDup (all_task_gen b').
Proof. intros [Hg _ _ _] H. unfold all_task_gen in *. rewrite Hg. destruct ex; [by apply NoDup_filter|done]. Qed.

(** A part of the loop has its effect and returns. *)
Definition has_effect (i : nat) (ex off : bool) (ps : list text) (b : bld) (r : res bld) : Prop :=
  exists b', r = Ok b' /\ effect i ex off ps b b'.

Lemma has_effect_bind i ex1 ex2 off1 off2 ps1 ps2 b r (f : bld -> res bld) : NoDup (all_task_gen b) ->
  has_effect i ex1 off1 ps1 b r ->
  (forall b', NoDup (all_task_gen b') -> ENABLE_TESTS b' = ENABLE_TESTS b -> enabled_modules b' = enabled_modules b ->
    has_effect i ex2 off2 ps2 b' (f b')) ->
  has_effect i (ex1 || ex2) (off1 || off2) (ps1 ++ ps2) b (r ≫= f).
Proof.
  intros Hn (b1 & -> & H1) Hf. destruct (Hf b1) as (b2 & Hb2 & H2); [by eapply effect_nodup| | |].
  1,2: destruct H1 as [_ _ _ (gs & grps & ->)]; done.
  exists b2. split; [done|]. by eapply effect_trans.
Qed.

Lemma visit_header_effect f i g b : NoDup (all_task_gen b) -> (has f g = true -> is_Some (g_module g)) ->
  has_effect i false (has f g && match g_module g with Some m => negb (is_enabled sel (ns3_name m)) | None => false end) [] b
    (visit_header sel.1 sel.2 f i g b).
Proof.
  intros Hn Hm. unfold visit_header, has in *. destruct (occurs f (g_features g)); [|eexists; split; [done|apply effect_none]].
  destruct (Hm eq_refl) as [m ->]. cbn [or_raise mbind result_bind andb]. rewrite in_modules_enabled.
  eexists. split; [done|]. destruct (is_enabled sel (ns3_name m)); [apply effect_none|apply remove_effect].
Qed.

Lemma relpath_returns d start : d <> [] -> exists p, relpath cwd d start = Ok p.
Proof. destruct d; [done|]. intros _. cbn. by eexists. Qed.

Lemma visit_program_effect i g b : NoDup (all_task_gen b) -> g_directory g <> [] ->
  has_effect i (match ns3_module_dependencies g with Some deps => negb (forallb (is_enabled sel) deps) | None => false end)
    false (program_path g) b (visit_program APPNAME VERSION BUILD_SUFFIX cwd launch_dir sel.1 sel.2 i g b).
Proof.
  intros Hn Hd. unfold visit_program, program_path. destruct (ns3_module_dependencies g) as [deps|]; [|eexists; split; [done|apply effect_none]].
  change (forallb (in_modules sel.1 sel.2) deps) with (forallb (is_enabled sel) deps).
  destruct (forallb (is_enabled sel) deps); cbn [negb]; [|eexists; split; [done|by apply exclude_effect]].
  unfold object_relative_path. destruct (relpath_returns (g_directory g) (abspath cwd launch_dir) Hd) as [p ->]. cbn [mbind result_bind].
  eexists. split; [done|]. split; [done|done|done|]. exists (generators b), (groups b). by destruct b.
Qed.

Lemma conditional_exclude c i b : NoDup (all_task_gen b) ->
  has_effect i c false [] b (Ok (if c then exclude_taskgen i b else b)).
Proof. intros H. eexists. split; [done|]. destruct c; [by apply exclude_effect|apply effect_none]. Qed.

Lemma visit_test_library_effect i g b tests : NoDup (all_task_gen b) -> ENABLE_TESTS b = tests ->
  has_effect i match test_library_of g with Some m => negb tests || negb (is_enabled sel m) | None => false end false [] b
    (visit_test_library sel.1 sel.2 i g b).
Proof.
  intros Hn <-. unfold visit_test_library. destruct (test_library_of g) as [m|]; [|by apply (conditional_exclude false)].
  rewrite in_modules_enabled. by apply conditional_exclude.
Qed.

Lemma visit_pcfile_effect i g b : NoDup (all_task_gen b) -> enabled_modules b = sel ->
  (has (txt "ns3pcfile") g = true -> is_Some (g_module g)) ->
  has_effect i (has (txt "ns3pcfile") g && match g_module g with Some m => negb (is_enabled sel m) | None => false end) false [] b
    (visit_pcfile i g b).
Proof.
  intros Hn Hs Hm. unfold visit_pcfile, has in *. destruct (occurs _ (g_features g)); [|by apply (conditional_exclude false)].
  destruct (Hm eq_refl) as [m ->]. cbn [or_raise mbind result_bind andb]. rewrite Hs.
  destruct (is_enabled sel m); [by apply (conditional_exclude false)|by apply (conditional_exclude true)].
Qed.

Lemma has_effect_eq i ex ex' off off' ps ps' b r :
  has_effect i ex' off' ps' b r -> ex = ex' -> off = off' -> ps = ps' -> has_effect i ex off ps b r.
Proof. by intros H -> -> ->. Qed.

Lemma visit_effect i g b : generators b !! i = Some g -> NoDup (all_task_gen b) -> complete_generator g -> enabled_modules b = sel ->
  has_effect i (dropped (ENABLE_TESTS b) g) (header_off g) (program_path g) b (visits b i).
Proof.
  intros Hg Hn [Hd Hm] Hs. unfold visit. rewrite Hg. rewrite !orb_true_iff in Hm. eapply has_effect_eq.
  - eapply has_effect_bind; [done|apply visit_header_effect; auto|]. intros b1 Hn1 Ht1 Hs1.
    eapply has_effect_bind; [done|by apply visit_program_effect|]. intros b2 Hn2 Ht2 Hs2.
    eapply has_effect_bind; [done|by apply conditional_exclude|]. intros b3 Hn3 Ht3 Hs3.
    eapply has_effect_bind; [done|apply (visit_test_library_effect i g b3 (ENABLE_TESTS b)); [done|congruence]|]. intros b4 Hn4 Ht4 Hs4.
    eapply has_effect_bind; [done|apply visit_header_effect; auto|]. intros b5 Hn5 Ht5 Hs5.
    eapply has_effect_bind; [done|apply visit_header_effect; auto|]. intros b6 Hn6 Ht6 Hs6.
    apply visit_pcfile_effect; [done|congruence|auto].
  - unfold dropped. by rewrite !orb_assoc, !orb_false_l, !orb_false_r.
  - unfold header_off. destruct (g_module g) as [m|]; [|by rewrite !andb_false_r]. 
    destruct (is_enabled sel (ns3_name m)); cbn; [by rewrite !andb_false_r|rewrite !andb_true_r].
    by rewrite !orb_false_r, !orb_assoc.
  - cbn. by rewrite !app_nil_r.
Qed.

Lemma visit_gone i b : generators b !! i = None -> visits b i = Ok b.
Proof. unfold visit. by intros ->. Qed.

(** The generators that stay. *)
Definition stays (b : bld) (i : nat) : bool :=
  match generators b !! i with Some g => negb (dropped (ENABLE_TESTS b) g) | None => true end.
Definition runnable_paths (b : bld) (ids : list nat) : list text :=
  concat ((fun i => match generators b !! i with Some g => program_path g | None => [] end) <$> ids).
Definition without_headers (ids : list nat) (gs : gmap nat generator) : gmap nat generator :=
  map_imap (fun i g => Some (if bool_decide (i ∈ ids) && header_off g then to_remove g else g)) gs.

Lemma without_headers_snoc ids i gs : i ∉ ids ->
  without_headers (ids ++ [i]) gs =
  match gs !! i with
  | Some g => if header_off g then alter to_remove i (without_headers ids gs) else without_headers ids gs
  | None => without_headers ids gs
  end.
Proof.
  intros Hi. apply map_eq. intros j. unfold without_headers. rewrite map_lookup_imap. destruct (decide (j = i)) as [->|Hj].
  - destruct (gs !! i) as [g|] eqn:Hg; cbn; [|by rewrite map_lookup_imap, Hg]. rewrite bool_decide_true by set_solver.
    destruct (header_off g) eqn:Ho; [rewrite lookup_alter_eq|]; rewrite map_lookup_imap, Hg; cbn; by rewrite bool_decide_false.
  - assert (bool_decide (j ∈ ids ++ [i]) = bool_decide (j ∈ ids)) as -> by (apply bool_decide_ext; set_solver).
    destruct (gs !! i) as [g|]; [destruct (header_off g); [rewrite lookup_alter_ne by done|]|]; by rewrite map_lookup_imap.
Qed.

Lemma runnable_paths_snoc b ids i : runnable_paths b (ids ++ [i]) =
  runnable_paths b ids ++ match generators b !! i with Some g => program_path g | None => [] end.
Proof. unfold runnable_paths. rewrite fmap_app, concat_app. cbn. by rewrite app_nil_r. Qed.

(** The state of the loop after the generators [pre]. *)
Record excluded (b : bld) (pre : list nat) (b' : bld) : Prop := Excluded {
  x_groups : all_task_gen b' = filter (fun i => i ∈ pre -> stays b i = true) (all_task_gen b);
  x_generators : generators b' = without_headers pre (generators b);
  x_programs : NS3_RUNNABLE_PROGRAMS b' = NS3_RUNNABLE_PROGRAMS b ++ runnable_paths b pre;
  x_rest : exists gs grps, b' = with_runnable (NS3_RUNNABLE_PROGRAMS b') (NS3_RUNNABLE_SCRIPTS b) (with_generators gs grps b)
}.

Lemma excluded_step b pre i b1 : NoDup (all_task_gen b) -> enabled_modules b = sel ->
  (forall i g, generators b !! i = Some g -> complete_generator g) -> i ∉ pre -> excluded b pre b1 ->
  exists b2, visits b1 i = Ok b2 /\ excluded b (pre ++ [i]) b2.
Proof.
  intros Hn Hs Hc Hi [Hg Hgs Hps Hr].
  assert (generators b1 !! i = generators b !! i) as Hlook.
  { rewrite Hgs. unfold without_headers. rewrite map_lookup_imap. destruct (generators b !! i); [|done]. cbn. by rewrite bool_decide_false. }
  assert (enabled_modules b1 = sel /\ ENABLE_TESTS b1 = ENABLE_TESTS b) as [Hs1 Ht1] by (destruct Hr as (? & ? & ->); by split).
  destruct (generators b !! i) as [g|] eqn:Hi'.
  - destruct (visit_effect i g b1) as (b2 & Hb2 & [Hg2 Hgs2 Hps2 (gs2 & grps2 & Hr2)]);
      [done|rewrite Hg; by apply NoDup_filter|by eapply Hc|done|].
    exists b2. split; [done|]. split.
    + change (concat (groups b1)) with (all_task_gen b1) in Hg2. change (concat (groups b2)) with (all_task_gen b2) in Hg2.
      assert (stays b i = negb (dropped (ENABLE_TESTS b1) g)) as Hstays by (unfold stays; by rewrite Hi', Ht1).
      rewrite Hg2, Hg. destruct (dropped _ g); cbn in Hstays.
      * rewrite list_filter_filter. apply list_filter_iff. intros j. rewrite elem_of_app, list_elem_of_singleton.
        split; [intros [? ?] [?| ->]; [auto|done]|]. intros H. split; [|auto]. intros ->. rewrite H in Hstays; [done|by right].
      * apply list_filter_iff. intros j. rewrite elem_of_app, list_elem_of_singleton.
        split; [intros ? [?| ->]; auto|auto].
    + rewrite Hgs2, without_headers_snoc, Hi' by done. unfold set_mode_remove. cbn. by rewrite Hgs.
    + by rewrite Hps2, Hps, runnable_paths_snoc, Hi', app_assoc.
    + destruct Hr as (gs & grps & Hr). exists gs2, grps2. rewrite Hr2, Hr. done.
  - exists b1. split; [apply visit_gone; by rewrite Hlook|]. split; [|by rewrite without_headers_snoc, Hi'|by rewrite runnable_paths_snoc, Hi', app_nil_r|done].
    rewrite Hg. apply list_filter_iff. intros j. rewrite elem_of_app, list_elem_of_singleton. split; [|auto].
    intros H [?| ->]; [auto|]. unfold stays. by rewrite Hi'.
Qed.

(** [build] keeps of the generators, in their order, exactly those without a disabled
    module that they are, belong to or need; the headers of disabled modules are
    removed, and the programs that stay are listed. *)
Theorem exclude_disabled_spec b : NoDup (all_task_gen b) -> enabled_modules b = sel ->
  (forall i g, generators b !! i = Some g -> complete_generator g) ->
  exists b', exclude_disabled APPNAME VERSION BUILD_SUFFIX cwd launch_dir sel.1 sel.2 b = Ok b' /\
    all_task_gen b' = filter (fun i => stays b i = true) (all_task_gen b) /\
    generators b' = without_headers (all_task_gen b) (generators b) /\
    NS3_RUNNABLE_PROGRAMS b' = NS3_RUNNABLE_PROGRAMS b ++ runnable_paths b (all_task_gen b) /\
    exists gs grps, b' = with_runnable (NS3_RUNNABLE_PROGRAMS b') (NS3_RUNNABLE_SCRIPTS b) (with_generators gs grps b).
Proof.
  intros Hn Hs Hc. unfold exclude_disabled.
  destruct (for_each_inv visits (fun pre post b' => all_task_gen b = pre ++ post /\ excluded b pre b'))
    with (l := all_task_gen b) (s := b) as (b' & Hb' & _ & [Hg Hgs Hps Hr]).
  - intros pre i post b1 [Hall Hx].
    destruct (excluded_step b pre i b1 Hn Hs Hc) as (b2 & Hb2 & Hx2); [|done|].
    { rewrite Hall in Hn. apply NoDup_app in Hn as (_ & Hd & _). intros Hi. apply (Hd i Hi). left. }
    exists b2. split; [done|]. by rewrite <- app_assoc.
  - split; [done|]. split.
    + symmetry. apply filter_id, Forall_forall. intros j _ Hj. by apply not_elem_of_nil in Hj.
    + apply map_eq. intros j. unfold without_headers. rewrite map_lookup_imap. by destruct (generators b !! j).
    + unfold runnable_paths. cbn. by rewrite app_nil_r.
    + exists (generators b), (groups b). by destruct b.
  - exists b'. split; [done|]. split; [|done]. rewrite Hg. apply filter_agree. intros j Hj. tauto.
Qed.
End exclusion_facts.

(** *** The build as a whole *)

Section build_facts.
Context (APPNAME VERSION BUILD_SUFFIX cwd launch_dir : text).
Context (get_tgen_by_name : bld -> text -> py_exn + option (list text)).
Context (recurse : text -> bld -> bld) (new_generator : generator -> bld -> bld).
Context (listdir : text -> option (list text)) (isdir : text -> bool) (build_dir : text).
Context (modules contributed : list text).

(** A generator has what [build] reads, and a program is nothing else. *)
Definition plain (g : generator) : Prop :=
  complete_generator g /\ (is_Some (ns3_module_dependencies g) ->
    is_ns3_module g = false /\ test_library_of g = None /\ has (txt "ns3pcfile") g = false).
(** Each generator is in one group. *)
Definition well_formed (b : bld) : Prop :=
  NoDup (all_task_gen b) /\ forall i g, generators b !! i = Some g -> plain g.

(** What the wscripts and waf leave alone. *)
Definition same_choice (b b' : bld) : Prop :=
  enabled_modules b' = enabled_modules b /\ ENABLE_TESTS b' = ENABLE_TESTS b /\
  NS3_RUNNABLE_PROGRAMS b' = NS3_RUNNABLE_PROGRAMS b /\ NS3_RUNNABLE_SCRIPTS b' = NS3_RUNNABLE_SCRIPTS b.
(** A step that leaves the choice alone and keeps the build well formed. *)
Definition harmless (b b' : bld) : Prop := same_choice b b' /\ (well_formed b -> well_formed b').

Hypothesis recurse_ok : forall dir b, harmless b (recurse dir b).
Hypothesis new_generator_ok : forall g b, plain g -> harmless b (new_generator g b).

Lemma same_choice_refl b : same_choice b b.
Proof. done. Qed.
Lemma same_choice_trans b1 b2 b3 : same_choice b1 b2 -> same_choice b2 b3 -> same_choice b1 b3.
Proof. intros (? & ? & ? & ?) (? & ? & ? & ?). repeat split; congruence. Qed.

Lemma harmless_refl b : harmless b b.
Proof. by split. Qed.
Lemma harmless_trans b1 b2 b3 : harmless b1 b2 -> harmless b2 b3 -> harmless b1 b3.
Proof. intros [? ?] [? ?]. split; [by eapply same_choice_trans|auto]. Qed.
Lemma harmless_foldl {X} (f : bld -> X -> bld) l b : (forall b x, harmless b (f b x)) -> harmless b (foldl f b l).
Proof. intros Hf. revert b. induction l as [|x l IH]; intros b; [apply harmless_refl|]. cbn. eapply harmless_trans; [apply Hf|apply IH]. Qed.

Lemma add_examples_harmless b : harmless b (add_examples_programs recurse listdir isdir b).
Proof.
  unfold add_examples_programs. destruct (ENABLE_EXAMPLES b); [|apply harmless_refl]. apply harmless_foldl. intros b1 dir.
  destruct (hidden dir); [apply harmless_refl|]. destruct (isdir _); [apply recurse_ok|apply harmless_refl].
Qed.

Lemma path_join_left a b : a <> [] -> path_join a b <> [].
Proof. intros Ha. unfold path_join. repeat case_decide; [by intros ->|by destruct a..]. Qed.

Lemma scratch_plain names filename g : scratch_program isdir build_dir names filename = Some g -> plain g.
Proof.
  assert (path_join build_dir (txt "scratch") <> []) as Hd.
  { unfold path_join. repeat case_decide; [done| |]; by destruct build_dir. }
  assert (forall name d, d <> [] -> plain (create_ns3_program name names d)) as Hp by (intros name d Hne; repeat split; done).
  unfold scratch_program. destruct (hidden filename); [done|]. destruct (isdir _); [intros [= <-]; by apply Hp, path_join_left|].
  destruct (before_suffix _ _); [|done]. intros [= <-]. by apply Hp.
Qed.

Lemma utils_plain b : Forall plain (utils_programs build_dir b).
Proof.
  assert (path_join build_dir (txt "utils") <> []) as Hd by (unfold path_join; repeat case_decide; [done| |]; by destruct build_dir).
  unfold utils_programs. case_decide; repeat constructor; done.
Qed.
Lemma utils_harmless b : harmless b (utils_build new_generator build_dir b).
Proof.
  unfold utils_build. assert (forall gs b, Forall plain gs -> harmless b (foldl (fun b g => new_generator g b) b gs)) as H; [|apply H, utils_plain].
  intros gs. induction gs as [|g gs IH]; intros b1 Hgs; [apply harmless_refl|]. apply Forall_cons in Hgs as [Hg Hgs].
  eapply harmless_trans; [by apply new_generator_ok|by apply IH].
Qed.

Lemma add_scratch_harmless b : harmless b (add_scratch_programs new_generator listdir isdir build_dir b).
Proof.
  apply harmless_foldl. intros b1 filename. destruct (scratch_program _ _ _ filename) as [g|] eqn:Hg; [|apply harmless_refl].
  by eapply new_generator_ok, scratch_plain.
Qed.

Lemma scripts_spec sel l b : for_each (runnable_script (Some sel)) l b =
  Ok (with_runnable (NS3_RUNNABLE_PROGRAMS b) (NS3_RUNNABLE_SCRIPTS b ++ (filter (fun s => forallb (is_enabled sel) s.2 = true) l).*1) b).
Proof.
  revert b. induction l as [|[script deps] l IH]; intros b; cbn [for_each].
  - rewrite filter_nil, app_nil_r. by destruct b.
  - unfold runnable_script. assert (script_runnable (Some sel) deps = Ok (forallb (is_enabled sel) deps)) as Hr by (by destruct deps).
    cbn [fst snd]. rewrite Hr. cbn [mbind result_bind]. rewrite IH, filter_cons. cbn [snd].
    destruct (forallb _ deps); [rewrite decide_True by done|by rewrite decide_False by done]. cbn. by rewrite <- app_assoc.
Qed.

Lemma stays_alone sel b i g : stays sel b i = true -> generators b !! i = Some g ->
  dropped sel (ENABLE_TESTS b) g = false.
Proof. unfold stays. intros H Hg. rewrite Hg in H. by apply negb_true_iff. Qed.

Lemma program_path_to_remove sel g : program_path APPNAME VERSION BUILD_SUFFIX cwd launch_dir sel (to_remove g) =
  program_path APPNAME VERSION BUILD_SUFFIX cwd launch_dir sel g.
Proof. done. Qed.

Lemma dropped_path sel tests g : plain g -> dropped sel tests g = true ->
  program_path APPNAME VERSION BUILD_SUFFIX cwd launch_dir sel g = [].
Proof.
  intros [_ Hp] Hd. unfold program_path. destruct (ns3_module_dependencies g) as [deps|] eqn:Hdeps; [|done].
  destruct Hp as (Hm & Ht & Hpc); [by eexists|]. unfold dropped in Hd. rewrite Hdeps, Hm, Ht, Hpc in Hd.
  by destruct (forallb _ deps).
Qed.

Lemma concat_filter {X Y} (P : X -> Prop) `{!forall x, Decision (P x)} (f g : X -> list Y) l :
  (forall x, x ∈ l -> P x -> f x = g x) -> (forall x, x ∈ l -> ~ P x -> f x = []) ->
  concat (f <$> l) = concat (g <$> filter P l).
Proof.
  intros Hf Hn. induction l as [|x l IH]; [done|]. rewrite filter_cons, fmap_cons. cbn [concat].
  rewrite IH; [|intros y Hy; apply Hf; by right|intros y Hy; apply Hn; by right].
  case_decide; [rewrite Hf by (done || left); done|by rewrite Hn by (done || left)].
Qed.

(** What the generators that stay need is enabled. *)
Definition needs_met (sel : selection) (tests : bool) (g : generator) : Prop :=
  (forall deps d, ns3_module_dependencies g = Some deps -> d ∈ deps -> d ∈ enabled_in sel) /\
  (is_ns3_module g = true -> g_name g ∈ enabled_in sel) /\
  (forall m, test_library_of g = Some m -> tests = true /\ m ∈ enabled_in sel).

Lemma dropped_needs sel tests g : dropped sel tests g = false -> needs_met sel tests g.
Proof.
  intros [[[Hd Hm]%orb_false_elim Ht]%orb_false_elim _]%orb_false_elim. split; [|split].
  - intros deps d E Hin. rewrite E in Hd. apply negb_false_iff in Hd. rewrite forallb_forall in Hd.
    apply is_enabled_spec, Hd. by apply list_elem_of_In.
  - intros E. rewrite E in Hm. apply is_enabled_spec. by apply negb_false_iff.
  - intros m E. rewrite E in Ht. apply orb_false_elim in Ht as [H1%negb_false_iff H2%negb_false_iff].
    split; [done|]. by apply is_enabled_spec.
Qed.

Lemma exclusion_result b b' : well_formed b -> NS3_RUNNABLE_PROGRAMS b = [] ->
  exclude_disabled APPNAME VERSION BUILD_SUFFIX cwd launch_dir (enabled_modules b).1 (enabled_modules b).2 b = Ok b' ->
  enabled_modules b' = enabled_modules b /\ ENABLE_TESTS b' = ENABLE_TESTS b /\ NS3_RUNNABLE_SCRIPTS b' = NS3_RUNNABLE_SCRIPTS b /\
  (forall i g, i ∈ all_task_gen b' -> generators b' !! i = Some g -> needs_met (enabled_modules b) (ENABLE_TESTS b) g) /\
  NS3_RUNNABLE_PROGRAMS b' =
    runnable_paths APPNAME VERSION BUILD_SUFFIX cwd launch_dir (enabled_modules b) b' (all_task_gen b').
Proof.
  intros [Hn Hp] Hnil H.
  destruct (exclude_disabled_spec APPNAME VERSION BUILD_SUFFIX cwd launch_dir (enabled_modules b) b Hn eq_refl)
    as (b1 & Hb1 & Hall & Hgs & Hps & gs & grps & Hr); [intros i g Hg; by apply (Hp i)|].
  rewrite Hb1 in H. injection H as ->. split; [by rewrite Hr|]. split; [by rewrite Hr|]. split; [by rewrite Hr|]. split.
  - intros i g Hi Hg. rewrite Hall in Hi. apply list_elem_of_filter in Hi as [Hi _]. rewrite Hgs in Hg. unfold without_headers in Hg.
    rewrite map_lookup_imap in Hg. destruct (generators b !! i) as [g0|] eqn:Hg0; [|done]. cbn in Hg.
    pose proof (dropped_needs _ _ _ (stays_alone _ _ _ _ Hi Hg0)) as H. by destruct (_ && _); injection Hg as <-.
  - rewrite Hps, Hnil, Hall. apply concat_filter.
    + intros i Hi _. rewrite Hgs. unfold without_headers. rewrite map_lookup_imap. destruct (generators b !! i) as [g|]; [|done].
      cbn. by destruct (_ && _).
    + intros i _ Hi. destruct (generators b !! i) as [g|] eqn:Hg; [|done]. apply (dropped_path _ (ENABLE_TESTS b)); [by eapply Hp|].
      unfold stays in Hi. rewrite Hg in Hi. by destruct (dropped _ _ g).
Qed.

(** C25: With a module enabled, [build] returns or fails for a dependency.  When it returns,
    the enabled modules are those that were chosen with all they use.  Of what the wscripts
    of the modules, the examples and [scratch] have made, every module, test library and
    program with declared modules that stays in the build only needs enabled modules; the
    programs listed as runnable are exactly the programs with declared modules that stay,
    each by the path that is put together from its name; the scripts listed are exactly
    those whose modules are enabled.  What [bindings/python] and [utils] add later is not
    listed, and setuid programs, which declare no modules, are not either. *)
Theorem build_spec b : well_formed b -> enabled_in (enabled_modules b) <> [] ->
  let b1 := recurse (txt "contrib") (recurse (txt "src") (reset_lists b)) in
  match waf_build APPNAME VERSION BUILD_SUFFIX cwd launch_dir get_tgen_by_name recurse new_generator listdir isdir build_dir
          modules contributed b with
  | Ok b' => exists b0, b' = utils_build new_generator build_dir (recurse (txt "bindings/python") b0) /\
      let sel := enabled_modules b' in
      (forall m, m ∈ enabled_in sel <-> needed (get_tgen_by_name b1) (enabled_modules b) m) /\
      (forall i g, i ∈ all_task_gen b0 -> generators b0 !! i = Some g -> needs_met sel (ENABLE_TESTS b) g) /\
      NS3_RUNNABLE_PROGRAMS b' = runnable_paths APPNAME VERSION BUILD_SUFFIX cwd launch_dir sel b0 (all_task_gen b0) /\
      NS3_RUNNABLE_SCRIPTS b' = (filter (fun s => forallb (is_enabled sel) s.2 = true) (NS3_SCRIPT_DEPENDENCIES b0)).*1
  | Raise e => missing modules contributed (get_tgen_by_name b1) (enabled_modules b) e
  | NoFuel => False
  end.
Proof.
  intros Hw Hne b1. unfold waf_build. cbv zeta. fold b1.
  assert (harmless (reset_lists b) b1) as [(Hs1 & Ht1 & Hp1 & Hr1) Hw1] by (eapply harmless_trans; apply recurse_ok).
  assert (any_enabled b1 = true) as Hany.
  { apply bool_decide_eq_true. rewrite Hs1. cbn. unfold enabled_in in Hne. destruct (enabled_modules b) as [[|] [|]]; cbn in *; auto. }
  rewrite Hany. unfold add_enabled. pose proof (enable_dependencies_spec modules contributed (get_tgen_by_name b1) (enabled_modules b1)) as Hdep.
  rewrite Hs1 in *. change (enabled_modules (reset_lists b)) with (enabled_modules b) in *.
  destruct (enable_dependencies _ _ _ (enabled_modules b)) as [sel| |]; [|done..]. cbn [mbind result_bind].
  destruct Hdep as ((ab & Hsel & _) & Hneed & _).
  set (b2 := with_enabled _ _ b1).
  assert (harmless b2 (add_scratch_programs new_generator listdir isdir build_dir (add_examples_programs recurse listdir isdir b2)))
    as [(Hs3 & Ht3 & Hp3 & Hr3) Hw3] by (eapply harmless_trans; [apply add_examples_harmless|apply add_scratch_harmless]).
  set (b3 := add_scratch_programs _ _ _ _ _) in *. change (enabled_modules b2) with sel in Hs3.
  assert (any_enabled b3 = true) as ->.
  { apply bool_decide_eq_true. rewrite Hs3, Hsel. cbn. unfold enabled_in in Hne. destruct (enabled_modules b) as [[|] [|]]; cbn in *; auto. }
  assert (well_formed b3) as Hwf by (by apply Hw3, Hw1).
  destruct (exclude_disabled_spec APPNAME VERSION BUILD_SUFFIX cwd launch_dir (enabled_modules b3) b3 (proj1 Hwf) eq_refl) as (b4 & Hb4 & _);
    [intros i g Hg; by apply (proj2 Hwf i)|]. rewrite Hb4. cbn [mbind result_bind]. rewrite scripts_spec.
  apply exclusion_result in Hb4 as (Hs4 & Ht4 & Hr4 & Hneeds & Hps); [|done|by rewrite Hp3; cbn; rewrite Hp1].
  eexists. split; [reflexivity|].
  match goal with |- context [recurse (txt "bindings/python") ?x] => set (b0 := x);
    assert (harmless b0 (utils_build new_generator build_dir (recurse (txt "bindings/python") b0))) as [(Hs5 & _ & Hp5 & Hr5) _]
      by (eapply harmless_trans; [apply recurse_ok|apply utils_harmless]) end.
  cbv zeta. rewrite Hs5, Hp5, Hr5. subst b0. clear Hs5 Hp5 Hr5.
  cbn. rewrite Hs4, Hs3 in *. split; [done|]. split.
  - intros i g Hi Hg. pose proof (Hneeds i g Hi Hg) as H. rewrite Ht3 in H. cbn in H. by rewrite Ht1 in H.
  - split; [done|]. by rewrite Hr4, Hr3; cbn; rewrite Hr1.
Qed.
End build_facts.

(** ** Examples *)

(** A build: [src] makes the modules [core], [network] (which uses [core]) and [lte]
    (not enabled), a program for each and a script. *)
Definition add_generator (g : generator) (b : bld) : bld :=
  let i := S (max_list (all_task_gen b)) in with_generators (<[i := g]> (generators b)) (groups b ++ [[i]]) b.
Definition out : text := txt "/ns3/build".
Definition demo_generators : list generator :=
  [(create_ns3_module false (txt "core") [] out).1; (create_ns3_module false (txt "core") [] out).2;
   (create_ns3_module false (txt "network") [txt "core"] out).1; (create_ns3_module false (txt "lte") [txt "network"] out).1;
   (create_ns3_module false (txt "lte") [txt "network"] out).2;
   create_ns3_program (txt "tcp") [txt "network"] out; create_ns3_program (txt "cell") [txt "lte"] out;
   (create_ns3_module_test_library false (txt "core") out).1.1].
Definition with_scripts ss (b : bld) : bld :=
  Bld (generators b) (groups b) (enabled_modules b) (ENABLE_TESTS b) (ENABLE_EXAMPLES b) (NS3_MODULES_WITH_TEST_LIBRARIES b)
    (NS3_ENABLED_MODULE_TEST_LIBRARIES b) ss (NS3_RUNNABLE_PROGRAMS b) (NS3_RUNNABLE_SCRIPTS b).
Definition demo_recurse (dir : text) (b : bld) : bld :=
  if decide (dir = txt "src") then with_scripts [(txt "first.py", [core]); (txt "cell.py", [txt "ns3-lte"])] (foldl (fun b g => add_generator g b) b demo_generators)
  else b.
Definition demo_tgen (b : bld) (m : text) : py_exn + option (list text) :=
  match filter (fun kg => g_name kg.2 = m) (map_to_list (generators b)) with
  | (_, g) :: _ => inr (Some (g_use g)) | [] => inl WafError end.
Definition demo_listdir (dir : text) : option (list text) :=
  if decide (dir = txt "scratch") then Some [txt "hello.cc"; txt ".hg"] else None.
Definition empty_build (sel : selection) : bld := Bld ∅ [] sel false false [] [] [] [] [].
Definition demo_build (sel : selection) : res bld :=
  waf_build (txt "ns") (txt "3") (txt "-debug") (txt "/ns3") (txt "/ns3") demo_tgen demo_recurse add_generator demo_listdir (fun _ => false)
    out [core; net; txt "ns3-lte"] [] (empty_build sel).

(** [core] is added, [lte] and what needs it goes; the scratch program is listed by a
    name that its file does not have. *)
Example demo_built : (fun b => (enabled_modules b, all_task_gen b, str <$> NS3_RUNNABLE_PROGRAMS b, str <$> NS3_RUNNABLE_SCRIPTS b)) <$> demo_build ([net], []) =
  Ok (([net; core], []), [1; 2; 3; 6; 9; 10; 11; 12; 13]%nat, ["build/ns3-tcp-debug"; "build/scratch/ns3-hello-debug"], ["first.py"])%string.
Proof. vm_compute. reflexivity. Qed.
(** No module is enabled: the variable [modules] is not bound. *)
Example none_enabled : demo_build ([], []) = Raise UnboundLocalError.
Proof. vm_compute. reflexivity. Qed.

Lemma add_generator_harmless g b : plain g -> harmless b (add_generator g b).
Proof.
  intros Hg. split; [done|]. intros [Hn Hp]. split.
  - unfold all_task_gen, add_generator. cbn. rewrite concat_app. cbn. apply NoDup_app. split; [done|].
    split; [|by apply NoDup_singleton]. intros i Hi ->%list_elem_of_singleton. apply max_list_elem_of_le in Hi.
    unfold all_task_gen in Hi. lia.
  - intros i g'. cbn. rewrite lookup_insert. case_decide; [by intros [= <-]|apply Hp].
Qed.

Lemma demo_plain : Forall plain demo_generators.
Proof. rewrite Forall_forall. unfold demo_generators. intros g Hg.
  repeat (apply elem_of_cons in Hg as [->|Hg]; [split; [split; [done|intros H; try discriminate H; by eexists]|];
    try (intros [x Hx]; discriminate Hx); by intros _|]).
  by apply not_elem_of_nil in Hg.
Qed.

Lemma add_generators_harmless gs b : Forall plain gs -> harmless b (foldl (fun b g => add_generator g b) b gs).
Proof.
  intros Hgs. revert b. induction Hgs as [|g gs Hg _ IH]; intros b; [apply harmless_refl|].
  eapply harmless_trans; [by apply add_generator_harmless|apply IH].
Qed.

Lemma demo_recurse_harmless dir b : harmless b (demo_recurse dir b).
Proof.
  unfold demo_recurse. case_decide; [|apply harmless_refl].
  eapply harmless_trans; [apply add_generators_harmless, demo_plain|split; [done|by intros [? ?]]].
Qed.

Lemma empty_build_ok sel : well_formed (empty_build sel).
Proof. split; [apply NoDup_nil_2|]. intros i g. cbn. by rewrite lookup_empty. Qed.

Lemma build_spec_witness : exists b' b0, demo_build ([net], []) = Ok b' /\
  b' = utils_build add_generator out (demo_recurse (txt "bindings/python") b0) /\
  forall i g, i ∈ all_task_gen b0 -> generators b0 !! i = Some g -> needs_met (enabled_modules b') false g.
Proof.
  assert (is_ok (demo_build ([net], [])) = true) as H by (vm_compute; reflexivity). revert H.
  generalize (build_spec (txt "ns") (txt "3") (txt "-debug") (txt "/ns3") (txt "/ns3") demo_tgen demo_recurse add_generator
    demo_listdir (fun _ => false) out [core; net; txt "ns3-lte"] [] demo_recurse_harmless add_generator_harmless
    _ (empty_build_ok ([net], []))).
  cbv zeta. unfold demo_build. destruct (waf_build _ _ _ _ _ _ _ _ _ _ _ _ _ _) as [b'| |]; [|discriminate..].
  intros Hb _. destruct Hb as (b0 & E & Hb); [discriminate|]. exists b', b0. split; [reflexivity|]. split; [exact E|]. apply Hb.
Defined.

Lemma exclude_disabled_spec_witness : exists b', exclude_disabled (txt "ns") (txt "3") [] (txt "/") (txt "/") [core] []
    (foldl (fun b g => add_generator g b) (empty_build ([core], [])) demo_generators) = Ok b' /\ all_task_gen b' = [1; 2]%nat.
Proof.
  destruct (add_generators_harmless demo_generators (empty_build ([core], [])) demo_plain) as [_ Hw].
  specialize (Hw (empty_build_ok _)). set (b := foldl _ _ demo_generators) in *.
  destruct (exclude_disabled_spec (txt "ns") (txt "3") [] (txt "/") (txt "/") ([core], []) b) as (b' & Hb & Hall & _).
  - apply Hw.
  - reflexivity.
  - intros i g Hg. by apply (proj2 Hw i).
  - exists b'. split; [exact Hb|]. rewrite Hall. vm_compute. reflexivity.
Defined.
