(* ===== verification/WafTasks.v ===== *)
(** * Tasks of waf: [waf-tools/misc.py] and [waf-tools/command.py].

    The substitution of variables in files ([subst_func]) and in command lines
    ([command._subst_arg]), the tasks that run a command ([command.run],
    [apply_cmd_output], [command_output.run]).  The nodes of waf are records of their
    paths, [eval] is a parameter. *)
From S2P Require Import Prelude PyString PyShlex ShellCmd.

(** ** [re.sub]

    A regular expression is a function that matches at the beginning of a text and
    gives what it found with the number of characters. *)
Section sub.
Context {A : Type} (match_at : text -> option (A * nat)).

(** The text as characters and matches, from left to right; [skip] characters belong
    to the last match. *)
Fixpoint pieces (skip : nat) (s : text) : list (ascii + A) :=
  match s with
  | [] => []
  | c :: s' =>
      match skip with
      | S k => pieces k s'
      | O =>
          match match_at s with
          | Some (a, n) => inr a :: pieces (n - 1) s'
          | None => inl c :: pieces 0 s'
          end
      end
  end.

Definition put (repl : A -> res text) (p : ascii + A) : res text :=
  match p with inl c => Ok [c] | inr a => repl a end.
Fixpoint put_all (repl : A -> res text) (ps : list (ascii + A)) : res text :=
  match ps with
  | [] => Ok []
  | p :: ps => t ← put repl p; ts ← put_all repl ps; Ok (t ++ ts)
  end.
Definition re_sub (repl : A -> res text) (s : text) : res text := put_all repl (pieces 0 s).
Definition re_findall (s : text) : list A := omap (fun p => match p with inr a => Some a | inl _ => None end) (pieces 0 s).
End sub.

(** ** [subst_func]: variables in a file *)

(** [@(\w+)@] *)
Definition m4_re (s : text) : option (text * nat) :=
  match s with
  | c :: t =>
      let '(name, rest) := span is_alnum_ t in
      if decide (c = "@"%char /\ name <> [] /\ head rest = Some "@"%char) then Some (name, length name + 2) else None
  | [] => None
  end.

(** [code.replace('%', '%%')] *)
Definition double_percents (code : text) : text := code ≫= fun c => if decide (c = "%"%char) then [c; c] else [c].

(** [s % di] with a dictionary; what is not [%%] or [%(name)s] is not used. *)
Section percent_dict.
Context (di : gmap text text).
(** After [%(], with the name read so far. *)
Fixpoint percent_dict (name : option text) (s : text) : res text :=
  match name, s with
  | None, [] => Ok []
  | None, "%"%char :: "%"%char :: s => r ← percent_dict None s; Ok ("%"%char :: r)
  | None, "%"%char :: "("%char :: s => percent_dict (Some []) s
  | None, "%"%char :: _ => Raise ValueError
  | None, c :: s => r ← percent_dict None s; Ok (c :: r)
  | Some n, ")"%char :: "s"%char :: s =>
      v ← or_raise KeyError (di !! n); r ← percent_dict None s; Ok (v ++ r)
  | Some n, c :: s => percent_dict (Some (n ++ [c])) s
  | Some _, [] => Raise ValueError
  end.
End percent_dict.

Section subst.
(** [env.get_flat] *)
Context (get_flat : text -> text).

(** [env.get_flat(i) or env.get_flat(i.upper())] *)
Definition flat (i : text) : text := match get_flat i with [] => get_flat (upper i) | t => t end.
(** The task's dictionary [di], which is the generator's; when it is empty, it gets
    the variables of the file from the environment, and keeps them. *)
Definition subst_dict (di : gmap text text) (code : text) : gmap text text :=
  if decide (di = ∅) then foldl (fun di i => <[i := flat i]> di) di (re_findall m4_re code) else di.
Definition subst_func (di : gmap text text) (infile : text) : res (text * gmap text text) :=
  let code := double_percents infile in
  s ← re_sub m4_re (fun name => Ok (txt "%(" ++ name ++ txt ")s")) code;
  let di := subst_dict di code in
  out ← percent_dict di None s;
  Ok (out, di).

(** The tasks of a generator, one for each of its source files, share the dictionary. *)
Fixpoint subst_files (di : gmap text text) (files : list text) : res (list text * gmap text text) :=
  match files with
  | [] => Ok ([], di)
  | f :: files =>
      '(out, di) ← subst_func di f; '(outs, di) ← subst_files di files; Ok (out :: outs, di)
  end.
End subst.

(** ** [command]: variables in a command line *)

(** The paths of a node of waf. *)
Record node_paths := NodePaths { abspath : text; srcpath : text; bldpath : text; bld_abspath : text }.

(** What [eval] can give: a node, the lists of inputs and outputs of the task, another
    list of strings, a string, [None], for which [re.sub] puts nothing, or something that is
    none of them. *)
Inductive eval_value := VNode (n : node_paths) | VInputs | VOutputs | VList (l : list text) | VText (t : text) | VNone | VOther.

(** [(?P<dollar>\$\$)|(?P<subst>\$\{(?P<var>\w+)(?P<code>.*?)\})]: [None] is a dollar. *)
Definition arg_rx (s : text) : option (option (text * text) * nat) :=
  match s with
  | c1 :: c2 :: t =>
      if decide (c1 = "$"%char /\ c2 = "$"%char) then Some (None, 2)
      else if decide (c1 = "$"%char /\ c2 = "{"%char) then
        let '(var, rest) := span is_alnum_ t in
        let '(code, rest) := span (fun c => negb (bool_decide (c = "}"%char \/ c = newline))) rest in
        if decide (var <> [] /\ head rest = Some "}"%char) then Some (Some (var, code), length var + length code + 3) else None
      else None
  | _ => None
  end.

(** A list of what [f] makes of each element. *)
Fixpoint subst_each {A B} (f : A -> res B) (l : list A) : res (list B) :=
  match l with [] => Ok [] | x :: l => y ← f x; ys ← subst_each f l; Ok (y :: ys) end.

Section command.
Context (eval : text -> res eval_value) (inputs outputs : list node_paths).

Definition subst_value (var : text) (v : eval_value) : res text :=
  match v with
  | VNode n =>
      if decide (var = txt "TGT") then Ok (bld_abspath n)
      else if decide (var = txt "SRC") then Ok (srcpath n) else Raise ValueError
  | VInputs => match inputs with [n] => Ok (srcpath n) | _ => Raise ValueError end
  | VOutputs => match outputs with [n] => Ok (bld_abspath n) | _ => Raise ValueError end
  | VList l => match l with [t] => Ok t | _ => Raise AssertionError end
  | VText t => Ok t
  | VNone => Ok []
  | VOther => Raise TypeError
  end.
Definition repl (m : option (text * text)) : res text :=
  match m with None => Ok (txt "$") | Some (var, code) => v ← eval (var ++ code); subst_value var v end.
(** [_subst_arg] *)
Definition subst_arg (arg : text) : res text := re_sub arg_rx repl arg.

Definition subst_file (t : target) : res target := match t with TFile f => TFile <$> subst_arg f | _ => Ok t end.
Definition subst_opt {A} (f : A -> res A) (o : option A) : res (option A) :=
  match o with Some a => Some <$> f a | None => Ok None end.

Definition subst_command (c : command) : res command :=
  stdin ← subst_opt subst_arg (c_stdin c);
  stdout ← subst_opt subst_file (c_stdout c);
  stderr ← subst_opt subst_file (c_stderr c);
  argv ← subst_each subst_arg (c_argv c);
  env_vars ← subst_each (fun '(name, v) => v ← subst_arg v; Ok (name, v)) (c_env_vars c);
  Ok (Command (c_name c) argv stdin stdout stderr env_vars).
Definition subst_node (n : node) : res node :=
  match n with
  | Cmd c => Cmd <$> subst_command c
  | Chdir None => Raise TypeError
  | Chdir (Some dir) => d ← subst_arg dir; Ok (Chdir (Some d))
  | _ => Ok n
  end.

(** [command.run], on the world of [Pipeline.run]. *)
Definition command_run (can_open : text -> bool) (can_spawn : nat -> spawn -> bool) (status : nat -> Z) (environ : dict)
    (verbose : bool) (cmd : text + list text) : exec (option Z) :=
  pipeline ← lift (parse cmd);
  pipeline ← lift (subst_each subst_node pipeline);
  run can_open can_spawn status environ verbose pipeline.
End command.

(** ** [command-output]: a command with files as arguments *)

(** The subclasses of [cmd_arg]. *)
Inductive arg_kind := input_file | output_file | input_dir | output_dir.
Inductive argument (N : Type) := Word (t : text) | Arg (k : arg_kind) (template : text) (n : N).
Arguments Word {N} t.
Arguments Arg {N} k template n.

(** [get_path] *)
Definition get_path (k : arg_kind) (template : text) (n : node_paths) (absolute : bool) : res text :=
  percent template
    match k with
    | input_file => if absolute then abspath n else srcpath n
    | output_file => if absolute then abspath n else bldpath n
    | input_dir | output_dir => abspath n
    end.

(** The task [command_output]; a command is a node or an external program. *)
Record command_output := CommandOutput {
  co_command : node_paths + text; co_args : list (argument node_paths);
  co_stdin : option node_paths; co_stdout : option node_paths; co_stderr : option node_paths;
  co_cwd : option text; co_inputs : list node_paths; co_outputs : list node_paths }.
(** What [Popen] is called with. *)
Record invocation := Invocation {
  i_argv : list text; i_stdin : option text; i_stdout : option text; i_stderr : option text; i_cwd : option text }.

Definition node_path (t : command_output) (n : node_paths) : text := if decide (co_cwd t = None) then bldpath n else abspath n.
Definition argument_path (t : command_output) (a : argument node_paths) : res text :=
  match a with Word w => Ok w | Arg k template n => get_path k template n (bool_decide (co_cwd t <> None)) end.
(** [command_output.run], up to the call of [Popen]. *)
Definition command_output_run (t : command_output) : res invocation :=
  let command := match co_command t with inl n => node_path t n | inr c => c end in
  argv ← subst_each (argument_path t) (co_args t);
  Ok (Invocation (command :: argv) (node_path t <$> co_stdin t) (node_path t <$> co_stdout t) (node_path t <$> co_stderr t)
        (co_cwd t)).

(** The attributes of the generator, without [dep_vars] and [dependencies]. *)
Record output_gen := OutputGen {
  og_command : option text; command_is_external : bool; og_argv : list (argument text);
  og_stdin : option text; og_stdout : option text; og_stderr : option text;
  hidden_inputs : list text; hidden_outputs : list text; no_inputs : bool; no_outputs : bool }.

Section apply_cmd_output.
(** Methods of the node of the directory. *)
Context (find_resource find_or_declare find_dir : text -> option node_paths) (variant_dir : text).

(** [find_node].  The messages have one [%s] for two values. *)
Definition find_node (k : arg_kind) (name : text) : res node_paths :=
  or_raise TypeError (match k with
                      | input_file => find_resource name
                      | output_file => find_or_declare name
                      | input_dir | output_dir => find_dir name
                      end).
Definition find_argument (name_of : argument text) : res (argument node_paths) :=
  match name_of with Word w => Ok (Word w) | Arg k template name => Arg k template <$> find_node k name end.
Definition files_of (k : arg_kind) (args : list (argument node_paths)) : list node_paths :=
  omap (fun a => match a with
                 | Arg input_file _ n => match k with input_file => Some n | _ => None end
                 | Arg output_file _ n => match k with output_file => Some n | _ => None end
                 | _ => None
                 end) args.
Definition find_stream (find : text -> option node_paths) (name : option text) : res (option node_paths) :=
  match name with None => Ok None | Some f => Some <$> or_raise WafError (find f) end.
Definition find_hidden (find : text -> option node_paths) (names : list text) : res (list node_paths) :=
  subst_each (fun f => or_raise WafError (find f)) names.

Definition apply_cmd_output (g : output_gen) : res command_output :=
  name ← or_raise WafError (og_command g);
  cmd ← (if command_is_external g then Ok (inr name) else inl <$> or_raise AssertionError (find_resource name));
  args ← subst_each find_argument (og_argv g);
  stdout ← find_stream find_or_declare (og_stdout g);
  stderr ← find_stream find_or_declare (og_stderr g);
  stdin ← find_stream find_resource (og_stdin g);
  ins ← find_hidden find_resource (hidden_inputs g);
  outs ← find_hidden find_or_declare (hidden_outputs g);
  let inputs := files_of input_file args ++ option_list stdin ++ ins in
  let outputs := files_of output_file args ++ option_list stdout ++ option_list stderr ++ outs in
  if bool_decide (inputs = []) && negb (no_inputs g) then Raise WafError
  else if bool_decide (outputs = []) && negb (no_outputs g) then Raise WafError
  else Ok (CommandOutput cmd args stdin stdout stderr (Some variant_dir) inputs outputs).
End apply_cmd_output.

(** *** The file with its variables replaced *)

Lemma span_double p s : p "%"%char = false ->
  span p (double_percents s) = ((span p s).1, double_percents (span p s).2).
Proof.
  intros Hp. induction s as [|c s IH]; [done|]. unfold double_percents in *. cbn. case_decide as Hc.
  - subst c. cbn. by rewrite Hp.
  - cbn. destruct (p c); [rewrite IH; by destruct (span p s)|]. cbn. by rewrite decide_False.
Qed.

Lemma head_double (s : text) : head (double_percents s) = head s.
Proof. destruct s as [|c s]; [done|]. unfold double_percents. cbn. by case_decide. Qed.

Lemma double_percent s : double_percents ("%"%char :: s) = "%"%char :: "%"%char :: double_percents s.
Proof. done. Qed.
Lemma double_other c s : c <> "%"%char -> double_percents (c :: s) = c :: double_percents s.
Proof. intros Hc. unfold double_percents. cbn. by rewrite decide_False. Qed.
Lemma m4_re_percent s : m4_re ("%"%char :: s) = None.
Proof. unfold m4_re. destruct (span is_alnum_ s). rewrite decide_False; [done|by intros [? _]]. Qed.

Lemma m4_re_double s : m4_re (double_percents s) = m4_re s.
Proof.
  destruct s as [|c s]; [done|]. destruct (decide (c = "%"%char)) as [->|Hc]; [by rewrite double_percent, !m4_re_percent|].
  rewrite double_other by done. unfold m4_re. rewrite span_double by done. destruct (span is_alnum_ s) as [name rest]. cbn.
  by rewrite head_double.
Qed.

Lemma m4_re_spec s name n : m4_re s = Some (name, n) ->
  n = length name + 2 /\ Forall (fun c => is_alnum_ c = true) name /\ exists t, s = "@"%char :: name ++ "@"%char :: t.
Proof.
  destruct s as [|c s]; [done|]. cbn. pose proof (span_app is_alnum_ s) as Hs. pose proof (span_forall is_alnum_ s) as Hf.
  destruct (span is_alnum_ s) as [w rest]. cbn in *. case_decide as Hd; [|done]. intros [= <- <-].
  destruct Hd as (-> & _ & Hr). split; [done|]. split; [done|]. destruct rest as [|r rest]; [done|]. injection Hr as ->.
  exists rest. by rewrite <- Hs.
Qed.

(** Doubling the percent signs doubles those between the matches. *)
Definition double_piece (p : ascii + text) : list (ascii + text) :=
  match p with inl c => if decide (c = "%"%char) then [p; p] else [p] | inr _ => [p] end.

Lemma pieces_double k s : "%"%char ∉ take k s ->
  pieces m4_re k (double_percents s) = pieces m4_re k s ≫= double_piece.
Proof.
  revert k. induction s as [|c s IH]; intros k Hk; [by destruct k|].
  destruct k as [|k].
  - destruct (m4_re (c :: s)) as [[name n]|] eqn:Hm.
    + pose proof (m4_re_spec _ _ _ Hm) as (Hn & Hw & t & Ht). injection Ht as Hc Hs.
      assert (double_percents (c :: s) = c :: double_percents s) as Hd by (subst c; done). rewrite Hd. cbn [pieces].
      rewrite <- Hd, m4_re_double, Hm. cbn. f_equal. apply IH. rewrite Hn, Hs.
      replace (length name + 2 - 1) with (length (name ++ ["@"%char])) by (rewrite length_app; cbn; lia).
      change (name ++ "@"%char :: t) with (name ++ ["@"%char] ++ t). rewrite app_assoc, take_app_length. intros Hin. apply elem_of_app in Hin as [Hin|Hin%list_elem_of_singleton]; [|done].
      rewrite Forall_forall in Hw. by apply Hw in Hin.
    + cbn [pieces]. rewrite Hm. cbn [mbind list_bind double_piece]. specialize (IH 0 ltac:(cbn; set_solver)).
      destruct (decide (c = "%"%char)) as [->|Hc].
      * rewrite double_percent. cbn [pieces]. rewrite !m4_re_percent. cbn. by do 2 f_equal.
      * pose proof (m4_re_double (c :: s)) as Hd. rewrite Hm in Hd. rewrite double_other in * by done.
        cbn [pieces]. rewrite Hd. cbn. by f_equal.
  - cbn in Hk. apply not_elem_of_cons in Hk as [Hc Hk]. rewrite double_other by done. cbn [pieces]. by apply IH.
Qed.

Lemma put_all_ok {A} (f : A -> text) ps : put_all (fun a => Ok (f a)) ps =
  Ok (ps ≫= fun p => match p with inl c => [c] | inr a => f a end).
Proof. induction ps as [|[c|a] ps IH]; [done|..]; cbn [put_all put]; rewrite IH; done. Qed.

Section percent_facts.
Context (di : gmap text text).

Lemma percent_char c s : c <> "%"%char -> percent_dict di None (c :: s) = (r ← percent_dict di None s; Ok (c :: r)).
Proof. destruct c as [[] [] [] [] [] [] [] []]; done. Qed.

Lemma percent_name_char n c s : c <> ")"%char -> percent_dict di (Some n) (c :: s) = percent_dict di (Some (n ++ [c])) s.
Proof. destruct c as [[] [] [] [] [] [] [] []]; done. Qed.

Lemma percent_name n name s : Forall (fun c => is_alnum_ c = true) name ->
  percent_dict di (Some n) (name ++ txt ")s" ++ s) = (v ← or_raise KeyError (di !! (n ++ name)); r ← percent_dict di None s; Ok (v ++ r)).
Proof.
  intros H. revert n. induction H as [|c name Hc _ IH]; intros n; [by rewrite app_nil_r|]. cbn [app].
  rewrite percent_name_char by (by intros ->). rewrite IH. by rewrite <- app_assoc.
Qed.

Definition render (p : ascii + text) : text := match p with inl c => [c] | inr name => txt "%(" ++ name ++ txt ")s" end.

(** Formatting what the substitution made of the pieces of a file puts the values there. *)
Lemma percent_pieces ps : Forall (fun p => match p with inl _ => True | inr name => Forall (fun c => is_alnum_ c = true) name end) ps ->
  percent_dict di None ((ps ≫= double_piece) ≫= render) =
  put_all (fun name => or_raise KeyError (di !! name)) ps.
Proof.
  induction 1 as [|[c|name] ps Hp _ IH]; [done|..]; cbn [put_all put].
  - rewrite bind_cons, bind_app. cbn [double_piece]. destruct (decide (c = "%"%char)) as [->|Hc].
    + change (([inl "%"%char; inl "%"%char] : list (ascii + text)) ≫= render) with ["%"%char; "%"%char].
      cbn [app percent_dict]. by rewrite IH.
    + change (([inl c] : list (ascii + text)) ≫= render) with [c]. cbn [app]. rewrite percent_char by done. by rewrite IH.
  - rewrite bind_cons, bind_app.
    assert (((double_piece (inr name)) ≫= render) = txt "%(" ++ name ++ txt ")s") as -> by (apply (app_nil_r (render (inr name)))).
    rewrite <- !app_assoc.
    etransitivity; [by apply (percent_name [] name)|]. by rewrite IH.
Qed.
End percent_facts.

Lemma pieces_names k s : Forall (fun p : ascii + text => match p with inl _ => True | inr name => Forall (fun c => is_alnum_ c = true) name end)
  (pieces m4_re k s).
Proof.
  revert k. induction s as [|c s IH]; intros k; cbn [pieces]; [constructor|]. destruct k as [|k]; [|apply IH].
  destruct (m4_re (c :: s)) as [[name n]|] eqn:Hm; constructor; try apply IH; [|done]. by apply m4_re_spec in Hm as (_ & ? & _).
Qed.

Lemma findall_double s : re_findall m4_re (double_percents s) = re_findall m4_re s.
Proof.
  unfold re_findall. rewrite pieces_double by (cbn; set_solver). induction (pieces m4_re 0 s) as [|[c|name] ps IH]; [done|..]; cbn.
  - cbn in IH. case_decide; cbn; by rewrite IH.
  - cbn in IH. by rewrite IH.
Qed.

(** C26: [subst_func] puts for each [@name@] of a file its value in the dictionary, or
    raises [KeyError] when it has none, and leaves everything else, percent signs
    included, as it is; an empty dictionary first gets all names of the file. *)
Theorem subst_func_spec get_flat di infile :
  let di' := subst_dict get_flat di infile in
  subst_func get_flat di infile = (out ← re_sub m4_re (fun name => or_raise KeyError (di' !! name)) infile; Ok (out, di')).
Proof.
  unfold subst_func, re_sub. cbv zeta. rewrite put_all_ok. cbn [mbind result_bind].
  assert (subst_dict get_flat di (double_percents infile) = subst_dict get_flat di infile) as -> by (unfold subst_dict; by rewrite findall_double).
  rewrite pieces_double by (cbn; set_solver). rewrite percent_pieces by apply pieces_names. done.
Qed.

(** *** Command lines *)

Section command_facts.
Context (eval : text -> res eval_value) (inputs outputs : list node_paths).
Abbreviation subst := (subst_arg eval inputs outputs).

Lemma arg_rx_dollar s : head s <> Some "$"%char -> arg_rx s = None.
Proof. intros H. destruct s as [|c1 [|c2 s]]; [done..|]. cbn in *. rewrite !decide_False by (intros [? _]; congruence). done. Qed.

Lemma arg_rx_two s : arg_rx ("$"%char :: "$"%char :: s) = Some (None, 2).
Proof. done. Qed.

(** An argument without a dollar sign is left as it is. *)
Lemma subst_arg_plain arg : "$"%char ∉ arg -> subst arg = Ok arg.
Proof.
  unfold subst_arg, re_sub. induction arg as [|c arg IH]; [done|]. intros H. apply not_elem_of_cons in H as [Hc H].
  cbn [pieces]. rewrite arg_rx_dollar by (cbn; congruence). cbn [put_all put mbind result_bind]. by rewrite IH.
Qed.

(** [$$] is a dollar sign. *)
Definition double_dollars (arg : text) : text := arg ≫= fun c => if decide (c = "$"%char) then [c; c] else [c].

(** Doubling the dollar signs of an argument protects it from substitution. *)
Theorem subst_arg_doubled arg : subst (double_dollars arg) = Ok arg.
Proof.
  unfold subst_arg, re_sub. induction arg as [|c arg IH]; [done|]. unfold double_dollars in *. rewrite bind_cons. case_decide as Hc.
  - subst c. cbn [app pieces]. rewrite arg_rx_two. cbn [Nat.sub put_all put repl mbind result_bind]. cbn in IH. by rewrite IH.
  - cbn [app pieces]. rewrite arg_rx_dollar by (cbn; congruence). cbn [put_all put mbind result_bind]. cbn in IH. by rewrite IH.
Qed.

Lemma subst_each_ok {A B} (f : A -> res B) l l' : subst_each f l = Ok l' -> Forall2 (fun x y => f x = Ok y) l l'.
Proof.
  revert l'. induction l as [|x l IH]; intros l' H; cbn in H; [injection H as <-; constructor|].
  apply bind_ok in H as (y & Hy & H). apply bind_ok in H as (ys & Hys & [= <-]). constructor; auto.
Qed.

(** The commands of a pipeline by the first word of their arguments: [run] does not look
    at the name of a command. *)
Definition renamed (n : node) : node :=
  match n with
  | Cmd c => Cmd (Command (default [] (head (c_argv c))) (c_argv c) (c_stdin c) (c_stdout c) (c_stderr c) (c_env_vars c))
  | n => n
  end.

Lemma run_loop_renamed can_open can_spawn status environ verbose p s w :
  run_loop can_open can_spawn status environ verbose s (renamed <$> p) w =
  run_loop can_open can_spawn status environ verbose s p w.
Proof.
  revert s w. induction p as [[|n [|op p]] IH] using (induction_ltof1 _ (@length node)); unfold ltof in IH; intros s w; [done| |].
  - by destruct n as [c|[d|]| | |].
  - assert (forall s w, run_loop can_open can_spawn status environ verbose s (renamed <$> p) w =
      run_loop can_open can_spawn status environ verbose s p w) as IHp by (intros; apply IH; cbn; lia).
    cbn [fmap list_fmap]. destruct n as [c|d| | |]; [|destruct d, op; cbn [renamed run_loop]; try done|done..].
    + cbn [renamed run_loop]. unfold mbind, exec_bind.
      change (start can_open can_spawn environ verbose s (Command _ _ _ _ _ _)) with (start can_open can_spawn environ verbose s c).
      destruct (start _ _ _ _ s c w) as [w1 [s1|e|]]; [|done..]. destruct op; cbn [renamed]; try apply IHp.
      all: destruct (end_group _ _ _ _ w1) as [w2 [[[r|] s2]|e|]]; try done; apply IHp.
    + cbn [lift or_raise]. unfold mbind, exec_bind. apply IHp.
Qed.

(** Substitution keeps what a command is connected to. *)
Lemma subst_command_shape c c' : subst_command eval inputs outputs c = Ok c' ->
  length (c_argv c') = length (c_argv c) /\ (c_stdout c' = Some TPipe <-> c_stdout c = Some TPipe) /\
  (c_stdout c' = Some TStdout <-> c_stdout c = Some TStdout) /\ (c_stderr c' = Some TPipe <-> c_stderr c = Some TPipe).
Proof.
  assert (forall o o', subst_opt (subst_file eval inputs outputs) o = Ok o' ->
    (o' = Some TPipe <-> o = Some TPipe) /\ (o' = Some TStdout <-> o = Some TStdout)) as Hf.
  { intros [[| |f]|] o' H; cbn in H; try (injection H as <-; done).
    destruct (subst f) as [f'| |]; [|done..]. injection H as <-. done. }
  unfold subst_command. intros H. inv_bind H. apply bind_ok in H as (so & Hso & H). apply bind_ok in H as (se & Hse & H).
  apply bind_ok in H as (argv & Hargv & H). inv_bind H. injection H as <-. cbn. apply subst_each_ok, Forall2_length in Hargv.
  apply Hf in Hso, Hse. split; [done|]. split; [apply Hso|]. split; [apply Hso|apply Hse].
Qed.

Lemma renamed_wf c c' : subst_command eval inputs outputs c = Ok c' -> cmd_wf c ->
  exists c'', renamed (Cmd c') = Cmd c'' /\ cmd_wf c'' /\ (c_stdout c'' = Some TPipe <-> c_stdout c = Some TPipe).
Proof.
  intros (Hl & Hp & Ho & He)%subst_command_shape (Hh & Hno & Hne). eexists. split; [done|]. split; [|done].
  split; [|cbn; tauto]. cbn. destruct (c_argv c); [done|]. by destruct (c_argv c').
Qed.

(** What substitution makes of a node is a node of its kind. *)
Definition same_kind (n n' : node) : Prop :=
  match n, n' with
  | Cmd _, Cmd _ | Pipe, Pipe | And, And | Or, Or => True
  | Chdir d, Chdir d' => is_Some d' \/ d = None
  | _, _ => False
  end.

Lemma subst_node_kind n n' : subst_node eval inputs outputs n = Ok n' -> same_kind n (renamed n').
Proof.
  destruct n as [c|[d|]| | |]; cbn; intros H; try discriminate H; try (injection H as <-; done).
  - apply fmap_ok in H as (c' & _ & ->). done.
  - apply bind_ok in H as (d' & _ & [= <-]). left. by eexists.
Qed.

Lemma subst_wf p p' : wf p -> Forall2 (fun n n' => subst_node eval inputs outputs n = Ok n') p p' -> wf (renamed <$> p').
Proof.
  intros Hwf. revert p'.
  assert (forall c n', cmd_wf c -> subst_node eval inputs outputs (Cmd c) = Ok n' ->
    exists c', renamed n' = Cmd c' /\ cmd_wf c' /\ (c_stdout c' = Some TPipe <-> c_stdout c = Some TPipe)) as Hcmd.
  { intros c n' Hc (c' & Hs & ->)%fmap_ok. by apply renamed_wf. }
  induction Hwf as [c Hc Hnp|d|c rest Hc Hp _ IH|c rest Hc Hnp _ IH|c rest Hc Hnp _ IH|d rest Hrest IH];
    intros p' Hp'; inversion Hp' as [|n n' ? r Hn Hr]; subst; rewrite fmap_cons.
  - inversion Hr; subst. destruct (Hcmd _ _ Hc Hn) as (c' & -> & Hc' & Hio). apply wf_end; [done|tauto].
  - inversion Hr; subst. apply subst_node_kind in Hn. destruct (renamed n'); try done. constructor.
  - destruct (Hcmd _ _ Hc Hn) as (c' & -> & Hc' & Hio). inversion Hr as [|op op' ? r' Hop Hr']; subst. injection Hop as <-.
    apply wf_pipe; [done|tauto|by apply IH].
  - destruct (Hcmd _ _ Hc Hn) as (c' & -> & Hc' & Hio). inversion Hr as [|op op' ? r' Hop Hr']; subst. injection Hop as <-.
    apply wf_and; [done|tauto|by apply IH].
  - destruct (Hcmd _ _ Hc Hn) as (c' & -> & Hc' & Hio). inversion Hr as [|op op' ? r' Hop Hr']; subst. injection Hop as <-.
    apply wf_or; [done|tauto|by apply IH].
  - inversion Hr as [|op op' ? r' Hop Hr']; subst. injection Hop as <-. apply subst_node_kind in Hn.
    destruct (renamed n'); try done. apply wf_cd. by apply IH.
Qed.

Lemma same_kind_value status p p' : Forall2 same_kind p p' ->
  (forall k, value_from status k p' = value_from status k p) /\ (dirs_ok p -> dirs_ok p').
Proof.
  revert p'. induction p as [p IH] using (induction_ltof1 _ (@length node)). unfold ltof in IH. intros p' H.
  destruct H as [|n n' p p' Hn H]; [done|].
  assert (forall q q', length q < length (n :: p) -> Forall2 same_kind q q' ->
    (forall k, value_from status k q' = value_from status k q) /\ (dirs_ok q -> dirs_ok q')) as IHq by (intros; by apply IH).
  split.
  - intros k. destruct H as [|op op' p p' Hop H]; [by destruct n, n'|]. destruct (IHq p p') as [Hv _]; [cbn; lia|done|].
    destruct n, n', op, op'; try done; cbn; by rewrite ?Hv.
  - intros Hd. destruct (IHq p p') as [_ Hdp]; [cbn; lia|done|].
    destruct H as [|op op' p p' Hop H]; [by destruct n as [|[]| | |], n'|].
    destruct n as [c|[d|]| | |], n' as [c'|[d'|]| | |]; try done; try (by destruct Hn as [[? ?]|?]); exact (Hdp Hd).
Qed.

(** C27: a command line that is parsed and whose variables have values runs, when files
    open and processes start, to the value that the parsed line denotes: the
    substitution does not change what is connected to what. *)
Theorem command_run_value can_open can_spawn status environ cmd p p' w :
  (forall f, can_open f = true) -> (forall k s, can_spawn k s = true) ->
  parse cmd = Ok p -> dirs_ok p -> subst_each (subst_node eval inputs outputs) p = Ok p' ->
  exists w', command_run eval inputs outputs can_open can_spawn status environ false cmd w =
    (w', Ok (Some (value_from status (w_procs w) p))).
Proof.
  intros Ho Hs Hp Hd Hp'. unfold command_run. rewrite Hp. unfold mbind, exec_bind. cbn [lift]. rewrite Hp'.
  assert (wf p) as Hwf.
  { unfold parse in Hp. apply bind_ok in Hp as (tokens & _ & Hp). destruct (parse_tokens_wf tokens) as [(p1 & E & Hw)|E]; congruence. }
  apply subst_each_ok in Hp'. pose proof (subst_wf _ _ Hwf Hp') as Hwf'.
  assert (Forall2 same_kind p (renamed <$> p')) as Hk.
  { apply Forall2_fmap_r. eapply Forall2_impl; [exact Hp'|]. intros n n'. apply subst_node_kind. }
  destruct (same_kind_value status _ _ Hk) as [Hv Hd'].
  destruct (run_loop_value can_open can_spawn status environ Ho Hs _ Hwf' (Hd' Hd) (RunState [] [] [] false (txt ".")) w) as (w' & Hr);
    [done|]. exists w'. unfold run. rewrite run_loop_renamed, Hv in Hr. exact Hr.
Qed.
End command_facts.

(** *** Commands with files *)

(** The paths that [apply_cmd_output] gives to a process are absolute, whatever the
    generator says about the directory, which is always that of the variant; it
    reads its standard input and its file arguments, and writes the others. *)
Theorem cmd_output_absolute find_resource find_or_declare find_dir variant_dir g t :
  apply_cmd_output find_resource find_or_declare find_dir variant_dir g = Ok t ->
  command_output_run t =
    (argv ← subst_each (fun a => match a with Word w => Ok w | Arg _ template n => percent template (abspath n) end) (co_args t);
     Ok (Invocation (match co_command t with inl n => abspath n | inr c => c end :: argv)
           (abspath <$> co_stdin t) (abspath <$> co_stdout t) (abspath <$> co_stderr t) (Some variant_dir))) /\
  (forall k template n, Arg k template n ∈ co_args t -> k = input_file -> n ∈ co_inputs t) /\
  (forall k template n, Arg k template n ∈ co_args t -> k = output_file -> n ∈ co_outputs t) /\
  (forall n, co_stdin t = Some n -> n ∈ co_inputs t) /\
  (forall n, co_stdout t = Some n \/ co_stderr t = Some n -> n ∈ co_outputs t).
Proof.
  unfold apply_cmd_output. intros H. apply bind_ok in H as (name & _ & H). apply bind_ok in H as (cmd & _ & H).
  apply bind_ok in H as (args & _ & H). apply bind_ok in H as (so & _ & H). apply bind_ok in H as (se & _ & H).
  apply bind_ok in H as (si & _ & H). apply bind_ok in H as (ins & _ & H). apply bind_ok in H as (outs & _ & H).
  cbv zeta in H. destruct (_ && _); [done|]. destruct (_ && _); [done|]. injection H as <-. split; [|cbn].
  - unfold command_output_run. set (t := CommandOutput _ _ _ _ _ _ _ _).
    assert (forall n, node_path t n = abspath n) as Hn by (intros n; unfold node_path; by rewrite decide_False).
    assert (subst_each (argument_path t) (co_args t) = subst_each (fun a => match a with Word w => Ok w | Arg _ template n => percent template (abspath n) end) (co_args t)) as ->.
    { induction (co_args t) as [|a l IH]; [done|]. cbn [subst_each]. rewrite IH. f_equal. by destruct a as [w|[] template n]. }
    destruct (subst_each _ _) as [argv| |]; [|done..]. cbn. unfold node_path. by destruct cmd, si, so, se.
  - assert (forall k template n, Arg k template n ∈ args -> (k = input_file \/ k = output_file) -> n ∈ files_of k args) as Hf.
    { intros k template n Hin Hk. unfold files_of. apply list_elem_of_omap. exists (Arg k template n). split; [done|]. by destruct Hk as [-> | ->]. }
    split; [|split; [|split]].
    + intros k template n Hin ->. apply elem_of_app. left. by apply (Hf input_file template); [|left].
    + intros k template n Hin ->. apply elem_of_app. left. by apply (Hf output_file template); [|right].
    + intros n ->. cbn. apply elem_of_app. right. left.
    + intros n Hn. apply elem_of_app. right. destruct Hn as [-> | ->]; cbn; [left|]. destruct so; cbn; [right|]; left.
Qed.

(** ** Examples *)

Definition env_flat (name : text) : text :=
  if decide (name = txt "PREFIX") then txt "/usr" else if decide (name = txt "VERSION") then txt "3" else [].
Definition file (name : string) : node_paths :=
  NodePaths (txt ("/ns3/" ++ name)) (txt ("../" ++ name)) (txt name) (txt ("/ns3/build/" ++ name)).

(** Percent signs stay, and a name may be written in lower case. *)
Example subst_one : fst <$> subst_func env_flat ∅ (txt "prefix=@prefix@ 100% %(x)s @ @@VERSION@") = Ok (txt "prefix=/usr 100% %(x)s @ @3").
Proof. vm_compute. reflexivity. Qed.
(** Two files of one generator: the second has a variable that the first has not. *)
Example second_file : subst_files env_flat ∅ [txt "@prefix@"; txt "@version@"] = Raise KeyError.
Proof. vm_compute. reflexivity. Qed.

Definition demo_eval (code : text) : res eval_value :=
  if decide (code = txt "SRC[0]") then Ok (VNode (file "a.py"))
  else if decide (code = txt "TGT") then Ok VOutputs
  else if decide (code = txt "PYTHON") then Ok (VList [txt "/bin/python"]) else Raise NameError.
Definition demo_command : text + list text := inl (txt "X=1 ${PYTHON} ${SRC[0]} $$HOME > ${TGT} && sync").

Example demo_substituted : (p ← parse demo_command; subst_each (subst_node demo_eval [file "a.py"] [file "b.cc"]) p) =
  Ok [Cmd (Command (txt "${PYTHON}") [txt "/bin/python"; txt "../a.py"; txt "$HOME"] None
             (Some (TFile (txt "/ns3/build/b.cc"))) None [(txt "X", txt "1")]); And; Cmd (new_command (txt "sync"))].
Proof. vm_compute. reflexivity. Qed.

Lemma command_run_value_witness : exists w', command_run demo_eval [file "a.py"] [file "b.cc"] (fun _ => true) (fun _ _ => true)
    (fun k => Z.of_nat k) [] false demo_command (World [] 0 0) = (w', Ok (Some 1%Z)).
Proof.
  destruct (parse demo_command) as [p| |] eqn:Hp; [|vm_compute in Hp; discriminate Hp..].
  assert (exists p', subst_each (subst_node demo_eval [file "a.py"] [file "b.cc"]) p = Ok p') as [p' Hp'].
  { vm_compute in Hp. injection Hp as <-. eexists. vm_compute. reflexivity. }
  destruct (command_run_value demo_eval [file "a.py"] [file "b.cc"] (fun _ => true) (fun _ _ => true) (fun k => Z.of_nat k) []
    demo_command p p' (World [] 0 0)) as (w' & Hw'); [reflexivity|reflexivity|exact Hp| |exact Hp'|].
  - vm_compute in Hp. injection Hp as <-. exact I.
  - exists w'. rewrite Hw'. vm_compute in Hp. injection Hp as <-. reflexivity.
Defined.

Definition demo_output (stdin : option text) : output_gen :=
  OutputGen (Some (txt "sed")) true [Word (txt "-f"); Arg input_file (txt "--in=%s") (txt "x.sed")] stdin (Some (txt "out")) None [] [] false false.
Definition source_file (name : text) : option node_paths := if decide (name = txt "x.sed") then Some (file "x.sed") else None.

Example demo_invocation : (apply_cmd_output source_file (fun f => Some (file (str f))) (fun _ => None) (txt "/ns3/build") (demo_output None) ≫= command_output_run) =
  Ok (Invocation [txt "sed"; txt "-f"; txt "--in=/ns3/x.sed"] None (Some (txt "/ns3/out")) None (Some (txt "/ns3/build"))).
Proof. vm_compute. reflexivity. Qed.
(** A missing standard input is reported, a missing argument is not: its message raises. *)
Example missing_files :
  apply_cmd_output source_file (fun f => Some (file (str f))) (fun _ => None) [] (demo_output (Some (txt "y"))) = Raise WafError /\
  apply_cmd_output (fun _ => None) (fun f => Some (file (str f))) (fun _ => None) [] (demo_output None) = Raise TypeError.
Proof. split; vm_compute; reflexivity. Qed.
