(* ===== verification/WafHeaders.v ===== *)
(** * The headers in the build directory, and the descriptions for pkg-config:
    the tasks of [src/wscript].

    [ns3header] and [ns3privateheader] copy headers, [gen_ns3_module_header] writes the
    header that includes those of a module, [ns3pcfile] the description of its library.
    Waf is a parameter: it finds the files and runs the tasks. *)
From S2P Require Import Prelude PyString PyPath PyShlex Wutils WafModules WafBuild.

(** ** Files

    By absolute path, with their permissions; directories are there and writable. *)
Record file := File { content : text; permissions : Z }.
Abbreviation files := (gmap text file).
(** [0o600], [0o400] and, for new files, [0o644]. *)
Definition read_write : Z := 384.
Definition read_only : Z := 256.
Definition new_file : Z := 420.
Definition owner_reads (f : file) : bool := Z.testbit (permissions f) 8.
Definition owner_writes (f : file) : bool := Z.testbit (permissions f) 7.

(** [os.chmod]; Python's [OSError] and [IOError] are one exception. *)
Definition chmod (path : text) (mode : Z) (fs : files) : res files :=
  f ← or_raise IOError (fs !! path); Ok (<[path := File (content f) mode]> fs).
(** [shutil.copy2]: the contents and the permissions. *)
Definition copy2 (src dst : text) (fs : files) : res files :=
  if decide (src = dst) then Raise IOError
  else
    f ← or_raise IOError (fs !! src);
    if negb (owner_reads f) then Raise IOError
    else if default true (owner_writes <$> fs !! dst) then Ok (<[dst := f]> fs) else Raise IOError.
(** [open(path, 'w')], what is written, and [close]. *)
Definition write_file (path contents : text) (fs : files) : res files :=
  match fs !! path with
  | None => Ok (<[path := File contents new_file]> fs)
  | Some f => if owner_writes f then Ok (<[path := File contents (permissions f)]> fs) else Raise IOError
  end.
Definition ENOENT : Z := 2.
(** [os.unlink]: the files, or [errno]. *)
Definition unlink (path : text) (fs : files) : files + Z :=
  match fs !! path with Some _ => inl (delete path fs) | None => inr ENOENT end.

(** ** [ns3header] and [ns3privateheader] *)

Record header_task := HeaderTask { t_mode : text; inputs : list text; outputs : list text; header_to_remove : text }.
Definition install : text := txt "install".

Definition make_writable (path : text) (fs : files) : files := match chmod path read_write fs with Ok fs => fs | _ => fs end.
Definition copy_header (fs : files) (p : text * text) : res files :=
  let '(src, dst) := p in
  fs ← copy2 src dst (make_writable dst fs); chmod dst read_only fs.
Definition remove_header (t : header_task) (fs : files) : res (files * Z) :=
  _ ← py_assert (bool_decide (inputs t = [])); _ ← py_assert (bool_decide (outputs t = []));
  match unlink (header_to_remove t) fs with
  | inl fs => Ok (fs, 0%Z)
  | inr errno => if (errno =? ENOENT)%Z then Ok (fs, 0%Z) else Raise IOError
  end.
Definition ns3header_run (t : header_task) (fs : files) : res (files * Z) :=
  if decide (t_mode t = install) then
    _ ← py_assert (bool_decide (length (inputs t) = length (outputs t)));
    fs ← for_each copy_header (zip (inputs t) (outputs t)) fs; Ok (fs, 0%Z)
  else remove_header t fs.

Inductive task_status := RUN_ME | SKIP_ME | ASK_LATER.
(** [waf_status] is the method of [Task.Task]. *)
Definition runnable_status (waf_status : header_task -> task_status) (t : header_task) (fs : files) : task_status :=
  if decide (t_mode t = txt "remove") then
    match fs !! header_to_remove t with Some _ => RUN_ME | None => SKIP_ME end
  else waf_status t.

(** A generator of headers: its attributes and [source]. *)
Record header_gen := HeaderGen { hg : generator; hg_source : list text }.
Definition mode_of (g : generator) : text := default install (g_mode g).

Section tasks.
(** The order in which Python goes through a set, [find_resource] of the directory of a
    generator, and the path of the node that [find_or_declare] gives for a name in the
    directory [ns3] (or [ns3/private]) of the build. *)
Context (set_order : list text -> list text).
Context (find_resource : text -> text -> option text).
Context (ns3_node : text -> text).

Definition header_task_of (g : header_gen) (filename : text) : res header_task :=
  src ← or_raise WafError (find_resource (g_directory (hg g)) filename);
  let dst := ns3_node (basename src) in
  Ok (if decide (mode_of (hg g) = install) then HeaderTask install [src] [dst] []
      else HeaderTask (mode_of (hg g)) [] [] dst).
(** [apply_ns3header]: a missing attribute [module] is an [AttributeError]. *)
Definition apply_ns3header (g : header_gen) : res (list header_task) :=
  _ ← or_raise AttributeError (g_module (hg g));
  for_each (fun ts filename => t ← header_task_of g filename; Ok (ts ++ [t])) (set_order (hg_source g)) [].

(** ** [gen_ns3_module_header] *)

Definition quote : ascii := "034".
Definition include_line (header : text) : text := txt "#include " ++ [quote] ++ header ++ [quote].
Definition macro (module : text) : text := (fun c => if decide (c = "-"%char) then "_"%char else c) <$> upper module.
(** The lines of the file: those before the headers, the headers, the end. *)
Definition first_lines (module : text) : list text :=
  [[]; txt "#ifdef NS3_MODULE_COMPILATION";
   txt "# error " ++ [quote] ++ txt "Do not include ns3 module aggregator headers from other modules; these are meant only for end user scripts." ++ [quote];
   txt "#endif"; []; txt "#ifndef NS3_MODULE_" ++ macro module; txt "    "; []; txt "// Module headers:"].
Definition lines_text (l : list text) : text := l ≫= fun line => line ++ [newline].
Definition module_header_text (module : text) (headers : list text) : text :=
  lines_text (first_lines module ++ (include_line <$> sort_texts headers) ++ [txt "#endif"]).
Definition gen_module_header_run (module : text) (t : header_task) (fs : files) : res (files * Z) :=
  if decide (t_mode t = txt "remove") then remove_header t fs
  else
    _ ← py_assert (bool_decide (length (outputs t) = 1));
    out_file_name ← or_raise IndexError (head (outputs t));
    fs ← write_file out_file_name (module_header_text module (basename <$> inputs t)) fs; Ok (fs, 0%Z).

(** The nodes of the headers of a module, and whether one of the generators is its. *)
Definition module_headers (module : text) (st : list text * bool) (g : header_gen) : res (list text * bool) :=
  if occurs (txt "ns3header") (g_features (hg g)) then
    m ← or_raise AttributeError (g_module (hg g));
    Ok (if decide (m = module) then
          (st.1 ++ (ns3_node ∘ basename <$> sort_texts (remove_dups (hg_source g))), true)
        else st)
  else Ok st.
(** [has_module]: [get_tgen_by_name] finds the module. *)
Definition apply_ns3moduleheader (module mode : text) (has_module : bool) (gens : list header_gen) : res (option header_task) :=
  '(all_headers_inputs, found) ← for_each (module_headers module) gens ([], false);
  if negb found then Raise WafError
  else if decide (all_headers_inputs = []) then Ok None
  else if negb has_module then Ok None
  else
    let output := ns3_node (module ++ txt "-module.h") in
    Ok (Some (if decide (mode = install) then HeaderTask mode all_headers_inputs [output] [] else HeaderTask mode [] [] output)).
End tasks.

(** ** [ns3pcfile] *)

(** A value of [env]: a list of texts, empty where nothing is set, or a text. *)
Inductive env_value := EList (l : list text) | EText (t : text).
(** [value % arg]: lists have no [%]. *)
Definition env_percent (template : env_value) (arg : text) : res text :=
  match template with EText t => percent t arg | EList _ => Raise TypeError end.
(** What [for] goes through: of a text its characters. *)
Definition env_items (v : env_value) : list text := match v with EList l => l | EText t => (fun c => [c]) <$> t end.
Definition _listify (v : env_value) : list text := match v with EList l => l | EText t => [t] end.
Definition map_percent (template : env_value) (args : list text) : res (list text) :=
  for_each (fun out arg => x ← env_percent template arg; Ok (out ++ [x])) args [].

Section pcfile.
(** [self.env]; and the directory that [subst_vars] makes of [INCLUDEDIR]. *)
Context (env : text -> env_value) (includedir : text).
Context (APPNAME VERSION BUILD_SUFFIX PREFIX LIBDIR : text) (ENABLE_STATIC_NS3 : bool).

Definition _self_libs (name libdir : text) : res (list text) :=
  let path_st := if ENABLE_STATIC_NS3 then txt "STLIBPATH_ST" else txt "LIBPATH_ST" in
  let lib_st := if ENABLE_STATIC_NS3 then txt "STLIB_ST" else txt "LIB_ST" in
  let lib_marker := if ENABLE_STATIC_NS3 then txt "STLIB_MARKER" else txt "SHLIB_MARKER" in
  path ← env_percent (env path_st) libdir;
  marker ← (match env lib_marker with
            | EText [] | EList [] => Ok []
            | EText t => Ok [t]
            | EList _ => Raise TypeError
            end);
  lib ← env_percent (env lib_st) name;
  Ok (path :: marker ++ [lib]).

Definition add_libpath (linkflags : env_value) (retval : list text) (path : text) : res (list text) :=
  x ← env_percent (env (txt "LIBPATH_ST")) path;
  match linkflags with EList l => Ok (retval ++ [x] ++ l) | EText _ => Raise TypeError end.
Definition _lib (dep : text) : res (list text) :=
  paths ← for_each (add_libpath (env (txt "LINKFLAGS_" ++ dep))) (env_items (env (txt "LIBPATH_" ++ dep))) [];
  libs ← map_percent (env (txt "LIB_ST")) (env_items (env (txt "LIB_" ++ dep)));
  Ok (paths ++ libs).

Definition _defines (dep : text) : res (list text) := map_percent (env (txt "DEFINES_ST")) (env_items (env (txt "DEFINES_" ++ dep))).
(** [Utils.to_list]: a text is split at blanks. *)
Definition to_list (v : env_value) : list text :=
  match v with EList l => l | EText t => filter (fun w => w <> []) (split_on space ((fun c => if is_space c then space else c) <$> t)) end.
Definition _includes (dep : text) : res (list text) := map_percent (env (txt "CPPPATH_ST")) (to_list (env (txt "INCLUDES_" ++ dep))).

(** [libs += text] adds the characters of the text, one by one. *)
Definition extend_text (libs : list text) (t : text) : list text := libs ++ ((fun c => [c]) <$> t).
Definition add_env_lib (libs : list text) (dep : text) : res (list text) :=
  x ← env_percent (env (txt "LIB_ST")) dep; Ok (extend_text libs x).
Definition add_dep_cflags (st : list text * list text) (dep : text) : res (list text * list text) :=
  defines ← _defines dep; includes ← _includes dep;
  let cflags := st.1 ++ _listify (env (txt "CFLAGS_" ++ dep)) ++ _listify (env (txt "CXXFLAGS_" ++ dep)) ++ defines ++ includes in
  let requires := if is_ns3 dep then st.2 ++ [txt "libns" ++ VERSION ++ txt "-" ++ drop 4 dep ++ BUILD_SUFFIX] else st.2 in
  Ok (cflags, requires).

(** The fields [Libs], [Cflags] and [Requires]; [LIBS] is [env.LIBS], [exported] the
    paths of the include directories that the module exports. *)
Definition pcfile_fields (name : text) (use LIBS exported : list text) : res (list text * list text * list text) :=
  libs ← _self_libs (APPNAME ++ VERSION ++ txt "-" ++ drop 4 name ++ BUILD_SUFFIX) (txt "${libdir}");
  libs ← for_each (fun libs dep => l ← _lib dep; Ok (libs ++ l)) use libs;
  libs ← for_each add_env_lib LIBS libs;
  include ← env_percent (env (txt "CPPPATH_ST")) (txt "${includedir}");
  exports ← map_percent (env (txt "CPPPATH_ST")) exported;
  '(cflags, requires) ← for_each add_dep_cflags use (include :: exports, []);
  Ok (libs, cflags, requires).
Definition _generate_pcfile (name : text) (use LIBS exported : list text) : res text :=
  '(libs, cflags, requires) ← pcfile_fields name use LIBS exported;
  Ok (lines_text [txt "prefix=" ++ PREFIX; txt "libdir=" ++ LIBDIR; txt "includedir=" ++ includedir; [];
        txt "Name: lib" ++ name; txt "Description: ns-3 module " ++ name; txt "Version: " ++ VERSION;
        txt "Libs: " ++ join [space] libs; txt "Cflags: " ++ join [space] cflags; txt "Requires: " ++ join [space] requires]).
End pcfile.

(** ** Installing and removing *)

Definition content_of (fs : files) (path : text) : text := default [] (content <$> fs !! path).
(** Read-only copies, by their paths. *)
Definition copies (fs : files) (ps : list (text * text)) : files :=
  list_to_map ((fun p => (p.2, File (content_of fs p.1) read_only)) <$> ps).
Definition readable (fs : files) (path : text) : Prop := exists f, fs !! path = Some f /\ owner_reads f = true.

Lemma copy_header_ok fs src dst : src <> dst -> readable fs src ->
  copy_header fs (src, dst) = Ok (<[dst := File (content_of fs src) read_only]> fs).
Proof.
  intros Hne (f & Hf & Hr). unfold copy_header, copy2, make_writable, chmod, content_of. rewrite decide_False, Hf by done.
  destruct (fs !! dst) as [g|] eqn:Hg; cbn [or_raise mbind result_bind].
  - rewrite (lookup_insert_ne _ dst src), Hf by done. cbn [or_raise mbind result_bind]. rewrite Hr, lookup_insert_eq. cbn.
    rewrite lookup_insert_eq. cbn. by rewrite !insert_insert_eq.
  - rewrite Hf. cbn [or_raise mbind result_bind]. rewrite Hr, Hg. cbn. rewrite lookup_insert_eq. cbn. by rewrite insert_insert_eq.
Qed.

(** Sources that can be read and are not written. *)
Definition can_copy (fs : files) (ps : list (text * text)) : Prop :=
  NoDup ps.*2 /\ forall p, p ∈ ps -> p.1 ∉ ps.*2 /\ readable fs p.1.

Lemma copies_cons fs p ps : copies fs (p :: ps) = <[p.2 := File (content_of fs p.1) read_only]> (copies fs ps).
Proof. done. Qed.

Lemma copies_lookup fs ps path : path ∉ ps.*2 -> copies fs ps !! path = None.
Proof.
  intros H. apply not_elem_of_list_to_map. rewrite <- list_fmap_compose. exact H.
Qed.

Lemma copies_insert fs ps path f : (forall p, p ∈ ps -> p.1 <> path) -> copies (<[path := f]> fs) ps = copies fs ps.
Proof.
  intros H. unfold copies. f_equal. apply list_fmap_ext. intros i p Hp. unfold content_of.
  rewrite lookup_insert_ne; [done|]. intros E. apply (H p); [|done]. by eapply list_elem_of_lookup_2.
Qed.

Lemma copy_headers_spec ps : forall fs, can_copy fs ps -> for_each copy_header ps fs = Ok (copies fs ps ∪ fs).
Proof.
  induction ps as [|[src dst] ps IH]; intros fs [Hnd Hp]; [cbn; by rewrite (left_id_L ∅ (∪))|].
  apply NoDup_cons in Hnd as [Hdst Hnd]. destruct (Hp (src, dst)) as [Hsrc Hr]; [left|]. cbn [fst] in *. apply not_elem_of_cons in Hsrc as [Hne Hsrc].
  cbn [for_each]. rewrite copy_header_ok by done. cbn [mbind result_bind]. rewrite IH.
  - f_equal. rewrite copies_cons, copies_insert; cbn [fst snd].
    + rewrite <- insert_union_l, insert_union_r; [done|]. by apply copies_lookup.
    + intros [s d] Hin E. cbn in E. subst s. destruct (Hp (dst, d)) as [H _]; [by right|]. apply H. left.
  - split; [done|]. intros [s d] Hin. destruct (Hp (s, d)) as [H1 (f & Hf & Hrf)]; [by right|]. cbn [fst] in *. apply not_elem_of_cons in H1 as [H1 H2].
    split; [done|]. exists f. by rewrite lookup_insert_ne.
Qed.

(** Copying again changes nothing. *)
Lemma copies_again fs ps : can_copy fs ps -> copies (copies fs ps ∪ fs) ps ∪ (copies fs ps ∪ fs) = copies fs ps ∪ fs.
Proof.
  intros [Hnd Hp]. assert (copies (copies fs ps ∪ fs) ps = copies fs ps) as ->.
  { set (fs' := copies fs ps ∪ fs). unfold copies. f_equal. apply list_fmap_ext. intros i p Hi. unfold content_of. do 3 f_equal.
    destruct (Hp p) as [H _]; [by eapply list_elem_of_lookup_2|]. unfold fs'. rewrite lookup_union_r; [done|]. by apply copies_lookup. }
  rewrite (assoc_L (∪)). f_equal. apply map_eq. intros i. rewrite lookup_union. by destruct (copies fs ps !! i).
Qed.

(** An install task leaves read-only copies of its inputs, changes nothing else, and can
    be run again, although what it wrote is read-only. *)
Theorem install_spec t fs : t_mode t = install -> length (inputs t) = length (outputs t) ->
  can_copy fs (zip (inputs t) (outputs t)) ->
  let fs' := copies fs (zip (inputs t) (outputs t)) ∪ fs in
  ns3header_run t fs = Ok (fs', 0%Z) /\ ns3header_run t fs' = Ok (fs', 0%Z).
Proof.
  intros Hm Hl Hc. cbv zeta. unfold ns3header_run. rewrite !decide_True by exact Hm. rewrite !bool_decide_true by exact Hl. cbn [py_assert mbind result_bind].
  rewrite copy_headers_spec by done. split; [done|]. rewrite copy_headers_spec; [cbn [mbind result_bind]; rewrite copies_again by done; done|].
  destruct Hc as [Hnd Hp]. split; [done|]. intros p Hin. destruct (Hp p Hin) as [H1 (f & Hf & Hr)]. split; [done|].
  exists f. split; [|done]. rewrite lookup_union_r; [done|]. by apply copies_lookup.
Qed.

(** A remove task takes its header away, if it is there, and waf runs it only then. *)
Theorem remove_spec waf t fs : t_mode t = txt "remove" -> inputs t = [] -> outputs t = [] ->
  ns3header_run t fs = Ok (delete (header_to_remove t) fs, 0%Z) /\
  gen_module_header_run [] t fs = Ok (delete (header_to_remove t) fs, 0%Z) /\
  (runnable_status waf t fs = SKIP_ME <-> delete (header_to_remove t) fs = fs) /\ runnable_status waf t fs <> ASK_LATER.
Proof.
  intros Hm Hi Ho.
  assert (remove_header t fs = Ok (delete (header_to_remove t) fs, 0%Z)) as E.
  { unfold remove_header, unlink. rewrite Hi, Ho. cbn. destruct (fs !! header_to_remove t) eqn:Hf; [done|]. cbn. by rewrite delete_id. }
  unfold ns3header_run, gen_module_header_run, runnable_status. rewrite !Hm, decide_False, !decide_True, E by done.
  repeat split; destruct (fs !! header_to_remove t) eqn:Hf; try done.
  - intros _. by rewrite delete_id.
  - intros Hd. rewrite <- Hd, lookup_delete_eq in Hf. done.
Qed.

(** ** What the header of a module includes *)

(** What a line includes, for the preprocessor, and a file. *)
Definition included (line : text) : option text :=
  let start := txt "#include " ++ [quote] in
  if starts_with line start then
    let '(name, rest) := span (fun c => bool_decide (c <> quote)) (drop (length start) line) in
    match rest with [] => None | _ => Some name end
  else None.
Definition includes (t : text) : list text := omap included (split_on newline t).

(** A file name that can be included. *)
Definition nameable (name : text) : Prop := newline ∉ name /\ quote ∉ name.

Lemma split_lines l : Forall (fun line => newline ∉ line) l -> split_on newline (lines_text l) = l ++ [[]].
Proof.
  induction l as [|x l IH]; intros H; [done|]. apply Forall_cons in H as [Hx Hl].
  change (lines_text (x :: l)) with ((x ++ [newline]) ++ lines_text l). 
  rewrite <- app_assoc. cbn [app]. by rewrite split_on_app, IH by done.
Qed.

Lemma included_line name : nameable name -> included (include_line name) = Some name.
Proof.
  intros [_ Hq]. unfold included, include_line, starts_with. set (start := txt "#include " ++ [quote]).
  assert (txt "#include " ++ [quote] ++ name ++ [quote] = start ++ name ++ [quote]) as -> by done.
  rewrite bool_decide_true by (by apply prefix_app_r). rewrite drop_app_length, span_all; [done|..].
  - apply Forall_forall. intros c Hc. apply bool_decide_true. by intros ->.
  - cbn. by rewrite bool_decide_false by (intros H; by apply H).
Qed.

Lemma not_included module : omap included (first_lines module) = [].
Proof. reflexivity. Qed.

Lemma upper_newline c : upper_char c = newline -> c = newline.
Proof. destruct c as [[] [] [] [] [] [] [] []]; vm_compute; congruence. Qed.

Lemma macro_newline module : newline ∉ module -> newline ∉ macro module.
Proof.
  intros H (c & Hc & Hin)%list_elem_of_fmap. case_decide; [by vm_compute in Hc|]. unfold upper in Hin.
  apply list_elem_of_fmap in Hin as (c' & -> & Hin). symmetry in Hc. apply upper_newline in Hc as ->. done.
Qed.

Lemma module_header_includes module headers : newline ∉ module -> Forall nameable headers ->
  includes (module_header_text module headers) = sort_texts headers.
Proof.
  intros Hm Hh. assert (Forall nameable (sort_texts headers)) as Hs by (by rewrite sort_texts_perm).
  unfold includes, module_header_text. rewrite split_lines.
  - rewrite !omap_app, not_included. cbn [app omap list_omap]. change (included []) with (@None text). cbn.
    rewrite !app_nil_r. induction Hs as [|h l Hn Hs IH]; [done|]. cbn [fmap list_fmap omap list_omap]. rewrite included_line by done. by rewrite IH.
  - assert (forall a b : text, newline ∉ a -> newline ∉ b -> newline ∉ a ++ b) as Happ by (intros a b; rewrite elem_of_app; tauto).
    rewrite !Forall_app. split; [|split].
    + unfold first_lines. repeat (apply Forall_cons; split); try apply Forall_nil; try done; try (apply (bool_decide_unpack _); vm_compute; exact I).
      apply Happ; [apply (bool_decide_unpack _); vm_compute; exact I|]. by apply macro_newline.
    + apply Forall_fmap. eapply Forall_impl; [exact Hs|]. intros h [Hn _]. unfold compose, include_line.
      apply Happ; [apply (bool_decide_unpack _); vm_compute; exact I|]. apply Happ; [apply (bool_decide_unpack _); vm_compute; exact I|].
      apply Happ; [done|]. apply (bool_decide_unpack _). vm_compute. exact I.
    + apply Forall_singleton. apply (bool_decide_unpack _). vm_compute. exact I.
Qed.

(** ** The headers of a module, from the generators to the files *)

Section composition.
Context (set_order : list text -> list text) (find_resource : text -> text -> option text) (ns3_node : text -> text).
(** Going through a set yields each element once, in some order; a resource and a node
    have the name that they were asked for. *)
Context (set_order_perm : forall l, set_order l ≡ₚ remove_dups l).
Context (resource_name : forall dir f src, find_resource dir f = Some src -> basename src = basename f).
Context (node_name : forall name, slash ∉ name -> basename (ns3_node name) = name).

Abbreviation apply_header := (apply_ns3header set_order find_resource ns3_node).

(** Waf posts the generators, and runs their tasks in some order. *)
Definition post_headers (gens : list header_gen) : res (list header_task) :=
  for_each (fun ts g => new ← apply_header g; Ok (ts ++ new)) gens [].
Definition run_tasks (ts : list header_task) (fs : files) : res files :=
  for_each (fun fs t => r ← ns3header_run t fs; Ok r.1) ts fs.

Definition source_of (g : header_gen) (f : text) : text := default [] (find_resource (g_directory (hg g)) f).
Definition pair_of (g : header_gen) (f : text) : text * text := (source_of g f, ns3_node (basename f)).
Definition pairs_of (g : header_gen) : list (text * text) := pair_of g <$> set_order (hg_source g).
(** A generator of an enabled module, all of whose files are found. *)
Definition resolved (g : header_gen) : Prop :=
  occurs (txt "ns3header") (g_features (hg g)) = true /\ is_Some (g_module (hg g)) /\ mode_of (hg g) = install /\
  forall f, f ∈ hg_source g -> is_Some (find_resource (g_directory (hg g)) f).
Definition install_task (p : text * text) : header_task := HeaderTask install [p.1] [p.2] [].

Lemma in_order g f : f ∈ set_order (hg_source g) <-> f ∈ hg_source g.
Proof. by rewrite set_order_perm, elem_of_remove_dups. Qed.

Lemma apply_header_ok g : resolved g -> apply_header g = Ok (install_task <$> pairs_of g).
Proof.
  intros (_ & [m Hm] & Hmode & Hf). unfold apply_ns3header. rewrite Hm. cbn [or_raise mbind result_bind].
  assert (forall fs ts, (forall f, f ∈ fs -> f ∈ hg_source g) ->
    for_each (fun ts filename => t ← header_task_of find_resource ns3_node g filename; Ok (ts ++ [t])) fs ts =
    Ok (ts ++ (install_task <$> (pair_of g <$> fs)))) as Hall.
  { intros fs. induction fs as [|f fs IH]; intros ts Hin; [cbn; by rewrite app_nil_r|]. cbn [for_each fmap list_fmap].
    assert (header_task_of find_resource ns3_node g f = Ok (install_task (pair_of g f))) as ->.
    { unfold header_task_of, pair_of, source_of. destruct (Hf f) as [src Hsrc]; [apply Hin; left|]. rewrite Hsrc. cbn [or_raise mbind result_bind].
      by rewrite Hmode, decide_True, (resource_name _ _ _ Hsrc). }
    cbn [mbind result_bind]. rewrite IH by (intros; apply Hin; by right). by rewrite <- app_assoc. }
  apply Hall. intros f. apply in_order.
Qed.

Lemma post_ok gens : Forall resolved gens -> post_headers gens = Ok (install_task <$> (gens ≫= pairs_of)).
Proof.
  intros H. unfold post_headers. enough (forall ts, for_each (fun ts g => new ← apply_header g; Ok (ts ++ new)) gens ts =
    Ok (ts ++ (install_task <$> (gens ≫= pairs_of)))) as E by apply E.
  induction H as [|g gens Hg H IH]; intros ts; [cbn; by rewrite app_nil_r|]. cbn [for_each]. rewrite apply_header_ok by done. cbn [mbind result_bind].
  rewrite IH, bind_cons, fmap_app. by rewrite <- app_assoc.
Qed.

Lemma run_tasks_ok fs ps : can_copy fs ps -> run_tasks (install_task <$> ps) fs = Ok (copies fs ps ∪ fs).
Proof.
  intros H. rewrite <- copy_headers_spec by done. unfold run_tasks. clear H. revert fs. induction ps as [|[src dst] ps IH]; intros fs; [done|].
  cbn [for_each fmap list_fmap]. unfold ns3header_run. cbn [t_mode install_task inputs outputs fst snd]. rewrite decide_True by done.
  cbn [length zip zip_with py_assert mbind result_bind for_each bool_decide].
  destruct (copy_header fs (src, dst)) as [fs1| |]; [|done..]. cbn. apply IH.
Qed.

Lemma can_copy_perm fs ps ps' : ps ≡ₚ ps' -> can_copy fs ps -> can_copy fs ps' /\ copies fs ps' = copies fs ps.
Proof.
  intros Hp [Hnd H]. split; [split|].
  - by rewrite <- Hp.
  - intros p Hin. rewrite <- Hp in *. by apply H.
  - unfold copies. symmetry. apply list_to_map_proper; [|by rewrite Hp]. rewrite <- list_fmap_compose. exact Hnd.
Qed.

(** The headers of a module, by generator and name. *)
Definition names (m : text) (gens : list header_gen) : list text :=
  gens ≫= fun g => if decide (g_module (hg g) = Some m) then basename <$> sort_texts (remove_dups (hg_source g)) else [].

Lemma basename_slash p : slash ∉ basename p.
Proof.
  unfold basename. pose proof (split_on_notin slash p) as H. destruct (last (split_on slash p)) as [b|] eqn:E; [|apply not_elem_of_nil].
  rewrite Forall_forall in H. apply H. rewrite last_lookup in E. by eapply list_elem_of_lookup_2.
Qed.

Lemma elem_of_names m gens x : x ∈ names m gens <-> exists g f, g ∈ gens /\ g_module (hg g) = Some m /\ f ∈ hg_source g /\ x = basename f.
Proof.
  unfold names. rewrite list_elem_of_bind. split.
  - intros (g & Hx & Hg). case_decide as Hm; [|by apply not_elem_of_nil in Hx]. apply list_elem_of_fmap in Hx as (f & -> & Hf).
    rewrite sort_texts_perm, elem_of_remove_dups in Hf. by exists g, f.
  - intros (g & f & Hg & Hm & Hf & ->). exists g. split; [|done]. rewrite decide_True by done. apply list_elem_of_fmap. exists f.
    split; [done|]. by rewrite sort_texts_perm, elem_of_remove_dups.
Qed.

Lemma module_task m gens : Forall resolved gens -> names m gens <> [] ->
  apply_ns3moduleheader ns3_node m install true gens =
    Ok (Some (HeaderTask install (ns3_node <$> names m gens) [ns3_node (m ++ txt "-module.h")] [])).
Proof.
  intros Hr Hne. unfold apply_ns3moduleheader.
  assert (forall st, for_each (module_headers ns3_node m) gens st =
    Ok (st.1 ++ (ns3_node <$> names m gens), st.2 || existsb (fun g => bool_decide (g_module (hg g) = Some m)) gens)) as ->.
  { clear Hne. induction Hr as [|g gens (Hfe & [m' Hm] & _) Hr IH]; intros [ns b]; [cbn; by rewrite app_nil_r, orb_false_r|].
    cbn [for_each existsb].
    assert (module_headers ns3_node m (ns, b) g = Ok (if decide (m' = m) then
      (ns ++ (ns3_node ∘ basename <$> sort_texts (remove_dups (hg_source g))), true) else (ns, b))) as ->
      by (unfold module_headers; by rewrite Hfe, Hm).
    cbn [mbind result_bind fst snd].
    unfold names in *. rewrite bind_cons, Hm. destruct (decide (m' = m)) as [->|Hmm].
    - rewrite decide_True, bool_decide_true by done. rewrite IH. cbn [fst snd]. f_equal. f_equal; [|by rewrite orb_true_r].
      by rewrite fmap_app, <- list_fmap_compose, <- app_assoc.
    - rewrite decide_False, bool_decide_false by congruence. by rewrite IH. }
  cbn [mbind result_bind fst snd app orb]. destruct (existsb _ gens) eqn:E; cbn [negb].
  - rewrite decide_False; [done|]. intros H%fmap_nil_inv. by apply Hne.
  - exfalso. apply Hne. unfold names. clear -E. induction gens as [|g gens IH]; [done|]. cbn [existsb] in E. apply orb_false_iff in E as [E1 E2].
    apply bool_decide_eq_false_1 in E1. rewrite bind_cons, decide_False by done. by apply IH.
Qed.

(** C21: For the generators of headers of the modules that are enabled, whose files can be
    read and do not collide: their tasks, in whatever order waf runs them, and then the
    task of the header of module [m] succeed.  That header then includes exactly the
    headers of the module, sorted, and each of these is in the build directory as a
    read-only copy of its source. *)
Theorem module_header_complete gens fs m : let target := ns3_node (m ++ txt "-module.h") in
  Forall resolved gens -> can_copy fs (gens ≫= pairs_of) -> target ∉ (gens ≫= pairs_of).*2 ->
  default true (owner_writes <$> fs !! target) = true ->
  names m gens <> [] -> Forall nameable (names m gens) -> newline ∉ m ->
  exists ts, post_headers gens = Ok ts /\ forall order, order ≡ₚ ts -> exists fs1 t fs2 h,
    run_tasks order fs = Ok fs1 /\ apply_ns3moduleheader ns3_node m install true gens = Ok (Some t) /\
    gen_module_header_run m t fs1 = Ok (fs2, 0%Z) /\ fs2 !! target = Some h /\
    includes (content h) = sort_texts (names m gens) /\
    forall g f, g ∈ gens -> g_module (hg g) = Some m -> f ∈ hg_source g ->
      basename f ∈ includes (content h) /\ fs2 !! ns3_node (basename f) = Some (File (content_of fs (source_of g f)) read_only).
Proof.
  intros target Hr Hc Ht Hw Hne Hn Hm. eexists. split; [by apply post_ok|]. intros order Ho.
  symmetry in Ho. apply Permutation_sym, Permutation_map_inv in Ho as (ps & -> & Hp). destruct (can_copy_perm fs _ _ Hp Hc) as [Hc' E].
  set (fs1 := copies fs (gens ≫= pairs_of) ∪ fs). exists fs1. eexists.
  assert (fs1 !! target = fs !! target) as Hft by (unfold fs1; rewrite lookup_union_r; [done|]; by apply copies_lookup).
  assert (basename <$> (ns3_node <$> names m gens) = names m gens) as Hb.
  { rewrite <- list_fmap_compose. rewrite <- (list_fmap_id (names m gens)) at 2. apply list_fmap_ext. intros i x Hi. apply node_name.
    apply list_elem_of_lookup_2, elem_of_names in Hi as (g & f & _ & _ & _ & ->). apply basename_slash. }
  assert (exists h, write_file target (module_header_text m (names m gens)) fs1 = Ok (<[target := h]> fs1) /\
    content h = module_header_text m (names m gens)) as (h & Hwrite & Hh).
  { unfold write_file. rewrite Hft. destruct (fs !! target) as [f|]; [cbn [fmap option_fmap option_map default from_option] in Hw; unfold id in Hw; rewrite Hw|]; by eexists. }
  exists (<[target := h]> fs1), h. split; [|split; [by apply module_task|]].
  - fold (install_task <$> ps). by rewrite run_tasks_ok, E.
  - split; [|split; [by rewrite lookup_insert_eq|]].
    + unfold gen_module_header_run. cbn [t_mode outputs inputs]. rewrite decide_False by done.
      cbn [length py_assert bool_decide mbind result_bind or_raise head]. fold target. by rewrite Hb, Hwrite.
    + rewrite Hh, module_header_includes by done. split; [done|]. intros g f Hg Hgm Hf.
      split; [rewrite sort_texts_perm; apply elem_of_names; eauto 6|].
      assert (pair_of g f ∈ gens ≫= pairs_of) as Hin.
      { apply list_elem_of_bind. exists g. split; [|done]. apply list_elem_of_fmap. exists f. by rewrite in_order. }
      rewrite lookup_insert_ne.
      * unfold fs1. apply lookup_union_Some_l. unfold copies. apply elem_of_list_to_map.
        -- rewrite <- list_fmap_compose. apply Hc.
        -- apply list_elem_of_fmap. by exists (pair_of g f).
      * intros Heq. apply Ht. rewrite Heq. apply list_elem_of_fmap. by exists (pair_of g f).
Qed.
End composition.

(** ** The description of a library *)

Section pcfile_facts.
Context (env : text -> env_value) (includedir APPNAME VERSION BUILD_SUFFIX PREFIX LIBDIR : text) (static : bool).
(** The environment as waf and the compilers fill it: the templates are a flag before the
    argument, the values for the dependencies are lists. *)
Context (libpath_flag lib_flag define_flag include_flag : text) (marker : option text) (values : text -> list text).
Context (flags_plain : Forall no_percent [libpath_flag; lib_flag; define_flag; include_flag]).
Context (env_libpath : env (txt "LIBPATH_ST") = EText (libpath_flag ++ txt "%s")) (env_stlibpath : env (txt "STLIBPATH_ST") = EText (libpath_flag ++ txt "%s")).
Context (env_lib : env (txt "LIB_ST") = EText (lib_flag ++ txt "%s")) (env_stlib : env (txt "STLIB_ST") = EText (lib_flag ++ txt "%s")).
Context (env_define : env (txt "DEFINES_ST") = EText (define_flag ++ txt "%s")) (env_include : env (txt "CPPPATH_ST") = EText (include_flag ++ txt "%s")).
Context (env_marker : env (if static then txt "STLIB_MARKER" else txt "SHLIB_MARKER") = match marker with Some t => EText t | None => EList [] end)
        (marker_text : marker <> Some []).
(** [ST] is no dependency: its variables would be the templates. *)
Context (env_dep : forall dep var, dep <> txt "ST" -> var ∈ (txt <$> ["LIBPATH_"; "LINKFLAGS_"; "LIB_"; "CFLAGS_"; "CXXFLAGS_"; "DEFINES_"; "INCLUDES_"]%string) ->
  env (var ++ dep) = EList (values (var ++ dep))).

Lemma env_percent_flag flag arg : no_percent flag -> env_percent (EText (flag ++ txt "%s")) arg = Ok (flag ++ arg).
Proof. intros H. cbn. unfold percent. rewrite percent_plain by done. cbn. by rewrite app_nil_r. Qed.

Lemma map_percent_flag flag args : no_percent flag -> map_percent (EText (flag ++ txt "%s")) args = Ok (app flag <$> args).
Proof.
  intros H. unfold map_percent. enough (forall out, for_each (fun out arg => x ← env_percent (EText (flag ++ txt "%s")) arg; Ok (out ++ [x])) args out =
    Ok (out ++ (app flag <$> args))) as E by apply E.
  induction args as [|arg args IH]; intros out; [cbn; by rewrite app_nil_r|]. cbn [for_each]. rewrite env_percent_flag by done. cbn [mbind result_bind].
  rewrite IH. cbn. by rewrite <- app_assoc.
Qed.

(** The library flags of a dependency: its link flags after each library path (and only
    then), and its libraries. *)
Definition lib_flags (dep : text) : list text :=
  (values (txt "LIBPATH_" ++ dep) ≫= fun path => (libpath_flag ++ path) :: values (txt "LINKFLAGS_" ++ dep)) ++
  (app lib_flag <$> values (txt "LIB_" ++ dep)).
Definition compile_flags (dep : text) : list text :=
  values (txt "CFLAGS_" ++ dep) ++ values (txt "CXXFLAGS_" ++ dep) ++ (app define_flag <$> values (txt "DEFINES_" ++ dep)) ++
  (app include_flag <$> values (txt "INCLUDES_" ++ dep)).
Definition required (use : list text) : list text :=
  (fun dep => txt "libns" ++ VERSION ++ txt "-" ++ drop 4 dep ++ BUILD_SUFFIX) <$> filter (fun dep => is_ns3 dep = true) use.

Ltac dep_value := rewrite env_dep by (try done; cbn; set_solver).

Lemma lib_ok dep : dep <> txt "ST" -> _lib env dep = Ok (lib_flags dep).
Proof.
  intros Hdep. unfold _lib. do 3 dep_value. rewrite env_lib. rewrite !Forall_cons in flags_plain. cbn [env_items].
  rewrite map_percent_flag by tauto. unfold lib_flags.
  enough (forall paths retval, for_each (add_libpath env (EList (values (txt "LINKFLAGS_" ++ dep)))) paths retval =
    Ok (retval ++ (paths ≫= fun path => (libpath_flag ++ path) :: values (txt "LINKFLAGS_" ++ dep)))) as E by (by rewrite E).
  intros paths. induction paths as [|path paths IH]; intros retval; [cbn; by rewrite app_nil_r|]. cbn [for_each].
  assert (add_libpath env (EList (values (txt "LINKFLAGS_" ++ dep))) retval path =
    Ok (retval ++ [libpath_flag ++ path] ++ values (txt "LINKFLAGS_" ++ dep))) as ->
    by (unfold add_libpath; by rewrite env_libpath, env_percent_flag by tauto).
  cbn [mbind result_bind]. rewrite IH, bind_cons. by rewrite <- app_assoc.
Qed.

Lemma self_libs_ok name libdir : _self_libs env static name libdir =
  Ok ((libpath_flag ++ libdir) :: option_list marker ++ [lib_flag ++ name]).
Proof.
  unfold _self_libs. cbv zeta. rewrite !Forall_cons in flags_plain. rewrite env_marker.
  assert (env (if static then txt "STLIBPATH_ST" else txt "LIBPATH_ST") = EText (libpath_flag ++ txt "%s")) as -> by (by destruct static).
  assert (env (if static then txt "STLIB_ST" else txt "LIB_ST") = EText (lib_flag ++ txt "%s")) as -> by (by destruct static).
  rewrite !env_percent_flag by tauto. by destruct marker as [[|c t]|].
Qed.

Lemma dep_cflags_ok use : txt "ST" ∉ use -> forall st, for_each (add_dep_cflags env VERSION BUILD_SUFFIX) use st =
  Ok (st.1 ++ (use ≫= compile_flags), st.2 ++ required use).
Proof.
  rewrite !Forall_cons in flags_plain. induction use as [|dep use IH]; intros Huse [cflags requires]; [cbn; by rewrite !app_nil_r|].
  apply not_elem_of_cons in Huse as [Hdep Huse]. cbn [for_each].
  assert (add_dep_cflags env VERSION BUILD_SUFFIX (cflags, requires) dep = Ok (cflags ++ compile_flags dep,
    if is_ns3 dep then requires ++ [txt "libns" ++ VERSION ++ txt "-" ++ drop 4 dep ++ BUILD_SUFFIX] else requires)) as ->.
  { unfold add_dep_cflags, _defines, _includes. do 4 dep_value. rewrite env_define, env_include. cbn [env_items to_list _listify].
    by rewrite !map_percent_flag by tauto. }
  cbn [mbind result_bind]. rewrite IH by done. cbn [fst snd]. rewrite bind_cons. unfold required.
  rewrite filter_cons. f_equal. f_equal; [by rewrite <- !app_assoc|]. destruct (is_ns3 dep).
  - rewrite decide_True by done. cbn. by rewrite <- app_assoc.
  - by rewrite decide_False.
Qed.

(** The fields of the description, dependency by dependency in their order; but each of
    the further libraries [env.LIBS] becomes one word per character of its flag. *)
Theorem pcfile_fields_spec name use LIBS exported : txt "ST" ∉ use ->
  pcfile_fields env APPNAME VERSION BUILD_SUFFIX static name use LIBS exported =
    Ok ((libpath_flag ++ txt "${libdir}") :: option_list marker ++ [lib_flag ++ APPNAME ++ VERSION ++ txt "-" ++ drop 4 name ++ BUILD_SUFFIX] ++
          (use ≫= lib_flags) ++ (LIBS ≫= fun lib => (fun c => [c]) <$> (lib_flag ++ lib)),
        (include_flag ++ txt "${includedir}") :: (app include_flag <$> exported) ++ (use ≫= compile_flags),
        required use).
Proof.
  intros Huse. unfold pcfile_fields. rewrite self_libs_ok. cbn [mbind result_bind].
  assert (forall libs, for_each (fun libs dep => l ← _lib env dep; Ok (libs ++ l)) use libs = Ok (libs ++ (use ≫= lib_flags))) as ->.
  { induction use as [|dep ds IH]; intros libs; [cbn; by rewrite app_nil_r|].
    apply not_elem_of_cons in Huse as [Hdep Huse]. cbn [for_each]. rewrite lib_ok by done. cbn [mbind result_bind].
    by rewrite IH, bind_cons, <- app_assoc by done. }
  cbn [mbind result_bind]. assert (Forall no_percent [libpath_flag; lib_flag; define_flag; include_flag]) as Hf by done. rewrite !Forall_cons in Hf.
  assert (forall libs, for_each (add_env_lib env) LIBS libs = Ok (libs ++ (LIBS ≫= fun lib => (fun c => [c]) <$> (lib_flag ++ lib)))) as ->.
  { induction LIBS as [|lib ls IH]; intros libs; [cbn; by rewrite app_nil_r|]. cbn [for_each].
    assert (add_env_lib env libs lib = Ok (libs ++ ((fun c => [c]) <$> (lib_flag ++ lib)))) as ->
      by (unfold add_env_lib; by rewrite env_lib, env_percent_flag by tauto).
    cbn [mbind result_bind]. by rewrite IH, bind_cons, <- app_assoc. }
  cbn [mbind result_bind]. rewrite env_include, env_percent_flag, map_percent_flag by tauto. cbn [mbind result_bind]. rewrite dep_cflags_ok by done.
  cbn [mbind result_bind fst snd app]. f_equal. f_equal. f_equal. by rewrite <- !app_assoc.
Qed.
End pcfile_facts.

(** ** Examples *)

Definition source_a : text := txt "/src/core/model/a.h".
Definition source_b : text := txt "/src/core/helper/b.h".
Definition in_ns3 (name : text) : text := txt "/ns3/" ++ name.
(** The file [a.h] was copied before, from an older version. *)
Definition demo_files : files :=
  {[source_a := File (txt "int a;") new_file; source_b := File (txt "int b;") new_file; in_ns3 (txt "a.h") := File (txt "int old;") read_only]}.

Lemma install_spec_witness : exists fs',
  ns3header_run (HeaderTask install [source_a] [in_ns3 (txt "a.h")] []) demo_files = Ok (fs', 0%Z) /\
  ns3header_run (HeaderTask install [source_a] [in_ns3 (txt "a.h")] []) fs' = Ok (fs', 0%Z) /\
  fs' !! in_ns3 (txt "a.h") = Some (File (txt "int a;") read_only).
Proof.
  eexists. destruct (install_spec (HeaderTask install [source_a] [in_ns3 (txt "a.h")] []) demo_files) as [H1 H2]; [reflexivity..| |].
  { split; [apply NoDup_singleton|]. intros p ->%list_elem_of_singleton. split.
    - apply (bool_decide_unpack _). vm_compute. exact I.
    - exists (File (txt "int a;") new_file). split; vm_compute; reflexivity. }
  split; [exact H1|]. split; [exact H2|]. vm_compute. reflexivity.
Defined.

Lemma remove_spec_witness :
  ns3header_run (HeaderTask (txt "remove") [] [] (in_ns3 (txt "a.h"))) demo_files = Ok (delete (in_ns3 (txt "a.h")) demo_files, 0%Z).
Proof. apply (remove_spec (fun _ => RUN_ME)); reflexivity. Defined.

Definition demo_gens : list header_gen :=
  [HeaderGen (Generator (txt "ns3header") [] (Some (txt "core")) false None None [] (txt "/src/core") None) [txt "model/a.h"; txt "helper/b.h"]].
Definition demo_resource (dir f : text) : option text :=
  if decide (f = txt "model/a.h") then Some source_a else if decide (f = txt "helper/b.h") then Some source_b else None.

Lemma in_ns3_name name : slash ∉ name -> basename (in_ns3 name) = name.
Proof.
  intros H. unfold basename. change (in_ns3 name) with ([] ++ slash :: (txt "ns3" ++ slash :: name)).
  rewrite split_on_app by apply not_elem_of_nil. rewrite split_on_app by (apply (bool_decide_unpack _); vm_compute; exact I).
  by rewrite split_on_none.
Qed.
Lemma demo_name dir f src : demo_resource dir f = Some src -> basename src = basename f.
Proof. unfold demo_resource. repeat case_decide; subst; intros [= <-]; vm_compute; reflexivity. Qed.

Lemma module_header_complete_witness : exists ts (fs1 fs2 : files) h,
  post_headers remove_dups demo_resource in_ns3 demo_gens = Ok ts /\ length ts = 2 /\ run_tasks (reverse ts) demo_files = Ok fs1 /\
  fs2 !! in_ns3 (txt "core-module.h") = Some h /\ includes (content h) = [txt "a.h"; txt "b.h"].
Proof.
  destruct (module_header_complete remove_dups demo_resource in_ns3 ltac:(reflexivity) demo_name in_ns3_name demo_gens demo_files (txt "core"))
    as (ts & Hts & Hrun).
  - repeat constructor; try reflexivity; [by eexists|]. intros f [->|[->|[]%not_elem_of_nil]%elem_of_cons]%elem_of_cons; vm_compute; by eexists.
  - split; [apply (bool_decide_unpack _); vm_compute; exact I|].
    intros p Hp. assert (p ∈ [(source_a, in_ns3 (txt "a.h")); (source_b, in_ns3 (txt "b.h"))]) as Hp'.
    { assert (demo_gens ≫= pairs_of remove_dups demo_resource in_ns3 = [(source_a, in_ns3 (txt "a.h")); (source_b, in_ns3 (txt "b.h"))]) as <-
        by (vm_compute; reflexivity). exact Hp. }
    clear Hp. apply elem_of_cons in Hp' as [->|[->|[]%not_elem_of_nil]%elem_of_cons];
      (split; [apply (bool_decide_unpack _); vm_compute; exact I|]); eexists; split; vm_compute; reflexivity.
  - apply (bool_decide_unpack _). vm_compute. exact I.
  - vm_compute. reflexivity.
  - vm_compute. discriminate.
  - repeat constructor; apply (bool_decide_unpack _); vm_compute; exact I.
  - apply (bool_decide_unpack _). vm_compute. exact I.
  - destruct (Hrun (reverse ts)) as (fs1 & t & fs2 & h & H1 & _ & _ & H4 & H5 & _); [apply reverse_Permutation|].
    exists ts, fs1, fs2, h. split; [exact Hts|]. split; [vm_compute in Hts; injection Hts as <-; reflexivity|].
    split; [exact H1|]. split; [exact H4|]. rewrite H5. vm_compute. reflexivity.
Defined.

(** The macro that guards the headers of a module is never defined: a second inclusion is
    not prevented. *)
Example guard_not_defined : occurs (txt "#ifndef NS3_MODULE_CORE") (module_header_text (txt "core") [txt "a.h"]) = true /\
  occurs (txt "#define") (module_header_text (txt "core") [txt "a.h"]) = false.
Proof. split; vm_compute; reflexivity. Qed.

(** An environment: one dependency with link flags and no library path. *)
Definition demo_env (name : text) : env_value :=
  if decide (name = txt "LIBPATH_ST" \/ name = txt "STLIBPATH_ST") then EText (txt "-L%s")
  else if decide (name = txt "LIB_ST" \/ name = txt "STLIB_ST") then EText (txt "-l%s")
  else if decide (name = txt "DEFINES_ST") then EText (txt "-D%s")
  else if decide (name = txt "CPPPATH_ST") then EText (txt "-I%s")
  else if decide (name = txt "LINKFLAGS_GSL") then EList [txt "-pthread"]
  else if decide (name = txt "LIB_GSL") then EList [txt "gsl"]
  else EList [].
Definition demo_values (name : text) : list text := match demo_env name with EList l => l | EText _ => [] end.

Lemma demo_env_dep dep var : dep <> txt "ST" ->
  var ∈ (txt <$> ["LIBPATH_"; "LINKFLAGS_"; "LIB_"; "CFLAGS_"; "CXXFLAGS_"; "DEFINES_"; "INCLUDES_"]%string) ->
  demo_env (var ++ dep) = EList (demo_values (var ++ dep)).
Proof.
  intros Hdep Hvar. unfold demo_values. cbn in Hvar.
  repeat (apply elem_of_cons in Hvar as [->|Hvar]); [..|by apply not_elem_of_nil in Hvar];
    unfold demo_env; repeat case_decide; try reflexivity; exfalso; cbn in *; unfold txt in *; cbn in *; naive_solver congruence.
Qed.

(** The flag of the further library [rt] becomes four words, and the link flags of
    [GSL] are lost. *)
Lemma pcfile_fields_spec_witness :
  pcfile_fields demo_env (txt "ns") (txt "3") [] false (txt "ns3-core") [txt "ns3-mpi"; txt "GSL"] [txt "rt"] [] =
    Ok (txt <$> ["-L${libdir}"; "-lns3-core"; "-lgsl"; "-"; "l"; "r"; "t"]%string, [txt "-I${includedir}"], [txt "libns3-mpi"]).
Proof.
  rewrite (pcfile_fields_spec demo_env (txt "ns") (txt "3") [] false (txt "-L") (txt "-l") (txt "-D") (txt "-I") None demo_values);
    try (vm_compute; reflexivity).
  - repeat constructor; apply (bool_decide_unpack _); vm_compute; exact I.
  - discriminate.
  - exact demo_env_dep.
  - apply (bool_decide_unpack _). vm_compute. exact I.
Defined.
