(* ===== verification/WafSource.v ===== *)
(** * The directories of modules: [src/wscript] and [contrib/wscript].

    Which directories are modules, what [configure] leaves in [conf.env] for the choice of
    modules ([WafModules]), and the modules whose scripts [build] reads. *)
From S2P Require Import Prelude RadLists Wutils WafModules WafBuild PyString PyDict PyPath.

Section source.
(** [os.listdir] of [src] or [contrib], and what is there. *)
Context (top : text) (listdir : list text) (isdir exists_ : text -> bool).

Definition is_module (dirname : text) : bool :=
  negb (starts_with dirname (txt ".") || bool_decide (dirname = txt "CVS")) &&
  let path := path_join top dirname in isdir path && exists_ (path_join path (txt "wscript")).
Definition all_modules : list text := sort_texts (filter (fun d => is_module d = true) listdir).
(** [NS3_MODULES], or [NS3_CONTRIBUTED_MODULES]. *)
Definition known_modules : list text := (fun m => ns3_name (basename m)) <$> all_modules.
End source.

(** [configure] of [src/wscript]: the paths of the modules, what the modules append to them,
    and the flags of the linker. *)
Definition source_configure (blddir : text) (NS3_MODULE_PATH RPATH added : list text) (enable_rpath : bool) : list text * list text :=
  (uniquify_list (NS3_MODULE_PATH ++ [blddir ++ txt "/lib"] ++ added),
   RPATH ++ if enable_rpath then [txt "-Wl,-rpath," ++ blddir] else []).

(** [build]: a module that is not built leaves the list; two have a path. *)
Definition leave_out (src : bool) (modules : list text) (not_built : text) : list text :=
  let not_built := if src && bool_decide (not_built = txt "ns3tcp" \/ not_built = txt "ns3wifi") then txt "test/" ++ not_built else not_built in
  if decide (not_built ∈ modules) then remove_first not_built modules else modules.
Definition built_modules (src : bool) (modules MODULES_NOT_BUILT : list text) : list text := foldl (leave_out src) modules MODULES_NOT_BUILT.
(** The generators of the headers of the modules. *)
Definition module_header_generators (modules : list text) (dir : text) : list generator :=
  (fun m => Generator (txt "ns3moduleheader") [] (Some (basename m)) false None None [] dir None) <$> modules.

(** What [configure] of [wscript] starts with. *)
Definition source_env (src contrib MODULES_NOT_BUILT : list text) : module_env := ModuleEnv src contrib [] [] MODULES_NOT_BUILT false.

(** ** The lists *)

Section facts.
Context (top : text) (listdir : list text) (isdir exists_ : text -> bool).
(** The names of a directory are different, and have no slash. *)
Hypothesis listed_once : NoDup listdir.
Hypothesis no_slash : forall d, d ∈ listdir -> slash ∉ d.
Abbreviation modules := (all_modules top listdir isdir exists_).

Lemma elem_of_modules d : d ∈ modules <-> d ∈ listdir /\ is_module top isdir exists_ d = true.
Proof. unfold all_modules. rewrite sort_texts_perm, list_elem_of_filter. tauto. Qed.
Lemma NoDup_modules : NoDup modules.
Proof using listed_once. unfold all_modules. rewrite sort_texts_perm. by apply NoDup_filter. Qed.
Lemma module_basename d : d ∈ modules -> basename d = d.
Proof using no_slash. intros [Hd _]%elem_of_modules. unfold basename. by rewrite split_on_none by (by apply no_slash). Qed.
Lemma known_modules_names : known_modules top listdir isdir exists_ = ns3_name <$> modules.
Proof using no_slash. unfold known_modules. apply list_fmap_ext. intros i d Hd%list_elem_of_lookup_2. by rewrite module_basename. Qed.

End facts.

(** What stays in the list is in the list, once, and not among those not built. *)
Lemma leave_out_plain src n l : NoDup l -> (src = true -> txt "test/ns3tcp" ∉ l /\ txt "test/ns3wifi" ∉ l /\ txt "ns3tcp" ∉ l /\ txt "ns3wifi" ∉ l) ->
  leave_out src l n = filter (fun m => m <> n) l.
Proof.
  intros Hl Hs. unfold leave_out. assert (forall m, m ∉ l -> filter (fun x => x <> m) l = l) as Hf by (intros m Hm; apply filter_id, Forall_forall; by intros x Hx ->).
  destruct (decide (src = true /\ (n = txt "ns3tcp" \/ n = txt "ns3wifi"))) as [[-> Hn]|Hn].
  - destruct (Hs eq_refl) as (H1 & H2 & H3 & H4). cbn [andb]. rewrite bool_decide_true by done. rewrite decide_False by (by destruct Hn as [->| ->]).
    by destruct Hn as [->| ->]; rewrite Hf.
  - replace (src && bool_decide (n = txt "ns3tcp" \/ n = txt "ns3wifi")) with false.
    + case_decide; [by apply remove_first_filter|by rewrite Hf].
    + symmetry. apply andb_false_iff. destruct src; [right; apply bool_decide_eq_false; tauto|by left].
Qed.

Lemma built_modules_filter src nb l : NoDup l -> (src = true -> txt "test/ns3tcp" ∉ l /\ txt "test/ns3wifi" ∉ l /\ txt "ns3tcp" ∉ l /\ txt "ns3wifi" ∉ l) ->
  built_modules src l nb = filter (fun m => m ∉ nb) l.
Proof.
  unfold built_modules. revert l. induction nb as [|n nb IH]; intros l Hl Hs; cbn [foldl].
  - symmetry. apply filter_id, Forall_forall. intros m _. apply not_elem_of_nil.
  - rewrite leave_out_plain by done. rewrite IH.
    + rewrite list_filter_filter. apply list_filter_iff. intros m. rewrite not_elem_of_cons. tauto.
    + by apply NoDup_filter.
    + intros E. destruct (Hs E) as (H1 & H2 & H3 & H4). by rewrite !list_elem_of_filter; split_and!; intros [_ ?].
Qed.

(** The modules of [src] and [contrib], with the choice of all modules: the modules that stay
    enabled after [configure] are exactly those whose scripts [build] reads, in the same order,
    unless that leaves no module of [src]. *)
Theorem sources_agree src_list contrib_list isdir exists_ nb option :
  let src := all_modules (txt "src") src_list isdir exists_ in
  let contrib := all_modules (txt "contrib") contrib_list isdir exists_ in
  let e := source_env (known_modules (txt "src") src_list isdir exists_) (known_modules (txt "contrib") contrib_list isdir exists_) nb in
  NoDup src_list -> NoDup contrib_list -> (forall d, d ∈ src_list \/ d ∈ contrib_list -> slash ∉ d) -> (forall d, d ∈ src -> d ∉ contrib) ->
  txt "ns3tcp" ∉ src_list -> txt "ns3wifi" ∉ src_list -> or_else option [] = [] ->
  configure_modules option [txt "all_modules"] false e =
    if decide (src <> [] /\ built_modules true src nb = []) then Raise WafError
    else Ok (set_enabled (ns3_name <$> built_modules true src nb) (ns3_name <$> built_modules false contrib nb)
               (ModuleEnv (NS3_MODULES e) (NS3_CONTRIBUTED_MODULES e) (NS3_MODULES e) (NS3_CONTRIBUTED_MODULES e) nb true)).
Proof.
  intros src contrib e Hs Hc Hslash Hdis Ht Hw Ho. unfold configure_modules, enable_modules. rewrite Ho. cbn [head or_raise mbind result_bind].
  rewrite decide_True by done. unfold without_template. cbn [mbind result_bind MODULES_NOT_BUILT NS3_MODULES NS3_CONTRIBUTED_MODULES NS3_ENABLED_MODULES NS3_ENABLED_CONTRIBUTED_MODULES shared e source_env].
  rewrite !app_nil_r. assert (forall d, d ∈ src_list -> slash ∉ d) as Hss by auto. assert (forall d, d ∈ contrib_list -> slash ∉ d) as Hcs by auto.
  rewrite (known_modules_names _ _ _ _ Hss), (known_modules_names _ _ _ _ Hcs). fold src contrib.
  assert (forall a b : text, ns3_name a = ns3_name b -> a = b) as Hinj by (intros a b E; by apply app_inv_head in E).
  assert (NoDup src) as Ns by (by apply NoDup_modules). assert (NoDup contrib) as Nc by (by apply NoDup_modules).
  assert (forall l, built nb (ns3_name <$> l) = ns3_name <$> filter (fun m => m ∉ nb) l) as Hb.
  { intros l. unfold built. induction l as [|m l IH]; [done|]. cbn [fmap list_fmap]. rewrite !filter_cons, IH.
    assert (ns3_name m ∉ ns3_name <$> nb <-> m ∉ nb) as Hm by (rewrite list_elem_of_fmap; split; [intros H Hin; apply H; by exists m|intros H (m' & E & Hin); apply Hinj in E as ->; done]).
    destruct (decide (m ∉ nb)) as [H|H]; [by rewrite decide_True by tauto|by rewrite decide_False by tauto]. }
  rewrite not_built_spec.
  - cbn [NS3_ENABLED_MODULES NS3_ENABLED_CONTRIBUTED_MODULES]. rewrite !Hb.
    rewrite (built_modules_filter true), (built_modules_filter false) by (try done; intros _; unfold src; rewrite !elem_of_modules; split_and!; intros [H _]; try done; by apply (Hss _ H); apply (bool_decide_unpack _); vm_compute).
    destruct (decide (src <> [] /\ filter (fun m => m ∉ nb) src = [])) as [[H1 H2]|H].
    + rewrite decide_True; [done|]. split; [by destruct src|by rewrite H2].
    + rewrite decide_False; [done|]. intros [H1 H2]. apply H. split; [by destruct src|]. by apply fmap_nil_inv in H2.
  - unfold env_ok. cbn. split; [by apply (NoDup_fmap_2_strong _); [intros ???? ?; by apply Hinj|]|]. split; [by apply (NoDup_fmap_2_strong _); [intros ???? ?; by apply Hinj|]|].
    split; [|done]. intros m (a & -> & Ha)%list_elem_of_fmap (b & E & Hb')%list_elem_of_fmap. apply Hinj in E as ->. by apply (Hdis b).
Qed.
