(* ===== verification/BindScan.v ===== *)
(** * What the binding generator decides about the declarations it scans:
    [bindings/python/ns3modulescan-modular.py], [ns3modulescan.py] and the smart pointers of
    [ns3modulegen_core_customizations.py].

    The declarations come from pygccxml, and the wrappers are made by PyBindGen.  Of the
    two scans the older one, [ns3modulescan.py], is written for Python 2, while its first
    line names Python 3: where that matters the version is an argument. *)
From S2P Require Import Prelude PyString PyDict PyPath Wutils TopSort.

Inductive python_version := Python2 | Python3.

(** ** [get_ns3_relative_path] *)

(** [os.path.split] *)
Definition path_split (p : text) : text * text := (dirname p, basename p).
(** [os.path.join( *l)] of components: nothing to join is a [TypeError]. *)
Definition join_path (l : list text) : res text :=
  match l with [] => Raise TypeError | p :: l => Ok (foldl path_join p l) end.

(** One round of [while head], in [ns3modulescan-modular.py] and in [ns3modulescan.py]. *)
Definition modular_step (s : text * list text) : res (text * list text + res text) :=
  let '(head, l) := s in
  if decide (head = []) then Raise AssertionError
  else
    let '(new_head, tail) := path_split head in
    if decide (new_head = head) then Raise ValueError
    else if decide (tail = txt "ns3") then Ok (inr (join_path l)) else Ok (inl (new_head, tail :: l)).
Definition scan_step (s : text * list text) : res (text * list text + res text) :=
  let '(head, l) := s in
  if decide (head = []) then Raise AssertionError
  else
    let '(head, tail) := path_split head in
    if decide (tail = txt "ns3") then Ok (inr (join_path l)) else Ok (inl (head, tail :: l)).

(** The path has no more components than characters.  An empty path gives [None]. *)
Definition get_ns3_relative_path (path : text) : res (option text) :=
  if decide (path = []) then Ok None
  else r ← loop (S (length path)) modular_step (path, []); h ← r; Ok (Some h).
(** The older one need not end. *)
Definition scan_relative_path (fuel : nat) (path : text) : res text :=
  r ← loop fuel scan_step (path, []); r.

(** ** The annotations of a declaration *)

(** An annotation: [None], [True], a text, or those of parameters. *)
Abbreviation params := (gmap text (gmap text text)).
Inductive annotation := ANone | ATrue | AText (t : text) | AParams (p : params).
Abbreviation annotations := (gmap text annotation).

(** [type_annotations], with the entries of the classes and the methods. *)
Definition ignored : annotations := {[txt "ignore" := ANone]}.
Definition not_needed : annotations := {[txt "ignore" := AText (txt "true")]}.
Definition narrowed : annotations := {[txt "automatic_type_narrowing" := AText (txt "true"); txt "allow_subclassing" := AText (txt "false")]}.
Definition of_param (name key value : string) : annotations := {[txt "params" := AParams {[txt name := {[txt key := txt value]}]}]}.
Definition type_annotations : gmap text annotations := list_to_map ((fun p : string * annotations => (txt p.1, p.2)) <$> [
  ("::ns3::AttributeChecker", narrowed); ("::ns3::AttributeValue", narrowed);
  ("::ns3::CommandLine", {[txt "allow_subclassing" := AText (txt "true")]}); ("::ns3::NscTcpL4Protocol", not_needed);
  ("ns3::RandomVariable::RandomVariable(ns3::RandomVariableBase const & variable) [constructor]", ignored);
  ("ns3::RandomVariableBase * ns3::RandomVariable::Peek() const [member function]", ignored);
  ("void ns3::RandomVariable::GetSeed(uint32_t * seed) const [member function]",
    {[txt "params" := AParams {[txt "seed" := {[txt "direction" := txt "out"; txt "array_length" := txt "6"]}]}]});
  ("bool ns3::TypeId::LookupAttributeByName(std::string name, ns3::TypeId::AttributeInformation * info) const [member function]",
    of_param "info" "transfer_ownership" "false");
  ("static bool ns3::TypeId::LookupByNameFailSafe(std::string name, ns3::TypeId * tid) [member function]", ignored);
  ("bool ns3::TraceSourceAccessor::ConnectWithoutContext(ns3::ObjectBase * obj, ns3::CallbackBase const & cb) const [member function]",
    of_param "obj" "transfer_ownership" "false");
  ("bool ns3::TraceSourceAccessor::Connect(ns3::ObjectBase * obj, std::string context, ns3::CallbackBase const & cb) const [member function]",
    of_param "obj" "transfer_ownership" "false");
  ("bool ns3::TraceSourceAccessor::DisconnectWithoutContext(ns3::ObjectBase * obj, ns3::CallbackBase const & cb) const [member function]",
    of_param "obj" "transfer_ownership" "false");
  ("bool ns3::TraceSourceAccessor::Disconnect(ns3::ObjectBase * obj, std::string context, ns3::CallbackBase const & cb) const [member function]",
    of_param "obj" "transfer_ownership" "false");
  ("bool ns3::AttributeAccessor::Set(ns3::ObjectBase * object, ns3::AttributeValue const & value) const [member function]",
    of_param "object" "transfer_ownership" "false");
  ("ns3::EmpiricalVariable::EmpiricalVariable(ns3::RandomVariableBase const & variable) [constructor]", ignored);
  ("static ns3::AttributeList * ns3::AttributeList::GetGlobal() [member function]", {[txt "caller_owns_return" := AText (txt "false")]});
  ("void ns3::CommandLine::Parse(int argc, char * * argv) const [member function]", ignored);
  ("extern void ns3::PythonCompleteConstruct(ns3::Ptr<ns3::Object> object, ns3::TypeId typeId, ns3::AttributeList const & attributes) [free function]",
    ignored);
  ("ns3::Ptr<ns3::Ipv4RoutingProtocol> ns3::Ipv4ListRouting::GetRoutingProtocol(uint32_t index, int16_t & priority) const [member function]",
    of_param "priority" "direction" "out");
  ("ns3::Ipv4RoutingTableEntry * ns3::GlobalRouter::GetInjectedRoute(uint32_t i) [member function]", of_param "return" "caller_owns_return" "false");
  ("ns3::Ipv4RoutingTableEntry * ns3::Ipv4GlobalRouting::GetRoute(uint32_t i) const [member function]", of_param "return" "caller_owns_return" "false");
  ("::ns3::TestCase", not_needed); ("::ns3::TestRunner", not_needed); ("::ns3::TestSuite", not_needed)]%string).

(** A declaration of pygccxml.  A class that is an instance of a template has the files of
    its arguments ([None] for an argument without a location). *)
Inductive decl_kind :=
| MemberFunction (parent : text) | Constructor | FreeFunction
| ClassDecl (template_files : option (list (option text))) | Enumeration | OtherDecl.
Record definition := DefinitionOf {
  d_kind : decl_kind; d_file : text; d_name : text; decl_string : text; d_str : text;
  template_args : list text; default_values : list (option text) }.

(** What a scan changes: the table, which is shared by all declarations, and the
    annotations and the default values of this one. *)
Record hook_state := HookState {
  table : gmap text annotations; global_annotations : annotations; parameter_annotations : params;
  arguments : list (option text) }.
Definition annotate (key : string) (v : annotation) (st : hook_state) : hook_state :=
  HookState (table st) (<[txt key := v]> (global_annotations st)) (parameter_annotations st) (arguments st).
Definition update_global (a : annotations) (st : hook_state) : hook_state :=
  HookState (table st) (a ∪ global_annotations st) (parameter_annotations st) (arguments st).

(** The part for the methods of [Object] and [Simulator]. *)
Definition special_methods (d : definition) (st : hook_state) : hook_state :=
  match d_kind d with
  | MemberFunction parent =>
      let st := if decide (parent = txt "Object" /\ d_name d = txt "GetObject" /\ template_args d = [txt "ns3::Object"])
                then annotate "template_instance_names" (AText (txt "ns3::Object=>GetObject")) st else st in
      let st := if bool_decide (parent = txt "Simulator") && starts_with (d_name d) (txt "Schedule") then annotate "ignore" ANone st else st in
      if decide (parent = txt "Simulator" /\ d_name d = txt "Run") then annotate "ignore" ATrue st else st
  | _ => st
  end.
Definition is_calldef (d : definition) : bool :=
  match d_kind d with MemberFunction _ | Constructor | FreeFunction => true | _ => false end.
Definition fix_default (v : option text) : option text :=
  if decide (v = Some (txt "ns3::MilliSeconds( )")) then Some (txt "ns3::MilliSeconds(0)")
  else if decide (v = Some (txt "ns3::Seconds( )")) then Some (txt "ns3::Seconds(0)") else v.
Definition fix_defaults (d : definition) (st : hook_state) : hook_state :=
  if is_calldef d then HookState (table st) (global_annotations st) (parameter_annotations st) (fix_default <$> arguments st) else st.

(** The annotations of a method in the table; those of its parameters leave the table. *)
Definition table_driven (d : definition) (st : hook_state) : hook_state :=
  match table st !! d_str d with
  | None => st
  | Some a =>
      let rest := delete (txt "params") a in
      match a !! txt "params" with
      | Some (AParams p) =>
          HookState (<[d_str d := rest]> (table st)) (rest ∪ global_annotations st) (p ∪ parameter_annotations st) (arguments st)
      | _ => update_global a st
      end
  end.

(** The same in [ns3modulescan.py], where the entries are deleted during the loop over
    [items()]: that is a list in Python 2 only. *)
Definition scan_table_driven (v : python_version) (d : definition) (st : hook_state) : res hook_state :=
  match v, table st !! d_str d ≫= (.!! txt "params") with
  | Python3, Some _ => Raise RuntimeError
  | _, _ => Ok (table_driven d st)
  end.

Inductive class_rule := RefCounted | Ignored | ByTable.
Definition class_rule_of (decl : text) : class_rule :=
  if starts_with decl (txt "::ns3::SimpleRefCount<") then RefCounted
  else if starts_with decl (txt "::ns3::Callback<") then Ignored
  else if starts_with decl (txt "::ns3::TracedCallback<") then Ignored
  else if starts_with decl (txt "::ns3::Ptr<") then Ignored
  else ByTable.
Definition annotate_class (d : definition) (st : hook_state) : hook_state :=
  match class_rule_of (decl_string d) with
  | RefCounted =>
      annotate "automatic_type_narrowing" (AText (txt "true")) (annotate "peekref_method" (AText (txt "GetReferenceCount"))
        (annotate "decref_method" (AText (txt "Unref")) (annotate "incref_method" (AText (txt "Ref")) st)))
  | Ignored => annotate "ignore" ANone st
  | ByTable => match table st !! decl_string d with None => st | Some a => update_global a st end
  end.

Section modular.
(** The module of each header; the module that is scanned; and [%r] of a text. *)
Context (headers_map : gmap text text) (module : text) (repr : text -> text).

Definition comment (header definition_module : text) (d : definition) : annotation :=
  AText (header ++ txt " (module " ++ repr definition_module ++ txt "): " ++ d_str d).

(** The modules of the arguments of a template, as far as they are of ns-3. *)
Definition template_module (ms : list text) (file : option text) : res (list text) :=
  match file with
  | None => Ok ms
  | Some file =>
      match get_ns3_relative_path file with
      | Raise ValueError => Ok ms
      | Raise e => Raise e
      | NoFuel => NoFuel
      | Ok h => m ← or_raise KeyError (h ≫= fun h => headers_map !! h); Ok (ms ++ [m])
      end
  end.
Definition class_module (definition_module : text) (template_files : option (list (option text))) : res text :=
  match template_files with
  | None => Ok definition_module
  | Some files => ms ← for_each template_module files []; Ok (if decide (module ∈ ms) then module else definition_module)
  end.
Definition python_module (m : text) : text := txt "ns." ++ ((fun c => if decide (c = "-"%char) then "_"%char else c) <$> m).

(** The rest of the hook for a declaration of ns-3, after the comment. *)
Definition annotate_definition (definition_module : text) (d : definition) (st : hook_state) : res hook_state :=
  let st := fix_defaults d (special_methods d st) in
  match d_kind d with
  | ClassDecl files =>
      m ← class_module definition_module files;
      let st := if decide (m <> module) then annotate "import_from_module" (AText (python_module m)) st else st in
      Ok (annotate_class d st)
  | Enumeration =>
      Ok (if decide (definition_module <> module) then annotate "import_from_module" (AText (txt "ns." ++ definition_module)) st else st)
  | FreeFunction =>
      if decide (definition_module <> module) then Ok (annotate "ignore" ANone st)
      else if decide (d_name d = txt "PeekPointer") then Ok (annotate "ignore" ANone st)
      else Ok (table_driven d st)
  | MemberFunction _ | Constructor => Ok (table_driven d st)
  | OtherDecl => Ok st
  end.

(** [PreScanHook.__call__] *)
Definition pre_scan_hook (d : definition) (st : hook_state) : res hook_state :=
  match get_ns3_relative_path (d_file d) with
  | Raise ValueError => Ok st
  | Raise e => Raise e
  | NoFuel => NoFuel
  | Ok None | Ok (Some []) => Ok st
  | Ok (Some header) =>
      definition_module ← or_raise KeyError (headers_map !! header);
      annotate_definition definition_module d (annotate "pygen_comment" (comment header definition_module d) st)
  end.
End modular.

(** [pre_scan_hook] of [ns3modulescan.py].  [template_args] are then those of the demangled
    name. *)
Definition scan_hook (v : python_version) (fuel : nat) (d : definition) (st : hook_state) : res hook_state :=
  ns3_header ← scan_relative_path fuel (d_file d);
  let st := annotate "pygen_comment" (AText (ns3_header ++ txt ": " ++ d_str d)) st in
  let st := fix_defaults d (special_methods d st) in
  match d_kind d with
  | ClassDecl _ => Ok (annotate_class d st)
  | FreeFunction => if decide (d_name d = txt "PeekPointer") then Ok (annotate "ignore" ANone st) else scan_table_driven v d st
  | MemberFunction _ | Constructor => scan_table_driven v d st
  | Enumeration | OtherDecl => Ok st
  end.

(** ** The sections of the monolithic bindings ([ns3modulescan.py]) *)

Section sections.
Context `{!DictOrder text}.

(** [ns3_modules]: the dependencies and the headers of each module. *)
Abbreviation module_table := (gmap text (list text * list text)).
Definition module_names (v : python_version) (ns3_modules : module_table) : res (list text) :=
  match v with Python2 => Ok (sort_texts (dict_keys ns3_modules)) | Python3 => Raise AttributeError end.
Definition module_graph (v : python_version) (ns3_modules : module_table) : res (list (text * text)) :=
  names ← module_names v ns3_modules;
  for_each (fun graph name =>
    m ← or_raise KeyError (ns3_modules !! name); Ok (graph ++ ((fun dep => (dep, name)) <$> sort_texts m.1))) names [].

Definition section_name (module : text) : text :=
  txt "ns3_module_" ++ ((fun c => if decide (c = "-"%char) then "_"%char else c) <$> module).
Record section_table := SectionTable { headers_map : gmap text text; section_precendences : gmap text nat }.
Definition add_section (ns3_modules : module_table) (t : nat * section_table) (module : text) : res (nat * section_table) :=
  let '(prec, t) := t in let name := section_name module in
  m ← or_raise KeyError (ns3_modules !! module);
  Ok (S prec, SectionTable (foldl (fun hs header => <[header := name]> hs) (headers_map t) m.2) (<[name := prec]> (section_precendences t))).
Definition module_sections (v : python_version) (ns3_modules : module_table) : result (@topsort_exn text _ _) (list text * section_table) :=
  graph ← lift (module_graph v ns3_modules); sorted ← topsort graph;
  t ← lift (for_each (add_section ns3_modules) sorted (0, SectionTable ∅ ∅)); Ok (sorted, t.2).

(** [MyPygenClassifier] *)
Definition main_section : text := txt "__main__".
Definition classify (t : section_table) (file_name : text) : text := default main_section (headers_map t !! basename file_name).
Definition get_section_precedence (t : section_table) (section_name : text) : res Z :=
  if decide (section_name = main_section) then Ok (-1)%Z
  else p ← or_raise KeyError (section_precendences t !! section_name); Ok (Z.of_nat p).
End sections.

(** ** Smart pointers ([SmartPointerTransformation]) *)

(** What the second group of the expression matches: up to the first [>], which only
    blanks follow. *)
Definition ptr_argument (name : text) : option text :=
  let s := if starts_with name (txt "ns3::") then drop 5 name
           else if starts_with name (txt "::ns3::") then drop 7 name else name in
  if starts_with s (txt "Ptr<") then
    match span (fun c => negb (bool_decide (c = ">"%char))) (drop 4 s) with
    | ((_ :: _) as inner, _ :: blanks) => if forallb is_space blanks then Some inner else None
    | _ => None
    end
  else None.
Definition const_first : text := txt "const ".
Definition const_last : text := txt " const".
Definition ends_with (s e : text) : bool := bool_decide (e `suffix_of` s).
Definition _get_untransformed_type_traits (name : text) : option text * bool :=
  match ptr_argument name with
  | None => (None, false)
  | Some inner =>
      let name1 := strip inner in
      let '(name1, is_const) := if starts_with name1 const_first then (drop (length const_first) name1, true) else (name1, false) in
      let '(name1, is_const) := if ends_with name1 const_last then (take (length name1 - length const_last) name1, true) else (name1, is_const) in
      let new_name := name1 ++ txt " *" in
      (Some (if starts_with new_name (txt "::") then drop 2 new_name else new_name), is_const)
  end.
(** The type that [create_type_handler] uses instead. *)
Definition correct_ctype (name : text) : res text :=
  match _get_untransformed_type_traits name with
  | (None, _) => Raise TypeError
  | (Some orig_ctype, is_const) =>
      Ok (txt "ns3::Ptr< " ++ take (length orig_ctype - 2) orig_ctype ++ if is_const : bool then txt " const >" else txt " >")
  end.

(** ** Paths *)

Lemma basename_end h c : slash ∉ c -> basename (h ++ slash :: c) = c.
Proof.
  intros Hc. unfold basename. assert (exists w ws, split_on slash (h ++ slash :: c) = w :: ws ++ [c]) as (w & ws & ->).
  { induction h as [|x h (w & ws & IH)]; cbn [app split_on].
    - rewrite decide_True, split_on_none by done. by exists [], [].
    - rewrite IH. case_decide; [by exists [], (w :: ws)|by exists (x :: w), ws]. }
  change (w :: ws ++ [c]) with ((w :: ws) ++ [c]). by rewrite last_snoc.
Qed.

Lemma split_below h x c : x <> slash -> slash ∉ c -> path_split ((h ++ [x]) ++ slash :: c) = (h ++ [x], c).
Proof.
  intros Hx Hc. unfold path_split, dirname. rewrite basename_end by done. f_equal.
  assert (take (length ((h ++ [x]) ++ slash :: c) - length c) ((h ++ [x]) ++ slash :: c) = (h ++ [x]) ++ [slash]) as ->.
  { rewrite (cons_middle slash), app_assoc, length_app, take_app_length'; [done|]. lia. }
  case_match eqn:E.
  - exfalso. rewrite forallb_forall in E. specialize (E x). rewrite !in_app_iff in E. apply Hx, (bool_decide_eq_true_1 (x = slash)), E. left. right. by left.
  - rewrite <- app_assoc. change ([x] ++ [slash]) with (x :: [slash]). apply rstrip_stop; [apply Forall_singleton; by apply bool_decide_eq_true_2|by apply bool_decide_eq_false_2].
Qed.

Lemma join_parts_snoc l c : l <> [] -> join_parts (l ++ [c]) = join_parts l ++ slash :: c.
Proof. intros H. rewrite join_parts_app by done. cbn. by rewrite app_nil_r. Qed.

Lemma split_path l c : Forall simple l -> slash ∉ c -> path_split (slash :: join_parts (l ++ [c])) = (slash :: join_parts l, c).
Proof.
  intros Hl Hc. destruct (decide (l = [])) as [->|Hn].
  - cbn. rewrite app_nil_r. unfold path_split, dirname. change (slash :: c) with ([] ++ slash :: c). rewrite basename_end by done.
    cbn [app length]. replace (S (length c) - length c)%nat with 1%nat by lia. done.
  - rewrite join_parts_snoc by done. destruct (last_simple l Hl Hn) as (h & x & -> & Hx). exact (split_below (slash :: h) x c Hx Hc).
Qed.

Lemma join_simple p l : Forall simple (p :: l) -> join_path (p :: l) = Ok (join_parts (p :: l)).
Proof.
  intros H. cbn [join_path]. f_equal. apply Forall_cons in H as [Hp Hl].
  assert (forall acc, last acc <> Some slash -> acc <> [] -> foldl path_join acc l = acc ++ concat ((fun q => slash :: q) <$> l)) as E.
  { clear p Hp. induction Hl as [|q l (Hq & _ & _ & Hqs) _ IH]; intros acc Ha Hn; [cbn; by rewrite app_nil_r|]. cbn [foldl].
    assert (path_join acc q = acc ++ slash :: q) as ->.
    { unfold path_join. rewrite decide_False, decide_False; [done|naive_solver|]. destruct q as [|y q]; [done|]. intros [= ->]. apply Hqs. left. }
    rewrite IH; [by rewrite <- app_assoc| |by destruct acc].
    destruct (exists_last Hq) as (q' & y & ->). change (slash :: q' ++ [y]) with ((slash :: q') ++ [y]). rewrite app_assoc, last_snoc. intros [= ->]. apply Hqs, elem_of_app. right. left. }
  destruct Hp as (Hp & _ & _ & Hs). apply E; [|done]. destruct (exists_last Hp) as (q & y & ->). rewrite last_snoc. intros [= ->]. apply Hs, elem_of_app. right. left.
Qed.

Definition ns3_dir : text := txt "ns3".
Lemma ns3_simple : simple ns3_dir.
Proof. repeat split; try (vm_compute; discriminate). apply (bool_decide_unpack _). vm_compute. exact I. Qed.

Lemma simple_length l : Forall simple l -> (length l <= length (join_parts l))%nat.
Proof.
  destruct l as [|p l]; [done|]. intros [(Hp & _) H]%Forall_cons. cbn. rewrite length_app.
  assert (length l <= length (concat ((fun q => slash :: q) <$> l)))%nat.
  { clear Hp. induction H as [|q l _ _ IH]; cbn; [lia|]. rewrite length_app. lia. }
  destruct p; [done|]. cbn. lia.
Qed.

(** One round of either loop. *)
Lemma steps_down l c post : Forall simple l -> simple c ->
  modular_step (slash :: join_parts (l ++ [c]), post) = Ok (if decide (c = ns3_dir) then inr (join_path post) else inl (slash :: join_parts l, c :: post)) /\
  scan_step (slash :: join_parts (l ++ [c]), post) = Ok (if decide (c = ns3_dir) then inr (join_path post) else inl (slash :: join_parts l, c :: post)).
Proof.
  intros Hl (Hc & _ & _ & Hs). unfold modular_step, scan_step. rewrite !decide_False by done. rewrite split_path by done. unfold ns3_dir.
  rewrite decide_False; [by case_decide|]. intros E. assert (length (join_parts l) < length (join_parts (l ++ [c])))%nat as Hlt; [|injection E as E'; rewrite <- E' in Hlt; lia].
  destruct (decide (l = [])) as [->|Hn]; [cbn; rewrite app_nil_r; destruct c; [done|cbn; lia]|]. rewrite join_parts_snoc, length_app by done. cbn. lia.
Qed.

Lemma loops_down (step : text * list text -> res (text * list text + res text)) l rest :
  (forall l c post, Forall simple l -> simple c -> step (slash :: join_parts (l ++ [c]), post) =
     Ok (if decide (c = ns3_dir) then inr (join_path post) else inl (slash :: join_parts l, c :: post))) ->
  Forall simple l -> Forall simple rest -> ns3_dir ∉ rest -> forall n post,
  loop (length rest + n) step (slash :: join_parts (l ++ rest), post) = loop n step (slash :: join_parts l, rest ++ post).
Proof.
  intros Hstep Hl. induction rest as [|c rest IH] using rev_ind; intros Hr Hn n post; [by rewrite app_nil_r|].
  apply Forall_app in Hr as [Hr [Hc _]%Forall_cons]. rewrite not_elem_of_app, list_elem_of_singleton in Hn. destruct Hn as [Hn Hcn].
  rewrite length_app. cbn [length]. replace (length rest + 1 + n)%nat with (S (length rest + n)) by lia. cbn [loop].
  rewrite app_assoc, Hstep; [|by apply Forall_app|done]. rewrite decide_False by congruence. rewrite IH by done. by rewrite <- app_assoc.
Qed.

(** A header below the last directory [ns3] of an absolute path is known by its path
    below that directory, in both versions. *)
Theorem relative_path_spec dir below : Forall simple dir -> Forall simple below -> below <> [] -> ns3_dir ∉ below ->
  let path := slash :: join_parts (dir ++ ns3_dir :: below) in
  get_ns3_relative_path path = Ok (Some (join_parts below)) /\
  forall n, (length below < n)%nat -> scan_relative_path n path = Ok (join_parts below).
Proof.
  intros Hd Hb Hn H3 path.
  assert (Forall simple (dir ++ [ns3_dir])) as Hd' by (apply Forall_app; split; [done|apply Forall_singleton, ns3_simple]).
  assert (path = slash :: join_parts ((dir ++ [ns3_dir]) ++ below)) as Epath by (unfold path; by rewrite <- app_assoc).
  assert (join_path below = Ok (join_parts below)) as Hj by (destruct below; [done|by apply join_simple]). split.
  - unfold get_ns3_relative_path. rewrite decide_False by done.
    assert (exists n, S (length path) = (length below + S n)%nat) as [n ->].
    { exists (length path - length below)%nat. assert (length below <= length path)%nat; [|lia]. rewrite Epath.
      assert (Forall simple ((dir ++ [ns3_dir]) ++ below)) as Hall by (by apply Forall_app). pose proof (simple_length _ Hall) as Hlen.
      rewrite length_app in Hlen. cbn [length]. lia. }
    rewrite Epath, loops_down; [|intros; by apply steps_down|done..]. cbn [loop]. rewrite (proj1 (steps_down _ _ _ Hd ns3_simple)).
    rewrite decide_True, app_nil_r, Hj by done. done.
  - intros n Hlt. unfold scan_relative_path. replace n with (length below + S (n - length below - 1))%nat by lia.
    rewrite Epath, loops_down; [|intros; by apply steps_down|done..]. cbn [loop]. rewrite (proj2 (steps_down _ _ _ Hd ns3_simple)).
    rewrite decide_True, app_nil_r, Hj by done. done.
Qed.

(** On an absolute path that is not in such a directory the modular version raises
    [ValueError], which says that the declaration is not of ns-3; the older one never
    ends. *)
Theorem foreign_path comps : Forall simple comps -> ns3_dir ∉ comps ->
  get_ns3_relative_path (slash :: join_parts comps) = Raise ValueError /\
  forall n, scan_relative_path n (slash :: join_parts comps) = NoFuel.
Proof.
  intros Hc H3. split.
  - unfold get_ns3_relative_path. rewrite decide_False by done. pose proof (simple_length _ Hc) as Hlen.
    assert (exists n, S (length (slash :: join_parts comps)) = (length comps + S n)%nat) as [n ->]
      by (exists (S (length (join_parts comps)) - length comps)%nat; cbn [length]; lia).
    pose proof (loops_down modular_step [] comps (fun l c p Hl Hs => proj1 (steps_down l c p Hl Hs)) ltac:(constructor) Hc H3 (S n) []) as E.
    cbn [app] in E. by rewrite E.
  - assert (forall n post, loop n scan_step ([slash], post) = NoFuel) as Hroot by (intros n; induction n as [|n IH]; intros post; [done|]; cbn [loop]; apply IH).
    assert (forall comps n post, Forall simple comps -> ns3_dir ∉ comps -> loop n scan_step (slash :: join_parts comps, post) = NoFuel) as Hall.
    { clear comps Hc H3. intros comps. induction comps as [|c comps IH] using rev_ind; intros [|n] post Hs Hn; [done|apply Hroot|done|].
      apply Forall_app in Hs as [Hs [Hc _]%Forall_cons]. rewrite not_elem_of_app, list_elem_of_singleton in Hn. destruct Hn as [Hn Hcn].
      cbn [loop]. rewrite (proj2 (steps_down _ _ _ Hs Hc)), decide_False by congruence. by apply IH. }
    intros n. unfold scan_relative_path. by rewrite Hall.
Qed.

(** ** Smart pointers *)

(** The name of a class as it is written in a type. *)
Definition plain_type (x : text) : Prop :=
  ">"%char ∉ x /\ starts_with (x ++ [space]) const_first = false /\ ends_with x const_last = false /\ starts_with x (txt "::") = false /\
  exists a m b, x = a :: m /\ x = b.1 ++ [b.2] /\ is_space a = false /\ is_space b.2 = false.
Definition blanks (l : text) : Prop := Forall (fun c => is_space c = true) l.

(** How a constness is written, and the type that is made of it. *)
Inductive constness := Plain | ConstFirst | ConstLast.
Definition written_type (k : constness) (x : text) : text :=
  match k with Plain => x | ConstFirst => const_first ++ x | ConstLast => x ++ const_last end.
Definition is_const (k : constness) : bool := match k with Plain => false | _ => true end.
Definition ptr_type (prefix before x after end_ : text) : text := prefix ++ txt "Ptr<" ++ before ++ x ++ after ++ txt ">" ++ end_.
Definition ns3_ptr (x : text) (const : bool) : text := txt "ns3::Ptr< " ++ x ++ if const then txt " const >" else txt " >".

Lemma strip_type k x before after : plain_type x -> blanks before -> blanks after -> strip (before ++ written_type k x ++ after) = written_type k x.
Proof.
  intros (_ & _ & _ & _ & a & m & [b c] & Ea & Eb & Ha & Hb) H1 H2. cbn [fst snd] in *. unfold strip.
  assert (exists a' m', written_type k x = a' :: m' /\ is_space a' = false) as (a' & m' & E1 & Ha').
  { destruct k; cbn; rewrite Ea; eexists _, _; (split; [reflexivity|]); done. }
  assert (exists b' c', written_type k x = b' ++ [c'] /\ is_space c' = false) as (b' & c' & E2 & Hc').
  { destruct k; cbn [written_type].
    - by exists b, c.
    - exists (const_first ++ b), c. by rewrite Eb, <- app_assoc.
    - exists (x ++ txt " cons"), "t"%char. by rewrite <- app_assoc. }
  rewrite E1. cbn [app]. rewrite lstrip_stop by done. rewrite app_comm_cons, <- E1, E2, <- app_assoc. cbn [app]. by rewrite rstrip_stop, <- E2.
Qed.

Lemma starts_app s rest : starts_with (s ++ rest) s = true.
Proof. apply bool_decide_true. by apply prefix_app_r. Qed.
Lemma ends_app s rest : ends_with (rest ++ s) s = true.
Proof. apply bool_decide_true. by apply suffix_app_r. Qed.

Lemma const_not_first x : starts_with (x ++ [space]) const_first = false ->
  starts_with x const_first = false /\ starts_with (x ++ const_last) const_first = false.
Proof.
  intros Hcf. apply bool_decide_eq_false in Hcf. split; apply bool_decide_eq_false; intros [r Hr]; apply Hcf.
  - exists (r ++ [space]). by rewrite Hr, <- app_assoc.
  - change const_last with ([space] ++ txt "const") in Hr. rewrite app_assoc in Hr. set (y := x ++ [space]) in *.
    destruct (decide (length const_first <= length y)%nat) as [Hlen|Hlen].
    + exists (drop (length const_first) y). rewrite <- (take_drop (length const_first) y) at 1. f_equal.
      apply (f_equal (take (length const_first))) in Hr. by rewrite take_app_le, take_app_length in Hr.
    + exfalso. assert (txt "const" = drop (length y) (const_first ++ r)) as Hdr by (by rewrite <- Hr, drop_app_length).
      rewrite drop_app_le in Hdr by (cbn in *; lia). assert (0 < length y < 6)%nat as Hlt by (unfold y in *; rewrite length_app in *; cbn in *; lia).
      destruct (length y) as [|[|[|[|[|[|n]]]]]]; try lia; by cbn in Hdr.
Qed.

Lemma ptr_argument_spec prefix before x after end_ : prefix ∈ [[]; txt "ns3::"; txt "::ns3::"] ->
  ">"%char ∉ before ++ x ++ after -> before ++ x ++ after <> [] -> blanks end_ ->
  ptr_argument (ptr_type prefix before x after end_) = Some (before ++ x ++ after).
Proof.
  intros Hp Hx Hn He. unfold ptr_argument, ptr_type. set (inner := before ++ x ++ after) in *.
  assert (forall s, s = txt "Ptr<" ++ inner ++ txt ">" ++ end_ -> (if starts_with s (txt "Ptr<") then
    match span (fun c => negb (bool_decide (c = ">"%char))) (drop 4 s) with
    | ((_ :: _) as inner, _ :: blanks) => if forallb is_space blanks then Some inner else None | _ => None end else None) = Some inner) as Hs.
  { clearbody inner. intros s ->. rewrite starts_app. change (drop 4 (txt "Ptr<" ++ inner ++ txt ">" ++ end_)) with (inner ++ ">"%char :: end_).
    rewrite span_all; [|apply Forall_forall; intros c Hc; by rewrite bool_decide_false by (by intros ->)|by rewrite bool_decide_true].
    assert (forallb is_space end_ = true) as Hend by (apply forallb_forall; intros c Hc; unfold blanks in He; rewrite Forall_forall in He; by apply He, list_elem_of_In).
    destruct inner; [done|]. by rewrite Hend. }
  assert (txt "Ptr<" ++ before ++ x ++ after ++ txt ">" ++ end_ = txt "Ptr<" ++ inner ++ txt ">" ++ end_) as -> by (unfold inner; by rewrite <- !app_assoc).
  repeat (apply elem_of_cons in Hp as [->|Hp]); [..|by apply not_elem_of_nil in Hp]; apply Hs; reflexivity.
Qed.

(** Whatever namespace, blanks and side of the [const] a smart pointer is written with,
    its class is found; and the type that replaces it is written in one way, which is
    left as it is. *)
Theorem smart_pointer_roundtrip k prefix before x after end_ : plain_type x ->
  prefix ∈ [[]; txt "ns3::"; txt "::ns3::"] -> blanks before -> blanks after -> blanks end_ ->
  let name := ptr_type prefix before (written_type k x) after end_ in
  _get_untransformed_type_traits name = (Some (x ++ txt " *"), is_const k) /\ correct_ctype name = Ok (ns3_ptr x (is_const k)) /\
  _get_untransformed_type_traits (ns3_ptr x (is_const k)) = (Some (x ++ txt " *"), is_const k) /\
  correct_ctype (ns3_ptr x (is_const k)) = Ok (ns3_ptr x (is_const k)).
Proof.
  intros Hx. assert (forall k prefix before after end_, prefix ∈ [[]; txt "ns3::"; txt "::ns3::"] -> blanks before -> blanks after -> blanks end_ ->
    let name := ptr_type prefix before (written_type k x) after end_ in
    _get_untransformed_type_traits name = (Some (x ++ txt " *"), is_const k) /\ correct_ctype name = Ok (ns3_ptr x (is_const k))) as Hall.
  { clear k prefix before after end_. intros k prefix before after end_ Hp Hb Ha He name.
    assert (forall l, blanks l -> ">"%char ∉ l) as Hbl by (intros l Hl H; unfold blanks in Hl; rewrite Forall_forall in Hl; by apply Hl in H).
    pose proof Hx as (Hgt & [Hcf Hlast]%const_not_first & Hcl & Hns & a & m & b & Ea & _ & _).
    assert (_get_untransformed_type_traits name = (Some (x ++ txt " *"), is_const k)) as E.
    { unfold _get_untransformed_type_traits, name. rewrite ptr_argument_spec; [|done| | |done].
      - rewrite strip_type by done.
        assert (starts_with (x ++ txt " *") (txt "::") = false) as Hns'.
        { apply bool_decide_eq_false in Hns. apply bool_decide_eq_false. intros [r Hr]. apply Hns. rewrite Ea in Hr |- *. destruct m as [|m1 m].
          - exfalso. cbn in Hr. injection Hr as -> Hr. done.
          - cbn in Hr. injection Hr as -> -> _. by exists m. }
        destruct k; cbn [written_type is_const].
        + rewrite Hcf, Hcl, Hns'. done.
        + rewrite starts_app, drop_app_length, Hcl, Hns'. done.
        + rewrite Hlast, ends_app, length_app, Nat.add_sub, take_app_length, Hns'. done.
      - rewrite !elem_of_app. intros [H|[H|H]]; [by apply (Hbl before)| |by apply (Hbl after)]. destruct k; cbn [written_type] in H; [done| |];
          apply elem_of_app in H as [H|H]; try done; revert H; apply (bool_decide_unpack _); vm_compute; exact I.
      - intros [_ [H _]%app_nil]%app_nil. destruct k; cbn [written_type] in H; [congruence|done|]. apply app_nil in H as [? _]. congruence. }
    split; [done|]. unfold correct_ctype. rewrite E, length_app. cbn [length txt list_ascii_of_string]. replace (length x + 2 - 2)%nat with (length x) by lia.
    rewrite take_app_length. by destruct (is_const k). }
  intros Hp Hb Ha He name. destruct (Hall k prefix before after end_ Hp Hb Ha He) as [H1 H2]. split; [done|]. split; [done|].
  assert (ns3_ptr x (is_const k) = ptr_type (txt "ns3::") [space] (written_type (if is_const k then ConstLast else Plain) x) [space] []) as E
    by (unfold ns3_ptr, ptr_type; destruct k; cbn [is_const written_type]; rewrite ?app_nil_r, <- ?app_assoc; reflexivity).
  destruct (Hall (if is_const k then ConstLast else Plain) (txt "ns3::") [space] [space] []) as [H3 H4];
    [right; left|apply Forall_singleton; reflexivity..|constructor|].
  rewrite <- E in H3, H4. destruct k; exact (conj H3 H4).
Qed.

(** ** The sections *)

Section sections_facts.
Context `{!DictOrder text}.
Implicit Types (mods : gmap text (list text * list text)) (t : section_table).

Definition depends mods (dep name : text) : Prop := exists m, mods !! name = Some m /\ dep ∈ m.1.

Lemma module_graph_spec mods : exists graph, module_graph Python2 mods = Ok graph /\ forall dep name, (dep, name) ∈ graph <-> depends mods dep name.
Proof.
  unfold module_graph. cbn [module_names mbind result_bind].
  destruct (for_each_inv (fun graph name => m ← or_raise KeyError (mods !! name); Ok (graph ++ ((fun dep => (dep, name)) <$> sort_texts m.1)) : res _)
    (fun pre post graph => (forall name, name ∈ post -> is_Some (mods !! name)) /\
       forall dep name, (dep, name) ∈ graph <-> name ∈ pre /\ depends mods dep name)
    ) with (l := sort_texts (dict_keys mods)) (s := @nil (text * text)) as (graph & E & _ & Hg).
  - intros pre x post s [Hpost Hs]. destruct (Hpost x) as [m Hm]; [left|]. rewrite Hm. cbn. eexists. split; [reflexivity|]. split; [intros; apply Hpost; by right|].
    intros dep name. rewrite !elem_of_app, Hs, list_elem_of_singleton, list_elem_of_fmap. setoid_rewrite sort_texts_perm. split.
    + intros [?|(d & [= -> ->] & Hd)]; [naive_solver|]. split; [by right|by exists m].
    + intros [[?| ->] Hd]; [by left; split|]. right. destruct Hd as (m' & Hm' & Hd). simplify_eq. by exists dep.
  - split; [|intros; split; [intros []%not_elem_of_nil|intros [[]%not_elem_of_nil _]]].
    intros name. by rewrite sort_texts_perm, elem_of_dict_keys.
  - exists graph. split; [exact E|]. intros dep name. rewrite Hg, sort_texts_perm, elem_of_dict_keys. split; [naive_solver|].
    intros Hd. split; [|done]. destruct Hd as (m & -> & _). by eexists.
Qed.

(** What the loop over the sorted modules has done for those of [pre]. *)
Record sections_inv mods (pre : list text) (prec : nat) t : Prop := {
  si_prec : prec = length pre;
  si_precedence : forall i m, pre !! i = Some m -> section_precendences t !! section_name m = Some i;
  si_origin : forall h s, headers_map t !! h = Some s -> exists name m, name ∈ pre /\ mods !! name = Some m /\ h ∈ m.2 /\ s = section_name name;
  si_header : forall name m h, name ∈ pre -> mods !! name = Some m -> h ∈ m.2 -> is_Some (headers_map t !! h) }.

Lemma headers_added (name h : text) (hs : list text) (hm : gmap text text) :
  foldl (fun hs header => <[header := name]> hs) hm hs !! h = if decide (h ∈ hs) then Some name else hm !! h.
Proof.
  revert hm. induction hs as [|x hs IH]; intros hm; cbn [foldl]; [by rewrite decide_False by apply not_elem_of_nil|].
  rewrite IH. destruct (decide (h ∈ hs)) as [H|H]; [by rewrite decide_True by by right|].
  destruct (decide (h = x)) as [->|Hn]; [by rewrite lookup_insert_eq, decide_True by left|]. rewrite lookup_insert_ne, decide_False; [done|set_solver|congruence].
Qed.

Lemma add_section_inv mods pre x m prec t : mods !! x = Some m -> (forall y, y ∈ pre -> section_name y <> section_name x) -> sections_inv mods pre prec t ->
  exists t', add_section mods (prec, t) x = Ok (S prec, t') /\ sections_inv mods (pre ++ [x]) (S prec) t'.
Proof.
  intros Hm Hx [Hp1 Hp2 Hp3 Hp4]. unfold add_section. rewrite Hm. cbn. eexists. split; [reflexivity|]. split; cbn.
  - rewrite length_app. cbn. lia.
  - intros i y Hi. apply lookup_snoc_Some in Hi as [[_ Hi]|[-> <-]]; [|by rewrite lookup_insert_eq, Hp1].
    rewrite lookup_insert_ne; [by apply Hp2|]. apply not_eq_sym, Hx. by eapply list_elem_of_lookup_2.
  - intros h s. rewrite headers_added. setoid_rewrite elem_of_app. case_decide as Hh.
    + intros [= <-]. exists x, m. split; [right; by apply list_elem_of_singleton|done].
    + intros Hs. destruct (Hp3 h s Hs) as (name & m' & ? & ?). exists name, m'. tauto.
  - intros name m' h Hn Hm' Hh. rewrite headers_added. case_decide as Hc; [done|].
    apply elem_of_app in Hn as [Hn|Hn]; [by eapply Hp4|]. apply list_elem_of_singleton in Hn as ->. by simplify_eq.
Qed.

Lemma all_sections mods l : NoDup l -> (forall x, x ∈ l -> is_Some (mods !! x)) -> (forall x y, x ∈ l -> y ∈ l -> section_name x = section_name y -> x = y) ->
  exists prec t, for_each (add_section mods) l (0, SectionTable ∅ ∅) = Ok (prec, t) /\ sections_inv mods l prec t.
Proof.
  intros Hnd Hl Hinj.
  destruct (for_each_inv (add_section mods) (fun pre post s => pre ++ post = l /\ sections_inv mods pre s.1 s.2)) with (l := l) (s := (0%nat, SectionTable ∅ ∅))
    as ([prec t] & E & _ & Hi).
  - intros pre x post [prec t] [El Hi]. destruct (Hl x) as [m Hm]; [rewrite <- El, elem_of_app; right; left|].
    destruct (add_section_inv mods pre x m prec t Hm) as (t' & -> & Hi'); [|done|].
    + intros y Hy E. rewrite <- El in Hnd. apply NoDup_app in Hnd as (_ & Hd & _). apply (Hd y Hy).
      assert (y = x) as ->; [|left]. apply Hinj; [..|done]; rewrite <- El, elem_of_app; [by left|right; left].
    + eexists. split; [reflexivity|]. rewrite <- app_assoc. by split.
  - split; [done|]. split; cbn; [done|done|intros h s; by rewrite lookup_empty|intros ? ? ? []%not_elem_of_nil].
  - by exists prec, t.
Qed.

Lemma section_not_main name : section_name name <> main_section.
Proof. done. Qed.
Lemma section_precedence t name i : section_precendences t !! section_name name = Some i -> get_section_precedence t (section_name name) = Ok (Z.of_nat i).
Proof. intros E. unfold get_section_precedence. case_decide as H; [by apply section_not_main in H|]. by rewrite E. Qed.


End sections_facts.

(** ** The hook *)

Section hook.
Context (hm : gmap text text) (module : text) (repr : text -> text).

(** [owner] is the module that a file belongs to, [None] for a file outside ns-3. *)
Definition known_file (file : text) (owner : option text) : Prop :=
  match owner with
  | None => get_ns3_relative_path file = Raise ValueError
  | Some m => exists h, get_ns3_relative_path file = Ok (Some h) /\ hm !! h = Some m
  end.

(** The template arguments of a class: their files, each with its owner. *)
Definition template_owners (files : option (list (option text))) (owners : list text) : Prop :=
  match files with
  | None => owners = []
  | Some files => exists all, Forall2 known_file (omap id files) all /\ owners = omap id all
  end.

Lemma template_modules files all ms : Forall2 known_file (omap id files) all ->
  for_each (template_module hm) files ms = Ok (ms ++ omap id all).
Proof.
  revert all ms. induction files as [|[f|] files IH]; intros all ms H; cbn in *.
  - apply Forall2_nil_inv_l in H as ->. cbn. by rewrite app_nil_r.
  - apply Forall2_cons_inv_l in H as (o & all' & Hf & H & ->). destruct o as [m|]; cbn in Hf |- *.
    + destruct Hf as (h & -> & Hm). cbn. rewrite Hm. cbn. rewrite (IH _ _ H). by rewrite <- app_assoc.
    + rewrite Hf. cbn. by rewrite (IH _ _ H).
  - by apply IH.
Qed.

Lemma class_module_owner dm files owners : template_owners files owners ->
  class_module hm module dm files = Ok (if decide (module ∈ owners) then module else dm).
Proof.
  intros H. unfold class_module. destruct files as [files|]; cbn in H.
  - destruct H as (all & H & ->). rewrite (template_modules _ _ _ H). done.
  - subst. by rewrite decide_False by apply not_elem_of_nil.
Qed.

Definition import_key : text := txt "import_from_module".
(** The annotations of the table do not say where a class is from. *)
Definition no_imports (table : gmap text annotations) : Prop := forall decl a, table !! decl = Some a -> a !! import_key = None.

Lemma annotate_class_import d st : no_imports (table st) ->
  global_annotations (annotate_class d st) !! import_key = global_annotations st !! import_key /\
  table (annotate_class d st) = table st.
Proof.
  intros Ht. unfold annotate_class. destruct (class_rule_of (decl_string d)); cbn -[lookup insert].
  - split; [|done]. rewrite !lookup_insert_ne by (vm_compute; discriminate). done.
  - split; [|done]. by rewrite lookup_insert_ne by (vm_compute; discriminate).
  - destruct (table st !! decl_string d) as [a|] eqn:E; [|done]. split; [|done]. cbn. rewrite lookup_union_r; [done|by eapply Ht].
Qed.

(** A class of ns-3 is said to be imported from the module that has its header, unless
    that is the module that is scanned or one of the template arguments is of the scanned
    module; and the table of annotations stays as it is. *)
Theorem class_import d st files owners h dm :
  d_kind d = ClassDecl files -> get_ns3_relative_path (d_file d) = Ok (Some h) -> h <> [] -> hm !! h = Some dm ->
  template_owners files owners -> no_imports (table st) -> global_annotations st !! import_key = None ->
  exists st', pre_scan_hook hm module repr d st = Ok st' /\ table st' = table st /\
    global_annotations st' !! import_key = if decide (dm = module \/ module ∈ owners) then None else Some (AText (python_module dm)).
Proof.
  intros Hk Hp Hh Hm Ho Ht Hg. unfold pre_scan_hook. rewrite Hp. destruct h as [|c h]; [done|]. rewrite Hm. cbn [or_raise mbind result_bind].
  unfold annotate_definition, special_methods, fix_defaults, is_calldef. rewrite Hk. cbn iota zeta. rewrite (class_module_owner _ _ _ Ho). cbn [mbind result_bind].
  eexists. split; [reflexivity|].
  set (st1 := annotate "pygen_comment" (comment repr (c :: h) dm d) st).
  assert (global_annotations st1 !! import_key = None) as Hg1 by (cbn -[lookup insert]; by rewrite lookup_insert_ne by (vm_compute; discriminate)).
  destruct (decide (module ∈ owners)) as [Hin|Hin].
  - rewrite decide_False by tauto. rewrite (decide_True _ _ (or_intror Hin)). destruct (annotate_class_import d st1 Ht) as [-> ->]. by split.
  - destruct (decide (dm = module)) as [->|Hne].
    + rewrite decide_False by tauto. rewrite decide_True by (by left). destruct (annotate_class_import d st1 Ht) as [-> ->]. by split.
    + rewrite decide_True by done. rewrite decide_False by tauto.
      destruct (annotate_class_import d (annotate "import_from_module" (AText (python_module dm)) st1) Ht) as [-> ->]. split; [done|].
      cbn -[lookup insert]. by rewrite lookup_insert_eq.
Qed.
End hook.

(** *** The two scans *)

(** States that differ at most in the comment. *)
Definition comment_key : text := txt "pygen_comment".
#[export] Instance hook_state_equiv : Equiv hook_state := fun st1 st2 =>
  table st1 = table st2 /\ parameter_annotations st1 = parameter_annotations st2 /\ arguments st1 = arguments st2 /\
  delete comment_key (global_annotations st1) = delete comment_key (global_annotations st2).
#[export] Instance hook_state_equivalence : Equivalence (≡@{hook_state}).
Proof.
  split; [by intros st|by intros st1 st2 (? & ? & ? & ?)|]. intros st1 st2 st3 (E1 & E2 & E3 & E4) (F1 & F2 & F3 & F4).
  split; [congruence|]. split; [congruence|]. split; congruence.
Qed.

#[local] Ltac fields := cbn [annotate update_global table global_annotations parameter_annotations arguments].
#[export] Instance annotate_proper key v : Proper ((≡) ==> (≡)) (annotate key v).
Proof.
  intros st1 st2 (E1 & E2 & E3 & E4). repeat split; fields; [done..|].
  destruct (decide (txt key = comment_key)) as [->|Hn]; [by rewrite !delete_insert_eq|].
  rewrite !delete_insert_ne by done. by rewrite E4.
Qed.
#[export] Instance update_global_proper a : Proper ((≡) ==> (≡)) (update_global a).
Proof. intros st1 st2 (E1 & E2 & E3 & E4). repeat split; fields; [done..|]. by rewrite !delete_union, E4. Qed.
#[export] Instance special_methods_proper d : Proper ((≡) ==> (≡)) (special_methods d).
Proof. intros st1 st2 E. unfold special_methods. repeat case_match; by rewrite ?E. Qed.
#[export] Instance fix_defaults_proper d : Proper ((≡) ==> (≡)) (fix_defaults d).
Proof. intros st1 st2 E. unfold fix_defaults. case_match; [|done]. destruct E as (E1 & E2 & E3 & E4). repeat split; fields; by rewrite ?E1, ?E2, ?E3, ?E4. Qed.
#[export] Instance annotate_class_proper d : Proper ((≡) ==> (≡)) (annotate_class d).
Proof. intros st1 st2 E. unfold annotate_class. rewrite (proj1 E). repeat case_match; by rewrite ?E. Qed.
#[export] Instance table_driven_proper d : Proper ((≡) ==> (≡)) (table_driven d).
Proof.
  intros st1 st2 E. unfold table_driven. rewrite (proj1 E). destruct (table st2 !! d_str d) as [a|]; [|done].
  destruct (a !! txt "params") as [[| | |p]|]; try (by rewrite E). destruct E as (E1 & E2 & E3 & E4).
  split; [done|]. split; [fields; by rewrite E2|]. split; [done|]. fields. by rewrite !delete_union, E4.
Qed.
Lemma comment_irrelevant v st : annotate "pygen_comment" v st ≡ st.
Proof. repeat split. fields. apply delete_insert_eq. Qed.

(** On a declaration of the scanned module both scans leave the same table,
    annotations and default values, except for the comment. *)
Theorem scans_agree hm module repr d st dir below n :
  Forall simple dir -> Forall simple below -> below <> [] -> ns3_dir ∉ below -> (length below < n)%nat ->
  d_file d = slash :: join_parts (dir ++ ns3_dir :: below) -> hm !! join_parts below = Some module ->
  (forall files, d_kind d = ClassDecl files -> exists owners, template_owners hm files owners) ->
  exists st1 st2, pre_scan_hook hm module repr d st = Ok st1 /\ scan_hook Python2 n d st = Ok st2 /\ st1 ≡ st2.
Proof.
  intros Hd Hb Hn H3 Hlen Hf Hm Ho. destruct (relative_path_spec dir below Hd Hb Hn H3) as [E1 E2]. specialize (E2 n Hlen). rewrite <- Hf in E1, E2.
  assert (join_parts below <> []) as Hne by (destruct below as [|b l]; [done|]; apply Forall_cons in Hb as [(Hb & _) _]; by destruct b).
  unfold pre_scan_hook, scan_hook. rewrite E1, E2. destruct (join_parts below) as [|c h] eqn:Ej; [done|]. rewrite Hm. cbn [or_raise mbind result_bind].
  set (st1 := annotate "pygen_comment" (comment _ _ _ _) st). set (st2 := annotate "pygen_comment" _ st).
  assert (fix_defaults d (special_methods d st1) ≡ fix_defaults d (special_methods d st2)) as E by (unfold st1, st2; by rewrite !comment_irrelevant).
  unfold annotate_definition. set (u1 := fix_defaults _ _) in *. set (u2 := fix_defaults d (special_methods d st2)) in *. clearbody u1 u2.
  unfold scan_table_driven. destruct (d_kind d) as [parent| | |fs| |] eqn:Ek.
  - do 2 eexists. split; [done|]. split; [done|]. by rewrite E.
  - do 2 eexists. split; [done|]. split; [done|]. by rewrite E.
  - rewrite decide_False by tauto. case_decide; (do 2 eexists; split; [done|]; split; [done|]; by rewrite E).
  - destruct (Ho fs eq_refl) as [owners Hfs]. rewrite (class_module_owner _ _ _ _ _ Hfs). cbn [mbind result_bind].
    replace (if decide (module ∈ owners) then module else module) with module by (by case_decide). rewrite decide_False by tauto.
    do 2 eexists. split; [done|]. split; [done|]. by rewrite E.
  - rewrite decide_False by tauto. do 2 eexists. split; [done|]. by split.
  - do 2 eexists. split; [done|]. by split.
Qed.

(** The parameters of an annotated method are only annotated once: the table, which all
    declarations share, has lost them when a declaration with the same text comes. *)
Theorem params_once d st a p : table st !! d_str d = Some a -> a !! txt "params" = Some (AParams p) ->
  let st' := table_driven d st in
  parameter_annotations st' = p ∪ parameter_annotations st /\
  forall d' global params arguments, d_str d' = d_str d ->
    parameter_annotations (table_driven d' (HookState (table st') global params arguments)) = params.
Proof.
  intros Ha Hp st'. unfold st', table_driven. rewrite Ha, Hp. split; [done|]. intros d' global params arguments ->. cbn -[lookup insert delete].
  rewrite lookup_insert_eq, lookup_delete_eq. done.
Qed.

(** ** Examples and witnesses *)

Lemma params_once_witness : let d := DefinitionOf OtherDecl [] [] [] (txt "f") [] [] in
  let st := HookState {[txt "f" := of_param "info" "transfer_ownership" "false"]} ∅ ∅ [] in
  parameter_annotations (table_driven d st) = {[txt "info" := {[txt "transfer_ownership" := txt "false"]}]} ∪ ∅.
Proof.
  intros d st. exact (proj1 (params_once d st (of_param "info" "transfer_ownership" "false")
    {[txt "info" := {[txt "transfer_ownership" := txt "false"]}]} eq_refl eq_refl)).
Defined.

(** An enumeration of another module is imported from a name that is not the one of the
    Python module, if the module's has a dash; that of a class is right. *)
Example enum_import :
  let hook k := (fun st => global_annotations st !! import_key) <$>
    pre_scan_hook {[txt "box.h" := txt "csma-layout"]} (txt "core") id (DefinitionOf k (txt "/b/ns3/box.h") [] [] [] [] []) (HookState ∅ ∅ ∅ []) in
  hook Enumeration = Ok (Some (AText (txt "ns.csma-layout"))) /\ hook (ClassDecl None) = Ok (Some (AText (txt "ns.csma_layout"))).
Proof. split; vm_compute; reflexivity. Qed.

Lemma simple_by (l : list text) : forallb (fun p => bool_decide (simple p)) l = true -> Forall simple l.
Proof. intros H. apply Forall_forall. intros x Hx. eapply bool_decide_eq_true_1, (proj1 (forallb_forall _ l) H), list_elem_of_In, Hx. Qed.

Lemma relative_path_spec_witness : get_ns3_relative_path (txt "/b/ns3/helper/box.h") = Ok (Some (txt "helper/box.h")).
Proof.
  exact (proj1 (relative_path_spec [txt "b"] [txt "helper"; txt "box.h"] ltac:(apply simple_by; vm_compute; reflexivity)
    ltac:(apply simple_by; vm_compute; reflexivity) ltac:(discriminate) (bool_decide_unpack (txt "ns3" ∉ [txt "helper"; txt "box.h"]) ltac:(vm_compute; exact I)))).
Defined.
Lemma foreign_path_witness n : scan_relative_path n (txt "/usr/include") = NoFuel.
Proof.
  exact (proj2 (foreign_path [txt "usr"; txt "include"] ltac:(apply simple_by; vm_compute; reflexivity)
    (bool_decide_unpack (txt "ns3" ∉ [txt "usr"; txt "include"]) ltac:(vm_compute; exact I))) n).
Defined.

Lemma smart_pointer_roundtrip_witness : let name := txt "::ns3::Ptr<ns3::Packet const> " in
  _get_untransformed_type_traits name = (Some (txt "ns3::Packet *"), true) /\ correct_ctype name = Ok (txt "ns3::Ptr< ns3::Packet const >").
Proof.
  assert (plain_type (txt "ns3::Packet")) as Hx.
  { split; [exact (bool_decide_unpack (">"%char ∉ txt "ns3::Packet") ltac:(vm_compute; exact I))|]. do 3 (split; [vm_compute; reflexivity|]).
    exists "n"%char, (txt "s3::Packet"), (txt "ns3::Packe", "t"%char). repeat split. }
  destruct (smart_pointer_roundtrip ConstLast (txt "::ns3::") [] (txt "ns3::Packet") [] [space] Hx ltac:(right; right; left)
    ltac:(constructor) ltac:(constructor) ltac:(apply Forall_singleton; reflexivity)) as (H1 & H2 & _). exact (conj H1 H2).
Defined.

Lemma class_import_witness : exists st',
  pre_scan_hook {[txt "box.h" := txt "csma-layout"]} (txt "core") id (DefinitionOf (ClassDecl None) (txt "/b/ns3/box.h") [] [] [] [] []) (HookState ∅ ∅ ∅ []) = Ok st' /\
  global_annotations st' !! import_key = Some (AText (txt "ns.csma_layout")).
Proof.
  destruct (class_import {[txt "box.h" := txt "csma-layout"]} (txt "core") id (DefinitionOf (ClassDecl None) (txt "/b/ns3/box.h") [] [] [] [] [])
    (HookState ∅ ∅ ∅ []) None [] (txt "box.h") (txt "csma-layout") eq_refl ltac:(vm_compute; reflexivity) ltac:(discriminate) eq_refl eq_refl
    ltac:(intros ? ?; cbn; by rewrite lookup_empty) eq_refl) as (st' & H1 & _ & H2).
  exists st'. split; [exact H1|]. rewrite H2. vm_compute. reflexivity.
Defined.


Lemma scans_agree_witness : let d := DefinitionOf FreeFunction (txt "/b/ns3/ptr.h") (txt "PeekPointer") [] [] [] [] in
  exists st1 st2, pre_scan_hook {[txt "ptr.h" := txt "core"]} (txt "core") id d (HookState type_annotations ∅ ∅ []) = Ok st1 /\
    scan_hook Python2 9 d (HookState type_annotations ∅ ∅ []) = Ok st2 /\ st1 ≡ st2.
Proof.
  intros d. apply (scans_agree {[txt "ptr.h" := txt "core"]} (txt "core") id d (HookState type_annotations ∅ ∅ []) [txt "b"] [txt "ptr.h"] 9).
  - apply simple_by. vm_compute. reflexivity.
  - apply simple_by. vm_compute. reflexivity.
  - discriminate.
  - exact (bool_decide_unpack (ns3_dir ∉ [txt "ptr.h"]) ltac:(vm_compute; exact I)).
  - cbn. lia.
  - reflexivity.
  - reflexivity.
  - discriminate.
Defined.

(** Under Python 3 the older scan fails on the first method with annotated parameters. *)
Example scan_python3 : let d := DefinitionOf (MemberFunction (txt "TypeId")) (txt "/b/ns3/type-id.h") [] []
    (txt "bool ns3::TypeId::LookupAttributeByName(std::string name, ns3::TypeId::AttributeInformation * info) const [member function]") [] [] in
  scan_hook Python3 9 d (HookState type_annotations ∅ ∅ []) = Raise RuntimeError.
Proof. vm_compute. reflexivity. Qed.
