(* ===== verification/BindBuild.v ===== *)
(** * The Python bindings in the build: [bindings/python/wscript], and
    [ns3_python_bindings] of [src/wscript].

    [configure] decides whether there are bindings and whether they can be scanned; each
    module asks for its bindings, the module [ns3.py] imports those that are built; the
    tasks of [--apiscan] write the definitions of a module.  Waf's checks, the tools and
    their output are parameters. *)
From S2P Require Import Prelude WafModules WafBuild WafTasks WafHeaders Wutils PyString PyDict PyPath PyFloat.

(** ** Versions *)

(** [s.split(sep)] for a separator of several characters. *)
Definition at_prefix (sep s : text) : option (unit * nat) := if decide (sep `prefix_of` s) then Some (tt, length sep) else None.
Fixpoint words_of {A} (ps : list (ascii + A)) : list text :=
  match ps with
  | [] => [[]]
  | inr _ :: ps => [] :: words_of ps
  | inl c :: ps => match words_of ps with w :: ws => (c :: w) :: ws | [] => [[c]] end
  end.
Definition split_text (sep s : text) : list text := words_of (pieces (at_prefix sep) 0 s).

Definition int_at (ver : list text) (i : Z) : res Z := s ← py_get ver i; int_of_text s.
(** [re.split('[.+]', version)] *)
Definition split_dots_plus (version : text) : list text :=
  split_on "."%char ((fun c => if decide (c = "+"%char) then "."%char else c) <$> version).
Definition split_version (version : text) : res (list Z) :=
  if occurs (txt "post") version then
    let ver := take 4 (split_dots_plus version) in
    a ← int_at ver 0; b ← int_at ver 1; c ← int_at ver 2;
    last ← py_get ver 3; d ← int_at (split_text (txt "post") last) 1;
    Ok [a; b; c; d]
  else
    let ver := take 3 (split_on "."%char version) in
    a ← int_at ver 0; b ← int_at ver 1; c ← int_at ver 2; Ok [a; b; c; 0%Z].

(** [a >= b] for tuples, or lists, of integers. *)
Fixpoint tuple_geb (a b : list Z) : bool :=
  match a, b with
  | _, [] => true
  | [], _ :: _ => false
  | x :: a, y :: b => if decide (x = y) then tuple_geb a b else (y <? x)%Z
  end.

Definition REQUIRED_PYBINDGEN_VERSION : text := txt "0.20.0.post1+ng8ff9892".
Definition REQUIRED_PYGCCXML_VERSION : list Z := [1; 9; 1]%Z.
Definition REQUIRED_CASTXML_VERSION : text := txt "0.2".

Definition ints (l : list text) : res (list Z) := for_each (fun out s => n ← int_of_text s; Ok (out ++ [n])) l [].
Definition pygccxml_version_of (version : text) : res (list Z) := ints (split_on "."%char (lstrip (fun c => bool_decide (c = "v"%char)) version)).
(** The group [\d\.\d] of [castxml_version]. *)
Definition castxml_version_of (line : text) : option text :=
  let start := txt "castxml version " in
  if decide (start `prefix_of` line) then
    match drop (length start) line with
    | a :: d :: b :: _ => if is_digit a && bool_decide (d = "."%char) && is_digit b then Some [a; d; b] else None
    | _ => None
    end
  else None.
Definition first_line (out : text) : text := strip (default [] (head (split_on newline out))).
(** The comparison is one of strings. *)
Definition castxml_ok (out : text) : bool :=
  match castxml_version_of (first_line out) with Some v => text_leb REQUIRED_CASTXML_VERSION v | None => false end.

(** ** [configure] *)

(** [add_to_python_path] on [os.environ]. *)
Definition add_to_python_path (path : text) (environ : gmap text text) : gmap text text :=
  let key := txt "PYTHONPATH" in
  match default [] (environ !! key) with
  | [] => <[key := path]> environ
  | old => <[key := path ++ pathsep ++ old]> environ
  end.

Definition set_pybindgen_pythonpath (WITH_PYBINDGEN : option text) (environ : gmap text text) : gmap text text :=
  match WITH_PYBINDGEN with Some dir => add_to_python_path dir environ | None => environ end.

(** The loop that takes out each [-arch] and what is behind it. *)
Definition drop_arch_step (s : nat * list text) : res ((nat * list text) + list text) :=
  let '(i, flags) := s in
  match flags !! i with
  | None => Ok (inr flags)
  | Some f =>
      if decide (f = txt "-arch") then
        let flags := delete i flags in
        match flags !! i with Some _ => Ok (inl (i, delete i flags)) | None => Raise IndexError end
      else Ok (inl (S i, flags))
  end.
Definition drop_arch (flags : list text) : res (list text) := loop (S (length flags)) drop_arch_step (0, flags).

(** The options, and what the checks of waf and the tools answer. *)
Record bind_checks := BindChecks {
  python_disable : bool; static_build : bool; cygwin : bool; with_pybindgen_option : option text;
  python_found : bool; python_recent : bool; python_headers : bool;
  arch_flags : list (list text); gcc : bool; CC_VERSION : list text; compilation_flag : text -> bool;
  is_dir : text -> bool; has_module : gmap text text -> text -> bool; pybindgen_version : gmap text text -> text;
  types_equal : text -> text -> bool; cxxabi : bool;
  pygccxml_version : option text; castxml : option text }.

(** What [configure] sets in [conf.env], the reports of features and [os.environ]. *)
Record bind_config := BindConfig {
  bc_features : list feature; ENABLE_PYTHON_BINDINGS : bool; ENABLE_PYTHON_SCANNING : bool;
  PYTHON_BINDINGS_APIDEFS : option text; GCC_RTTI_ABI_COMPLETE : text; pyext_flags : list (list text);
  extra_flags : list text; WITH_PYBINDGEN : option text; bc_environ : gmap text text }.
Definition report_in (f : feature) (c : bind_config) : bind_config :=
  BindConfig (report_optional_feature f (bc_features c)) (ENABLE_PYTHON_BINDINGS c) (ENABLE_PYTHON_SCANNING c) (PYTHON_BINDINGS_APIDEFS c)
    (GCC_RTTI_ABI_COMPLETE c) (pyext_flags c) (extra_flags c) (WITH_PYBINDGEN c) (bc_environ c).
Definition report_python (was : bool) (reason : string) : bind_config -> bind_config :=
  report_in (Feature (txt "python") (txt "Python Bindings") was (txt reason)).
Definition report_castxml (was : bool) (reason : string) : bind_config -> bind_config :=
  report_in (Feature (txt "castxml") (txt "Python API Scanning Support") was (txt reason)).

Section configure.
Context (k : bind_checks) (cwd : text) (environ : gmap text text).

Definition initial_config : bind_config := BindConfig [] false false None [] [] [] None environ.

(** The flags of the compilers for extensions. *)
Definition set_pyext_flags (c : bind_config) : res bind_config :=
  flags ← for_each (fun out flags => flags ← drop_arch flags; Ok (out ++ [flags])) (arch_flags k) [];
  hidden ← (if gcc k then version ← ints (CC_VERSION k); Ok (tuple_geb version [4; 0; 0]%Z && compilation_flag k (txt "-fvisibility=hidden")) else Ok false);
  let extra := (if hidden : bool then [txt "-fvisibility=hidden"] else []) ++
               (if compilation_flag k (txt "-Wno-array-bounds") then [txt "-Wno-array-bounds"] else []) in
  Ok (BindConfig (bc_features c) (ENABLE_PYTHON_BINDINGS c) (ENABLE_PYTHON_SCANNING c) (PYTHON_BINDINGS_APIDEFS c)
        (GCC_RTTI_ABI_COMPLETE c) flags extra (WITH_PYBINDGEN c) (bc_environ c)).

Definition find_pybindgen : option text :=
  match with_pybindgen_option k with
  | Some dir => if is_dir k dir then Some (abspath cwd dir) else None
  | None =>
      let dir := path_join up (txt "pybindgen") in
      let release := path_join up (txt "pybindgen-" ++ REQUIRED_PYBINDGEN_VERSION) in
      if is_dir k dir then Some (abspath cwd dir) else if is_dir k release then Some (abspath cwd release) else None
  end.
Definition set_pybindgen (c : bind_config) : bind_config :=
  BindConfig (bc_features c) (ENABLE_PYTHON_BINDINGS c) (ENABLE_PYTHON_SCANNING c) (PYTHON_BINDINGS_APIDEFS c)
    (GCC_RTTI_ABI_COMPLETE c) (pyext_flags c) (extra_flags c) find_pybindgen
    (set_pybindgen_pythonpath find_pybindgen (bc_environ c)).

Definition find_apidefs : option text :=
  let uint64_is_long := types_equal k (txt "uint64_t") (txt "unsigned long") in
  let uint64_is_long_long := types_equal k (txt "uint64_t") (txt "unsigned long long") in
  if uint64_is_long then Some (txt "gcc-LP64") else if uint64_is_long_long then Some (txt "gcc-ILP32") else None.
Definition set_apidefs (c : bind_config) : bind_config :=
  BindConfig (bc_features c) (ENABLE_PYTHON_BINDINGS c) (ENABLE_PYTHON_SCANNING c) find_apidefs
    (GCC_RTTI_ABI_COMPLETE c) (pyext_flags c) (extra_flags c) (WITH_PYBINDGEN c) (bc_environ c).
Definition enable_bindings (c : bind_config) : bind_config :=
  BindConfig (bc_features c) true (ENABLE_PYTHON_SCANNING c) (PYTHON_BINDINGS_APIDEFS c)
    (if cxxabi k then txt "True" else txt "False") (pyext_flags c) (extra_flags c) (WITH_PYBINDGEN c) (bc_environ c).
Definition enable_scanning (c : bind_config) : bind_config :=
  BindConfig (bc_features c) (ENABLE_PYTHON_BINDINGS c) true (PYTHON_BINDINGS_APIDEFS c)
    (GCC_RTTI_ABI_COMPLETE c) (pyext_flags c) (extra_flags c) (WITH_PYBINDGEN c) (bc_environ c).

(** The second half: pygccxml and castxml. *)
Definition configure_scanning (c : bind_config) : res bind_config :=
  if negb (has_module k (bc_environ c) (txt "pygccxml")) then Ok (report_castxml false "Missing 'pygccxml' Python module" c)
  else match pygccxml_version k with
  | None => Ok (report_castxml false "pygccxml Python module version is unknown" c)
  | Some version =>
      v ← pygccxml_version_of version;
      if negb (tuple_geb v REQUIRED_PYGCCXML_VERSION) then Ok (report_castxml false "pygccxml Python module too old" c)
      else match castxml k with
      | None => Ok (report_castxml false "castxml missing" c)
      | Some out => if negb (castxml_ok out) then Ok (report_castxml false "castxml too old" c)
                    else Ok (report_castxml true "" (enable_scanning c))
      end
  end.

Definition configure_bindings : res bind_config :=
  let c := initial_config in
  if python_disable k then Ok (report_python false "disabled by user request" c)
  else if static_build k then Ok (report_python false "bindings incompatible with static build" c)
  else if cygwin k then Ok (report_python false "unsupported platform 'cygwin'" c)
  else if negb (python_found k) then Ok (report_python false "The python interpreter was not found" c)
  else if negb (python_recent k) then Ok (report_python false "The python found version is too low (2.3 required)" c)
  else if negb (python_headers k) then Ok (report_python false "Python library or headers missing" c)
  else
    c ← set_pyext_flags c;
    let c := set_pybindgen c in
    if negb (has_module k (bc_environ c) (txt "pybindgen")) then Ok (report_python false "PyBindGen missing" c)
    else match strip (pybindgen_version k (bc_environ c)) with
    | [] => Ok (report_python false "PyBindGen version not found" c)
    | version =>
        v ← split_version version; required ← split_version REQUIRED_PYBINDGEN_VERSION;
        if negb (tuple_geb v required) then
          Ok (report_python false "PyBindGen version not correct and newer version could not be retrieved" c)
        else
          let c := set_apidefs c in
          match PYTHON_BINDINGS_APIDEFS c with
          | None => Ok (report_python false "No apidefs are available that can be used in this system" c)
          | Some _ => configure_scanning (report_python true "" (enable_bindings c))
          end
    end.
End configure.

(** ** The tasks of [--apiscan] *)

(** [unsigned long(?!( long))] *)
Definition unsigned_long : text := txt "unsigned long".
Definition lone_long (s : text) : option (unit * nat) :=
  if decide (unsigned_long `prefix_of` s /\ ~ txt " long" `prefix_of` drop (length unsigned_long) s) then Some (tt, length unsigned_long) else None.
Definition ilp32_text (bindings : text) : res text := re_sub lone_long (fun _ => Ok (txt "unsigned long long")) bindings.

Definition read_text (path : text) (fs : files) : res text :=
  f ← or_raise IOError (fs !! path); if owner_reads f then Ok (content f) else Raise IOError.
Definition lp64_to_ilp32 (lp64path ilp32path : text) (fs : files) : res files :=
  lp64bindings ← read_text lp64path fs;
  fs ← write_file ilp32path [] fs;
  ilp32bindings ← ilp32_text lp64bindings;
  write_file ilp32path ilp32bindings fs.

Definition suffixed (s p : text) : bool := bool_decide (p `suffix_of` s).

Section scan.
Context `{!DictOrder text}.
Context (set_order : list text -> list text) (generators : list header_gen).

Definition add_headers (headers_map : gmap text text) (g : header_gen) : res (gmap text text) :=
  if occurs (txt "ns3header") (g_features (hg g)) then
    m ← or_raise AttributeError (g_module (hg g));
    if suffixed m (txt "-test") then Ok headers_map
    else Ok (foldl (fun hs h => <[basename h := m]> hs) headers_map (set_order (hg_source g)))
  else Ok headers_map.
Definition get_headers_map : res (gmap text text) := for_each add_headers generators ∅.

Fixpoint module_path_in (gens : list header_gen) (module : text) : res text :=
  match gens with
  | [] => Raise ValueError
  | g :: gens =>
      if occurs (txt "ns3header") (g_features (hg g)) then
        m ← or_raise AttributeError (g_module (hg g));
        if decide (m = module) then Ok (g_directory (hg g)) else module_path_in gens module
      else module_path_in gens module
  end.
Definition get_module_path (module : text) : res text := module_path_in generators module.

(** [repr] of a dictionary of strings. *)
Definition dict_repr (d : gmap text text) : text :=
  txt "{" ++ join (txt ", ") ((fun key => py_repr key ++ txt ": " ++ py_repr (default [] (d !! key))) <$> dict_keys d) ++ txt "}".

Record apiscan_task := ApiScan { scan_target : text; scan_cflags : text; scan_module : text }.
(** The interpreter, the directory of the scripts and the build directory; what the scanner
    does with the files, and its exit status. *)
Context (python curdir top_builddir : text) (popen : list text -> files -> files * Z).
Definition definitions_file (module_path target : text) : text :=
  path_join (path_join module_path (txt "bindings")) (txt "modulegen__" ++ target ++ txt ".py").
Definition scan_argv (t : apiscan_task) (module_path : text) (headers_map : gmap text text) : list text :=
  [python; path_join curdir (txt "ns3modulescan-modular.py"); top_builddir; scan_module t; dict_repr headers_map;
   definitions_file module_path (scan_target t); scan_cflags t].
Definition apiscan_run (t : apiscan_task) (fs : files) : res (files * Z) :=
  module_path ← get_module_path (scan_module t);
  headers_map ← get_headers_map;
  match fs !! path_join (path_join top_builddir (txt "ns3")) (scan_module t ++ txt "-module.h") with
  | None => Ok (fs, 0%Z)
  | Some _ =>
      let '(fs, retval) := popen (scan_argv t module_path headers_map) fs in
      if (0 <=? retval)%Z && occurs (txt "LP64") (scan_target t) then
        fs ← lp64_to_ilp32 (definitions_file module_path (scan_target t)) (definitions_file module_path (txt "gcc_ILP32")) fs;
        Ok (fs, retval)
      else Ok (fs, retval)
  end.

(** [get_modules_and_headers] *)
Definition headers_of (module : text) (headers : list text) (g : header_gen) : res (list text) :=
  if occurs (txt "ns3header") (g_features (hg g)) then
    m ← or_raise AttributeError (g_module (hg g));
    Ok (if decide (m = module) then headers ++ (basename <$> set_order (hg_source g)) else headers)
  else Ok headers.
Definition add_module (module_deps : generator -> option (list text)) (st : gmap text (list text * list text)) (g : header_gen)
    : res (gmap text (list text * list text)) :=
  let name := g_name (hg g) in
  if negb (is_ns3 name) then Ok st
  else if suffixed name (txt "-test") then Ok st
  else
    let module_name := drop 4 name in
    headers ← for_each (headers_of module_name) generators [];
    deps ← or_raise AttributeError (module_deps (hg g));
    Ok (<[module_name := (deps, headers)]> st).
Definition get_modules_and_headers (module_deps : generator -> option (list text)) : res (gmap text (list text * list text)) :=
  for_each (add_module module_deps) generators ∅.

(** ** [build] *)

(** The sizes of [I], [L] and [P]. *)
Definition scan_targets (on_cygwin : bool) (int_size long_size pointer_size : Z) : res (list (text * text)) :=
  if on_cygwin then Ok [(txt "gcc_cygwin", [])]
  else if decide (int_size = 4 /\ long_size = 8 /\ pointer_size = 8)%Z then Ok [(txt "gcc_LP64", txt "-m64")]
  else if decide (int_size = 4 /\ long_size = 4 /\ pointer_size = 4)%Z then Ok [(txt "gcc_ILP32", [])]
  else Raise WafError.
Definition scanned_modules (in_tests : generator -> bool) (MODULAR_BINDINGS_MODULES : list text) (mods : list text) (g : header_gen)
    : res (list text) :=
  let name := g_name (hg g) in
  if negb (is_ns3 name) then Ok mods
  else if in_tests (hg g) then Ok mods
  else if suffixed name (txt "-test") then Ok mods
  else if decide (name ∈ MODULAR_BINDINGS_MODULES) then m ← py_get (split_text (txt "ns3-") name) 1; Ok (mods ++ [m])
  else Ok mods.
Definition scan_modules (in_tests : generator -> bool) (MODULAR_BINDINGS_MODULES : list text) (apiscan : text) : res (list text) :=
  if decide (apiscan = txt "all") then for_each (scanned_modules in_tests MODULAR_BINDINGS_MODULES) generators []
  else Ok (split_on ","%char apiscan).

(** What is added to the group of tasks, and [os.environ]. *)
Inductive bind_task := ScanTask (t : apiscan_task) | CompatModule | CopyInit.
Definition scan_tasks (targets : list (text * text)) (mods : list text) : list bind_task :=
  concat ((fun t => (fun m => ScanTask (ApiScan t.1 t.2 m)) <$> mods) <$> targets).
Definition bindings_build (disable : bool) (apiscan : text) (c : bind_config) (targets : res (list (text * text)))
    (in_tests : generator -> bool) (MODULAR_BINDINGS_MODULES : list text) (environ : gmap text text) : res (gmap text text * list bind_task) :=
  if disable then Ok (environ, [])
  else
    let environ := set_pybindgen_pythonpath (WITH_PYBINDGEN c) environ in
    if decide (apiscan = []) then Ok (environ, if ENABLE_PYTHON_BINDINGS c then [CompatModule; CopyInit] else [])
    else if negb (ENABLE_PYTHON_SCANNING c) then Raise WafError
    else
      targets ← targets;
      mods ← scan_modules in_tests MODULAR_BINDINGS_MODULES apiscan;
      Ok (environ, scan_tasks targets mods).
End scan.

(** ** [ns3_python_bindings] and the module [ns3.py] *)

Definition python_name (module : text) : text := (fun c => if decide (c = "-"%char) then "_"%char else c) <$> module.
Definition import_line (module : text) : text := txt "from ns." ++ python_name module ++ txt " import *".
(** [gen_ns3_compat_pymod_task.run] *)
Definition compat_text (PYTHON_MODULES_BUILT : list text) : text :=
  lines_text ([txt "import warnings";
    txt "warnings.warn(" ++ [quote] ++ txt "the ns3 module is a compatibility layer and should not be used in newly written code" ++ [quote] ++
    txt ", DeprecationWarning, stacklevel=2)"; []] ++ (import_line <$> PYTHON_MODULES_BUILT)).

(** The lists of [bld.env], and what is built for a module: the sources and the command of the
    generator of the extension, its target and flags, and whether [bindings/<module>.py] is
    copied to be the module itself. *)
Record bind_lists := BindLists { MODULAR_BINDINGS_MODULES : list text; PYTHON_MODULES_BUILT : list text }.
Record pymod := PyMod {
  pm_module : text; pm_sources : list (option text); pm_command : list text; pm_features : text; pm_target_dir : text;
  pm_extension : text; pm_frontend : bool; pm_use : list text; pm_linkflags : list text; pm_defines : list text; pm_mac_bundle : bool }.

Section module_bindings.
(** Of the directory of a module: [find_dir("bindings")] exists; [find_resource]; the path to
    [bindings/python/ns].  The generator script, the option, the platform, and [bld.env]. *)
Context (has_bindings : text -> bool) (find_resource : text -> text -> option text) (ns_dir : text -> text) (modulegen_script : option text).
Context (apiscan : text) (platform win_platform : text) (c : bind_config) (NS3_ENABLED_MODULES DEFINES : list text) (optional : list feature) (static : bool).

Definition static_linkflags (use : list text) : res (list text) :=
  if negb static then Ok []
  else if decide (platform = txt "darwin") then Raise AttributeError
  else Ok ([txt "-Wl,--whole-archive,-Bstatic"] ++ ((fun m => txt "-l" ++ m) <$> use) ++ [txt "-Wl,-Bdynamic,--no-whole-archive"]).
Definition ns3_python_bindings (st : bind_lists) (dir : text) : res (bind_lists * option pymod) :=
  let module := basename dir in
  let st := BindLists (MODULAR_BINDINGS_MODULES st ++ [ns3_name module]) (PYTHON_MODULES_BUILT st) in
  if bool_decide (apiscan <> []) then Ok (st, None)
  else if negb (ENABLE_PYTHON_BINDINGS c) then Ok (st, None)
  else if negb (has_bindings dir) then Ok (st, None)
  else if decide (ns3_name module ∉ NS3_ENABLED_MODULES) then Ok (st, None)
  else
    let st := BindLists (MODULAR_BINDINGS_MODULES st) (PYTHON_MODULES_BUILT st ++ [module]) in
    match PYTHON_BINDINGS_APIDEFS c with
    | None => Ok (st, None)
    | Some apidefs =>
        let apidefs := python_name apidefs in
        let resource name := find_resource dir (txt "bindings/" ++ name) in
        let optional_source name := match resource (txt name) with Some p => [Some p] | None => [] end in
        let source := [modulegen_script; resource (txt "modulegen__" ++ apidefs ++ txt ".py")] ++
          optional_source "modulegen_customizations.py" ++
          match resource (txt "modulegen_local.py") with Some _ => [Some (txt "bindings/modulegen_local.py")] | None => [] end in
        let frontend := bool_decide (is_Some (resource (python_name module ++ txt ".py"))) in
        let extension_name := if frontend then txt "_" ++ python_name module else python_name module in
        let command := (txt <$> ["NS3_ENABLED_FEATURES=${FEATURES}"; "GCC_RTTI_ABI_COMPLETE=${GCC_RTTI_ABI_COMPLETE}"; "${PYTHON}"; "${SRC[0]}"]%string) ++
          [dir; apidefs; extension_name] ++ (txt <$> ["${TGT[0]}"; "2>"; "${TGT[2]}"]%string) in
        let features := join (txt ",") (f_name <$> filter (fun f => was_enabled f = true) optional) in
        linkflags ← static_linkflags NS3_ENABLED_MODULES;
        let defines := DEFINES ++ [txt "NS_DEPRECATED="; txt "NS3_DEPRECATED_H"] in
        let defines := if decide (win_platform = txt "win32") then remove_first (txt "_DEBUG") defines else defines in
        Ok (st, Some (PyMod module source command features (ns_dir dir) extension_name frontend NS3_ENABLED_MODULES linkflags defines
              (bool_decide (win_platform = txt "darwin"))))
    end.
(** The modules ask for their bindings one after the other. *)
Definition all_bindings (dirs : list text) (st : bind_lists) : res (bind_lists * list pymod) :=
  for_each (fun s dir => '(st, p) ← ns3_python_bindings s.1 dir; Ok (st, s.2 ++ match p with Some p => [p] | None => [] end)) dirs (st, []).
End module_bindings.

(** ** Flags *)

(** Without each [-arch] and its argument. *)
Fixpoint without_arch (flags : list text) : res (list text) :=
  match flags with
  | [] => Ok []
  | f :: rest =>
      if decide (f = txt "-arch") then match rest with [] => Raise IndexError | _ :: rest => without_arch rest end
      else flags ← without_arch rest; Ok (f :: flags)
  end.

(** The loop ends: it gives the flags without the architectures, and raises [IndexError] when
    the last flag is [-arch]. *)
Theorem drop_arch_spec flags : drop_arch flags = without_arch flags.
Proof.
  unfold drop_arch.
  assert (forall n rest pre fuel, length rest <= n -> length rest < fuel ->
    loop fuel drop_arch_step (length pre, pre ++ rest) = (flags ← without_arch rest; Ok (pre ++ flags))) as H.
  { induction n as [|n IH]; intros rest pre fuel Hn Hf; destruct fuel as [|fuel]; try lia; cbn [loop drop_arch_step].
    - destruct rest; [|cbn in Hn; lia]. rewrite lookup_ge_None_2 by (rewrite app_nil_r; lia). cbn. done.
    - destruct rest as [|f rest].
      + rewrite lookup_ge_None_2 by (rewrite app_nil_r; lia). done.
      + rewrite list_lookup_middle by done. cbn [without_arch length] in *. case_decide as Ef.
        * rewrite delete_middle. destruct rest as [|g rest]; [by rewrite lookup_ge_None_2 by (rewrite app_nil_r; lia)|].
          rewrite list_lookup_middle by done. cbn [mbind result_bind]. rewrite delete_middle. apply IH; cbn in *; lia.
        * cbn [mbind result_bind]. specialize (IH rest (pre ++ [f]) fuel). rewrite length_app, <- app_assoc in IH. cbn [length app] in IH.
          rewrite Nat.add_1_r in IH. rewrite IH by lia. by destruct (without_arch rest); cbn; rewrite <- ?app_assoc. }
  etrans; [apply (H (length flags) flags [] (S (length flags))); lia|]. by destruct (without_arch flags).
Qed.

(** ** Versions *)

Lemma int_of_show n : (0 <= n)%Z -> int_of_text (show_Z n) = Ok n.
Proof.
  intros Hn. unfold int_of_text. rewrite strip_show_Z by done. destruct (show_Z_spec n Hn) as (H1 & H2 & H3).
  assert (sign_of (show_Z n) = (false, show_Z n)) as ->.
  { destruct (show_Z n) as [|c l]; [done|]. apply Forall_cons in H1 as [Hc _]. by destruct c as [[] [] [] [] [] [] [] []]. }
  unfold is_digits. rewrite bool_decide_true by done. assert (forallb is_digit (show_Z n) = true) as -> by (apply forallb_forall; intros c Hc; rewrite Forall_forall in H1; by apply H1, list_elem_of_In).
  cbn. by rewrite H2.
Qed.

Lemma occurs_absent c sep s : c ∉ s -> occurs (c :: sep) s = false.
Proof.
  induction s as [|x s IH]; intros Hc; [done|]. cbn [occurs]. rewrite IH by (intros H; apply Hc; by right).
  rewrite bool_decide_false; [done|]. intros H%prefix_cons_inv_1. apply Hc. subst. left.
Qed.
Lemma split_text_none sep s : sep <> [] -> occurs sep s = false -> split_text sep s = [s].
Proof.
  intros Hs. unfold split_text. induction s as [|x s IH]; intros Ho; [done|]. cbn [occurs] in Ho. apply orb_false_iff in Ho as [Hp Ho]. apply bool_decide_eq_false in Hp.
  cbn [pieces]. unfold at_prefix at 1. rewrite decide_False by done. cbn [words_of]. by rewrite IH.
Qed.
Lemma split_text_absent c sep s : c ∉ s -> split_text (c :: sep) s = [s].
Proof. intros Hc. apply split_text_none; [done|by apply occurs_absent]. Qed.
Lemma pieces_skip {A} (f : text -> option (A * nat)) a s : pieces f (length a) (a ++ s) = pieces f 0 s.
Proof. induction a as [|x a IH]; [done|]. exact IH. Qed.
Lemma split_text_start c sep s : split_text (c :: sep) ((c :: sep) ++ s) = [] :: split_text (c :: sep) s.
Proof.
  unfold split_text. cbn [pieces app]. unfold at_prefix at 1. rewrite decide_True by (by exists s). cbn [length words_of Nat.sub].
  rewrite Nat.sub_0_r. by rewrite pieces_skip.
Qed.

Definition version_text (a b c : Z) : text := show_Z a ++ txt "." ++ show_Z b ++ txt "." ++ show_Z c.
Definition post_version (a b c n : Z) (build : text) : text := version_text a b c ++ txt ".post" ++ show_Z n ++ txt "+" ++ build.

Lemma occurs_app_r s a b : occurs s b = true -> occurs s (a ++ b) = true.
Proof. intros H. induction a as [|x a IH]; [done|]. cbn [app occurs]. by rewrite IH, orb_true_r. Qed.

(** Texts without the points, and numbers between points. *)
Definition plus_dot (x : ascii) : ascii := if decide (x = "+"%char) then "."%char else x.
Lemma plus_dot_none (s : text) : "+"%char ∉ s -> plus_dot <$> s = s.
Proof.
  intros H. induction s as [|x s IH]; [done|]. cbn. rewrite IH by (intros ?; apply H; by right). unfold plus_dot. rewrite decide_False; [done|]. intros ->. apply H. left.
Qed.
Lemma split_numbers a b c rest : (0 <= a)%Z -> (0 <= b)%Z -> (0 <= c)%Z ->
  split_on "."%char (version_text a b c ++ "."%char :: rest) = show_Z a :: show_Z b :: show_Z c :: split_on "."%char rest /\
  split_on "."%char (version_text a b c) = [show_Z a; show_Z b; show_Z c].
Proof.
  intros Ha Hb Hc. unfold version_text. change (txt ".") with ["."%char]. split; [rewrite <- app_assoc; cbn [app]; rewrite <- app_assoc; cbn [app]|cbn [app]];
    by rewrite !split_on_app, ?split_on_none by (by apply show_Z_not).
Qed.

Lemma int_at_show ver j n : (0 <= n)%Z -> ver !! j = Some (show_Z n) -> int_at ver (Z.of_nat j) = Ok n.
Proof.
  intros Hn Hj. unfold int_at, py_get, zlen. rewrite (proj2 (Z.leb_le 0 _)), Nat2Z.id, Hj by lia. cbn [or_raise mbind result_bind]. by apply int_of_show.
Qed.

(** The versions of releases and of development are read as they are written. *)
Theorem split_version_spec a b c n build : (0 <= a)%Z -> (0 <= b)%Z -> (0 <= c)%Z -> (0 <= n)%Z ->
  split_version (version_text a b c) = Ok [a; b; c; 0%Z] /\ split_version (post_version a b c n build) = Ok [a; b; c; n].
Proof.
  intros Ha Hb Hc Hn. assert (forall k x, (0 <= k)%Z -> is_digit x = false -> x ∉ show_Z k) as Hd by (intros; by apply show_Z_not). split.
  - unfold split_version. change (txt "post") with ("p"%char :: txt "ost"). rewrite occurs_absent.
    + destruct (split_numbers a b c [] Ha Hb Hc) as [_ ->]. by rewrite (int_at_show _ 0 a), (int_at_show _ 1 b), (int_at_show _ 2 c).
    + unfold version_text. rewrite !elem_of_app. intros [H|[H|[H|[H|H]]]]; revert H; try (by apply Hd); not_in.
  - unfold split_version, post_version. rewrite occurs_app_r by (change (txt ".post") with ([("."%char)] ++ txt "post"); rewrite <- app_assoc; apply occurs_app_r, occurs_prefix).
    assert (split_dots_plus (version_text a b c ++ txt ".post" ++ show_Z n ++ txt "+" ++ build) = show_Z a :: show_Z b :: show_Z c :: (txt "post" ++ show_Z n) :: split_on "."%char (plus_dot <$> build)) as ->.
    { unfold split_dots_plus. fold plus_dot. rewrite fmap_app, (plus_dot_none (version_text _ _ _)).
      - rewrite fmap_app. change (plus_dot <$> txt ".post") with ("."%char :: txt "post"). cbn [app]. destruct (split_numbers a b c (txt "post" ++ (plus_dot <$> show_Z n ++ txt "+" ++ build)) Ha Hb Hc) as [-> _].
        do 3 f_equal. rewrite !fmap_app, plus_dot_none by (by apply Hd). change (plus_dot <$> txt "+") with ["."%char]. cbn [app]. rewrite app_assoc, split_on_app; [done|].
        rewrite elem_of_app. intros [H|H]; revert H; [not_in|by apply Hd].
      - unfold version_text. rewrite !elem_of_app. intros [H|[H|[H|[H|H]]]]; revert H; try (by apply Hd); not_in. }
    cbn [take]. rewrite (int_at_show _ 0 a), (int_at_show _ 1 b), (int_at_show _ 2 c) by done. cbn [mbind result_bind].
    match goal with |- context [py_get ?l 3] => change (py_get l 3) with (Ok (E := py_exn) (txt "post" ++ show_Z n)) end. cbn [mbind result_bind].
    change (txt "post") with ("p"%char :: txt "ost"). rewrite split_text_start, split_text_absent by (by apply Hd). by rewrite (int_at_show _ 1 n).
Qed.

(** ** The definitions for 32 bits *)

(** Every [unsigned long] is one of [unsigned long long]. *)
Definition all_long (s : text) : Prop := forall a b, s = a ++ unsigned_long ++ b -> txt " long" `prefix_of` b.
Definition put_long (p : ascii + unit) : text := match p with inl c => [c] | inr _ => txt "unsigned long long" end.
Definition longer (s : text) : text := pieces lone_long 0 s ≫= put_long.

Lemma ilp32_longer s : ilp32_text s = Ok (longer s).
Proof. unfold ilp32_text, re_sub, longer. induction (pieces lone_long 0 s) as [|[c|u] ps IH]; [done|..]; cbn [put_all put mbind result_bind]; by rewrite IH. Qed.

Lemma longer_match r : ~ txt " long" `prefix_of` r -> longer (unsigned_long ++ r) = txt "unsigned long long" ++ longer r.
Proof.
  intros Hr. unfold longer. change (unsigned_long ++ r) with ("u"%char :: txt "nsigned long" ++ r). cbn [pieces].
  assert (lone_long ("u"%char :: txt "nsigned long" ++ r) = Some (tt, length unsigned_long)) as ->.
  { unfold lone_long. rewrite decide_True; [done|]. split; [by exists r|exact Hr]. }
  change (length unsigned_long - 1) with (length (txt "nsigned long")). rewrite pieces_skip. done.
Qed.
Lemma longer_other c s : lone_long (c :: s) = None -> longer (c :: s) = c :: longer s.
Proof. intros H. unfold longer. cbn [pieces]. by rewrite H. Qed.
Lemma lone_cases s : lone_long s = None \/ exists r, s = unsigned_long ++ r /\ ~ txt " long" `prefix_of` r.
Proof.
  unfold lone_long. case_decide as H; [right|by left]. destruct H as [[r ->] H]. exists r. split; [done|]. by rewrite drop_app_length in H.
Qed.
Lemma lone_u c s : c <> "u"%char -> lone_long (c :: s) = None.
Proof. intros Hc. destruct (lone_cases (c :: s)) as [?|(r & E & _)]; [done|]. by injection E as -> _. Qed.

Lemma longer_plain w r : "u"%char ∉ w -> longer (w ++ r) = w ++ longer r.
Proof.
  induction w as [|c w IH]; intros Hw; [done|]. cbn [app]. rewrite longer_other by (apply lone_u; intros ->; apply Hw; left).
  by rewrite IH by (intros ?; apply Hw; by right).
Qed.
Lemma longer_prefix w s : "u"%char ∉ w -> w `prefix_of` longer s -> w `prefix_of` s.
Proof.
  revert s. induction w as [|c w IH]; intros s Hw H; [apply prefix_nil|]. destruct s as [|x s]; [by apply prefix_nil_inv in H|].
  destruct (lone_cases (x :: s)) as [E|(r & E & Hr)].
  - rewrite longer_other in H by done. pose proof (prefix_cons_inv_1 _ _ _ _ H) as ->. apply prefix_cons, IH; [|by eapply prefix_cons_inv_2]. intros ?; apply Hw; by right.
  - rewrite E, longer_match in H by done. apply prefix_cons_inv_1 in H as ->. exfalso. apply Hw. left.
Qed.

Lemma cons_eq_inv {A} (x y : A) l k : x :: l = y :: k -> x = y /\ l = k.
Proof. by intros [= -> ->]. Qed.
(** A character behind a text that does not have it. *)
Lemma app_behind {A} (u : A) p x a y : u ∉ p -> p ++ x = a ++ u :: y -> exists a', a = p ++ a' /\ x = a' ++ u :: y.
Proof.
  revert a. induction p as [|c p IH]; intros a Hp E; [by exists a|]. destruct a as [|d a]; cbn in E; injection E as -> E; [exfalso; apply Hp; left|].
  destruct (IH a) as (a' & -> & ->); [intros ?; apply Hp; by right|done|]. by exists a'.
Qed.

Lemma longer_all_long s : all_long (longer s).
Proof.
  unfold all_long. remember (length s) as n eqn:En. assert (length s <= n) as Hn by lia. clear En. revert s Hn. induction n as [|n IH]; intros s Hn a b E.
  { destruct s; [|cbn in Hn; lia]. by destruct a. }
  destruct s as [|c s]; [by destruct a|]. cbn in Hn. destruct (lone_cases (c :: s)) as [Hl|(r & Es & Hr)].
  - rewrite longer_other in E by done. destruct a as [|x a]; cbn [app] in E; [|injection E as -> E; by apply (IH s ltac:(lia) a)].
    change (unsigned_long ++ b) with ("u"%char :: txt "nsigned long" ++ b) in E. apply cons_eq_inv in E as [-> E].
    destruct (longer_prefix (txt "nsigned long") s) as [r Er]; [not_in|by exists b|]. subst s.
    rewrite longer_plain in E by not_in. apply app_inv_head in E as <-.
    assert (txt " long" `prefix_of` r) as [r' ->].
    { destruct (decide (txt " long" `prefix_of` r)) as [|Hr]; [done|]. exfalso. unfold lone_long in Hl.
      rewrite decide_True in Hl; [done|]. split; [by exists r|exact Hr]. }
    rewrite longer_plain by not_in. by eexists.
  - rewrite Es, longer_match in E by done. assert (length (c :: s) = 13 + length r) as El by (by rewrite Es). cbn in El.
    destruct a as [|x a]; cbn [app] in E.
    + change (txt "unsigned long long" ++ longer r) with (unsigned_long ++ txt " long" ++ longer r) in E. apply app_inv_head in E as <-. by eexists.
    + change (txt "unsigned long long" ++ longer r) with ("u"%char :: txt "nsigned long long" ++ longer r) in E. apply cons_eq_inv in E as [<- E].
      change (unsigned_long ++ b) with ("u"%char :: txt "nsigned long" ++ b) in E. destruct (app_behind "u"%char (txt "nsigned long long") (longer r) a (txt "nsigned long" ++ b)) as (a' & -> & E'); [not_in|exact E|].
      apply (IH r ltac:(lia) a'). exact E'.
Qed.

Lemma longer_id s : all_long s -> longer s = s.
Proof.
  intros H. induction s as [|c s IH]; [done|]. destruct (lone_cases (c :: s)) as [Hl|(r & Es & Hr)].
  - rewrite longer_other, IH; [done| |done]. intros a b ->. by apply (H (c :: a)).
  - exfalso. apply Hr. by apply (H [] r).
Qed.

(** The rewriting ends with a text in which every [unsigned long] is a [long long], and
    changes nothing the second time. *)
Theorem ilp32_text_spec s : exists t, ilp32_text s = Ok t /\ all_long t /\ (all_long s -> t = s) /\ ilp32_text t = Ok t.
Proof.
  exists (longer s). rewrite !ilp32_longer. split; [done|]. split; [apply longer_all_long|]. split; [apply longer_id|]. f_equal. apply longer_id, longer_all_long.
Qed.

(** ** What [configure] decides *)

Section configured.
Context (k : bind_checks) (cwd : text) (environ : gmap text text).

(** [os.environ] when pybindgen is looked for, and what has to be there for bindings. *)
Definition search_environ : gmap text text := set_pybindgen_pythonpath (find_pybindgen k cwd) environ.
Record usable : Prop := {
  us_wanted : python_disable k = false /\ static_build k = false /\ cygwin k = false;
  us_python : python_found k = true /\ python_recent k = true /\ python_headers k = true;
  us_pybindgen : has_module k search_environ (txt "pybindgen") = true /\ strip (pybindgen_version k search_environ) <> [];
  us_version : exists v, split_version (strip (pybindgen_version k search_environ)) = Ok v /\ tuple_geb v [0; 20; 0; 1]%Z = true;
  us_apidefs : is_Some (find_apidefs k) }.

(** The reports agree with the environment: one on the bindings, and one on the scanning when
    there are bindings. *)
Record reports_agree (c : bind_config) : Prop := {
  rp_python : check_optional_feature (txt "python") (bc_features c) = Ok (ENABLE_PYTHON_BINDINGS c);
  rp_castxml : check_optional_feature (txt "castxml") (bc_features c) = if ENABLE_PYTHON_BINDINGS c then Ok (ENABLE_PYTHON_SCANNING c) else Raise KeyError;
  rp_scanning : ENABLE_PYTHON_SCANNING c = true -> ENABLE_PYTHON_BINDINGS c = true;
  rp_enabled : ENABLE_PYTHON_BINDINGS c = true <-> usable;
  rp_apidefs : ENABLE_PYTHON_BINDINGS c = true -> PYTHON_BINDINGS_APIDEFS c = find_apidefs k }.

(** An error of this kind is a version that cannot be read. *)
Definition unreadable {A} (r : res A) : Prop := match r with Ok _ => True | Raise e => e = IndexError \/ e = ValueError | NoFuel => False end.
Lemma unreadable_bind {A B} (m : res A) (f : A -> res B) : unreadable m -> (forall a, m = Ok a -> unreadable (f a)) -> unreadable (m ≫= f).
Proof. destruct m; cbn; auto. Qed.
Lemma unreadable_int s : unreadable (int_of_text s).
Proof. unfold int_of_text. destruct (sign_of _). destruct (is_digits _); cbn; auto. Qed.
Lemma unreadable_get {A} (l : list A) i : unreadable (py_get l i).
Proof. unfold py_get, or_raise. repeat case_match; cbn; auto. Qed.
Lemma unreadable_each {S X} (f : S -> X -> res S) l s : (forall s x, unreadable (f s x)) -> unreadable (for_each f l s).
Proof. intros Hf. revert s. induction l as [|x l IH]; intros s; [done|]. cbn. apply unreadable_bind; auto. Qed.
Lemma unreadable_arch flags : unreadable (without_arch flags).
Proof.
  remember (length flags) as n eqn:En. assert (length flags <= n) as Hn by lia. clear En. revert flags Hn. induction n as [|n IH]; intros flags Hn.
  - by destruct flags; [|cbn in Hn; lia].
  - destruct flags as [|f flags]; [done|]. cbn in *. case_decide; [destruct flags; [by left|apply IH; cbn in *; lia]|].
    apply unreadable_bind; [apply IH; lia|done].
Qed.
#[local] Hint Resolve unreadable_int unreadable_get unreadable_each : core.
Lemma unreadable_int_at ver i : unreadable (int_at ver i).
Proof. unfold int_at. apply unreadable_bind; auto. Qed.
#[local] Hint Resolve unreadable_int_at : core.
Lemma unreadable_ints l : unreadable (ints l).
Proof. apply unreadable_each. intros s x. apply unreadable_bind; auto. done. Qed.
Lemma unreadable_version version : unreadable (split_version version).
Proof. unfold split_version. destruct (occurs _ _); repeat (apply unreadable_bind; [by auto|intros ? _]); done. Qed.

Lemma scanning_agrees c : bc_features c = [Feature (txt "python") (txt "Python Bindings") true []] -> ENABLE_PYTHON_BINDINGS c = true ->
  ENABLE_PYTHON_SCANNING c = false -> PYTHON_BINDINGS_APIDEFS c = find_apidefs k -> usable ->
  match configure_scanning k c with Ok c' => reports_agree c' | r => unreadable r end.
Proof.
  intros Hf He Hs Ha Hu. unfold configure_scanning. 
  assert (forall was reason c', bc_features c' = bc_features c -> ENABLE_PYTHON_BINDINGS c' = true -> ENABLE_PYTHON_SCANNING c' = was ->
    PYTHON_BINDINGS_APIDEFS c' = find_apidefs k -> reports_agree (report_castxml was reason c')) as Hr.
  { intros was reason c' E1 E2 E3 E4. split; cbn; rewrite ?E1, ?Hf, ?E2; cbn; try done. by rewrite E3. }
  destruct (negb _); [by apply Hr|]. destruct (pygccxml_version k) as [version|]; [|by apply Hr].
  pose proof (unreadable_ints (split_on "."%char (lstrip (fun c => bool_decide (c = "v"%char)) version))) as Hv. unfold pygccxml_version_of.
  destruct (ints _) as [v|e|]; [|done..]. cbn [mbind result_bind]. destruct (negb _); [by apply Hr|]. destruct (castxml k) as [out|]; [|by apply Hr].
  destruct (negb _); by apply Hr.
Qed.

(** C37: [configure] returns, or raises over a version or flags that it cannot read; bindings are
    enabled exactly when everything they need is there, they are scanned only then, and what is
    reported is what is enabled. *)
Theorem configure_bindings_spec : match configure_bindings k cwd environ with Ok c => reports_agree c | r => unreadable r end.
Proof.
  unfold configure_bindings.
  assert (forall reason c, bc_features c = [] -> ENABLE_PYTHON_BINDINGS c = false -> ENABLE_PYTHON_SCANNING c = false -> ~ usable ->
    reports_agree (report_python false reason c)) as Hno.
  { intros reason c E1 E2 E3 Hu. split; cbn; rewrite ?E1, ?E2, ?E3; cbn; try done. }
  destruct (python_disable k) eqn:E1; [apply Hno; [done..|intros [(? & ?) _ _ _ _]; congruence]|].
  destruct (static_build k) eqn:E2; [apply Hno; [done..|intros [(? & ? & ?) _ _ _ _]; congruence]|].
  destruct (cygwin k) eqn:E3; [apply Hno; [done..|intros [(? & ? & ?) _ _ _ _]; congruence]|].
  destruct (python_found k) eqn:E4; [|apply Hno; [done..|intros [_ (? & ?) _ _ _]; congruence]].
  destruct (python_recent k) eqn:E5; [|apply Hno; [done..|intros [_ (? & ? & ?) _ _ _]; congruence]].
  destruct (python_headers k) eqn:E6; [|apply Hno; [done..|intros [_ (? & ? & ?) _ _ _]; congruence]].
  cbn [negb]. 
  assert (match set_pyext_flags k (initial_config environ) with
          | Ok c => bc_features c = [] /\ ENABLE_PYTHON_BINDINGS c = false /\ ENABLE_PYTHON_SCANNING c = false /\ bc_environ c = environ
          | r => unreadable r end) as Hc.
  { unfold set_pyext_flags.
    assert (unreadable (for_each (fun out flags => flags ← drop_arch flags; Ok (out ++ [flags])) (arch_flags k) [])) as H
      by (apply unreadable_each; intros s x; apply unreadable_bind; [rewrite drop_arch_spec; apply unreadable_arch|done]).
    destruct (for_each _ _ _); [|done..]. cbn [mbind result_bind]. clear H.
    assert (unreadable (if gcc k then version ← ints (CC_VERSION k); Ok (tuple_geb version [4; 0; 0]%Z && compilation_flag k (txt "-fvisibility=hidden")) else Ok false)) as H
      by (destruct (gcc k); [apply unreadable_bind; [apply unreadable_ints|done]|done]).
    destruct (if gcc k then _ else _); done. }
  destruct (set_pyext_flags _ _) as [c| |]; [|done..]. destruct Hc as (F1 & F2 & F3 & F4). cbn [mbind result_bind].
  assert (bc_environ (set_pybindgen k cwd c) = search_environ) as Ee by (cbn; by rewrite F4).
  destruct (has_module k _ _) eqn:E7; rewrite Ee in E7; cbn [negb]; [|apply Hno; [done..|intros [_ _ [? ?] _ _]; congruence]].
  rewrite Ee. destruct (strip _) as [|v0 version] eqn:E8; [apply Hno; [done..|intros [_ _ [_ ?] _ _]; done]|].
  pose proof (unreadable_version (v0 :: version)) as Hv. destruct (split_version (v0 :: version)) as [v| |] eqn:E9; [|done..]. cbn [mbind result_bind].
  replace (split_version REQUIRED_PYBINDGEN_VERSION) with (Ok (E := py_exn) [0; 20; 0; 1]%Z) by (by vm_compute). cbn [mbind result_bind].
  destruct (tuple_geb v _) eqn:E10; cbn [negb]; [|apply Hno; [done..|]; intros [_ _ _ (v' & H & ?) _]; rewrite E8, E9 in H; congruence].
  cbn [set_apidefs PYTHON_BINDINGS_APIDEFS]. destruct (find_apidefs k) as [a|] eqn:E11; [|apply Hno; [done..|intros [_ _ _ _ [? ?]]; congruence]].
  apply scanning_agrees; cbn; rewrite ?F1, ?F3; try done. split; [done..|by rewrite E8| |by rewrite E11]. exists v. by rewrite E8, E9.
Qed.
End configured.

(** ** The modules that can be imported *)

Section importable.
Context (k : bind_checks) (cwd : text) (environ : gmap text text).
Context (has_bindings : text -> bool) (find_resource : text -> text -> option text) (ns_dir : text -> text) (modulegen_script : option text).
Context (platform win_platform : text) (NS3_ENABLED_MODULES DEFINES : list text) (optional : list feature) (static : bool).
Abbreviation bindings apiscan c := (all_bindings has_bindings find_resource ns_dir modulegen_script apiscan platform win_platform c NS3_ENABLED_MODULES DEFINES optional static).

(** A module of which bindings are built; and what is built for [import ns.<module>]: the
    file of that name, with the extension next to it, or the extension itself. *)
Definition bound (dir : text) : Prop := has_bindings dir = true /\ ns3_name (basename dir) ∈ NS3_ENABLED_MODULES.
#[local] Instance bound_dec dir : Decision (bound dir).
Proof. unfold bound. apply _. Defined.
Definition importable (dir : text) (p : pymod) : Prop :=
  pm_module p = basename dir /\ pm_target_dir p = ns_dir dir /\
  if pm_frontend p then is_Some (find_resource dir (txt "bindings/" ++ python_name (pm_module p) ++ txt ".py")) /\ pm_extension p = txt "_" ++ python_name (pm_module p)
  else pm_extension p = python_name (pm_module p).

(** C35: when bindings are enabled, the module [ns3.py] imports exactly the enabled modules that
    have definitions, in the order of their directories, and for each of them what is imported
    is built; every module is known to have bindings. *)
Theorem bindings_importable c dirs : configure_bindings k cwd environ = Ok c -> ENABLE_PYTHON_BINDINGS c = true ->
  (static = true -> static_build k = true) ->
  exists st ps, bindings [] c dirs (BindLists [] []) = Ok (st, ps) /\
    MODULAR_BINDINGS_MODULES st = ns3_name ∘ basename <$> dirs /\ Forall2 importable (filter bound dirs) ps /\
    PYTHON_MODULES_BUILT st = pm_module <$> ps /\
    exists before, compat_text (PYTHON_MODULES_BUILT st) = before ++ (ps ≫= fun p => import_line (pm_module p) ++ [newline]).
Proof.
  intros Hc He Hs. pose proof (configure_bindings_spec k cwd environ) as H. rewrite Hc in H.
  destruct (proj1 (rp_enabled _ _ _ _ H) He) as [(_ & Hst & _) _ _ _ Ha]. rewrite <- (rp_apidefs _ _ _ _ H He) in Ha. destruct Ha as [a Ha].
  assert (static = false) as Hstat by (destruct static; [rewrite Hs in Hst; done|done]).
  destruct (for_each_inv (fun s dir => '(st, p) ← ns3_python_bindings has_bindings find_resource ns_dir modulegen_script [] platform win_platform c NS3_ENABLED_MODULES DEFINES optional static s.1 dir;
      Ok (st, s.2 ++ match p with Some p => [p] | None => [] end))
    (fun pre _ s => MODULAR_BINDINGS_MODULES s.1 = ns3_name ∘ basename <$> pre /\ Forall2 importable (filter bound pre) s.2 /\ PYTHON_MODULES_BUILT s.1 = pm_module <$> s.2))
    with (l := dirs) (s := (BindLists [] [], @nil pymod)) as ([st ps] & E & H1 & H2 & H3).
  - intros pre dir post [st ps] (H1 & H2 & H3). cbn [fst snd] in *. unfold ns3_python_bindings. rewrite bool_decide_false by (intros F; by apply F). rewrite He. cbn [negb].
    destruct (has_bindings dir) eqn:Eb; cbn [negb].
    2:{ eexists. split; [done|]. cbn. rewrite fmap_app, H1, app_nil_r, filter_app, filter_cons_False, filter_nil, app_nil_r; [done|]. intros [? _]. congruence. }
    case_decide as Em.
    { eexists. split; [done|]. cbn. rewrite fmap_app, H1, app_nil_r, filter_app, filter_cons_False, filter_nil, app_nil_r; [done|]. by intros [_ ?]. }
    rewrite Ha. unfold static_linkflags. rewrite Hstat. cbn [negb mbind result_bind].
    eexists. split; [done|]. cbn [fst snd MODULAR_BINDINGS_MODULES PYTHON_MODULES_BUILT].
    rewrite !fmap_app, H1, H3, filter_app, filter_cons_True by done. split; [done|]. split; [|done].
    apply Forall2_app; [done|]. constructor; [|constructor]. split; [done|]. split; [done|]. cbn [pm_frontend pm_module pm_extension].
    case_bool_decide; [by split|done].
  - split; [done|]. split; [constructor|done].
  - exists st, ps. split; [exact E|]. cbn [fst snd] in *. split; [done|]. split; [done|]. split; [done|].
    unfold compat_text, lines_text. rewrite bind_app. eexists. f_equal. rewrite H3. clear. induction ps as [|p ps IH]; [done|]. cbn. by rewrite IH.
Qed.
End importable.

(** ** The tasks that scan *)

Section scanning.
Context `{!DictOrder text} (set_order : list text -> list text) (generators : list header_gen).
Hypothesis set_order_perm : forall l, set_order l ≡ₚ remove_dups l.
Context (python curdir top_builddir : text) (popen : list text -> files -> files * Z).

Definition has_header (g : header_gen) (h m : text) : Prop :=
  occurs (txt "ns3header") (g_features (hg g)) = true /\ g_module (hg g) = Some m /\ suffixed m (txt "-test") = false /\ h ∈ basename <$> hg_source g.

Lemma add_header_names m l hs h : (foldl (fun hs h => <[basename h := m]> hs) hs l : gmap text text) !! h = if decide (h ∈ basename <$> l) then Some m else hs !! h.
Proof.
  revert hs. induction l as [|x l IH]; intros hs; cbn [foldl fmap list_fmap]; [by rewrite decide_False by apply not_elem_of_nil|]. rewrite IH.
  destruct (decide (h ∈ basename <$> l)) as [Hl|Hl]; [by rewrite decide_True by (by right)|].
  destruct (decide (h = basename x)) as [->|Hx]; [rewrite lookup_insert_eq, decide_True; [done|left]|].
  rewrite lookup_insert_ne by done. by rewrite decide_False by (by intros [?|?]%elem_of_cons).
Qed.

(** The map of the headers has exactly the headers of the modules, each with a module that has
    it: the last one. *)
Theorem get_headers_map_spec hs : get_headers_map set_order generators = Ok hs ->
  (forall h m, hs !! h = Some m -> exists g, g ∈ generators /\ has_header g h m) /\
  (forall g h m, g ∈ generators -> has_header g h m -> is_Some (hs !! h)).
Proof using set_order_perm.
  assert (forall l h, h ∈ basename <$> set_order l <-> h ∈ basename <$> l) as Ho by (intros l h; rewrite !list_elem_of_fmap; split; intros (x & -> & Hx); exists x; (split; [done|]); [rewrite set_order_perm, elem_of_remove_dups in Hx|rewrite set_order_perm, elem_of_remove_dups]; done).
  unfold get_headers_map. enough (forall gens hs0, for_each (add_headers set_order) gens hs0 = Ok hs ->
    (forall h m, hs !! h = Some m -> hs0 !! h = Some m \/ exists g, g ∈ gens /\ has_header g h m) /\
    (forall h, is_Some (hs0 !! h) -> is_Some (hs !! h)) /\ (forall g h m, g ∈ gens -> has_header g h m -> is_Some (hs !! h))) as H.
  { intros E. destruct (H _ _ E) as (H1 & _ & H3). split; [|done]. intros h m Hh. destruct (H1 h m Hh) as [Hn|?]; [|done]. by rewrite lookup_empty in Hn. }
  induction gens as [|g gens IH]; intros hs0 E; cbn in E.
  - apply ok_inj in E as <-. split; [by left|]. split; [done|]. intros ??? []%not_elem_of_nil.
  - destruct (add_headers set_order hs0 g) as [hs1| |] eqn:E1; [|done..]. cbn in E. destruct (IH hs1 E) as (H1 & H2 & H3).
    unfold add_headers in E1. destruct (occurs _ _) eqn:Eo.
    2:{ apply ok_inj in E1 as <-. split; [|split; [done|]].
        - intros h m Hh. destruct (H1 h m Hh) as [?|(g' & ? & ?)]; [by left|right]. exists g'. split; [by right|done].
        - intros g' h m [->|Hg]%elem_of_cons Hh; [destruct Hh; congruence|by eapply H3]. }
    destruct (g_module (hg g)) as [m0|] eqn:Em; [|done]. cbn [or_raise mbind result_bind] in E1. destruct (suffixed m0 _) eqn:Et; apply ok_inj in E1 as <-.
    + split; [|split; [done|]].
      * intros h m Hh. destruct (H1 h m Hh) as [?|(g' & ? & ?)]; [by left|right]. exists g'. split; [by right|done].
      * intros g' h m [->|Hg]%elem_of_cons Hh; [destruct Hh as (_ & ? & ? & _); congruence|by eapply H3].
    + split; [|split].
      * intros h m Hh. destruct (H1 h m Hh) as [Hn|(g' & ? & ?)]; [|right; exists g'; split; [by right|done]].
        rewrite add_header_names in Hn. case_decide as Hd; [|by left]. injection Hn as ->. right. exists g. split; [left|].
        split; [done|]. split; [done|]. split; [done|]. by apply Ho.
      * intros h Hh. apply H2. rewrite add_header_names. by case_decide.
      * intros g' h m [->|Hg]%elem_of_cons Hh; [|by eapply H3]. destruct Hh as (_ & Em' & _ & Hh). apply H2. rewrite add_header_names.
        rewrite decide_True; [by eexists|]. by apply Ho.
Qed.

(** With [--apiscan] no bindings are built, and every module is offered for a scan. *)
Theorem scan_only has_bindings find_resource ns_dir script apiscan platform win c mods defs optional static dirs : apiscan <> [] ->
  all_bindings has_bindings find_resource ns_dir script apiscan platform win c mods defs optional static dirs (BindLists [] []) =
  Ok (BindLists (ns3_name ∘ basename <$> dirs) [], []).
Proof.
  intros Ha. unfold all_bindings. enough (forall ms, for_each (fun s dir => '(st, p) ← ns3_python_bindings has_bindings find_resource ns_dir script apiscan platform win c mods defs optional static s.1 dir;
      Ok (st, s.2 ++ match p with Some p => [p] | None => [] end)) dirs (BindLists ms [], @nil pymod) = Ok (BindLists (ms ++ (ns3_name ∘ basename <$> dirs)) [], [])) as H by apply H.
  induction dirs as [|dir dirs IH]; intros ms; [by rewrite app_nil_r|]. cbn [for_each fst snd].
  assert (ns3_python_bindings has_bindings find_resource ns_dir script apiscan platform win c mods defs optional static (BindLists ms []) dir =
    Ok (BindLists (ms ++ [ns3_name (basename dir)]) [], None)) as -> by (unfold ns3_python_bindings; by rewrite bool_decide_true).
  cbn [mbind result_bind app fmap list_fmap]. rewrite IH, <- app_assoc. done.
Qed.

(** The modules that [--apiscan=all] scans. *)
Definition scannable (in_tests : generator -> bool) (modular : list text) (g : header_gen) : Prop :=
  is_ns3 (g_name (hg g)) = true /\ in_tests (hg g) = false /\ suffixed (g_name (hg g)) (txt "-test") = false /\ g_name (hg g) ∈ modular.
#[local] Instance scannable_dec in_tests modular g : Decision (scannable in_tests modular g).
Proof. unfold scannable. apply _. Defined.
Lemma scanned_modules_step in_tests modular mods g : occurs (txt "ns3-") (drop 4 (g_name (hg g))) = false ->
  scanned_modules in_tests modular mods g = Ok (mods ++ if decide (scannable in_tests modular g) then [drop 4 (g_name (hg g))] else []).
Proof.
  intros Hn. assert (~ scannable in_tests modular g -> Ok mods = Ok (E := py_exn) (mods ++ if decide (scannable in_tests modular g) then [drop 4 (g_name (hg g))] else [])) as Hno
    by (intros H; by rewrite decide_False, app_nil_r).
  unfold scanned_modules. destruct (is_ns3 _) eqn:E1; cbn [negb]; [|apply Hno; intros (? & _); congruence].
  destruct (in_tests _) eqn:E2; [apply Hno; intros (_ & ? & _); congruence|]. destruct (suffixed _ _) eqn:E3; [apply Hno; intros (_ & _ & ? & _); congruence|].
  destruct (decide (g_name (hg g) ∈ modular)) as [E4|E4]; [|apply Hno; by intros (_ & _ & _ & ?)]. rewrite decide_True by done.
  assert (exists m, g_name (hg g) = txt "ns3-" ++ m) as [m Em].
  { unfold is_ns3, starts_with in E1. apply bool_decide_eq_true in E1 as [m ->]. by exists m. }
  rewrite Em in Hn |- *. change (drop 4 (txt "ns3-" ++ m)) with m in *.
  change (txt "ns3-" ++ m) with (("n"%char :: txt "s3-") ++ m). change (txt "ns3-") with ("n"%char :: txt "s3-") in Hn |- *. rewrite split_text_start.
  by rewrite split_text_none.
Qed.
Theorem scan_modules_spec in_tests modular : (forall g, g ∈ generators -> occurs (txt "ns3-") (drop 4 (g_name (hg g))) = false) ->
  scan_modules generators in_tests modular (txt "all") = Ok ((fun g => drop 4 (g_name (hg g))) <$> filter (scannable in_tests modular) generators).
Proof.
  intros Hn. unfold scan_modules. rewrite decide_True by done.
  enough (forall mods, for_each (scanned_modules in_tests modular) generators mods = Ok (mods ++ ((fun g => drop 4 (g_name (hg g))) <$> filter (scannable in_tests modular) generators))) as H by apply H.
  induction generators as [|g gens IH]; intros mods; [by rewrite app_nil_r|]. cbn [for_each].
  rewrite scanned_modules_step by (apply Hn; left). cbn [mbind result_bind]. rewrite IH by (intros g' Hg; apply Hn; by right).
  rewrite filter_cons. case_decide; cbn [fmap list_fmap]; by rewrite <- app_assoc.
Qed.

Lemma write_writable path contents fs : default true (owner_writes <$> fs !! path) = true ->
  write_file path contents fs = Ok (<[path := File contents (default new_file (permissions <$> fs !! path))]> fs).
Proof. unfold write_file. destruct (fs !! path) as [f|]; cbn; intros H; by rewrite ?H. Qed.

(** A scan of the definitions for 64 bits also leaves those for 32 bits, whatever its exit status:
    without a lone [unsigned long], and otherwise as the scanner wrote them. *)
Theorem apiscan_run_spec t fs fs' path hs retval f : occurs (txt "LP64") (scan_target t) = true ->
  get_module_path generators (scan_module t) = Ok path -> get_headers_map set_order generators = Ok hs ->
  is_Some (fs !! path_join (path_join top_builddir (txt "ns3")) (scan_module t ++ txt "-module.h")) ->
  popen (scan_argv python curdir top_builddir t path hs) fs = (fs', retval) -> (0 <= retval)%Z ->
  let ilp32 := definitions_file path (txt "gcc_ILP32") in
  fs' !! definitions_file path (scan_target t) = Some f -> owner_reads f = true -> default true (owner_writes <$> fs' !! ilp32) = true ->
  exists contents mode, all_long contents /\ (all_long (content f) -> contents = content f) /\
    apiscan_run set_order generators python curdir top_builddir popen t fs = Ok (<[ilp32 := File contents mode]> fs', retval).
Proof.
  intros Ht Hp Hm [h Hh] Hs Hr ilp32 Hf Hread Hwrite. destruct (ilp32_text_spec (content f)) as (contents & E & H1 & H2 & _).
  unfold apiscan_run. rewrite Hp, Hm. cbn [mbind result_bind]. rewrite Hh, Hs, Ht, (proj2 (Z.leb_le _ _)) by done. cbn [andb].
  unfold lp64_to_ilp32, read_text. rewrite Hf. cbn [or_raise mbind result_bind]. rewrite Hread. cbn [mbind result_bind]. fold ilp32.
  rewrite write_writable by done. cbn [mbind result_bind]. rewrite E. cbn [mbind result_bind]. rewrite write_writable.
  - cbn [mbind result_bind]. rewrite insert_insert_eq. by eexists contents, _.
  - rewrite lookup_insert_eq. by destruct (fs' !! ilp32).
Qed.
End scanning.

(** ** Examples *)

Definition demo_checks (pybindgen : string) (castxml_output : string) : bind_checks :=
  BindChecks false false false None true true true [[txt "-arch"; txt "i386"; txt "-O2"]] true (txt <$> ["9"; "3"; "0"]%string) (fun _ => true)
    (fun d => bool_decide (d = txt "../pybindgen")) (fun _ _ => true) (fun _ => txt pybindgen)
    (fun _ b => bool_decide (b = txt "unsigned long")) true (Some (txt "v1.9.1")) (Some (txt castxml_output)).
Definition bind_demo (pybindgen castxml_output : string) : res bind_config := configure_bindings (demo_checks pybindgen castxml_output) (txt "/ns3/sim") ∅.

(** Everything is there; a version of castxml is compared as a text, of which only one digit is
    read behind the point; and a version of two numbers ends [configure]. *)
Lemma demo_configured : match bind_demo "0.21.0" "castxml version 0.4.5" with
  | Ok c => ENABLE_PYTHON_BINDINGS c = true /\ ENABLE_PYTHON_SCANNING c = true /\ pyext_flags c = [[txt "-O2"]] /\
            bc_environ c !! txt "PYTHONPATH" = Some (txt "/ns3/pybindgen")
  | _ => False end.
Proof. by vm_compute. Qed.
Lemma castxml_ten : castxml_ok (txt "castxml version 0.10.0") = false /\ castxml_ok (txt "castxml version 10.1") = false.
Proof. by vm_compute. Qed.
Lemma two_numbers : bind_demo "0.22" "castxml version 0.4.5" = Raise IndexError.
Proof. by vm_compute. Qed.

Lemma split_version_spec_witness : (0 <= 7)%Z /\ split_version (txt "0.17.7") = Ok [0; 17; 7; 0]%Z /\ split_version (txt "0.17.7.post58+ngcf00cc0") = Ok [0; 17; 7; 58]%Z.
Proof. split; [lia|]. exact (split_version_spec 0 17 7 58 (txt "ngcf00cc0") ltac:(lia) ltac:(lia) ltac:(lia) ltac:(lia)). Defined.

(** Two of three modules have definitions, one of them is enabled; [mobility] has a frontend. *)
Definition demo_dirs : list text := txt <$> ["/ns3/sim/src/core"; "/ns3/sim/src/mobility"; "/ns3/sim/src/p4-switch"]%string.
Definition bind_resource (dir name : text) : option text :=
  if decide (name = txt "bindings/mobility.py" \/ name = txt "bindings/modulegen__gcc_LP64.py") then Some (dir ++ txt "/" ++ name) else None.
Lemma bindings_importable_witness : exists c, bind_demo "0.21.0" "castxml version 0.4.5" = Ok c /\
  exists st ps, all_bindings (fun d => bool_decide (d <> txt "/ns3/sim/src/p4-switch")) bind_resource (fun _ => txt "ns") None [] (txt "linux") (txt "linux")
      c [txt "ns3-mobility"; txt "ns3-p4-switch"] [] [] false demo_dirs (BindLists [] []) = Ok (st, ps) /\
    PYTHON_MODULES_BUILT st = pm_module <$> ps /\ pm_extension <$> ps = [txt "_mobility"].
Proof.
  destruct (bind_demo "0.21.0" "castxml version 0.4.5") as [c| |] eqn:E; [|by vm_compute in E..]. exists c. split; [done|].
  destruct (bindings_importable (demo_checks "0.21.0" "castxml version 0.4.5") (txt "/ns3/sim") ∅ (fun d => bool_decide (d <> txt "/ns3/sim/src/p4-switch")) bind_resource (fun _ => txt "ns") None
    (txt "linux") (txt "linux") [txt "ns3-mobility"; txt "ns3-p4-switch"] [] [] false c demo_dirs) as (st & ps & H & _ & H2 & H3 & _);
    [exact E|by vm_compute in E; injection E as <-|done|].
  exists st, ps. split; [exact H|]. split; [exact H3|]. clear H3. vm_compute in E. injection E as <-. vm_compute in H. by injection H as <- <-.
Defined.

(** The scanner fails with the status 1, and leaves half a file: the definitions for 32 bits are
    made of it all the same. *)
Definition scanned_gen : header_gen :=
  HeaderGen (Generator (txt "ns3header") (txt "headers") (Some (txt "core")) false None None [] (txt "/src/core") None) [txt "model/simulator.h"].
Definition failing_scanner (argv : list text) (fs : files) : files * Z :=
  (<[txt "/src/core/bindings/modulegen__gcc_LP64.py" := File (txt "param('unsigned long', 'a") new_file]> fs, 1%Z).
Definition demo_scan_files : files := {[txt "/build/ns3/core-module.h" := File [] new_file]}.
Lemma apiscan_run_spec_witness : exists contents mode, all_long contents /\
  apiscan_run (fun l => l) [scanned_gen] (txt "python") (txt "/bindings") (txt "/build") failing_scanner (ApiScan (txt "gcc_LP64") (txt "-m64") (txt "core")) demo_scan_files
  = Ok (<[txt "/src/core/bindings/modulegen__gcc_ILP32.py" := File contents mode]> (failing_scanner [] demo_scan_files).1, 1%Z) /\ contents = txt "param('unsigned long long', 'a".
Proof.
  destruct (apiscan_run_spec (fun l => l) [scanned_gen] (txt "python") (txt "/bindings") (txt "/build") failing_scanner (ApiScan (txt "gcc_LP64") (txt "-m64") (txt "core"))
    demo_scan_files (failing_scanner [] demo_scan_files).1 (txt "/src/core") {[txt "simulator.h" := txt "core"]} 1 (File (txt "param('unsigned long', 'a") new_file))
    as (contents & mode & H1 & _ & H2); [by vm_compute|by vm_compute|vm_compute; reflexivity|exists (File [] new_file); by vm_compute|reflexivity|lia|by vm_compute|done|by vm_compute|].
   exists contents, mode. split; [exact H1|]. split; [exact H2|]. apply (f_equal (fun r => match r with Ok (fs, _) => content <$> fs !! txt "/src/core/bindings/modulegen__gcc_ILP32.py" | _ => None end)) in H2.
  rewrite lookup_insert_eq in H2. vm_compute in H2. by injection H2 as <-.
Defined.
