(* ===== verification/BindGen.v ===== *)
(** * The generator of the bindings: [ns3modulegen-modular.py], [ns3modulegen.py] and
    [ns3modulegen_core_customizations.py].

    The classes for callbacks with the handlers of their type, the order in which a module is
    generated, the files of the sections, and where an error is reported.  PyBindGen (its
    types, and the text of a wrapper) is a parameter. *)
From S2P Require Import Prelude TopSort WafHeaders BindScan BindBuild PyString PyDict PyPath.

(** ** Callbacks *)

(** The class of the handler of a type [ns3::Callback< ... >]. *)
Record handler := Handler { PYTHON_CALLBACK_IMPL_NAME : text; TEMPLATE_ARGS : list text; DISABLED : bool }.
Definition callback_type (template_parameters : list text) : text :=
  txt "ns3::Callback< " ++ join (txt ", ") template_parameters ++ txt " >".
Definition impl_name (callback_impl_num : nat) : text := txt "PythonCallbackImpl" ++ show_Z (Z.of_nat callback_impl_num).
Definition register_callback_classes (callbacks : list (list text)) : gmap text handler :=
  foldl (fun hs p => <[callback_type p.2 := Handler (impl_name p.1) p.2 false]> hs) ∅ (imap pair callbacks).

(** What a handler adds to a wrapper. *)
Inductive wrapper_code :=
| DeclareVariable (ctype name : text) (init : option text)
| ParseParam (format : text) (args : list text) (optional : bool)
| ErrorCheck (condition action : text)
| WriteCode (line : text)
| Indent
| Unindent
| CallParam (expression : text).

(** [convert_python_to_c] for a parameter; [declared] is the name that PyBindGen gives to a
    variable.  Nothing stands for [CodeGenerationError]. *)
Definition convert_python_to_c (declared : text -> text) (h : handler) (name : text) (default_value : option text) : option (list wrapper_code) :=
  if DISABLED h then None
  else
    let py_callback := declared name in
    let not_callable := ErrorCheck (txt "!PyCallable_Check(" ++ py_callback ++ txt ")")
      (txt "PyErr_SetString(PyExc_TypeError, " ++ [quote] ++ txt "parameter '" ++ name ++ txt "' must be callbale" ++ [quote] ++ txt ");") in
    let callback := txt "ns3::Callback<" ++ join (txt ", ") (TEMPLATE_ARGS h) ++ txt ">" in
    let create := txt "ns3::Create<" ++ PYTHON_CALLBACK_IMPL_NAME h ++ txt "> (" ++ py_callback ++ txt ")" in
    match default_value with
    | None =>
        let callback_impl := declared (name ++ txt "_cb_impl") in
        Some [DeclareVariable (txt "PyObject*") name None; ParseParam (txt "O") [txt "&" ++ py_callback] false; not_callable;
              DeclareVariable (txt "ns3::Ptr<" ++ PYTHON_CALLBACK_IMPL_NAME h ++ txt ">") (name ++ txt "_cb_impl") None;
              WriteCode (callback_impl ++ txt " = " ++ create ++ txt ";");
              CallParam (callback ++ txt " (" ++ callback_impl ++ txt ")")]
    | Some d =>
        let value := declared (name ++ txt "_value") in
        Some [DeclareVariable (txt "PyObject*") name (Some (txt "NULL")); ParseParam (txt "O") [txt "&" ++ py_callback] true;
              DeclareVariable callback (name ++ txt "_value") (Some d);
              WriteCode (txt "if (" ++ py_callback ++ txt ") {"); Indent; not_callable;
              WriteCode (value ++ txt " = " ++ callback ++ txt " (" ++ create ++ txt ");"); Unindent; WriteCode (txt "}"); CallParam value]
    end.
(** The class that the wrapper makes an object of. *)
Definition creates (h : handler) : text := PYTHON_CALLBACK_IMPL_NAME h.

(** A class that is generated: its name, its arguments and the proxy of [operator()]. *)
Record impl_class := ImplClass { ic_name : text; ic_template : list text; ic_proxy : list text }.
Definition impl_class_lines (c : impl_class) : list text :=
  let name := ic_name c in
  [[]; txt "class " ++ name ++ txt " : public ns3::CallbackImpl<" ++ join (txt ", ") (ic_template c) ++ txt ">"; txt "{"; txt "public:"] ++
  [txt "    PyObject *m_callback;"; txt "    " ++ name ++ txt "(PyObject *callback)"; txt "    {"; txt "        Py_INCREF(callback);";
   txt "        m_callback = callback;"; txt "    }"; txt "    virtual ~" ++ name ++ txt "()"; txt "    {"; txt "        PyGILState_STATE __py_gil_state;";
   txt "        __py_gil_state = (PyEval_ThreadsInitialized() ? PyGILState_Ensure() : (PyGILState_STATE) 0);";
   txt "        Py_DECREF(m_callback);"; txt "        m_callback = NULL;"; txt "        PyGILState_Release(__py_gil_state);"; txt "    }"; []] ++
  [txt "    virtual bool IsEqual(ns3::Ptr<const ns3::CallbackImplBase> other_base) const"; txt "    {";
   txt "        const " ++ name ++ txt " *other = dynamic_cast<const " ++ name ++ txt "*> (ns3::PeekPointer (other_base));";
   txt "        if (other != NULL)"; txt "            return (other->m_callback == m_callback);"; txt "        else"; txt "            return false;"; txt "    }"; []; []] ++
  ic_proxy c ++ [txt "};"; []].

(** [generate_python_call]: the parameters of [Py_BuildValue], the first of which is the
    format, and the code; the last two are run when the wrapper is left. *)
Definition python_call (args : text) (build_params : list text) : res (list wrapper_code * list text) :=
  first ← py_get build_params 0;
  c ← or_raise IndexError (head first);
  let build_params := (if decide (c = quote) then txt "(char *) " ++ first else first) :: tail build_params in
  Ok ([DeclareVariable (txt "PyObject*") (txt "args") None; WriteCode (args ++ txt " = Py_BuildValue(" ++ join (txt ", ") build_params ++ txt ");");
       WriteCode (txt "py_retval = PyObject_CallObject(m_callback, " ++ args ++ txt ");"); ErrorCheck (txt "py_retval == NULL") []],
      [txt "Py_DECREF(" ++ args ++ txt ");"; txt "Py_DECREF(py_retval);"]).

Section callbacks.
(** PyBindGen: the type that a text stands for without its modifiers, and whether [const] was
    one; a return type of it is known; a parameter of it, with its class if it has one; the
    text of the proxy method. *)
Context {param : Type} (parse_type : text -> text * bool) (return_known : text -> bool -> bool).
Context (new_parameter : text -> text -> bool -> option param) (cpp_class : param -> option text) (proxy : text -> list param -> list text).

(** The helper classes that there are, with whether they turn out not to be constructible. *)
Record gen_state := GenState { gs_out : list impl_class; gs_handlers : gmap text handler; gs_helpers : gmap text bool; gs_disabled : gset text }.
Definition check_helper (p : param) (st : gmap text bool * gset text) : gmap text bool * gset text :=
  match cpp_class p with
  | Some c => match st.1 !! c with Some true => (delete c st.1, {[c]} ∪ st.2) | _ => st end
  | None => st
  end.
Definition add_argument (st : list param * bool * (gmap text bool * gset text)) (a : nat * text) : list param * bool * (gmap text bool * gset text) :=
  let '(arguments, ok, helpers) := st in
  let '(ctype, is_const) := parse_type a.2 in
  match new_parameter ctype (txt "arg" ++ show_Z (Z.of_nat (S a.1))) is_const with
  | Some p => (arguments ++ [p], ok, check_helper p helpers)
  | None => (arguments, false, helpers)
  end.
Definition set_disabled (name : text) (hs : gmap text handler) : gmap text handler :=
  alter (fun h => Handler (PYTHON_CALLBACK_IMPL_NAME h) (TEMPLATE_ARGS h) true) name hs.
Definition generate_callback (st : gen_state) (c : nat * list text) : res gen_state :=
  let '(callback_impl_num, template_parameters) := c in
  callback_return ← py_get template_parameters 0;
  let '(return_ctype, is_const) := parse_type callback_return in
  if negb (return_known return_ctype is_const) then Ok st
  else
    let callback_parameters := filter (fun a => a <> txt "ns3::empty") (tail template_parameters) in
    let '(arguments, ok, (helpers, disabled)) := foldl add_argument ([], true, (gs_helpers st, gs_disabled st)) (imap pair callback_parameters) in
    if ok then
      Ok (GenState (gs_out st ++ [ImplClass (impl_name callback_impl_num) template_parameters (proxy return_ctype arguments)]) (gs_handlers st) helpers disabled)
    else Ok (GenState (gs_out st) (set_disabled (callback_type template_parameters) (gs_handlers st)) helpers disabled).
Definition generate_callback_classes (callbacks : list (list text)) (st : gen_state) : res gen_state :=
  for_each generate_callback (imap pair callbacks) st.
End callbacks.

(** ** The rest of a module *)

(** [Attribute_customizations]: a parameter of a method is a reference to a class or not. *)
Record method_param := MethodParam { mp_class : option text; default_value : option text; default_value_type : option text }.
Definition fix_attribute (p : method_param) : method_param :=
  match mp_class p, default_value p, default_value_type p with
  | Some c, Some _, None => if decide (c = txt "AttributeValue") then MethodParam (Some c) (default_value p) (Some (txt "ns3::EmptyAttributeValue")) else p
  | _, _, _ => p
  end.
Definition Attribute_customizations (classes : list (list (list method_param))) : list (list (list method_param)) :=
  map (map (map fix_attribute)) classes.
Definition add_std_ios_openmode : list text :=
  (fun flag => txt "PyModule_AddIntConstant(m, (char *) " ++ [quote] ++ txt "STD_IOS_" ++ upper flag ++ [quote] ++ txt ", std::ios::" ++ flag ++ txt ");") <$>
  (txt <$> ["in"; "out"; "ate"; "app"; "trunc"; "binary"]%string).

(** [main] of [ns3modulegen-modular.py]: what is done with the module, in order.  The module of
    customizations has some of the three hooks; without [callbacks_list] there are no callbacks. *)
Inductive gen_step :=
| SetName (name : text) | AddInclude (header : text) | AddOpenModes | RegisterTypes | PostRegisterTypes | RegisterCallbacks (callbacks : list (list text))
| RegisterMethods | PostRegisterMethods | ObjectCustomizations | AttributeCustomizations | GenerateCallbacks (callbacks : list (list text))
| RegisterFunctions | PostRegisterFunctions | Generate (output : text).
Definition modular_main (argv : list text) (hook : text -> bool) (callbacks_list : option (list (list text))) : res (list gen_step) :=
  match argv with
  | [_; module_abs_src_path; target; extension_name; output_cc_file_name] =>
      let module_name := basename module_abs_src_path in
      let callback_classes := default [] callbacks_list in
      let post name step := if hook (txt name) then [step] else [] in
      Ok ([SetName extension_name; AddInclude ([quote] ++ txt "ns3/" ++ module_name ++ txt "-module.h" ++ [quote]); AddOpenModes; RegisterTypes] ++
          post "post_register_types"%string PostRegisterTypes ++ [RegisterCallbacks callback_classes; RegisterMethods] ++
          post "post_register_methods"%string PostRegisterMethods ++ [ObjectCustomizations; AttributeCustomizations; GenerateCallbacks callback_classes; RegisterFunctions] ++
          post "post_register_functions"%string PostRegisterFunctions ++ [Generate output_cc_file_name])
  | _ => Raise ValueError
  end.

(** [MyMultiSectionFactory] of [ns3modulegen.py]: the file of each section. *)
Definition section_sinks (main_file_name : text) (modules : list text) : gmap text text :=
  foldl (fun sinks m => <[section_name m := path_join (dirname main_file_name) (section_name m ++ txt ".cc")]> sinks) {[main_section := main_file_name]} modules.
Definition get_section_code_sink (sinks : gmap text text) (section : text) : res text := or_raise KeyError (sinks !! section).

(** [ErrorHandler]: the frames of [stack_where_defined], with file and line.  In the modular
    generator the list of the wrapper itself is turned around. *)
Definition first_frame (p : text -> bool) (stack : list (text * Z)) : option (text * Z) := find (fun l => p l.1) stack.
Definition handle_error_modular (apidefs_file : text) (stack : list (text * Z)) : list (text * Z) * option (text * Z) :=
  let stack := reverse stack in (stack, first_frame (fun f => bool_decide (f = apidefs_file)) stack).
Definition handle_error (script_dir cwd : text) (stack : list (text * Z)) : list (text * Z) * option (text * Z) :=
  (stack, first_frame (fun f => bool_decide (script_dir `prefix_of` dirname (abspath cwd f))) (reverse stack)).

(** ** The classes and their handlers *)

Lemma register_callback callbacks i tp : NoDup (callback_type <$> callbacks) -> callbacks !! i = Some tp ->
  register_callback_classes callbacks !! callback_type tp = Some (Handler (impl_name i) tp false).
Proof.
  unfold register_callback_classes. revert i. induction callbacks as [|c l IH] using rev_ind; intros i Hn Hi; [done|].
  rewrite imap_app, foldl_app. cbn [imap foldl fst snd]. rewrite fmap_app in Hn. apply NoDup_app in Hn as (Hl & Hd & _).
  apply lookup_snoc_Some in Hi as [[Hlt Hi]|[-> <-]].
  - rewrite lookup_insert_ne; [by apply IH|]. intros E. apply (Hd (callback_type tp)).
    + apply list_elem_of_fmap. exists tp. split; [done|]. by eapply list_elem_of_lookup_2.
    + rewrite <- E. left.
  - rewrite lookup_insert_eq. by rewrite Nat.add_0_r.
Qed.

Lemma show_Z_inj m n : (0 <= m)%Z -> (0 <= n)%Z -> show_Z m = show_Z n -> m = n.
Proof. intros Hm Hn E. destruct (show_Z_spec m Hm) as (_ & <- & _), (show_Z_spec n Hn) as (_ & <- & _). by rewrite E. Qed.
Lemma impl_name_inj i j : impl_name i = impl_name j -> i = j.
Proof. intros E%app_inv_head. apply show_Z_inj in E; lia. Qed.

Section generated.
Context {param : Type} (parse_type : text -> text * bool) (return_known : text -> bool -> bool).
Context (new_parameter : text -> text -> bool -> option param) (cpp_class : param -> option text) (proxy : text -> list param -> list text).
Abbreviation generate := (generate_callback_classes parse_type return_known new_parameter cpp_class proxy).

(** PyBindGen knows the return type of a callback; the types of its parameters. *)
Definition known_return (template_parameters : list text) : bool :=
  match template_parameters with r :: _ => return_known (parse_type r).1 (parse_type r).2 | [] => false end.
Definition known_parameter (a : nat * text) : bool :=
  match new_parameter (parse_type a.2).1 (txt "arg" ++ show_Z (Z.of_nat (S a.1))) (parse_type a.2).2 with Some _ => true | None => false end.
Definition known_parameters (template_parameters : list text) : bool :=
  forallb known_parameter (imap pair (filter (fun a => a <> txt "ns3::empty") (tail template_parameters))).
Definition complete_type (c : nat * list text) : bool := known_return c.2 && known_parameters c.2.
Definition refused (c : nat * list text) : bool := known_return c.2 && negb (known_parameters c.2).

Lemma arguments_ok l args ok helpers : (foldl (add_argument parse_type new_parameter cpp_class) (args, ok, helpers) l).1.2 = ok && forallb known_parameter l.
Proof.
  revert args ok helpers. induction l as [|a l IH]; intros args ok helpers; cbn [foldl forallb]; [by rewrite andb_true_r|].
  unfold known_parameter at 1, add_argument at 2. destruct (parse_type a.2) as [ctype is_const]. cbn [fst snd].
  destruct (new_parameter _ _ _); rewrite IH; cbn; [done|by rewrite andb_false_r].
Qed.

Lemma generate_callback_step st c st' : generate_callback parse_type return_known new_parameter cpp_class proxy st c = Ok st' ->
  ic_name <$> gs_out st' = (ic_name <$> gs_out st) ++ (if complete_type c then [impl_name c.1] else []) /\
  gs_handlers st' = if refused c then set_disabled (callback_type c.2) (gs_handlers st) else gs_handlers st.
Proof.
  destruct c as [i tp]. unfold generate_callback, complete_type, refused. cbn [fst snd]. destruct tp as [|r tp]; [done|].
  change (py_get (r :: tp) 0) with (Ok (E := py_exn) r). cbn [mbind result_bind]. unfold known_return.
  destruct (parse_type r) as [ctype is_const]. cbn [fst snd tail]. destruct (return_known ctype is_const); cbn [negb andb].
  2:{ intros [= <-]. by rewrite app_nil_r. }
  unfold known_parameters. cbn [tail]. pose proof (arguments_ok (imap pair (filter (fun a => a <> txt "ns3::empty") tp)) [] true (gs_helpers st, gs_disabled st)) as H.
  destruct (foldl _ _ _) as [[args ok] [helpers disabled]]. cbn [fst snd andb] in H. subst ok.
  destruct (forallb _ _); intros [= <-]; cbn; [by rewrite fmap_app|by rewrite app_nil_r].
Qed.

(** The classes that are generated, and the handlers that are disabled. *)
Lemma generate_callbacks callbacks st st' : generate callbacks st = Ok st' ->
  ic_name <$> gs_out st' = (ic_name <$> gs_out st) ++ (impl_name ∘ fst <$> filter (fun c => complete_type c = true) (imap pair callbacks)) /\
  forall name, gs_handlers st' !! name =
    if existsb (fun c => refused c && bool_decide (callback_type c.2 = name)) (imap pair callbacks)
    then (fun h => Handler (PYTHON_CALLBACK_IMPL_NAME h) (TEMPLATE_ARGS h) true) <$> gs_handlers st !! name else gs_handlers st !! name.
Proof.
  unfold generate_callback_classes. generalize (imap pair callbacks). intros l. revert st. induction l as [|c l IH]; intros st E; cbn in E.
  { injection E as <-. by rewrite app_nil_r. }
  destruct (generate_callback _ _ _ _ _ st c) as [st1| |] eqn:E1; [|done..]. cbn in E. apply generate_callback_step in E1 as [Ho Hh]. destruct (IH st1 E) as [Ho' Hh'].
  split.
  - rewrite Ho', Ho, <- app_assoc. f_equal. rewrite filter_cons. destruct (complete_type c); [by rewrite decide_True|by rewrite decide_False].
  - intros name. rewrite Hh', Hh. cbn [existsb]. destruct (refused c); [|done]. cbn [andb]. unfold set_disabled.
    destruct (decide (callback_type c.2 = name)) as [<-|Hn].
    + rewrite bool_decide_true by done. cbn [orb]. rewrite lookup_alter_eq. destruct (gs_handlers st !! _); by destruct (existsb _ l).
    + rewrite bool_decide_false by done. cbn [orb]. by rewrite lookup_alter_ne.
Qed.

(** C38: after the classes are generated, a wrapper can be made with the handler of a callback
    exactly when the class that it makes an object of is generated, as long as the return types
    are known. *)
Theorem wrappers_have_classes callbacks helpers st' i tp declared name default_value :
  NoDup (callback_type <$> callbacks) -> callbacks !! i = Some tp -> known_return tp = true ->
  generate callbacks (GenState [] (register_callback_classes callbacks) helpers ∅) = Ok st' ->
  exists h, gs_handlers st' !! callback_type tp = Some h /\ creates h = impl_name i /\
    (convert_python_to_c declared h name default_value <> None <-> creates h ∈ ic_name <$> gs_out st') /\ (creates h ∈ ic_name <$> gs_out st' <-> known_parameters tp = true).
Proof.
  intros Hn Hi Hr E. destruct (generate_callbacks _ _ _ E) as [Ho Hh]. cbn [gs_out gs_handlers fmap list_fmap app] in Ho, Hh.
  specialize (Hh (callback_type tp)). rewrite (register_callback _ _ _ Hn Hi) in Hh. cbn [fmap option_fmap option_map PYTHON_CALLBACK_IMPL_NAME TEMPLATE_ARGS] in Hh.
  assert (forall c, c ∈ imap pair callbacks -> callback_type c.2 = callback_type tp -> c = (i, tp)) as Hu.
  { intros [j tp'] Hc Et. apply elem_of_lookup_imap in Hc as (j' & tp'' & [= -> ->] & Hj). cbn [snd] in Et.
    assert (j' = i) as ->; [|by rewrite Hi in Hj; injection Hj as ->].
    rewrite NoDup_alt in Hn. apply (Hn j' i (callback_type tp)); rewrite list_lookup_fmap; [by rewrite Hj, <- Et|by rewrite Hi]. }
  assert ((i, tp) ∈ imap pair callbacks) as Hin by (apply elem_of_lookup_imap; by exists i, tp).
  assert (impl_name i ∈ ic_name <$> gs_out st' <-> known_parameters tp = true) as Hout.
  { rewrite Ho, list_elem_of_fmap. setoid_rewrite list_elem_of_filter. unfold complete_type. split.
    - intros ([j tp'] & Ej & Hc & Hj). cbn in *. apply impl_name_inj in Ej as <-. apply elem_of_lookup_imap in Hj as (i' & tp'' & [= <- <-] & Hj).
      rewrite Hi in Hj. injection Hj as <-. by apply andb_true_iff in Hc as [_ ?].
    - intros Hk. exists (i, tp). split; [done|]. split; [cbn; by rewrite Hr, Hk|done]. }
  assert (existsb (fun c => refused c && bool_decide (callback_type c.2 = callback_type tp)) (imap pair callbacks) = negb (known_parameters tp)) as Hex.
  { destruct (known_parameters tp) eqn:Ek; cbn [negb].
    - apply not_true_iff_false. intros Ht. apply existsb_exists in Ht as (c & Hc & Ht). apply andb_true_iff in Ht as [H1 H2]. apply bool_decide_eq_true in H2.
      apply list_elem_of_In, Hu in Hc as ->; [|done]. unfold refused in H1. cbn in H1. by rewrite Ek, andb_false_r in H1.
    - apply existsb_exists. exists (i, tp). split; [by apply list_elem_of_In|]. unfold refused. cbn. rewrite Hr, Ek, bool_decide_true by done. done. }
  rewrite Hex in Hh. unfold creates. destruct (known_parameters tp) eqn:Ek; cbn [negb] in Hh; eexists; (split; [exact Hh|]); cbn [PYTHON_CALLBACK_IMPL_NAME]; (split; [done|]).
  - split; [|done]. rewrite Hout. split; [done|]. intros _. unfold convert_python_to_c. cbn. by destruct default_value.
  - split; [|done]. rewrite Hout. by unfold convert_python_to_c.
Qed.
End generated.

(** ** The files of the sections *)

Lemma sinks_of main_file modules s : is_Some (section_sinks main_file modules !! s) <-> s = main_section \/ exists m, m ∈ modules /\ s = section_name m.
Proof.
  unfold section_sinks. induction modules as [|m modules IH] using rev_ind; cbn [foldl].
  - rewrite lookup_singleton_is_Some. split; [intros <-; by left|]. by intros [->|(? & []%not_elem_of_nil & _)].
  - rewrite foldl_app. cbn [foldl]. rewrite lookup_insert_is_Some', IH. setoid_rewrite elem_of_app. setoid_rewrite list_elem_of_singleton. naive_solver.
Qed.

Section sinks.
Context `{!DictOrder text}.
Lemma sections_of mods l (st st' : nat * section_table) : for_each (add_section mods) l st = Ok st' ->
  (forall h s, headers_map st'.2 !! h = Some s -> headers_map st.2 !! h = Some s \/ exists m, m ∈ l /\ s = section_name m) /\ (forall m, m ∈ l -> is_Some (mods !! m)).
Proof.
  revert st. induction l as [|x l IH]; intros st E; cbn in E.
  - injection E as <-. split; [by left|]. by intros m []%not_elem_of_nil.
  - destruct st as [prec t]. destruct (add_section mods (prec, t) x) as [st1| |] eqn:E1; [|done..]. cbn [mbind result_bind] in E.
    unfold add_section in E1. destruct (mods !! x) as [m|] eqn:Em; [|done]. cbn [or_raise mbind result_bind] in E1. injection E1 as <-.
    destruct (IH _ E) as [H1 H2]. cbn [snd headers_map] in H1. split.
    + intros h s Hs. destruct (H1 h s Hs) as [Hh|(m' & ? & ->)]; [|right; exists m'; split; [by right|done]].
      rewrite headers_added in Hh. case_decide; [injection Hh as <-; right; exists x; split; [left|done]|by left].
    + intros m' [->|?]%elem_of_cons; [by eexists|by apply H2].
Qed.

(** Every declaration of the scan has a file, when the generator is given the modules. *)
Theorem sections_have_sinks v mods sorted t modules main_file file : module_sections v mods = Ok (sorted, t) ->
  (forall m, is_Some (mods !! m) -> m ∈ modules) -> exists f, get_section_code_sink (section_sinks main_file modules) (classify t file) = Ok f.
Proof.
  intros E Hm. unfold module_sections in E. destruct (lift _) as [graph| |]; [|done..]. cbn [mbind result_bind] in E. destruct (topsort graph) as [l| |]; [|done..]. cbn [mbind result_bind] in E.
  destruct (for_each (add_section mods) l (0, SectionTable ∅ ∅)) as [[prec t']| |] eqn:Ef; [|done..]. cbn in E. injection E as -> ->.
  destruct (sections_of _ _ _ _ Ef) as [H1 H2]. cbn [snd headers_map] in H1.
  assert (is_Some (section_sinks main_file modules !! classify t file)) as [f Hf].
  { apply sinks_of. unfold classify. destruct (headers_map t !! basename file) as [s|] eqn:Es; [right|by left]. destruct (H1 _ _ Es) as [Hx|(m & Hin & ->)]; [by rewrite lookup_empty in Hx|].
    exists m. split; [by apply Hm, H2|done]. }
  exists f. unfold get_section_code_sink. by rewrite Hf.
Qed.
End sinks.

(** ** The command of the build *)

(** The generator is started with the arguments of the command that the build has for a module:
    it makes the extension of that name, with the headers of that module. *)
Theorem modular_main_runs has_bindings find_resource ns_dir script apiscan platform win c enabled defs optional static st dir st' p tgt hook callbacks :
  ns3_python_bindings has_bindings find_resource ns_dir script apiscan platform win c enabled defs optional static st dir = Ok (st', Some p) ->
  exists script_word target tail, pm_command p = txt "NS3_ENABLED_FEATURES=${FEATURES}" :: txt "GCC_RTTI_ABI_COMPLETE=${GCC_RTTI_ABI_COMPLETE}" :: txt "${PYTHON}" ::
      script_word :: dir :: target :: pm_extension p :: tail /\
    exists steps, modular_main [script_word; dir; target; pm_extension p; tgt] hook callbacks = Ok steps /\
      SetName (pm_extension p) ∈ steps /\ AddInclude ([quote] ++ txt "ns3/" ++ pm_module p ++ txt "-module.h" ++ [quote]) ∈ steps /\ last steps = Some (Generate tgt).
Proof.
  unfold ns3_python_bindings. repeat (case_match; [done|]). destruct (PYTHON_BINDINGS_APIDEFS c) as [apidefs|]; [|done].
  destruct (static_linkflags _ _ _) as [flags| |]; [|done..]. cbn [mbind result_bind]. intros [= _ <-]. cbn [pm_command pm_extension pm_module].
  eexists _, _, _. split; [done|]. unfold modular_main. eexists. split; [done|]. split; [left|]. split; [right; left|]. by rewrite !app_assoc, last_snoc.
Qed.

(** ** Examples *)

(** PyBindGen that knows [void] and [int], but not [double]. *)
Definition demo_parse (t : text) : text * bool := (t, false).
Definition demo_known (t : text) (_ : bool) : bool := bool_decide (t = txt "void" \/ t = txt "int").
Definition demo_parameter (t name : text) (_ : bool) : option text := if demo_known t false then Some name else None.
Definition demo_callbacks : list (list text) := [[txt "void"; txt "int"; txt "ns3::empty"]; [txt "int"; txt "double"]; [txt "double"; txt "int"]].
Definition demo_generated : res gen_state :=
  generate_callback_classes demo_parse demo_known demo_parameter (fun _ => None) (fun _ _ => []) demo_callbacks (GenState [] (register_callback_classes demo_callbacks) ∅ ∅).

Lemma wrappers_have_classes_witness : exists st' h, demo_generated = Ok st' /\ gs_handlers st' !! callback_type [txt "int"; txt "double"] = Some h /\
  (convert_python_to_c id h (txt "cb") None <> None <-> creates h ∈ ic_name <$> gs_out st') /\ convert_python_to_c id h (txt "cb") None = None.
Proof.
  destruct demo_generated as [st'| |] eqn:E; [|by vm_compute in E..].
  destruct (wrappers_have_classes demo_parse demo_known demo_parameter (fun _ => None) (fun _ _ => []) demo_callbacks ∅ st' 1 [txt "int"; txt "double"] id (txt "cb") None)
    as (h & Hh & Hc & H1 & H2); [by apply (bool_decide_unpack _); vm_compute|done|by vm_compute|exact E|].
  exists st', h. split; [done|]. split; [done|]. split; [exact H1|]. destruct (convert_python_to_c id h (txt "cb") None) eqn:Ec; [|done]. exfalso.
  assert (known_parameters demo_parse demo_parameter [txt "int"; txt "double"] = true) as Hk by (apply H2, H1; done). by vm_compute in Hk.
Defined.

(** When the return type is unknown, the handler is not disabled: its wrappers make objects of a
    class that is not generated. *)
Lemma unknown_return : exists st' h, demo_generated = Ok st' /\ gs_handlers st' !! callback_type [txt "double"; txt "int"] = Some h /\
  DISABLED h = false /\ creates h = txt "PythonCallbackImpl2" /\ ic_name <$> gs_out st' = [txt "PythonCallbackImpl0"].
Proof.
  destruct demo_generated as [st'| |] eqn:E; [|by vm_compute in E..]. vm_compute in E. injection E as <-. eexists _, _. split; [done|]. by vm_compute.
Qed.

(** Two errors in one wrapper: the first is reported at the innermost frame of the definitions,
    the second at the outermost. *)
Lemma reported_elsewhere : let stack := [(txt "defs.py", 10%Z); (txt "defs.py", 20%Z); (txt "module.py", 30%Z)] in
  let '(stack1, first) := handle_error_modular (txt "defs.py") stack in
  let '(_, second) := handle_error_modular (txt "defs.py") stack1 in first = Some (txt "defs.py", 20%Z) /\ second = Some (txt "defs.py", 10%Z).
Proof. by vm_compute. Qed.
