(* ===== verification/WafMain.v ===== *)
(** * The commands of waf as a whole: [wscript].

    What [build] does before and after it has chosen the modules ([WafBuild]), what
    [shutdown] does after all commands, and the commands [check], [docs], [doxygen] and
    [sphinx].  What waf does itself, the processes and the option parser are
    parameters. *)
From S2P Require Import Prelude PyString PyPath PyShlex BuildConfig Wutils WafModules.
Import Ns3rc.

(** ** Lists in columns *)

Definition ljust (n : nat) (s : text) : text := s ++ replicate (n - length s) space.

(** [i] is the column of the next name. *)
Fixpoint print_columns (i : nat) (names : list text) : text :=
  match names with
  | [] => if decide (i = 1)%nat then [] else [newline]
  | name :: names =>
      ljust 25 name ++ [space] ++ if decide (i = 3)%nat then newline :: print_columns 1 names else print_columns (S i) names
  end.
Definition print_module_names (names : list text) : text := print_columns 1 (sort_texts names).

(** [print_config], without the colours of the terminal. *)
Definition config_line (caption status : text) : text := ljust 30 caption ++ txt ": " ++ status ++ [newline].
Definition feature_status (f : feature) : text :=
  if was_enabled f then txt "enabled" else txt "not enabled (" ++ reason_not_enabled f ++ txt ")".
(** The order of [sorted(..., key=...)]: [f] goes in front of [g] when its caption is smaller. *)
Definition caption_cmp (f g : feature) : Z := if text_leb (f_caption g) (f_caption f) then 0%Z else (-1)%Z.
Definition print_config (profile build_directory : text) (features : list feature) : text :=
  txt "---- Summary of optional NS-3 features:" ++ [newline] ++ config_line (txt "Build profile") profile ++
  config_line (txt "Build directory") build_directory ++
  concat ((fun f => config_line (f_caption f) (feature_status f)) <$> sort_cmp caption_cmp features).

(** ** What a command does *)

Inductive os_command := Shell (cmd : text) | Exec (argv : list text).
Inductive waf_effect :=
| Printed (t : text) | Wrote (path contents : text) | RemovedTree (dir : text)
| Ran (c : os_command) (directory : list text) (output : option text)
| StartedProgram (program_string : text) | StartedPython (program_string : text)
| PostedHeaders | UsedVisualizer (program : text).

(** [bld.env], as far as these commands use it. *)
Record build_env := BuildEnv {
  b_modules : selection; MODULAR_BINDINGS_MODULES : list text; b_not_built : list text;
  b_programs : list text; b_scripts : list text;
  PRINT_BUILT_MODULES_AT_END : bool; GCOV_ENABLED : bool; DOXYGEN : list text }.
Definition set_print (b : bool) (e : build_env) : build_env :=
  BuildEnv (b_modules e) (MODULAR_BINDINGS_MODULES e) (b_not_built e) (b_programs e) (b_scripts e) b (GCOV_ENABLED e) (DOXYGEN e).
Definition set_not_built (l : list text) (e : build_env) : build_env :=
  BuildEnv (b_modules e) (MODULAR_BINDINGS_MODULES e) l (b_programs e) (b_scripts e) (PRINT_BUILT_MODULES_AT_END e) (GCOV_ENABLED e) (DOXYGEN e).

(** The actions so far, the directory below that of the repository, [bld.env], the
    option [targets], and whether [wutils.bld] is set. *)
Record waf_session := Session {
  actions : list waf_effect; directory : list text; s_env : build_env; targets : text; bld_set : bool }.
Definition waf (A : Type) : Type := waf_session -> waf_session * res A.
#[export] Instance waf_ret : MRet waf := fun A a s => (s, Ok a).
#[export] Instance waf_bind : MBind waf := fun A B f m s =>
  match m s with
  | (s, Ok a) => f a s
  | (s, Raise e) => (s, Raise e)
  | (s, NoFuel) => (s, NoFuel)
  end.
Definition fail {A} (e : py_exn) : waf A := fun s => (s, Raise e).
Definition call {A} (r : res A) : waf A := fun s => (s, r).
Definition act (a : waf_effect) : waf unit := fun s =>
  (Session (actions s ++ [a]) (directory s) (s_env s) (targets s) (bld_set s), Ok ()).
Definition modify_env (f : build_env -> build_env) : waf unit := fun s =>
  (Session (actions s) (directory s) (f (s_env s)) (targets s) (bld_set s), Ok ()).
Definition get_env : waf build_env := fun s => (s, Ok (s_env s)).
Definition set_bld : waf unit := fun s => (Session (actions s) (directory s) (s_env s) (targets s) true, Ok ()).
Definition add_target (t : text) : waf unit := fun s =>
  (Session (actions s) (directory s) (s_env s) (targets s ++ txt "," ++ t) (bld_set s), Ok ()).
Definition chdir (dir : list text) : waf unit := fun s => (Session (actions s) dir (s_env s) (targets s) (bld_set s), Ok ()).
Definition when (b : bool) (m : waf unit) : waf unit := if b then m else mret ().
(** [try: m finally: f] *)
Definition finally {A} (m : waf A) (f : waf unit) : waf A := fun s =>
  let (s, r) := m s in
  match f s with (s, Ok _) => (s, r) | (s, Raise e) => (s, Raise e) | (s, NoFuel) => (s, NoFuel) end.
Fixpoint each_of {X} (f : X -> waf unit) (l : list X) : waf unit :=
  match l with [] => mret () | x :: l => _ ← f x; each_of f l end.

(** [Options.options] *)
Record main_options := MainOptions {
  run : text; pyrun : text; run_no_build : text; pyrun_no_build : text; visualize : bool; lcov : bool;
  o_shell : bool; o_check : bool; doxygen_no_build : bool; check_config : bool; check_profile : bool; o_enable_modules : text }.

Definition given (t : text) : bool := bool_decide (t <> []).

Section main.
Context (opts : main_options) (wopts : woptions) (wenv : wenv) (platform cwd : text).
Context (environ : gmap text text) (pymoddir pyvizdir : text) (all_task_gen : list task_gen) (launch_dir : text).
Context (popen : list text -> gmap text text -> option text -> res (Z * text)) (windows : bool).
Abbreviation run_program := (Wutils.run_program wopts wenv platform cwd environ pymoddir pyvizdir all_task_gen launch_dir popen windows).
Abbreviation run_python_program := (Wutils.run_python_program wopts wenv platform environ pymoddir pyvizdir popen windows).
Abbreviation get_run_program := (Wutils.get_run_program cwd all_task_gen launch_dir).
Abbreviation template := (Some (Wutils.get_command_template wopts [])).
(** The exit status of a process, which can depend on all that happened; the files
    that exist; the lines of the lock file; the optional features and the directory of the
    build. *)
Context (exit_status : list waf_effect -> os_command -> Z) (exists_ : text -> bool).
Context (lock_file : list text) (features : list feature) (build_directory : text).
(** [WafBuild.waf_build], and the tasks that waf runs. *)
Context (choose : waf unit) (compile : waf unit).

(** Starts a process in the present directory, with its output in a file. *)
Definition wait_for (c : os_command) (output : option text) : waf Z := fun s =>
  (Session (actions s ++ [Ran c (directory s) output]) (directory s) (s_env s) (targets s) (bld_set s), Ok (exit_status (actions s) c)).
(** [if subprocess.Popen(...).wait(): raise SystemExit(1)] *)
Definition must_run (c : os_command) (output : option text) : waf unit :=
  status ← wait_for c output; if decide (status = 0)%Z then mret () else fail (SystemExit 1).

Definition start_program (p : text) : waf unit :=
  _ ← act (StartedProgram p); _ ← call (run_program p template None (visualize opts)); mret ().
Definition start_python (p : text) (visual : bool) : waf unit :=
  _ ← act (StartedPython p); _ ← call (run_python_program p visual); mret ().

(** *** Documentation *)

Definition _cleandocs : waf unit :=
  each_of (fun d => act (RemovedTree (txt d)))
    ["doc/html"; "doc/html-warn"; "doc/manual/build"; "doc/manual/source-temp"; "doc/tutorial/build"; "doc/tutorial-pt-br/build";
     "doc/models/build"; "doc/models/source-temp"]%string.
Definition _getVersion : waf unit := must_run (Exec [txt "doc/ns3_html_theme/get_version.sh"]) None.
Definition _doxygen : waf unit :=
  env ← get_env;
  match DOXYGEN env with
  | [] => fail (SystemExit 1)
  | doxygen =>
      match Wutils.find_program cwd all_task_gen launch_dir (txt "print-introspected-doxygen") with
      | Raise ValueError => fail (SystemExit 1)
      | r =>
          obj ← call r; let prog := tg_target obj in
          if negb (exists_ prog) then fail (SystemExit 1)
          else
            _ ← must_run (Exec [prog]) (Some (txt "doc/introspected-doxygen.h"));
            _ ← must_run (Exec [prog; txt "--output-text"]) (Some (txt "doc/ns3-object.txt"));
            _ ← _getVersion;
            must_run (Exec (doxygen ++ [txt "doc/doxygen.conf"])) None
      end
  end.
(** [make] in a directory below the present one. *)
Definition sphinx_build (path : text) : waf unit := fun s =>
  let (s', r) := (_ ← chdir (directory s ++ [path]);
                  must_run (Exec (txt <$> ["make"; "SPHINXOPTS=-N"; "-k"; "html"; "singlehtml"; "latexpdf"])%string) None) s in
  (Session (actions s') (directory s) (s_env s') (targets s') (bld_set s'), r).
Definition sphinx : waf unit :=
  _ ← _getVersion; each_of (fun d => sphinx_build (path_join (txt "doc") (txt d))) ["manual"; "models"; "tutorial"; "tutorial-pt-br"]%string.

(** The report of the code coverage is made in the directory of the build. *)
Definition lcov_report : waf unit :=
  env ← get_env;
  if negb (GCOV_ENABLED env) then fail WafError
  else if negb (exists_ (txt "build")) then fail IOError
  else fun s =>
    (_ ← chdir (directory s ++ [txt "build"]);
     finally
       (_ ← must_run (Shell (txt "rm -rf lcov-report && mkdir lcov-report;")) None;
        _ ← must_run (Shell (txt "../utils/lcov/lcov -c -d . -o lcov-report/report.info -b " ++
                             cwd ++ concat ((fun d => slash :: d) <$> (directory s ++ [txt "build"])))) None;
        must_run (Shell (txt "../utils/lcov/genhtml -o lcov-report lcov-report/report.info")) None)
       (fun s => chdir (take (length (directory s) - 1) (directory s)) s)) s.

(** *** [build] *)

Definition build_begin : waf bool :=
  _ ← (if check_config opts then
         profile ← call (get_build_profile lock_file); act (Printed (print_config profile build_directory features))
       else when (check_profile opts)
         (profile ← call (get_build_profile lock_file); act (Printed (txt "Build profile: " ++ profile ++ [newline]))));
  if check_profile opts || check_config opts then fail (SystemExit 0)
  else mret (negb (given (o_enable_modules opts))).

Definition build_end (cmd : text) : waf unit :=
  _ ← modify_env (set_print (bool_decide (cmd <> txt "clean")));
  _ ← when (given (run opts))
    ('(program_name, _) ← call (get_run_program (run opts) template);
     _ ← add_target (basename program_name);
     _ ← when (visualize opts)
       (_ ← call (find_program cwd all_task_gen launch_dir program_name); act (UsedVisualizer program_name));
     act PostedHeaders);
  _ ← when (given (run opts) || given (pyrun opts)) (modify_env (set_print false));
  _ ← when (doxygen_no_build opts) (_ ← _doxygen; fail (SystemExit 0));
  _ ← when (given (run_no_build opts))
    (_ ← call (get_run_program (run_no_build opts) template); _ ← start_program (run_no_build opts); fail (SystemExit 0));
  when (given (pyrun_no_build opts)) (_ ← start_python (pyrun_no_build opts) (visualize opts); fail (SystemExit 0)).

Definition wscript_build (cmd : text) : waf unit :=
  go ← build_begin;
  when go
    (_ ← set_bld; _ ← when (bool_decide (cmd = txt "clean")) _cleandocs;
     _ ← choose; build_end cmd).

(** *** [shutdown] *)

(** The list of modules in the message at the end. *)
Definition built_names (env : build_env) : list text :=
  (fun name => drop 4 name ++ if decide (name ∈ MODULAR_BINDINGS_MODULES env) then [] else txt " (no Python)")
    <$> (b_modules env).1 ++ (b_modules env).2.
Definition print_lists : waf unit :=
  env ← get_env;
  when (PRINT_BUILT_MODULES_AT_END env)
    (_ ← act (Printed (newline :: txt "Modules built:" ++ [newline] ++ print_module_names (built_names env) ++ [newline]));
     _ ← when (bool_decide (b_not_built env <> []))
       (_ ← act (Printed (txt "Modules not built (see ns-3 tutorial for explanation):" ++ [newline] ++
                          print_module_names (b_not_built env) ++ [newline]));
        modify_env (set_not_built (sort_texts (b_not_built env))));
     modify_env (set_print false)).

Definition build_status (programs scripts : list text) : text :=
  txt "#! /usr/bin/env python3" ++ newline ::
  newline ::
  txt "# Programs that are runnable." ++ newline ::
  txt "ns3_runnable_programs = " ++ list_repr programs ++ newline ::
  newline ::
  txt "# Scripts that are runnable." ++ newline ::
  txt "ns3_runnable_scripts = " ++ list_repr scripts ++ newline ::
  [newline].
Definition status_file : text := path_join build_directory (txt "build-status.py").
Definition write_status : waf unit :=
  env ← get_env; act (Wrote status_file (build_status (b_programs env) (b_scripts env))).

(** The variables of a shell that was started for another build. *)
Definition check_shell : waf unit :=
  match environ !! txt "NS3_MODULE_PATH", environ !! txt "NS3_EXECUTABLE_PATH" with
  | Some m, Some e =>
      if decide (m = join pathsep (NS3_MODULE_PATH wenv) /\ e = join pathsep (NS3_EXECUTABLE_PATH wenv)) then mret () else fail WafError
  | _, _ => mret ()
  end.

Definition shutdown : waf unit := fun s =>
  if negb (bld_set s) then (s, Ok ())
  else
    (_ ← print_lists;
     _ ← write_status;
     _ ← when (lcov opts) lcov_report;
     _ ← when (given (run opts)) (_ ← start_program (run opts); fail (SystemExit 0));
     _ ← when (given (pyrun opts)) (_ ← start_python (pyrun opts) (visualize opts); fail (SystemExit 0));
     _ ← when (o_shell opts) (fail WafError);
     _ ← when (o_check opts) (fail WafError);
     check_shell) s.

(** *** The commands *)

(** A shell in which programs can be started. *)
Definition shell_env : gmap text text :=
  {[txt "NS3_MODULE_PATH" := join pathsep (NS3_MODULE_PATH wenv); txt "NS3_EXECUTABLE_PATH" := join pathsep (NS3_EXECUTABLE_PATH wenv)]}.
Definition shell_program : text :=
  if decide (platform = txt "win32") then default (txt "cmd.exe") (environ !! txt "COMSPEC") else default (txt "/bin/sh") (environ !! txt "SHELL").
Definition start_shell : waf unit :=
  _ ← modify_env (set_print false);
  _ ← call (run_argv wopts wenv platform environ pymoddir pyvizdir popen windows [shell_program] (Some shell_env) None false); mret ().

Inductive waf_command := Build (cmd : text) | Check | ShellIn | Doxygen | Sphinx | Distclean | OtherCommand (m : waf unit).
(** What waf does for [build], [clean] and the like: the wscript, then the tasks. *)
Definition execute_build (cmd : text) : waf unit := _ ← wscript_build cmd; compile.
Definition run_command (c : waf_command) : waf unit :=
  match c with
  | Build cmd => execute_build cmd
  | Check => _ ← execute_build (txt "build"); _ ← set_bld; start_python (txt "test.py -n -c core") false
  | ShellIn => _ ← execute_build (txt "build"); start_shell
  | Doxygen => _ ← execute_build (txt "build"); _doxygen
  | Sphinx => sphinx
  | Distclean => _cleandocs
  | OtherCommand m => m
  end.
(** [docs] puts two commands in front of those that are left. *)
Definition docs_steps (commands : list waf_command) : list waf_command := [Doxygen; Sphinx] ++ commands.
(** Waf runs the commands, and [shutdown] after the last one. *)
Definition run_commands (commands : list waf_command) : waf unit := _ ← each_of run_command commands; shutdown.
End main.

(** *** Lists in columns *)

(** Three names on each line. *)
Fixpoint rows (names : list text) : list (list text) :=
  match names with a :: b :: c :: names => [a; b; c] :: rows names | [] => [] | _ => [names] end.
Definition row_text (row : list text) : text := concat ((fun name => ljust 25 name ++ [space]) <$> row) ++ [newline].

Lemma print_rows names : print_columns 1 names = concat (row_text <$> rows names).
Proof.
  assert (forall n names, (length names <= n)%nat -> print_columns 1 names = concat (row_text <$> rows names)) as H; [|by apply (H (length names))].
  clear names. induction n as [|n IH]; intros names Hn; [by destruct names; [|cbn in Hn; lia]|].
  destruct names as [|a [|b [|c names]]]; [done| | |]; unfold row_text; cbn -[ljust]; rewrite ?app_nil_r, <- ?app_assoc; [done..|].
  cbn -[ljust]. rewrite IH by (cbn in Hn; lia). reflexivity.
Qed.

(** The names are printed in alphabetical order, three on each line. *)
Theorem print_module_names_spec names : print_module_names names = concat (row_text <$> rows (sort_texts names)) /\ sort_texts names ≡ₚ names.
Proof. split; [apply print_rows|apply sort_texts_perm]. Qed.

(** *** The summary of the features *)

Lemma text_leb_total a : forall b, text_leb a b = true \/ text_leb b a = true.
Proof.
  induction a as [|x a IH]; intros [|y b]; cbn -[Nat.ltb Nat.eqb]; auto. destruct (Nat.ltb_spec (nat_of_ascii x) (nat_of_ascii y)) as [|H1]; [by left|].
  destruct (Nat.ltb_spec (nat_of_ascii y) (nat_of_ascii x)) as [|H2]; [by right|]. assert (nat_of_ascii x = nat_of_ascii y) as -> by lia.
  rewrite !Nat.eqb_refl. apply IH.
Qed.
Lemma text_leb_trans a : forall b c, text_leb a b = true -> text_leb b c = true -> text_leb a c = true.
Proof.
  induction a as [|x a IH]; intros [|y b] [|z c]; cbn -[Nat.ltb Nat.eqb]; try done.
  destruct (Nat.ltb_spec (nat_of_ascii x) (nat_of_ascii y)), (Nat.eqb_spec (nat_of_ascii x) (nat_of_ascii y)),
    (Nat.ltb_spec (nat_of_ascii y) (nat_of_ascii z)), (Nat.eqb_spec (nat_of_ascii y) (nat_of_ascii z)),
    (Nat.ltb_spec (nat_of_ascii x) (nat_of_ascii z)), (Nat.eqb_spec (nat_of_ascii x) (nat_of_ascii z)); try done; try lia. apply IH.
Qed.

(** Every feature is in the summary, and their captions ascend. *)
Theorem config_sorted features : let l := sort_cmp caption_cmp features in
  l ≡ₚ features /\ StronglySorted (fun f g => text_leb (f_caption f) (f_caption g) = true) l.
Proof.
  split; [apply sort_cmp_perm|]. induction features as [|f fs IH] using rev_ind; [constructor|]. rewrite sort_cmp_snoc.
  induction IH as [|g l Hs IH Hg]; cbn; [by repeat constructor|]. unfold caption_cmp at 1. destruct (text_leb (f_caption g) (f_caption f)) eqn:E; cbn.
  - constructor; [done|]. rewrite insert_cmp_perm. by constructor.
  - assert (text_leb (f_caption f) (f_caption g) = true) as Hfg by (destruct (text_leb_total (f_caption f) (f_caption g)); congruence).
    constructor; [by constructor|]. constructor; [done|]. eapply Forall_impl; [exact Hg|]. intros h Hh. by eapply text_leb_trans.
Qed.

(** *** The status of the build *)

Lemma uncomment_plain line : "#"%char ∉ line -> uncomment line = line.
Proof. intros H. unfold uncomment. by rewrite split_once_None. Qed.

Lemma repr_plain c l : Forall (fun s => c ∉ s) l -> c ∉ txt "[], '" -> c <> "034"%char -> c <> "\"%char -> c ∉ list_repr l.
Proof.
  intros Hl H1 H2 H3 H. apply elem_of_list_repr in H as [(s & Hs & Hc)|[H|[H|H]]]; [|done..]. rewrite Forall_forall in Hl. by apply (Hl s).
Qed.
Lemma bracket_in_repr l : "]"%char ∈ list_repr l.
Proof. unfold list_repr. rewrite !elem_of_app. right. right. left. Qed.

Lemma strip_repr l : strip ([space] ++ list_repr l ++ [newline]) = list_repr l.
Proof.
  unfold strip, list_repr. change ([space] ++ (txt "[" ++ join_reprs l ++ txt "]") ++ [newline]) with ([space] ++ "["%char :: (join_reprs l ++ txt "]") ++ [newline]).
  rewrite lstrip_stop; [|by apply Forall_singleton|done].
  replace ("["%char :: (join_reprs l ++ txt "]") ++ [newline]) with ((txt "[" ++ join_reprs l) ++ "]"%char :: [newline]) by (cbn; by rewrite <- app_assoc).
  rewrite rstrip_stop; [by rewrite <- app_assoc|by apply Forall_singleton|done].
Qed.

(** The definition of a list on a line of its own is read as what [eval] makes of it. *)
Lemma read_definition eval fs path name pre l rest content : fs !! path = Some content ->
  readlines content = pre ++ (name ++ txt " = " ++ list_repr l ++ [newline]) :: rest ->
  Forall (fun line => occurs name (uncomment line) = false) pre -> "="%char ∉ name -> "#"%char ∉ name ->
  Forall (fun s => "#"%char ∉ s) l -> get_list_from_file eval fs path name = eval (list_repr l).
Proof.
  intros Hf Hr Hpre Heq Hn Hl.
  assert (uncomment (name ++ txt " = " ++ list_repr l ++ [newline]) = name ++ txt " = " ++ list_repr l ++ [newline]) as Hu.
  { apply uncomment_plain. rewrite !elem_of_app. intros [H|[H|[H|H]]]; [done|revert H; not_in| |revert H; not_in].
    revert H. apply repr_plain; [done|not_in|done..]. }
  rewrite (get_list_spec eval fs path name pre [] _ rest content Hf Hr Hpre).
  - cbn [fmap list_fmap concat app]. rewrite Hu. unfold eval_rhs.
    change (name ++ txt " = " ++ list_repr l ++ [newline]) with (name ++ [space] ++ "="%char :: [space] ++ list_repr l ++ [newline]).
    rewrite app_assoc, split_once_app; [|rewrite elem_of_app; intros [H|H]; [done|revert H; not_in]]. cbn [or_raise fmap option_fmap option_map snd mbind result_bind].
    f_equal. apply strip_repr.
  - eexists. split; [reflexivity|]. rewrite Hu. apply occurs_prefix.
  - apply not_elem_of_nil.
  - rewrite Hu, !elem_of_app. right. right. left. apply bracket_in_repr.
Qed.

(** A character that is not in a text separates its occurrences. *)
Lemma prefix_cut (s a : text) q b : q ∉ s -> s `prefix_of` a ++ q :: b -> s `prefix_of` a.
Proof.
  revert s. induction a as [|x a IH]; intros s Hq Hp; cbn [app] in Hp.
  - destruct s as [|y s]; [apply prefix_nil|]. apply prefix_cons_inv_1 in Hp as ->. exfalso. apply Hq. left.
  - destruct s as [|y s]; [apply prefix_nil|]. pose proof (prefix_cons_inv_1 _ _ _ _ Hp) as ->. apply prefix_cons, IH; [set_solver|]. by apply prefix_cons_inv_2 in Hp.
Qed.
Lemma occurs_cut s a q b : q ∉ s -> s <> [] -> occurs s (a ++ q :: b) = true -> occurs s a = true \/ occurs s b = true.
Proof.
  intros Hq Hs. induction a as [|x a IH]; cbn [app occurs]; intros H; apply orb_true_iff in H as [H%bool_decide_eq_true|H].
  - apply (prefix_cut s [] q b Hq) in H. by apply prefix_nil_inv in H.
  - by right.
  - left. apply orb_true_iff. left. apply bool_decide_true. by apply (prefix_cut s (x :: a) q b Hq).
  - destruct (IH H) as [Ha|Hb]; [left; apply orb_true_iff; by right|by right].
Qed.

Definition escape (q c : ascii) : text := if decide (c = q \/ c = "\"%char) then ["\"%char; c] else [c].
Lemma prefix_escaped q s l : q ∉ s -> "\"%char ∉ s -> s `prefix_of` (l ≫= escape q) -> s `prefix_of` l.
Proof.
  revert l. induction s as [|x s IH]; intros l Hq Hb Hp; [apply prefix_nil|]. destruct l as [|c l]; [by apply prefix_nil_inv in Hp|].
  cbn in Hp. unfold escape at 1 in Hp. case_decide as Hc; cbn [app] in Hp; pose proof (prefix_cons_inv_1 _ _ _ _ Hp) as ->.
  - exfalso. apply Hb. left.
  - apply prefix_cons, IH; [set_solver..|]. by apply prefix_cons_inv_2 in Hp.
Qed.
Lemma occurs_escaped q s l : q ∉ s -> "\"%char ∉ s -> s <> [] -> occurs s (l ≫= escape q) = true -> occurs s l = true.
Proof.
  intros Hq Hb Hs. induction l as [|c l IH]; intros H; [exact H|].
  destruct (decide (c = q \/ c = "\"%char)) as [Hc|Hc].
  - cbn in H. unfold escape at 1 in H. rewrite decide_True in H by done. cbn [occurs]. apply orb_true_iff. right. apply IH.
    apply (occurs_cut s [] "\"%char) in H as [H|H]; [destruct s; [done|by cbn in H]| |done..].
    apply (occurs_cut s [] c) in H as [H|H]; [destruct s; [done|by cbn in H]|done| |done]. by destruct Hc as [->| ->].
  - cbn [occurs]. apply orb_true_iff. cbn in H. unfold escape at 1 in H. rewrite decide_False in H by done. cbn [app] in H. fold occurs in H.
    apply orb_true_iff in H as [H%bool_decide_eq_true|H]; [|right; by apply IH].
    left. apply bool_decide_true. apply (prefix_escaped q); [done..|]. cbn. unfold escape at 1. by rewrite decide_False.
Qed.

(** Names without quotes, commas and brackets that occur in a list occur in a text of it. *)
Definition bare_name (s : text) : Prop := s <> [] /\ Forall (fun c => c ∉ s) ["'"; "034"; "\"; ","; "["; "]"; " "]%char.
Lemma occurs_repr s l : bare_name s -> occurs s (py_repr l) = true -> occurs s l = true.
Proof.
  intros [Hs Hc]. rewrite !Forall_cons in Hc. destruct Hc as (H1 & H2 & H3 & _). unfold py_repr. set (q := if decide _ then _ else _).
  assert (q ∉ s) as Hq by (unfold q; by case_decide). intros H.
  apply (occurs_cut s [] q) in H as [H|H]; [destruct s; [done|by cbn in H]| |done..].
  apply occurs_cut in H as [H|H]; [|destruct s; [done|by cbn in H]|done..]. by apply (occurs_escaped q) in H.
Qed.
Lemma occurs_join s l : bare_name s -> occurs s (join_reprs l) = true -> exists x, x ∈ l /\ occurs s x = true.
Proof.
  intros Hb. pose proof Hb as [Hs Hc]. rewrite !Forall_cons in Hc. destruct Hc as (_ & _ & _ & H4 & _ & _ & H7 & _).
  induction l as [|x [|y l] IH]; intros H; cbn [join_reprs] in H.
  - destruct s; [done|by cbn in H].
  - exists x. split; [left|by apply occurs_repr].
  - change (txt ", " ++ join_reprs (y :: l)) with (","%char :: " "%char :: join_reprs (y :: l)) in H.
    apply occurs_cut in H as [H|H]; [exists x; split; [left|by apply occurs_repr]| |done..].
    apply (occurs_cut s [] " "%char) in H as [H|H]; [destruct s; [done|by cbn in H]| |done..].
    destruct (IH H) as (z & ? & ?). exists z. split; [by right|done].
Qed.
Lemma occurs_list_repr s l : bare_name s -> occurs s (list_repr l) = true -> exists x, x ∈ l /\ occurs s x = true.
Proof.
  intros Hb H. pose proof Hb as [Hs Hc]. rewrite !Forall_cons in Hc. destruct Hc as (_ & _ & _ & _ & H5 & H6 & _).
  unfold list_repr in H. apply (occurs_cut s [] "["%char) in H as [H|H]; [destruct s; [done|by cbn in H]| |done..].
  apply (occurs_cut s _ "]"%char []) in H as [H|H]; [by apply occurs_join|destruct s; [done|by cbn in H]|done..].
Qed.

Definition programs_name : text := txt "ns3_runnable_programs".
Definition scripts_name : text := txt "ns3_runnable_scripts".
(** A path that the file can hold: [#] would start a comment. *)
Definition storable (s : text) : Prop := "#"%char ∉ s /\ newline ∉ s /\ occurs scripts_name s = false.

Lemma readlines_blank rest : readlines (newline :: rest) = [newline] :: readlines rest.
Proof. apply (readlines_line []), not_elem_of_nil. Qed.
Lemma status_lines programs scripts : Forall storable programs -> Forall storable scripts ->
  readlines (build_status programs scripts) =
    [txt "#! /usr/bin/env python3" ++ [newline]; [newline]; txt "# Programs that are runnable." ++ [newline];
     programs_name ++ txt " = " ++ list_repr programs ++ [newline]; [newline]; txt "# Scripts that are runnable." ++ [newline];
     scripts_name ++ txt " = " ++ list_repr scripts ++ [newline]; [newline]].
Proof.
  assert (forall name l, newline ∉ name -> Forall storable l -> newline ∉ name ++ list_repr l) as Hn.
  { intros name l Hn Hl. rewrite elem_of_app. intros [H|H]; [done|]. revert H. apply repr_plain; [|not_in|done..]. eapply Forall_impl; [exact Hl|]. by intros s (_ & ? & _). }
  intros Hp Hs. unfold build_status.
  rewrite readlines_line by not_in. rewrite readlines_blank. rewrite readlines_line by not_in.
  rewrite (app_assoc (txt "ns3_runnable_programs = ")), readlines_line by (apply Hn; [not_in|done]).
  rewrite readlines_blank. rewrite readlines_line by not_in.
  rewrite (app_assoc (txt "ns3_runnable_scripts = ")), readlines_line by (apply Hn; [not_in|done]). cbn [readlines app decide].
  unfold programs_name, scripts_name. rewrite <- !app_assoc. reflexivity.
Qed.

(** C40: the file that [shutdown] leaves is read by [test.py] as it was written: the lists
    of the programs and the scripts that can be run. *)
Theorem build_status_read eval fs path programs scripts :
  (forall l, Forall storable l -> eval (list_repr l) = Ok (PyList l)) ->
  fs !! path = Some (build_status programs scripts) -> Forall storable programs -> Forall storable scripts ->
  get_list_from_file eval fs path programs_name = Ok (PyList programs) /\
  get_list_from_file eval fs path scripts_name = Ok (PyList scripts).
Proof.
  intros He Hf Hp Hs. pose proof (status_lines _ _ Hp Hs) as Hl.
  assert (forall l, Forall storable l -> Forall (fun s => "#"%char ∉ s) l) as Hh by (intros l H; eapply Forall_impl; [exact H|]; by intros s (? & _)).
  split.
  - rewrite <- (He programs Hp). eapply (read_definition _ _ _ _ [_; _; _]); [exact Hf|exact Hl| |not_in|not_in|by apply Hh].
    repeat (constructor; [reflexivity|]). constructor.
  - rewrite <- (He scripts Hs). eapply (read_definition _ _ _ _ [_; _; _; _; _; _]); [exact Hf|exact Hl| |not_in|not_in|by apply Hh].
    do 3 (constructor; [reflexivity|]). constructor; [|do 2 (constructor; [reflexivity|]); constructor].
    rewrite uncomment_plain.
    2:{ rewrite !elem_of_app. intros [H|[H|[H|H]]]; [revert H; not_in|revert H; not_in| |revert H; not_in]. revert H. apply repr_plain; [by apply Hh|not_in|done..]. }
    apply not_true_iff_false. intros H. change (programs_name ++ txt " = " ++ list_repr programs ++ [newline])
      with (programs_name ++ " "%char :: "="%char :: " "%char :: list_repr programs ++ newline :: []) in H.
    assert (bare_name scripts_name) as Hb by (split; [done|]; repeat constructor; not_in).
    apply occurs_cut in H as [H|H]; [done| |not_in|done]. apply (occurs_cut _ []) in H as [H|H]; [done| |not_in|done].
    apply (occurs_cut _ []) in H as [H|H]; [done| |not_in|done]. apply occurs_cut in H as [H|H]; [|done|not_in|done].
    apply (occurs_list_repr _ _ Hb) in H as (x & Hx & H). rewrite Forall_forall in Hp. destruct (Hp x Hx) as (_ & _ & Hn). by rewrite H in Hn.
Qed.

(** *** Programs *)

Lemma waf_bind_ok {A B} (m : waf A) (f : A -> waf B) s s' a : m s = (s', Ok a) -> (m ≫= f) s = f a s'.
Proof. intros H. unfold mbind, waf_bind. by rewrite H. Qed.
Lemma waf_bind_raise {A B} (m : waf A) (f : A -> waf B) s s' e : m s = (s', Raise e) -> (m ≫= f) s = (s', Raise e).
Proof. intros H. unfold mbind, waf_bind. by rewrite H. Qed.
(** How a session ends when the exit status of the program is [r]. *)
Definition ends_with_program {A} (r : res Z) : res A :=
  match r with Ok _ => Raise (SystemExit 0) | Raise e => Raise e | NoFuel => NoFuel end.
Lemma bind_end {A B} (m : waf A) (f : A -> waf B) s s' r : m s = (s', ends_with_program r) -> (m ≫= f) s = (s', ends_with_program r).
Proof. intros H. unfold mbind, waf_bind. rewrite H. by destruct r. Qed.
Definition after_effect (a : waf_effect) (s : waf_session) : waf_session := Session (actions s ++ [a]) (directory s) (s_env s) (targets s) (bld_set s).

Section main_facts.
Context (opts : main_options) (wopts : woptions) (wenv : wenv) (platform cwd : text).
Context (environ : gmap text text) (pymoddir pyvizdir : text) (all_task_gen : list task_gen) (launch_dir : text).
Context (popen : list text -> gmap text text -> option text -> res (Z * text)) (windows : bool).
Context (exit_status : list waf_effect -> os_command -> Z) (exists_ : text -> bool).
Context (lock_file : list text) (features : list feature) (build_directory : text).
Context (choose : waf unit) (compile : waf unit).
Abbreviation run_program := (Wutils.run_program wopts wenv platform cwd environ pymoddir pyvizdir all_task_gen launch_dir popen windows).
Abbreviation get_run_program := (Wutils.get_run_program cwd all_task_gen launch_dir).
Abbreviation template := (Some (Wutils.get_command_template wopts [])).
Abbreviation commands := (run_commands opts wopts wenv platform cwd environ pymoddir pyvizdir all_task_gen launch_dir popen windows
  exit_status exists_ lock_file features build_directory choose compile).

(** Only [--run] and [--run-no-build] are given, and what they say. *)
Definition only_run (program no_build : text) : Prop :=
  run opts = program /\ pyrun opts = [] /\ run_no_build opts = no_build /\ pyrun_no_build opts = [] /\ visualize opts = false /\
  lcov opts = false /\ doxygen_no_build opts = false /\ check_config opts = false /\ check_profile opts = false /\ o_enable_modules opts = [].

(** The session in which the wscripts are read, and the one that waf starts the tasks in. *)
Definition with_bld (s : waf_session) : waf_session := Session (actions s) (directory s) (s_env s) (targets s) true.
Definition ready_session (program_name : text) (s : waf_session) : waf_session :=
  Session (actions s ++ [PostedHeaders]) (directory s) (set_print false (s_env s)) (targets s ++ txt "," ++ basename program_name) (bld_set s).

Lemma start_then_exit program s : visualize opts = false ->
  (_ ← start_program opts wopts wenv platform cwd environ pymoddir pyvizdir all_task_gen launch_dir popen windows program;
   fail (A := unit) (SystemExit 0)) s = (after_effect (StartedProgram program) s, ends_with_program (run_program program template None false)).
Proof.
  intros Hv. unfold start_program, mbind, waf_bind, act, call, ends_with_program, fail, mret, waf_ret. rewrite Hv. cbn [app fst snd].
  destruct (run_program program template None false); reflexivity.
Qed.

Lemma build_run program s s1 : program <> [] -> only_run program [] -> choose (with_bld s) = (s1, Ok ()) ->
  wscript_build opts wopts wenv platform cwd environ pymoddir pyvizdir all_task_gen launch_dir popen windows
    exit_status exists_ lock_file features build_directory choose (txt "build") s =
  match get_run_program program template with
  | Ok (name, _) => (ready_session name s1, Ok ())
  | Raise e => (Session (actions s1) (directory s1) (set_print true (s_env s1)) (targets s1) (bld_set s1), Raise e)
  | NoFuel => (Session (actions s1) (directory s1) (set_print true (s_env s1)) (targets s1) (bld_set s1), NoFuel)
  end.
Proof.
  intros Hne (Hr & Hp & Hn & Hpn & Hv & Hl & Hd & Hcc & Hcp & He) Hch. assert (given program = true) as Hg by (by apply bool_decide_true).
  unfold wscript_build, build_begin. rewrite Hcc, Hcp, He. cbn [orb when given].
  rewrite (waf_bind_ok _ _ s s true) by reflexivity. cbn [when]. rewrite (waf_bind_ok _ _ s (with_bld s) ()) by reflexivity.
  rewrite (waf_bind_ok _ _ _ (with_bld s) ()) by reflexivity. rewrite (waf_bind_ok _ _ _ s1 ()) by done.
  unfold build_end. rewrite Hr, Hp, Hn, Hpn, Hv, Hd, Hg. cbn [given orb when].
  rewrite (waf_bind_ok _ _ _ (Session (actions s1) (directory s1) (set_print true (s_env s1)) (targets s1) (bld_set s1)) ()) by reflexivity.
  unfold mbind, waf_bind, call. destruct (get_run_program program template) as [[name argv]|e|]; reflexivity.
Qed.

Lemma build_no_build program s s1 : program <> [] -> only_run [] program -> choose (with_bld s) = (s1, Ok ()) ->
  forall name argv, get_run_program program template = Ok (name, argv) ->
  exists s2, wscript_build opts wopts wenv platform cwd environ pymoddir pyvizdir all_task_gen launch_dir popen windows
    exit_status exists_ lock_file features build_directory choose (txt "build") s =
    (s2, ends_with_program (run_program program template None false)) /\ actions s2 = actions s1 ++ [StartedProgram program].
Proof.
  intros Hne (Hr & Hp & Hn & Hpn & Hv & Hl & Hd & Hcc & Hcp & He) Hch name argv Hg'. assert (given program = true) as Hg by (by apply bool_decide_true).
  unfold wscript_build, build_begin. rewrite Hcc, Hcp, He. cbn [orb when given].
  rewrite (waf_bind_ok _ _ s s true) by reflexivity. cbn [when]. rewrite (waf_bind_ok _ _ s (with_bld s) ()) by reflexivity.
  rewrite (waf_bind_ok _ _ _ (with_bld s) ()) by reflexivity. rewrite (waf_bind_ok _ _ _ s1 ()) by done.
  unfold build_end. rewrite Hr, Hp, Hn, Hpn, Hd, Hg. cbn [given orb when]. set (s2 := Session (actions s1) (directory s1) (set_print true (s_env s1)) (targets s1) (bld_set s1)).
  do 4 rewrite (waf_bind_ok _ _ _ s2 ()) by reflexivity. exists (after_effect (StartedProgram program) s2). split; [|reflexivity].
  assert (forall (m : waf unit), (_ ← call (get_run_program program template); m) s2 = m s2) as E by (intros m; unfold mbind, waf_bind, call; by rewrite Hg').
  apply bind_end. rewrite E. by apply start_then_exit.
Qed.

Lemma shutdown_run program s : program <> [] -> only_run program [] -> bld_set s = true -> PRINT_BUILT_MODULES_AT_END (s_env s) = false ->
  exists s', shutdown opts wopts wenv platform cwd environ pymoddir pyvizdir all_task_gen launch_dir popen windows exit_status exists_ build_directory s =
    (s', ends_with_program (run_program program template None false)) /\
    actions s' = actions s ++ [Wrote (path_join build_directory (txt "build-status.py")) (build_status (b_programs (s_env s)) (b_scripts (s_env s)));
                               StartedProgram program].
Proof.
  intros Hne (Hr & Hp & Hn & Hpn & Hv & Hl & Hd & Hcc & Hcp & He) Hb Hpr. assert (given program = true) as Hg by (by apply bool_decide_true).
  unfold shutdown. rewrite Hb. cbn [negb]. rewrite (waf_bind_ok _ _ s s ()).
  2:{ unfold print_lists. rewrite (waf_bind_ok _ _ _ s (s_env s)) by reflexivity. by rewrite Hpr. }
  set (w := Wrote _ _). rewrite (waf_bind_ok _ _ s (after_effect w s) ()) by reflexivity. rewrite Hl. cbn [when]. rewrite (waf_bind_ok _ _ _ (after_effect w s) ()) by reflexivity.
  rewrite Hr, Hg. cbn [when]. exists (after_effect (StartedProgram program) (after_effect w s)). split; [|cbn; by rewrite <- app_assoc].
  by apply bind_end, start_then_exit.
Qed.

(** C39: [waf --run] builds the program that it names and nothing more, writes the status of
    the build and then starts the program once; a wrong name is an error before anything is
    built.  With [--run-no-build] the program is started once and nothing is built. *)
Theorem program_runs program s s1 : program <> [] -> choose (with_bld s) = (s1, Ok ()) ->
  (only_run program [] -> forall name argv s2, get_run_program program template = Ok (name, argv) ->
     compile (ready_session name s1) = (s2, Ok ()) -> bld_set s2 = true -> PRINT_BUILT_MODULES_AT_END (s_env s2) = false ->
     let '(s', r) := commands [Build (txt "build")] s in
     actions s' = actions s2 ++ [Wrote (path_join build_directory (txt "build-status.py")) (build_status (b_programs (s_env s2)) (b_scripts (s_env s2)));
                                 StartedProgram program] /\
     r = ends_with_program (run_program program template None false)) /\
  (only_run program [] -> forall e, get_run_program program template = Raise e ->
     let '(s', r) := commands [Build (txt "build")] s in actions s' = actions s1 /\ r = Raise e) /\
  (only_run [] program -> forall name argv, get_run_program program template = Ok (name, argv) ->
     let '(s', r) := commands [Build (txt "build")] s in
     actions s' = actions s1 ++ [StartedProgram program] /\ r = ends_with_program (run_program program template None false)).
Proof.
  intros Hne Hch. unfold run_commands. cbn [each_of run_command]. unfold execute_build. split; [|split].
  - intros Ho name argv s2 Hr Hc Hb Hp. pose proof (build_run program s s1 Hne Ho Hch) as E. rewrite Hr in E.
    destruct (shutdown_run program s2 Hne Ho Hb Hp) as (s' & E' & Ha).
    rewrite (waf_bind_ok _ _ s s2 ()); [by rewrite E'|]. rewrite (waf_bind_ok _ _ s s2 ()); [done|]. by rewrite (waf_bind_ok _ _ _ _ _ E).
  - intros Ho e Hr. pose proof (build_run program s s1 Hne Ho Hch) as E. rewrite Hr in E.
    rewrite (waf_bind_raise _ _ _ _ _ (waf_bind_raise _ _ _ _ _ (waf_bind_raise _ _ _ _ _ E))). done.
  - intros Ho name argv Hr. destruct (build_no_build program s s1 Hne Ho Hch name argv Hr) as (s2 & E & Ha).
    rewrite (bind_end _ _ _ _ _ (bind_end _ _ _ _ _ (bind_end _ _ _ _ _ E))). done.
Qed.

(** Whatever the processes return, the report of the coverage leaves the directory as it
    found it; and it only succeeds when all three do. *)
Theorem lcov_directory s : let '(s', r) := lcov_report cwd exit_status exists_ s in
  directory s' = directory s /\ s_env s' = s_env s /\
  (r = Ok () -> length (actions s') = (length (actions s) + 3)%nat) /\
  (GCOV_ENABLED (s_env s) = false -> s' = s /\ r = Raise WafError).
Proof.
  unfold lcov_report. rewrite (waf_bind_ok _ _ s s (s_env s)) by reflexivity.
  destruct (GCOV_ENABLED (s_env s)); cbn [negb]; [|done]. destruct (exists_ (txt "build")); cbn [negb]; [|done].
  rewrite (waf_bind_ok _ _ s (Session (actions s) (directory s ++ [txt "build"]) (s_env s) (targets s) (bld_set s)) ()) by reflexivity.
  unfold finally, must_run, wait_for, mbind, waf_bind, mret, waf_ret, fail. cbv beta iota zeta. cbn [actions directory s_env targets bld_set].
  assert (take (length (directory s ++ [txt "build"]) - 1) (directory s ++ [txt "build"]) = directory s) as Ht
    by (rewrite length_app; cbn [length]; by rewrite Nat.add_sub, take_app_length).
  repeat (case_decide; unfold chdir; cbn [actions directory s_env targets bld_set]); rewrite Ht; (split; [done|]); (split; [done|]); (split; [|done]); intros Hr; try discriminate Hr.
  rewrite !length_app. cbn. lia.
Qed.

(** A program that is started in the shell of [waf shell] finds the paths that this build
    would set: [check_shell] is content. *)
Theorem shell_consistent s : pathvar platform <> txt "NS3_MODULE_PATH" -> pathvar platform <> txt "NS3_EXECUTABLE_PATH" ->
  check_shell wenv (get_proc_env wenv platform environ pymoddir pyvizdir (Some (shell_env wenv))) s = (s, Ok ()).
Proof.
  intros H1 H2. unfold check_shell, get_proc_env.
  assert (forall key, pathvar platform <> key -> txt "PYTHONPATH" <> key -> txt "PATH" <> key ->
    prepend (txt "PATH") (NS3_EXECUTABLE_PATH wenv) (prepend (txt "PYTHONPATH") [pymoddir; pyvizdir]
      (prepend (pathvar platform) (NS3_MODULE_PATH wenv) (shell_env wenv ∪ environ))) !! key = (shell_env wenv ∪ environ) !! key) as E
    by (intros key ? ? ?; by rewrite !prepend_ne).
  rewrite !E by (done || vm_compute; discriminate).
  assert ((shell_env wenv ∪ environ) !! txt "NS3_MODULE_PATH" = Some (join pathsep (NS3_MODULE_PATH wenv))) as -> by (by apply lookup_union_Some_l).
  assert ((shell_env wenv ∪ environ) !! txt "NS3_EXECUTABLE_PATH" = Some (join pathsep (NS3_EXECUTABLE_PATH wenv))) as -> by (by apply lookup_union_Some_l).
  by rewrite decide_True.
Qed.
End main_facts.

(** *** Reading the status without [eval]

    A reader of lists of string literals, which shows that the hypothesis of
    [build_status_read] can hold. *)

Fixpoint read_string (q : ascii) (s : text) : option (text * text) :=
  match s with
  | [] => None
  | c :: s =>
      if decide (c = q) then Some ([], s)
      else if decide (c = "\"%char) then
        match s with c :: s => '(t, rest) ← read_string q s; Some (c :: t, rest) | [] => None end
      else '(t, rest) ← read_string q s; Some (c :: t, rest)
  end.
Fixpoint read_strings (n : nat) (s : text) : option (list text) :=
  match n, s with
  | S n, q :: s =>
      '(t, rest) ← read_string q s;
      match rest with
      | "]"%char :: _ => Some [t]
      | ","%char :: _ :: rest => ts ← read_strings n rest; Some (t :: ts)
      | _ => None
      end
  | _, _ => None
  end.
Definition literal_eval (s : text) : res py_value :=
  if decide (s = txt "[]") then Ok (PyList [])
  else match s with _ :: s => or_raise ValueError (PyList <$> read_strings (length s) s) | [] => Raise ValueError end.

Lemma read_escaped q s rest : read_string q ((s ≫= escape q) ++ q :: rest) = Some (s, rest) \/ q = "\"%char.
Proof.
  destruct (decide (q = "\"%char)) as [|Hq]; [by right|left]. induction s as [|c s IH]; cbn; [by rewrite decide_True|].
  unfold escape at 1. case_decide as Hc; cbn [app read_string].
  - rewrite decide_False, decide_True by done. by rewrite IH.
  - rewrite decide_False, decide_False by tauto. by rewrite IH.
Qed.
Lemma read_repr s rest : exists q s', py_repr s ++ rest = q :: s' /\ read_string q s' = Some (s, rest).
Proof.
  unfold py_repr. set (q := if decide _ then _ else _). assert (q <> "\"%char) as Hq by (unfold q; by case_decide).
  exists q, ((s ≫= escape q) ++ q :: rest). split; [cbn; by rewrite <- app_assoc|]. by destruct (read_escaped q s rest).
Qed.
Lemma read_join l n : l <> [] -> (length l <= n)%nat -> read_strings n (join_reprs l ++ txt "]") = Some l.
Proof.
  revert n. induction l as [|s l IH]; intros n Hl Hn; [done|]. destruct n as [|n]; [cbn in Hn; lia|]. cbn [join_reprs].
  destruct l as [|s' l].
  - destruct (read_repr s (txt "]")) as (q & t & E & R). rewrite E. cbn [read_strings]. by rewrite R.
  - destruct (read_repr s (txt ", " ++ join_reprs (s' :: l) ++ txt "]")) as (q & t & E & R). rewrite <- !app_assoc, E. cbn [read_strings]. rewrite R.
    cbn -[join_reprs read_strings]. rewrite IH; [done|done|cbn in Hn |- *; lia].
Qed.
Lemma literal_eval_repr l : literal_eval (list_repr l) = Ok (PyList l).
Proof.
  destruct l as [|s l]; [reflexivity|]. unfold literal_eval, list_repr. rewrite decide_False.
  - cbn [app txt list_ascii_of_string]. rewrite read_join; [done|done|].
    assert (length (s :: l) <= length (join_reprs (s :: l)))%nat; [|rewrite length_app; lia].
    generalize (s :: l). clear. induction l as [|s [|s' l] IH]; [done| |].
    + cbn. lia.
    + cbn [join_reprs length] in *. rewrite !length_app. cbn [length txt list_ascii_of_string] in *. lia.
  - intros H. apply (f_equal length) in H. rewrite !length_app in H. cbn in H.
    assert (0 < length (join_reprs (s :: l)))%nat; [|cbn in *; lia]. destruct l; cbn; [|rewrite !length_app]; cbn; lia.
Qed.

Lemma build_status_read_witness : let programs := [txt "build/ns3-dev-first-debug"; txt "o'clock"] in
  let fs := {[txt "s" := build_status programs [txt "first.py"]]} in
  get_list_from_file literal_eval fs (txt "s") programs_name = Ok (PyList programs) /\
  get_list_from_file literal_eval fs (txt "s") scripts_name = Ok (PyList [txt "first.py"]).
Proof.
  apply build_status_read.
  - intros l _. apply literal_eval_repr.
  - reflexivity.
  - repeat constructor; try not_in.
  - repeat constructor; try not_in.
Defined.

(** ** Examples *)

Definition demo_opts (program : text) : main_options := MainOptions program [] [] [] false false false false false false false [].
Definition demo_build_env : build_env := BuildEnv ([txt "ns3-core"], []) [] [] [txt "first"] [] false false [].
Definition demo_session : waf_session := Session [] [] demo_build_env [] false.
Definition demo_commands (program : text) (status : Z) : list waf_command -> waf unit :=
  run_commands (demo_opts program) (Woptions None false None (txt "/ns")) (Wenv [] [] [] [txt "python"]) (txt "linux") (txt "/ns") ∅ [] [] demo_gens (txt "/ns")
    (fun _ _ _ => Ok (status, [])) false (fun _ _ => 0%Z) (fun _ => true) [] [] (txt "build") (mret ()) (mret ()).

Lemma program_runs_witness :
  let '(s', r) := demo_commands (txt "first --n=1") 0 [Build (txt "build")] demo_session in
  actions s' = [PostedHeaders; Wrote (txt "build/build-status.py") (build_status [txt "first"] []); StartedProgram (txt "first --n=1")] /\
  r = Raise (SystemExit 0).
Proof.
  pose (s1 := with_bld demo_session).
  destruct (program_runs (demo_opts (txt "first --n=1")) (Woptions None false None (txt "/ns")) (Wenv [] [] [] [txt "python"]) (txt "linux") (txt "/ns") ∅ [] []
    demo_gens (txt "/ns") (fun _ _ _ => Ok (0%Z, [])) false (fun _ _ => 0%Z) (fun _ => true) [] [] (txt "build") (mret ()) (mret ())
    (txt "first --n=1") demo_session s1 ltac:(discriminate) eq_refl) as (H & _ & _).
  specialize (H ltac:(repeat split) (txt "first") [txt "/ns/build/first"; txt "--n=1"] (ready_session (txt "first") s1)
    ltac:(vm_compute; reflexivity) eq_refl eq_refl eq_refl).
  unfold demo_commands. destruct (run_commands _ _ _ _ _ _ _ _ _ _ _ _ _ _ _ _ _ _ _ _) as [s' r].
  destruct H as [-> ->]. split; [reflexivity|vm_compute; reflexivity].
Defined.

(** [waf check] starts [test.py] before the status of the build is written, which
    [test.py] reads. *)
Example check_before_status :
  let '(s', r) := demo_commands [] 0 [Check] demo_session in
  exists printed, actions s' = [StartedPython (txt "test.py -n -c core"); Printed printed; Wrote (txt "build/build-status.py") (build_status [txt "first"] [])].
Proof. eexists. vm_compute. reflexivity. Qed.

(** With an unknown program nothing is built and no status is written. *)
Example unknown_program :
  let '(s', r) := demo_commands (txt "frist") 0 [Build (txt "build")] demo_session in actions s' = [] /\ r = Raise WafError.
Proof. vm_compute. split; reflexivity. Qed.
