(* ===== verification/RegressTests.v ===== *)
(** * The tests of the build tools: [utils/tests/TestBase.py], [test-waf.py] and
    [test-test.py].

    [runtests] runs command lines one after the other; the two scripts put the command
    lines together.  The shell that runs them is a parameter, and so is the option parser. *)
From S2P Require Import Prelude PyString PyPath PyNum PyFloat.

(** [s.replace(old, new)], for a text [old] that is not empty; [skip] characters of the
    last occurrence are left. *)
Fixpoint replace_from (old new : text) (skip : nat) (s : text) : text :=
  match s with
  | [] => []
  | c :: s' =>
      match skip with
      | S k => replace_from old new k s'
      | O => if decide (old `prefix_of` s) then new ++ replace_from old new (length old - 1) s' else c :: replace_from old new 0 s'
      end
  end.
Definition remove_text (old s : text) : text := match old with [] => s | _ => replace_from old [] 0 s end.

(** ** [set_workdir] *)

(** [listdir] and [exists_] are those of the present directory; the result is whether the
    directory is changed to that of the repository. *)
Definition set_workdir (cwd : text) (listdir : list text) (exists_ : text -> bool) : res bool :=
  let dir_files := filter (fun f => exists_ f = true) listdir in
  if decide (txt "VERSION" ∉ dir_files /\ txt "waf" ∉ dir_files) then
    if decide (basename cwd = txt "tests" /\ basename (dirname cwd) = txt "utils") then Ok true else Raise (SystemExit 1)
  else Ok false.

(** ** [TestBaseClass.runtests] *)

Record test_options := TestOptions { out_file : text; only_list : bool; mute : bool; custcmd : option text }.
Record test_run := TestRun {
  progress : num; passed : Z; final_return : Z; failed_cases : list text; commands_run : list text; out : text; console : text }.

Section base.
(** [sys.executable]; the exit status of a command line, after others have been run, and
    what is written to the file (without standard output when the third argument holds). *)
Context (executable : text) (call : list text -> text -> bool -> Z * text).

Definition line (t : text) : text := t ++ [newline].
Definition print_case_in_file (case_string : text) : text :=
  line (replicate 100 "-"%char) ++ txt "running test case " ++ case_string ++ [newline; newline].
Definition progress_line (passed total_tests : Z) (percent : text) : text :=
  line (txt "[ " ++ show_Z passed ++ txt " out of " ++ show_Z total_tests ++ txt " ] test cases passed; Progress = " ++ percent ++ txt "% " ++ [newline]).

Definition run_case (opts : test_options) (total_tests : Z) (s : test_run) (cmd : text) : res test_run :=
  let case_string := remove_text executable cmd in
  p ← num_add (progress s) (PInt 1);
  let '(ret, output) := call (commands_run s) cmd (mute opts) in
  let ok := bool_decide (ret = 0%Z) in
  let passed' := if ok then (passed s + 1)%Z else passed s in
  hundred ← num_mul p (PInt 100); ratio ← num_div hundred (PInt total_tests); percent ← fmt 2 ratio;
  Ok (TestRun p passed' (if ok then final_return s else 1%Z) (failed_cases s ++ if ok then [] else [case_string])
        (commands_run s ++ [cmd]) (out s ++ print_case_in_file case_string ++ output)
        (console s ++ line (txt "running test case: " ++ case_string) ++ progress_line passed' total_tests percent)).

Definition print_failed_cases (failed : list text) : text := newline :: line (txt "Failed Cases:") ++ concat (line <$> failed).
Definition print_cmds (cmds : list text) : text := line (txt "Commands to be executed:") ++ concat ((line ∘ remove_text executable) <$> cmds).

(** The exit code, [None] when the commands are only listed; and what was done. *)
Definition runtests (opts : test_options) (cmds : list text) : res (option Z * test_run) :=
  let start := TestRun (PFloat (SpecFloat.S754_zero false)) 0 0 [] [] [] [] in
  if only_list opts then Ok (None, TestRun (progress start) 0 0 [] [] [] (print_cmds cmds))
  else
    s ← for_each (run_case opts (zlen cmds)) cmds start;
    Ok (Some (final_return s),
        TestRun (progress s) (passed s) (final_return s) (failed_cases s) (commands_run s) (out s)
          (console s ++ (if decide (final_return s = 0%Z) then newline :: line (txt "All cases passed") else print_failed_cases (failed_cases s)) ++
           line (txt "Detailed output available in " ++ out_file opts ++ [newline]))).
End base.

(** ** [test-waf.py] *)

Definition and_sep : text := txt " && ".
Definition replace (pre post : option text) (main_cmd_list : list text) : list text :=
  let pre := match pre with None | Some [] => [] | Some p => p ++ and_sep end in
  let post := match post with None | Some [] => [] | Some p => and_sep ++ p end in
  (fun main_cmd => pre ++ main_cmd ++ post) <$> main_cmd_list.

Definition texts (l : list string) : list text := txt <$> l.
Definition config_test_cases : list text := texts
  ["--enable-gcov"; "--enable-sudo"; "--enable-sudo"; "--enable-tests"; "--disable-tests"; "--enable-examples"; "--disable-examples";
   "--doxygen-no-build"; "--enable-static"; "--enable-mpi"; "--enable-rpath"; "--enable-modules=build/utils/test-runner.cc.1.o"; "--boost-static";
   "--boost-mt"; "--boost-linkage_autodetect"; "--boost-python=33"; "--disable-gtk"; "--int64x64=cairo"; "--disable-pthread";
   "--force-planetlab"; "--nopyc"; "--nopyo"; "--disable-python"; "--apiscan=all"; "--with-python=/usr/bin/python2.7";
   "-o test_out && rm -rf test_out"; "--out=test_out && rm -rf test_out"; "-t test_top && rm -rf test_top";
   "--top=test_top && rm -rf test_top"; "--download"; "--check-c-compiler=gc"; "--check-cxx-compiler=g++"]%string.
Definition basic_test_cases : list text := texts ["--version"; "-h"; "--help"]%string.
Definition build_test_cases : list text := texts
  ["-j10"; "--jobs=10"; "-d optimized"; "-d debug"; "-d release"; "--build-profile optimized"; "--build-profile debug";
   "--build-profile release"; "-p"; "--progress"]%string.
Definition double_quote : text := ["034"%char].
Definition step_test_cases : list text := [txt "--files=" ++ double_quote ++ txt "*/main.c,*/test/main.o" ++ double_quote].
Definition install_test_cases : list text := texts
  ["-f"; "--force"; "--prefix=./test-prefix && rm -rf ./test-prefix"; "--exec-prefix=.";
   "--bindir=./test-prefix/bin --sbindir=./test-prefix/sbin --libexecdir=./test-prefix/libexec --sysconfdir=./test-prefix/etc --sharedstatedir=./test-prefix/com --localstatedir=./test-prefix/var --libdir=./test-prefix/lib --includedir=./test-prefix/include --oldincludedir=./test-prefix/usr/include --datarootdir=./test-prefix/share --datadir=./test-prefix/share_root --infodir=./test-prefix/info --localedir=./test-prefix/locale --mandir=./test-prefix/man --docdir=./test-prefix/doc/package --htmldir=./test-prefix/doc --dvidir=./test-prefix/doc --pdfdir=./test-prefix/doc --psdir=./test-prefix/doc && rm -rf ./test-prefix"]%string.
Definition common_test_cases : list text := texts
  [""; "-k"; "--keep"; "-v"; "--verbose"; "--nocache"; "--zones=task_gen"; "--zones=deps"; "--zones=tasks"; "--no-task-lines"]%string.
Definition test_case_mappings : list (text * list text) :=
  [(txt "basic", basic_test_cases); (txt "configure", config_test_cases); (txt "build", build_test_cases); (txt "step", step_test_cases);
   (txt "install", install_test_cases)].
Definition default_cmds : list text := texts ["basic"; "build"; "configure"; "step"; "clean"; "dist"; "list"]%string.

Section waf.
Context (executable : text).
Definition waf_string : text := executable ++ txt " waf".
Definition waf_with (t : string) : option text := Some (waf_string ++ txt t).
Definition option_line (cmd option : text) : text := waf_string ++ [space] ++ cmd ++ [space] ++ option.

(** What is run before and after the command lines of a command. *)
Definition around (cmd : text) : option text * option text :=
  if decide (cmd = txt "build") then (waf_with " configure", waf_with " clean")
  else if decide (cmd = txt "configure") then (None, waf_with " distclean")
  else if decide (cmd = txt "distcheck") then (waf_with " dist", Some (txt "rm -rf ns-3*.tar.bz2"))
  else if decide (cmd = txt "docs") then (waf_with " configure", waf_with " distclean")
  else if decide (cmd = txt "install") then (waf_with " configure", waf_with " uninstall")
  else if decide (cmd = txt "list") then (waf_with " configure", waf_with " distclean")
  else if decide (cmd = txt "shell") then (waf_with " configure", waf_with " distclean")
  else if decide (cmd = txt "step") then (waf_with " configure", waf_with " distclean")
  else if decide (cmd = txt "uninstall") then (waf_with " install", None) else (None, None).
(** The command lines of one command. *)
Definition waf_cmds (cmd : text) : list text :=
  let cmd_list := (if decide (cmd = txt "basic") then [] else option_line cmd <$> common_test_cases) ++
    match snd <$> head (filter (fun p : text * list text => p.1 = cmd) test_case_mappings) with Some cases => option_line cmd <$> cases | None => [] end in
  let cmd_list := cmd_list ++ if decide (cmd = txt "basic") then
    [waf_string ++ txt " configure && " ++ waf_string ++ txt " build && " ++ waf_string ++ txt " --run scratch/myfirst";
     waf_string ++ txt " configure && " ++ waf_string ++ txt " build && " ++ waf_string ++ txt " --pyrun scratch/myfirst.py"] else [] in
  let cmd_list := replace (around cmd).1 (around cmd).2 cmd_list in
  cmd_list ++ if decide (cmd = txt "build") then
    [waf_string ++ txt " configure --enable-gcov && " ++ waf_string ++ txt " build --lcov-report && " ++ waf_string ++ txt " clean"] else [].
Definition waf_cmd_list (in_cmds : option text) : list text :=
  let cmds := match in_cmds with None | Some [] => default_cmds | Some t => split_on ","%char t end in
  cmds ≫= waf_cmds.

(** ** [test-test.py] *)

(** A comma is missing after [--fullness=EXTENSIVE], so that [-g] belongs to it. *)
Definition test_test_cases : list text := texts
  [""; "-h"; "--help"; "-b build/"; "--buildpath=build/"; "-c performance"; "--constrain=performance"; "-d"; "--duration";
   "-e socket-options-ipv6"; "--example=socket-options-ipv6"; "-u"; "--update-data";
   "-f EXTENSIVE --fullness=EXTENSIVE-g"; "--grind"; "-l"; "--list"; "-m"; "--multiple"; "-n"; "--nowaf"; "-p first"; "--pyexample=first";
   "-r"; "--retain"; "-s ns3-tcp-interoperability"; "--suite=ns3-tcp-interoperability"; "-t t_opt.txt";
   "--text=t_opt.txt && rm -rf t_opt.txt"; "-v"; "--verbose"; "-w t_opt.html && rm -rf t_opt.html"; "--web=t_opt.html && rm -rf t_opt.html";
   "--html=t_opt.html && rm -rf t_opt.html"; "-x t_opt.xml && rm -rf t_opt.xml"; "--xml=t_opt.xml && rm -rf t_opt.xml"]%string.
(** [option] of [test.py] in a fresh configuration. *)
Definition test_line (option : text) : text :=
  executable ++ txt " waf configure --enable-tests --enable-examples && " ++ executable ++ txt " test.py " ++ option ++ and_sep ++
  executable ++ txt " waf clean".
End waf.

(** ** Facts *)

Section base_facts.
Context (executable : text) (call : list text -> text -> bool -> Z * text).
Implicit Types (opts : test_options).

(** The exit status of each command line. *)
Definition statuses opts (cmds : list text) : list (text * Z) :=
  imap (fun i cmd => (cmd, (call (take i cmds) cmd (mute opts)).1)) cmds.
Definition passes (p : text * Z) : bool := bool_decide (p.2 = 0%Z).

Lemma statuses_snoc opts cmds cmd : statuses opts (cmds ++ [cmd]) = statuses opts cmds ++ [(cmd, (call cmds cmd (mute opts)).1)].
Proof.
  unfold statuses. rewrite imap_app. cbn. rewrite Nat.add_0_r, take_app_length. f_equal.
  apply imap_ext. intros i x Hx. rewrite take_app_le; [done|]. apply lookup_lt_Some in Hx. lia.
Qed.

(** What is true after the command lines [pre]. *)
Record tests_inv opts (pre : list text) (s : test_run) : Prop := {
  ri_progress : exists f, progress s = PFloat f;
  ri_commands : commands_run s = pre;
  ri_passed : passed s = Z.of_nat (length (filter (fun p => passes p = true) (statuses opts pre)));
  ri_failed : failed_cases s = remove_text executable ∘ fst <$> filter (fun p => passes p = false) (statuses opts pre);
  ri_final : final_return s = if decide (failed_cases s = []) then 0%Z else 1%Z }.

(** A number of commands that is not too large for a float. *)
Definition countable (n : Z) : Prop := exists f, float_of_Z n = Ok f /\ forall b, f <> SpecFloat.S754_zero b.

Lemma run_case_inv opts total pre cmd s : countable total -> tests_inv opts pre s ->
  exists s', run_case executable call opts total s cmd = Ok s' /\ tests_inv opts (pre ++ [cmd]) s'.
Proof.
  intros (t & Ht & Hz) [[f Hf] Hc Hp Hfl Hr]. unfold run_case. rewrite Hf, Hc. destruct (call pre cmd (mute opts)) as [ret output] eqn:Ecall.
  assert (exists p, num_add (PFloat f) (PInt 1) = Ok (PFloat p)) as [p ->] by (eexists; reflexivity). cbn [mbind result_bind].
  assert (exists h, num_mul (PFloat p) (PInt 100) = Ok (PFloat h)) as [h ->] by (eexists; reflexivity). cbn [mbind result_bind].
  assert (exists r, num_div (PFloat h) (PInt total) = Ok (PFloat r)) as [r ->].
  { unfold num_div, arith. cbn [to_float]. rewrite Ht. cbn [mbind result_bind]. destruct t; [by destruct (Hz s0)|by eexists..]. }
  cbn [mbind result_bind fmt to_float]. eexists. split; [reflexivity|].
  pose proof (statuses_snoc opts pre cmd) as Es. rewrite Ecall in Es. cbn [fst] in Es.
  split; cbn [progress commands_run passed failed_cases final_return]; [by eexists|done| | |].
  - rewrite Es, filter_app, length_app, Hp, filter_cons, filter_nil. change (passes (cmd, ret)) with (bool_decide (ret = 0%Z)). destruct (bool_decide (ret = 0%Z)); [rewrite decide_True by done|rewrite decide_False by done]; cbn [length]; lia.
  - rewrite Es, filter_app, fmap_app, Hfl, filter_cons, filter_nil. change (passes (cmd, ret)) with (bool_decide (ret = 0%Z)).
    destruct (bool_decide (ret = 0%Z)); [by rewrite decide_False by done|by rewrite decide_True by done].
  - rewrite Hr. destruct (bool_decide (ret = 0%Z)); [by rewrite app_nil_r|]. rewrite decide_False; [done|]. by destruct (failed_cases s).
Qed.

(** [runtests] runs every command line once, in order, whatever their exit statuses; it
    counts those that return 0, lists the others, and itself returns 0 exactly when
    all do. *)
Theorem runtests_spec opts cmds : only_list opts = false -> countable (zlen cmds) \/ cmds = [] ->
  exists code s, runtests executable call opts cmds = Ok (Some code, s) /\ commands_run s = cmds /\
    passed s = Z.of_nat (length (filter (fun p => passes p = true) (statuses opts cmds))) /\
    failed_cases s = remove_text executable ∘ fst <$> filter (fun p => passes p = false) (statuses opts cmds) /\
    (code = 0%Z <-> Forall (fun p => p.2 = 0%Z) (statuses opts cmds)).
Proof.
  intros Ho Hn. unfold runtests. rewrite Ho. set (start := TestRun _ _ _ _ _ _ _).
  destruct (for_each_inv (run_case executable call opts (zlen cmds)) (fun pre post s => pre ++ post = cmds /\ tests_inv opts pre s)) with (l := cmds) (s := start)
    as (s & E & _ & [_ Hc Hp Hf Hr]).
  - intros pre x post s [Hpre Hs]. destruct Hn as [Hn| ->]; [|by destruct pre].
    destruct (run_case_inv opts (zlen cmds) pre x s Hn Hs) as (s' & Es' & Hs'). exists s'. split; [done|]. rewrite <- app_assoc. by split.
  - split; [done|]. split; try done. by eexists.
  - rewrite E. cbn [mbind result_bind]. do 2 eexists. split; [reflexivity|]. cbn [commands_run passed failed_cases]. split; [done|]. split; [done|]. split; [done|].
    rewrite Hr, Hf. clear. induction (statuses opts cmds) as [|[c z] l IH]; [by rewrite decide_True by done|].
    rewrite filter_cons, Forall_cons. change (passes (c, z)) with (bool_decide (z = 0%Z)). destruct (bool_decide_reflect (z = 0%Z)) as [->|Hz].
    + rewrite (decide_False (P := true = false)) by done. rewrite IH. naive_solver.
    + rewrite (decide_True (P := false = false)) by done. cbn. split; [done|tauto].
Qed.
End base_facts.

(** With [-c] nothing is run, and the exit code is that of [None]. *)
Lemma runtests_list executable call opts cmds : only_list opts = true ->
  exists s, runtests executable call opts cmds = Ok (None, s) /\ commands_run s = [].
Proof. intros H. unfold runtests. rewrite H. by eexists. Qed.

Lemma runtests_spec_witness :
  let call (before : list text) (cmd : text) (mute : bool) := (if decide (cmd = txt "false") then 1%Z else 0%Z, [] : text) in
  exists code s, runtests (txt "python") call (TestOptions (txt "o") false false None) [txt "true"; txt "false"; txt "python waf"] = Ok (Some code, s) /\
    passed s = 2%Z /\ failed_cases s = [txt "false"] /\ code <> 0%Z.
Proof.
  intros call.
  destruct (runtests_spec (txt "python") call (TestOptions (txt "o") false false None) [txt "true"; txt "false"; txt "python waf"] eq_refl)
    as (code & s & H1 & _ & H2 & H3 & H4).
  - left. eexists. split; [vm_compute; reflexivity|discriminate].
  - exists code, s. split; [exact H1|]. split; [rewrite H2; vm_compute; reflexivity|]. split; [rewrite H3; vm_compute; reflexivity|].
    intros H. apply H4 in H. apply Forall_cons in H as [_ H]. apply Forall_cons in H as [H _]. discriminate H.
Defined.

(** *** The command lines *)

(** Every command line of [test-waf.py] is framed by what its command needs before and
    after, except the one for the report of the coverage, which frames itself. *)
Theorem waf_cmds_framed executable cmd l : l ∈ waf_cmds executable cmd ->
  (exists option, l = (match (around executable cmd).1 with Some p => p ++ and_sep | None => [] end) ++ option ++
                      (match (around executable cmd).2 with Some p => and_sep ++ p | None => [] end)) \/
  l = waf_string executable ++ txt " configure --enable-gcov && " ++ waf_string executable ++ txt " build --lcov-report && " ++ waf_string executable ++ txt " clean".
Proof.
  unfold waf_cmds. rewrite elem_of_app. intros [H|H]; [left|right; case_decide; [by apply list_elem_of_singleton in H|by apply not_elem_of_nil in H]].
  unfold replace in H. apply list_elem_of_fmap in H as (m & -> & _). exists m. 
  assert (forall o, (around executable cmd).1 = Some o -> o <> []) as H1.
  { intros o. unfold around, waf_with, waf_string. repeat case_decide; intros [= <-]; try done; by destruct executable. }
  assert (forall o, (around executable cmd).2 = Some o -> o <> []) as H2.
  { intros o. unfold around, waf_with, waf_string. repeat case_decide; intros [= <-]; try done; by destruct executable. }
  destruct (around executable cmd) as [[[|]|] [[|]|]]; cbn in *; try done; naive_solver.
Qed.

Example missing_comma : txt "-f EXTENSIVE --fullness=EXTENSIVE-g" ∈ test_test_cases /\ txt "-g" ∉ test_test_cases.
Proof. split; apply (bool_decide_unpack _); vm_compute; exact I. Qed.
