(* ===== verification/CreateModule.v ===== *)
(** * [src/create-module.py]: the skeleton of a new module.

    Templates are lists of lines, with [^] for the double quote.  The program
    works on a file system of directories and files. *)
From S2P Require Import Prelude PyString PyPath.

(** ** The templates *)

Definition quotes (c : ascii) : ascii := if decide (c = "^"%char) then "034"%char else c.
Definition unlines (l : list string) : text := concat ((fun s => (quotes <$> txt s) ++ [newline]) <$> l).

Definition WSCRIPT_TEMPLATE : text := unlines [
  "# -*- Mode: python; py-indent-offset: 4; indent-tabs-mode: nil; coding: utf-8; -*-";
  "";
  "# def options(opt):";
  "#     pass";
  "";
  "# def configure(conf):";
  "#     conf.check_nonfatal(header_name='stdint.h', define_name='HAVE_STDINT_H')";
  "";
  "def build(bld):";
  "    module = bld.create_ns3_module(%(MODULE)r, ['core'])";
  "    module.source = [";
  "        'model/%(MODULE)s.cc',";
  "        'helper/%(MODULE)s-helper.cc',";
  "        ]";
  "";
  "    module_test = bld.create_ns3_module_test_library('%(MODULE)s')";
  "    module_test.source = [";
  "        'test/%(MODULE)s-test-suite.cc',";
  "        ]";
  "";
  "    headers = bld(features='ns3header')";
  "    headers.module = %(MODULE)r";
  "    headers.source = [";
  "        'model/%(MODULE)s.h',";
  "        'helper/%(MODULE)s-helper.h',";
  "        ]";
  "";
  "    if bld.env.ENABLE_EXAMPLES:";
  "        bld.recurse('examples')";
  "";
  "    # bld.ns3_python_bindings()";
  ""
  ].

Definition MODEL_CC_TEMPLATE : text := unlines [
  "/* -*- Mode:C++; c-file-style:^gnu^; indent-tabs-mode:nil; -*- */";
  "";
  "#include ^%(MODULE)s.h^";
  "";
  "namespace ns3 {";
  "";
  "/* ... */";
  "";
  "";
  "}";
  ""
  ].

Definition MODEL_H_TEMPLATE : text := unlines [
  "/* -*- Mode:C++; c-file-style:^gnu^; indent-tabs-mode:nil; -*- */";
  "#ifndef %(INCLUDE_GUARD)s";
  "#define %(INCLUDE_GUARD)s";
  "";
  "namespace ns3 {";
  "";
  "/* ... */";
  "";
  "}";
  "";
  "#endif /* %(INCLUDE_GUARD)s */";
  ""
  ].

Definition HELPER_CC_TEMPLATE : text := unlines [
  "/* -*- Mode:C++; c-file-style:^gnu^; indent-tabs-mode:nil; -*- */";
  "";
  "#include ^%(MODULE)s-helper.h^";
  "";
  "namespace ns3 {";
  "";
  "/* ... */";
  "";
  "";
  "}";
  ""
  ].

Definition HELPER_H_TEMPLATE : text := unlines [
  "/* -*- Mode:C++; c-file-style:^gnu^; indent-tabs-mode:nil; -*- */";
  "#ifndef %(INCLUDE_GUARD)s";
  "#define %(INCLUDE_GUARD)s";
  "";
  "#include ^ns3/%(MODULE)s.h^";
  "";
  "namespace ns3 {";
  "";
  "/* ... */";
  "";
  "}";
  "";
  "#endif /* %(INCLUDE_GUARD)s */";
  ""
  ].

Definition EXAMPLES_WSCRIPT_TEMPLATE : text := unlines [
  "# -*- Mode: python; py-indent-offset: 4; indent-tabs-mode: nil; coding: utf-8; -*-";
  "";
  "def build(bld):";
  "    obj = bld.create_ns3_program('%(MODULE)s-example', [%(MODULE)r])";
  "    obj.source = '%(MODULE)s-example.cc'";
  ""
  ].

Definition EXAMPLE_CC_TEMPLATE : text := unlines [
  "/* -*- Mode:C++; c-file-style:^gnu^; indent-tabs-mode:nil; -*- */";
  "";
  "#include ^ns3/core-module.h^";
  "#include ^ns3/%(MODULE)s-helper.h^";
  "";
  "using namespace ns3;";
  "";
  "";
  "int ";
  "main (int argc, char *argv[])";
  "{";
  "  bool verbose = true;";
  "";
  "  CommandLine cmd;";
  "  cmd.AddValue (^verbose^, ^Tell application to log if true^, verbose);";
  "";
  "  cmd.Parse (argc,argv);";
  "";
  "  /* ... */";
  "";
  "  Simulator::Run ();";
  "  Simulator::Destroy ();";
  "  return 0;";
  "}";
  "";
  ""
  ].

Definition TEST_CC_TEMPLATE : text := unlines [
  "/* -*- Mode:C++; c-file-style:^gnu^; indent-tabs-mode:nil; -*- */";
  "";
  "// Include a header file from your module to test.";
  "#include ^ns3/%(MODULE)s.h^";
  "";
  "// An essential include is test.h";
  "#include ^ns3/test.h^";
  "";
  "// Do not put your test classes in namespace ns3.  You may find it useful";
  "// to use the using directive to access the ns3 namespace directly";
  "using namespace ns3;";
  "";
  "// This is an example TestCase.";
  "class %(CAPITALIZED)sTestCase1 : public TestCase";
  "{";
  "public:";
  "  %(CAPITALIZED)sTestCase1 ();";
  "  virtual ~%(CAPITALIZED)sTestCase1 ();";
  "";
  "private:";
  "  virtual void DoRun (void);";
  "};";
  "";
  "// Add some help text to this case to describe what it is intended to test";
  "%(CAPITALIZED)sTestCase1::%(CAPITALIZED)sTestCase1 ()";
  "  : TestCase (^%(CAPITALIZED)s test case (does nothing)^)";
  "{";
  "}";
  "";
  "// This destructor does nothing but we include it as a reminder that";
  "// the test case should clean up after itself";
  "%(CAPITALIZED)sTestCase1::~%(CAPITALIZED)sTestCase1 ()";
  "{";
  "}";
  "";
  "//";
  "// This method is the pure virtual method from class TestCase that every";
  "// TestCase must implement";
  "//";
  "void";
  "%(CAPITALIZED)sTestCase1::DoRun (void)";
  "{";
  "  // A wide variety of test macros are available in src/core/test.h";
  "  NS_TEST_ASSERT_MSG_EQ (true, true, ^true doesn't equal true for some reason^);";
  "  // Use this one for floating point comparisons";
  "  NS_TEST_ASSERT_MSG_EQ_TOL (0.01, 0.01, 0.001, ^Numbers are not equal within tolerance^);";
  "}";
  "";
  "// The TestSuite class names the TestSuite, identifies what type of TestSuite,";
  "// and enables the TestCases to be run.  Typically, only the constructor for";
  "// this class must be defined";
  "//";
  "class %(CAPITALIZED)sTestSuite : public TestSuite";
  "{";
  "public:";
  "  %(CAPITALIZED)sTestSuite ();";
  "};";
  "";
  "%(CAPITALIZED)sTestSuite::%(CAPITALIZED)sTestSuite ()";
  "  : TestSuite (^%(MODULE)s^, UNIT)";
  "{";
  "  // TestDuration for TestCase can be QUICK, EXTENSIVE or TAKES_FOREVER";
  "  AddTestCase (new %(CAPITALIZED)sTestCase1, TestCase::QUICK);";
  "}";
  "";
  "// Do not forget to allocate an instance of this TestSuite";
  "static %(CAPITALIZED)sTestSuite %(COMPOUND)sTestSuite;";
  ""
  ].

Definition DOC_RST_TEMPLATE : text := unlines [
  "Example Module Documentation";
  "----------------------------";
  "";
  ".. include:: replace.txt";
  ".. highlight:: cpp";
  "";
  ".. heading hierarchy:";
  "   ------------- Chapter";
  "   ************* Section (#.#)";
  "   ============= Subsection (#.#.#)";
  "   ############# Paragraph (no number)";
  "";
  "This is a suggested outline for adding new module documentation to |ns3|.";
  "See ``src/click/doc/click.rst`` for an example.";
  "";
  "The introductory paragraph is for describing what this code is trying to";
  "model.";
  "";
  "For consistency (italicized formatting), please use |ns3| to refer to";
  "ns-3 in the documentation (and likewise, |ns2| for ns-2).  These macros";
  "are defined in the file ``replace.txt``.";
  "";
  "Model Description";
  "*****************";
  "";
  "The source code for the new module lives in the directory ``src/%(MODULE)s``.";
  "";
  "Add here a basic description of what is being modeled.";
  "";
  "Design";
  "======";
  "";
  "Briefly describe the software design of the model and how it fits into ";
  "the existing ns-3 architecture. ";
  "";
  "Scope and Limitations";
  "=====================";
  "";
  "What can the model do?  What can it not do?  Please use this section to";
  "describe the scope and limitations of the model.";
  "";
  "References";
  "==========";
  "";
  "Add academic citations here, such as if you published a paper on this";
  "model, or if readers should read a particular specification or other work.";
  "";
  "Usage";
  "*****";
  "";
  "This section is principally concerned with the usage of your model, using";
  "the public API.  Focus first on most common usage patterns, then go";
  "into more advanced topics.";
  "";
  "Building New Module";
  "===================";
  "";
  "Include this subsection only if there are special build instructions or";
  "platform limitations.";
  "";
  "Helpers";
  "=======";
  "";
  "What helper API will users typically use?  Describe it here.";
  "";
  "Attributes";
  "==========";
  "";
  "What classes hold attributes, and what are the key ones worth mentioning?";
  "";
  "Output";
  "======";
  "";
  "What kind of data does the model generate?  What are the key trace";
  "sources?   What kind of logging output can be enabled?";
  "";
  "Advanced Usage";
  "==============";
  "";
  "Go into further details (such as using the API outside of the helpers)";
  "in additional sections, as needed.";
  "";
  "Examples";
  "========";
  "";
  "What examples using this new code are available?  Describe them here.";
  "";
  "Troubleshooting";
  "===============";
  "";
  "Add any tips for avoiding pitfalls, etc.";
  "";
  "Validation";
  "**********";
  "";
  "Describe how the model has been tested/validated.  What tests run in the";
  "test suite?  How much API and code is covered by the tests?  Again, ";
  "references to outside published work may help here."
  ].

(** ** Formatting with a dictionary *)

(** Plain text, after a percent sign, in a key, after it. *)
Inductive format_state := Plain | Percent | Key (k : text) | Conversion (v : text).

(** [template % dict]: the conversions [s] and [r] of named values. *)
Fixpoint format_from (values : text -> option text) (st : format_state) (template : text) : res text :=
  match template with
  | [] => match st with Plain => Ok [] | _ => Raise ValueError end
  | c :: template =>
      match st with
      | Plain =>
          if decide (c = "%"%char) then format_from values Percent template
          else r ← format_from values Plain template; Ok (c :: r)
      | Percent =>
          if decide (c = "%"%char) then r ← format_from values Plain template; Ok (c :: r)
          else if decide (c = "("%char) then format_from values (Key []) template
          else Raise TypeError
      | Key k =>
          if decide (c = ")"%char) then
            v ← or_raise KeyError (values k); format_from values (Conversion v) template
          else format_from values (Key (k ++ [c])) template
      | Conversion v =>
          if decide (c = "s"%char) then r ← format_from values Plain template; Ok (v ++ r)
          else if decide (c = "r"%char) then r ← format_from values Plain template; Ok (py_repr v ++ r)
          else Raise ValueError
      end
  end.
Definition format (template : text) (values : list (text * text)) : res text :=
  format_from (fun k => snd <$> head (filter (fun kv => kv.1 = k) values)) Plain template.

(** ** The program *)

Definition is_alpha (c : ascii) : bool :=
  let n := nat_of_ascii c in ((65 <=? n) && (n <=? 90) || (97 <=? n) && (n <=? 122))%nat.
Definition isalnum (s : text) : bool := bool_decide (s <> []) && forallb (fun c => is_alpha c || is_digit c) s.

Definition replace_char (a b : ascii) (s : text) : text := (fun c => if decide (c = a) then b else c) <$> s.

Definition MODULE (modname : text) : text * text := (txt "MODULE", modname).
(** The name in capitals, with underscores. *)
Definition guard (modname suffix : text) : text * text :=
  (txt "INCLUDE_GUARD", upper (replace_char "-"%char "_"%char modname) ++ suffix).
Definition words (modname : text) : list text := split_on "-"%char modname.

(** What is asked of the file system. *)
Inductive fs_op := Mkdir (dir : text) | Write (path contents : text).

(** A directory of the module with its files: name, template and values. *)
Definition make_files (dir : text) (files : list (text * text * list (text * text))) : res (list fs_op) :=
  mapM (fun f : text * text * list (text * text) =>
    let '(name, template, values) := f in c ← format template values; Ok (Write (path_join dir name) c)) files.

Definition create_module (moduledir modname : text) : res (list fs_op) :=
  let M := MODULE modname in
  let sub name := path_join moduledir (txt name) in
  top ← make_files moduledir [(txt "wscript", WSCRIPT_TEMPLATE, [M])];
  model ← make_files (sub "model")
    [(modname ++ txt ".cc", MODEL_CC_TEMPLATE, [M]);
     (modname ++ txt ".h", MODEL_H_TEMPLATE, [M; guard modname (txt "_H")])];
  test ← make_files (sub "test")
    [(modname ++ txt "-test-suite.cc", TEST_CC_TEMPLATE,
      [M; (txt "CAPITALIZED", concat (capitalize <$> words modname));
       (txt "COMPOUND", default [] (head (words modname)) ++ concat (capitalize <$> tail (words modname)))])];
  helper ← make_files (sub "helper")
    [(modname ++ txt "-helper.cc", HELPER_CC_TEMPLATE, [M]);
     (modname ++ txt "-helper.h", HELPER_H_TEMPLATE, [M; guard modname (txt "_HELPER_H")])];
  examples ← make_files (sub "examples")
    [(txt "wscript", EXAMPLES_WSCRIPT_TEMPLATE, [M]);
     (modname ++ txt "-example.cc", EXAMPLE_CC_TEMPLATE, [M])];
  doc ← make_files (sub "doc") [(modname ++ txt ".rst", DOC_RST_TEMPLATE, [M])];
  Ok ([Mkdir moduledir] ++ top ++ [Mkdir (sub "model")] ++ model ++ [Mkdir (sub "test")] ++ test ++
      [Mkdir (sub "helper")] ++ helper ++ [Mkdir (sub "examples")] ++ examples ++ [Mkdir (sub "doc")] ++ doc).

(** [main] of the script [file]; [exists_] is [os.path.exists]. *)
Definition create_module_main (file : text) (exists_ : text -> bool) (args : list text) : res (Z * list fs_op) :=
  match args with
  | [arg] =>
      let modname := lower arg in
      if negb (forallb isalnum (words modname)) then Ok (2%Z, [])
      else
        _ ← py_assert (bool_decide ("/"%char ∉ modname));
        let moduledir := path_join (dirname file) modname in
        if exists_ moduledir then Ok (2%Z, [])
        else ops ← create_module moduledir modname; Ok (0%Z, ops)
  | _ => Ok (1%Z, [])
  end.

(** ** Facts *)

(** Every file is written in a directory that has been made before. *)
Fixpoint placed (made : list text) (ops : list fs_op) : Prop :=
  match ops with
  | [] => True
  | Mkdir d :: ops => placed (d :: made) ops
  | Write p _ :: ops => (exists d name, d ∈ made /\ p = path_join d name) /\ placed made ops
  end.

Definition formats (f : text * text * list (text * text)) : bool := is_ok (format f.1.2 f.2).

Lemma make_files_ok dir files : forallb formats files = true ->
  exists ops, make_files dir files = Ok ops /\ length ops = length files /\
    Forall (fun o => exists name c, o = Write (path_join dir name) c) ops.
Proof.
  induction files as [|[[name template] values] files IH]; intros H; [by exists []|].
  cbn [forallb] in H. apply andb_true_iff in H as [Hf H]. destruct (IH H) as (ops & Hops & Hlen & Hall).
  unfold formats in Hf. cbn [fst snd] in Hf. destruct (format template values) as [c| |] eqn:Hc; [|done..].
  exists (Write (path_join dir name) c :: ops). unfold make_files in *. cbn [mapM]. rewrite Hc. cbn.
  rewrite Hops. split; [done|]. split; [by rewrite Hlen|]. constructor; [by exists name, c|done].
Qed.

Lemma placed_app made ops1 ops2 dir : dir ∈ made -> Forall (fun o => exists name c, o = Write (path_join dir name) c) ops1 ->
  placed made ops2 -> placed made (ops1 ++ ops2).
Proof.
  intros Hd H1 H2. induction H1 as [|o ops1 (name & c & ->) _ IH]; [done|]. cbn. split; [by exists dir, name|done].
Qed.

Lemma omap_writes dir ops : Forall (fun o => exists name c, o = Write (path_join dir name) c) ops ->
  omap (fun o => match o with Mkdir d => Some d | Write _ _ => None end) ops = [].
Proof. induction 1 as [|o ops (name & c & ->) _ IH]; [done|exact IH]. Qed.

(** For any name the program asks for a directory for the module and five
    in it, and for nine files, each in a directory made before; no template has an
    unknown key, so it never raises. *)
Theorem create_module_spec moduledir modname :
  exists ops, create_module moduledir modname = Ok ops /\ placed [] ops /\
    omap (fun o => match o with Mkdir d => Some d | Write _ _ => None end) ops =
      moduledir :: (path_join moduledir <$> [txt "model"; txt "test"; txt "helper"; txt "examples"; txt "doc"]) /\
    length ops = 15%nat.
Proof.
  unfold create_module.
  do 6 match goal with
  | |- context [make_files ?dir ?files] =>
      let ops := fresh "ops" in let H := fresh "H" in let Hlen := fresh "Hlen" in let Hall := fresh "Hall" in
      destruct (make_files_ok dir files) as (ops & H & Hlen & Hall); [vm_compute; reflexivity|];
      rewrite H; clear H; cbn [mbind result_bind length] in *
  end.
  eexists. split; [reflexivity|]. split; [|split].
  - repeat first
      [ eapply placed_app; [|eassumption|]; [rewrite !elem_of_cons; tauto|]
      | progress cbn [app placed] ].
    match goal with |- placed _ ?ops => rewrite <- (app_nil_r ops) end.
    eapply placed_app; [|eassumption|done]. rewrite !elem_of_cons; tauto.
  - rewrite !omap_app. repeat match goal with H : Forall _ ?ops |- context [omap _ ?ops] => rewrite (omap_writes _ ops H); clear H end. done.
  - rewrite !length_app. cbn [length]. lia.
Qed.

(** *** The include guard *)

Definition guard_char (c : ascii) : bool :=
  let n := nat_of_ascii c in ((65 <=? n) && (n <=? 90))%nat || is_digit c || bool_decide (c = "_"%char).

(** It is made of capitals, digits and underscores. *)
Lemma guard_chars modname suffix : Forall (fun w => isalnum w = true) (words modname) ->
  Forall (fun c => guard_char c = true) suffix -> Forall (fun c => guard_char c = true) (guard modname suffix).2.
Proof.
  intros Hw Hs. unfold guard. cbn [snd]. apply Forall_app. split; [|done].
  unfold upper, replace_char. rewrite !Forall_fmap. apply Forall_forall. intros c Hc. cbn.
  assert (c = "-"%char \/ is_alpha c || is_digit c = true) as Hok.
  { destruct (split_on_cover "-"%char modname c Hc) as [?|(w & Hin & Hcw)]; [by left|right].
    pose proof (proj1 (Forall_forall _ _) Hw w Hin) as Hal. apply andb_true_iff in Hal as [_ Hal].
    by apply (proj1 (forallb_forall _ _) Hal), list_elem_of_In. }
  clear -Hok. destruct Hok as [->|Ha]; [done|].
  destruct c as [[] [] [] [] [] [] [] []]; vm_compute in Ha; first [discriminate Ha|vm_compute; reflexivity].
Qed.

(** A name that starts with a digit is accepted, but its guard is no C identifier. *)
Example guard_digit : forallb isalnum (words (txt "3d")) = true /\ guard (txt "3d") (txt "_H") = (txt "INCLUDE_GUARD", txt "3D_H").
Proof. by vm_compute. Qed.
