(* ===== verification/Timeline.v ===== *)
(** * The data of [utils/grid.py].

    Ranges and events on named timelines, the binary searches over them,
    [Timeline] and [Timelines], the colours, and the parser of the input file
    ([read_data]).  Times in the data are integers; the times that are searched
    for come from the renderer and are any Python numbers. *)
From S2P Require Import Prelude PyNum PyString PyDict.
#[local] Open Scope Z_scope.

(** ** Ranges and events *)

Record data_range := DataRange { dr_start : Z; dr_end : Z; dr_value : text }.

(** [EventString] and [EventInt] share their fields; [EventFloat] is never used. *)
Inductive event_value := EvStr (s : text) | EvInt (n : Z).
Record event := Event { ev_at : Z; ev_value : event_value }.

Definition ranges_cmp (a b : data_range) : Z :=
  let diff := dr_start a - dr_start b in
  if diff <? 0 then -1 else if 0 <? diff then 1 else 0.
Definition events_cmp (a b : event) : Z :=
  let diff := ev_at a - ev_at b in
  if diff <? 0 then -1 else if 0 <? diff then 1 else 0.

(** *** [TimelineDataRange] *)

Record timeline_data_range := TimelineDataRange {
  tdr_name : text; tdr_ranges : list data_range }.

(** One round of [__search]: [inr] is what the method returns. *)
Definition range_search_step (ranges : list data_range) (key : num) (s : Z * Z) :
    res (Z * Z + Z) :=
  let '(l, u) := s in
  if l <=? u then
    let i := (l + u) / 2 in
    r ← py_get ranges i;
    if (num_geb key (dr_start r) && num_leb key (dr_end r))%bool then Ok (inr i)
    else if num_ltb key (dr_start r) then Ok (inl (l, i - 1))
    else Ok (inl (i + 1, u))
  else Ok (inr (-1)).

Definition range_search (t : timeline_data_range) (key : num) : res Z :=
  loop (S (length (tdr_ranges t))) (range_search_step (tdr_ranges t) key)
    (0, zlen (tdr_ranges t) - 1).

Definition add_range (t : timeline_data_range) (r : data_range) : timeline_data_range :=
  TimelineDataRange (tdr_name t) (tdr_ranges t ++ [r]).
Definition get_all (t : timeline_data_range) : list data_range := tdr_ranges t.

Definition get_ranges (t : timeline_data_range) (start end_ : num) : res (list data_range) :=
  s ← range_search t start;
  e ← range_search t end_;
  let ranges := tdr_ranges t in
  Ok (if (s =? -1) && (e =? -1) then []
      else if s =? -1 then py_slice ranges 0 (e + 1)
      else if e =? -1 then py_slice ranges s (zlen ranges)
      else py_slice ranges s (e + 1)).

Definition get_ranges_bounds (t : timeline_data_range) (start end_ : num) : res (Z * Z) :=
  s ← range_search t start;
  e ← range_search t end_;
  Ok (if (s =? -1) && (e =? -1) then (0, 0)
      else if s =? -1 then (0, e + 1)
      else if e =? -1 then (s, zlen (tdr_ranges t))
      else (s, e + 1)).

Definition tdr_sort (t : timeline_data_range) : timeline_data_range :=
  TimelineDataRange (tdr_name t) (sort_cmp ranges_cmp (tdr_ranges t)).

Definition tdr_get_bounds (t : timeline_data_range) : Z * Z :=
  match tdr_ranges t with
  | [] => (0, 0)
  | r :: rs => (dr_start r, dr_end (List.last rs r))
  end.

(** *** [TimelineEvent] *)

Record timeline_event := TimelineEvent { te_name : text; te_events : list event }.

Definition event_search_step (events : list event) (key : num) (s : Z * Z) :
    res (Z * Z + Z) :=
  let '(l, u) := s in
  if l <=? u then
    let i := (l + u) / 2 in
    e ← py_get events i;
    if num_eqb key (ev_at e) then Ok (inr i)
    else if num_ltb key (ev_at e) then Ok (inl (l, i - 1))
    else Ok (inl (i + 1, u))
  else Ok (inr l).

Definition event_search (t : timeline_event) (key : num) : res Z :=
  loop (S (length (te_events t))) (event_search_step (te_events t) key)
    (0, zlen (te_events t) - 1).

Definition add_event (t : timeline_event) (e : event) : timeline_event :=
  TimelineEvent (te_name t) (te_events t ++ [e]).

Definition get_events (t : timeline_event) (start end_ : num) : res (list event) :=
  s ← event_search t start;
  e ← event_search t end_;
  Ok (py_slice (te_events t) s (e + 1)).

Definition get_events_bounds (t : timeline_event) (start end_ : num) : res (Z * Z) :=
  s ← event_search t start;
  e ← event_search t end_;
  Ok (s, e + 1).

Definition te_sort (t : timeline_event) : timeline_event :=
  TimelineEvent (te_name t) (sort_cmp events_cmp (te_events t)).

Definition te_get_bounds (t : timeline_event) : Z * Z :=
  match te_events t with
  | [] => (0, 0)
  | e :: es => (ev_at e, ev_at (List.last es e))
  end.

(** ** [Timeline] and [Timelines]

    The getters return a reference to the object of that name, which they
    create at the end of their list when there is none; here they take the
    update that the caller makes through the reference. *)

Definition update_named {A} (name_of : A -> text) (new : text -> A) (name : text)
    (f : A -> A) : list A -> list A :=
  fix go l :=
    match l with
    | [] => [f (new name)]
    | x :: l => if decide (name_of x = name) then f x :: l else x :: go l
    end.

Record timeline := Timeline {
  tl_name : text;
  tl_ranges : list timeline_data_range;
  tl_event_str : list timeline_event;
  tl_event_int : list timeline_event
}.

Definition new_timeline (name : text) : timeline := Timeline name [] [] [].

Definition get_range (name : text) (f : timeline_data_range -> timeline_data_range)
    (t : timeline) : timeline :=
  Timeline (tl_name t)
    (update_named tdr_name (fun n => TimelineDataRange n []) name f (tl_ranges t))
    (tl_event_str t) (tl_event_int t).
Definition get_event_str (name : text) (f : timeline_event -> timeline_event)
    (t : timeline) : timeline :=
  Timeline (tl_name t) (tl_ranges t)
    (update_named te_name (fun n => TimelineEvent n []) name f (tl_event_str t))
    (tl_event_int t).
Definition get_event_int (name : text) (f : timeline_event -> timeline_event)
    (t : timeline) : timeline :=
  Timeline (tl_name t) (tl_ranges t) (tl_event_str t)
    (update_named te_name (fun n => TimelineEvent n []) name f (tl_event_int t)).

Definition tl_sort (t : timeline) : timeline :=
  Timeline (tl_name t) (tdr_sort <$> tl_ranges t) (te_sort <$> tl_event_str t)
    (te_sort <$> tl_event_int t).

(** [if x_lo < lo: lo = x_lo], [if x_hi > hi: hi = x_hi] *)
Definition widen (b b' : Z * Z) : Z * Z :=
  (if b'.1 <? b.1 then b'.1 else b.1, if b.2 <? b'.2 then b'.2 else b.2).

Definition tl_get_bounds (t : timeline) : Z * Z :=
  let b := foldl widen (0, 0) (tdr_get_bounds <$> tl_ranges t) in
  let b := foldl widen b (te_get_bounds <$> tl_event_str t) in
  foldl widen b (te_get_bounds <$> tl_event_int t).

Definition timelines : Type := list timeline.

Definition timelines_get (name : text) (f : timeline -> timeline) (ts : timelines) : timelines :=
  update_named tl_name new_timeline name f ts.
Definition timelines_sort (ts : timelines) : timelines := tl_sort <$> ts.
Definition timelines_get_bounds (ts : timelines) : Z * Z :=
  foldl widen (0, 0) (tl_get_bounds <$> ts).

Definition get_all_range_values `{DictOrder text} (ts : timelines) : list text :=
  let values := t ← ts; rs ← tl_ranges t; dr_value <$> get_all rs in
  dict_keys (foldl (fun d v => <[v := 1]> d) (∅ : gmap text Z) values).

(** ** Colours *)

Record color := Color { c_r : num; c_g : num; c_b : num }.
Definition color_set (c : color) (r g b : num) : color := Color r g b.

(** [default_colors] is an attribute of the class: [pop] takes from its end. *)
Definition default_colors : list color :=
  [Color 1 0 0; Color 0 1 0; Color 0 0 1; Color 1 1 0; Color 1 0 1; Color 0 1 1].

Record colors := Colors { cs_colors : gmap text color; cs_default : list color }.
Definition new_colors : colors := Colors ∅ default_colors.

Definition colors_add (name : text) (c : color) (cs : colors) : colors :=
  Colors (<[name := c]> (cs_colors cs)) (cs_default cs).

Definition colors_lookup (name : text) (cs : colors) : res (color * colors) :=
  match cs_colors cs !! name with
  | Some c => Ok (c, cs)
  | None =>
      match reverse (cs_default cs) with
      | [] => Raise IndexError
      | c :: rest => Ok (c, Colors (<[name := c]> (cs_colors cs)) (reverse rest))
      end
  end.

(** ** [read_data] *)

Definition not_blank (c : ascii) : bool := negb (is_char space c).
Definition re_word (k : re) : re := re_plus not_blank k.
Definition re_number (k : re) : re := re_plus is_digit k.
Definition re_hex2 (k : re) : re := RAtom (Atom is_hex 2 (Some 2%nat) true) k.

Definition m1 : re := re_lit (txt "range ") (re_word (re_lit (txt " ") (re_word (re_lit (txt " ")
  (re_word (re_lit (txt " ") (re_number (re_lit (txt " ") (re_number RDone))))))))).
Definition m2 : re := re_lit (txt "event-str ") (re_word (re_lit (txt " ") (re_word (re_lit (txt " ")
  (re_word (re_lit (txt " ") (re_number RDone))))))).
Definition m3 : re := re_lit (txt "event-int ") (re_word (re_lit (txt " ") (re_word (re_lit (txt " ")
  (re_number (re_lit (txt " ") (re_number RDone))))))).
Definition m4 : re := re_lit (txt "color ") (re_word (re_lit (txt " #")
  (re_hex2 (re_hex2 (re_hex2 RDone))))).

(** [int(s, 16)] on hexadecimal digits. *)
Definition hex_value (c : ascii) : Z :=
  let n := Z.of_nat (nat_of_ascii c) in
  if n <? 58 then n - 48 else if n <? 71 then n - 55 else n - 87.
Definition hex_int (t : text) : Z := fold_left (fun n c => 16 * n + hex_value c) t 0.

Definition read_line (s : colors * timelines) (line : text) : res (colors * timelines) :=
  let '(cs, ts) := s in
  match re_match m1 line with
  | Some [name; range_name; value; start; end_] =>
      Ok (cs, timelines_get name (get_range range_name (fun rang =>
        add_range rang (DataRange (digits_value start) (digits_value end_) value))) ts)
  | _ =>
  match re_match m2 line with
  | Some [name; event_name; value; at_] =>
      Ok (cs, timelines_get name (get_event_str event_name (fun ev =>
        add_event ev (Event (digits_value at_) (EvStr value)))) ts)
  | _ =>
  match re_match m3 line with
  | Some [name; event_name; value; at_] =>
      Ok (cs, timelines_get name (get_event_int event_name (fun ev =>
        add_event ev (Event (digits_value at_) (EvInt (digits_value value))))) ts)
  | _ =>
  match re_match m4 line with
  | Some [name; r; g; b] =>
      r ← num_div (hex_int r) 255; g ← num_div (hex_int g) 255; b ← num_div (hex_int b) 255;
      Ok (colors_add name (Color r g b) cs, ts)
  | _ => Ok s
  end end end end.

Definition read_data (lines : list text) : res (colors * timelines) :=
  '(cs, ts) ← for_each read_line lines (new_colors, []);
  Ok (cs, timelines_sort ts).

(** ** The searches *)

Definition in_range (key : num) (r : data_range) : Prop :=
  num_leb (dr_start r) key = true /\ num_leb key (dr_end r) = true.

Definition starts_sorted : list data_range -> Prop :=
  StronglySorted (fun a b => dr_start a <= dr_start b).
Definition ends_sorted : list data_range -> Prop :=
  StronglySorted (fun a b => dr_end a <= dr_end b).

(** Orders of numbers and integers. *)
Lemma below_start key a b : is_nan key = false ->
  num_ltb key (PInt a) = true -> a <= b -> num_leb (PInt b) key = false.
Proof.
  intros Hn Hlt Hab. rewrite num_ltb_not_leb in Hlt by done. apply negb_true_iff in Hlt.
  destruct (num_leb (PInt b) key) eqn:E; [|done]. rewrite <- Hlt. symmetry.
  apply (num_leb_trans _ (PInt b)); [|done]. rewrite num_leb_int. lia.
Qed.

Lemma above_end key a b : num_leb key (PInt a) = false -> b <= a -> num_leb key (PInt b) = false.
Proof.
  intros Hle Hab. destruct (num_leb key (PInt b)) eqn:E; [|done]. rewrite <- Hle. symmetry.
  apply (num_leb_trans _ (PInt b)); [done|]. rewrite num_leb_int. lia.
Qed.

Lemma half_between l u : 0 <= l -> l <= u -> l <= (l + u) / 2 <= u.
Proof.
  intros. split; [apply Z.div_le_lower_bound; lia|].
  apply Z.lt_succ_r, Z.div_lt_upper_bound; lia.
Qed.

Lemma StronglySorted_le {A} (key : A -> Z) l i j x y :
  StronglySorted (fun a b => key a <= key b) l -> (i <= j)%nat ->
  l !! i = Some x -> l !! j = Some y -> key x <= key y.
Proof.
  intros Hs Hij Hi Hj. destruct (decide (i = j)) as [->|]; [simplify_eq; lia|].
  apply (StronglySorted_lookup (fun a b => key a <= key b) l i j); [done|lia|done..].
Qed.

(** What holds of the interval that is left to search. *)
Definition range_window (H : Prop) (ranges : list data_range) (key : num) (s : Z * Z) : Prop :=
  0 <= s.1 /\ s.2 < zlen ranges /\ s.1 <= s.2 + 1 /\
  (H -> forall j r, ranges !! j = Some r -> (Z.of_nat j < s.1 \/ s.2 < Z.of_nat j) ->
     ~ in_range key r).

Definition range_found (H : Prop) (ranges : list data_range) (key : num) (r : res Z) : Prop :=
  (exists n x, r = Ok (Z.of_nat n) /\ ranges !! n = Some x /\ in_range key x) \/
  (r = Ok (-1) /\ (H -> forall x, x ∈ ranges -> ~ in_range key x)).

Lemma range_search_step_ok H ranges key s :
  (H -> starts_sorted ranges /\ ends_sorted ranges /\ is_nan key = false) ->
  range_window H ranges key s ->
  step_ok (range_window H ranges key) (fun s => Z.to_nat (s.2 + 1 - s.1))
    (range_found H ranges key) s (range_search_step ranges key s).
Proof.
  intros Hsort. destruct s as [l u]. intros (Hl & Hu & Hlu & Hout). cbn [fst snd] in *.
  unfold range_search_step. destruct (Z.leb_spec l u) as [Hle|Hgt].
  2:{ right. split; [done|]. intros HH x [j Hj]%list_elem_of_lookup.
      apply (Hout HH j x Hj). lia. }
  pose proof (half_between l u Hl Hle) as Hi. set (i := (l + u) / 2) in *. clearbody i.
  destruct (lookup_lt_is_Some_2 ranges (Z.to_nat i)) as [r Hr]; [unfold zlen in Hu; lia|].
  rewrite <- (Z2Nat.id i) by lia. rewrite py_get_nat, Hr. cbn [or_raise mbind result_bind].
  unfold num_geb. destruct (num_leb (dr_start r) key) eqn:Es, (num_leb key (dr_end r)) eqn:Ee;
    cbn [andb]; [left; by exists (Z.to_nat i), r|..];
    (destruct (num_ltb key (dr_start r)) eqn:El; cbn [step_ok range_window fst snd]; (split; [|lia]);
     unfold range_window; cbn [fst snd];
     (split; [lia|split; [lia|split; [lia|]]]); intros HH j x Hj Hcase;
     destruct (Hsort HH) as (Hss & Hes & Hn)).
  all: destruct (decide (Z.of_nat j < l \/ u < Z.of_nat j)) as [Hold|Hnew];
    [by apply (Hout HH j x)|]; intros [Hx1 Hx2].
  - rewrite num_ltb_not_leb, Es in El by done. done.
  - pose proof (StronglySorted_le dr_end ranges j (Z.to_nat i) x r Hes ltac:(lia) Hj Hr).
    by rewrite (above_end key (dr_end r)) in Hx2.
  - pose proof (StronglySorted_le dr_start ranges (Z.to_nat i) j r x Hss ltac:(lia) Hr Hj).
    by rewrite (below_start key (dr_start r)) in Hx1.
  - by rewrite num_ltb_not_leb, Es in El.
  - pose proof (StronglySorted_le dr_start ranges (Z.to_nat i) j r x Hss ltac:(lia) Hr Hj).
    by rewrite (below_start key (dr_start r)) in Hx1.
  - by rewrite num_ltb_not_leb, Es in El.
Qed.

Lemma range_search_ok H t key :
  (H -> starts_sorted (tdr_ranges t) /\ ends_sorted (tdr_ranges t) /\ is_nan key = false) ->
  range_found H (tdr_ranges t) key (range_search t key).
Proof.
  intros Hsort. unfold range_search.
  apply (loop_total (range_search_step (tdr_ranges t) key) (range_window H (tdr_ranges t) key)
    (fun s => Z.to_nat (s.2 + 1 - s.1)) (range_found H (tdr_ranges t) key)).
  - intros s Hs. by apply range_search_step_ok.
  - unfold range_window, zlen. cbn [fst snd]. split; [lia|]. split; [lia|]. split; [lia|].
    intros _ j r Hj Hc. apply lookup_lt_Some in Hj. lia.
  - unfold zlen. cbn [fst snd]. lia.
Qed.

(** The search over ranges terminates whatever the data; a range that it
    finds contains the key; and when the starts and the ends ascend, it answers
    [-1] only if no range contains the key. *)
Theorem range_search_spec t key :
  ((exists n r, range_search t key = Ok (Z.of_nat n) /\ tdr_ranges t !! n = Some r /\ in_range key r) \/
   range_search t key = Ok (-1)) /\
  (starts_sorted (tdr_ranges t) -> ends_sorted (tdr_ranges t) -> is_nan key = false ->
   (range_search t key = Ok (-1) <-> forall r, r ∈ tdr_ranges t -> ~ in_range key r)).
Proof.
  split.
  - destruct (range_search_ok False t key) as [?|[? _]]; [done|by left|by right].
  - intros Hs He Hn.
    destruct (range_search_ok True t key) as [(n & r & -> & Hr & Hin)|[-> Hnone]]; [done| |].
    + split; [intros [= ?]; lia|]. intros Hall. destruct (Hall r); [|done].
      by eapply list_elem_of_lookup_2.
    + split; [|done]. intros _. by apply Hnone.
Qed.

(** *** Selecting ranges *)

Definition disjoint_ranges (ranges : list data_range) : Prop :=
  Forall (fun r => dr_start r <= dr_end r) ranges /\
  StronglySorted (fun a b => dr_end a < dr_start b) ranges.

Definition overlaps (start end_ : num) (r : data_range) : Prop :=
  num_leb start (dr_end r) = true /\ num_leb (dr_start r) end_ = true.

Lemma StronglySorted_weaken {A} (R R' : A -> A -> Prop) l :
  (forall a b, a ∈ l -> b ∈ l -> R a b -> R' a b) -> StronglySorted R l -> StronglySorted R' l.
Proof.
  intros HR Hs. induction Hs as [|x l Hs IH Hx]; constructor.
  - apply IH. intros a b Ha Hb. apply HR; by right.
  - apply Forall_forall. intros y Hy. apply HR; [left|by right|].
    by eapply Forall_forall in Hx.
Qed.

Lemma disjoint_sorted ranges : disjoint_ranges ranges ->
  starts_sorted ranges /\ ends_sorted ranges.
Proof.
  intros [Hok Hs]. rewrite Forall_forall in Hok.
  split; (eapply StronglySorted_weaken; [|exact Hs]); cbn; intros a b Ha%Hok Hb%Hok ?; lia.
Qed.

(** Where an overlapping range is, relative to the range that holds a bound. *)
Lemma overlap_after ranges start end_ n j r x :
  disjoint_ranges ranges -> ranges !! n = Some r -> in_range start r ->
  ranges !! j = Some x -> overlaps start end_ x -> (n <= j)%nat.
Proof.
  intros [_ Hs] Hn [Hr _] Hj [Hx _]. destruct (decide (n <= j)%nat) as [|Hlt]; [done|].
  pose proof (StronglySorted_lookup (fun a b => dr_end a < dr_start b) ranges j n x r Hs ltac:(lia) Hj Hn).
  pose proof (num_leb_trans _ _ _ Hr Hx) as Hle. rewrite num_leb_int in Hle. cbn in *. lia.
Qed.

Lemma overlap_before ranges start end_ n j r x :
  disjoint_ranges ranges -> ranges !! n = Some r -> in_range end_ r ->
  ranges !! j = Some x -> overlaps start end_ x -> (j <= n)%nat.
Proof.
  intros [_ Hs] Hn [_ Hr] Hj [_ Hx]. destruct (decide (j <= n)%nat) as [|Hlt]; [done|].
  pose proof (StronglySorted_lookup (fun a b => dr_end a < dr_start b) ranges n j r x Hs ltac:(lia) Hn Hj).
  pose proof (num_leb_trans _ _ _ Hx Hr) as Hle. rewrite num_leb_int in Hle. cbn in *. lia.
Qed.

Lemma elem_of_slice {A} (l : list A) (i k j : nat) x :
  l !! j = Some x -> (i <= j < k)%nat -> (k <= length l)%nat ->
  x ∈ py_slice l (Z.of_nat i) (Z.of_nat k).
Proof.
  intros Hj Hi Hk. rewrite py_slice_nat by lia. apply elem_of_take. exists (j - i)%nat.
  rewrite lookup_drop. split; [by replace (i + (j - i))%nat with j by lia|lia].
Qed.

(** The bounds that are computed delimit the ranges that are returned. *)
Lemma get_ranges_bounds_ok t start end_ rs lo hi :
  get_ranges t start end_ = Ok rs -> get_ranges_bounds t start end_ = Ok (lo, hi) ->
  rs = py_slice (tdr_ranges t) lo hi.
Proof.
  unfold get_ranges, get_ranges_bounds. destruct (range_search t start) as [s| |]; [|done..].
  destruct (range_search t end_) as [e| |]; [|done..]. cbn [mbind result_bind].
  destruct (s =? -1), (e =? -1); cbn [andb]; intros [= <-] [= <- <-]; try done.
  by rewrite (py_slice_nat _ 0 0) by lia.
Qed.

(** On disjoint ascending ranges, when a bound of the interval lies in a
    range, the selection holds every range that overlaps the interval; when
    neither does, nothing is selected, whatever lies in between. *)
Theorem get_ranges_spec t start end_ :
  disjoint_ranges (tdr_ranges t) -> is_nan start = false -> is_nan end_ = false ->
  exists rs, get_ranges t start end_ = Ok rs /\
    ((exists r, r ∈ tdr_ranges t /\ (in_range start r \/ in_range end_ r)) ->
       forall x, x ∈ tdr_ranges t -> overlaps start end_ x -> x ∈ rs) /\
    ((forall r, r ∈ tdr_ranges t -> ~ in_range start r /\ ~ in_range end_ r) -> rs = []).
Proof.
  intros Hd Hns Hne. pose proof (disjoint_sorted _ Hd) as [Hss Hes].
  unfold get_ranges.
  destruct (range_search_ok True t start) as [(n & r & -> & Hn & Hr)|[-> Hs]]; [done|..];
  destruct (range_search_ok True t end_) as [(m & q & -> & Hm & Hq)|[-> He]]; try done;
    cbn [mbind result_bind]; rewrite ?(proj2 (Z.eqb_neq (Z.of_nat _) (-1))) by lia;
    cbn [Z.eqb Pos.eqb andb]; eexists; (split; [done|]); (split;
      [intros Hex x [j Hj]%list_elem_of_lookup Hov; pose proof (lookup_lt_Some _ _ _ Hj)
      |intros Hnone; try done]).
  - pose proof (overlap_after _ _ _ _ _ _ _ Hd Hn Hr Hj Hov).
    pose proof (overlap_before _ _ _ _ _ _ _ Hd Hm Hq Hj Hov).
    pose proof (lookup_lt_Some _ _ _ Hm). replace (Z.of_nat m + 1) with (Z.of_nat (S m)) by lia.
    eapply elem_of_slice; [done|lia..].
  - destruct (Hnone r) as [? _]; [by eapply list_elem_of_lookup_2|done].
  - pose proof (overlap_after _ _ _ _ _ _ _ Hd Hn Hr Hj Hov).
    unfold zlen. eapply elem_of_slice; [done|lia..].
  - destruct (Hnone r) as [? _]; [by eapply list_elem_of_lookup_2|done].
  - pose proof (overlap_before _ _ _ _ _ _ _ Hd Hm Hq Hj Hov).
    pose proof (lookup_lt_Some _ _ _ Hm). replace (Z.of_nat m + 1) with (Z.of_nat (S m)) by lia.
    apply (elem_of_slice _ 0 (S m) j); [done|lia..].
  - destruct (Hnone q) as [_ ?]; [by eapply list_elem_of_lookup_2|done].
  - destruct Hex as (y & Hy & [Hys|Hye]); [by destruct (Hs I y Hy)|by destruct (He I y Hy)].
Qed.

(** *** The search over events *)

Definition events_sorted : list event -> Prop :=
  StronglySorted (fun a b => ev_at a <= ev_at b).

(** [i] splits the events: those before are earlier than the key, the one at
    [i] is at the key or, like those after it, later. *)
Definition splits (events : list event) (key : num) (i : nat) : Prop :=
  (i <= length events)%nat /\
  ((exists e, events !! i = Some e /\ num_eqb key (ev_at e) = true) \/
   (forall j e, events !! j = Some e ->
      ((j < i)%nat -> num_ltb (ev_at e) key = true) /\
      ((i <= j)%nat -> num_ltb key (ev_at e) = true))).

Definition event_window (events : list event) (key : num) (s : Z * Z) : Prop :=
  0 <= s.1 /\ s.2 < zlen events /\ s.1 <= s.2 + 1 /\
  (forall j e, events !! j = Some e ->
     (Z.of_nat j < s.1 -> num_ltb (ev_at e) key = true) /\
     (s.2 < Z.of_nat j -> num_ltb key (ev_at e) = true)).

Lemma num_eqb_cases x y : is_nan x = false -> is_nan y = false ->
  num_eqb x y = false -> num_ltb x y = false -> num_ltb y x = true.
Proof.
  intros Hx Hy Heq Hlt. rewrite num_ltb_not_leb in Hlt by done. apply negb_false_iff in Hlt.
  destruct (num_compare_some y x Hy Hx) as [c Hc]. unfold num_leb in Hlt. rewrite Hc in Hlt.
  unfold num_ltb. rewrite Hc. unfold num_eqb, num_compare in *.
  rewrite (value_compare_antisym (num_value y) (num_value x)), Hc in Heq. by destruct c.
Qed.

Lemma ltb_earlier key a b : is_nan key = false ->
  num_ltb (PInt a) key = true -> b <= a -> num_ltb (PInt b) key = true.
Proof.
  intros Hn Hlt Hab. rewrite num_ltb_not_leb in Hlt |- * by done.
  apply negb_true_iff in Hlt. apply negb_true_iff. by eapply above_end.
Qed.

Lemma ltb_later key a b : is_nan key = false ->
  num_ltb key (PInt a) = true -> a <= b -> num_ltb key (PInt b) = true.
Proof.
  intros Hn Hlt Hab. rewrite num_ltb_not_leb by done. apply negb_true_iff.
  by eapply below_start.
Qed.

Lemma event_step_ok events key s :
  events_sorted events -> is_nan key = false -> event_window events key s ->
  step_ok (event_window events key) (fun s => Z.to_nat (s.2 + 1 - s.1))
    (fun r => exists i, r = Ok (Z.of_nat i) /\ splits events key i) s
    (event_search_step events key s).
Proof.
  intros Hsort Hn. destruct s as [l u]. intros (Hl & Hu & Hlu & Hout). cbn [fst snd] in *.
  unfold event_search_step. destruct (Z.leb_spec l u) as [Hle|Hgt].
  2:{ exists (Z.to_nat l). rewrite Z2Nat.id by done. split; [done|].
      unfold zlen in Hu. split; [lia|right]. intros j e Hj.
      destruct (Hout j e Hj) as [H1 H2]. split; intros; [apply H1|apply H2]; lia. }
  pose proof (half_between l u Hl Hle) as Hi. set (i := (l + u) / 2) in *. clearbody i.
  destruct (lookup_lt_is_Some_2 events (Z.to_nat i)) as [e Hr]; [unfold zlen in Hu; lia|].
  rewrite <- (Z2Nat.id i) by lia. rewrite py_get_nat, Hr. cbn [or_raise mbind result_bind].
  destruct (num_eqb key (ev_at e)) eqn:Eq.
  { cbn. exists (Z.to_nat i). split; [done|]. split; [unfold zlen in Hu; lia|left]. eauto. }
  destruct (num_ltb key (ev_at e)) eqn:El; cbn [step_ok]; (split; [|cbn [fst snd]; lia]);
    unfold event_window; cbn [fst snd]; (split; [lia|split; [lia|split; [lia|]]]);
    intros j x Hj; destruct (Hout j x Hj) as [H1 H2]; (split; intros Hc; [|]).
  - by apply H1.
  - destruct (decide (u < Z.of_nat j)); [by apply H2|].
    apply (ltb_later key (ev_at e)); [done..|].
    apply (StronglySorted_le ev_at events (Z.to_nat i) j e x Hsort); [lia|done..].
  - destruct (decide (Z.of_nat j < l)); [by apply H1|].
    apply (ltb_earlier key (ev_at e)); [done|by apply num_eqb_cases|].
    apply (StronglySorted_le ev_at events j (Z.to_nat i) x e Hsort); [lia|done..].
  - by apply H2.
Qed.

Lemma event_search_ok t key : events_sorted (te_events t) -> is_nan key = false ->
  exists i, event_search t key = Ok (Z.of_nat i) /\ splits (te_events t) key i.
Proof.
  intros Hs Hn. unfold event_search.
  apply (loop_total (event_search_step (te_events t) key) (event_window (te_events t) key)
    (fun s => Z.to_nat (s.2 + 1 - s.1))
    (fun r => exists i, r = Ok (Z.of_nat i) /\ splits (te_events t) key i)).
  - intros s Hw. by apply event_step_ok.
  - unfold event_window, zlen. cbn [fst snd]. split; [lia|]. split; [lia|]. split; [lia|].
    intros j e Hj. apply lookup_lt_Some in Hj. split; lia.
  - unfold zlen. cbn [fst snd]. lia.
Qed.

(** On ascending events the search terminates and splits the events at the
    key. *)
Theorem event_search_spec t key : events_sorted (te_events t) -> is_nan key = false ->
  exists i, event_search t key = Ok (Z.of_nat i) /\ splits (te_events t) key i.
Proof. apply event_search_ok. Qed.

Lemma eqb_leb x y : num_eqb x y = true -> num_leb x y = true /\ num_leb y x = true.
Proof.
  unfold num_eqb, num_leb, num_compare. rewrite (value_compare_antisym (num_value x)).
  destruct (value_compare (num_value x) (num_value y)) as [[]|]; done.
Qed.

(** On strictly ascending events the split is sharp. *)
Lemma splits_strict events key i j e :
  StronglySorted (fun a b => ev_at a < ev_at b) events -> is_nan key = false ->
  splits events key i -> events !! j = Some e ->
  ((j < i)%nat -> num_ltb (ev_at e) key = true) /\
  ((i <= j)%nat -> num_leb key (ev_at e) = true) /\
  ((i < j)%nat -> num_ltb key (ev_at e) = true).
Proof.
  intros Hs Hn [_ [(x & Hx & Heq)|Hall]] Hj.
  - destruct (eqb_leb _ _ Heq) as [Hle Hge].
    assert (Hlt : forall a b y z, events !! a = Some y -> events !! b = Some z -> (a < b)%nat ->
      ev_at y < ev_at z).
    { intros a b y z Hy Hz Hab.
      by apply (StronglySorted_lookup (fun a b => ev_at a < ev_at b) events a b). }
    split; [|split]; intros Hij.
    + rewrite num_ltb_not_leb by done. apply negb_true_iff.
      destruct (num_leb key (ev_at e)) eqn:E; [|done]. exfalso.
      pose proof (num_leb_trans _ _ _ Hge E) as H. rewrite num_leb_int in H.
      specialize (Hlt j i e x Hj Hx Hij). lia.
    + destruct (decide (i = j)) as [->|]; [by simplify_eq|].
      apply (num_leb_trans _ (ev_at x)); [done|]. rewrite num_leb_int.
      specialize (Hlt i j x e Hx Hj ltac:(lia)). lia.
    + rewrite num_ltb_not_leb by done. apply negb_true_iff.
      destruct (num_leb (ev_at e) key) eqn:E; [|done]. exfalso.
      pose proof (num_leb_trans _ _ _ E Hle) as H. rewrite num_leb_int in H.
      specialize (Hlt i j x e Hx Hj Hij). lia.
  - destruct (Hall j e Hj) as [H1 H2]. split; [done|]. split; intros.
    + by apply num_ltb_leb, H2.
    + apply H2. lia.
Qed.

Lemma py_slice_any {A} (l : list A) (i j : nat) :
  py_slice l (Z.of_nat i) (Z.of_nat j) = take (j - i) (drop i l).
Proof.
  rewrite (py_slice_bounds l _ _ (i `min` length l)%nat (j `min` length l)%nat)
    by apply slice_bound_nat.
  destruct (decide (i <= length l)%nat).
  - rewrite (Nat.min_l i) by done. destruct (decide (j <= length l)%nat).
    + by rewrite Nat.min_l.
    + rewrite Nat.min_r by lia. rewrite !take_ge; [done|rewrite length_drop; lia..].
  - rewrite (Nat.min_r i) by lia. rewrite !drop_ge by lia. by rewrite !take_nil.
Qed.

(** On strictly ascending events [get_events] gives all the events of the
    interval, none before it, and at most one after it. *)
Theorem get_events_spec t start end_ :
  StronglySorted (fun a b => ev_at a < ev_at b) (te_events t) ->
  is_nan start = false -> is_nan end_ = false -> num_leb start end_ = true ->
  exists es, get_events t start end_ = Ok es /\
    (forall e, e ∈ te_events t -> num_leb start (ev_at e) = true ->
       num_leb (ev_at e) end_ = true -> e ∈ es) /\
    (forall e, e ∈ es -> num_leb start (ev_at e) = true) /\
    (forall i e, es !! i = Some e -> num_leb (ev_at e) end_ = false -> i = (length es - 1)%nat).
Proof.
  intros Hs Hns Hne Hle.
  assert (Hsort : events_sorted (te_events t)).
  { eapply StronglySorted_weaken; [|exact Hs]. cbn. intros. lia. }
  unfold get_events.
  destruct (event_search_ok t start Hsort Hns) as (n & -> & Hn).
  destruct (event_search_ok t end_ Hsort Hne) as (m & -> & Hm). cbn [mbind result_bind].
  replace (Z.of_nat m + 1) with (Z.of_nat (S m)) by lia. rewrite py_slice_any.
  pose proof (fun j e => splits_strict _ start n j e Hs Hns Hn) as Hstart.
  pose proof (fun j e => splits_strict _ end_ m j e Hs Hne Hm) as Hend.
  eexists. split; [done|]. split; [|split].
  - intros e [j Hj]%list_elem_of_lookup H1 H2.
    assert (n <= j)%nat.
    { destruct (decide (n <= j)%nat) as [|Hlt]; [done|]. destruct (Hstart j e Hj) as (Hb & _).
      specialize (Hb ltac:(lia)). by rewrite num_ltb_not_leb, H1 in Hb. }
    assert (j <= m)%nat.
    { destruct (decide (j <= m)%nat) as [|Hlt]; [done|]. destruct (Hend j e Hj) as (_ & _ & Hb).
      specialize (Hb ltac:(lia)). by rewrite num_ltb_not_leb, H2 in Hb. }
    apply elem_of_take. exists (j - n)%nat. rewrite lookup_drop.
    split; [by replace (n + (j - n))%nat with j by lia|lia].
  - intros e (i & Hi & _)%elem_of_take. rewrite lookup_drop in Hi.
    apply (Hstart (n + i)%nat e Hi). lia.
  - intros i e Hi Hgt. apply lookup_take_Some in Hi as [Hi Hlt]. rewrite lookup_drop in Hi.
    destruct (Hend (n + i)%nat e Hi) as (Hb & _).
    assert (n + i = m)%nat.
    { destruct (decide (n + i < m)%nat) as [Hlt'|]; [|lia].
      specialize (Hb Hlt'). apply num_ltb_leb in Hb. congruence. }
    apply lookup_lt_Some in Hi. rewrite length_take, length_drop. lia.
Qed.

(** ** Bounds *)

Lemma foldl_widen bs b :
  let w := foldl widen b bs in
  w.1 <= b.1 /\ b.2 <= w.2 /\ forall b', b' ∈ bs -> w.1 <= b'.1 /\ b'.2 <= w.2.
Proof.
  revert b. induction bs as [|c bs IH]; intros b; cbn.
  - split; [lia|]. split; [lia|]. by intros b' ?%not_elem_of_nil.
  - destruct (IH (widen b c)) as (H1 & H2 & H3). cbn in H1, H2.
    destruct (Z.ltb_spec c.1 b.1), (Z.ltb_spec b.2 c.2);
      (split; [lia|]; split; [lia|]; intros b' [->|Hb]%elem_of_cons; [lia|by apply H3]).
Qed.

Lemma sorted_first {A} (key : A -> Z) x l y :
  StronglySorted (fun a b => key a <= key b) (x :: l) -> y ∈ x :: l -> key x <= key y.
Proof.
  intros Hs [->|Hy]%elem_of_cons; [lia|].
  apply StronglySorted_inv in Hs as [_ Hx]. by eapply Forall_forall in Hx.
Qed.

Lemma sorted_last {A} (key : A -> Z) l : forall x y,
  StronglySorted (fun a b => key a <= key b) (x :: l) -> y ∈ x :: l -> key y <= key (List.last l x).
Proof.
  induction l as [|z l IH]; intros x y Hs Hy.
  - apply list_elem_of_singleton in Hy as ->. done.
  - rewrite py_last_cons. pose proof (sorted_first key _ _ z Hs ltac:(right; left)).
    apply StronglySorted_inv in Hs as [Hs _]. apply elem_of_cons in Hy as [->|Hy].
    + pose proof (IH z z Hs ltac:(left)). lia.
    + by apply IH.
Qed.

Lemma tdr_bounds_ok t r : starts_sorted (tdr_ranges t) -> ends_sorted (tdr_ranges t) ->
  r ∈ tdr_ranges t ->
  (tdr_get_bounds t).1 <= dr_start r /\ dr_end r <= (tdr_get_bounds t).2.
Proof.
  unfold tdr_get_bounds. destruct (tdr_ranges t) as [|x l]; [by intros _ _ ?%not_elem_of_nil|].
  intros Hs He Hr. split; [by apply (sorted_first dr_start x l)|by apply (sorted_last dr_end l)].
Qed.

Lemma te_bounds_ok t e : events_sorted (te_events t) -> e ∈ te_events t ->
  (te_get_bounds t).1 <= ev_at e <= (te_get_bounds t).2.
Proof.
  unfold te_get_bounds. destruct (te_events t) as [|x l]; [by intros _ ?%not_elem_of_nil|].
  intros Hs He. split; [by apply (sorted_first ev_at x l)|by apply (sorted_last ev_at l)].
Qed.

Lemma tl_bounds_ok t :
  (tl_get_bounds t).1 <= 0 <= (tl_get_bounds t).2 /\
  (forall b, b ∈ (tdr_get_bounds <$> tl_ranges t) ++ (te_get_bounds <$> tl_event_str t) ++
               (te_get_bounds <$> tl_event_int t) ->
     (tl_get_bounds t).1 <= b.1 /\ b.2 <= (tl_get_bounds t).2).
Proof.
  unfold tl_get_bounds. rewrite <- !foldl_app.
  destruct (foldl_widen ((tdr_get_bounds <$> tl_ranges t) ++ (te_get_bounds <$> tl_event_str t) ++
    (te_get_bounds <$> tl_event_int t)) (0, 0)) as (H1 & H2 & H3).
  cbn in H1, H2. split; [done|exact H3].
Qed.

(** The bounds of all the timelines hold zero and, when the starts and the
    ends ascend as they do in data without nesting, every range and event. *)
Theorem timelines_bounds_spec ts :
  let b := timelines_get_bounds ts in
  b.1 <= 0 <= b.2 /\
  (forall t rs r, t ∈ ts -> rs ∈ tl_ranges t -> r ∈ tdr_ranges rs ->
     starts_sorted (tdr_ranges rs) -> ends_sorted (tdr_ranges rs) ->
     b.1 <= dr_start r /\ dr_end r <= b.2) /\
  (forall t es e, t ∈ ts -> es ∈ tl_event_str t ++ tl_event_int t -> e ∈ te_events es ->
     events_sorted (te_events es) -> b.1 <= ev_at e <= b.2).
Proof.
  cbn zeta. unfold timelines_get_bounds.
  destruct (foldl_widen (tl_get_bounds <$> ts) (0, 0)) as (H1 & H2 & H3).
  cbn zeta in *. cbn [fst snd] in H1, H2. split; [done|].
  assert (Hb : forall t b, t ∈ ts ->
    b ∈ (tdr_get_bounds <$> tl_ranges t) ++ (te_get_bounds <$> tl_event_str t) ++
        (te_get_bounds <$> tl_event_int t) ->
    (foldl widen (0, 0) (tl_get_bounds <$> ts)).1 <= b.1 /\
    b.2 <= (foldl widen (0, 0) (tl_get_bounds <$> ts)).2).
  { intros t b Ht Hb. destruct (tl_bounds_ok t) as [_ Hin]. specialize (Hin b Hb).
    destruct (H3 (tl_get_bounds t)); [by apply list_elem_of_fmap_2|]. lia. }
  split.
  - intros t rs r Ht Hrs Hr Hs He. destruct (tdr_bounds_ok rs r Hs He Hr).
    destruct (Hb t (tdr_get_bounds rs) Ht); [|lia].
    apply elem_of_app. left. by apply list_elem_of_fmap_2.
  - intros t es e Ht Hes He Hs. pose proof (te_bounds_ok es e Hs He).
    destruct (Hb t (te_get_bounds es) Ht); [|lia].
    apply elem_of_app. right. rewrite <- fmap_app. by apply list_elem_of_fmap_2.
Qed.

(** The upper bound is the end of the last range, not the greatest end. *)
Example bounds_nested : tdr_get_bounds (TimelineDataRange [] [DataRange 0 9 []; DataRange 1 2 []])
  = (0, 2).
Proof. reflexivity. Qed.

(** ** Colours *)

(** The loop of [main]: the colours of the names in the legend. *)
Definition range_colors (names : list text) (cs : colors) : res (list color * colors) :=
  for_each (fun '(out, cs) name =>
    '(c, cs) ← colors_lookup name cs; Ok (out ++ [c], cs)) names ([], cs).

(** A lookup gives the colour of the name, which it keeps from then on, and
    changes no other; only a new name can fail, when the default colours are
    used up. *)
Theorem colors_lookup_spec name cs :
  (exists c cs', colors_lookup name cs = Ok (c, cs') /\ cs_colors cs' !! name = Some c /\
     colors_lookup name cs' = Ok (c, cs') /\
     (forall c0, cs_colors cs !! name = Some c0 -> c = c0 /\ cs' = cs) /\
     (forall other, other <> name -> cs_colors cs' !! other = cs_colors cs !! other)) \/
  (colors_lookup name cs = Raise IndexError /\ cs_colors cs !! name = None /\ cs_default cs = []).
Proof.
  unfold colors_lookup. destruct (cs_colors cs !! name) as [c|] eqn:E.
  - left. exists c, cs. rewrite E. by repeat split; naive_solver.
  - destruct (reverse (cs_default cs)) as [|c rest] eqn:Er.
    + right. split; [done|]. split; [done|]. rewrite <- (reverse_involutive (cs_default cs)). by rewrite Er.
    + left. exists c, (Colors (<[name := c]> (cs_colors cs)) (reverse rest)).
      split; [done|]. cbn. rewrite lookup_insert_eq. split; [done|]. split; [done|].
      split; [done|]. intros other Ho. by rewrite lookup_insert_ne.
Qed.

Lemma range_colors_loop names cs out :
  NoDup names -> (forall n, n ∈ names -> cs_colors cs !! n = None) ->
  (fun r => r.1) <$> for_each (fun '(out, cs) name =>
    '(c, cs) ← colors_lookup name cs; Ok (out ++ [c], cs)) names (out, cs)
  = if (length names <=? length (cs_default cs))%nat
    then Ok (out ++ take (length names) (reverse (cs_default cs))) else Raise IndexError.
Proof.
  intros Hnd. revert cs out. induction Hnd as [|n names Hn Hnd IH]; intros cs out Hnew.
  { cbn. by rewrite take_0, app_nil_r. }
  cbn [for_each].
  assert (colors_lookup n cs = match reverse (cs_default cs) with
    | [] => Raise IndexError
    | c :: rest => Ok (c, Colors (<[n := c]> (cs_colors cs)) (reverse rest))
    end) as -> by (unfold colors_lookup; by rewrite (Hnew n) by left).
  destruct (reverse (cs_default cs)) as [|c rest] eqn:Er.
  - assert (cs_default cs = []) as -> by (by rewrite <- (reverse_involutive (cs_default cs)), Er).
    done.
  - assert (length (cs_default cs) = S (length rest)) as Hl.
    { rewrite <- (length_reverse (cs_default cs)), Er. done. }
    cbn [mbind result_bind]. rewrite IH.
    + cbn [cs_default]. rewrite Hl, length_reverse, reverse_involutive. cbn [length Nat.leb take].
      destruct (_ <=? _)%nat; [|done]. by rewrite <- app_assoc.
    + intros m Hm. cbn. rewrite lookup_insert_ne; [apply Hnew; by right|by intros ->].
Qed.

(** Names without a colour of their own get different default colours as
    long as there are any, that is up to six; a seventh name fails. *)
Theorem range_colors_spec names cs : NoDup names -> (forall n, n ∈ names -> cs_colors cs !! n = None) ->
  (fun r => r.1) <$> range_colors names cs =
    if (length names <=? length (cs_default cs))%nat
    then Ok (take (length names) (reverse (cs_default cs))) else Raise IndexError.
Proof. intros Hnd Hnew. unfold range_colors. by rewrite range_colors_loop. Qed.

(** ** The input file *)

Inductive record :=
| RRange (name range_name value : text) (start end_ : Z)
| REventStr (name event_name value : text) (at_ : Z)
| REventInt (name event_name : text) (value at_ : Z).

Definition print_record (r : record) : text :=
  match r with
  | RRange t n v s e => txt "range " ++ t ++ txt " " ++ n ++ txt " " ++ v ++ txt " " ++
      show_Z s ++ txt " " ++ show_Z e ++ [newline]
  | REventStr t n v a => txt "event-str " ++ t ++ txt " " ++ n ++ txt " " ++ v ++ txt " " ++
      show_Z a ++ [newline]
  | REventInt t n v a => txt "event-int " ++ t ++ txt " " ++ n ++ txt " " ++ show_Z v ++ txt " " ++
      show_Z a ++ [newline]
  end.

Definition word (t : text) : Prop := t <> [] /\ Forall (fun c => not_blank c = true) t.
Definition wf_record (r : record) : Prop :=
  match r with
  | RRange t n v s e => word t /\ word n /\ word v /\ 0 <= s /\ 0 <= e
  | REventStr t n v a => word t /\ word n /\ word v /\ 0 <= a
  | REventInt t n v a => word t /\ word n /\ 0 <= v /\ 0 <= a
  end.

(** What a record adds to the timelines. *)
Definition apply_record (ts : timelines) (r : record) : timelines :=
  match r with
  | RRange t n v s e =>
      timelines_get t (get_range n (fun rang => add_range rang (DataRange s e v))) ts
  | REventStr t n v a =>
      timelines_get t (get_event_str n (fun ev => add_event ev (Event a (EvStr v)))) ts
  | REventInt t n v a =>
      timelines_get t (get_event_int n (fun ev => add_event ev (Event a (EvInt v)))) ts
  end.

(** The fields of a line. *)
Lemma match_word k t s gs rest : word t ->
  re_match_at k s = Some (gs, rest) ->
  re_match_at (re_word (re_lit (txt " ") k)) (t ++ txt " " ++ s) = Some (t :: gs, rest).
Proof. intros [Hne Ht] Hk. apply re_match_plus; [done..|]. by rewrite re_match_lit. Qed.

Lemma match_number k n s gs rest : 0 <= n ->
  re_match_at k s = Some (gs, rest) ->
  re_match_at (re_number (re_lit (txt " ") k)) (show_Z n ++ txt " " ++ s)
    = Some (show_Z n :: gs, rest).
Proof.
  intros Hn Hk. destruct (show_Z_spec n Hn) as (? & _ & ?). apply re_match_plus; [done..|].
  by rewrite re_match_lit.
Qed.

Lemma match_last n : 0 <= n ->
  re_match_at (re_number RDone) (show_Z n ++ [newline]) = Some ([show_Z n], [newline]).
Proof. intros Hn. destruct (show_Z_spec n Hn) as (? & _ & ?). by apply re_match_plus. Qed.

Lemma re_match_of r s gs rest : re_match_at r s = Some (gs, rest) -> re_match r s = Some gs.
Proof. intros Hr. unfold re_match. by rewrite Hr. Qed.

Lemma lit_mismatch t k s : ~ t `prefix_of` s -> re_match (re_lit t k) s = None.
Proof. intros Ht. unfold re_match. by rewrite re_match_lit_fail. Qed.

Lemma digits_show n : 0 <= n -> digits_value (show_Z n) = n.
Proof. intros Hn. by destruct (show_Z_spec n Hn) as (_ & ? & _). Qed.

Create HintDb readline.
#[local] Hint Resolve match_word match_number match_last : readline.

Lemma read_line_print cs ts r : wf_record r ->
  read_line (cs, ts) (print_record r) = Ok (cs, apply_record ts r).
Proof.
  unfold read_line. destruct r as [t n v s e|t n v a|t n v a].
  - intros (Ht & Hn & Hv & Hs & He).
    rewrite (re_match_of m1 _ [t; n; v; show_Z s; show_Z e] [newline]).
    + by rewrite !digits_show.
    + unfold m1, print_record. rewrite re_match_lit. eauto 10 with readline.
  - intros (Ht & Hn & Hv & Ha). unfold m1, print_record.
    rewrite lit_mismatch by (intros [k Hk]; discriminate Hk).
    rewrite (re_match_of m2 _ [t; n; v; show_Z a] [newline]).
    + by rewrite digits_show.
    + unfold m2. rewrite re_match_lit. eauto 10 with readline.
  - intros (Ht & Hn & Hv & Ha). unfold m1, m2, print_record.
    rewrite !lit_mismatch by (intros [k Hk]; discriminate Hk).
    rewrite (re_match_of m3 _ [t; n; show_Z v; show_Z a] [newline]).
    + by rewrite !digits_show.
    + unfold m3. rewrite re_match_lit. eauto 10 with readline.
Qed.

Lemma read_lines_print cs rs : Forall wf_record rs -> forall ts,
  for_each read_line (print_record <$> rs) (cs, ts) = Ok (cs, foldl apply_record ts rs).
Proof.
  induction 1 as [|r rs Hr _ IH]; intros ts; [done|].
  cbn [fmap list_fmap for_each foldl]. rewrite read_line_print by done. apply IH.
Qed.

(** *** Looking up by name *)

Definition find_named {A} (name_of : A -> text) (name : text) (l : list A) : option A :=
  snd <$> list_find (fun x => name_of x = name) l.

Lemma find_named_cons {A} (name_of : A -> text) name x l :
  find_named name_of name (x :: l) =
    if decide (name_of x = name) then Some x else find_named name_of name l.
Proof.
  unfold find_named. cbn. case_decide; [done|]. by destruct (list_find _ l) as [[? ?]|].
Qed.

Lemma find_update {A} (name_of : A -> text) new name f l name' :
  (forall n, name_of (new n) = n) -> (forall x, name_of (f x) = name_of x) ->
  find_named name_of name' (update_named name_of new name f l) =
    if decide (name = name') then Some (f (default (new name) (find_named name_of name l)))
    else find_named name_of name' l.
Proof.
  intros Hnew Hf. induction l as [|x l IH].
  - cbn [update_named]. rewrite find_named_cons, Hf, Hnew. by case_decide.
  - cbn [update_named]. rewrite (find_named_cons name_of name x).
    destruct (decide (name_of x = name)) as [Hx|Hx].
    + rewrite !find_named_cons, Hf, Hx. by case_decide.
    + rewrite !find_named_cons, IH. destruct (decide (name = name')) as [->|Hne].
      * by rewrite decide_False.
      * by case_decide.
Qed.

Lemma find_fmap {A} (name_of : A -> text) (f : A -> A) name l :
  (forall x, name_of (f x) = name_of x) ->
  find_named name_of name (f <$> l) = f <$> find_named name_of name l.
Proof.
  intros Hf. induction l as [|x l IH]; [done|]. cbn [fmap list_fmap].
  rewrite !find_named_cons, Hf. by case_decide.
Qed.

Definition ranges_of (ts : timelines) (t n : text) : list data_range :=
  default [] (tdr_ranges <$> (find_named tl_name t ts ≫= fun tl => find_named tdr_name n (tl_ranges tl))).
Definition events_of (sel : timeline -> list timeline_event) (ts : timelines) (t n : text) : list event :=
  default [] (te_events <$> (find_named tl_name t ts ≫= fun tl => find_named te_name n (sel tl))).

(** What a record says about the range (events) [n] of the timeline [t]. *)
Definition range_in (t n : text) (r : record) : option data_range :=
  match r with
  | RRange t' n' v s e => if decide (t' = t /\ n' = n) then Some (DataRange s e v) else None
  | _ => None
  end.
Definition event_str_in (t n : text) (r : record) : option event :=
  match r with
  | REventStr t' n' v a => if decide (t' = t /\ n' = n) then Some (Event a (EvStr v)) else None
  | _ => None
  end.
Definition event_int_in (t n : text) (r : record) : option event :=
  match r with
  | REventInt t' n' v a => if decide (t' = t /\ n' = n) then Some (Event a (EvInt v)) else None
  | _ => None
  end.

(** A record changes what is found under its own two names, and appends there. *)
Ltac by_names t n :=
  unfold timelines_get; rewrite find_update by done;
  match goal with |- context [decide (?t' = t)] =>
    destruct (decide (t' = t)) as [->|?];
      [|rewrite ?decide_False by tauto; by rewrite app_nil_r]
  end;
  match goal with |- context [find_named tl_name t ?ts] =>
    destruct (find_named tl_name t ts) end;
  cbn [mbind option_bind default from_option id get_range get_event_str get_event_int
       tl_ranges tl_event_str tl_event_int new_timeline];
  rewrite ?app_nil_r; try done; rewrite find_update by done;
  match goal with |- context [decide (?n' = n)] =>
    destruct (decide (n' = n)) as [->|?];
      [rewrite decide_True by done|rewrite decide_False by tauto] end;
  rewrite ?app_nil_r; try done;
  match goal with |- context [find_named ?name_of n ?l] => by destruct (find_named name_of n l) end.

Lemma ranges_of_apply ts t n r :
  ranges_of (apply_record ts r) t n = ranges_of ts t n ++ option_list (range_in t n r).
Proof. unfold ranges_of. destruct r; cbn [apply_record range_in]; by_names t n. Qed.

Lemma events_str_apply ts t n r :
  events_of tl_event_str (apply_record ts r) t n =
    events_of tl_event_str ts t n ++ option_list (event_str_in t n r).
Proof. unfold events_of. destruct r; cbn [apply_record event_str_in]; by_names t n. Qed.

Lemma events_int_apply ts t n r :
  events_of tl_event_int (apply_record ts r) t n =
    events_of tl_event_int ts t n ++ option_list (event_int_in t n r).
Proof. unfold events_of. destruct r; cbn [apply_record event_int_in]; by_names t n. Qed.

Lemma collect_records {A} (sel : timelines -> list A) (f : record -> option A) rs ts :
  (forall ts r, sel (apply_record ts r) = sel ts ++ option_list (f r)) ->
  sel (foldl apply_record ts rs) = sel ts ++ omap f rs.
Proof.
  intros Hsel. revert ts. induction rs as [|r rs IH]; intros ts; [cbn; by rewrite app_nil_r|].
  cbn [foldl]. rewrite IH, Hsel, <- app_assoc. f_equal. cbn. by destruct (f r).
Qed.

Lemma ranges_of_sort ts t n :
  ranges_of (timelines_sort ts) t n = sort_cmp ranges_cmp (ranges_of ts t n).
Proof.
  unfold ranges_of, timelines_sort. rewrite find_fmap by done.
  destruct (find_named tl_name t ts) as [tl|]; [|done].
  cbn [fmap option_fmap option_map mbind option_bind tl_ranges tl_sort].
  rewrite find_fmap by done. by destruct (find_named tdr_name n _).
Qed.

Lemma events_of_sort (sel : timeline -> list timeline_event) ts t n :
  (forall tl, sel (tl_sort tl) = te_sort <$> sel tl) ->
  events_of sel (timelines_sort ts) t n = sort_cmp events_cmp (events_of sel ts t n).
Proof.
  intros Hsel. unfold events_of, timelines_sort. rewrite find_fmap by done.
  destruct (find_named tl_name t ts) as [tl|]; [|done].
  cbn [fmap option_fmap option_map mbind option_bind].
  rewrite Hsel, find_fmap by done. by destruct (find_named te_name n _).
Qed.

Lemma ranges_cmp_key a b : ranges_cmp a b < 0 <-> dr_start a < dr_start b.
Proof.
  unfold ranges_cmp. destruct (Z.ltb_spec (dr_start a - dr_start b) 0);
    [|destruct (Z.ltb_spec 0 (dr_start a - dr_start b))]; lia.
Qed.
Lemma events_cmp_key a b : events_cmp a b < 0 <-> ev_at a < ev_at b.
Proof.
  unfold events_cmp. destruct (Z.ltb_spec (ev_at a - ev_at b) 0);
    [|destruct (Z.ltb_spec 0 (ev_at a - ev_at b))]; lia.
Qed.

(** C22: reading a file of printed records gives, under every pair of names, the
    ranges and the events of the records of these names, sorted by time. *)
Theorem read_data_spec rs : Forall wf_record rs ->
  exists ts, read_data (print_record <$> rs) = Ok (new_colors, ts) /\
    (forall t n, ranges_of ts t n = sort_cmp ranges_cmp (omap (range_in t n) rs) /\
       starts_sorted (ranges_of ts t n)) /\
    (forall t n, events_of tl_event_str ts t n = sort_cmp events_cmp (omap (event_str_in t n) rs) /\
       events_sorted (events_of tl_event_str ts t n)) /\
    (forall t n, events_of tl_event_int ts t n = sort_cmp events_cmp (omap (event_int_in t n) rs) /\
       events_sorted (events_of tl_event_int ts t n)).
Proof.
  intros Hwf. unfold read_data. rewrite read_lines_print by done. eexists. split; [done|].
  split; [|split]; intros t n.
  - rewrite ranges_of_sort, (collect_records (fun ts => ranges_of ts t n) (range_in t n))
      by (intros; apply ranges_of_apply).
    split; [done|]. apply sort_cmp_sorted, ranges_cmp_key.
  - rewrite events_of_sort, (collect_records (fun ts => events_of tl_event_str ts t n) (event_str_in t n))
      by (done || (intros; apply events_str_apply)).
    split; [done|]. apply sort_cmp_sorted, events_cmp_key.
  - rewrite events_of_sort, (collect_records (fun ts => events_of tl_event_int ts t n) (event_int_in t n))
      by (done || (intros; apply events_int_apply)).
    split; [done|]. apply sort_cmp_sorted, events_cmp_key.
Qed.

(** A colour in the file is divided in integers: anything but [ff] is [0]. *)
Example color_truncated :
  (fun s => cs_colors s.1 !! txt "x") <$> read_line (new_colors, []) (txt "color x #80fF00")
  = Ok (Some (Color 0 1 0)).
Proof. by vm_compute. Qed.

(** ** Witnesses *)

Definition sample_ranges : timeline_data_range :=
  TimelineDataRange (txt "r") [DataRange 0 2 (txt "a"); DataRange 5 7 (txt "b"); DataRange 9 9 (txt "a")].

Lemma sample_disjoint : disjoint_ranges (tdr_ranges sample_ranges).
Proof. split; repeat (constructor; try (cbn; lia)). Qed.

Lemma range_search_spec_witness :
  range_search sample_ranges (PInt 3) = Ok (-1) <->
  forall r, r ∈ tdr_ranges sample_ranges -> ~ in_range (PInt 3) r.
Proof.
  destruct (range_search_spec sample_ranges (PInt 3)) as [_ H].
  apply H; [apply (disjoint_sorted _ sample_disjoint)|apply (disjoint_sorted _ sample_disjoint)|reflexivity].
Defined.

Lemma get_ranges_spec_witness : exists rs, get_ranges sample_ranges (PInt 1) (PInt 6) = Ok rs.
Proof.
  destruct (get_ranges_spec sample_ranges (PInt 1) (PInt 6) sample_disjoint eq_refl eq_refl) as (rs & H & _).
  exists rs. exact H.
Defined.

(** Both bounds in gaps: the range between them is not selected. *)
Example get_ranges_gap : get_ranges sample_ranges (PInt 3) (PInt 8) = Ok [].
Proof. by vm_compute. Qed.

Definition sample_events : timeline_event :=
  TimelineEvent (txt "e") [Event 1 (EvStr (txt "x")); Event 4 (EvStr (txt "y")); Event 9 (EvStr (txt "z"))].

Lemma sample_events_strict : StronglySorted (fun a b => ev_at a < ev_at b) (te_events sample_events).
Proof. repeat (constructor; try (cbn; lia)). Qed.

Lemma event_search_spec_witness : exists i,
  event_search sample_events (PInt 3) = Ok (Z.of_nat i) /\ splits (te_events sample_events) (PInt 3) i.
Proof.
  apply (event_search_spec sample_events (PInt 3)); [|reflexivity].
  repeat (constructor; try (cbn; lia)).
Defined.

Lemma get_events_spec_witness : exists es, get_events sample_events (PInt 2) (PInt 5) = Ok es /\
  forall e, e ∈ es -> num_leb (PInt 2) (ev_at e) = true.
Proof.
  destruct (get_events_spec sample_events (PInt 2) (PInt 5) sample_events_strict
    eq_refl eq_refl eq_refl) as (es & H & _ & H2 & _).
  exists es. split; [exact H|exact H2].
Defined.

(** Of several events at the start of the interval the search may miss some. *)
Example same_time : get_events (TimelineEvent [] [Event 1 (EvInt 1); Event 1 (EvInt 2); Event 1 (EvInt 3)])
  (PInt 1) (PInt 1) = Ok [Event 1 (EvInt 2)].
Proof. by vm_compute. Qed.

Lemma range_colors_spec_witness :
  (fun r => r.1) <$> range_colors [txt "a"; txt "b"] new_colors = Ok [Color 0 1 1; Color 1 0 1].
Proof.
  rewrite (range_colors_spec [txt "a"; txt "b"] new_colors).
  - reflexivity.
  - apply (bool_decide_unpack _). vm_compute. exact I.
  - intros n _. reflexivity.
Defined.

Definition sample_records : list record :=
  [RRange (txt "t") (txt "r") (txt "v") 5 7; RRange (txt "t") (txt "r") (txt "w") 0 2].

Lemma sample_records_wf : Forall wf_record sample_records.
Proof. repeat (constructor; try done; try lia). Qed.

Lemma read_data_spec_witness : exists ts,
  read_data (print_record <$> sample_records) = Ok (new_colors, ts) /\
  ranges_of ts (txt "t") (txt "r") = [DataRange 0 2 (txt "w"); DataRange 5 7 (txt "v")].
Proof.
  destruct (read_data_spec sample_records sample_records_wf) as (ts & H & Hr & _).
  exists ts. split; [exact H|]. destruct (Hr (txt "t") (txt "r")) as [-> _]. vm_compute. reflexivity.
Defined.
