(* ===== verification/GridRender.v ===== *)
(** * The renderers of [utils/grid.py].

    A drawing is the sequence of calls on the cairo context.  Sizes of texts
    come from cairo: [text_extents] is a parameter.  An attribute that no
    initializer sets is an [option]; reading it too early raises
    [AttributeError]. *)
From S2P Require Import Prelude PyNum PyString PyDict Timeline.
#[local] Open Scope Z_scope.

(** ** Drawing *)

Inductive ctx_op :=
| Rectangle (x y width height : num)
| SetSourceRgb (r g b : num)
| SetLineWidth (w : num)
| SetOperatorSource
| SetDash (dashes : list num) (offset : num)
| MoveTo (x y : num)
| LineTo (x y : num)
| RelLineTo (dx dy : num)
| ClosePath
| Stroke
| StrokePreserve
| Fill
| Clip
| Paint
| SetSourceSurface
| ShowText (t : text)
| Save
| Restore
| Translate (x y : num).

(** Drawing may look up colours, which changes the table of colours. *)
Definition draw (A : Type) : Type := colors -> res (A * colors * list ctx_op).

#[export] Instance draw_ret : MRet draw := fun A a cs => Ok (a, cs, []).
#[export] Instance draw_bind : MBind draw := fun A B f m cs =>
  match m cs with
  | Ok (a, cs, ops) =>
      match f a cs with
      | Ok (b, cs, ops') => Ok (b, cs, ops ++ ops')
      | Raise e => Raise e
      | NoFuel => NoFuel
      end
  | Raise e => Raise e
  | NoFuel => NoFuel
  end.
Definition emit_op (o : ctx_op) : draw unit := fun cs => Ok (tt, cs, [o]).
Definition emit_ops (os : list ctx_op) : draw unit := fun cs => Ok (tt, cs, os).
Definition lookup_color (name : text) : draw color := fun cs =>
  '(c, cs) ← colors_lookup name cs; Ok (c, cs, []).

(** Computations without drawing, in either monad. *)
Class LiftRes (M : Type -> Type) := lift_res : forall {A}, res A -> M A.
#[export] Instance lift_res_res : LiftRes (result py_exn) := fun A r => r.
#[export] Instance lift_res_draw : LiftRes draw := fun A r cs => a ← r; Ok (a, cs, []).

Definition num_bind {M} `{MBind M} `{LiftRes M} {A} (e : res num) (k : num -> M A) : M A :=
  lift_res e ≫= k.
(** [x := e ;; k]: an assignment of a number. *)
Notation "x ::= e ;; k" := (num_bind e%num (fun x : num => k))
  (at level 20, e at level 99, k at level 200, right associativity).

(** A [for] loop in the drawing monad. *)
Fixpoint draw_each {S X} (f : S -> X -> draw S) (l : list X) (s : S) : draw S :=
  match l with
  | [] => mret s
  | x :: l => s ← f s x; draw_each f l s
  end.

Definition attr {A} (o : option A) : res A := or_raise AttributeError o.

(** The sizes that [ctx.text_extents] gives: its items 1, 2 and 3. *)
Record extents := Extents { x_bearing : num; y_bearing : num; t_width : num; t_height : num }.

(** [range(a, b, step)] *)
Definition py_range (a b step : Z) : res (list Z) :=
  if step =? 0 then Raise ValueError
  else
    let n := if 0 <? step then (b - a + step - 1) / step else (a - b - step - 1) / - step in
    Ok ((fun i => a + Z.of_nat i * step) <$> seq 0 (Z.to_nat n)).

Definition int_of (x : num) : res Z :=
  i ← py_int x; match i with PInt z => Ok z | PFloat _ => Raise TypeError end.

Section grid.
Context (text_extents : text -> extents).

(** ** [TopLegendRenderer] *)

Record legend := Legend {
  lg_padding : num;
  lg_legends : option (list text * list color);
  lg_width : option num;
  lg_height : option num
}.
Definition new_legend : legend := Legend 10 None None None.
Definition legend_set_padding (l : legend) (padding : num) : legend :=
  Legend padding (lg_legends l) (lg_width l) (lg_height l).
Definition set_legends (l : legend) (legends : list text) (cs : list color) : legend :=
  Legend (lg_padding l) (Some (legends, cs)) (lg_width l) (lg_height l).

(** [line_height], [total_height] and [line_used]. *)
Record lines := Lines { ln_height : num; ln_total : num; ln_used : num }.

(** The body of the loops of [layout] and [draw]: a legend goes on the current
    line or starts a new one; [x] is where it starts. *)
Definition place_legend (padding width : num) (s : lines) (e : extents) : res (lines * num) :=
  item_width ::= padding .+ padding .+ t_width e .+ padding;;
  item_height ::= t_height e .+ padding;;
  let line_height := if (item_height >? ln_height s)%num then item_height else ln_height s in
  end_ ::= ln_used s .+ item_width;;
  '(total_height, line_used) ←
    (if (end_ >? width)%num then
       line_used ::= padding .+ item_width;;
       total_height ::= ln_total s .+ line_height;;
       Ok (total_height, line_used)
     else Ok (ln_total s, end_));
  x ::= val line_used .- item_width;;
  Ok (Lines line_height total_height line_used, x).

Definition legend_layout (l : legend) (width : num) : res legend :=
  '(legends, _) ← attr (lg_legends l);
  let padding := lg_padding l in
  s ← for_each (fun s legend =>
        '(s, _) ← place_legend padding width s (text_extents legend); Ok s)
      legends (Lines 0 padding padding);
  total_height ::= ln_total s .+ ln_height s;;
  Ok (Legend padding (lg_legends l) (Some width) (Some total_height)).

Definition legend_get_height (l : legend) : res num := attr (lg_height l).

Definition draw_legend (padding : num) (width : num) (cs : list color)
    (s : lines * Z) (legend : text) : draw (lines * Z) :=
  let '(s, i) := s in
  let e := text_extents legend in
  '(s, x) ← lift_res (place_legend padding width s e);
  c ← lift_res (py_get cs i);
  text_x ::= val x .+ (padding .* 2);;
  text_y ::= ln_total s .+ t_height e;;
  _ ← emit_ops [Rectangle x (ln_total s) padding padding; SetSourceRgb 0 0 0; SetLineWidth 2;
        StrokePreserve; SetSourceRgb (c_r c) (c_g c) (c_b c); Fill;
        MoveTo text_x text_y; SetSourceRgb 0 0 0; ShowText legend];
  mret (s, i + 1).

Definition legend_draw (l : legend) : draw unit :=
  '(legends, cs) ← lift_res (attr (lg_legends l));
  let padding := lg_padding l in
  width ← lift_res (match legends with [] => Ok (PInt 0) | _ => attr (lg_width l) end);
  _ ← draw_each (draw_legend padding width cs) legends (Lines 0 padding padding, 0);
  mret tt.

(** ** [TimelinesRenderer] *)

Record sizes := Sizes {
  sz_left : num; sz_right : num; sz_text : num; sz_width : num; sz_height : num }.

(** The attribute [colors] is the object that the drawing monad carries. *)
Record data_renderer := DataRenderer {
  rd_padding : num;
  rd_timelines : option timelines;
  rd_range : option (num * num);      (* start, end *)
  rd_sizes : option sizes             (* what [layout] sets *)
}.
Definition new_data_renderer : data_renderer := DataRenderer 10 None None None.
Definition rd_get_height (d : data_renderer) : res num := sz_height <$> attr (rd_sizes d).
Definition set_timelines (d : data_renderer) (ts : timelines) : data_renderer :=
  DataRenderer (rd_padding d) (Some ts) (rd_range d) (rd_sizes d).
Definition set_render_range (d : data_renderer) (start end_ : num) : data_renderer :=
  DataRenderer (rd_padding d) (rd_timelines d) (Some (start, end_)) (rd_sizes d).

Definition get_data_x_start (d : data_renderer) : res num :=
  sz ← attr (rd_sizes d);
  let padding := rd_padding d in
  ((padding ./ 2) .+ sz_left sz .+ padding .+ sz_right sz .+ (padding ./ 2))%num.

Definition alphabet : text :=
  txt "ABCDEFGHIJKLMNOPQRSTUVWXYZabcedefghijklmnopqrstuvwxyz0123456789".

Definition max_width (w : num) (name : text) : num := num_max w (t_width (text_extents name)).

Definition rd_layout (d : data_renderer) (width : num) : res data_renderer :=
  let max_text_height := t_height (text_extents alphabet) in
  ts ← attr (rd_timelines d);
  let padding := rd_padding d in
  let left_width := foldl max_width (PInt 0) (tl_name <$> ts) in
  let right_width := foldl max_width (PInt 0)
    (t ← ts; (tdr_name <$> tl_ranges t) ++ (te_name <$> tl_event_int t) ++
             (te_name <$> tl_event_str t)) in
  let left_n_lines := zlen ts in
  let range_n := zlen (t ← ts; tl_ranges t) in
  let eventint_n := zlen (t ← ts; tl_event_int t) in
  let eventstr_n := zlen (t ← ts; tl_event_str t) in
  left_height ::= (PInt left_n_lines .* max_text_height) .+ (PInt (left_n_lines - 1) .* padding);;
  let right_n_lines := range_n + eventint_n + eventstr_n in
  right_height ::= (PInt (right_n_lines - 1) .* padding) .+ (PInt right_n_lines .* max_text_height);;
  right_data_height ::= (PInt (eventint_n + eventstr_n) .* (max_text_height .+ 5))
                        .+ PInt (range_n * 10);;
  right_data_height ::= val right_data_height .+ (PInt (right_n_lines - 1) .* padding);;
  let height := num_max left_height right_height in
  let height := num_max height right_data_height in
  height ::= val height .+ padding;;
  Ok (DataRenderer padding (rd_timelines d) (rd_range d)
        (Some (Sizes left_width right_width max_text_height width height))).

Definition draw_line (x y width height : num) : list ctx_op :=
  [MoveTo x y; RelLineTo width height; ClosePath; SetOperatorSource; SetLineWidth 1;
   SetSourceRgb 0 0 0; Stroke].

Definition light_grey : num := frac 9 10.

(** The background of every other row. *)
Definition draw_background (d : data_renderer) (grey_background : Z) (x y width height : num) :
    draw unit :=
  if grey_background mod 2 =? 0 then
    top ::= val y .- (rd_padding d ./ 2);;
    h ::= val height .+ rd_padding d;;
    emit_ops [Rectangle x top width h; SetSourceRgb light_grey light_grey light_grey; Fill]
  else mret tt.

Definition show_value (v : event_value) : text :=
  match v with EvStr s => s | EvInt n => show_Z n end.

(** [int(x + (at - start) * width / (end - start))] *)
Definition to_pixel (x at_ start end_ width : num) : res num :=
  p ← (val x .+ (((val at_ .- start) .* width) ./ (val end_ .- start)))%num;
  py_int p.

Definition draw_event (max_text_height start end_ x y width : num) (last_x_drawn : num) (e : event) :
    draw num :=
  real_x ::= to_pixel x (ev_at e) start end_ width;;
  next ::= val last_x_drawn .+ 2;;
  if (real_x >? next)%num then
    text_y ::= val y .+ max_text_height;;
    _ ← emit_ops [Rectangle real_x y 1 1; SetSourceRgb 1 0 0; Stroke;
          MoveTo real_x text_y; SetSourceRgb 0 0 0; ShowText (show_value (ev_value e))];
    mret real_x
  else mret last_x_drawn.

(** The result is the new [grey_background]. *)
Definition draw_events (d : data_renderer) (grey_background : Z) (events : timeline_event)
    (x y width height : num) : draw Z :=
  _ ← draw_background d grey_background x y width height;
  last_x_drawn ::= py_int x;;
  '(start, end_) ← lift_res (attr (rd_range d));
  sz ← lift_res (attr (rd_sizes d));
  '(lo, hi) ← lift_res (get_events_bounds events start end_);
  _ ← draw_each (draw_event (sz_text sz) start end_ x y width)
        (py_slice (te_events events) lo hi) last_x_drawn;
  mret (grey_background + 1).

Definition draw_range (start end_ x y width : num) (last_x_drawn : num) (r : data_range) : draw num :=
  let s := num_max (dr_start r) start in
  let e := num_min (dr_end r) end_ in
  x_start ::= to_pixel x s start end_ width;;
  x_end ::= to_pixel x e start end_ width;;
  if (x_end >? last_x_drawn)%num then
    w ::= val x_end .- x_start;;
    _ ← emit_ops [Rectangle x_start y w 10; SetSourceRgb 0 0 0; StrokePreserve];
    c ← lookup_color (dr_value r);
    _ ← emit_ops [SetSourceRgb (c_r c) (c_g c) (c_b c); Fill];
    mret x_end
  else mret last_x_drawn.

Definition draw_ranges (d : data_renderer) (grey_background : Z) (ranges : timeline_data_range)
    (x y width height : num) : draw Z :=
  _ ← draw_background d grey_background x y width height;
  last_x_drawn ::= (x ← (val x .- 1)%num; py_int x);;
  '(start, end_) ← lift_res (attr (rd_range d));
  '(lo, hi) ← lift_res (get_ranges_bounds ranges start end_);
  _ ← draw_each (draw_range start end_ x y width) (py_slice (tdr_ranges ranges) lo hi) last_x_drawn;
  mret (grey_background + 1).

(** Where [draw] of the timelines puts things. *)
Record columns := Columns {
  cl_left_x : num; cl_right_x : num; cl_right_width : num;
  cl_data_x : num; cl_data_width : num; cl_text_height : num }.

(** A label: the name of a row or of a timeline. *)
Definition draw_label (name : text) (x cur_y max_text_height : num) : draw unit :=
  let e := text_extents name in
  y ::= val cur_y .+ max_text_height .- (t_height e .+ y_bearing e);;
  emit_ops [MoveTo x y; ShowText name].

(** One row: its label, its data, and the line below it; [step] is what
    [cur_y] grows by. *)
Definition draw_row (d : data_renderer) (c : columns) (name : text)
    (body : num -> draw Z) (step : res num) (cur_y : num) : draw (num * Z) :=
  _ ← draw_label name (cl_right_x c) cur_y (cl_text_height c);
  grey ← body cur_y;
  cur_y ::= val cur_y .+ step;;
  line_x ::= val (cl_right_x c) .- (rd_padding d ./ 2);;
  line_y ::= val cur_y .- (rd_padding d ./ 2);;
  line_w ::= val (cl_right_width c) .+ rd_padding d;;
  _ ← emit_ops (draw_line line_x line_y line_w 0);
  mret (cur_y, grey).

Definition draw_events_row (d : data_renderer) (c : columns) (s : num * Z) (events : timeline_event) :
    draw (num * Z) :=
  let '(cur_y, grey) := s in
  draw_row d c (te_name events) (fun cur_y =>
      h ::= val (cl_text_height c) .+ 5;;
      draw_events d grey events (cl_data_x c) cur_y (cl_data_width c) h)
    (val (cl_text_height c) .+ 5 .+ rd_padding d)%num cur_y.

Definition draw_ranges_row (d : data_renderer) (c : columns) (s : num * Z)
    (ranges : timeline_data_range) : draw (num * Z) :=
  let '(cur_y, grey) := s in
  draw_row d c (tdr_name ranges) (fun cur_y =>
      draw_ranges d grey ranges (cl_data_x c) cur_y (cl_data_width c) 10)
    (val (cl_text_height c) .+ rd_padding d)%num cur_y.

Definition draw_timeline (d : data_renderer) (c : columns) (width : num) (s : num * Z) (t : timeline) :
    draw (num * Z) :=
  _ ← draw_label (tl_name t) (cl_left_x c) s.1 (cl_text_height c);
  s ← draw_each (draw_events_row d c) (tl_event_int t) s;
  s ← draw_each (draw_events_row d c) (tl_event_str t) s;
  s ← draw_each (draw_ranges_row d c) (tl_ranges t) s;
  line_y ::= val s.1 .- (rd_padding d ./ 2);;
  _ ← emit_ops (draw_line 0 line_y width 0);
  mret s.

Definition rd_draw (d : data_renderer) : draw unit :=
  sz ← lift_res (attr (rd_sizes d));
  let padding := rd_padding d in
  half ::= val padding ./ 2;;
  let left_x_start := half in
  left_x_end ::= val left_x_start .+ sz_left sz;;
  right_x_start ::= val left_x_end .+ padding;;
  right_x_end ::= val right_x_start .+ sz_right sz;;
  data_x_start ::= val right_x_end .+ half;;
  data_width ::= val (sz_width sz) .- data_x_start;;
  _ ← emit_ops (draw_line 0 0 (sz_width sz) 0);
  ts ← lift_res (attr (rd_timelines d));
  let c := Columns left_x_start right_x_start (sz_right sz) data_x_start data_width (sz_text sz) in
  '(cur_y, _) ← draw_each (draw_timeline d c (sz_width sz)) ts (half, 1);
  bot_y ::= val cur_y .- half;;
  x1 ::= val left_x_end .+ half;;
  x2 ::= val right_x_end .+ half;;
  emit_ops (draw_line x1 0 0 bot_y ++ draw_line x2 0 0 bot_y).

(** ** [ScaleRenderer] *)

Record scale_layout_data := ScaleLayout {
  sl_delta : num; sl_width : num; sl_height : num; sl_text : num }.
Record scale := Scale {
  sc_top : bool;
  sc_bounds : option (num * num);
  sc_layout : option scale_layout_data
}.
Definition new_scale : scale := Scale false None None.
Definition set_bounds (s : scale) (lo hi : num) : scale := Scale (sc_top s) (Some (lo, hi)) (sc_layout s).
Definition set_top (s : scale) : scale := Scale true (sc_bounds s) (sc_layout s).
Definition set_bot (s : scale) : scale := Scale false (sc_bounds s) (sc_layout s).

(** [(x - lo) * width / (hi - lo)] *)
Definition scale_x (lo hi width x : num) : res num :=
  (((val x .- lo) .* width) ./ (val hi .- lo))%num.

Definition get_position (s : scale) (x : num) : res num :=
  '(lo, hi) ← attr (sc_bounds s);
  sl ← attr (sc_layout s);
  scale_x lo hi (sl_width sl) x.

(** [while (closest*10) < data_delta: closest *= 10] *)
Definition closest_step (data_delta : num) (closest : Z) : res (Z + Z) :=
  if num_ltb (PInt (closest * 10)) data_delta then Ok (inl (closest * 10)) else Ok (inr closest).

(** Enough rounds: an integer has fewer decades than bits; a finite float is
    below [10 ** 309]. *)
Definition decades (data_delta : num) : nat :=
  match data_delta with PInt d => S (S (Z.to_nat (Z.log2 d))) | PFloat _ => 310%nat end.

Definition scale_delta (lo hi : num) : res num :=
  data_delta ::= val hi .- lo;;
  closest ← loop (decades data_delta) (closest_step data_delta) 1;
  ratio ::= val data_delta ./ PInt closest;;
  if num_eqb ratio 0 then Ok (PInt closest)
  else if num_eqb ratio 1 then num_div (PInt closest) 10
  else Ok (PInt closest).

(** [start] and [end]: the multiples of [delta] inside the bounds. *)
Definition scale_ends (lo hi delta : num) : res (num * num) :=
  start ::= (val lo .- (val lo .% delta)) .+ delta;;
  end_ ::= val hi .- (val hi .% delta);;
  Ok (start, end_).

Definition scale_layout (s : scale) (width : num) : res scale :=
  '(lo, hi) ← attr (sc_bounds s);
  delta ← scale_delta lo hi;
  _ ← scale_ends lo hi delta;
  let max_text_height := t_height (text_extents alphabet) in
  height ::= val max_text_height .+ 10;;
  Ok (Scale (sc_top s) (sc_bounds s) (Some (ScaleLayout delta width height max_text_height))).

Definition scale_get_height (s : scale) : res num := sl_height <$> attr (sc_layout s).

(** [range(int(start), int(end + delta), int(delta))] *)
Definition ticks (lo hi delta : num) : res (list Z) :=
  '(start, end_) ← scale_ends lo hi delta;
  a ← int_of start;
  last ← num_add end_ delta;
  b ← int_of last;
  d ← int_of delta;
  py_range a b d.

Definition tick_line (real_x len : num) : list ctx_op :=
  [MoveTo real_x 0; LineTo real_x len; ClosePath; Stroke].

Definition draw_tick (top : bool) (lo hi width : num) (s : Z) (_ : unit) (x : Z) : draw unit :=
  real_x ::= scale_x lo hi width x;;
  _ ← emit_ops (tick_line real_x (PInt (5 * s)));
  let e := text_extents (show_Z x) in
  text_delta ::= (if top then num_add (t_height e) (y_bearing e) else Ok (num_opp (y_bearing e)));;
  text_x ::= val real_x .- (t_width e ./ 2);;
  text_y ::= (PInt 10 .+ text_delta) .* PInt s;;
  emit_ops [MoveTo text_x text_y; ShowText (show_Z x)].

Definition draw_subtick (lo hi width : num) (s : Z) (_ : unit) (x : Z) : draw unit :=
  real_x ::= scale_x lo hi width x;;
  emit_ops (tick_line real_x (PInt (3 * s))).

Definition scale_draw (sc : scale) : draw unit :=
  sl ← lift_res (attr (sc_layout sc));
  '(lo, hi) ← lift_res (attr (sc_bounds sc));
  let delta := sl_delta sl in
  let s := if sc_top sc then -1 else 1 in
  _ ← lift_res (scale_ends lo hi delta);
  _ ← emit_ops [SetSourceRgb 0 0 0; SetLineWidth 1];
  xs ← lift_res (ticks lo hi delta);
  _ ← draw_each (draw_tick (sc_top sc) lo hi (sl_width sl) s) xs tt;
  delta ::= val delta ./ 10;;
  if (delta >? 0)%num then
    xs ← lift_res (ticks lo hi delta);
    draw_each (draw_subtick lo hi (sl_width sl) s) xs tt
  else mret tt.

(** ** [GraphicRenderer] *)

Record graphic := Graphic {
  gr_start : num; gr_end : num;
  gr_mid_scale : scale; gr_bot_scale : scale;
  gr_width : num; gr_height : num;
  gr_range : option (num * num);          (* r_start, r_end *)
  gr_data : option data_renderer;
  gr_top_legend : option legend
}.

Definition new_graphic (start end_ : num) : res graphic :=
  s ::= py_float start;;
  e ::= py_float end_;;
  Ok (Graphic s e (set_top new_scale) (set_bot (set_bounds new_scale start end_)) 1 1 None None None).

Definition gr_set_data (g : graphic) (d : data_renderer) : graphic :=
  Graphic (gr_start g) (gr_end g) (gr_mid_scale g) (gr_bot_scale g) (gr_width g) (gr_height g)
    (gr_range g) (Some d) (gr_top_legend g).
Definition gr_set_top_legend (g : graphic) (l : legend) : graphic :=
  Graphic (gr_start g) (gr_end g) (gr_mid_scale g) (gr_bot_scale g) (gr_width g) (gr_height g)
    (gr_range g) (gr_data g) (Some l).
Definition gr_get_range (g : graphic) : res (num * num) := attr (gr_range g).

(** x, y, width and height. *)
Record rect := Rect { rc_x : num; rc_y : num; rc_width : num; rc_height : num }.

Definition get_data_rectangle (g : graphic) : res rect :=
  l ← attr (gr_top_legend g);
  y_start ::= legend_get_height l;;
  d ← attr (gr_data g);
  x_start ::= get_data_x_start d;;
  w ::= val (gr_width g) .- x_start;;
  h ::= rd_get_height d;;
  Ok (Rect x_start y_start w h).

Definition scale_data (g : graphic) (x : num) : res num :=
  d ← attr (gr_data g);
  x_start ::= get_data_x_start d;;
  w ::= val (gr_width g) .- x_start;;
  q ::= val x ./ w;;
  '(r_start, r_end) ← attr (gr_range g);
  (val q .* (val r_end .- val r_start))%num.

Definition get_selection_rectangle (g : graphic) : res rect :=
  l ← attr (gr_top_legend g);
  lh ::= legend_get_height l;;
  d ← attr (gr_data g);
  y_start ::= val lh .+ rd_get_height d .+ scale_get_height (gr_mid_scale g) .+ 20;;
  y_height ::= scale_get_height (gr_bot_scale g) .+ 20;;
  '(r_start, r_end) ← attr (gr_range g);
  x_start ::= get_position (gr_bot_scale g) r_start;;
  x_end ::= get_position (gr_bot_scale g) r_end;;
  w ::= val x_end .- x_start;;
  Ok (Rect x_start y_start w y_height).

Definition scale_selection (g : graphic) (x : num) : res num :=
  ((val x ./ gr_width g) .* (val (gr_end g) .- gr_start g))%num.

Definition gr_layout (g : graphic) (width height : num) : res graphic :=
  l ← attr (gr_top_legend g);
  l ← legend_layout l width;
  _ ← legend_get_height l;
  d ← attr (gr_data g);
  d ← rd_layout d width;
  x_start ::= get_data_x_start d;;
  w ::= val width .- x_start;;
  mid ← scale_layout (gr_mid_scale g) w;
  bot ← scale_layout (gr_bot_scale g) width;
  Ok (Graphic (gr_start g) (gr_end g) mid bot width height (gr_range g) (Some d) (Some l)).

Definition set_range (g : graphic) (start end_ : num) : res graphic :=
  let s := num_min start end_ in
  let e := num_max start end_ in
  let start := num_max (gr_start g) s in
  let end_ := num_min (gr_end g) e in
  d ← attr (gr_data g);
  let d := set_render_range d start end_ in
  let mid := set_bounds (gr_mid_scale g) start end_ in
  gr_layout (Graphic (gr_start g) (gr_end g) mid (gr_bot_scale g) (gr_width g) (gr_height g)
               (Some (start, end_)) (Some d) (gr_top_legend g)) (gr_width g) (gr_height g).

(** [__x_pixel], which nothing calls. *)
Definition x_pixel (g : graphic) (x width : num) : res num :=
  scale_x (gr_start g) (gr_end g) width x.

(** The drawing, part by part. *)
Definition draw_connections (width data_x height_used below select_start select_end : num) :
    list ctx_op :=
  [MoveTo 0 height_used; LineTo data_x height_used; LineTo select_start below; LineTo 0 below;
   LineTo 0 height_used; SetSourceRgb 0 0 0; SetLineWidth 1; StrokePreserve;
   SetSourceRgb light_grey light_grey light_grey; Fill;
   MoveTo width height_used; LineTo width below; LineTo select_end below;
   LineTo width height_used; SetSourceRgb 0 0 0; SetLineWidth 1; StrokePreserve;
   SetSourceRgb light_grey light_grey light_grey; Fill].

Definition draw_unused (width top bottom unused_start unused_end unused_width unused_height : num) :
    list ctx_op :=
  [Rectangle 0 top unused_start unused_height; Rectangle unused_end top unused_width unused_height;
   SetSourceRgb light_grey light_grey light_grey; Fill;
   MoveTo unused_end top; LineTo width top; LineTo width bottom; LineTo 0 bottom; LineTo 0 top;
   LineTo unused_start top; ClosePath; SetLineWidth 2; SetSourceRgb 0 0 0; Stroke;
   MoveTo unused_start top; LineTo unused_end top; ClosePath; SetLineWidth 1;
   SetSourceRgb light_grey light_grey light_grey; Stroke].

Definition gr_draw (g : graphic) : draw unit :=
  let width := gr_width g in
  _ ← emit_ops [Save; SetSourceRgb 1 1 1; SetOperatorSource; Rectangle 0 0 width (gr_height g); Fill];
  (* top legend *)
  _ ← emit_op Save;
  l ← lift_res (attr (gr_top_legend g));
  _ ← legend_draw l;
  top_legend_height ::= legend_get_height l;;
  _ ← emit_op Restore;
  _ ← emit_ops [MoveTo 0 top_legend_height; LineTo width top_legend_height; ClosePath;
        SetLineWidth 2; SetSourceRgb 0 0 0; Stroke];
  (* data *)
  _ ← emit_ops [Save; Translate 0 top_legend_height];
  d ← lift_res (attr (gr_data g));
  _ ← rd_draw d;
  _ ← emit_op Restore;
  (* scale below data *)
  _ ← emit_op Save;
  data_x ::= get_data_x_start d;;
  height_used ::= val top_legend_height .+ rd_get_height d .+ scale_get_height (gr_mid_scale g);;
  _ ← emit_op (Translate data_x height_used);
  _ ← scale_draw (gr_mid_scale g);
  _ ← emit_op Restore;
  mid_height ::= scale_get_height (gr_mid_scale g);;
  _ ← emit_ops [MoveTo data_x height_used; RelLineTo 0 (num_opp mid_height); ClosePath;
        SetSourceRgb 0 0 0; SetLineWidth 2; Stroke;
        MoveTo 0 height_used; LineTo width height_used; ClosePath;
        SetLineWidth 2; SetSourceRgb 0 0 0; Stroke];
  '(r_start, r_end) ← lift_res (attr (gr_range g));
  select_start ::= get_position (gr_bot_scale g) r_start;;
  select_end ::= get_position (gr_bot_scale g) r_end;;
  below ::= val height_used .+ 20;;
  _ ← emit_ops (draw_connections width data_x height_used below select_start select_end);
  (* unused area *)
  unused_height ::= scale_get_height (gr_bot_scale g) .+ 20;;
  unused_width ::= val width .- select_end;;
  bottom ::= val below .+ unused_height;;
  _ ← emit_ops (draw_unused width below bottom select_start select_end unused_width unused_height);
  (* dot borders *)
  right_border ::= val width .- 2;;
  _ ← emit_ops [Save; MoveTo (num_max select_start 2) below; RelLineTo 0 unused_height;
        MoveTo (num_min select_end right_border) below; RelLineTo 0 unused_height;
        SetDash [PInt 5] 0; SetSourceRgb 0 0 0; SetLineWidth 1; Stroke; Restore];
  (* bottom scale *)
  _ ← emit_ops [Save; Translate 0 below];
  _ ← scale_draw (gr_bot_scale g);
  emit_op Restore.
End grid.
