(* ===== verification/GridSpec.v ===== *)
(** * What the renderers of [utils/grid.py] guarantee.

    Saved states of the drawing context, the ticks of a scale and its
    positions, the lines of the legend, the labels of events, the selected
    range, and that drawing reads only what has been set. *)
From S2P Require Import Prelude PyNum PyString PyDict Timeline GridRender.
#[local] Open Scope Z_scope.

(** ** Saves and restores *)

(** The number of saved states after some calls; [None]: a [restore] without a
    [save]. *)
Fixpoint saved (ops : list ctx_op) (n : nat) : option nat :=
  match ops with
  | [] => Some n
  | Save :: ops => saved ops (S n)
  | Restore :: ops => match n with O => None | S n => saved ops n end
  | _ :: ops => saved ops n
  end.

Lemma saved_app ops ops' n : saved (ops ++ ops') n = saved ops n ≫= saved ops'.
Proof.
  revert n. induction ops as [|o ops IH]; intros n; [done|].
  destruct o; cbn; try apply IH. destruct n; [done|apply IH].
Qed.

(** [nets k m]: whatever [m] draws leaves [k] more saved states. *)
Definition nets {A} (k : nat) (m : draw A) : Prop :=
  forall cs a cs' ops, m cs = Ok (a, cs', ops) -> forall n, saved ops n = Some (k + n)%nat.

Lemma nets_ret {A} (a : A) : nets 0 (mret a).
Proof. by intros cs b cs' ops [= <- <- <-] n. Qed.

Lemma nets_bind {A B} k j (m : draw A) (f : A -> draw B) :
  nets k m -> (forall a, nets j (f a)) -> nets (j + k) (m ≫= f).
Proof.
  intros Hm Hf cs b cs' ops. unfold mbind, draw_bind.
  destruct (m cs) as [[[a cs1] ops1]| |] eqn:E1; [|done..].
  destruct (f a cs1) as [[[b' cs2] ops2]| |] eqn:E2; [|done..]. intros [= <- <- <-] n.
  rewrite saved_app, (Hm _ _ _ _ E1). cbn. rewrite (Hf _ _ _ _ _ E2). f_equal. lia.
Qed.

Lemma nets_seq {A B} (m : draw A) (f : A -> draw B) :
  nets 0 m -> (forall a, nets 0 (f a)) -> nets 0 (m ≫= f).
Proof. apply (nets_bind 0 0). Qed.

Lemma nets_ops k os : (forall n, saved os n = Some (k + n)%nat) -> nets k (emit_ops os).
Proof. by intros Hos cs [] cs' ops [= <- <-]. Qed.

Lemma nets_lift {A} (r : res A) : nets 0 (lift_res r : draw A).
Proof. intros cs a cs' ops. cbn. destruct r; [|done..]. by intros [= <- <- <-] n. Qed.

Lemma nets_num {A} (e : res num) (k : num -> draw A) : (forall x, nets 0 (k x)) -> nets 0 (num_bind e k).
Proof. intros Hk. apply nets_seq; [apply nets_lift|done]. Qed.

Lemma nets_lookup name : nets 0 (lookup_color name).
Proof.
  intros cs a cs' ops. unfold lookup_color. destruct (colors_lookup name cs) as [[c cs1]| |]; [|done..].
  by intros [= <- <- <-] n.
Qed.

Lemma nets_each {S X} (f : S -> X -> draw S) l :
  (forall s x, nets 0 (f s x)) -> forall s, nets 0 (draw_each f l s).
Proof.
  intros Hf. induction l as [|x l IH]; intros s; cbn [draw_each]; [apply nets_ret|].
  by apply nets_seq.
Qed.

Create HintDb nets.
#[export] Hint Resolve nets_ret nets_lift nets_lookup : nets.
#[export] Hint Extern 2 (nets 0 (emit_ops _)) => (apply nets_ops; reflexivity) : nets.

(** Walks down a drawing that saves and restores nothing by itself. *)
Ltac nets0 := repeat first
  [ progress cbn zeta
  | progress (auto with nets)
  | apply nets_num; intros ?
  | apply nets_seq; [|intros ?]
  | apply nets_each; intros
  | match goal with
    | |- nets 0 (let '(_, _) := ?p in _) => destruct p
    | |- nets 0 (if ?b then _ else _) => destruct b
    | |- nets 0 (match ?o with _ => _ end) => destruct o
    end ].

Section grid_spec.
Context (text_extents : text -> extents).

Lemma draw_line_nets x y w h : nets 0 (emit_ops (draw_line x y w h)).
Proof. by apply nets_ops. Qed.
#[local] Hint Resolve draw_line_nets : nets.

Lemma legend_draw_nets l : nets 0 (legend_draw text_extents l).
Proof. unfold legend_draw, draw_legend. nets0. Qed.

Lemma draw_events_nets d g ev x y w h : nets 0 (draw_events d g ev x y w h).
Proof. unfold draw_events, draw_background, draw_event. nets0. Qed.

Lemma draw_ranges_nets d g r x y w h : nets 0 (draw_ranges d g r x y w h).
Proof. unfold draw_ranges, draw_background, draw_range. nets0. Qed.
#[local] Hint Resolve legend_draw_nets draw_events_nets draw_ranges_nets : nets.

Lemma draw_timeline_nets d c w s t : nets 0 (draw_timeline text_extents d c w s t).
Proof.
  unfold draw_timeline, draw_label, draw_events_row, draw_ranges_row, draw_row. nets0.
Qed.
#[local] Hint Resolve draw_timeline_nets : nets.

Lemma rd_draw_nets d : nets 0 (rd_draw text_extents d).
Proof.
  unfold rd_draw. nets0.
Qed.

Lemma scale_draw_nets s : nets 0 (scale_draw text_extents s).
Proof. unfold scale_draw, draw_tick, draw_subtick. nets0. Qed.
#[local] Hint Resolve rd_draw_nets scale_draw_nets : nets.
End grid_spec.

(** [runs n k m]: what [m] draws leads from [n] saved states to [k]. *)
Definition runs {A} (n k : nat) (m : draw A) : Prop :=
  forall cs a cs' ops, m cs = Ok (a, cs', ops) -> saved ops n = Some k.

Lemma runs_bind {A B} n k j (m : draw A) (f : A -> draw B) :
  runs n k m -> (forall a, runs k j (f a)) -> runs n j (m ≫= f).
Proof.
  intros Hm Hf cs b cs' ops. unfold mbind, draw_bind.
  destruct (m cs) as [[[a cs1] ops1]| |] eqn:E1; [|done..].
  destruct (f a cs1) as [[[b' cs2] ops2]| |] eqn:E2; [|done..]. intros [= <- <- <-].
  rewrite saved_app, (Hm _ _ _ _ E1). cbn. apply (Hf _ _ _ _ _ E2).
Qed.

Lemma runs_num {A} n k (e : res num) (f : num -> draw A) : (forall x, runs n k (f x)) -> runs n k (num_bind e f).
Proof. intros Hf. eapply runs_bind; [|done]. intros cs a cs' ops E. by eapply nets_lift. Qed.

Lemma runs_nets {A} n (m : draw A) : nets 0 m -> runs n n m.
Proof. intros Hm cs a cs' ops E. by eapply Hm. Qed.

Lemma runs_ops n k os : saved os n = Some k -> runs n k (emit_ops os).
Proof. by intros Hos cs [] cs' ops [= <- <-]. Qed.

Ltac runs := repeat first
  [ progress cbn zeta
  | apply runs_num; intros ?
  | eapply runs_bind; [apply runs_ops; reflexivity|intros ?]
  | eapply runs_bind; [apply runs_nets; solve [eauto using nets_lift, legend_draw_nets, rd_draw_nets, scale_draw_nets]|intros ?]
  | match goal with |- runs _ _ (let '(_, _) := ?p in _) => destruct p end
  | apply runs_ops; reflexivity ].

(** [GraphicRenderer.draw] never restores a state it has not saved, and it
    leaves exactly one saved state behind: its first [ctx.save()] is never
    undone. *)
Theorem gr_draw_saves text_extents g cs cs' ops :
  gr_draw text_extents g cs = Ok ((), cs', ops) -> forall n, saved ops n = Some (S n).
Proof.
  intros H n. revert H. change (emit_op ?o) with (emit_ops [o]).
  assert (runs n (S n) (gr_draw text_extents g)) as Hr; [|apply Hr].
  unfold gr_draw. change (emit_op Save) with (emit_ops [Save]). runs.
Qed.

(** *** A drawing to look at *)

Definition sample_extents (t : text) : extents := Extents 0 (-8) (6 * zlen t) 8.
Definition sample_timelines : timelines :=
  [Timeline (txt "nodes") [sample_ranges] [sample_events] []].

(** What [main] does with the data: two renderers, the whole range, a size. *)
Definition sample_graphic : res graphic :=
  g ← new_graphic 0 30;
  let g := gr_set_top_legend g (set_legends new_legend [txt "a"; txt "b"] [Color 1 0 0; Color 0 1 0]) in
  let g := gr_set_data g (set_timelines new_data_renderer sample_timelines) in
  g ← set_range sample_extents g 0 15;
  gr_layout sample_extents g 500 300.

Lemma gr_draw_saves_witness : exists g cs' ops, sample_graphic = Ok g /\
  gr_draw sample_extents g new_colors = Ok ((), cs', ops) /\ length ops = 393%nat /\
  saved ops 2 = Some 3%nat.
Proof.
  eexists _, _, _. split; [vm_compute; reflexivity|].
  match goal with |- ?A /\ _ => assert A as H by (vm_compute; reflexivity) end.
  split; [exact H|]. split; [reflexivity|]. apply (gr_draw_saves sample_extents _ _ _ _ H).
Defined.

(** ** The scale on integers *)

Lemma py_range_spec a b d : 0 < d -> exists xs, py_range a b d = Ok xs /\
  xs = ((fun i => a + Z.of_nat i * d) <$> seq 0 (length xs)) /\
  zlen xs = Z.max 0 ((b - a + d - 1) / d).
Proof.
  intros Hd. unfold py_range. rewrite (proj2 (Z.eqb_neq _ _)), (proj2 (Z.ltb_lt _ _)) by lia.
  eexists. split; [done|]. unfold zlen. rewrite length_fmap, length_seq. split; [done|lia].
Qed.

(** The decades: [closest] is the largest power of ten below the distance. *)
Lemma closest_ok (D : Z) : 0 < D -> exists k, 0 <= k /\
  loop (decades D) (closest_step D) 1 = Ok (10 ^ k) /\ D <= 10 ^ (k + 1) /\ (k = 0 \/ 10 ^ k < D).
Proof.
  intros HD.
  set (Q := fun r : res Z => exists k, 0 <= k /\ r = Ok (10 ^ k) /\ D <= 10 ^ (k + 1) /\ (k = 0 \/ 10 ^ k < D)).
  apply (loop_total (closest_step D)
    (fun c => exists k, 0 <= k /\ c = 10 ^ k /\ (k = 0 \/ 10 ^ k < D))
    (fun c => Z.to_nat (Z.log2 D + 1 - Z.log2 c)) Q).
  - intros c (k & Hk & -> & HkD). unfold closest_step. rewrite num_ltb_int.
    replace (10 ^ k * 10) with (10 ^ (k + 1)) by (rewrite Z.pow_add_r by lia; lia).
    destruct (Z.ltb_spec (10 ^ (k + 1)) D) as [Hlt|Hge]; cbn [step_ok].
    + split; [exists (k + 1); split; [lia|split; [done|by right]]|].
      assert (Z.log2 (10 ^ k) < Z.log2 (10 ^ (k + 1))); [|pose proof (Z.log2_le_mono (10 ^ (k + 1)) D); lia].
      assert (0 < 10 ^ k) by (apply Z.pow_pos_nonneg; lia).
      pose proof (Z.log2_double (10 ^ k) ltac:(lia)).
      pose proof (Z.log2_le_mono (2 * 10 ^ k) (10 ^ (k + 1))). rewrite Z.pow_add_r in * by lia. lia.
    + by exists k.
  - exists 0. auto with lia.
  - cbn. lia.
Qed.

Lemma scale_delta_int (lo hi c : Z) : loop (decades (hi - lo)) (closest_step (hi - lo)) 1 = Ok c -> c <> 0 ->
  scale_delta lo hi = Ok (PInt (if (hi - lo) / c =? 1 then c / 10 else c)).
Proof.
  intros Hl Hc. unfold scale_delta, num_bind, lift_res, lift_res_res.
  cbn [num_sub lift2 val mbind result_bind arith]. rewrite Hl.
  cbn [mbind result_bind lift2 val]. rewrite (num_div_int (hi - lo) c) by done.
  cbn [mbind result_bind]. rewrite !num_eqb_int.
  destruct (Z.eqb_spec ((hi - lo) / c) 0) as [->|]; [done|].
  destruct (_ =? 1); [by apply num_div_int|done].
Qed.

Lemma scale_delta_small (lo hi : Z) : hi <= lo -> scale_delta lo hi = Ok (PInt 1).
Proof.
  intros Hle. rewrite (scale_delta_int lo hi 1); [| |done].
  - rewrite Z.div_1_r. by rewrite (proj2 (Z.eqb_neq _ _)) by lia.
  - cbn [decades loop]. unfold closest_step. rewrite num_ltb_int.
    by rewrite (proj2 (Z.ltb_ge _ _)) by lia.
Qed.

(** The step is a power of ten: between 2 and 20 of them fit. *)
Lemma scale_delta_big (lo hi : Z) : 2 <= hi - lo ->
  exists k, 0 <= k /\ scale_delta lo hi = Ok (PInt (10 ^ k)) /\ 2 * 10 ^ k <= hi - lo < 20 * 10 ^ k.
Proof.
  intros HD. destruct (closest_ok (hi - lo) ltac:(lia)) as (k & Hk & Hl & Hup & Hlow).
  assert (0 < 10 ^ k) as Hc by (apply Z.pow_pos_nonneg; lia).
  rewrite (scale_delta_int lo hi (10 ^ k)) by (done || lia).
  rewrite Z.pow_add_r in Hup by lia.
  destruct (Z.eqb_spec ((hi - lo) / 10 ^ k) 1) as [Hq|Hq].
  - pose proof (Z.div_mod (hi - lo) (10 ^ k)). pose proof (Z.mod_pos_bound (hi - lo) (10 ^ k)).
    destruct Hlow as [->|Hlow]; [cbn in *; lia|].
    exists (k - 1). assert (k <> 0) by (intros ->; cbn in *; lia).
    assert (10 ^ k = 10 * 10 ^ (k - 1)) as Hp by (rewrite <- Z.pow_succ_r by lia; f_equal; lia).
    split; [lia|]. rewrite Hp, Z.mul_comm, Z.div_mul by done. split; [done|lia].
  - exists k. split; [done|]. split; [done|].
    pose proof (Z.div_mod (hi - lo) (10 ^ k)). pose proof (Z.mod_pos_bound (hi - lo) (10 ^ k)).
    assert (1 <= (hi - lo) / 10 ^ k); [apply Z.div_le_lower_bound; destruct Hlow as [->|]; cbn; lia|].
    nia.
Qed.

(** The multiples of [d] above [lo], up to [hi]. *)
Lemma ticks_int (lo hi d : Z) : 0 < d -> exists xs, ticks lo hi d = Ok xs /\
  xs = ((fun i => (lo / d + 1 + Z.of_nat i) * d) <$> seq 0 (length xs)) /\
  zlen xs = Z.max 0 (hi / d - lo / d).
Proof.
  intros Hd. unfold ticks, scale_ends, num_bind, lift_res, lift_res_res.
  cbn [lift2 val mbind result_bind]. rewrite !num_mod_int by lia.
  cbn [mbind result_bind num_sub num_add arith]. unfold int_of. rewrite !py_int_int.
  cbn [mbind result_bind].
  destruct (py_range_spec (lo - lo mod d + d) (hi - hi mod d + d) d Hd) as (xs & -> & Hxs & Hlen).
  exists xs. split; [done|].
  replace (lo - lo mod d + d) with ((lo / d + 1) * d) in * by (rewrite (Z.mod_eq lo d) by lia; lia).
  replace (hi - hi mod d + d) with ((hi / d + 1) * d) in * by (rewrite (Z.mod_eq hi d) by lia; lia).
  split.
  - rewrite Hxs at 1. apply list_fmap_ext. intros _ i _. lia.
  - rewrite Hlen. f_equal. symmetry.
    apply (Z.div_unique_pos _ _ _ (d - 1)); [lia|]. lia.
Qed.

Lemma seq_fmap_sorted (f : nat -> Z) i n : (forall a b, (a < b)%nat -> f a < f b) ->
  StronglySorted Z.lt (f <$> seq i n).
Proof.
  intros Hf. revert i. induction n as [|n IH]; intros i; cbn; constructor; [apply IH|].
  apply Forall_forall. intros x (j & -> & Hj%elem_of_seq)%list_elem_of_fmap. apply Hf. lia.
Qed.

(** C33: on integer bounds at least two apart, the step of the scale is a power
    of ten, and the labelled ticks are exactly the multiples of it above the
    lower bound and up to the upper one, ascending; there are at least 2 and at
    most 20 of them.  Bounds one apart give a step of 0, on which layout and
    drawing raise ZeroDivisionError; empty bounds give the step 1. *)
Theorem scale_ticks_spec (lo hi : Z) :
  (2 <= hi - lo -> exists k xs, 0 <= k /\ scale_delta lo hi = Ok (PInt (10 ^ k)) /\
     ticks lo hi (10 ^ k) = Ok xs /\ StronglySorted Z.lt xs /\
     (forall x, x ∈ xs <-> (10 ^ k | x) /\ lo < x <= hi) /\ 2 <= zlen xs <= 20) /\
  (hi - lo = 1 -> scale_delta lo hi = Ok (PInt 0) /\ ticks lo hi 0 = Raise ZeroDivisionError /\
     forall te s w, sc_bounds s = Some (PInt lo, PInt hi) -> scale_layout te s w = Raise ZeroDivisionError) /\
  (hi <= lo -> scale_delta lo hi = Ok (PInt 1)).
Proof.
  split; [|split; [|apply scale_delta_small]].
  - intros HD. destruct (scale_delta_big lo hi HD) as (k & Hk & Hd & Hbounds).
    assert (0 < 10 ^ k) as Hc by (apply Z.pow_pos_nonneg; lia).
    destruct (ticks_int lo hi (10 ^ k) Hc) as (xs & Ht & Hxs & Hlen). exists k, xs.
    pose proof (Z.div_mod lo (10 ^ k) ltac:(lia)). pose proof (Z.mod_pos_bound lo (10 ^ k) Hc).
    pose proof (Z.div_mod hi (10 ^ k) ltac:(lia)). pose proof (Z.mod_pos_bound hi (10 ^ k) Hc).
    set (d := 10 ^ k) in *. clearbody d.
    split; [done|]. split; [done|]. split; [done|]. split; [|split; [|nia]].
    + rewrite Hxs. apply seq_fmap_sorted. intros a b ?. nia.
    + intros x. rewrite Hxs, list_elem_of_fmap. setoid_rewrite elem_of_seq. unfold zlen in Hlen. split.
      * intros (i & -> & Hi). split; [by apply Z.divide_factor_r|nia].
      * intros [[q ->] Hx]. exists (Z.to_nat (q - lo / d - 1)). 
        assert (lo / d < q) by nia. assert (q <= hi / d) by nia. split; [f_equal; lia|lia].
  - intros HD. assert (scale_delta lo hi = Ok (PInt 0)) as Hd.
    { rewrite (scale_delta_int lo hi 1); [by rewrite HD|by rewrite HD|done]. }
    split; [done|]. split; [done|]. intros te s w Hb. unfold scale_layout. rewrite Hb.
    cbn [attr or_raise mbind result_bind]. by rewrite Hd.
Qed.

(** [get_position] on integers: a point between the bounds is put at the
    pixel that its share of the width rounds down to, the bounds are put at 0
    and at the width, and points keep their order. *)
Theorem get_position_spec (top : bool) (lo hi w x y : Z) (sl : scale_layout_data) :
  sl_width sl = PInt w -> 0 <= w -> lo <= x <= y -> y <= hi -> lo < hi ->
  let s := Scale top (Some (PInt lo, PInt hi)) (Some sl) in
  exists p q, get_position s (PInt x) = Ok (PInt p) /\ get_position s (PInt y) = Ok (PInt q) /\
    0 <= p <= q /\ q <= w /\
    p * (hi - lo) <= (x - lo) * w < (p + 1) * (hi - lo) /\
    (x = lo -> p = 0) /\ (y = hi -> q = w).
Proof.
  intros Hw Hw0 Hxy Hy Hlo s.
  assert (forall z, get_position s (PInt z) = Ok (PInt ((z - lo) * w / (hi - lo)))) as Hp.
  { intros z. unfold get_position, scale_x. cbn [s sc_bounds sc_layout attr or_raise mbind result_bind].
    rewrite Hw. cbn [lift2 val mbind result_bind num_sub num_mul arith]. apply num_div_int. lia. }
  exists ((x - lo) * w / (hi - lo)), ((y - lo) * w / (hi - lo)).
  split; [apply Hp|]. split; [apply Hp|].
  pose proof (Z.div_mod ((x - lo) * w) (hi - lo)). pose proof (Z.mod_pos_bound ((x - lo) * w) (hi - lo)).
  split; [split; [apply Z.div_pos; nia|apply Z.div_le_mono; nia]|].
  split; [apply Z.div_le_upper_bound; nia|]. split; [nia|].
  split; [intros ->; by rewrite Z.sub_diag|]. intros ->. rewrite Z.mul_comm. apply Z.div_mul. lia.
Qed.

Lemma get_position_spec_witness : exists p q,
  get_position (Scale false (Some (PInt 0, PInt 30)) (Some (ScaleLayout 10 500 18 8))) (PInt 7) = Ok (PInt p) /\
  get_position (Scale false (Some (PInt 0, PInt 30)) (Some (ScaleLayout 10 500 18 8))) (PInt 30) = Ok (PInt q) /\
  q = 500.
Proof.
  destruct (get_position_spec false 0 30 500 7 30 (ScaleLayout 10 500 18 8)) as (p & q & Hp & Hq & _ & _ & _ & _ & Hw);
    [reflexivity|lia..|]. exists p, q. split; [exact Hp|]. split; [exact Hq|]. apply Hw. reflexivity.
Defined.

(** ** Legends *)

(** On integer sizes, an item of the legend either fits in the rest of the
    line, directly after the items before it, or starts a new line at the
    padding, below everything on the line it leaves; so items on a line never
    overlap and never exceed the width unless the item alone does. *)
Theorem place_legend_spec (padding width lh th used tw h : Z) (xb yb : num) :
  let e := Extents xb yb (PInt tw) (PInt h) in
  let item := 3 * padding + tw in
  exists lh' th' used' x,
    place_legend (PInt padding) (PInt width) (Lines (PInt lh) (PInt th) (PInt used)) e =
      Ok (Lines (PInt lh') (PInt th') (PInt used'), PInt x) /\
    used' = x + item /\ lh' = Z.max lh (h + padding) /\
    ((x = used /\ th' = th /\ used' <= width) \/
     (x = padding /\ th' = th + lh' /\ width < used + item)).
Proof.
  intros e item. unfold place_legend, num_bind, lift_res, lift_res_res, e.
  cbn [t_width t_height ln_height ln_total ln_used lift2 val mbind result_bind num_add num_sub arith].
  rewrite !num_gtb_int.
  destruct (Z.ltb_spec lh (h + padding)), (Z.ltb_spec width (used + (padding + padding + tw + padding)));
    cbn [mbind result_bind lift2 val num_add num_sub arith];
    eexists _, _, _, _; (split; [reflexivity|]); unfold item; lia.
Qed.

(** ** Labels of events *)

(** The labels in a drawing: where the pen is moved to, and the text shown
    there. *)
Fixpoint labels (x : num) (ops : list ctx_op) : list (num * text) :=
  match ops with
  | [] => []
  | MoveTo x _ :: ops => labels x ops
  | ShowText t :: ops => (x, t) :: labels x ops
  | _ :: ops => labels x ops
  end.

(** Each position is more than two pixels after the one before. *)
Fixpoint apart (last : num) (xs : list num) : Prop :=
  match xs with
  | [] => True
  | x :: xs => (exists next, num_add last 2 = Ok next /\ num_gtb x next = true) /\ apart x xs
  end.

Lemma draw_event_ok mth start end_ x y width last e cs last' cs' ops :
  draw_event mth start end_ x y width last e cs = Ok (last', cs', ops) ->
  cs' = cs /\ exists p next, to_pixel x (ev_at e) start end_ width = Ok p /\ num_add last 2 = Ok next /\
  if num_gtb p next
  then last' = p /\ exists ty, ops = [Rectangle p y 1 1; SetSourceRgb 1 0 0; Stroke; MoveTo p ty;
         SetSourceRgb 0 0 0; ShowText (show_value (ev_value e))]
  else last' = last /\ ops = [].
Proof.
  unfold draw_event, num_bind, lift_res, lift_res_draw, mbind, draw_bind.
  destruct (to_pixel x (ev_at e) start end_ width) as [p| |]; cbn [mbind result_bind]; [|done..].
  cbn [lift2 val mbind result_bind]. destruct (num_add last 2) as [next| |]; cbn [mbind result_bind]; [|done..].
  destruct (num_gtb p next) eqn:Eg; [|intros [= <- <- <-]; split; [done|]; exists p, next; by rewrite Eg].
  cbn [lift2 val mbind result_bind]. destruct (num_add y mth) as [ty| |]; cbn [mbind result_bind]; [|done..].
  intros [= <- <- <-]. split; [done|]. exists p, next. rewrite Eg. eauto 6.
Qed.

(** The labels of the events of a row, in the order of the events: each is
    the value of an event at the pixel of its time, they are more than two
    pixels apart, and an event without a label is at most two pixels after a
    label (or after the left end). *)
Theorem draw_events_labels mth start end_ x y width events last cs last' cs' ops :
  draw_each (draw_event mth start end_ x y width) events last cs = Ok (last', cs', ops) ->
  exists drawn, sublist drawn events /\
    (labels last ops).*2 = (fun e => show_value (ev_value e)) <$> drawn /\
    Forall2 (fun p e => to_pixel x (ev_at e) start end_ width = Ok p) (labels last ops).*1 drawn /\
    apart last (labels last ops).*1 /\
    (forall e, e ∈ events -> e ∈ drawn \/ exists p near next,
       to_pixel x (ev_at e) start end_ width = Ok p /\ near ∈ last :: (labels last ops).*1 /\
       num_add near 2 = Ok next /\ num_gtb p next = false).
Proof.
  revert last cs ops. induction events as [|e events IH]; intros last cs ops.
  - intros [= <- <- <-]. exists []. cbn. split; [done|]. split; [done|]. split; [constructor|]. split; [done|].
    intros e He. by apply not_elem_of_nil in He.
  - cbn [draw_each]. unfold mbind, draw_bind.
    destruct (draw_event _ _ _ _ _ _ last e cs) as [[[last1 cs1] ops1]| |] eqn:E1; [|done..].
    destruct (draw_each _ events last1 cs1) as [[[last2 cs2] ops2]| |] eqn:E2; [|done..].
    intros [= <- <- <-]. destruct (IH _ _ _ E2) as (drawn & Hsub & Htxt & Hpix & Hap & Hall).
    destruct (draw_event_ok _ _ _ _ _ _ _ _ _ _ _ _ E1) as (-> & p & next & Hp & Hn & Hcase).
    destruct (num_gtb p next) eqn:Eg.
    + destruct Hcase as (-> & ty & ->). exists (e :: drawn). cbn [labels app fmap list_fmap fst snd].
      split; [by constructor|]. split; [by f_equal|]. split; [by constructor|].
      split; [split; [by exists next|done]|].
      intros e' [->|He]%elem_of_cons; [by left; left|].
      destruct (Hall e' He) as [?|(q & near & nx & ? & ? & ?)]; [by left; right|].
      right. exists q, near, nx. split; [done|]. split; [by right|done].
    + destruct Hcase as [-> ->]. cbn [app]. exists drawn.
      split; [by constructor|]. split; [done|]. split; [done|]. split; [done|].
      intros e' [->|He]%elem_of_cons; [|by apply Hall].
      right. exists p, last, next. split; [done|]. split; [left|]. done.
Qed.

Lemma draw_events_labels_witness : exists last' cs' ops drawn,
  draw_each (draw_event 8 0 20 0 0 10) [Event 1 (EvStr (txt "a")); Event 8 (EvStr (txt "b"));
    Event 9 (EvStr (txt "c")); Event 16 (EvInt 3)] (-1) new_colors = Ok (last', cs', ops) /\
  (labels (-1) ops).*2 = [txt "b"; txt "3"] /\
  sublist drawn [Event 1 (EvStr (txt "a")); Event 8 (EvStr (txt "b"));
    Event 9 (EvStr (txt "c")); Event 16 (EvInt 3)].
Proof.
  eexists _, _, _.
  match goal with |- exists d, ?E /\ _ => assert E as H by (vm_compute; reflexivity) end.
  destruct (draw_events_labels _ _ _ _ _ _ _ _ _ _ _ _ H) as (drawn & Hs & _).
  exists drawn. split; [exact H|]. split; [vm_compute; reflexivity|exact Hs].
Defined.

(** ** Drawing reads only what has been set *)

(** A call that ends, and not by reading an attribute that was never set. *)
Definition safe {A} (r : res A) : Prop :=
  match r with Ok _ => True | Raise e => e <> AttributeError | NoFuel => False end.
Definition draw_safe {A} (m : draw A) : Prop := forall cs, safe (m cs).

Lemma safe_bind {A B} (r : res A) (f : A -> res B) : safe r -> (forall a, safe (f a)) -> safe (r ≫= f).
Proof. destruct r; cbn; auto. Qed.

Lemma draw_safe_bind {A B} (m : draw A) (f : A -> draw B) :
  draw_safe m -> (forall a, draw_safe (f a)) -> draw_safe (m ≫= f).
Proof.
  intros Hm Hf cs. specialize (Hm cs). unfold mbind, draw_bind.
  destruct (m cs) as [[[a cs1] ops]| |]; [|done..].
  specialize (Hf a cs1). by destruct (f a cs1) as [[[b cs2] ops2]| |].
Qed.

Lemma draw_safe_ret {A} (a : A) : draw_safe (mret a).
Proof. done. Qed.
Lemma draw_safe_ops os : draw_safe (emit_ops os).
Proof. done. Qed.
Lemma draw_safe_op o : draw_safe (emit_op o).
Proof. done. Qed.
Lemma draw_safe_lift {A} (r : res A) : safe r -> draw_safe (lift_res r : draw A).
Proof. intros Hr cs. by destruct r. Qed.
Lemma draw_safe_num {A} (e : res num) (k : num -> draw A) :
  safe e -> (forall x, draw_safe (k x)) -> draw_safe (num_bind e k).
Proof. intros He Hk. apply draw_safe_bind; [by apply draw_safe_lift|done]. Qed.
Lemma safe_num {A} (e : res num) (k : num -> res A) :
  safe e -> (forall x, safe (k x)) -> safe (num_bind e k).
Proof. apply safe_bind. Qed.

Lemma draw_safe_lookup name : draw_safe (lookup_color name).
Proof.
  intros cs. unfold lookup_color, colors_lookup.
  destruct (cs_colors cs !! name); [done|]. by destruct (reverse (cs_default cs)).
Qed.

Lemma draw_safe_each {S X} (f : S -> X -> draw S) l :
  (forall s x, draw_safe (f s x)) -> forall s, draw_safe (draw_each f l s).
Proof.
  intros Hf. induction l as [|x l IH]; intros s; cbn [draw_each]; [done|]. by apply draw_safe_bind.
Qed.

(** Arithmetic. *)
Lemma safe_to_float x : safe (to_float x).
Proof. destruct x as [z|]; [|done]. cbn. unfold float_of_Z. by case_match. Qed.

Lemma safe_arith fi ff x y :
  (forall a b, safe (fi a b)) -> (forall a b, safe (ff a b)) -> safe (arith fi ff x y).
Proof.
  intros Hi Hf. destruct x, y; [apply Hi|..]; (apply safe_bind; [apply safe_to_float|intros ?]);
    (apply safe_bind; [apply safe_to_float|intros ?]); apply Hf.
Qed.

Lemma safe_add x y : safe (num_add x y).
Proof. by apply safe_arith. Qed.
Lemma safe_sub x y : safe (num_sub x y).
Proof. by apply safe_arith. Qed.
Lemma safe_mul x y : safe (num_mul x y).
Proof. by apply safe_arith. Qed.
Lemma safe_div x y : safe (num_div x y).
Proof. apply safe_arith; intros a b; [by destruct (b =? 0)|by destruct b]. Qed.
Lemma safe_mod x y : safe (num_mod x y).
Proof.
  apply safe_arith; intros a b; [by destruct (b =? 0)|]. unfold float_rem.
  destruct b; try done; destruct (fmod _ _); try done; by destruct (Bool.eqb _ _).
Qed.

Lemma safe_lift2 f a b : (forall x y, safe (f x y)) -> safe a -> safe b -> safe (lift2 f a b).
Proof. intros Hf Ha Hb. apply safe_bind; [done|intros x]. apply safe_bind; [done|intros y]. apply Hf. Qed.

Lemma safe_py_int x : safe (py_int x).
Proof. unfold py_int. by destruct (num_value x). Qed.

Lemma safe_int_of x : safe (int_of x).
Proof. apply safe_bind; [apply safe_py_int|]. by intros []. Qed.

Lemma safe_py_range a b d : safe (py_range a b d).
Proof. unfold py_range. by destruct (d =? 0). Qed.

Lemma safe_py_get {A} (l : list A) i : safe (py_get l i).
Proof. unfold py_get. repeat case_match; try done; by destruct (l !! _). Qed.

(** The searches terminate. *)
Lemma safe_range_search t key : safe (range_search t key).
Proof. by destruct (range_search_ok False t key) as [(n & x & -> & _)|[-> _]]. Qed.

Lemma safe_event_search t key : safe (event_search t key).
Proof.
  unfold event_search.
  apply (loop_total (event_search_step (te_events t) key)
    (fun s => 0 <= s.1 /\ s.2 < zlen (te_events t) /\ s.1 <= s.2 + 1)
    (fun s => Z.to_nat (s.2 + 1 - s.1)) safe); [|cbn; unfold zlen; lia..].
  intros [l u] (Hl & Hu & Hlu). cbn [fst snd] in *. unfold event_search_step.
  destruct (Z.leb_spec l u) as [Hle|]; [|done].
  pose proof (half_between l u Hl Hle) as Hi. set (i := (l + u) / 2) in *. clearbody i.
  destruct (lookup_lt_is_Some_2 (te_events t) (Z.to_nat i)) as [e Hr]; [unfold zlen in Hu; lia|].
  rewrite <- (Z2Nat.id i) by lia. rewrite py_get_nat, Hr. cbn [or_raise mbind result_bind].
  destruct (num_eqb key (ev_at e)); [done|].
  destruct (num_ltb key (ev_at e)); cbn [step_ok fst snd]; lia.
Qed.

(** Reading an attribute that has been set. *)
Lemma draw_safe_attr {A B} (o : option A) a (f : A -> draw B) :
  o = Some a -> draw_safe (f a) -> draw_safe (lift_res (attr o) ≫= f).
Proof. intros -> Hf cs. specialize (Hf cs). unfold safe, attr, or_raise, lift_res, lift_res_draw, mbind, draw_bind, result_bind in *.
  destruct (f a cs) as [[[b cs'] ops]| |]; done. Qed.

Lemma safe_attr {A} (o : option A) a : o = Some a -> safe (attr o).
Proof. by intros ->. Qed.

Lemma safe_attr_bind {A B} (o : option A) a (f : A -> res B) :
  o = Some a -> safe (f a) -> safe (attr o ≫= f).
Proof. by intros ->. Qed.

Lemma safe_fmap {A B} (f : A -> B) (r : res A) : safe r -> safe (f <$> r).
Proof. by destruct r. Qed.

Create HintDb safe.
#[export] Hint Resolve draw_safe_ret draw_safe_ops draw_safe_op draw_safe_lookup safe_add safe_sub safe_mul
  safe_div safe_mod safe_py_int safe_int_of safe_py_range safe_py_get safe_range_search safe_event_search : safe.

(** Walks down a computation, from bind to bind. *)
Ltac safe := repeat first
  [ progress cbn zeta
  | assumption
  | exact I
  | match goal with |- safe (val _) => exact I | |- safe (Ok _) => exact I
      | |- safe (mret _) => exact I
      | H : ?o = Some ?a |- draw_safe (lift_res (attr ?o) ≫= _) => apply (draw_safe_attr _ _ _ H)
      | H : ?o = Some ?a |- safe (attr ?o ≫= _) => apply (safe_attr_bind _ _ _ H)
      | H : ?o = Some ?a |- safe (attr ?o) => apply (safe_attr _ _ H)
      | |- safe (_ <$> _) => apply safe_fmap
      | |- draw_safe (lift_res _) => apply draw_safe_lift end
  | solve [eauto with safe nocore]
  | match goal with
    | |- draw_safe (num_bind _ _) => apply draw_safe_num; [|intros ?]
    | |- safe (num_bind _ _) => apply safe_num; [|intros ?]
    | |- safe (lift2 _ _ _) => apply safe_lift2; [intros ? ?|..]
    | |- draw_safe (draw_each _ _ _) => apply draw_safe_each; intros
    | |- draw_safe (_ ≫= _) => apply draw_safe_bind; [|intros ?]
    end
  | match goal with
    | |- safe (_ ≫= _) => apply safe_bind; [|intros ?]
    | |- safe (let '(_, _) := ?p in _) => destruct p
    | |- draw_safe (let '(_, _) := ?p in _) => destruct p
    | |- safe (if ?b then _ else _) => destruct b
    | |- draw_safe (if ?b then _ else _) => destruct b
    end ].

(** What drawing reads; [set_range] and [layout] set all of it. *)
Definition legend_ready (l : legend) : Prop :=
  is_Some (lg_legends l) /\ is_Some (lg_width l) /\ is_Some (lg_height l).
Definition renderer_ready (d : data_renderer) : Prop :=
  is_Some (rd_timelines d) /\ is_Some (rd_range d) /\ is_Some (rd_sizes d).
Definition scale_ready (s : scale) : Prop := is_Some (sc_bounds s) /\ is_Some (sc_layout s).
Definition ready (g : graphic) : Prop :=
  (exists l, gr_top_legend g = Some l /\ legend_ready l) /\
  (exists d, gr_data g = Some d /\ renderer_ready d) /\
  scale_ready (gr_mid_scale g) /\ scale_ready (gr_bot_scale g) /\ is_Some (gr_range g).

Section safe.
Context (te : text -> extents).

Lemma legend_draw_safe l : legend_ready l -> draw_safe (legend_draw te l).
Proof.
  intros ([[legends cs] Hl] & [w Hw] & _). unfold legend_draw, draw_legend, place_legend.
  rewrite Hl, Hw. safe.
Qed.

Lemma draw_events_safe d g ev x y w h :
  is_Some (rd_range d) -> is_Some (rd_sizes d) -> draw_safe (draw_events d g ev x y w h).
Proof.
  intros [[a b] Hr] [sz Hs]. unfold draw_events, draw_background, draw_event, to_pixel, get_events_bounds.
  rewrite Hr, Hs. safe. 
Qed.

Lemma draw_ranges_safe d g r x y w h : is_Some (rd_range d) -> draw_safe (draw_ranges d g r x y w h).
Proof.
  intros [[a b] Hr]. unfold draw_ranges, draw_background, draw_range, to_pixel, get_ranges_bounds.
  rewrite Hr. safe.
Qed.

Lemma draw_row_safe d c name body step cur_y : (forall y, draw_safe (body y)) -> safe step ->
  draw_safe (draw_row te d c name body step cur_y).
Proof. intros Hb Hs. unfold draw_row, draw_label. safe. Qed.

Lemma draw_timeline_safe d c w s t :
  is_Some (rd_range d) -> is_Some (rd_sizes d) -> draw_safe (draw_timeline te d c w s t).
Proof.
  intros Hr Hs. unfold draw_timeline, draw_label, draw_events_row, draw_ranges_row.
  safe; (apply draw_row_safe; [intros ?|]; safe; by (apply draw_events_safe || apply draw_ranges_safe)).
Qed.

Lemma rd_draw_safe d : renderer_ready d -> draw_safe (rd_draw te d).
Proof.
  intros ([ts Ht] & Hr & [sz Hs]). unfold rd_draw. rewrite Hs, Ht. safe.
  apply draw_timeline_safe; [done|by rewrite Hs].
Qed.

Lemma scale_draw_safe s : scale_ready s -> draw_safe (scale_draw te s).
Proof.
  intros [[[lo hi] Hb] [sl Hl]]. unfold scale_draw, draw_tick, draw_subtick, ticks, scale_ends, scale_x.
  rewrite Hb, Hl. safe.
Qed.

Lemma legend_layout_ready l w l' : legend_layout te l w = Ok l' -> legend_ready l'.
Proof.
  unfold legend_layout. intros H. inv_bind H. destruct a as [legends cs]. inv_bind H. inv_bind H.
  injection H as <-. unfold legend_ready. cbn. split; [|by eauto].
  destruct (lg_legends l); [by eauto|done].
Qed.

Lemma rd_layout_frame d w d' : rd_layout te d w = Ok d' ->
  rd_timelines d' = rd_timelines d /\ rd_range d' = rd_range d /\
  is_Some (rd_timelines d') /\ is_Some (rd_sizes d').
Proof.
  unfold rd_layout. intros H. inv_bind H. do 5 inv_bind H. injection H as <-. cbn.
  destruct (rd_timelines d); [by eauto|done].
Qed.

Lemma scale_layout_frame s w s' : scale_layout te s w = Ok s' ->
  sc_bounds s' = sc_bounds s /\ sc_top s' = sc_top s /\ scale_ready s'.
Proof.
  unfold scale_layout. intros H. inv_bind H. destruct a as [lo hi]. do 3 inv_bind H. injection H as <-.
  unfold scale_ready. cbn. destruct (sc_bounds s); [by eauto|done].
Qed.

(** [layout] changes the sizes and nothing else, and sets all of them. *)
Lemma gr_layout_frame g w h g' : gr_layout te g w h = Ok g' ->
  gr_start g' = gr_start g /\ gr_end g' = gr_end g /\ gr_width g' = w /\ gr_height g' = h /\
  gr_range g' = gr_range g /\ sc_bounds (gr_mid_scale g') = sc_bounds (gr_mid_scale g) /\
  scale_ready (gr_mid_scale g') /\ scale_ready (gr_bot_scale g') /\
  (exists l, gr_top_legend g' = Some l /\ legend_ready l) /\
  (exists d d', gr_data g = Some d /\ gr_data g' = Some d' /\ rd_range d' = rd_range d /\
     is_Some (rd_timelines d') /\ is_Some (rd_sizes d')).
Proof.
  unfold gr_layout. intros H. do 9 inv_bind H. injection H as <-. cbn.
  repeat match goal with
  | H : legend_layout _ _ _ = Ok _ |- _ => apply legend_layout_ready in H
  | H : rd_layout _ _ _ = Ok _ |- _ => apply rd_layout_frame in H as (? & ? & ? & ?)
  | H : scale_layout _ _ _ = Ok _ |- _ => apply scale_layout_frame in H as (? & ? & ?)
  end.
  destruct (gr_data g) as [d|]; [|done]. simplify_eq/=. eauto 20.
Qed.

(** What is drawn stays the same. *)
Lemma gr_layout_content g w h g' : gr_layout te g w h = Ok g' -> exists l0 l d0 d,
  gr_top_legend g = Some l0 /\ gr_top_legend g' = Some l /\ lg_legends l = lg_legends l0 /\
  gr_data g = Some d0 /\ gr_data g' = Some d /\ rd_timelines d = rd_timelines d0.
Proof.
  unfold gr_layout. intros H. apply bind_ok in H as (l0 & Hl0 & H). apply bind_ok in H as (l & Hl & H).
  apply bind_ok in H as (? & _ & H). apply bind_ok in H as (d0 & Hd0 & H). apply bind_ok in H as (d & Hd & H).
  do 4 inv_bind H. injection H as <-. apply rd_layout_frame in Hd as (Hd & _). cbn.
  destruct (gr_top_legend g), (gr_data g); cbn in Hl0, Hd0; simplify_eq.
  exists l0, l, d0, d. split; [done|]. split; [done|]. split; [|done].
  unfold legend_layout in Hl.
  apply bind_ok in Hl as ([ls cs] & Hls & Hl).
  do 2 inv_bind Hl. by injection Hl as <-.
Qed.

Lemma set_range_content g a b g' : set_range te g a b = Ok g' -> exists l0 l d0 d,
  gr_top_legend g = Some l0 /\ gr_top_legend g' = Some l /\ lg_legends l = lg_legends l0 /\
  gr_data g = Some d0 /\ gr_data g' = Some d /\ rd_timelines d = rd_timelines d0.
Proof.
  unfold set_range. intros H. apply bind_ok in H as (d0 & Hd0 & H).
  apply gr_layout_content in H as (l0 & l & d1 & d & H1 & H2 & H3 & H4 & H5 & H6). cbn in *.
  destruct (gr_data g); cbn in Hd0; simplify_eq/=. exists l0, l. eexists _, d. eauto 10.
Qed.

Lemma set_range_frame g a b g' : set_range te g a b = Ok g' ->
  let r := Some (num_max (gr_start g) (num_min a b), num_min (gr_end g) (num_max a b)) in
  gr_start g' = gr_start g /\ gr_end g' = gr_end g /\
  gr_width g' = gr_width g /\ gr_height g' = gr_height g /\
  gr_range g' = r /\ sc_bounds (gr_mid_scale g') = r /\
  (exists d, gr_data g' = Some d /\ rd_range d = r) /\ ready g'.
Proof.
  unfold set_range. cbn zeta. intros H. inv_bind H.
  apply gr_layout_frame in H. cbn in H.
  destruct H as (-> & -> & -> & -> & Hr & Hm & Hmid & Hbot & Hl & d & d' & [= <-] & Hd' & Hrd & Ht & Hs).
  cbn in Hrd. repeat (split; [done|]). split; [by exists d'|].
  split; [done|]. split; [exists d'; unfold renderer_ready; rewrite Hrd; eauto|].
  split; [done|]. split; [done|]. by rewrite Hr.
Qed.

Lemma layout_ready g w h g' : gr_layout te g w h = Ok g' -> ready g -> ready g'.
Proof.
  intros H (_ & (d0 & Hd0 & Hready) & _ & _ & Hrange). apply gr_layout_frame in H.
  destruct H as (_ & _ & _ & _ & Hr & _ & Hmid & Hbot & Hl & d & d' & Hd & Hd' & Hrd & Ht & Hs).
  split; [done|]. split; [|rewrite Hr; done]. exists d'. split; [done|].
  rewrite Hd in Hd0. injection Hd0 as <-. destruct Hready as (_ & Hrr & _).
  unfold renderer_ready. by rewrite Hrd.
Qed.

Lemma gr_draw_safe g : ready g -> draw_safe (gr_draw te g).
Proof.
  intros ((l & Hl & Hlr) & (d & Hd & Hdr) & Hm & Hb & [[rs re] Hr]).
  pose proof (legend_draw_safe l Hlr) as Hld. pose proof (rd_draw_safe d Hdr) as Hrd.
  pose proof (scale_draw_safe _ Hm) as Hmd. pose proof (scale_draw_safe _ Hb) as Hbd.
  destruct Hlr as (_ & _ & [lh Hlh]). destruct Hdr as (_ & _ & [sz Hsz]).
  destruct Hm as [_ [msl Hmsl]]. destruct Hb as [[[lo hi] Hbb] [bsl Hbsl]].
  unfold gr_draw, legend_get_height, get_data_x_start, rd_get_height, scale_get_height, get_position, scale_x.
  safe.
Qed.
End safe.

(** C19: once [set_range] has succeeded, and after any later [layout], drawing
    always ends and never reads an attribute that has not been set. *)
Theorem draw_after_set_range te g a b g1 :
  set_range te g a b = Ok g1 ->
  draw_safe (gr_draw te g1) /\
  (forall w h g2, gr_layout te g1 w h = Ok g2 -> draw_safe (gr_draw te g2)).
Proof.
  intros (_ & _ & _ & _ & _ & _ & _ & Hready)%set_range_frame.
  split; [by apply gr_draw_safe|]. intros w h g2 Hg2. apply gr_draw_safe. by eapply layout_ready.
Qed.

Lemma draw_after_set_range_witness : exists g g1,
  set_range sample_extents g (PInt 0) (PInt 15) = Ok g1 /\ draw_safe (gr_draw sample_extents g1).
Proof.
  eexists (Graphic 0 30 (set_top new_scale) (set_bot (set_bounds new_scale 0 30)) 1 1 None
    (Some (set_timelines new_data_renderer sample_timelines))
    (Some (set_legends new_legend [txt "a"] [Color 1 0 0]))), _.
  match goal with |- ?A /\ _ => assert A as H by (vm_compute; reflexivity) end.
  split; [exact H|]. exact (proj1 (draw_after_set_range _ _ _ _ _ H)).
Defined.

(** ** The selected range *)

Lemma num_max_nan a b : is_nan a = false -> is_nan b = false -> is_nan (num_max a b) = false.
Proof. intros Ha Hb. destruct (num_max_spec a b Ha Hb) as [[-> | ->] _]; done. Qed.
Lemma num_min_nan a b : is_nan a = false -> is_nan b = false -> is_nan (num_min a b) = false.
Proof. intros Ha Hb. destruct (num_min_spec a b Ha Hb) as [[-> | ->] _]; done. Qed.

Lemma num_max_lub a b x : is_nan a = false -> is_nan b = false ->
  num_leb (num_max a b) x = true <-> num_leb a x = true /\ num_leb b x = true.
Proof.
  intros Ha Hb. destruct (num_max_spec a b Ha Hb) as (Hor & H1 & H2). split.
  - intros Hx. split; by eapply num_leb_trans.
  - intros [? ?]. by destruct Hor as [-> | ->].
Qed.
Lemma num_min_glb a b x : is_nan a = false -> is_nan b = false ->
  num_leb x (num_min a b) = true <-> num_leb x a = true /\ num_leb x b = true.
Proof.
  intros Ha Hb. destruct (num_min_spec a b Ha Hb) as (Hor & H1 & H2). split.
  - intros Hx. split; by eapply num_leb_trans.
  - intros [? ?]. by destruct Hor as [-> | ->].
Qed.

(** [set_range] selects the part of the graphic between the two points
    given, in either order; the range, the scale below the data and the data
    agree on it; and the range is not empty exactly when the points are not
    both on one side of the graphic (otherwise its ends are inverted). *)
Theorem set_range_spec te g a b g' :
  is_nan (gr_start g) = false -> is_nan (gr_end g) = false -> is_nan a = false -> is_nan b = false ->
  num_leb (gr_start g) (gr_end g) = true ->
  set_range te g a b = Ok g' ->
  exists s e, gr_range g' = Some (s, e) /\ sc_bounds (gr_mid_scale g') = Some (s, e) /\
    (exists d, gr_data g' = Some d /\ rd_range d = Some (s, e)) /\
    (forall x, num_leb s x = true <-> num_leb (gr_start g) x = true /\ (num_leb a x = true \/ num_leb b x = true)) /\
    (forall x, num_leb x e = true <-> num_leb x (gr_end g) = true /\ (num_leb x a = true \/ num_leb x b = true)) /\
    (num_leb s e = true <->
       (num_leb a (gr_end g) = true \/ num_leb b (gr_end g) = true) /\
       (num_leb (gr_start g) a = true \/ num_leb (gr_start g) b = true)).
Proof.
  intros Hns Hne Hna Hnb Hse Hset. apply set_range_frame in Hset.
  destruct Hset as (_ & _ & _ & _ & Hr & Hm & Hd & _).
  eexists _, _. split; [exact Hr|]. split; [exact Hm|]. split; [exact Hd|].
  pose proof (num_min_nan a b Hna Hnb) as Hmin. pose proof (num_max_nan a b Hna Hnb) as Hmax.
  assert (forall x, num_leb (num_min a b) x = true <-> num_leb a x = true \/ num_leb b x = true) as Hlo.
  { intros x. destruct (num_min_spec a b Hna Hnb) as (Hor & H1 & H2). split.
    - destruct Hor as [-> | ->]; auto.
    - intros [?|?]; [by apply (num_leb_trans _ a)|by apply (num_leb_trans _ b)]. }
  assert (forall x, num_leb x (num_max a b) = true <-> num_leb x a = true \/ num_leb x b = true) as Hhi.
  { intros x. destruct (num_max_spec a b Hna Hnb) as (Hor & H1 & H2). split.
    - destruct Hor as [-> | ->]; auto.
    - intros [?|?]; [by apply (num_leb_trans _ a)|by apply (num_leb_trans _ b)]. }
  split; [intros x; by rewrite num_max_lub, Hlo|]. split; [intros x; by rewrite num_min_glb, Hhi|].
  rewrite num_max_lub, !num_min_glb, Hlo, Hhi by done.
  assert (num_leb (num_min a b) (num_max a b) = true).
  { apply Hhi. left. by destruct (num_min_spec a b Hna Hnb) as (_ & ? & _). }
  naive_solver.
Qed.

Lemma set_range_spec_witness : exists g g' s e,
  set_range sample_extents g (PInt 20) (PInt (-3)) = Ok g' /\ gr_range g' = Some (s, e) /\ num_leb s e = true.
Proof.
  eexists (Graphic 0 30 (set_top new_scale) (set_bot (set_bounds new_scale 0 30)) 1 1 None
    (Some (set_timelines new_data_renderer sample_timelines))
    (Some (set_legends new_legend [txt "a"] [Color 1 0 0]))), _.
  match goal with |- exists s e, ?A /\ _ => assert A as H by (vm_compute; reflexivity) end.
  pose proof (fun a b c d e => set_range_spec _ _ _ _ _ a b c d e H) as Hspec.
  destruct (Hspec eq_refl eq_refl eq_refl eq_refl eq_refl) as (s & e & Hr & _ & _ & _ & _ & Hle).
  exists s, e. split; [exact H|]. split; [exact Hr|]. apply Hle. split; left; reflexivity.
Defined.
