(* ===== verification/GridGtk.v ===== *)
(** * The window of [utils/grid.py]: [GtkGraphicRenderer] and [main].

    GTK calls a handler per event; the handlers change the flags of the drag in
    progress and the range shown.  A handler that raises ends the run of the
    model (PyGTK prints the exception and goes on).  What a handler asks of GTK
    is a log of requests. *)
From S2P Require Import Prelude PyNum PyString PyDict Timeline GridRender GridSpec.
#[local] Open Scope Z_scope.

(** ** State *)

Inductive request :=
| QueueDraw
| QueueDrawArea (x y width height : num)
| SetCursor (c : option text)
| WritePng (width height : num) (filename : text)  (* a new, empty surface *)
| PaintWindow (ops : list ctx_op).

(** The buffer: its size and what has been drawn on it. *)
Record surface := Surface { sf_width : num; sf_height : num; sf_ops : list ctx_op }.

(** A flag is a number because [motion_notify] assigns one to
    [__moving_right]; the attributes that the initializer leaves unset are
    options. *)
Record gui := Gui {
  g_data : graphic;
  g_colors : colors;
  g_left : bool;
  g_right : num;
  g_both : bool;
  g_top : bool;
  g_full_redraw : bool;
  g_left_cur : option num;
  g_right_cur : option num;
  g_both_drag : option (num * num);  (* start, cur *)
  g_top_drag : option (num * num);   (* start, cur *)
  g_width : option num;
  g_height : option num;
  g_buffer : option surface;
  g_log : list request
}.

Definition new_gui (data : graphic) (cs : colors) : gui :=
  Gui data cs false 0 false false true None None None None None None None [].

(** Assignments to one attribute. *)
Definition with_data (g : gui) (d : graphic) : gui :=
  Gui d (g_colors g) (g_left g) (g_right g) (g_both g) (g_top g) (g_full_redraw g) (g_left_cur g)
    (g_right_cur g) (g_both_drag g) (g_top_drag g) (g_width g) (g_height g) (g_buffer g) (g_log g).
Definition with_left (g : gui) (b : bool) : gui :=
  Gui (g_data g) (g_colors g) b (g_right g) (g_both g) (g_top g) (g_full_redraw g) (g_left_cur g)
    (g_right_cur g) (g_both_drag g) (g_top_drag g) (g_width g) (g_height g) (g_buffer g) (g_log g).
Definition with_right (g : gui) (n : num) : gui :=
  Gui (g_data g) (g_colors g) (g_left g) n (g_both g) (g_top g) (g_full_redraw g) (g_left_cur g)
    (g_right_cur g) (g_both_drag g) (g_top_drag g) (g_width g) (g_height g) (g_buffer g) (g_log g).
Definition with_both (g : gui) (b : bool) (d : option (num * num)) : gui :=
  Gui (g_data g) (g_colors g) (g_left g) (g_right g) b (g_top g) (g_full_redraw g) (g_left_cur g)
    (g_right_cur g) d (g_top_drag g) (g_width g) (g_height g) (g_buffer g) (g_log g).
Definition with_top (g : gui) (b : bool) (d : option (num * num)) : gui :=
  Gui (g_data g) (g_colors g) (g_left g) (g_right g) (g_both g) b (g_full_redraw g) (g_left_cur g)
    (g_right_cur g) (g_both_drag g) d (g_width g) (g_height g) (g_buffer g) (g_log g).
Definition with_left_cur (g : gui) (x : num) : gui :=
  Gui (g_data g) (g_colors g) (g_left g) (g_right g) (g_both g) (g_top g) (g_full_redraw g) (Some x)
    (g_right_cur g) (g_both_drag g) (g_top_drag g) (g_width g) (g_height g) (g_buffer g) (g_log g).
Definition with_right_cur (g : gui) (x : num) : gui :=
  Gui (g_data g) (g_colors g) (g_left g) (g_right g) (g_both g) (g_top g) (g_full_redraw g) (g_left_cur g)
    (Some x) (g_both_drag g) (g_top_drag g) (g_width g) (g_height g) (g_buffer g) (g_log g).
Definition with_size (g : gui) (w h : num) : gui :=
  Gui (g_data g) (g_colors g) (g_left g) (g_right g) (g_both g) (g_top g) (g_full_redraw g) (g_left_cur g)
    (g_right_cur g) (g_both_drag g) (g_top_drag g) (Some w) (Some h) (g_buffer g) (g_log g).
Definition with_full_redraw (g : gui) (b : bool) : gui :=
  Gui (g_data g) (g_colors g) (g_left g) (g_right g) (g_both g) (g_top g) b (g_left_cur g)
    (g_right_cur g) (g_both_drag g) (g_top_drag g) (g_width g) (g_height g) (g_buffer g) (g_log g).
(** Drawing on the buffer may give colours to values. *)
Definition with_drawing (g : gui) (s : surface) (cs : colors) : gui :=
  Gui (g_data g) cs (g_left g) (g_right g) (g_both g) (g_top g) (g_full_redraw g) (g_left_cur g)
    (g_right_cur g) (g_both_drag g) (g_top_drag g) (g_width g) (g_height g) (Some s) (g_log g).
Definition ask (g : gui) (r : request) : gui :=
  Gui (g_data g) (g_colors g) (g_left g) (g_right g) (g_both g) (g_top g) (g_full_redraw g) (g_left_cur g)
    (g_right_cur g) (g_both_drag g) (g_top_drag g) (g_width g) (g_height g) (g_buffer g) (g_log g ++ [r]).

(** [self.__force_full_redraw = True; self.queue_draw()] *)
Definition redraw (g : gui) : gui := ask (with_full_redraw g true) QueueDraw.

(** [p > lo and p < lo + len] *)
Definition inside (p lo len : num) : res bool :=
  if (p >? lo)%num then hi ::= val lo .+ len;; Ok (p <? hi)%num else Ok false.

(** [abs(p - x) < 5] *)
Definition near (p x : num) : res bool := d ::= val p .- x;; Ok (num_abs d <? 5)%num.

(** [a or b], [b] evaluated only if needed. *)
Definition py_or (a b : res bool) : res bool := a ← a; if a : bool then Ok true else b.

Section gtk.
Context (text_extents : text -> extents).

(** [self.__data.set_range(start, end)] and the redraw that follows it. *)
Definition change_range (g : gui) (start end_ : num) : res gui :=
  d ← set_range text_extents (g_data g) start end_; Ok (redraw (with_data g d)).

(** ** Handlers *)

Definition set_smaller_zoom (g : gui) : res gui :=
  '(start, end_) ← gr_get_range (g_data g);
  e ::= val start .+ (val end_ .- val start) .* 2;;
  change_range g start e.

Definition set_bigger_zoom (g : gui) : res gui :=
  '(start, end_) ← gr_get_range (g_data g);
  e ::= val start .+ (val end_ .- val start) ./ 2;;
  change_range g start e.

(** Draws the graphic on the buffer, which already has drawings on it. *)
Definition draw_on (g : gui) (s : surface) : res gui :=
  '(_, cs, ops) ← gr_draw text_extents (g_data g) (g_colors g);
  Ok (with_drawing g (Surface (sf_width s) (sf_height s) (sf_ops s ++ ops)) cs).

Definition output_png (g : gui) (filename : text) : res gui :=
  let w := gr_width (g_data g) in
  let h := gr_height (g_data g) in
  s ← attr (g_buffer g);
  g ← draw_on g s;
  Ok (ask g (WritePng w h filename)).

Definition button_press (g : gui) (ev_x ev_y : num) : res (bool * gui) :=
  sel ← get_selection_rectangle (g_data g);
  dat ← get_data_rectangle (g_data g);
  in_selection ← inside ev_y (rc_y sel) (rc_height sel);
  on_left ← (if in_selection : bool then near ev_x (rc_x sel) else Ok false);
  if on_left : bool then Ok (true, with_left g true)
  else
  on_right ← (if in_selection : bool then
             right_x ::= val (rc_x sel) .+ rc_width sel;; near ev_x right_x else Ok false);
  if on_right : bool then Ok (true, with_right g 1)
  else
  both ← (if in_selection : bool then inside ev_x (rc_x sel) (rc_width sel) else Ok false);
  if both : bool then Ok (true, with_both g true (Some (ev_x, ev_x)))
  else
  in_data ← inside ev_y (rc_y dat) (rc_height dat);
  top ← (if in_data : bool then inside ev_x (rc_x dat) (rc_width dat) else Ok false);
  if top : bool then Ok (true, with_top g true (Some (ev_x, ev_x)))
  else Ok (false, g).

Definition button_release (g : gui) : res (bool * gui) :=
  if g_left g then
    let g := with_left g false in
    cur ← attr (g_left_cur g);
    l ::= scale_selection (g_data g) cur;;
    '(_, r) ← gr_get_range (g_data g);
    g ← change_range g l r;
    Ok (true, g)
  else if num_true (g_right g) then
    let g := with_right g 0 in
    cur ← attr (g_right_cur g);
    r ::= scale_selection (g_data g) cur;;
    '(l, _) ← gr_get_range (g_data g);
    g ← change_range g l r;
    Ok (true, g)
  else if g_both g then
    let g := with_both g false (g_both_drag g) in
    '(start, cur) ← attr (g_both_drag g);
    d ::= val cur .- val start;;
    delta ::= scale_selection (g_data g) d;;
    '(l, r) ← gr_get_range (g_data g);
    l ::= val l .+ delta;;
    r ::= val r .+ delta;;
    g ← change_range g l r;
    Ok (true, g)
  else if g_top g then Ok (false, with_top g false (g_top_drag g))
  else Ok (false, g).

(** [self.queue_draw_area(0, int(y), int(self.__width), int(height))] *)
Definition queue_selection (g : gui) (sel : rect) : res (bool * gui) :=
  y ::= py_int (rc_y sel);;
  w ← attr (g_width g);
  w ::= py_int w;;
  h ::= py_int (rc_height sel);;
  Ok (true, ask g (QueueDrawArea 0 y w h)).

Definition move_left (g : gui) (sel : rect) (ev_x : num) : res gui :=
  if (ev_x <=? 0)%num then Ok (with_left_cur g 0)
  else
    limit ::= val (rc_x sel) .+ rc_width sel;;
    Ok (with_left_cur g (if (ev_x >=? limit)%num then limit else ev_x)).

Definition move_right (g : gui) (sel : rect) (ev_x : num) : res gui :=
  w ← attr (g_width g);
  Ok (if (ev_x >=? w)%num then with_right g w
      else if (ev_x <? rc_x sel)%num then with_right_cur g (rc_x sel)
      else with_right_cur g ev_x).

Definition move_both (g : gui) (sel : rect) (ev_x : num) : res gui :=
  w ← attr (g_width g);
  '(start, _) ← attr (g_both_drag g);
  cur_e ::= val w .- (val (rc_x sel) .+ val (rc_width sel) .- val start);;
  cur_s ::= val start .- val (rc_x sel);;
  let cur := if (ev_x <? cur_s)%num then cur_s else if (ev_x >? cur_e)%num then cur_e else ev_x in
  Ok (with_both g (g_both g) (Some (start, cur))).

Definition move_top (g : gui) (ev_x : num) : res gui :=
  '(start, _) ← attr (g_top_drag g);
  d ::= val start .- val ev_x;;
  delta ::= scale_data (g_data g) d;;
  '(l, r) ← gr_get_range (g_data g);
  l ::= val l .+ delta;;
  r ::= val r .+ delta;;
  d ← set_range text_extents (g_data g) l r;
  Ok (redraw (with_top (with_data g d) (g_top g) (Some (ev_x, ev_x)))).

Definition resize_cursor : text := txt "SB_H_DOUBLE_ARROW".
Definition move_cursor : text := txt "FLEUR".

(** The cursor when nothing is dragged. *)
Definition hover (g : gui) (sel : rect) (ev_x ev_y : num) : res (bool * gui) :=
  dat ← get_data_rectangle (g_data g);
  in_selection ← inside ev_y (rc_y sel) (rc_height sel);
  edge ← (if in_selection : bool then
            py_or (near ev_x (rc_x sel))
              (right_x ::= val (rc_x sel) .+ rc_width sel;; near ev_x right_x)
          else Ok false);
  if edge : bool then Ok (true, ask g (SetCursor (Some resize_cursor)))
  else
  both ← (if in_selection : bool then inside ev_x (rc_x sel) (rc_width sel) else Ok false);
  if both : bool then Ok (true, ask g (SetCursor (Some move_cursor)))
  else
  in_data ← inside ev_y (rc_y dat) (rc_height dat);
  top ← (if in_data : bool then inside ev_x (rc_x dat) (rc_width dat) else Ok false);
  if top : bool then Ok (true, ask g (SetCursor (Some move_cursor)))
  else Ok (false, ask g (SetCursor None)).

Definition motion_notify (g : gui) (ev_x ev_y : num) : res (bool * gui) :=
  sel ← get_selection_rectangle (g_data g);
  if g_left g then g ← move_left g sel ev_x; queue_selection g sel
  else if num_true (g_right g) then g ← move_right g sel ev_x; queue_selection g sel
  else if g_both g then g ← move_both g sel ev_x; queue_selection g sel
  else if g_top g then g ← move_top g ev_x; Ok (true, g)
  else hover g sel ev_x ev_y.

Definition size_allocate (g : gui) (width height : num) : res gui :=
  let g := with_size g width height in
  d ← gr_layout text_extents (g_data g) width height;
  Ok (redraw (with_data g d)).

(** The lines that follow the pointer. *)
Definition marker (x y height : num) : list ctx_op := [MoveTo x y; RelLineTo 0 height; ClosePath].
Definition black : list ctx_op := [SetLineWidth 1; SetSourceRgb 0 0 0; Stroke].

Definition draw_markers (g : gui) (sel : rect) : res (list ctx_op) :=
  l ← (if g_left g then
            cur ← attr (g_left_cur g);
            Ok (marker (num_max cur 2) (rc_y sel) (rc_height sel) ++ black)
          else Ok []);
  r ← (if num_true (g_right g) then
             cur ← attr (g_right_cur g);
             w ← attr (g_width g);
             border ::= val w .- 2;;
             Ok (marker (num_min cur border) (rc_y sel) (rc_height sel) ++ black)
           else Ok []);
  b ← (if g_both g then
            '(start, cur) ← attr (g_both_drag g);
            delta_x ::= val cur .- val start;;
            x1 ::= val (rc_x sel) .+ delta_x;;
            x2 ::= val (rc_x sel) .+ rc_width sel .+ delta_x;;
            Ok (marker x1 (rc_y sel) (rc_height sel) ++ marker x2 (rc_y sel) (rc_height sel) ++
                [SetSourceRgb 0 0 0; SetLineWidth 1; Stroke])
          else Ok []);
  Ok (l ++ r ++ b).

Definition expose (g : gui) (area : rect) : res (bool * gui) :=
  g ← (if g_full_redraw g then
         let s := Surface (gr_width (g_data g)) (gr_height (g_data g)) [] in
         g ← draw_on g s;
         Ok (with_full_redraw g false)
       else Ok g);
  _ ← attr (g_buffer g);
  sel ← get_selection_rectangle (g_data g);
  ops ← draw_markers g sel;
  Ok (false, ask g (PaintWindow
    ([Rectangle (rc_x area) (rc_y area) (rc_width area) (rc_height area); Clip; SetSourceSurface; Paint]
     ++ ops))).

(** ** The main window *)

Inductive gtk_event :=
| SizeAllocate (width height : num)
| Expose (area : rect)
| ButtonPress (x y : num)
| ButtonRelease
| MotionNotify (x y : num)
| ZoomOutClicked
| ZoomInClicked
| DialogResponse (response : Z) (filename : text).

(** The callbacks that [MainWindow] and [GtkGraphicRenderer] connect. *)
Definition handle (g : gui) (e : gtk_event) : res gui :=
  match e with
  | SizeAllocate w h => size_allocate g w h
  | Expose area => snd <$> expose g area
  | ButtonPress x y => snd <$> button_press g x y
  | ButtonRelease => snd <$> button_release g
  | MotionNotify x y => snd <$> motion_notify g x y
  | ZoomOutClicked => set_smaller_zoom g
  | ZoomInClicked => set_bigger_zoom g
  | DialogResponse r filename => if r =? 1 then output_png g filename else Ok g
  end.

Definition session (g : gui) (es : list gtk_event) : res gui := for_each handle es g.

(** The part of [main] before the window opens; [lines] is the file. *)
Definition main `{DictOrder text} (lines : list text) : res gui :=
  '(cs, ts) ← read_data lines;
  let '(lower_bound, upper_bound) := timelines_get_bounds ts in
  g ← new_graphic lower_bound upper_bound;
  let range_values := get_all_range_values ts in
  '(range_colors, cs) ← range_colors range_values cs;
  let g := gr_set_top_legend g (set_legends new_legend range_values range_colors) in
  let g := gr_set_data g (set_timelines new_data_renderer ts) in
  let range_mid := (upper_bound - lower_bound) / 2 in
  let range_width := (upper_bound - lower_bound) / 10 in
  let range_lo := range_mid - range_width / 2 in
  let range_hi := range_mid + range_width / 2 in
  g ← set_range text_extents g range_lo range_hi;
  Ok (new_gui g cs).
End gtk.

(** ** What the handlers do to the graphic *)

Section gtk_spec.
Context (te : text -> extents).

(** A handler leaves the graphic alone, changes its range or its size. *)
Inductive graphic_step : graphic -> graphic -> Prop :=
| step_same d : graphic_step d d
| step_range d a b d' : set_range te d a b = Ok d' -> graphic_step d d'
| step_size d w h d' : gr_layout te d w h = Ok d' -> graphic_step d d'.

(** What holds between events. *)
Record consistent (g : gui) : Prop := Consistent {
  c_ready : ready (g_data g);
  c_range : exists s e, gr_range (g_data g) = Some (s, e) /\
    num_ltb s (gr_start (g_data g)) = false /\ num_ltb (gr_end (g_data g)) e = false;
  c_buffer : g_full_redraw g = true \/ is_Some (g_buffer g);
  c_both : g_both g = true -> is_Some (g_both_drag g);
  c_top : g_top g = true -> is_Some (g_top_drag g)
}.

(** The attributes other than the graphic. *)
Definition drags_ok (g : gui) : Prop :=
  (g_full_redraw g = true \/ is_Some (g_buffer g)) /\
  (g_both g = true -> is_Some (g_both_drag g)) /\ (g_top g = true -> is_Some (g_top_drag g)).

Lemma num_ltb_irrefl x : num_ltb x x = false.
Proof.
  unfold num_ltb, num_compare. destruct (num_value x) as [|[]|m e]; cbn; try done.
  by rewrite Z.compare_refl.
Qed.

Lemma num_ltb_asym x y : num_ltb x y = true -> num_ltb y x = false.
Proof. intros H%num_ltb_leb. by apply num_leb_not_ltb. Qed.

(** [max] and [min] never go beyond their first argument. *)
Lemma num_max_fst a x : num_ltb (num_max a x) a = false.
Proof. unfold num_max, num_gtb. destruct (num_ltb a x) eqn:E; [by apply num_ltb_asym|apply num_ltb_irrefl]. Qed.
Lemma num_min_fst a x : num_ltb a (num_min a x) = false.
Proof. unfold num_min. destruct (num_ltb x a) eqn:E; [by apply num_ltb_asym|apply num_ltb_irrefl]. Qed.

Definition in_bounds (d : graphic) : Prop := exists s e, gr_range d = Some (s, e) /\
  num_ltb s (gr_start d) = false /\ num_ltb (gr_end d) e = false.

Lemma set_range_bounds d a b d' : set_range te d a b = Ok d' -> ready d' /\ in_bounds d'.
Proof.
  intros (Hs & He & _ & _ & Hr & _ & _ & Hready)%set_range_frame. split; [done|].
  eexists _, _. split; [exact Hr|]. rewrite Hs, He. split; [apply num_max_fst|apply num_min_fst].
Qed.

Lemma graphic_step_ok d d' : graphic_step d d' -> ready d -> in_bounds d -> ready d' /\ in_bounds d'.
Proof.
  intros [| |? ? ? ? Hl] Hr Hb; [done|by eapply set_range_bounds|].
  split; [by eapply layout_ready|]. destruct Hb as (s & e & Hse & Hs & He).
  apply gr_layout_frame in Hl as (H1 & H2 & _ & _ & H3 & _).
  exists s, e. by rewrite H1, H2, H3.
Qed.

Lemma consistent_alt g : consistent g <-> ready (g_data g) /\ in_bounds (g_data g) /\ drags_ok g.
Proof. split; [intros []; done|]. intros (? & ? & ? & ? & ?). by constructor. Qed.

(** [keeps g r]: if the handler that gives [r] returns, it has made a
    [graphic_step] and left the other attributes in order. *)
Definition keeps (g g' : gui) : Prop :=
  graphic_step (g_data g) (g_data g') /\ (drags_ok g -> drags_ok g').

Lemma change_range_keeps g a b g' : change_range te g a b = Ok g' -> keeps g g'.
Proof.
  unfold change_range. intros H. inv_bind H. injection H as <-. split; [by eapply step_range|].
  intros (_ & Hb & Ht). split; [by left|done].
Qed.

Lemma zoom_keeps g g' : set_smaller_zoom te g = Ok g' \/ set_bigger_zoom te g = Ok g' -> keeps g g'.
Proof.
  intros [H|H]; [unfold set_smaller_zoom in H|unfold set_bigger_zoom in H];
    inv_bind H; destruct a as [s e]; inv_bind H; by eapply change_range_keeps.
Qed.

Lemma draw_on_keeps g s g' : draw_on te g s = Ok g' ->
  keeps g g' /\ is_Some (g_buffer g') /\ g_data g' = g_data g.
Proof.
  unfold draw_on. intros H. inv_bind H. destruct a as [[u cs] ops]. injection H as <-.
  split; [split; [constructor|]|by cbn; eauto]. intros (_ & Hb & Ht). split; [right; by cbn; eauto|done].
Qed.

Lemma press_keeps g x y r : button_press g x y = Ok r -> keeps g r.2.
Proof.
  unfold button_press. intros H. walk H; (split; [apply step_same|]); intros (Hf & Hb & Ht);
    (split; [done|]); cbn; eauto.
Qed.

Lemma release_keeps g r : button_release te g = Ok r -> keeps g r.2.
Proof.
  unfold button_release. intros H. walk H.
  all: try match goal with E : change_range _ _ _ _ = Ok _ |- _ => apply change_range_keeps in E as [Hs Hd] end.
  all: split; [done || apply step_same|]. all: intros (Hf & Hb & Ht).
  all: try (apply Hd; split; [done|]); try done. all: cbn; split; try done.
Qed.

Lemma move_keeps g sel x g' :
  move_left g sel x = Ok g' \/ move_right g sel x = Ok g' \/ move_both g sel x = Ok g' -> keeps g g'.
Proof.
  unfold move_left, move_right, move_both. intros [H|[H|H]]; walk H;
    try (split; [apply step_same|]; intros (Hf & Hb & Ht); split; [done|]; cbn; by eauto).
  repeat case_match; by (split; [apply step_same|]).
Qed.

Lemma move_top_keeps g x g' : move_top te g x = Ok g' -> keeps g g'.
Proof.
  unfold move_top. intros H. walk H. split; [by eapply step_range|].
  intros (Hf & Hb & Ht). split; [by left|]. cbn. eauto.
Qed.

Lemma motion_keeps g x y r : motion_notify te g x y = Ok r -> keeps g r.2.
Proof.
  unfold motion_notify. intros H. walk H.
  all: try (by (split; [apply step_same|])).
  - exact (move_keeps g a x a0 (or_introl Ha0)).
  - exact (move_keeps g a x a0 (or_intror (or_introl Ha0))).
  - exact (move_keeps g a x a0 (or_intror (or_intror Ha0))).
  - exact (move_top_keeps g x a0 Ha0).
Qed.

Lemma keeps_refl g : keeps g g.
Proof. split; [apply step_same|done]. Qed.

Lemma expose_keeps g area r : expose te g area = Ok r -> keeps g r.2.
Proof.
  unfold expose. intros H. apply bind_ok in H as (g1 & H1 & H).
  assert (keeps g g1) as Hk; [|by walk H].
  destruct (g_full_redraw g); [|injection H1 as <-; apply keeps_refl].
  apply bind_ok in H1 as (g2 & H2 & [= <-]). apply draw_on_keeps in H2 as ([Hs Hd] & Hb & _).
  split; [exact Hs|]. intros Hok. split; [by right|]. exact (proj2 (Hd Hok)).
Qed.

Lemma layout_keeps g w h g' : size_allocate te g w h = Ok g' -> keeps g g'.
Proof.
  unfold size_allocate. intros H. walk H. split; [by eapply step_size|]. intros (_ & Hb & Ht). by split; [left|].
Qed.

Lemma handle_keeps g e g' : handle te g e = Ok g' -> keeps g g'.
Proof.
  destruct e as [w h|area|x y| |x y| | |r filename]; cbn [handle].
  - apply layout_keeps.
  - destruct (expose te g area) eqn:E; [|done..]. intros [= <-]. by eapply expose_keeps.
  - destruct (button_press g x y) eqn:E; [|done..]. intros [= <-]. by eapply press_keeps.
  - destruct (button_release te g) eqn:E; [|done..]. intros [= <-]. by eapply release_keeps.
  - destruct (motion_notify te g x y) eqn:E; [|done..]. intros [= <-]. by eapply motion_keeps.
  - intros H. apply zoom_keeps. by left.
  - intros H. apply zoom_keeps. by right.
  - destruct (r =? 1); [|intros [= <-]; apply keeps_refl].
    unfold output_png. intros H. apply bind_ok in H as (s & _ & H). apply bind_ok in H as (g1 & H1 & H).
    injection H as <-. by apply draw_on_keeps in H1 as [Hk _].
Qed.

Lemma handle_consistent g e g' : consistent g -> handle te g e = Ok g' -> consistent g'.
Proof.
  rewrite !consistent_alt. intros (Hr & Hb & Hd) [Hs Hk]%handle_keeps.
  destruct (graphic_step_ok _ _ Hs Hr Hb). auto.
Qed.

Lemma graphic_step_fixed d d' : graphic_step d d' -> gr_start d' = gr_start d /\ gr_end d' = gr_end d.
Proof.
  intros [| |]; [done| |].
  - apply set_range_frame in H. tauto.
  - apply gr_layout_frame in H. tauto.
Qed.

Lemma session_inv g es g' : consistent g -> session te g es = Ok g' ->
  consistent g' /\ gr_start (g_data g') = gr_start (g_data g) /\ gr_end (g_data g') = gr_end (g_data g).
Proof.
  intros Hg Hs. refine (for_each_preserve (handle te) (fun g' => consistent g' /\
    gr_start (g_data g') = gr_start (g_data g) /\ gr_end (g_data g') = gr_end (g_data g)) _ es g g' _ Hs); [|done].
  intros g1 e g2 (Hc & <- & <-) He. split; [by eapply handle_consistent|].
  apply handle_keeps in He as [Hk _]. by apply graphic_step_fixed.
Qed.

(** C18: whatever the user does, between two events the graphic is ready to be
    drawn, the range shown stays inside the bounds of the data (which never
    change), a buffer exists unless a redraw is due, and a drag of the whole
    selection or of the data knows where it started. *)
Theorem session_consistent g es g' :
  consistent g -> session te g es = Ok g' ->
  consistent g' /\ gr_start (g_data g') = gr_start (g_data g) /\ gr_end (g_data g') = gr_end (g_data g).
Proof. apply session_inv. Qed.

(** ** Exposing *)

Lemma selection_safe d : ready d -> safe (get_selection_rectangle d).
Proof.
  intros ((l & Hl & _ & _ & [lh Hlh]) & (r & Hd & _ & _ & [sz Hsz]) & [_ [msl Hmsl]] & [[[lo hi] Hbb] [bsl Hbsl]] & [[rs re] Hr]).
  unfold get_selection_rectangle, legend_get_height, rd_get_height, scale_get_height, get_position, scale_x.
  safe.
Qed.

Lemma draw_markers_safe g sel : (g_left g = true -> is_Some (g_left_cur g)) ->
  (num_true (g_right g) = true -> is_Some (g_right_cur g) /\ is_Some (g_width g)) ->
  (g_both g = true -> is_Some (g_both_drag g)) -> safe (draw_markers g sel).
Proof.
  intros Hl Hr Hb. unfold draw_markers.
  apply safe_bind; [|intros ?; apply safe_bind; [|intros ?; apply safe_bind; [|done]]].
  - destruct (g_left g); [|done]. destruct Hl as [c Hc]; [done|]. safe.
  - destruct (num_true (g_right g)); [|done]. destruct Hr as [[c Hc] [w Hw]]; [done|]. safe.
  - destruct (g_both g); [|done]. destruct Hb as [[s c] Hc]; [done|]. safe.
Qed.

Lemma draw_on_safe g s : ready (g_data g) -> safe (draw_on te g s).
Proof.
  intros Hr. unfold draw_on. pose proof (gr_draw_safe te (g_data g) Hr (g_colors g)) as Hs.
  by destruct (gr_draw te (g_data g) (g_colors g)) as [[[u cs] ops]| |].
Qed.

(** C20: exposing the window always ends, and reads no attribute that is not
    set, unless an edge is dragged that has not been moved yet; when a redraw is
    due the buffer becomes a fresh drawing of the graphic, otherwise it is
    reused; the graphic is unchanged and no redraw is due afterwards. *)
Theorem expose_spec g area :
  consistent g -> (g_left g = true -> is_Some (g_left_cur g)) ->
  (num_true (g_right g) = true -> is_Some (g_right_cur g) /\ is_Some (g_width g)) ->
  safe (expose te g area) /\
  (forall b g', expose te g area = Ok (b, g') -> b = false /\ g_full_redraw g' = false /\
     g_data g' = g_data g /\
     if g_full_redraw g then exists ops, gr_draw te (g_data g) (g_colors g) = Ok (tt, g_colors g', ops) /\
       g_buffer g' = Some (Surface (gr_width (g_data g)) (gr_height (g_data g)) ops)
     else g_buffer g' = g_buffer g).
Proof.
  intros Hc Hl Hr. unfold expose. destruct (g_full_redraw g) eqn:Ef.
  - set (s := Surface _ _ _). pose proof (draw_on_safe g s (c_ready _ Hc)) as Hsafe.
    destruct (draw_on te g s) as [g1| |] eqn:E1; [|done..].
    unfold draw_on in E1. apply bind_ok in E1 as ([[[] cs] ops] & E1 & [= <-]). split.
    + cbn -[get_selection_rectangle draw_markers]. apply safe_bind; [by apply selection_safe, Hc|intros sel].
      apply safe_bind; [|done]. apply draw_markers_safe; [done..|]. apply Hc.
    + cbn -[get_selection_rectangle draw_markers]. intros b g' H. walk H.
      subst g'. cbn. split; [done|]. split; [done|]. split; [done|]. by exists ops.
  - destruct Hc as [Hready Hrange [?|[bf Hbf]] Hboth Htop]; [congruence|]. split.
    + cbn -[get_selection_rectangle draw_markers]. rewrite Hbf. cbn -[get_selection_rectangle draw_markers].
      apply safe_bind; [by apply selection_safe|intros sel]. apply safe_bind; [|done].
      by apply draw_markers_safe.
    + intros b g' H. walk H. subst g'. cbn. by injection Ha as <-.
Qed.

(** ** Drags *)

(** Where the left edge is drawn while the pointer is at [x]: not left of the
    window, not right of the other edge. *)
Definition left_at (sel : rect) (x c : num) : Prop :=
  (num_leb x 0 = true /\ c = 0) \/
  (num_leb x 0 = false /\ exists limit, num_add (rc_x sel) (rc_width sel) = Ok limit /\
     ((num_geb x limit = true /\ c = limit) \/ (num_geb x limit = false /\ c = x))).

(** Where the point at which the selection is held is drawn, for a pointer at
    [x]: the selection stays inside the window. *)
Definition both_at (sel : rect) (w start x c : num) : Prop := exists lo right hi,
  num_sub start (rc_x sel) = Ok lo /\ (val (rc_x sel) .+ rc_width sel .- val start)%num = Ok right /\
  num_sub w right = Ok hi /\
  ((num_ltb x lo = true /\ c = lo) \/
   (num_ltb x lo = false /\ num_gtb x hi = true /\ c = hi) \/
   (num_ltb x lo = false /\ num_gtb x hi = false /\ c = x)).

Lemma motion_left g sel x y r : g_left g = true -> get_selection_rectangle (g_data g) = Ok sel ->
  motion_notify te g x y = Ok r ->
  g_left r.2 = true /\ g_data r.2 = g_data g /\ exists c, g_left_cur r.2 = Some c /\ left_at sel x c.
Proof.
  intros Hl Hsel. unfold motion_notify. rewrite Hsel, Hl. cbn -[move_left queue_selection].
  intros H. inv_bind H. unfold queue_selection in H. walk H. unfold move_left in Ha.
  destruct (num_leb x 0) eqn:Ex; walk Ha; cbn.
  - split; [done|]. split; [done|]. exists 0. split; [done|]. by left.
  - split; [done|]. split; [done|]. eexists. split; [done|]. right. split; [done|].
    match goal with E : lift_res (lift2 num_add _ _) = Ok ?l |- _ =>
      exists l; split; [exact E|destruct (num_geb x l); auto] end.
Qed.

Definition motions (ps : list (num * num)) : list gtk_event :=
  (fun p => MotionNotify p.1 p.2) <$> ps.

(** The rule of a drag: what each motion establishes, from what it preserves. *)
Lemma motions_rule (I : gui -> Prop) (J : num -> gui -> Prop) :
  (forall g x y r, I g -> motion_notify te g x y = Ok r -> I r.2 /\ J x r.2) ->
  forall ps p g g', I g -> session te g (motions (ps ++ [p])) = Ok g' -> I g' /\ J p.1 g'.
Proof.
  intros Hstep ps. induction ps as [|q ps IH]; intros p g g' Hg; unfold session; cbn.
  - intros H. inv_bind H. injection H as <-. destruct (motion_notify te g p.1 p.2) eqn:E; [|done..].
    injection Ha as <-. by eapply Hstep.
  - intros H. inv_bind H. destruct (motion_notify te g q.1 q.2) eqn:E; [|done..].
    injection Ha as <-. eapply IH; [|exact H]. by eapply Hstep.
Qed.

(** Dragging the left edge: after any motions, on release the range starts
    at the data under the last position of the edge (kept inside the window and
    left of the other edge) and ends where it did; nothing but the last position
    matters. *)
Theorem drag_left_spec g sel ps p g' :
  g_left g = true -> get_selection_rectangle (g_data g) = Ok sel ->
  session te g (motions (ps ++ [p]) ++ [ButtonRelease]) = Ok g' ->
  exists c l a b, left_at sel p.1 c /\ scale_selection (g_data g) c = Ok l /\
    gr_range (g_data g) = Some (a, b) /\ set_range te (g_data g) l b = Ok (g_data g') /\
    g_left g' = false /\ g_full_redraw g' = true.
Proof.
  intros Hl Hsel. unfold session. rewrite for_each_app. intros H. apply bind_ok in H as (g1 & H1 & H).
  destruct (motions_rule (fun g1 => g_left g1 = true /\ g_data g1 = g_data g)
    (fun x g1 => exists c, g_left_cur g1 = Some c /\ left_at sel x c)) with ps p g g1
    as ((Hl1 & Hd1) & c & Hc & Hat); [|done..|].
  { intros g0 x y r [Hl0 Hd0] Hm. rewrite <- Hd0. 
    destruct (motion_left g0 sel x y r Hl0) as (? & ? & ?); [by rewrite Hd0|done|]. auto. }
  cbn in H. apply bind_ok in H as (g2 & H2 & [= <-]). unfold button_release in H2.
  rewrite Hl1 in H2. cbn -[scale_selection change_range] in H2. rewrite Hc, Hd1 in H2.
  cbn -[scale_selection change_range] in H2. apply fmap_ok in H2 as (r & H2 & ->).
  apply bind_ok in H2 as (l & Hsc & H2). apply bind_ok in H2 as ([a b] & Hr & H2).
  apply bind_ok in H2 as (g3 & H3 & [= <-]). apply bind_ok in H3 as (d & Hset & [= <-]).
  cbn in Hset |- *. rewrite Hd1 in Hset. exists c, l, a, b.
  split; [exact Hat|]. split; [exact Hsc|]. split; [|done].
  unfold gr_get_range in Hr. destruct (gr_range (g_data g)); [|done]. by injection Hr as ->.
Qed.

Lemma motion_both g sel w start x y r :
  g_left g = false -> num_true (g_right g) = false -> g_both g = true ->
  get_selection_rectangle (g_data g) = Ok sel -> g_width g = Some w ->
  (exists cur, g_both_drag g = Some (start, cur)) ->
  motion_notify te g x y = Ok r ->
  (g_left r.2 = false /\ num_true (g_right r.2) = false /\ g_both r.2 = true /\
   g_data r.2 = g_data g /\ g_width r.2 = Some w) /\
  exists c, g_both_drag r.2 = Some (start, c) /\ both_at sel w start x c.
Proof.
  intros Hl Hr Hb Hsel Hw [cur Hcur]. unfold motion_notify. rewrite Hsel.
  cbn -[move_both queue_selection]. rewrite Hl, Hr, Hb.
  intros H. inv_bind H. unfold queue_selection in H. walk H. unfold move_both in Ha.
  rewrite Hw, Hcur in Ha. cbn -[num_sub num_add lift2] in Ha. apply bind_ok in Ha as (hi & Hhi & Ha).
  apply bind_ok in Ha as (lo & Hlo & [= <-]). cbn. split; [done|].
  eexists. split; [done|]. apply bind_ok in Hhi as (w' & [= <-] & Hhi).
  apply bind_ok in Hhi as (right & Hright & Hhi). exists lo, right, hi.
  split; [exact Hlo|]. split; [exact Hright|]. split; [exact Hhi|].
  destruct (num_ltb x lo); [by left|right]. destruct (num_gtb x hi); auto.
Qed.

(** Dragging the whole selection: on release both ends of the range move by
    the data under the distance between where the drag started and where it
    was held last (with the selection inside the window). *)
Theorem drag_both_spec g sel w start cur ps p g' :
  g_left g = false -> num_true (g_right g) = false -> g_both g = true ->
  get_selection_rectangle (g_data g) = Ok sel -> g_width g = Some w ->
  g_both_drag g = Some (start, cur) ->
  session te g (motions (ps ++ [p]) ++ [ButtonRelease]) = Ok g' ->
  exists c d delta a b l r, both_at sel w start p.1 c /\ num_sub c start = Ok d /\
    scale_selection (g_data g) d = Ok delta /\ gr_range (g_data g) = Some (a, b) /\
    num_add a delta = Ok l /\ num_add b delta = Ok r /\
    set_range te (g_data g) l r = Ok (g_data g') /\ g_both g' = false /\ g_full_redraw g' = true.
Proof.
  intros Hl Hr Hb Hsel Hw Hcur. unfold session. rewrite for_each_app. intros H.
  apply bind_ok in H as (g1 & H1 & H).
  destruct (motions_rule (fun g1 => (g_left g1 = false /\ num_true (g_right g1) = false /\ g_both g1 = true /\
      g_data g1 = g_data g /\ g_width g1 = Some w) /\ exists cur, g_both_drag g1 = Some (start, cur))
    (fun x g1 => exists c, g_both_drag g1 = Some (start, c) /\ both_at sel w start x c)) with ps p g g1
    as (((Hl1 & Hr1 & Hb1 & Hd1 & Hw1) & _) & c & Hc & Hat); [|by eauto 8|done|].
  { intros g0 x y r ((Hl0 & Hr0 & Hb0 & Hd0 & Hw0) & Hcur0) Hm. rewrite <- Hd0 in Hsel |- *.
    destruct (motion_both g0 sel w start x y r Hl0 Hr0 Hb0 Hsel Hw0 Hcur0 Hm) as (H0 & c & Hc & Hat).
    split; [split; [exact H0|by exists c]|by exists c]. }
  cbn in H. apply bind_ok in H as (g2 & H2 & [= <-]). unfold button_release in H2.
  rewrite Hl1, Hr1, Hb1 in H2. cbn -[scale_selection change_range num_add num_sub] in H2.
  rewrite Hc in H2. cbn -[scale_selection change_range num_add num_sub] in H2. rewrite Hd1 in H2.
  apply fmap_ok in H2 as (res & H2 & ->).
  apply bind_ok in H2 as (d & Hsub & H2). apply bind_ok in H2 as (delta & Hsc & H2).
  apply bind_ok in H2 as ([a b] & Hrange & H2).
  apply bind_ok in H2 as (l & Hla & H2). apply bind_ok in H2 as (r & Hrb & H2).
  apply bind_ok in H2 as (g3 & H3 & [= <-]). apply bind_ok in H3 as (d3 & Hset & [= <-]).
  cbn in Hset |- *. rewrite Hd1 in Hset. exists c, d, delta, a, b, l, r.
  split; [exact Hat|]. split; [exact Hsub|]. split; [exact Hsc|].
  split; [|done]. unfold gr_get_range in Hrange. destruct (gr_range (g_data g)); [|done].
  by injection Hrange as ->.
Qed.

(** Dragging the right edge to or beyond the right border of the window
    records no position (the flag is assigned instead); if no earlier motion of
    a right edge has, releasing the button raises AttributeError. *)
Theorem drag_right_beyond g w x y r :
  g_left g = false -> num_true (g_right g) = true -> g_right_cur g = None ->
  g_width g = Some w -> num_true w = true -> num_geb x w = true ->
  motion_notify te g x y = Ok r -> button_release te r.2 = Raise AttributeError.
Proof.
  intros Hl Hr Hcur Hw Hw0 Hx. unfold motion_notify. intros H. apply bind_ok in H as (sel & Hsel & H).
  rewrite Hl, Hr in H. unfold move_right in H. rewrite Hw in H. cbn -[queue_selection] in H.
  rewrite Hx in H. unfold queue_selection in H. walk H. unfold button_release. cbn.
  by rewrite Hl, Hw0, Hcur.
Qed.

(** ** Zooming *)

Lemma num_max_lt (a : num) (b : Z) : num_ltb a b = true -> num_max a b = b.
Proof. unfold num_max, num_gtb. by intros ->. Qed.
Lemma num_min_lt (a : num) (b : Z) : num_ltb b a = true -> num_min a b = b.
Proof. unfold num_min. by intros ->. Qed.

(** Zooming in keeps the start of an integer range and halves its length,
    rounding down.  Zooming out doubles it, cut at the end of the data. *)
Theorem zoom_spec g (s e : Z) g' :
  gr_range (g_data g) = Some (PInt s, PInt e) -> s <= e ->
  num_ltb (gr_start (g_data g)) s = true -> num_ltb e (gr_end (g_data g)) = true ->
  (set_bigger_zoom te g = Ok g' -> gr_range (g_data g') = Some (PInt s, PInt (s + (e - s) / 2))) /\
  (set_smaller_zoom te g = Ok g' ->
     gr_range (g_data g') = Some (PInt s, num_min (gr_end (g_data g)) (PInt (s + (e - s) * 2)))).
Proof.
  intros Hr Hse Hs He. unfold set_bigger_zoom, set_smaller_zoom, gr_get_range. rewrite Hr.
  cbn -[set_range change_range].
  assert (0 <= (e - s) / 2 <= e - s) as Hhalf by (pose proof (Z.div_mod (e - s) 2); pose proof (Z.mod_pos_bound (e - s) 2); lia).
  split; intros H; apply bind_ok in H as (d & (_ & _ & _ & _ & Hd & _)%set_range_frame & [= <-]); cbn;
    rewrite Hd, num_min_int, num_max_int, Z.min_l, Z.max_r by lia; rewrite num_max_lt by done; [|done].
  rewrite num_min_lt; [done|]. apply (ltb_earlier _ e); [|done|lia].
  destruct (gr_end (g_data g)) as [|[]]; done.
Qed.

(** ** [main] *)

Lemma range_colors_length names cs rcs cs' :
  Timeline.range_colors names cs = Ok (rcs, cs') -> length rcs = length names.
Proof.
  unfold Timeline.range_colors. intros H.
  enough (forall names cs out rcs cs', for_each (fun '(out, cs) name =>
    '(c, cs) ← colors_lookup name cs; Ok (out ++ [c], cs)) names (out, cs) = Ok (rcs, cs') ->
    length rcs = (length out + length names)%nat) as Hg by (by apply Hg in H).
  clear. induction names as [|n names IH]; intros cs out rcs cs'; cbn; [intros [= <- <-]; lia|].
  destruct (colors_lookup n cs) as [[c cs1]| |]; [|done..]. intros ->%IH. rewrite length_app. cbn. lia.
Qed.

Lemma main_consistent `{DictOrder text} lines g : main te lines = Ok g -> consistent g.
Proof.
  unfold main. intros Hm. apply bind_ok in Hm as ([cs ts] & _ & Hm).
  destruct (timelines_get_bounds ts) as [lo hi]. apply bind_ok in Hm as (g0 & _ & Hm).
  apply bind_ok in Hm as ([rcs cs'] & _ & Hm). apply bind_ok in Hm as (g1 & Hg1 & [= <-]).
  apply consistent_alt. destruct (set_range_bounds _ _ _ _ Hg1) as [Hr Hb].
  split; [exact Hr|]. split; [exact Hb|]. split; [by left|done].
Qed.

(** When [main] opens the window, the graphic is ready, it holds the data
    that was read and a legend with one colour per value of a range, and the
    range is, inside the bounds of the data, a tenth of them around half their
    distance. *)
Theorem main_spec `{DictOrder text} lines g :
  main te lines = Ok g ->
  exists cs ts lo hi range_colors cs' d l,
    read_data lines = Ok (cs, ts) /\ timelines_get_bounds ts = (lo, hi) /\
    consistent g /\ g_full_redraw g = true /\ g_colors g = cs' /\
    gr_data (g_data g) = Some d /\ rd_timelines d = Some ts /\
    gr_top_legend (g_data g) = Some l /\ lg_legends l = Some (get_all_range_values ts, range_colors) /\
    Timeline.range_colors (get_all_range_values ts) cs = Ok (range_colors, cs') /\
    length range_colors = length (get_all_range_values ts) /\
    let m := (hi - lo) / 2 in let w := (hi - lo) / 10 / 2 in
    gr_range (g_data g) =
      Some (num_max (gr_start (g_data g)) (PInt (m - w)), num_min (gr_end (g_data g)) (PInt (m + w))).
Proof.
  intros Hm. pose proof (main_consistent _ _ Hm) as Hc. unfold main in Hm.
  apply bind_ok in Hm as ([cs ts] & Hread & Hm).
  destruct (timelines_get_bounds ts) as [lo hi] eqn:Hbounds.
  apply bind_ok in Hm as (g0 & Hg0 & Hm). apply bind_ok in Hm as ([rcs cs'] & Hcs & Hm).
  apply bind_ok in Hm as (g1 & Hg1 & Hm). injection Hm as <-.
  destruct (set_range_content te _ _ _ _ Hg1) as (l0 & l & d0 & d & Hl0 & Hl & Hll & Hd0 & Hd & Hdd).
  cbn in Hl0, Hd0. injection Hl0 as <-. injection Hd0 as <-.
  exists cs, ts, lo, hi, rcs, cs', d, l. split; [done|]. split; [done|].
  split; [exact Hc|].
  repeat (split; [done|]). split; [by apply range_colors_length in Hcs|].
  cbn. apply set_range_frame in Hg1 as (-> & -> & _ & _ & Hr & _). cbn in Hr |- *. rewrite Hr.
  rewrite num_min_int, num_max_int.
  assert (lo <= 0 <= hi).
  { pose proof (foldl_widen (tl_get_bounds <$> ts) (0, 0)) as (H1 & H2 & _).
    unfold timelines_get_bounds in Hbounds. rewrite Hbounds in H1, H2. split; [exact H1|exact H2]. }
  assert (0 <= (hi - lo) / 10 / 2) by (apply Z.div_pos; [apply Z.div_pos|]; lia).
  by rewrite Z.min_l, Z.max_r by lia.
Qed.
End gtk_spec.

(** ** Witnesses *)

Definition sample_lines : list text :=
  txt <$> ["range nodes r a 0 20"%string; "range nodes r b 30 70"%string;
           "event-str nodes e x 45"%string; "event-int nodes e2 7 52"%string; "color a #ff0000"%string].

Definition sample_gui : res gui :=
  g ← main sample_extents sample_lines;
  session sample_extents g [SizeAllocate 500 300; Expose (Rect 0 0 500 300)].

(** The window after the first expose, and what the user does to it. *)
Definition after (es : list gtk_event) : res gui := g ← sample_gui; session sample_extents g es.

Lemma sample_ready : exists g, sample_gui = Ok g /\ consistent g.
Proof.
  destruct (main sample_extents sample_lines) as [g| |] eqn:Em; [|by vm_compute in Em..].
  destruct sample_gui as [g'| |] eqn:Eg; [|by vm_compute in Eg..]. exists g'. split; [done|].
  unfold sample_gui in Eg. rewrite Em in Eg. by apply (session_inv _ _ _ _ (main_consistent _ _ _ Em) Eg).
Qed.

Lemma main_spec_witness : exists g, main sample_extents sample_lines = Ok g /\ g_full_redraw g = true.
Proof.
  destruct (main sample_extents sample_lines) as [g| |] eqn:H; [|by vm_compute in H..].
  destruct (main_spec sample_extents sample_lines _ H) as (cs & ts & lo & hi & rcs & cs' & d & l & Hread & _ & _ & Hf & _).
  exists g. split; [reflexivity|exact Hf].
Defined.

Lemma session_consistent_witness : exists g g', sample_gui = Ok g /\
  session sample_extents g [ZoomInClicked; ButtonPress 225 150; MotionNotify 100 0; ButtonRelease] = Ok g' /\
  consistent g'.
Proof.
  destruct sample_ready as (g & Hg & Hc).
  assert (exists g', session sample_extents g [ZoomInClicked; ButtonPress 225 150; MotionNotify 100 0; ButtonRelease] = Ok g')
    as [g' Hs].
  { vm_compute in Hg. injection Hg as <-. eexists. vm_compute. reflexivity. }
  exists g, g'. split; [exact Hg|]. split; [exact Hs|].
  exact (proj1 (session_consistent sample_extents g _ g' Hc Hs)).
Defined.

Lemma expose_spec_witness : exists g, sample_gui = Ok g /\ safe (expose sample_extents g (Rect 0 0 9 9)).
Proof.
  destruct sample_ready as (g & Hg & Hc). exists g. split; [exact Hg|].
  apply (expose_spec sample_extents g _ Hc); intros Hf; exfalso; vm_compute in Hg; injection Hg as <-; discriminate Hf.
Defined.

(** A drag on the sample: what holds when the button is down, and that the
    rest of the drag succeeds. *)
Lemma sample_drag {A} (x : Z) (ps : list (num * num)) (f : gui -> A) (v : A) :
  (g ← after [ButtonPress x 150]; _ ← session sample_extents g (motions ps ++ [ButtonRelease]); Ok (f g)) = Ok v ->
  exists g g', after [ButtonPress x 150] = Ok g /\ f g = v /\
    session sample_extents g (motions ps ++ [ButtonRelease]) = Ok g'.
Proof.
  intros H. apply bind_ok in H as (g & Hg & H). apply bind_ok in H as (g' & Hg' & [= Hv]).
  exists g, g'. split; [exact Hg|]. split; [exact Hv|exact Hg'].
Qed.

Lemma drag_left_spec_witness : exists g g' a b,
  session sample_extents g (motions ([(PInt 90, PInt 0)] ++ [(PInt 100, PInt 0)]) ++ [ButtonRelease]) = Ok g' /\
  gr_range (g_data g) = Some (a, b) /\ g_left g' = false.
Proof.
  destruct (sample_drag 225 ([(PInt 90, PInt 0)] ++ [(PInt 100, PInt 0)])
    (fun g => (g_left g, get_selection_rectangle (g_data g))) (true, Ok (Rect 228 132 43 38))) as (g & g' & _ & Hv & Hs);
    [vm_compute; reflexivity|]. injection Hv as Hl Hsel.
  destruct (drag_left_spec sample_extents g _ _ _ _ Hl Hsel Hs) as (c & l & a & b & _ & _ & Hr & _ & Hf & _).
  exists g, g', a, b. split; [exact Hs|]. split; [exact Hr|exact Hf].
Defined.

Lemma drag_both_spec_witness : exists g g' a b,
  session sample_extents g (motions ([(PInt 300, PInt 0)] ++ [(PInt 100, PInt 0)]) ++ [ButtonRelease]) = Ok g' /\
  gr_range (g_data g) = Some (a, b) /\ g_both g' = false.
Proof.
  destruct (sample_drag 250 ([(PInt 300, PInt 0)] ++ [(PInt 100, PInt 0)])
    (fun g => (g_left g, num_true (g_right g), g_both g, get_selection_rectangle (g_data g), g_width g, g_both_drag g))
    (false, false, true, Ok (Rect 228 132 43 38), Some (PInt 500), Some (PInt 250, PInt 250))) as (g & g' & _ & Hv & Hs);
    [vm_compute; reflexivity|]. injection Hv as Hl Hr Hb Hsel Hw Hd.
  destruct (drag_both_spec sample_extents g _ _ _ _ _ _ _ Hl Hr Hb Hsel Hw Hd Hs)
    as (c & d & delta & a & b & l & r & _ & _ & _ & Hrange & _ & _ & _ & Hf & _).
  exists g, g', a, b. split; [exact Hs|]. split; [exact Hrange|exact Hf].
Defined.

Lemma drag_right_beyond_witness : exists g r,
  after [ButtonPress 270 150] = Ok g /\ motion_notify sample_extents g 600 150 = Ok r /\
  button_release sample_extents r.2 = Raise AttributeError.
Proof.
  eexists _, _. match goal with |- ?A /\ ?B /\ _ =>
    assert A as H1 by (vm_compute; reflexivity); assert B as H2 by (vm_compute; reflexivity) end.
  split; [exact H1|]. split; [exact H2|].
  eapply (drag_right_beyond sample_extents); [..|exact H2]; reflexivity.
Defined.

Lemma zoom_spec_witness : exists g g', sample_gui = Ok g /\ set_bigger_zoom sample_extents g = Ok g' /\
  gr_range (g_data g') = Some (PInt 32, PInt 35).
Proof.
  eexists _, _. match goal with |- ?A /\ ?B /\ _ =>
    assert A as H1 by (vm_compute; reflexivity); assert B as H2 by (vm_compute; reflexivity) end.
  split; [exact H1|]. split; [exact H2|].
  change (PInt 35) with (PInt (32 + (38 - 32) / 2)).
  eapply (zoom_spec sample_extents); [..|exact H2]; (reflexivity || lia).
Defined.

(** Zooming in to a range of length 1: its scale has no step. *)
Example zoom_too_far : after [ZoomInClicked; ZoomInClicked] = Raise ZeroDivisionError.
Proof. vm_compute. reflexivity. Qed.

(** An empty file has nothing to scale. *)
Example main_empty : (g ← main sample_extents []; expose sample_extents g (Rect 0 0 1 1)) = Raise ZeroDivisionError.
Proof. vm_compute. reflexivity. Qed.

(** Releasing an edge that has not been moved. *)
Example release_unmoved : after [ButtonPress 225 150; ButtonRelease] = Raise AttributeError.
Proof. vm_compute. reflexivity. Qed.
