(* ===== verification/TestJobs.v ===== *)
(** * The job queue of [test.py].

    [run_tests] puts the jobs and one break per worker thread on a queue, the
    workers run them and put them on a second queue, from which the main thread
    takes as many as it put.  The threads interleave freely: an execution is a
    list of actions.  Processes are a parameter. *)
From S2P Require Import Prelude PyNum PyString.

(** ** Options and jobs *)

Record options := Options {
  o_buildpath : text; o_constrain : text; o_duration : bool; o_example : text;
  o_update_data : bool; o_fullness : text; o_valgrind : bool; o_kinds : bool;
  o_list : bool; o_multiple : bool; o_nowaf : bool; o_pyexample : text;
  o_retain : bool; o_suite : text; o_text : text; o_verbose : bool;
  o_html : text; o_xml : text
}.

(** The defaults of [main]. *)
Definition default_options : options :=
  Options [] [] false [] false (txt "QUICK") false false false false false [] false [] [] false [] [].

(** The [returncode] starts as [False], which equals 0. *)
Record job := Job {
  is_break : bool; is_skip : bool; skip_reason : text;
  is_example : bool; is_pyexample : bool;
  shell_command : text; display_name : text; basedir : text; tempdir : text;
  cwd : text; tmp_file_name : text;
  returncode : Z; elapsed_time : num; build_path : text
}.
Definition new_job : job := Job false false [] false false [] [] [] [] [] [] 0 0%Z [].

Definition set_is_break (j : job) (b : bool) : job :=
  Job b (is_skip j) (skip_reason j) (is_example j) (is_pyexample j) (shell_command j) (display_name j)
    (basedir j) (tempdir j) (cwd j) (tmp_file_name j) (returncode j) (elapsed_time j) (build_path j).
Definition set_is_skip (j : job) (b : bool) : job :=
  Job (is_break j) b (skip_reason j) (is_example j) (is_pyexample j) (shell_command j) (display_name j)
    (basedir j) (tempdir j) (cwd j) (tmp_file_name j) (returncode j) (elapsed_time j) (build_path j).
Definition set_skip_reason (j : job) (t : text) : job :=
  Job (is_break j) (is_skip j) t (is_example j) (is_pyexample j) (shell_command j) (display_name j)
    (basedir j) (tempdir j) (cwd j) (tmp_file_name j) (returncode j) (elapsed_time j) (build_path j).
Definition set_is_example (j : job) (b : bool) : job :=
  Job (is_break j) (is_skip j) (skip_reason j) b (is_pyexample j) (shell_command j) (display_name j)
    (basedir j) (tempdir j) (cwd j) (tmp_file_name j) (returncode j) (elapsed_time j) (build_path j).
Definition set_is_pyexample (j : job) (b : bool) : job :=
  Job (is_break j) (is_skip j) (skip_reason j) (is_example j) b (shell_command j) (display_name j)
    (basedir j) (tempdir j) (cwd j) (tmp_file_name j) (returncode j) (elapsed_time j) (build_path j).
Definition set_shell_command (j : job) (t : text) : job :=
  Job (is_break j) (is_skip j) (skip_reason j) (is_example j) (is_pyexample j) t (display_name j)
    (basedir j) (tempdir j) (cwd j) (tmp_file_name j) (returncode j) (elapsed_time j) (build_path j).
Definition set_build_path (j : job) (t : text) : job :=
  Job (is_break j) (is_skip j) (skip_reason j) (is_example j) (is_pyexample j) (shell_command j) (display_name j)
    (basedir j) (tempdir j) (cwd j) (tmp_file_name j) (returncode j) (elapsed_time j) t.
Definition set_display_name (j : job) (t : text) : job :=
  Job (is_break j) (is_skip j) (skip_reason j) (is_example j) (is_pyexample j) (shell_command j) t
    (basedir j) (tempdir j) (cwd j) (tmp_file_name j) (returncode j) (elapsed_time j) (build_path j).
Definition set_basedir (j : job) (t : text) : job :=
  Job (is_break j) (is_skip j) (skip_reason j) (is_example j) (is_pyexample j) (shell_command j) (display_name j)
    t (tempdir j) (cwd j) (tmp_file_name j) (returncode j) (elapsed_time j) (build_path j).
Definition set_tempdir (j : job) (t : text) : job :=
  Job (is_break j) (is_skip j) (skip_reason j) (is_example j) (is_pyexample j) (shell_command j) (display_name j)
    (basedir j) t (cwd j) (tmp_file_name j) (returncode j) (elapsed_time j) (build_path j).
Definition set_cwd (j : job) (t : text) : job :=
  Job (is_break j) (is_skip j) (skip_reason j) (is_example j) (is_pyexample j) (shell_command j) (display_name j)
    (basedir j) (tempdir j) t (tmp_file_name j) (returncode j) (elapsed_time j) (build_path j).
Definition set_tmp_file_name (j : job) (t : text) : job :=
  Job (is_break j) (is_skip j) (skip_reason j) (is_example j) (is_pyexample j) (shell_command j) (display_name j)
    (basedir j) (tempdir j) (cwd j) t (returncode j) (elapsed_time j) (build_path j).
Definition set_returncode (j : job) (r : Z) : job :=
  Job (is_break j) (is_skip j) (skip_reason j) (is_example j) (is_pyexample j) (shell_command j) (display_name j)
    (basedir j) (tempdir j) (cwd j) (tmp_file_name j) r (elapsed_time j) (build_path j).
Definition set_elapsed_time (j : job) (t : num) : job :=
  Job (is_break j) (is_skip j) (skip_reason j) (is_example j) (is_pyexample j) (shell_command j) (display_name j)
    (basedir j) (tempdir j) (cwd j) (tmp_file_name j) (returncode j) t (build_path j).

(** ** Running one job *)

(** The global configuration that [read_waf_config] reads. *)
Record waf_config := WafConfig {
  ns3_basedir : text; ns3_builddir : text; appname : text; version : text;
  build_profile : text; python : list text;
  nsc_enabled : bool; enable_examples : bool; enable_tests : bool; enable_python_bindings : bool;
  valgrind_found : bool;
  example_directories : list text; ns3_enabled_modules : list text;
  ns3_enabled_contributed_modules : list text; ns3_module_path : list text
}.

(** A process that has ended; an output is [None] when it cannot be decoded. *)
Record process := Process {
  pr_returncode : Z; pr_stdout : option text; pr_stderr : option text; pr_elapsed : num }.

Section jobs.
Context (opts : options) (conf : waf_config).
(** [Popen(cmd, shell=True, cwd=directory)] and [communicate]; starting the
    process may raise. *)
Context (spawn : text -> text -> res process).

(** The outputs that cannot be decoded stay bytes: [None]. *)
Definition run_job_synchronously (shell_command directory : text) (valgrind is_python : bool)
    (build_path : text) : res (Z * option text * option text * num) :=
  let suppressions_path := path_join (ns3_basedir conf) (txt "testpy.supp") in
  path_cmd ← (if is_python then
                py ← py_get (python conf) 0%Z;
                Ok (py ++ txt " " ++ path_join (ns3_basedir conf) shell_command)
              else match build_path with
                   | [] => Ok (path_join (ns3_builddir conf) shell_command)
                   | _ => Ok (path_join build_path shell_command)
                   end);
  let cmd :=
    if valgrind then
      txt "valgrind --suppressions=" ++ suppressions_path ++
      txt " --leak-check=full --show-reachable=yes --error-exitcode=2 --errors-for-leak-kinds=all " ++ path_cmd
    else path_cmd in
  p ← spawn cmd directory;
  let retval := match pr_stdout p with Some _ => pr_returncode p | None => 1%Z end in
  let retval := match pr_stderr p with Some _ => retval | None => 1%Z end in
  Ok (retval, pr_stdout p, pr_stderr p, pr_elapsed p).

(** What a worker does with a job that it has to run. *)
Definition execute (j : job) : res job :=
  '(rc, _, _, et) ←
    (if is_example j || is_pyexample j then
       run_job_synchronously (shell_command j) (cwd j) (o_valgrind opts) (is_pyexample j) (build_path j)
     else
       let update_data := if o_update_data opts then txt "--update-data" else [] in
       run_job_synchronously
         (shell_command j ++ txt " --xml --tempdir=" ++ tempdir j ++ txt " --out=" ++ tmp_file_name j
            ++ txt " " ++ update_data)
         (cwd j) (o_valgrind opts) false []);
  Ok (set_elapsed_time (set_returncode j rc) et).

(** ** The threads *)

(** A worker waits for a job, has one in hand, runs one, or has ended: it
    returned, or an exception killed it. *)
Inductive worker := Idle | Got (j : job) | Running (j : job) | Exited | Died.

Record system := System {
  s_todo : list job;        (* what the main thread still has to put *)
  s_input : list job;       (* input_queue *)
  s_output : list job;      (* output_queue *)
  s_workers : list worker;
  s_exit : bool;            (* thread_exit *)
  s_left : nat;             (* rounds of [for i in range(jobs)] left *)
  s_results : list job      (* what they took *)
}.

(** The body of [run] after [get]: the worker's next state and what it puts on
    the output queue. *)
Definition after_get (thread_exit : bool) (j : job) : worker * list job :=
  if is_break j then (Exited, [])
  else if thread_exit then (Idle, [set_is_break j true])
  else if is_skip j then (Idle, [j])
  else (Running j, []).

Inductive action := Put | Get (i : nat) | Act (i : nat) | Finish (i : nat) | Collect | Sigint.
#[export] Instance action_eq_dec : EqDecision action.
Proof. solve_decision. Defined.

Definition do_action (a : action) (s : system) : option system :=
  let 'System todo input output workers exit_ left_ results := s in
  match a with
  | Put =>
      match todo with
      | j :: todo => Some (System todo (input ++ [j]) output workers exit_ left_ results)
      | [] => None
      end
  | Get i =>
      match workers !! i, input with
      | Some Idle, j :: input =>
          Some (System todo input output (<[i := Got j]> workers) exit_ left_ results)
      | _, _ => None
      end
  | Act i =>
      match workers !! i with
      | Some (Got j) =>
          let '(w, out) := after_get exit_ j in
          Some (System todo input (output ++ out) (<[i := w]> workers) exit_ left_ results)
      | _ => None
      end
  | Finish i =>
      match workers !! i with
      | Some (Running j) =>
          Some match execute j with
               | Ok j => System todo input (output ++ [j]) (<[i := Idle]> workers) exit_ left_ results
               | _ => System todo input output (<[i := Died]> workers) exit_ left_ results
               end
      | _ => None
      end
  | Collect =>
      match todo, left_, output with
      | [], S n, j :: output => Some (System todo input output workers exit_ n (results ++ [j]))
      | _, _, _ => None
      end
  | Sigint => Some (System todo input output workers true left_ results)
  end.

Definition run_actions : list action -> system -> option system := run_schedule do_action.

(** The break jobs that tell the workers to stop. *)
Definition break_job : job := set_is_break new_job true.

(** The queues when the threads have been started. *)
Definition start (processors : nat) (jobs : list job) : system :=
  System (jobs ++ replicate processors break_job) [] [] (replicate processors Idle) false (length jobs) [].

(** [run_tests] gets past the loop over the results and the [join]s. *)
Definition finished (s : system) : bool :=
  bool_decide (s_todo s = []) && (s_left s =? 0)%nat &&
  forallb (fun w => match w with Exited | Died => true | _ => false end) (s_workers s).
End jobs.

(** ** Invariants of the threads *)

Section jobs_spec.
Context (opts : options) (conf : waf_config) (spawn : text -> text -> res process).
Notation execute := (execute opts conf spawn).
Notation do_action := (do_action opts conf spawn).
Notation run_actions := (run_actions opts conf spawn).

(** What a worker makes of a job that is not interrupted. *)
Definition outcome (j : job) : job :=
  if is_skip j then j else match execute j with Ok j => j | _ => j end.

(** What may come back for a job when the threads have been told to stop or
    not. *)
Definition reported (thread_exit : bool) (j j' : job) : Prop :=
  j' = outcome j \/ (thread_exit = true /\ j' = set_is_break j true).

Definition held (w : worker) : list job :=
  match w with Got j | Running j => [j] | _ => [] end.
Definition live (w : worker) : bool := match w with Exited | Died => false | _ => true end.

Definition lives (ws : list worker) : nat := length (filter (fun w => live w = true) ws).

(** The jobs, and breaks, that no worker has dealt with. *)
Definition waiting (s : system) : list job :=
  s_todo s ++ s_input s ++ (s_workers s ≫= held).
Definition reports (s : system) : list job := s_results s ++ s_output s.

Definition real (l : list job) : list job := filter (fun j => is_break j = false) l.
Definition breaks (l : list job) : nat := length (filter (fun j => is_break j = true) l).

(** A worker that may still take jobs. *)
Definition fresh (w : worker) : Prop :=
  match w with Exited | Died => False | Got j => is_break j = false | _ => True end.

(** Every job of [jobs] can be run. *)
Definition runnable (jobs : list job) : Prop :=
  forall j, j ∈ jobs -> is_break j = false /\ (is_skip j = false -> is_ok (execute j) = true).

Record inv (processors : nat) (jobs : list job) (s : system) : Prop := Inv {
  i_size : length (s_workers s) = processors;
  i_jobs : exists done, jobs ≡ₚ done ++ real (waiting s) /\ Forall2 (reported (s_exit s)) done (reports s);
  i_left : (length (s_results s) + s_left s)%nat = length jobs;
  i_breaks : breaks (waiting s) = lives (s_workers s);
  i_running : Forall (fun w => match w with Died => False | Running j => is_break j = false /\ is_skip j = false
                               | _ => True end) (s_workers s);
  i_order : exists r b, s_input s ++ s_todo s = r ++ b /\ Forall (fun j => is_break j = false) r /\
    Forall (fun j => is_break j = true) b /\ (r <> [] -> Forall fresh (s_workers s))
}.

Lemma worker_split (ws : list worker) i w0 : ws !! i = Some w0 ->
  exists l1 l2, ws = l1 ++ w0 :: l2 /\ forall w, <[i := w]> ws = l1 ++ w :: l2.
Proof.
  intros Hi. exists (take i ws), (drop (S i) ws). split; [by rewrite take_drop_middle|].
  intros w. apply insert_take_drop. by apply lookup_lt_Some in Hi.
Qed.

Lemma real_app l1 l2 : real (l1 ++ l2) = real l1 ++ real l2.
Proof. apply filter_app. Qed.
Lemma breaks_app l1 l2 : breaks (l1 ++ l2) = (breaks l1 + breaks l2)%nat.
Proof. unfold breaks. by rewrite filter_app, length_app. Qed.
Lemma real_one j : real [j] = if is_break j then [] else [j].
Proof. unfold real. rewrite filter_cons, filter_nil. by destruct (is_break j). Qed.
Lemma breaks_cons j l : breaks (j :: l) = ((if is_break j then 1 else 0) + breaks l)%nat.
Proof. unfold breaks. rewrite filter_cons. by destruct (is_break j). Qed.
Lemma breaks_nil : breaks [] = 0%nat.
Proof. done. Qed.
Lemma held_split l1 w l2 : (l1 ++ w :: l2) ≫= held = (l1 ≫= held) ++ held w ++ (l2 ≫= held).
Proof. by rewrite bind_app. Qed.
Lemma lives_split l1 w l2 : lives (l1 ++ w :: l2) = (lives l1 + (if live w then 1 else 0) + lives l2)%nat.
Proof.
  unfold lives. rewrite filter_app, length_app, filter_cons.
  destruct (decide (live w = true)) as [->|Hw]; simpl; [lia|]. destruct (live w); [done|lia].
Qed.

#[local] Hint Rewrite held_split lives_split breaks_app breaks_cons breaks_nil : waits.
#[local] Instance real_proper : Proper ((≡ₚ) ==> (≡ₚ)) real.
Proof. intros l l' Hl. unfold real. by rewrite Hl. Qed.
#[local] Instance breaks_proper : Proper ((≡ₚ) ==> (=)) breaks.
Proof. intros l l' Hl. unfold breaks. by rewrite Hl. Qed.

(** What a step takes from the waiting jobs and adds to the reports. *)
Inductive moved (s s' : system) : Prop :=
| moved_nothing : waiting s ≡ₚ waiting s' -> reports s' = reports s -> moved s s'
| moved_break j : is_break j = true -> waiting s ≡ₚ [j] ++ waiting s' -> reports s' = reports s -> moved s s'
| moved_job j j' : is_break j = false -> reported (s_exit s) j j' ->
    waiting s ≡ₚ [j] ++ waiting s' -> reports s' = reports s ++ [j'] -> moved s s'.

Lemma moved_jobs jobs s s' : moved s s' -> (s_exit s = true -> s_exit s' = true) ->
  (exists done, jobs ≡ₚ done ++ real (waiting s) /\ Forall2 (reported (s_exit s)) done (reports s)) ->
  exists done, jobs ≡ₚ done ++ real (waiting s') /\ Forall2 (reported (s_exit s')) done (reports s').
Proof.
  intros Hm He (done & Hj & Hf).
  assert (forall j j', reported (s_exit s) j j' -> reported (s_exit s') j j') as Hmono.
  { intros j j' [->|[Ht ->]]; [by left|right; auto]. }
  apply (Forall2_impl _ (reported (s_exit s'))) in Hf; [|done].
  destruct Hm as [Hw Hr|j Hb Hw Hr|j j' Hb Hjj Hw Hr]; rewrite Hr.
  - exists done. by rewrite <- Hw.
  - exists done. split; [|done]. rewrite Hj, Hw, real_app, real_one, Hb. done.
  - exists (done ++ [j]). split; [|apply Forall2_app; [done|by constructor; auto]].
    rewrite Hj, Hw, real_app, real_one, Hb. by rewrite <- app_assoc.
Qed.

(** The steps of the threads, by what happens; [true] for the interrupt. *)
Inductive step : bool -> system -> system -> Prop :=
| step_put j todo input output ws ex n res :
    step false (System (j :: todo) input output ws ex n res) (System todo (input ++ [j]) output ws ex n res)
| step_get j todo input output l1 l2 ex n res :
    step false (System todo (j :: input) output (l1 ++ Idle :: l2) ex n res)
         (System todo input output (l1 ++ Got j :: l2) ex n res)
| step_break j todo input output l1 l2 ex n res : is_break j = true ->
    step false (System todo input output (l1 ++ Got j :: l2) ex n res)
         (System todo input output (l1 ++ Exited :: l2) ex n res)
| step_stop j todo input output l1 l2 n res : is_break j = false ->
    step false (System todo input output (l1 ++ Got j :: l2) true n res)
         (System todo input (output ++ [set_is_break j true]) (l1 ++ Idle :: l2) true n res)
| step_skip j todo input output l1 l2 n res : is_break j = false -> is_skip j = true ->
    step false (System todo input output (l1 ++ Got j :: l2) false n res)
         (System todo input (output ++ [j]) (l1 ++ Idle :: l2) false n res)
| step_launch j todo input output l1 l2 n res : is_break j = false -> is_skip j = false ->
    step false (System todo input output (l1 ++ Got j :: l2) false n res)
         (System todo input output (l1 ++ Running j :: l2) false n res)
| step_done j j' todo input output l1 l2 ex n res : execute j = Ok j' ->
    step false (System todo input output (l1 ++ Running j :: l2) ex n res)
         (System todo input (output ++ [j']) (l1 ++ Idle :: l2) ex n res)
| step_die j todo input output l1 l2 ex n res : is_ok (execute j) = false ->
    step false (System todo input output (l1 ++ Running j :: l2) ex n res)
         (System todo input output (l1 ++ Died :: l2) ex n res)
| step_collect j input output ws ex n res :
    step false (System [] input (j :: output) ws ex (S n) res) (System [] input output ws ex n (res ++ [j]))
| step_sigint todo input output ws ex n res :
    step true (System todo input output ws ex n res) (System todo input output ws true n res).
#[local] Hint Constructors step : core.

Lemma do_action_step a s s' : do_action a s = Some s' -> step (bool_decide (a = Sigint)) s s'.
Proof.
  destruct s as [todo input output ws ex n res]. intros Ha.
  destruct a as [|i|i|i| |]; simpl in Ha.
  - destruct todo; simplify_eq. auto.
  - destruct (ws !! i) as [[]|] eqn:Hi; try done. destruct input; simplify_eq.
    destruct (worker_split _ _ _ Hi) as (l1 & l2 & -> & ->). auto.
  - destruct (ws !! i) as [[]|] eqn:Hi; try done. destruct (worker_split _ _ _ Hi) as (l1 & l2 & -> & Hw).
    unfold after_get in Ha.
    destruct (is_break j) eqn:Hb; [|destruct ex; [|destruct (is_skip j) eqn:Hk]]; simplify_eq;
      rewrite Hw, ?app_nil_r; auto.
  - destruct (ws !! i) as [[]|] eqn:Hi; try done. destruct (worker_split _ _ _ Hi) as (l1 & l2 & -> & Hw).
    destruct (execute j) as [j'| |] eqn:He; simplify_eq; rewrite Hw; auto; by apply step_die; rewrite He.
  - destruct todo; [|done]. destruct n; [done|]. destruct output; simplify_eq. auto.
  - simplify_eq. auto.
Qed.

Lemma running_ok processors jobs s j : runnable jobs -> inv processors jobs s -> Running j ∈ s_workers s ->
  is_break j = false /\ is_skip j = false /\ is_ok (execute j) = true.
Proof.
  intros Hrun Hinv Hj. destruct (proj1 (Forall_forall _ _) (i_running _ _ _ Hinv) _ Hj) as [Hb Hk].
  repeat split; try done. destruct (i_jobs _ _ _ Hinv) as (done & Hp & _).
  apply Hrun; [|done]. rewrite Hp, elem_of_app. right. apply list_elem_of_filter. split; [done|].
  unfold waiting. rewrite !elem_of_app. right; right. apply list_elem_of_bind. exists (Running j). set_solver.
Qed.

Ltac unfold_lists := unfold waiting, reports; simpl; rewrite ?held_split, ?app_assoc; simpl.
Ltac in_middle := simpl; rewrite elem_of_app; right; left.

Lemma step_moved processors jobs b s s' : runnable jobs -> inv processors jobs s -> step b s s' -> moved s s'.
Proof.
  intros Hrun Hinv Hs.
  destruct Hs as [| |j|j|j|j|j j' ???????? He|j| |].
  - apply moved_nothing; unfold_lists; [solve_Permutation|done].
  - apply moved_nothing; unfold_lists; [solve_Permutation|done].
  - apply (moved_break _ _ j); unfold_lists; [done|solve_Permutation|done].
  - apply (moved_job _ _ j (set_is_break j true)); unfold_lists; [done|by right|solve_Permutation|done].
  - apply (moved_job _ _ j j); unfold_lists; [done| |solve_Permutation|done]. left. unfold outcome. by case_match.
  - apply moved_nothing; unfold_lists; done.
  - destruct (running_ok _ _ _ j Hrun Hinv) as (Hb & Hk & _); [by in_middle|].
    apply (moved_job _ _ j j'); unfold_lists; [done| |solve_Permutation|done]. left. unfold outcome. by rewrite Hk, He.
  - destruct (running_ok _ _ _ j Hrun Hinv) as (_ & _ & Ho); [by in_middle|congruence].
  - apply moved_nothing; [done|]. unfold reports; simpl. by rewrite <- app_assoc.
  - by apply moved_nothing.
Qed.

(** A step keeps what the workers may be doing. *)
Lemma step_inv processors jobs i s s' : runnable jobs -> inv processors jobs s -> step i s s' ->
  inv processors jobs s'.
Proof.
  intros Hrun Hinv Hs. pose proof (step_moved _ _ _ _ _ Hrun Hinv Hs) as Hm.
  assert (s_exit s = true -> s_exit s' = true) as He by by destruct Hs.
  pose proof (moved_jobs _ _ _ Hm He (i_jobs _ _ _ Hinv)) as Hjobs.
  pose proof (fun j => running_ok _ _ _ j Hrun Hinv) as Hok.
  destruct Hinv as [Hsz _ Hn Hbr Hr (r & b & Ho & Hrb & Hb & Hf)].
  destruct Hs as [j|j|j ???????? Hj|j ??????? Hj|j ??????? Hj|j ??????? Hj|j j'|j ???????? Hj| |]; simpl in *.
  7: destruct (Hok j) as (Hj & _ & _); [by in_middle|].
  8: destruct (Hok j) as (_ & _ & Hc); [by in_middle|congruence].
  all: rewrite ?Forall_app, ?Forall_cons in Hf, Hr; unfold waiting in Hbr; simpl in *;
    autorewrite with waits in Hbr; simpl in Hbr; autorewrite with waits in Hbr;
    (split; simpl; [rewrite ?length_app in *; simpl in *; lia|done|rewrite ?length_app in *; simpl in *; lia| | |]).
  all: try match goal with
    | |- breaks _ = _ =>
        unfold waiting; simpl; autorewrite with waits; simpl; autorewrite with waits;
          repeat case_match; simpl in *; congruence || lia
    | |- Forall _ _ => rewrite ?Forall_app, ?Forall_cons; tauto
    | |- exists r b, _ =>
        exists r, b; split; [by rewrite <- ?app_assoc|]; split; [done|]; split; [done|];
          rewrite ?Forall_app, ?Forall_cons; simpl; intuition congruence
    end.
  destruct r as [|j0 r]; simplify_eq/=.
  { apply Forall_cons in Hb as [_ Hb]. exists [], (input ++ todo). repeat split; [constructor|done|congruence]. }
  rewrite Forall_cons in Hrb. destruct Hf as (? & ? & ?); [done|].
  exists r, b. rewrite Forall_app, Forall_cons. simpl. intuition.
Qed.

Lemma real_none l : Forall (fun j => is_break j = true) l -> real l = [].
Proof. induction 1 as [|j l Hj _ IH]; [done|]. unfold real. by rewrite filter_cons_False by congruence. Qed.
Lemma real_all l : Forall (fun j => is_break j = false) l -> real l = l.
Proof. induction 1 as [|j l Hj _ IH]; [done|]. unfold real. rewrite filter_cons_True by done. by f_equal. Qed.
Lemma breaks_all l : Forall (fun j => is_break j = true) l -> breaks l = length l.
Proof. induction 1 as [|j l Hj _ IH]; [done|]. rewrite breaks_cons, Hj, IH. done. Qed.
Lemma breaks_none l : Forall (fun j => is_break j = false) l -> breaks l = 0%nat.
Proof. induction 1 as [|j l Hj _ IH]; [done|]. by rewrite breaks_cons, Hj, IH. Qed.
Lemma length_split l : length l = (length (real l) + breaks l)%nat.
Proof.
  induction l as [|j l IH]; [done|]. rewrite breaks_cons. change (j :: l) with ([j] ++ l) at 2.
  rewrite real_app, real_one. simpl. rewrite IH. destruct (is_break j); simpl; lia.
Qed.
Lemma idle_held n : replicate n Idle ≫= held = [].
Proof. induction n; done. Qed.
Lemma idle_lives n : lives (replicate n Idle) = n.
Proof. induction n as [|n IH]; [done|]. change (lives ([] ++ Idle :: replicate n Idle) = S n). rewrite lives_split, IH. done. Qed.

Notation no_breaks := (Forall (fun j => is_break j = false)).
Lemma runnable_no_breaks jobs : runnable jobs -> no_breaks jobs.
Proof. intros H. apply Forall_forall. intros j Hj. by apply H. Qed.
Lemma break_jobs n : Forall (fun j => is_break j = true) (replicate n break_job).
Proof. by apply Forall_replicate. Qed.

Lemma start_waiting processors jobs : waiting (start processors jobs) = jobs ++ replicate processors break_job.
Proof. unfold waiting. simpl. by rewrite idle_held, app_nil_r. Qed.

Lemma start_inv processors jobs : no_breaks jobs -> inv processors jobs (start processors jobs).
Proof.
  intros Hj. split; rewrite ?start_waiting; simpl.
  - apply length_replicate.
  - exists []. rewrite real_app, (real_all _ Hj), (real_none _ (break_jobs _)), app_nil_r. by split; [|constructor].
  - done.
  - by rewrite breaks_app, (breaks_none _ Hj), (breaks_all _ (break_jobs _)), length_replicate, idle_lives.
  - by apply Forall_replicate.
  - exists jobs, (replicate processors break_job). repeat split; auto using break_jobs. intros _. by apply Forall_replicate.
Qed.

Lemma run_actions_cons a acts s : run_actions (a :: acts) s = do_action a s ≫= run_actions acts.
Proof. apply run_schedule_cons. Qed.

Lemma run_inv processors jobs acts s : runnable jobs -> run_actions acts (start processors jobs) = Some s ->
  inv processors jobs s.
Proof.
  intros Hrun Hr. apply (run_schedule_ind _ (inv processors jobs) _ _ _ Hr).
  - by apply start_inv, runnable_no_breaks.
  - intros a t t' _ Ha%do_action_step Ht. by eapply step_inv.
Qed.

Lemma run_uninterrupted acts s s' : Sigint ∉ acts -> run_actions acts s = Some s' -> s_exit s' = s_exit s.
Proof.
  intros Hn Hr. apply (run_schedule_ind _ (fun t => s_exit t = s_exit s) _ _ _ Hr); [done|].
  intros a t t' Ha Hd <-. assert (a <> Sigint) as Has by congruence. clear -Hd Has.
  destruct t; destruct a; simpl in Hd; try done; repeat case_match; simplify_eq/=; done.
Qed.

(** ** Every job comes back *)

Lemma finished_spec s : finished s = true <-> s_todo s = [] /\ s_left s = 0%nat /\ lives (s_workers s) = 0%nat.
Proof.
  unfold finished. rewrite !andb_true_iff, bool_decide_eq_true, Nat.eqb_eq.
  enough (forall ws, forallb (fun w => match w with Exited | Died => true | _ => false end) ws = true <-> lives ws = 0%nat)
    as -> by tauto.
  intros ws. induction ws as [|w ws IH]; [done|]. change (w :: ws) with ([] ++ w :: ws). rewrite lives_split. simpl.
  rewrite andb_true_iff, IH. destruct w; simpl; intuition lia.
Qed.

(** All the queues are empty in the end. *)
Lemma finished_empty processors jobs s : inv processors jobs s -> finished s = true ->
  real (waiting s) = [] /\ s_input s = [] /\ s_output s = [].
Proof.
  intros [_ (done & Hj & Hf) Hn Hb _ _] (Ht & Hl & Hw)%finished_spec.
  apply Permutation_length in Hj. apply Forall2_length in Hf. rewrite length_app in *. unfold reports in Hf.
  rewrite length_app in Hf. rewrite Hw in Hb.
  assert (real (waiting s) = []) as Hr by (apply nil_length_inv; lia).
  split; [done|]. split; [|apply nil_length_inv; lia].
  apply nil_length_inv. pose proof (length_split (waiting s)) as Hs. rewrite Hr, Hb in Hs. unfold waiting in Hs.
  rewrite !length_app in Hs. simpl in Hs. lia.
Qed.

(** The jobs behind the results. *)
Lemma run_done processors jobs acts s : runnable jobs ->
  run_actions acts (start processors jobs) = Some s -> finished s = true ->
  s_input s = [] /\ s_output s = [] /\
  exists done, done ≡ₚ jobs /\ Forall2 (reported (s_exit s)) done (s_results s).
Proof.
  intros Hrun Hr Hfin. pose proof (run_inv _ _ _ _ Hrun Hr) as Hinv.
  destruct (finished_empty _ _ _ Hinv Hfin) as (Hw & Hi & Ho).
  destruct (i_jobs _ _ _ Hinv) as (done & Hp & Hf). unfold reports in Hf.
  rewrite Hw, app_nil_r in Hp. rewrite Ho, app_nil_r in Hf. split; [done|]. split; [done|]. by exists done.
Qed.

Lemma reported_outcome l l' : Forall2 (reported false) l l' -> l' = outcome <$> l.
Proof. induction 1 as [|j j' l l' [->|[? _]] _ IH]; [done| |done]. by rewrite IH. Qed.

Lemma execute_break j j' : execute j = Ok j' -> is_break j' = is_break j.
Proof. intros H. unfold TestJobs.execute in H. apply bind_ok in H as ([[[rc o] e] et] & _ & [= <-]). by destruct j. Qed.
Lemma outcome_break j : is_break (outcome j) = is_break j.
Proof. unfold outcome. destruct (is_skip j); [done|]. destruct (execute j) eqn:He; [|done..]. by apply execute_break. Qed.

(** C8: However the threads interleave, once [run_tests] is past the joins every
    job has come back exactly once: as its execution left it, or, after an
    interrupt, as a break.  Without an interrupt the main thread has the jobs
    that running them one after the other would give, in some order. *)
Theorem jobs_reported processors jobs acts s : runnable jobs ->
  run_actions acts (start processors jobs) = Some s -> finished s = true ->
  s_input s = [] /\ s_output s = [] /\
  (exists done, done ≡ₚ jobs /\ Forall2 (reported (s_exit s)) done (s_results s)) /\
  (Sigint ∉ acts -> s_results s ≡ₚ outcome <$> jobs).
Proof.
  intros Hrun Hr Hfin. destruct (run_done _ _ _ _ Hrun Hr Hfin) as (Hi & Ho & done & Hp & Hf).
  split; [done|]. split; [done|]. split; [by exists done|]. intros Hs.
  rewrite (run_uninterrupted _ _ _ Hs Hr) in Hf. apply reported_outcome in Hf as ->. by rewrite Hp.
Qed.

(** *** Termination *)

Definition cost (w : worker) : nat :=
  match w with Got _ => 3 | Running _ => 2 | Idle | Exited | Died => 0 end.
Definition costs (ws : list worker) : nat := sum_list_with cost ws.
Definition work (s : system) : nat :=
  5 * length (s_todo s) + 4 * length (s_input s) + costs (s_workers s) + length (s_output s).

Lemma costs_split l1 w l2 : costs (l1 ++ w :: l2) = (costs l1 + cost w + costs l2)%nat.
Proof. unfold costs. rewrite sum_list_with_app. simpl. lia. Qed.

Lemma step_work i s s' : step i s s' -> (work s' + (if i then 0 else 1) <= work s)%nat.
Proof.
  intros Hs. destruct Hs; unfold work; simpl; rewrite ?length_app, ?costs_split; simpl; lia.
Qed.

Lemma run_work acts s s' : run_actions acts s = Some s' ->
  (length (filter (fun a => a <> Sigint) acts) + work s' <= work s)%nat.
Proof.
  revert s. induction acts as [|a acts IH]; intros s Hr; [by injection Hr as <-|].
  rewrite run_actions_cons in Hr. destruct (do_action a s) as [t|] eqn:Ha; [|done]. simpl in Hr.
  apply do_action_step, step_work in Ha. apply IH in Hr. rewrite filter_cons. case_bool_decide; case_decide; simpl; (done || lia).
Qed.

Lemma find_worker (P : worker -> bool) (ws : list worker) : (exists i w, ws !! i = Some w /\ P w = true) \/ Forall (fun w => P w = false) ws.
Proof.
  induction ws as [|w ws [(i & v & Hi & Hv)|IH]]; [by right|left; by exists (S i), v|].
  destruct (P w) eqn:Hw; [left; by exists 0%nat, w|right; by constructor].
Qed.

Definition busy (w : worker) : bool := match w with Got _ | Running _ => true | _ => false end.
Lemma busy_moves i w s : s_workers s !! i = Some w -> busy w = true -> exists a, a <> Sigint /\ is_Some (do_action a s).
Proof.
  intros Hi Hw. destruct s as [todo input output ws ex n res]. destruct w as [|j|j| |]; try done; simpl in Hi.
  - exists (Act i). split; [done|]. simpl. rewrite Hi. by destruct (after_get ex j).
  - exists (Finish i). split; [done|]. simpl. rewrite Hi. by eexists.
Qed.

Lemma not_busy_held ws : Forall (fun w => busy w = false) ws -> ws ≫= held = [].
Proof. induction 1 as [|[] ws Hw _ IH]; done. Qed.

Lemma lives_zero ws : Forall (fun w => live w = false) ws -> lives ws = 0%nat.
Proof. induction 1 as [|w ws Hw _ IH]; [done|]. unfold lives in *. by rewrite filter_cons_False by congruence. Qed.

(** A system that is not finished can move. *)
Lemma can_move processors jobs s : (0 < processors)%nat -> inv processors jobs s -> finished s = false ->
  exists a, a <> Sigint /\ is_Some (do_action a s).
Proof.
  intros Hp Hinv Hfin.
  destruct (find_worker busy (s_workers s)) as [(i & w & Hi & Hw)|Hbusy]; [by eapply busy_moves|].
  destruct Hinv as [Hsz (done & Hj & Hf) Hn Hb _ (r & b & Ho & Hr & Hbb & Hfr)].
  unfold waiting in *. rewrite (not_busy_held _ Hbusy), app_nil_r in *.
  destruct s as [todo input output ws ex n res]. simpl in *.
  destruct todo as [|j todo]; [|exists Put; by split; [|eexists]].
  destruct (find_worker live ws) as [(i & w & Hi & Hw)|Hlive].
  - destruct input as [|j input].
    + exfalso. assert (0 < lives ws)%nat; [|simpl in Hb; rewrite ?breaks_nil in Hb; lia].
      destruct (worker_split _ _ _ Hi) as (l1 & l2 & -> & _). rewrite lives_split, Hw. lia.
    + destruct w; try done.
      * exists (Get i). split; [done|]. simpl. rewrite Hi. by eexists.
      * pose proof (proj1 (Forall_lookup _ _) Hbusy _ _ Hi). done.
      * pose proof (proj1 (Forall_lookup _ _) Hbusy _ _ Hi). done.
  - destruct n as [|n].
    { exfalso. assert (finished (System [] input output ws ex 0 res) = true); [|congruence].
      apply finished_spec. simpl. auto using lives_zero. }
    destruct output as [|j output]; [|exists Collect; by split; [|eexists]]. exfalso.
    unfold reports in Hf; simpl in *. rewrite app_nil_r in *. apply Permutation_length in Hj. apply Forall2_length in Hf.
    rewrite length_app in Hj.
    assert (r <> []) as Hr0.
    { intros ->. simpl in Ho. rewrite ?app_nil_r in Ho. subst b. rewrite (real_none _ Hbb) in Hj. simpl in Hj. lia. }
    specialize (Hfr Hr0). destruct ws as [|w ws]; simpl in *; [lia|].
    apply Forall_cons in Hfr as [Hw _]. apply Forall_cons in Hlive as [Hw' _]. by destruct w.
Qed.

Lemma can_finish processors jobs s : runnable jobs -> (0 < processors)%nat -> inv processors jobs s ->
  exists acts s', Sigint ∉ acts /\ run_actions acts s = Some s' /\ finished s' = true.
Proof.
  intros Hrun Hp. induction s as [s IH] using (induction_ltof1 _ work). intros Hinv.
  destruct (finished s) eqn:Hf; [exists [], s; split; [apply not_elem_of_nil|done]|].
  destruct (can_move _ _ _ Hp Hinv Hf) as (a & Ha & t & Ht). pose proof (do_action_step _ _ _ Ht) as Hs.
  rewrite bool_decide_eq_false_2 in Hs by done.
  destruct (IH t) as (acts & s' & Hn & Hr & Hd); [apply step_work in Hs; unfold ltof; lia|by eapply step_inv|].
  exists (a :: acts), s'. rewrite run_actions_cons, Ht. split; [by apply not_elem_of_cons|done].
Qed.

(** C9: With at least one worker the run always gets to its end: no schedule
    is longer than five steps per job and worker, a system that is not finished
    can always move, and whatever has happened so far the threads can finish. *)
Theorem jobs_finish processors jobs acts s : runnable jobs -> (0 < processors)%nat ->
  run_actions acts (start processors jobs) = Some s ->
  (length (filter (fun a => a <> Sigint) acts) <= 5 * (length jobs + processors))%nat /\
  (finished s = false -> exists a, a <> Sigint /\ is_Some (do_action a s)) /\
  exists acts' s', Sigint ∉ acts' /\ run_actions acts' s = Some s' /\ finished s' = true.
Proof.
  intros Hrun Hp Hr. pose proof (run_inv _ _ _ _ Hrun Hr) as Hinv. repeat split.
  - apply run_work in Hr. assert (forall n, costs (replicate n Idle) = 0%nat) as Hc by by induction n.
    assert (work (start processors jobs) = 5 * (length jobs + processors))%nat; [|lia].
    unfold work; simpl. rewrite length_app, length_replicate, Hc. lia.
  - by eapply can_move.
  - by eapply can_finish.
Qed.

(** *** A job that cannot be run *)

Definition deaths (ws : list worker) : nat := sum_list_with (fun w => match w with Died => 1%nat | _ => 0%nat end) ws.
Lemma deaths_split l1 w l2 : deaths (l1 ++ w :: l2) = (deaths l1 + (match w with Died => 1 | _ => 0 end) + deaths l2)%nat.
Proof. unfold deaths. rewrite sum_list_with_app. simpl. lia. Qed.

Record counted (jobs : list job) (s : system) : Prop := Counted {
  c_left : (length (s_results s) + s_left s)%nat = length jobs;
  c_total : (length (reports s) + length (real (waiting s)) + deaths (s_workers s))%nat = length jobs;
  c_running : Forall (fun w => match w with Running j => is_break j = false | _ => True end) (s_workers s)
}.

Lemma real_cons j l : real (j :: l) = (if is_break j then [] else [j]) ++ real l.
Proof. change (j :: l) with ([j] ++ l). by rewrite real_app, real_one. Qed.

#[local] Hint Rewrite @length_app real_app real_cons : counts.

Lemma step_counted jobs i s s' : step i s s' -> counted jobs s ->
  counted jobs s' /\ (deaths (s_workers s) <= deaths (s_workers s'))%nat.
Proof.
  intros Hs [Hl Ht Hr]. unfold reports, waiting in *.
  destruct Hs as [j|j|j ???????? Hj|j ??????? Hj|j ??????? Hj|j ??????? Hj|j j'|j ???????? Hj| |]; simpl in *;
    rewrite ?held_split, ?deaths_split, ?Forall_app, ?Forall_cons in *; simpl in *; destruct_and?; (split; [split|]).
  all: unfold reports, waiting; simpl; rewrite ?held_split, ?deaths_split, ?Forall_app, ?Forall_cons; simpl; try tauto.
  all: autorewrite with counts in *; simpl in *; autorewrite with counts in *.
  all: repeat (match goal with H : context [if is_break ?j then _ else _] |- _ => destruct (is_break j) end);
    simpl in *; congruence || lia.
Qed.

Lemma start_counted processors jobs : no_breaks jobs -> counted jobs (start processors jobs).
Proof.
  intros Hj. split; simpl; [done| |by apply Forall_replicate].
  rewrite start_waiting, real_app, (real_all _ Hj), (real_none _ (break_jobs _)), app_nil_r. simpl.
  assert (forall n, deaths (replicate n Idle) = 0%nat) as -> by by induction n. lia.
Qed.

(** A worker that is killed by an exception (a job whose process cannot be
    started) takes its job with it: the main thread waits for it for ever,
    whatever the other threads do. *)
Theorem jobs_hang processors jobs acts s acts' s' : Forall (fun j => is_break j = false) jobs ->
  run_actions acts (start processors jobs) = Some s -> Died ∈ s_workers s ->
  run_actions acts' s = Some s' -> finished s' = false.
Proof.
  intros Hj Hr Hd Hr'. destruct (finished s') eqn:Hf; [|done]. exfalso.
  assert (counted jobs s) as Hs.
  { apply (run_schedule_ind _ (counted jobs) _ _ _ Hr); [by apply start_counted|].
    intros a t t' _ Ht%do_action_step Hc. by eapply step_counted. }
  assert (counted jobs s' /\ (1 <= deaths (s_workers s'))%nat) as [[Hl Ht _] Hd'].
  { apply (run_schedule_ind _ (fun t => counted jobs t /\ (1 <= deaths (s_workers t))%nat) _ _ _ Hr').
    - split; [done|]. apply list_elem_of_split in Hd as (l1 & l2 & ->). rewrite deaths_split. lia.
    - intros a t t' _ Ha%do_action_step [Hc Hd1]. destruct (step_counted _ _ _ _ Ha Hc). split; [done|lia]. }
  apply finished_spec in Hf as (_ & Hn & _). unfold reports in Ht. rewrite length_app in Ht. lia.
Qed.
End jobs_spec.

(** ** Examples *)

Definition demo_config : waf_config :=
  WafConfig (txt "/ns") (txt "/ns/build") (txt "ns") (txt "3") (txt "debug") [txt "python3"]
    false true true false true [] [] [] [].
(** Every process succeeds, outside of a directory that does not exist. *)
Definition demo_spawn (cmd directory : text) : res process :=
  if decide (directory = txt "/gone") then Raise IOError else Ok (Process 0 (Some []) (Some []) 0%Z).
Definition demo_jobs : list job :=
  [set_shell_command new_job (txt "runner"); set_is_skip new_job true].
Definition demo_schedule : list action :=
  [Put; Get 1; Put; Act 1; Get 0; Put; Act 0; Finish 1; Get 0; Put; Collect; Act 0; Get 1; Collect; Act 1].

Lemma demo_runnable : runnable default_options demo_config demo_spawn demo_jobs.
Proof. unfold runnable. apply (Forall_forall (fun j => is_break j = false /\ _) demo_jobs). by repeat constructor. Qed.

Definition demo_run (acts : list action) (processors : nat) (jobs : list job) : option system :=
  run_actions default_options demo_config demo_spawn acts (start processors jobs).

(** Two workers, no interrupt: the second job comes back first. *)
Lemma jobs_reported_witness : exists s, demo_run demo_schedule 2 demo_jobs = Some s /\
  s_results s = [set_is_skip new_job true; set_shell_command new_job (txt "runner")] /\
  s_results s ≡ₚ outcome default_options demo_config demo_spawn <$> demo_jobs.
Proof.
  destruct (demo_run demo_schedule 2 demo_jobs) as [s|] eqn:Hs; [|vm_compute in Hs; discriminate Hs].
  exists s. split; [reflexivity|]. split; [vm_compute in Hs; injection Hs as <-; vm_compute; reflexivity|].
  apply (jobs_reported default_options demo_config demo_spawn 2 demo_jobs demo_schedule s demo_runnable Hs).
  - vm_compute in Hs. injection Hs as <-. reflexivity.
  - apply (bool_decide_unpack (Sigint ∉ demo_schedule)). vm_compute. exact I.
Defined.

(** After an interrupt the threads can still finish. *)
Lemma jobs_finish_witness : exists s, demo_run [Put; Put; Get 0; Sigint] 2 demo_jobs = Some s /\
  exists acts' s', run_actions default_options demo_config demo_spawn acts' s = Some s' /\ finished s' = true.
Proof.
  destruct (demo_run [Put; Put; Get 0; Sigint] 2 demo_jobs) as [s|] eqn:Hs; [|vm_compute in Hs; discriminate Hs].
  exists s. split; [reflexivity|].
  destruct (jobs_finish default_options demo_config demo_spawn 2 demo_jobs [Put; Put; Get 0; Sigint] s demo_runnable)
    as (_ & _ & acts' & s' & _ & Hr & Hf); [lia|exact Hs|].
  exists acts', s'. split; [exact Hr|exact Hf].
Defined.

(** The directory of the only job is missing. *)
Definition lost_job : job := set_cwd new_job (txt "/gone").
Lemma jobs_hang_witness : exists s, demo_run [Put; Get 0; Act 0; Finish 0] 1 [lost_job] = Some s /\
  s_workers s = [Died] /\ finished s = false.
Proof.
  destruct (demo_run [Put; Get 0; Act 0; Finish 0] 1 [lost_job]) as [s|] eqn:Hs; [|vm_compute in Hs; discriminate Hs].
  exists s. split; [reflexivity|].
  assert (s_workers s = [Died]) as Hw by (vm_compute in Hs; injection Hs as <-; reflexivity). split; [exact Hw|].
  apply (jobs_hang default_options demo_config demo_spawn 1 [lost_job] [Put; Get 0; Act 0; Finish 0] s [] s).
  - by repeat constructor.
  - exact Hs.
  - rewrite Hw. constructor.
  - reflexivity.
Defined.
