(* ===== verification/TestReport.v ===== *)
(** * The results of [test.py].

    Module [Tally]: the loop of [run_tests] over the results, the summary and the
    exit status.  Module [Translate]: the text and HTML reports made from the XML
    results; the XML parser is a parameter.  Module [Finish]: the end of
    [run_tests]. *)
From S2P Require Import Prelude PyNum PyString PyFloat PyXml TestJobs.

Definition dq : text := ["034"%char].
Definition nl : text := [newline].

(** ["%.3f"] *)
Definition fmt3 : num -> res text := fmt 3.

Module Tally.

Inductive status := PASS | FAIL | VALGR | SKIP | CRASH.
#[export] Instance status_eq_dec : EqDecision status.
Proof. solve_decision. Defined.

Definition show_status (s : status) : text :=
  match s with
  | PASS => txt "PASS" | FAIL => txt "FAIL" | VALGR => txt "VALGR" | SKIP => txt "SKIP" | CRASH => txt "CRASH"
  end.

Record tally := MkTally {
  passed_tests : Z;
  failed_tests : Z; failed_testnames : list text;
  crashed_tests : Z; crashed_testnames : list text;
  valgrind_errors : Z; valgrind_testnames : list text;
  skipped_tests : Z; skipped_testnames : list text;
  stdout : list text;      (* the lines printed *)
  xml : text               (* what is appended to results.xml *)
}.
Definition no_tests : tally := MkTally 0 0 [] 0 [] 0 [] 0 [] [] [].

Definition status_of (j : job) : status :=
  if is_skip j then SKIP
  else if (returncode j =? 0)%Z then PASS
  else if (returncode j =? 1)%Z then FAIL
  else if (returncode j =? 2)%Z then VALGR
  else CRASH.

Definition skipped_name (j : job) : text := display_name j ++ txt " (" ++ skip_reason j ++ txt ")".

(** The counters and the lists of names. *)
Definition count (j : job) (t : tally) : tally :=
  let 'MkTally p f fn c cn v vn s sn out x := t in
  match status_of j with
  | SKIP => MkTally p f fn c cn v vn (s + 1) (sn ++ [skipped_name j]) out x
  | PASS => MkTally (p + 1) f fn c cn v vn s sn out x
  | FAIL => MkTally p (f + 1) (fn ++ [display_name j]) c cn v vn s sn out x
  | VALGR => MkTally p f fn c cn (v + 1) (vn ++ [display_name j]) s sn out x
  | CRASH => MkTally p f fn (c + 1) (cn ++ [display_name j]) v vn s sn out x
  end.

Definition say (line : text) (t : tally) : tally :=
  MkTally (passed_tests t) (failed_tests t) (failed_testnames t) (crashed_tests t) (crashed_testnames t)
    (valgrind_errors t) (valgrind_testnames t) (skipped_tests t) (skipped_testnames t) (stdout t ++ [line]) (xml t).
Definition append (s : text) (t : tally) : tally :=
  MkTally (passed_tests t) (failed_tests t) (failed_testnames t) (crashed_tests t) (crashed_testnames t)
    (valgrind_errors t) (valgrind_testnames t) (skipped_tests t) (skipped_testnames t) (stdout t) (xml t ++ s).

Section collect.
Context (opts : options).
(** The files that the test suites have written. *)
Context (fs : text -> option text).

Definition status_line (j : job) : res text :=
  let kind := if is_example j || is_pyexample j then txt "Example" else txt "TestSuite" in
  if o_duration opts || bool_decide (o_constrain opts = txt "performance") then
    et ← fmt3 (elapsed_time j);
    Ok (show_status (status_of j) ++ txt " (" ++ et ++ txt "): " ++ kind ++ txt " " ++ display_name j)
  else Ok (show_status (status_of j) ++ txt ": " ++ kind ++ txt " " ++ display_name j).

Definition xml_entry (j : job) : res text :=
  if is_example j || is_pyexample j then
    et ← fmt3 (elapsed_time j);
    Ok (txt "<Example>" ++ nl ++
        txt "  <Name>" ++ display_name j ++ txt "</Name>" ++ nl ++
        txt "  <Result>" ++ show_status (status_of j) ++ txt "</Result>" ++ nl ++
        txt "  <Time real=" ++ dq ++ et ++ dq ++ txt "/>" ++ nl ++
        txt "</Example>" ++ nl)
  else if is_skip j then
    Ok (txt "<Test>" ++ nl ++
        txt "  <Name>" ++ display_name j ++ txt "</Name>" ++ nl ++
        txt "  <Result>SKIP</Result>" ++ nl ++
        txt "  <Reason>" ++ skip_reason j ++ txt "</Reason>" ++ nl ++
        txt "</Test>" ++ nl)
  else if (returncode j =? 0)%Z || (returncode j =? 1)%Z || (returncode j =? 2)%Z then
    or_raise IOError (fs (tmp_file_name j))
  else
    Ok (txt "<Test>" ++ nl ++
        txt "  <Name>" ++ display_name j ++ txt "</Name>" ++ nl ++
        txt "  <Result>CRASH</Result>" ++ nl ++
        txt "</Test>" ++ nl).

(** One round of the loop over the results. *)
Definition record_result (t : tally) (j : job) : res tally :=
  if is_break j then Ok t
  else
    line ← status_line j;
    entry ← xml_entry j;
    Ok (append entry (say line (count j t))).

Fixpoint collect (t : tally) (results : list job) : res tally :=
  match results with
  | [] => Ok t
  | j :: results => t ← record_result t j; collect t results
  end.
End collect.

Definition name_list (title : text) (names : list text) : list text :=
  match names with
  | [] => []
  | _ => [txt "List of " ++ title ++ txt ":" ++ concat ((fun n => nl ++ txt "    " ++ n) <$> sort_texts names)]
  end.

(** What is printed after the results. *)
Definition summary (total_tests : Z) (t : tally) : list text :=
  [show_Z (passed_tests t) ++ txt " of " ++ show_Z total_tests ++ txt " tests passed (" ++
   show_Z (passed_tests t) ++ txt " passed, " ++ show_Z (skipped_tests t) ++ txt " skipped, " ++
   show_Z (failed_tests t) ++ txt " failed, " ++ show_Z (crashed_tests t) ++ txt " crashed, " ++
   show_Z (valgrind_errors t) ++ txt " valgrind errors)"] ++
  name_list (txt "SKIPped tests") (skipped_testnames t) ++
  name_list (txt "FAILed tests") (failed_testnames t) ++
  name_list (txt "CRASHed tests") (crashed_testnames t) ++
  name_list (txt "VALGR failures") (valgrind_testnames t).

(** The value that [run_tests] returns. *)
Definition exit_status (total_tests : Z) (t : tally) : Z :=
  if (passed_tests t + skipped_tests t =? total_tests)%Z then 0%Z else 1%Z.

(** ** Facts *)

(** The results of a given status. *)
Definition with_status (st : status) (results : list job) : list job :=
  filter (fun j => is_break j = false /\ status_of j = st) results.
Definition number (st : status) (results : list job) : Z := zlen (with_status st results).

Lemma with_status_cons st j l : is_break j = false ->
  with_status st (j :: l) = if decide (status_of j = st) then j :: with_status st l else with_status st l.
Proof. intros Hb. unfold with_status. rewrite filter_cons. by repeat case_decide; try naive_solver. Qed.

Lemma with_status_break st j l : is_break j = true -> with_status st (j :: l) = with_status st l.
Proof. intros Hb. unfold with_status. rewrite filter_cons_False; [done|]. intros [? _]. congruence. Qed.

(** What [t'] has in addition to [t] after [results]. *)
Record extends (opts : options) (fs : text -> option text) (t : tally) (results : list job) (t' : tally) : Prop := Extends {
  e_passed : passed_tests t' = (passed_tests t + number PASS results)%Z;
  e_failed : failed_tests t' = (failed_tests t + number FAIL results)%Z;
  e_failed_names : failed_testnames t' = failed_testnames t ++ (display_name <$> with_status FAIL results);
  e_crashed : crashed_tests t' = (crashed_tests t + number CRASH results)%Z;
  e_crashed_names : crashed_testnames t' = crashed_testnames t ++ (display_name <$> with_status CRASH results);
  e_valgrind : valgrind_errors t' = (valgrind_errors t + number VALGR results)%Z;
  e_valgrind_names : valgrind_testnames t' = valgrind_testnames t ++ (display_name <$> with_status VALGR results);
  e_skipped : skipped_tests t' = (skipped_tests t + number SKIP results)%Z;
  e_skipped_names : skipped_testnames t' = skipped_testnames t ++ (skipped_name <$> with_status SKIP results);
  e_stdout : exists lines, stdout t' = stdout t ++ lines /\
    Forall2 (fun j line => status_line opts j = Ok line) (filter (fun j => is_break j = false) results) lines;
  e_xml : exists entries, xml t' = xml t ++ concat entries /\
    Forall2 (fun j entry => xml_entry fs j = Ok entry) (filter (fun j => is_break j = false) results) entries
}.

Lemma collect_extends opts fs t results t' : collect opts fs t results = Ok t' -> extends opts fs t results t'.
Proof.
  revert t. induction results as [|j results IH]; intros t H.
  { injection H as <-. split; unfold number, with_status, zlen; rewrite ?filter_nil; simpl; rewrite ?app_nil_r; try done; try lia;
      exists []; rewrite app_nil_r; split; constructor. }
  simpl in H. apply bind_ok in H as (t1 & H1 & H2). apply IH in H2. unfold record_result in H1.
  destruct (is_break j) eqn:Hb.
  { injection H1 as <-. destruct H2.
    assert (forall l, filter (fun j => is_break j = false) (j :: l) = filter (fun j => is_break j = false) l) as Hf0
      by (intros l; by rewrite filter_cons_False by congruence).
    split; unfold number; rewrite ?with_status_break by done; rewrite ?Hf0; done. }
  apply bind_ok in H1 as (line & Hline & H1). apply bind_ok in H1 as (entry & Hentry & [= <-]).
  destruct H2 as [???????? ? (lines & Ho & Hls) (entries & Hx & Hes)].
  split; unfold number in *; rewrite ?with_status_cons by done; rewrite ?filter_cons_True by done.
  10: { exists (line :: lines). split; [|by constructor]. rewrite Ho. destruct t. unfold count.
    destruct (status_of j); simpl; by rewrite <- app_assoc. }
  10: { exists (entry :: entries). split; [|by constructor]. rewrite Hx. destruct t. unfold count.
    destruct (status_of j); simpl; by rewrite <- app_assoc. }
  all: destruct t; unfold count in *; destruct (status_of j); simpl in *; unfold zlen in *; simpl length.
  all: rewrite <- ?app_assoc in *; first [done|lia].
Qed.

End Tally.

Module Translate.

(** ["%s" % x] when [x] may be [None]. *)
Definition show_opt (o : option text) : text := default (txt "None") o.
(** [e.find(tag).text] *)
Definition text_of (e : element) (tag : text) : res (option text) :=
  c ← or_raise AttributeError (efind e tag); Ok (etext c).

Definition read_test (test : element) : res (option text * option text * option text * option text) :=
  result ← text_of test (txt "Result");
  name ← text_of test (txt "Name");
  let reason := match efind test (txt "Reason") with Some r => etext r | None => Some [] end in
  let time_real := match efind test (txt "Time") with Some t => eget t (txt "real") | None => Some [] end in
  Ok (result, name, reason, time_real).

(** *** Text *)

Definition details_to_text (details : element) : res text :=
  m ← text_of details (txt "Message");
  c ← text_of details (txt "Condition");
  a ← text_of details (txt "Actual");
  l ← text_of details (txt "Limit");
  f ← text_of details (txt "File");
  n ← text_of details (txt "Line");
  Ok (txt "    Details:" ++ nl ++
      txt "      Message:   " ++ show_opt m ++ nl ++
      txt "      Condition: " ++ show_opt c ++ nl ++
      txt "      Actual:    " ++ show_opt a ++ nl ++
      txt "      Limit:     " ++ show_opt l ++ nl ++
      txt "      File:      " ++ show_opt f ++ nl ++
      txt "      Line:      " ++ show_opt n ++ nl).

Fixpoint write_each {A} (f : A -> res text) (l : list A) : res text :=
  match l with
  | [] => Ok []
  | x :: l => a ← f x; b ← write_each f l; Ok (a ++ b)
  end.

(** What [node_to_text] writes for the test itself. *)
Definition test_to_text (test : element) : res text :=
  '(result, name, reason, time_real) ← read_test test;
  let reason := match reason with None | Some [] => show_opt reason | Some r => txt " (" ++ r ++ txt ")" end in
  details ← write_each details_to_text (findall test (txt "FailureDetails"));
  Ok (show_opt result ++ txt ": Test Suite " ++ dq ++ show_opt name ++ dq ++ txt " (" ++ show_opt time_real ++
      txt ")" ++ reason ++ nl ++ details).

Fixpoint node_to_text (test : element) : res text :=
  let 'Element _ _ _ children := test in
  own ← test_to_text test;
  rest ← (fix go (l : list element) : res text :=
            match l with
            | [] => Ok []
            | c :: l => if decide (etag c = txt "Test") then a ← node_to_text c; b ← go l; Ok (a ++ b) else go l
            end) children;
  Ok (own ++ rest).

Definition example_to_text (example : element) : res text :=
  result ← text_of example (txt "Result");
  name ← text_of example (txt "Name");
  let time_real := match efind example (txt "Time") with Some t => eget t (txt "real") | None => Some [] end in
  Ok (show_opt result ++ txt ": Example " ++ dq ++ show_opt name ++ dq ++ txt " (" ++ show_opt time_real ++ txt ")" ++ nl).

(** The contents of the text file. *)
Definition translate_to_text (et : element) : res text :=
  tests ← write_each node_to_text (findall et (txt "Test"));
  examples ← write_each example_to_text (findall et (txt "Example"));
  Ok (tests ++ examples).

(** *** HTML *)

(** [<tag attr="value">] *)
Definition opening (tag attr value : text) : text :=
  txt "<" ++ tag ++ txt " " ++ attr ++ txt "=" ++ dq ++ value ++ dq ++ txt ">".
Definition styled (tag color : text) : text := opening tag (txt "style") (txt "color:" ++ color).
Definition green : text := txt "green".
Definition orange : text := txt "#ff6600".
Definition red : text := txt "red".

Definition cell (s : text) : text := txt "<td>" ++ s ++ txt "</td>" ++ nl.
Definition color_cell (color s : text) : text := styled (txt "td") color ++ s ++ txt "</td>" ++ nl.
Definition table : text := opening (txt "table") (txt "border") (txt "1") ++ nl.

(** One row for a failure; [first_row] has the result, name and time. *)
Definition failure_row (result name time : option text) (first_row : bool) (details : element) : res text :=
  m ← text_of details (txt "Message");
  c ← text_of details (txt "Condition");
  a ← text_of details (txt "Actual");
  l ← text_of details (txt "Limit");
  f ← text_of details (txt "File");
  n ← text_of details (txt "Line");
  Ok (txt "<tr>" ++ nl ++
      (if first_row then color_cell red (show_opt result) ++ cell (show_opt name) ++ cell (show_opt time)
       else cell [] ++ cell [] ++ cell []) ++
      txt "<td>" ++
      txt "<b>Message: </b>" ++ show_opt m ++ txt ", " ++
      txt "<b>Condition: </b>" ++ show_opt c ++ txt ", " ++
      txt "<b>Actual: </b>" ++ show_opt a ++ txt ", " ++
      txt "<b>Limit: </b>" ++ show_opt l ++ txt ", " ++
      txt "<b>File: </b>" ++ show_opt f ++ txt ", " ++
      txt "<b>Line: </b>" ++ show_opt n ++
      txt "</td>" ++ nl ++
      txt "</td>" ++ nl).

Fixpoint failure_rows (result name time : option text) (first_row : bool) (l : list element) : res text :=
  match l with
  | [] => Ok []
  | d :: l =>
      a ← failure_row result name time first_row d;
      b ← failure_rows result name time false l;
      Ok (a ++ b)
  end.

Definition case_to_html (case : element) : res text :=
  '(result, name, reason, time) ← read_test case;
  if decide (result = Some (txt "FAIL")) then failure_rows result name time true (findall case (txt "FailureDetails"))
  else Ok (txt "<tr>" ++ nl ++ color_cell green (show_opt result) ++ cell (show_opt name) ++
           cell (show_opt time) ++ cell (show_opt reason) ++ txt "</tr>" ++ nl).

Definition suite_header (result name reason time : option text) : text :=
  if decide (result = Some (txt "PASS")) then
    styled (txt "h3") green ++ show_opt result ++ txt ": " ++ show_opt name ++ txt " (" ++ show_opt time ++ txt ")</h3>" ++ nl
  else if decide (result = Some (txt "SKIP")) then
    styled (txt "h3") orange ++ show_opt result ++ txt ": " ++ show_opt name ++ txt " (" ++ show_opt time ++ txt ") (" ++
      show_opt reason ++ txt ")</h3>" ++ nl
  else
    styled (txt "h3") red ++ show_opt result ++ txt ": " ++ show_opt name ++ txt " (" ++ show_opt time ++ txt ")</h3>" ++ nl.

Definition no_cases (result : option text) : bool :=
  bool_decide (result ∈ [Some (txt "CRASH"); Some (txt "SKIP"); Some (txt "VALGR")]).

Definition suite_to_html (suite : element) : res text :=
  '(result, name, reason, time) ← read_test suite;
  let top := suite_header result name reason time ++ table ++ txt "<th> Result </th>" ++ nl in
  if no_cases result then
    Ok (top ++ txt "<tr>" ++ nl ++
        (if decide (result = Some (txt "SKIP")) then color_cell orange (show_opt result)
         else color_cell red (show_opt result)) ++
        txt "</tr>" ++ nl ++ txt "</table>" ++ nl)
  else
    rows ← write_each case_to_html (findall suite (txt "Test"));
    Ok (top ++ txt "<th>Test Case Name</th>" ++ nl ++ txt "<th> Time </th>" ++ nl ++
        (if decide (result = Some (txt "FAIL")) then txt "<th>Failure Details</th>" ++ nl else []) ++
        rows ++ txt "</table>" ++ nl).

Definition example_to_html (example : element) : res text :=
  '(result, name, reason, time) ← read_test example;
  Ok (txt "<tr>" ++ nl ++
      (if decide (result = Some (txt "PASS")) then color_cell green (show_opt result)
       else if decide (result = Some (txt "SKIP")) then styled (txt "td") orange ++ show_opt result ++ txt "</fd>" ++ nl
       else color_cell red (show_opt result)) ++
      cell (show_opt name) ++ cell (show_opt time) ++ cell (show_opt reason) ++ txt "</tr>" ++ nl).

(** The contents of the HTML file. *)
Definition translate_to_html (et : element) : res text :=
  suites ← write_each suite_to_html (findall et (txt "Test"));
  examples ← write_each example_to_html (findall et (txt "Example"));
  Ok (txt "<html>" ++ nl ++ txt "<body>" ++ nl ++ txt "<center><h1>ns-3 Test Results</h1></center>" ++ nl ++
      txt "<h2>Test Suites</h2>" ++ nl ++ suites ++
      txt "<h2>Examples</h2>" ++ nl ++ table ++
      txt "<th> Result </th>" ++ nl ++ txt "<th>Example Name</th>" ++ nl ++ txt "<th>Elapsed Time</th>" ++ nl ++
      txt "<th>Details</th>" ++ nl ++ examples ++ txt "</table>" ++ nl ++
      txt "</body>" ++ nl ++ txt "</html>" ++ nl).

(** *** The text report lists the tests in preorder *)

Fixpoint tests_of (e : element) : list element :=
  let 'Element _ _ _ children := e in
  e :: (fix go (l : list element) : list element :=
          match l with
          | [] => []
          | c :: l => if decide (etag c = txt "Test") then tests_of c ++ go l else go l
          end) children.

Lemma write_each_app {A} (f : A -> res text) l1 l2 :
  write_each f (l1 ++ l2) = (a ← write_each f l1; b ← write_each f l2; Ok (a ++ b)).
Proof.
  induction l1 as [|x l1 IH]; simpl; [by destruct (write_each f l2)|]. rewrite IH.
  destruct (f x); simpl; try done. destruct (write_each f l1); simpl; try done.
  destruct (write_each f l2); simpl; try done. by rewrite app_assoc.
Qed.

Lemma write_each_ext {A} (f g : A -> res text) l : Forall (fun x => f x = g x) l -> write_each f l = write_each g l.
Proof. induction 1 as [|x l Hx _ IH]; [done|]. simpl. by rewrite Hx, IH. Qed.

Lemma write_each_bind {A B} (f : B -> res text) (g : A -> list B) l :
  write_each f (l ≫= g) = write_each (fun x => write_each f (g x)) l.
Proof. induction l as [|x l IH]; [done|]. rewrite bind_cons, write_each_app, IH. done. Qed.

Lemma node_to_text_flat e : node_to_text e = write_each test_to_text (tests_of e).
Proof.
  induction e as [tag x attrs children IH] using element_ind'. simpl.
  destruct (test_to_text _); simpl; try done. f_equal. clear a.
  induction IH as [|c children Hc _ IHc]; [done|]. case_decide; [|done].
  rewrite write_each_app, Hc. by rewrite IHc.
Qed.

(** The text report is the entries of all the tests, every test before the
    tests it contains, and then those of the examples; it raises when one of
    them does. *)
Theorem translate_to_text_spec et : translate_to_text et =
  (tests ← write_each test_to_text (findall et (txt "Test") ≫= tests_of);
   examples ← write_each example_to_text (findall et (txt "Example"));
   Ok (tests ++ examples)).
Proof.
  unfold translate_to_text. rewrite write_each_bind. f_equal.
  rewrite (write_each_ext _ (fun e => write_each test_to_text (tests_of e))); [done|].
  apply Forall_forall. intros e _. apply node_to_text_flat.
Qed.

(** *** When the page is well nested *)

(** Reading a page: the open elements and the tag being read; [None] after a
    closing tag that closes nothing. *)
Definition page_state : Type := option (list text * option text).
Definition read_tag (opened : list text) (tag : text) : page_state :=
  match tag with
  | "/"%char :: name =>
      match opened with
      | top :: opened => if decide (name = top) then Some (opened, None) else None
      | [] => None
      end
  | _ => Some ((span (fun c => negb (bool_decide (c = space))) tag).1 :: opened, None)
  end.
Definition read_char (s : page_state) (c : ascii) : page_state :=
  match s with
  | None => None
  | Some (opened, None) => Some (opened, if decide (c = "<"%char) then Some [] else None)
  | Some (opened, Some tag) => if decide (c = ">"%char) then read_tag opened tag else Some (opened, Some (tag ++ [c]))
  end.
Definition read_page (s : page_state) (t : text) : page_state := foldl read_char s t.
Definition well_nested (page : text) : bool := bool_decide (read_page (Some ([], None)) page = Some ([], None)).

(** The suites and the examples whose entry is well nested. *)
Definition result_of (e : element) : option text := efind e (txt "Result") ≫= etext.
Definition case_nested (case : element) : bool :=
  negb (bool_decide (result_of case = Some (txt "FAIL")) &&
        bool_decide (findall case (txt "FailureDetails") <> [])).
Definition suite_nested (suite : element) : bool :=
  no_cases (result_of suite) || forallb case_nested (findall suite (txt "Test")).
Definition example_nested (example : element) : bool :=
  negb (bool_decide (result_of example = Some (txt "SKIP"))).

(** No text of the results has a [<] in it. *)
Definition plain (t : text) : bool := bool_decide ("<"%char ∉ t).
Definition plain_opt (o : option text) : bool := match o with Some t => plain t | None => true end.
Fixpoint plain_tree (e : element) : bool :=
  let 'Element _ x attrs children := e in
  plain_opt x && forallb (fun kv => plain kv.2) attrs && forallb plain_tree children.

(** A piece of a page is well nested, or ends in the error. *)
Definition judged (b : bool) (t : text) : Prop :=
  forall opened, read_page (Some (opened, None)) t = if b then Some (opened, None) else None.

Lemma read_page_app s t1 t2 : read_page s (t1 ++ t2) = read_page (read_page s t1) t2.
Proof. apply foldl_app. Qed.
Lemma read_page_None t : read_page None t = None.
Proof. by induction t. Qed.
Lemma read_plain t opened : plain t = true -> read_page (Some (opened, None)) t = Some (opened, None).
Proof.
  unfold plain. rewrite bool_decide_eq_true. induction t as [|c t IH]; intros Ht; [done|].
  apply not_elem_of_cons in Ht as [Hc Ht]. cbn. rewrite decide_False by congruence. by apply IH.
Qed.

Lemma judged_plain t : plain t = true -> judged true t.
Proof. intros Ht o. by apply read_plain. Qed.
Lemma judged_nil : judged true [].
Proof. done. Qed.
Lemma judged_app b1 b2 t1 t2 : judged b1 t1 -> judged b2 t2 -> judged (b1 && b2) (t1 ++ t2).
Proof.
  intros H1 H2 o. rewrite read_page_app, H1. destruct b1; [apply H2|apply read_page_None].
Qed.

(** Reads a page, piece by piece. *)
Ltac read_literal s t :=
  let r := eval vm_compute in (read_page s t) in change (read_page s t) with r.
Ltac read_piece :=
  match goal with
  | |- context [read_page ?s (?a ++ ?b)] => rewrite (read_page_app s a b)
  | |- context [read_page None ?t] => rewrite (read_page_None t)
  | |- context [read_page (Some (?o, None)) (show_opt ?x)] => rewrite (read_plain (show_opt x) o) by auto
  | H : judged ?b ?t |- context [read_page (Some (?o, None)) ?t] => rewrite (H o)
  | |- context [read_page (Some (?o, ?m)) (txt ?l)] => read_literal (Some (o, m)) (txt l)
  | |- context [read_page (Some (?o, ?m)) nl] => read_literal (Some (o, m)) nl
  | |- context [read_page (Some (?o, ?m)) dq] => read_literal (Some (o, m)) dq
  | |- context [read_page (Some (?o, ?m)) []] => read_literal (Some (o, m)) (@nil ascii)
  end.
Ltac read_pieces :=
  unfold suite_header, color_cell, cell, table, styled, opening, green, orange, red; repeat (read_piece; cbv iota).

Lemma plain_show o : plain_opt o = true -> plain (show_opt o) = true.
Proof. by destruct o. Qed.
#[local] Hint Resolve plain_show judged_plain judged_nil : core.

(** *** Plain results *)

Lemma plain_children e c : plain_tree e = true -> c ∈ echildren e -> plain_tree c = true.
Proof.
  destruct e as [tag x attrs children]. cbn. rewrite !andb_true_iff, !forallb_forall. intros [_ H] Hc.
  by apply H, list_elem_of_In.
Qed.
Lemma plain_findall e tag c : plain_tree e = true -> c ∈ findall e tag -> plain_tree c = true.
Proof. intros He [_ Hc]%list_elem_of_filter. by eapply plain_children. Qed.
Lemma plain_etext e : plain_tree e = true -> plain_opt (etext e) = true.
Proof. destruct e. cbn. rewrite !andb_true_iff. tauto. Qed.
Lemma efind_findall e tag c : efind e tag = Some c -> c ∈ findall e tag.
Proof. unfold efind. destruct (findall e tag); intros [= ->]. constructor. Qed.
Lemma plain_find e tag c : plain_tree e = true -> efind e tag = Some c -> plain_tree c = true.
Proof. intros He Hc%efind_findall. by eapply plain_findall. Qed.
Lemma plain_get e key : plain_tree e = true -> plain_opt (eget e key) = true.
Proof.
  destruct e as [tag x attrs children]. unfold eget. cbn. rewrite !andb_true_iff, !forallb_forall. intros [[_ Ha] _].
  destruct (filter _ attrs) as [|kv l] eqn:Hf; [done|]. cbn. apply Ha, list_elem_of_In.
  apply (list_elem_of_filter (fun kv => kv.1 = key)). rewrite Hf. constructor.
Qed.
Lemma plain_text_of e tag o : plain_tree e = true -> text_of e tag = Ok o -> plain_opt o = true.
Proof.
  intros He H. apply bind_ok in H as (c & Hc & [= <-]). unfold or_raise in Hc.
  destruct (efind e tag) as [c'|] eqn:Hf; [|done]. injection Hc as ->. by eapply plain_etext, plain_find.
Qed.
Lemma text_of_find e tag o : text_of e tag = Ok o -> efind e tag ≫= etext = o.
Proof.
  intros H. apply bind_ok in H as (c & Hc & [= <-]). unfold or_raise in Hc.
  destruct (efind e tag); [|done]. by injection Hc as ->.
Qed.

Lemma plain_read_test e result name reason time : plain_tree e = true -> read_test e = Ok (result, name, reason, time) ->
  result_of e = result /\ plain_opt result = true /\ plain_opt name = true /\ plain_opt reason = true /\ plain_opt time = true.
Proof.
  intros He H. unfold read_test in H. apply bind_ok in H as (r & Hr & H). apply bind_ok in H as (n & Hn & [= -> -> <- <-]).
  split; [by apply text_of_find|]. split; [by eapply plain_text_of|]. split; [by eapply plain_text_of|]. split.
  - destruct (efind e _) eqn:Hf; [|done]. by eapply plain_etext, plain_find.
  - destruct (efind e _) eqn:Hf; [|done]. by eapply plain_get, plain_find.
Qed.

Lemma judged_failure result name time first d t : plain_opt result = true -> plain_opt name = true -> plain_opt time = true ->
  plain_tree d = true -> failure_row result name time first d = Ok t -> judged false t.
Proof.
  intros Hr Hn Ht Hd H. unfold failure_row in H.
  do 6 (let o := fresh "o" in let Ho := fresh "Ho" in
        apply bind_ok in H as (o & Ho & H); apply plain_text_of in Ho; [|done]). apply ok_inj in H as <-.
  intros opened. by destruct first; read_pieces.
Qed.

Lemma judged_each {A} (f : A -> res text) (g : A -> bool) l t :
  (forall x t, x ∈ l -> f x = Ok t -> judged (g x) t) -> write_each f l = Ok t -> judged (forallb g l) t.
Proof.
  revert t. induction l as [|x l IH]; intros t Hf H; [by apply ok_inj in H as <-|].
  simpl in H. apply bind_ok in H as (a & Ha & H). apply bind_ok in H as (b & Hb & H). apply ok_inj in H as <-.
  simpl. apply judged_app; [apply Hf; [constructor|done]|]. apply IH; [|done]. intros y u Hy. apply Hf. by constructor.
Qed.

Lemma judged_rows result name time first l t : plain_opt result = true -> plain_opt name = true -> plain_opt time = true ->
  (forall d, d ∈ l -> plain_tree d = true) -> failure_rows result name time first l = Ok t ->
  judged (bool_decide (l = [])) t.
Proof.
  intros Hr Hn Ht Hl H. destruct l as [|d l]; [by apply ok_inj in H as <-|]. simpl in H.
  apply bind_ok in H as (a & Ha & H). apply bind_ok in H as (b & Hb & H). apply ok_inj in H as <-.
  apply judged_failure in Ha; try done; [|apply Hl; constructor].
  intros o. by rewrite read_page_app, Ha, read_page_None.
Qed.

Lemma judged_case case t : plain_tree case = true -> case_to_html case = Ok t -> judged (case_nested case) t.
Proof.
  intros Hc H. unfold case_to_html in H. apply bind_ok in H as ([[[r n] re] ti] & Hr & H).
  apply plain_read_test in Hr as (Hres & ? & ? & ? & ?); [|done]. unfold case_nested. rewrite Hres. case_decide.
  - rewrite bool_decide_eq_true_2 by done. apply judged_rows in H; try done.
    + intros o. rewrite H. repeat case_bool_decide; simpl; done.
    + intros d Hd. by eapply plain_findall.
  - rewrite bool_decide_eq_false_2 by done. apply ok_inj in H as <-. intros o. by read_pieces.
Qed.

Lemma judged_header r n re t : plain_opt r = true -> plain_opt n = true -> plain_opt re = true -> plain_opt t = true ->
  judged true (suite_header r n re t).
Proof. intros ???? o. unfold suite_header. repeat case_decide; by read_pieces. Qed.

Lemma judged_suite suite t : plain_tree suite = true -> suite_to_html suite = Ok t -> judged (suite_nested suite) t.
Proof.
  intros Hc H. unfold suite_to_html in H. apply bind_ok in H as ([[[r n] re] ti] & Hr & H).
  apply plain_read_test in Hr as (Hres & ? & ? & ? & ?); [|done]. unfold suite_nested. rewrite Hres.
  pose proof (judged_header r n re ti). destruct (no_cases r).
  - apply ok_inj in H as <-. intros o. case_decide; rewrite !read_page_app, H4 by done; by read_pieces.
  - apply bind_ok in H as (rows & Hrows & H). apply ok_inj in H as <-.
    apply (judged_each _ case_nested) in Hrows; [|intros c u Hcc; apply judged_case; by eapply plain_findall].
    intros o. case_decide; rewrite !read_page_app, H4 by done; read_pieces; simpl; by destruct (forallb _ _); read_pieces.
Qed.

Lemma judged_example e t : plain_tree e = true -> example_to_html e = Ok t -> judged (example_nested e) t.
Proof.
  intros Hc H. unfold example_to_html in H. apply bind_ok in H as ([[[r n] re] ti] & Hr & H).
  apply plain_read_test in Hr as (Hres & ? & ? & ? & ?); [|done]. unfold example_nested. rewrite Hres.
  apply ok_inj in H as <-. intros o. case_bool_decide as Hk; cbn [negb].
  - rewrite decide_False, decide_True by (rewrite Hk; by vm_compute). by read_pieces.
  - rewrite (decide_False _ _ Hk). case_decide; by read_pieces.
Qed.

(** When no text of the results has a [<] in it, the HTML report is a page in
    which every closing tag closes the last open one exactly when no listed test
    case failed with details and no example was skipped: the rows of failures end
    in [</td>] instead of [</tr>] and the cell of a skipped example in [</fd>]. *)
Theorem translate_to_html_nested et page : plain_tree et = true -> translate_to_html et = Ok page ->
  well_nested page = forallb suite_nested (findall et (txt "Test")) && forallb example_nested (findall et (txt "Example")).
Proof.
  intros Hp H. unfold translate_to_html in H. apply bind_ok in H as (suites & Hs & H).
  apply bind_ok in H as (examples & He & H). apply ok_inj in H as <-.
  apply (judged_each _ suite_nested) in Hs; [|intros c u Hc; apply judged_suite; by eapply plain_findall].
  apply (judged_each _ example_nested) in He; [|intros c u Hc; apply judged_example; by eapply plain_findall].
  unfold well_nested. read_pieces. destruct (forallb suite_nested _); read_pieces; [|done].
  destruct (forallb example_nested _); read_pieces; done.
Qed.

End Translate.

Module Finish.
Import Tally Translate.

Section finish.
Context (opts : options) (conf : waf_config).
(** [ET.parse] on the contents of the results file. *)
Context (parse : text -> res element).

(** The contents of results.xml in the end. *)
Definition results_xml (t : tally) : text :=
  txt "<?xml version=" ++ dq ++ txt "1.0" ++ dq ++ txt "?>" ++ nl ++ txt "<Results>" ++ nl ++ xml t ++ txt "</Results>" ++ nl.

(** The notes on what is disabled or missing. *)
Definition notes : list text :=
  (if negb (enable_tests conf) || negb (enable_examples conf) then
     [[]] ++
     (if enable_tests conf then [] else
        [txt "***  Note: ns-3 tests are currently disabled. Enable them by adding";
         txt "***  " ++ dq ++ txt "--enable-tests" ++ dq ++ txt " to ./waf configure or modifying your .ns3rc file."; []]) ++
     (if enable_examples conf then [] else
        [txt "***  Note: ns-3 examples are currently disabled. Enable them by adding";
         txt "***  " ++ dq ++ txt "--enable-examples" ++ dq ++ txt " to ./waf configure or modifying your .ns3rc file."; []])
   else []) ++
  (if o_valgrind opts && negb (valgrind_found conf) then
     [[]; txt "***  Note: you are trying to use valgrind, but valgrind could not be found";
      txt "***  on your machine.  All tests and examples will crash or be skipped."; []]
   else []).

Definition when_set (name : text) (f : gmap text text -> res (gmap text text)) (fs : gmap text text) : res (gmap text text) :=
  match name with [] => Ok fs | _ => f fs end.
Definition announce (name line : text) : list text := match name with [] => [] | _ => [line] end.

(** From the summary to the end of [run_tests]: the value returned, what is
    printed and the files written. *)
Definition finish (total_tests : Z) (t : tally) (fs : gmap text text) : res (Z * list text * gmap text text) :=
  let results := results_xml t in
  fs ← when_set (o_html opts) (fun fs =>
         et ← parse results; page ← translate_to_html et; Ok (<[o_html opts ++ txt ".html" := page]> fs)) fs;
  fs ← when_set (o_text opts) (fun fs =>
         et ← parse results; page ← translate_to_text et; Ok (<[o_text opts ++ txt ".txt" := page]> fs)) fs;
  fs ← when_set (o_xml opts) (fun fs => Ok (<[o_xml opts ++ txt ".xml" := results]> fs)) fs;
  Ok (exit_status total_tests t,
      stdout t ++ summary total_tests t ++
      announce (o_html opts ++ o_text opts ++ o_xml opts) [] ++
      announce (o_html opts) (txt "Writing results to html file " ++ o_html opts ++ txt ".html...done.") ++
      announce (o_text opts) (txt "Writing results to text file " ++ dq ++ o_text opts ++ txt ".txt" ++ dq ++ txt "...done.") ++
      announce (o_xml opts) (txt "Writing results to xml file " ++ o_xml opts ++ txt ".xml...done.") ++
      notes,
      fs).
End finish.

(** ** The verdict *)

(** A job that is not to count against the run. *)
Definition good (j : job) : Prop := is_break j = false /\ (status_of j = PASS \/ status_of j = SKIP).
#[export] Instance good_dec j : Decision (good j).
Proof. apply _. Defined.

Lemma good_number l : (number PASS l + number SKIP l)%Z = zlen (filter good l).
Proof.
  unfold number, zlen. induction l as [|j l IH]; [done|]. destruct (is_break j) eqn:Hb.
  - rewrite !with_status_break, filter_cons_False by (done || (intros [? _]; congruence)). done.
  - rewrite !with_status_cons by done. rewrite filter_cons.
    assert (good j <-> status_of j = PASS \/ status_of j = SKIP) as Hg by (unfold good; tauto).
    repeat case_decide; simpl length; solve [lia | exfalso; intuition congruence].
Qed.

Lemma exit_status_good opts fs results t : collect opts fs no_tests results = Ok t ->
  exit_status (zlen results) t = 0%Z <-> Forall good results.
Proof.
  intros [Hp _ _ _ _ _ _ Hs _ _ _]%collect_extends. unfold exit_status. rewrite Hp, Hs. simpl.
  pose proof (filter_all good results) as Hf. pose proof (good_number results) as Hg. unfold zlen in *.
  rewrite <- Hf. clear Hf. set (k := length (filter _ _)) in *. case Z.eqb_spec; intros; split; intros; lia.
Qed.

Section verdict.
Context (opts : options) (conf : waf_config) (spawn : text -> text -> res process).

(** Whatever the order in which the threads run the jobs, the exit status tells
    whether they succeed. *)
Lemma verdict processors jobs acts s fs t : runnable opts conf spawn jobs ->
  run_actions opts conf spawn acts (start processors jobs) = Some s -> finished s = true ->
  collect opts fs no_tests (s_results s) = Ok t ->
  exit_status (zlen jobs) t = 0%Z <->
  s_results s ≡ₚ outcome opts conf spawn <$> jobs /\
  Forall (fun j => status_of (outcome opts conf spawn j) ∈ [PASS; SKIP]) jobs.
Proof.
  intros Hrun Hr Hf Hc. destruct (run_done _ _ _ _ _ _ _ Hrun Hr Hf) as (_ & _ & done & Hp & Hrep).
  assert (zlen jobs = zlen (s_results s)) as ->.
  { unfold zlen. by rewrite <- Hp, (Forall2_length _ _ _ Hrep). }
  rewrite (exit_status_good _ _ _ _ Hc). split.
  - intros Hg. assert (s_results s = outcome opts conf spawn <$> done) as Hres.
    { clear -Hrep Hg. induction Hrep as [|j j' l l' Hj _ IH]; [done|]. apply Forall_cons in Hg as [Hj' Hg].
      rewrite IH by done. destruct Hj as [->|[_ ->]]; [done|]. by destruct Hj'. }
    rewrite Hres. split; [by rewrite Hp|]. rewrite Hres, Forall_fmap in Hg. rewrite <- Hp.
    eapply Forall_impl; [exact Hg|]. intros j [_ [H|H]]; cbn in H; rewrite H; set_solver.
  - intros [-> Hg]. rewrite Forall_fmap. apply Forall_forall. intros j Hj. split.
    + cbn. rewrite outcome_break. by apply Hrun.
    + pose proof (proj1 (Forall_forall _ _) Hg j Hj) as H. cbn in *. set_solver.
Qed.
End verdict.

End Finish.

(** ** Examples *)

Import Tally Translate Finish.

Definition leaf (tag s : text) : element := Element tag (Some s) [] [].
Definition demo_case (result : text) (failures : nat) : element :=
  Element (txt "Test") None []
    ([leaf (txt "Result") result; leaf (txt "Name") (txt "case")] ++
     replicate failures (Element (txt "FailureDetails") None []
       ((fun tag => leaf tag (txt "x > 1")) <$>
        [txt "Message"; txt "Condition"; txt "Actual"; txt "Limit"; txt "File"; txt "Line"]))).
Definition demo_suite (failures : nat) : element :=
  Element (txt "Test") None []
    [leaf (txt "Result") (txt "FAIL"); leaf (txt "Name") (txt "suite"); demo_case (txt "FAIL") failures; demo_case (txt "PASS") 0].
Definition demo_results (failures : nat) : element := Element (txt "Results") None [] [demo_suite failures].

(** With a failure the page is not well nested, without one it is. *)
Lemma translate_to_html_nested_witness :
  (exists page, translate_to_html (demo_results 2) = Ok page /\ well_nested page = false) /\
  (exists page, translate_to_html (demo_results 0) = Ok page /\ well_nested page = true).
Proof.
  split.
  - destruct (translate_to_html (demo_results 2)) as [page| |] eqn:H; [|vm_compute in H; discriminate H..].
    exists page. split; [reflexivity|]. refine (eq_trans (translate_to_html_nested _ page _ H) _); vm_compute; reflexivity.
  - destruct (translate_to_html (demo_results 0)) as [page| |] eqn:H; [|vm_compute in H; discriminate H..].
    exists page. split; [reflexivity|]. refine (eq_trans (translate_to_html_nested _ page _ H) _); vm_compute; reflexivity.
Defined.
