(* ===== verification/TestSelect.v ===== *)
(** * What [test.py] runs.

    [read_waf_config], [make_paths], the lists of examples, and the part of
    [run_tests] that turns the options and the configuration into the queue of
    jobs.  [eval], [exec] and the processes are parameters. *)
From S2P Require Import Prelude PyNum PyString PyDict PyPath BuildConfig TestJobs.
Import Ns3rc.

(** ** The configuration *)

Definition interesting_config_items : list text :=
  txt <$> ["NS3_ENABLED_MODULES"; "NS3_ENABLED_CONTRIBUTED_MODULES"; "NS3_MODULE_PATH"; "NSC_ENABLED";
    "ENABLE_REAL_TIME"; "ENABLE_THREADING"; "ENABLE_EXAMPLES"; "ENABLE_TESTS"; "EXAMPLE_DIRECTORIES";
    "ENABLE_PYTHON_BINDINGS"; "NSCLICK"; "ENABLE_BRITE"; "ENABLE_OPENFLOW"; "APPNAME"; "BUILD_PROFILE"; "VERSION";
    "PYTHON"; "VALGRIND_FOUND"].
Definition core_kinds : list text := txt <$> ["bvt"; "core"; "performance"; "system"; "unit"].
Definition core_valgrind_skip_tests : list text :=
  txt <$> ["ns3-tcp-cwnd"; "nsc-tcp-loss"; "ns3-tcp-interoperability"; "routing-click"; "lte-rr-ff-mac-scheduler";
    "lte-tdmt-ff-mac-scheduler"; "lte-fdmt-ff-mac-scheduler"; "lte-pf-ff-mac-scheduler"; "lte-tta-ff-mac-scheduler";
    "lte-fdbet-ff-mac-scheduler"; "lte-ttbet-ff-mac-scheduler"; "lte-fdtbfq-ff-mac-scheduler";
    "lte-tdtbfq-ff-mac-scheduler"; "lte-pss-ff-mac-scheduler"].
Definition core_nsc_missing_skip_tests : list text :=
  txt <$> ["ns3-tcp-cwnd"; "nsc-tcp-loss"; "ns3-tcp-interoperability"].
Definition TMP_OUTPUT_DIR : text := txt "testpy-output".

Definition startswith (line prefix : text) : bool := bool_decide (prefix `prefix_of` line).

(** A call that may also end the program with an exit status. *)
Notation exits A := (res (Z + A)).
Definition goes {A} (a : A) : exits A := Ok (inr a).
Definition sys_exit {A} (code : Z) : exits A := Ok (inl code).
Definition and_then {A B} (m : exits A) (f : A -> exits B) : exits B :=
  r ← m; match r with inl code => Ok (inl code) | inr a => f a end.
Notation "x <-- m ;; k" := (and_then m (fun x => k)) (at level 100, m at next level, right associativity).
Definition run_ok {A} (m : res A) : exits A := a ← m; goes a.

Section config.
Context (fs : gmap text text) (platform : text).
(** [eval] of a string constant, and [exec] of an assignment to a global. *)
Context (eval_str : text -> res text) (exec : text -> waf_config -> res waf_config).

(** [key, val = line.split('=')] and [eval(val.strip())] *)
Definition eval_dir (line : text) : res text :=
  match split_on "="%char line with
  | [_; v] => eval_str (strip v)
  | _ => Raise ValueError
  end.

Fixpoint scan_dirs (top_dir out_dir : option text) (lines : list text) : res (option text * option text) :=
  match lines with
  | [] => Ok (top_dir, out_dir)
  | line :: lines =>
      top_dir ← (if startswith line (txt "top_dir =") then Some <$> eval_dir line else Ok top_dir);
      out_dir ← (if startswith line (txt "out_dir =") then Some <$> eval_dir line else Ok out_dir);
      scan_dirs top_dir out_dir lines
  end.

(** The line is executed once for each item that it starts with. *)
Fixpoint exec_line (line : text) (items : list text) (g : waf_config) : res waf_config :=
  match items with
  | [] => Ok g
  | item :: items => g ← (if startswith line item then exec line g else Ok g); exec_line line items g
  end.
Fixpoint exec_lines (lines : list text) (g : waf_config) : res waf_config :=
  match lines with
  | [] => Ok g
  | line :: lines => g ← exec_line line interesting_config_items g; exec_lines lines g
  end.

Definition set_dirs (g : waf_config) (basedir builddir : text) : waf_config :=
  let 'WafConfig _ _ a v p py nsc ex te bi va ed em ec mp := g in
  WafConfig basedir builddir a v p py nsc ex te bi va ed em ec mp.

Definition lock_file : text := txt ".lock-waf_" ++ platform ++ txt "_build".
Definition read_waf_config (g : waf_config) : exits waf_config :=
  let lock := match fs !! lock_file with
              | Some f => Some f
              | None => fs !! txt ".lock-waf_linux2_build"
              end in
  match lock with
  | None => sys_exit 2
  | Some f =>
      run_ok (
        '(top_dir, out_dir) ← scan_dirs None None (readlines f);
        top_dir ← or_raise UnboundLocalError top_dir;
        out_dir ← or_raise UnboundLocalError out_dir;
        cache ← or_raise IOError (fs !! (out_dir ++ txt "/c4che/_cache.py"));
        exec_lines (readlines cache) (set_dirs g top_dir out_dir))
  end.
End config.

(** ** The environment *)

(** [os.environ[key] += s] *)
Definition env_append (key s : text) (env : gmap text text) : res (gmap text text) :=
  v ← or_raise KeyError (env !! key); Ok (<[key := v ++ s]> env).

Fixpoint append_paths (key sep : text) (paths : list text) (env : gmap text text) : res (gmap text text) :=
  match paths with
  | [] => Ok env
  | p :: paths => env ← env_append key (sep ++ p) env; append_paths key sep paths env
  end.

Definition make_paths (platform : text) (conf : waf_config) (env : gmap text text) : res (gmap text text) :=
  let have key := bool_decide (is_Some (env !! key)) in
  let have_DYLD_LIBRARY_PATH := have (txt "DYLD_LIBRARY_PATH") in
  let have_LD_LIBRARY_PATH := have (txt "LD_LIBRARY_PATH") in
  let have_PATH := have (txt "PATH") in
  let have_PYTHONPATH := have (txt "PYTHONPATH") in
  let pypath := path_join (path_join (ns3_builddir conf) (txt "bindings")) (txt "python") in
  let env := <[txt "PYTHONPATH" := pypath]> env in
  env ← (if negb have_PYTHONPATH then Ok (<[txt "PYTHONPATH" := pypath]> env)
         else env_append (txt "PYTHONPATH") (txt ":" ++ pypath) env);
  let add (key sep : text) (present : bool) :=
    append_paths key sep (ns3_module_path conf) (if present then env else <[key := []]> env) in
  if decide (platform = txt "darwin") then add (txt "DYLD_LIBRARY_PATH") (txt ":") have_DYLD_LIBRARY_PATH
  else if decide (platform = txt "win32") then add (txt "PATH") (txt ";") have_PATH
  else if decide (platform = txt "cygwin") then add (txt "PATH") (txt ":") have_PATH
  else add (txt "LD_LIBRARY_PATH") (txt ":") have_LD_LIBRARY_PATH.

(** ** The lists of examples *)

Record examples := Examples {
  example_tests : list (text * text * text * text);   (* name, path, do_run, do_valgrind_run *)
  example_names_original : list text;
  python_tests : list (text * text)
}.

(** Iterating over a value whose items are unpacked: a string is unpacked into
    its characters. *)
Definition tuples (v : py_value) : res (list (list text)) :=
  match v with
  | PyTuples l => Ok l
  | PyList l => Ok ((fun s : text => (fun c : ascii => [c]) <$> s) <$> l)
  | PyBool _ | PyOther _ => Raise TypeError
  end.
(** Iterating over a value whose items are used as strings. *)
Definition strings (v : py_value) : res (list text) :=
  match v with
  | PyList l => Ok l
  | PyTuples [] => Ok []
  | _ => Raise TypeError
  end.
Definition py_in (x : text) (v : py_value) : res bool :=
  match v with
  | PyList l => Ok (bool_decide (x ∈ l))
  | PyTuples _ => Ok false
  | PyBool _ | PyOther _ => Raise TypeError
  end.

Section examples.
Context (conf : waf_config) (fs : gmap text text) (cwd : text) (eval : text -> res py_value).

Definition suffix : text :=
  if decide (build_profile conf = txt "release") then [] else txt "-" ++ build_profile conf.
(** [APPNAME], [VERSION] and the suffix around the name of a program. *)
Definition program_name (name : text) : text := appname conf ++ version conf ++ txt "-" ++ name ++ suffix.

Definition exists_ (p : text) : bool := bool_decide (is_Some (fs !! p)).

(** A name and its arguments. *)
Definition split_args (s : text) : text * option text :=
  match split_once " "%char s with Some (n, a) => (n, Some a) | None => (s, None) end.
Definition with_args (s : text) (args : option text) : text :=
  match args with Some a => s ++ txt " " ++ a | None => s end.

Definition add_cpp_example (cpp_executable_dir : text) (item : list text) (e : examples) : res examples :=
  match item with
  | [example_name; do_run; do_valgrind_run] =>
      let '(name, args) := split_args example_name in
      let example_path := path_join cpp_executable_dir (program_name name) in
      rel ← relpath cwd cpp_executable_dir (ns3_builddir conf);
      Ok (if exists_ example_path then
            Examples (example_tests e ++ [(with_args (path_join rel name) args, with_args example_path args, do_run, do_valgrind_run)])
              (example_names_original e ++ [example_name]) (python_tests e)
          else e)
  | _ => Raise ValueError
  end.

Definition add_python_example (python_script_dir : text) (item : list text) (e : examples) : res examples :=
  match item with
  | [example_name; do_run] =>
      let '(name, args) := split_args example_name in
      let example_path := path_join python_script_dir name in
      Ok (if exists_ example_path then
            Examples (example_tests e) (example_names_original e) (python_tests e ++ [(with_args example_path args, do_run)])
          else e)
  | _ => Raise ValueError
  end.

Fixpoint add_each {A} (f : A -> examples -> res examples) (l : list A) (e : examples) : res examples :=
  match l with
  | [] => Ok e
  | x :: l => e ← f x e; add_each f l e
  end.

Definition parse_examples_to_run_file (examples_to_run_path cpp_executable_dir python_script_dir : text) (e : examples)
    : res examples :=
  if exists_ examples_to_run_path then
    cpp_examples ← get_list_from_file eval fs examples_to_run_path (txt "cpp_examples");
    cpp_examples ← tuples cpp_examples;
    e ← add_each (add_cpp_example cpp_executable_dir) cpp_examples e;
    python_examples ← get_list_from_file eval fs examples_to_run_path (txt "python_examples");
    python_examples ← tuples python_examples;
    add_each (add_python_example python_script_dir) python_examples e
  else Ok e.

Definition examples_of_directory (directory : text) (e : examples) : res examples :=
  let example_directory := path_join (txt "examples") directory in
  parse_examples_to_run_file (path_join example_directory (txt "examples-to-run.py"))
    (path_join (ns3_builddir conf) example_directory) example_directory e.

(** [top] is [src] or [contrib]; the modules are called [ns3-...]. *)
Definition examples_of_module (top module_ : text) (e : examples) : res examples :=
  let module_directory := path_join top (drop 4 module_) in
  let example_directory := path_join module_directory (txt "examples") in
  parse_examples_to_run_file (path_join (path_join module_directory (txt "test")) (txt "examples-to-run.py"))
    (path_join (ns3_builddir conf) example_directory) example_directory e.

Definition all_examples : res examples :=
  e ← add_each examples_of_directory (example_directories conf) (Examples [] [] []);
  e ← add_each (examples_of_module (txt "src")) (ns3_enabled_modules conf) e;
  add_each (examples_of_module (txt "contrib")) (ns3_enabled_contributed_modules conf) e.
End examples.

(** ** The suites and the jobs *)

Section select.
Context (opts : options) (conf : waf_config) (fs env : gmap text text) (cwd platform : text).
Context (eval : text -> res py_value) (eval_condition : text -> res bool).
Context (spawn : text -> text -> res process).
(** The directory of the run, named after the time. *)
Context (date_and_time : text).

Definition test_runner_name : text := program_name conf (txt "test-runner").
Definition testpy_output_dir : text := path_join TMP_OUTPUT_DIR date_and_time.

(** What the test runner prints with these arguments. *)
Definition ask_test_runner (args : text) : res (Z * option text) :=
  '(rc, out, _, _) ← run_job_synchronously conf spawn (path_join (txt "utils") (test_runner_name ++ args)) cwd false false [];
  Ok (rc, out).
(** Bytes that could not be decoded cannot be decoded again. *)
Definition decoded (out : option text) : res text := or_raise ValueError out.
Definition list_tests (args : text) : res (list text) :=
  '(_, out) ← ask_test_runner args; s ← decoded out; Ok (split_on newline s).

Definition waf_cmd : text :=
  if o_kinds opts || o_list opts || bool_decide (o_constrain opts <> [] /\ o_constrain opts ∈ core_kinds)
  then txt "./waf --target=test-runner"
  else match o_example opts with
       | [] => txt "./waf"
       | e => txt "./waf --target=" ++ basename e
       end.
(** Its exit status, when waf fails. *)
Definition build : exits unit :=
  if o_nowaf opts then goes ()
  else
    p ← spawn waf_cmd cwd;
    if (pr_returncode p =? 0)%Z then goes () else sys_exit (pr_returncode p).

Definition name_list_args : text := txt " --print-test-name-list".

Definition select_suites : exits (list text * bool) :=
  match o_suite opts with
  | _ :: _ =>
      known <-- run_ok (list_tests name_list_args);;
      if decide (o_suite opts ∈ known) then goes (split_on newline (o_suite opts ++ [newline]), true) else sys_exit 2
  | [] =>
      if bool_decide (o_example opts = []) && bool_decide (o_pyexample opts = []) then
        run_ok (l ← list_tests (match o_constrain opts with
                                | [] => name_list_args
                                | c => name_list_args ++ txt " --test-type=" ++ c
                                end); Ok (l, false))
      else goes ([[]], false)
  end.

(** Performance tests are only run when they are asked for. *)
Definition suites : exits (list text) :=
  r <-- select_suites;;
  let '(suite_list, single_suite) := r in
  if negb single_suite && bool_decide (o_constrain opts <> txt "performance") then
    run_ok (performance_test_list ← list_tests (name_list_args ++ txt " --test-type=performance");
            Ok (foldl (fun l t => remove_first t l) suite_list performance_test_list))
  else goes suite_list.

Definition skip (reason : text) (j : job) : job := set_skip_reason (set_is_skip j true) reason.

Definition suite_job (test : text) : job :=
  let job := set_is_pyexample (set_is_example new_job false) false in
  let job := set_display_name job test in
  let job := set_tmp_file_name job (path_join testpy_output_dir (test ++ txt ".xml")) in
  let job := set_tempdir (set_basedir (set_cwd job cwd) cwd) testpy_output_dir in
  let multiple := if o_multiple opts then [] else txt " --stop-on-failure" in
  let fullness := match o_fullness opts with
                  | [] => txt " --fullness=QUICK"
                  | f => txt " --fullness=" ++ upper f
                  end in
  let job := set_shell_command job
    (path_join (txt "utils") (test_runner_name ++ txt " --test-name=" ++ test ++ multiple ++ fullness)) in
  let job := if o_valgrind opts && bool_decide (test ∈ core_valgrind_skip_tests)
             then skip (txt "crashes valgrind") job else job in
  if negb (nsc_enabled conf) && bool_decide (test ∈ core_nsc_missing_skip_tests)
  then skip (txt "requires NSC") job else job.

Fixpoint suite_jobs (suite_list : list text) : list job :=
  match suite_list with
  | [] => []
  | test :: suite_list =>
      match strip test with
      | [] => suite_jobs suite_list
      | test => suite_job test :: suite_jobs suite_list
      end
  end.

(** What the jobs of all examples share. *)
Definition example_job (is_py : bool) (name command build_path : text) : job :=
  let job := set_is_pyexample (set_is_example new_job (negb is_py)) is_py in
  let job := set_tmp_file_name (set_display_name job name) [] in
  let job := set_tempdir (set_basedir (set_cwd job testpy_output_dir) cwd) testpy_output_dir in
  set_build_path (set_shell_command job command) build_path.

(** The name of the program without directories and arguments. *)
Definition program_of (test : text) : text := basename (split_args test).1.

Fixpoint cpp_example_jobs (programs : gmap text text) (tests : list (text * text * text * text)) : res (list job) :=
  match tests with
  | [] => Ok []
  | (name, test, do_run, do_valgrind_run) :: tests =>
      js ← (if bool_decide (is_Some (programs !! program_of test)) then
              b ← eval_condition do_run;
              if (b : bool) then
                let job := example_job false name test (o_buildpath opts) in
                if o_valgrind opts then
                  v ← eval_condition do_valgrind_run;
                  Ok [if (v : bool) then job else skip (txt "skip in valgrind runs") job]
                else Ok [job]
              else Ok []
            else Ok []);
      rest ← cpp_example_jobs programs tests;
      Ok (js ++ rest)
  end.

Definition python_job (test : text) : job :=
  let job := example_job true test test [] in
  let job := if o_valgrind opts then skip (txt "skip in valgrind runs") job else job in
  if enable_python_bindings conf then job else skip (txt "requires Python bindings") job.

Fixpoint python_example_jobs (scripts : py_value) (tests : list (text * text)) : res (list job) :=
  match tests with
  | [] => Ok []
  | (test, do_run) :: tests =>
      runnable ← py_in (program_of test) scripts;
      js ← (if (runnable : bool) then b ← eval_condition do_run; Ok (if (b : bool) then [python_job test] else [])
            else Ok []);
      rest ← python_example_jobs scripts tests;
      Ok (js ++ rest)
  end.

Definition nothing_given : bool :=
  bool_decide (o_suite opts = []) && bool_decide (o_example opts = []) && bool_decide (o_pyexample opts = []).
(** The examples of this kind are to be run. *)
Definition constrained_to (kind : text) : bool :=
  bool_decide (o_constrain opts = []) || bool_decide (o_constrain opts = kind).

Definition cpp_jobs (programs : gmap text text) (e : examples) : res (list job) :=
  if nothing_given then
    if constrained_to (txt "example") && enable_examples conf then cpp_example_jobs programs (example_tests e) else Ok []
  else match o_example opts with
       | [] => Ok []
       | example =>
           match programs !! program_name conf example with
           | None => Ok []
           | Some path => let path := abspath cwd path in Ok [example_job false path path (o_buildpath opts)]
           end
       end.

Definition py_jobs (scripts : py_value) (e : examples) : res (list job) :=
  if nothing_given then
    if constrained_to (txt "pyexample") && enable_examples conf then python_example_jobs scripts (python_tests e) else Ok []
  else match o_pyexample opts with
       | [] => Ok []
       | example =>
           known ← py_in (basename example) scripts;
           Ok (if (known : bool) then [example_job true example example []] else [])
       end.

(** From the name of a program to its path. *)
Definition program_paths (programs : list text) : gmap text text :=
  foldl (fun m p => <[basename p := p]> m) ∅ programs.

(** The output of [--list]; [None] when the test runner fails. *)
Definition listing (e : examples) : res (option (list text)) :=
  '(rc, out) ← ask_test_runner (match o_constrain opts with
                                | [] => txt " --print-test-name-list --print-test-types"
                                | c => txt " --print-test-name-list --print-test-types --test-type=" ++ c
                                end);
  if (rc =? 0)%Z then
    s ← decoded out;
    Ok (Some ([txt "Test Type    Test Name"; txt "---------    ---------"] ++
              filter (fun l => strip l <> []) (sort_texts (split_on newline s)) ++
              ((fun n => txt "example      " ++ n) <$> sort_texts (example_names_original e)) ++ [[]]))
  else Ok None.

(** [print(standard_out.decode())]: the output is already decoded. *)
Definition print_kinds : res unit :=
  '(_, out) ← ask_test_runner (txt " --print-test-type-list");
  match out with Some _ => Raise AttributeError | None => Raise ValueError end.

(** [run_tests] after [read_waf_config] up to the queue of jobs; returning
    [None] is exit status 0.  The environment only matters to the processes. *)
Definition all_jobs : exits (list job) :=
  _ <-- build;;
  _ <-- run_ok (make_paths platform conf env);;
  let status := path_join (ns3_builddir conf) (txt "build-status.py") in
  if exists_ fs status then
    '(programs, scripts) ← (p ← get_list_from_file eval fs status (txt "ns3_runnable_programs");
                            s ← get_list_from_file eval fs status (txt "ns3_runnable_scripts");
                            p ← strings p; Ok (program_paths p, s));
    e ← all_examples conf fs cwd eval;
    _ ← (if o_kinds opts then print_kinds else Ok ());
    _ ← (if o_list opts then (_ ← listing e; Ok ()) else Ok ());
    if o_list opts then sys_exit 0
    else
      suite_list <-- suites;;
      run_ok (cpp ← cpp_jobs programs e;
              py ← py_jobs scripts e;
              Ok (suite_jobs suite_list ++ cpp ++ py))
  else sys_exit 2.
End select.

(** ** Facts *)

Lemma and_then_ok {A B} (m : exits A) (f : A -> exits B) b :
  and_then m f = Ok (inr b) -> exists a, m = Ok (inr a) /\ f a = Ok (inr b).
Proof. intros H. apply bind_ok in H as ([c|a] & Hm & H); [done|]. by exists a. Qed.
Lemma run_ok_ok {A} (m : res A) a : run_ok m = Ok (inr a) -> m = Ok a.
Proof. intros H. apply bind_ok in H as (a' & Hm & [= <-]). done. Qed.

(** *** The environment *)

Lemma append_paths_spec key sep paths env v : env !! key = Some v ->
  append_paths key sep paths env = Ok (<[key := v ++ concat ((fun p => sep ++ p) <$> paths)]> env).
Proof.
  revert env v. induction paths as [|p paths IH]; intros env v Hv; cbn [append_paths].
  - cbn. by rewrite app_nil_r, insert_id.
  - unfold env_append. rewrite Hv. cbn. rewrite (IH _ (v ++ sep ++ p)) by apply lookup_insert_eq.
    rewrite insert_insert_eq. cbn. by rewrite <- !app_assoc.
Qed.

(** The branches of [make_paths] on the platform. *)
Lemma add_paths key sep paths x env : key <> txt "PYTHONPATH" ->
  append_paths key sep paths
    (if bool_decide (is_Some (env !! key)) then <[txt "PYTHONPATH" := x]> env else <[key := []]> (<[txt "PYTHONPATH" := x]> env)) =
  Ok (<[key := default [] (env !! key) ++ concat ((fun p => sep ++ p) <$> paths)]> (<[txt "PYTHONPATH" := x]> env)).
Proof.
  intros Hk. destruct (env !! key) as [v|] eqn:Hv; [rewrite bool_decide_eq_true_2 by done|rewrite bool_decide_eq_false_2 by (intros [? ?]; congruence)].
  - apply append_paths_spec. by rewrite lookup_insert_ne.
  - rewrite (append_paths_spec _ _ _ _ []) by apply lookup_insert_eq. by rewrite insert_insert_eq.
Qed.

(** [make_paths] appends the module paths to the variable of the platform,
    and changes [PYTHONPATH] besides; a [PYTHONPATH] that was set is not extended
    but replaced by the path of the bindings, twice. *)
Theorem make_paths_spec platform conf env :
  let python := path_join (path_join (ns3_builddir conf) (txt "bindings")) (txt "python") in
  let key := if decide (platform = txt "darwin") then txt "DYLD_LIBRARY_PATH"
             else if decide (platform = txt "win32" \/ platform = txt "cygwin") then txt "PATH" else txt "LD_LIBRARY_PATH" in
  let sep := if decide (platform = txt "win32") then txt ";" else txt ":" in
  make_paths platform conf env =
    Ok (<[key := default [] (env !! key) ++ concat ((fun p => sep ++ p) <$> ns3_module_path conf)]>
        (<[txt "PYTHONPATH" := match env !! txt "PYTHONPATH" with Some _ => python ++ txt ":" ++ python | None => python end]>
         env)).
Proof.
  intros python key sep. unfold make_paths. fold python.
  assert (forall b, (if negb b then Ok (<[txt "PYTHONPATH" := python]> (<[txt "PYTHONPATH" := python]> env))
     else env_append (txt "PYTHONPATH") (txt ":" ++ python) (<[txt "PYTHONPATH" := python]> env)) =
     Ok (<[txt "PYTHONPATH" := if b then python ++ txt ":" ++ python else python]> env)) as ->.
  { intros []; unfold env_append; cbn [negb]; rewrite ?lookup_insert_eq; cbn; by rewrite insert_insert_eq. }
  cbn [mbind result_bind]. rewrite !add_paths by done.
  replace (match env !! txt "PYTHONPATH" with Some _ => python ++ txt ":" ++ python | None => python end)
    with (if bool_decide (is_Some (env !! txt "PYTHONPATH")) then python ++ txt ":" ++ python else python)
    by by destruct (env !! txt "PYTHONPATH").
  unfold key, sep. repeat case_decide; subst; try done; naive_solver.
Qed.

(** [--kinds] always ends in an exception. *)
Lemma print_kinds_raises conf cwd spawn : is_ok (print_kinds conf cwd spawn) = false.
Proof.
  unfold print_kinds. destruct (ask_test_runner _ _ _ _) as [[rc [out|]]| |]; done.
Qed.

(** ** The jobs that are queued *)

Section select_spec.
Context (opts : options) (conf : waf_config) (fs env : gmap text text) (cwd platform : text).
Context (eval : text -> res py_value) (eval_condition : text -> res bool).
Context (spawn : text -> text -> res process) (date_and_time : text).
Notation suite_job := (suite_job opts conf cwd date_and_time).
Notation suites := (suites opts conf cwd spawn).
Notation list_tests := (list_tests conf cwd spawn).

(** A job as it is put on the queue. *)
Record queued (j : job) : Prop := Queued {
  q_break : is_break j = false;
  q_reason : is_skip j = bool_decide (skip_reason j <> []);
  q_code : returncode j = 0%Z;
  q_dirs : basedir j = cwd /\ tempdir j = testpy_output_dir date_and_time;
  q_kind : if is_example j || is_pyexample j
           then tmp_file_name j = [] /\ TestJobs.cwd j = testpy_output_dir date_and_time
           else tmp_file_name j <> [] /\ TestJobs.cwd j = cwd
}.

Lemma path_join_nonempty a b : b <> [] -> path_join a b <> [].
Proof. intros Hb. unfold path_join. repeat case_decide; try done; by intros [? ?]%app_nil. Qed.

Lemma suite_job_queued test : queued (suite_job test).
Proof.
  assert (path_join (testpy_output_dir date_and_time) (test ++ txt ".xml") <> []) as Hp
    by (apply path_join_nonempty; by intros [? ?]%app_nil).
  unfold TestSelect.suite_job. destruct (_ && bool_decide (test ∈ core_valgrind_skip_tests));
    destruct (_ && bool_decide (test ∈ core_nsc_missing_skip_tests)); by split.
Qed.

Lemma suite_jobs_queued l : Forall queued (suite_jobs opts conf cwd date_and_time l).
Proof.
  induction l as [|t l IH]; cbn [suite_jobs]; [constructor|]. destruct (strip t); [done|].
  constructor; [apply suite_job_queued|done].
Qed.

Lemma example_job_queued is_py name command bp : queued (example_job cwd date_and_time is_py name command bp).
Proof. by destruct is_py; split. Qed.
Lemma skip_queued reason j : reason <> [] -> queued j -> queued (skip reason j).
Proof.
  intros Hr [? ? ? ? ?]. split; try done. cbn. symmetry. by apply bool_decide_eq_true.
Qed.
#[local] Hint Resolve suite_job_queued example_job_queued : core.

Lemma python_job_queued test : queued (python_job opts conf cwd date_and_time test).
Proof.
  unfold python_job. assert (queued (if o_valgrind opts then skip (txt "skip in valgrind runs")
    (example_job cwd date_and_time true test test []) else example_job cwd date_and_time true test test [])).
  { destruct (o_valgrind opts); [by apply skip_queued|done]. }
  destruct (enable_python_bindings conf); [done|by apply skip_queued].
Qed.

Lemma cpp_jobs_queued programs e js : cpp_jobs opts conf cwd eval_condition date_and_time programs e = Ok js ->
  Forall queued js.
Proof.
  unfold cpp_jobs. destruct (nothing_given opts).
  - destruct (_ && _); [|intros [= <-]; constructor]. generalize (example_tests e). intros l. revert js.
    induction l as [|[[[n t] r] v] l IH]; intros js H; [injection H as <-; constructor|].
    cbn [cpp_example_jobs] in H. apply bind_ok in H as (js1 & H1 & H). apply bind_ok in H as (js2 & H2 & [= <-]).
    apply Forall_app. split; [|by apply IH]. destruct (bool_decide _); [|by injection H1 as <-].
    apply bind_ok in H1 as ([] & _ & H1); [|by injection H1 as <-].
    destruct (o_valgrind opts); [|injection H1 as <-; by repeat constructor].
    apply bind_ok in H1 as (b & _ & [= <-]). constructor; [|constructor]. destruct b; [done|by apply skip_queued].
  - destruct (o_example opts) as [|c ex]; [intros [= <-]; constructor|].
    destruct (programs !! _); intros H; apply ok_inj in H as <-; [|constructor]. by constructor.
Qed.

Lemma py_jobs_queued scripts e js : py_jobs opts conf cwd eval_condition date_and_time scripts e = Ok js ->
  Forall queued js.
Proof.
  unfold py_jobs. destruct (nothing_given opts).
  - destruct (_ && _); [|intros [= <-]; constructor]. generalize (python_tests e). intros l. revert js.
    induction l as [|[t r] l IH]; intros js H; [injection H as <-; constructor|].
    cbn [python_example_jobs] in H. apply bind_ok in H as (b & _ & H). apply bind_ok in H as (js1 & H1 & H).
    apply bind_ok in H as (js2 & H2 & [= <-]). apply Forall_app. split; [|by apply IH].
    destruct b; [|by injection H1 as <-]. apply bind_ok in H1 as ([] & _ & [= <-]); [|constructor].
    constructor; [apply python_job_queued|done].
  - destruct (o_pyexample opts) as [|c ex]; [intros [= <-]; constructor|]. intros H.
    apply bind_ok in H as ([] & _ & H); injection H as <-; by repeat constructor.
Qed.

Lemma all_jobs_all_queued js : all_jobs opts conf fs env cwd platform eval eval_condition spawn date_and_time = Ok (inr js) ->
  Forall queued js.
Proof.
  unfold all_jobs. intros (u & _ & (u' & _ & H)%and_then_ok)%and_then_ok. case_match; [|done].
  apply bind_ok in H as ([programs scripts] & _ & H). apply bind_ok in H as (e & _ & H).
  apply bind_ok in H as (? & _ & H). apply bind_ok in H as (? & _ & H). destruct (o_list opts); [done|].
  apply and_then_ok in H as (suite_list & _ & H). apply run_ok_ok in H.
  apply bind_ok in H as (cpp & Hc & H). apply bind_ok in H as (py & Hp & [= <-]).
  rewrite !Forall_app. split; [apply suite_jobs_queued|]. split; [by eapply cpp_jobs_queued|by eapply py_jobs_queued].
Qed.

Lemma all_jobs_no_break js j : all_jobs opts conf fs env cwd platform eval eval_condition spawn date_and_time = Ok (inr js) ->
  j ∈ js -> is_break j = false.
Proof. intros Hq%all_jobs_all_queued Hj. by apply (proj1 (Forall_forall _ _) Hq). Qed.

(** C34: Every job that is queued is a real job of this run: it is no break, its
    return code is not set, it has a reason exactly when it is to be skipped, its
    directories are those of the run, and suites have a file of results of their
    own while examples run in the output directory. *)
Theorem all_jobs_queued js : all_jobs opts conf fs env cwd platform eval eval_condition spawn date_and_time = Ok (inr js) ->
  Forall queued js.
Proof. apply all_jobs_all_queued. Qed.

(** The names of the suites to run. *)
Definition suite_names (l : list text) : list text := filter (fun t => t <> []) (strip <$> l).
Lemma suite_jobs_names l : suite_jobs opts conf cwd date_and_time l = suite_job <$> suite_names l.
Proof.
  unfold suite_names. induction l as [|t l IH]; [done|]. cbn [suite_jobs fmap list_fmap]. rewrite filter_cons.
  destruct (strip t) as [|c u] eqn:Ht; [by rewrite decide_False by auto|]. rewrite decide_True by done. by rewrite IH.
Qed.

(** Without a suite or an example on the command line the suites are those
    that the test runner lists for the constraint; unless it is the constraint,
    the performance tests are left out. *)
Theorem suites_spec known performance :
  o_suite opts = [] -> o_example opts = [] -> o_pyexample opts = [] ->
  list_tests (match o_constrain opts with [] => name_list_args | c => name_list_args ++ txt " --test-type=" ++ c end) = Ok known ->
  list_tests (name_list_args ++ txt " --test-type=performance") = Ok performance ->
  NoDup known ->
  suites = Ok (inr (if decide (o_constrain opts = txt "performance") then known else filter (fun t => t ∉ performance) known)).
Proof.
  intros Hs He Hp Hk Hperf Hnd. unfold TestSelect.suites, select_suites. rewrite Hs, He, Hp. cbn [bool_decide andb].
  rewrite !bool_decide_eq_true_2 by done. cbn [andb]. rewrite Hk.
  unfold run_ok, and_then. cbn [mbind result_bind goes negb andb]. case_decide as Hc.
  - rewrite bool_decide_eq_false_2 by (intros Hn; by apply Hn). done.
  - rewrite bool_decide_eq_true_2 by done. rewrite Hperf. cbn [mbind result_bind goes]. by rewrite remove_all_filter.
Qed.

(** A suite on the command line is the only one that is run, if the test
    runner knows it; otherwise the program ends with status 2. *)
Theorem single_suite_spec known : o_suite opts <> [] -> list_tests name_list_args = Ok known ->
  suites = if decide (o_suite opts ∈ known) then goes [o_suite opts; []] else sys_exit 2.
Proof.
  intros Hs Hk. assert (forall t, t ∈ known -> newline ∉ t) as Hnl.
  { apply bind_ok in Hk as ([rc out] & _ & Hk). apply bind_ok in Hk as (o & _ & [= <-]).
    apply (Forall_forall (fun t => newline ∉ t)), split_on_notin. }
  unfold TestSelect.suites, select_suites. destruct (o_suite opts) as [|c s] eqn:E; [done|].
  rewrite Hk. unfold run_ok, and_then. cbn [mbind result_bind goes]. case_decide as Hin; [|done].
  change (c :: s ++ [newline]) with ((c :: s) ++ [newline]). rewrite split_on_app by (by apply Hnl). done.
Qed.
End select_spec.

(** ** Examples *)

Definition demo_options : options :=
  Options [] [] false [] false (txt "QUICK") false false false false true [] false [] [] false [] [].
Definition suite_options (suite : text) : options :=
  Options [] [] false [] false (txt "QUICK") false false false false true [] false suite [] false [] [].

Definition demo_fs : gmap text text :=
  <[txt ".lock-waf_linux_build" := txt "top_dir = '/ns'" ++ [newline] ++ txt "out_dir = '/ns/build'" ++ [newline]]>
  (<[txt "/ns/build/c4che/_cache.py" := []]> (<[txt "/ns/build/build-status.py" := []]> ∅)).
(** The string between quotes. *)
Definition unquote (s : text) : res text := Ok (take (length s - 2) (drop 1 s)).
(** A test runner that knows two suites, one of them for performance, and whose
    suites pass. *)
Definition demo_runner (cmd directory : text) : res process :=
  let out := if occurs (txt "type=performance") cmd then txt "tcp" ++ [newline]
             else if occurs (txt "name-list") cmd then txt "udp" ++ [newline] ++ txt "tcp" ++ [newline] else [] in
  Ok (Process 0 (Some out) (Some []) 0%Z).
Definition no_eval (s : text) : res py_value := Raise NameError.
Definition always (cond : text) : res bool := Ok true.

Example read_demo_config :
  read_waf_config demo_fs (txt "linux") unquote (fun _ g => Ok g) demo_config = Ok (inr demo_config).
Proof. vm_compute. reflexivity. Qed.

(** The list ends with an empty name, which is in both lists. *)
Lemma suites_spec_witness : suites demo_options demo_config (txt "/ns") demo_runner = Ok (inr [txt "udp"]).
Proof.
  refine (eq_trans (suites_spec demo_options demo_config (txt "/ns") demo_runner [txt "udp"; txt "tcp"; []] [txt "tcp"; []]
    _ _ _ _ _ _) _); try reflexivity; try (vm_compute; reflexivity).
  apply (bool_decide_unpack (NoDup [txt "udp"; txt "tcp"; []])). vm_compute. exact I.
Defined.

Lemma single_suite_spec_witness :
  suites (suite_options (txt "tcp")) demo_config (txt "/ns") demo_runner = Ok (inr [txt "tcp"; []]) /\
  suites (suite_options (txt "tc")) demo_config (txt "/ns") demo_runner = Ok (inl 2%Z).
Proof.
  split.
  - refine (eq_trans (single_suite_spec (suite_options (txt "tcp")) demo_config (txt "/ns") demo_runner
      [txt "udp"; txt "tcp"; []] _ _) _); [discriminate|vm_compute; reflexivity..].
  - refine (eq_trans (single_suite_spec (suite_options (txt "tc")) demo_config (txt "/ns") demo_runner
      [txt "udp"; txt "tcp"; []] _ _) _); [discriminate|vm_compute; reflexivity..].
Defined.

Definition demo_queue : exits (list job) :=
  all_jobs demo_options demo_config demo_fs ∅ (txt "/ns") (txt "linux") no_eval always demo_runner (txt "now").

Lemma all_jobs_queued_witness : exists js, demo_queue = Ok (inr js) /\ Forall (queued (txt "/ns") (txt "now")) js.
Proof.
  destruct demo_queue as [[c|js]| |] eqn:H; [vm_compute in H; discriminate H| |vm_compute in H; discriminate H..].
  exists js. split; [reflexivity|].
  exact (all_jobs_queued demo_options demo_config demo_fs ∅ (txt "/ns") (txt "linux") no_eval always demo_runner (txt "now") js H).
Defined.
