(* ===== verification/TestMain.v ===== *)
(** * [test.py] as a whole.

    [run_tests] composed of its parts: the configuration and the queue of jobs
    ([TestSelect]), the threads ([TestJobs]), and the results ([TestReport]). *)
From S2P Require Import Prelude PyNum PyString PyDict PyPath PyXml BuildConfig TestJobs TestReport TestSelect.
Import Ns3rc Tally Translate Finish.

Section main.
Context (opts : options) (defaults : waf_config) (fs env : gmap text text) (cwd platform : text).
Context (eval_str : text -> res text) (exec : text -> waf_config -> res waf_config).
Context (eval : text -> res py_value) (eval_condition : text -> res bool).
Context (spawn : text -> text -> res process) (date_and_time : text) (processors : nat).
(** The files of results that the suites write. *)
Context (written : text -> option text) (parse : text -> res element).

Notation configuration := (read_waf_config fs platform eval_str exec defaults).
Notation queue conf := (all_jobs opts conf fs env cwd platform eval eval_condition spawn date_and_time).

(** [run_tests] when the threads take the steps [acts]; not finished when they
    are too few. *)
Definition run_tests (acts : list action) : exits (Z * list text * gmap text text) :=
  conf <-- configuration;;
  jobs <-- queue conf;;
  match run_actions opts conf spawn acts (start processors jobs) with
  | Some s =>
      if finished s then
        run_ok (t ← collect opts written no_tests (s_results s); finish opts conf parse (zlen jobs) t fs)
      else NoFuel
  | None => NoFuel
  end.

(** The exit status of the program. *)
Definition exit_code (r : Z + (Z * list text * gmap text text)) : Z :=
  match r with inl code => code | inr (code, _, _) => code end.

(** What the job becomes when it is run counts as a success. *)
Definition succeeds (conf : waf_config) (j : job) : Prop := status_of (outcome opts conf spawn j) ∈ [PASS; SKIP].

(** C7: Once the jobs are queued, and if their processes can be started, the exit
    status does not depend on how the threads interleave: without an interrupt it
    is 0 exactly when every job is skipped or returns 0, and an interrupt can only
    turn it into 1. *)
Theorem run_tests_verdict acts conf jobs r : configuration = Ok (inr conf) -> queue conf = Ok (inr jobs) ->
  (forall j, j ∈ jobs -> is_skip j = false -> is_ok (execute opts conf spawn j) = true) ->
  run_tests acts = Ok r ->
  (exit_code r = 0%Z \/ exit_code r = 1%Z) /\
  (exit_code r = 0%Z -> Forall (succeeds conf) jobs) /\
  (Sigint ∉ acts -> Forall (succeeds conf) jobs -> exit_code r = 0%Z).
Proof.
  intros Hc Hq Hok Hr. unfold run_tests, and_then in Hr. rewrite Hc in Hr. cbn [mbind result_bind] in Hr.
  rewrite Hq in Hr. cbn [mbind result_bind] in Hr.
  assert (runnable opts conf spawn jobs) as Hrun.
  { intros j Hj. split; [|by apply Hok]. by apply all_jobs_no_break with (1 := Hq). }
  destruct (run_actions _ _ _ acts _) as [s|] eqn:Hs; [|done]. destruct (finished s) eqn:Hf; [|done].
  apply bind_ok in Hr as ([[code out] files] & Hr & [= <-]). apply bind_ok in Hr as (t & Ht & Hr).
  assert (code = exit_status (zlen jobs) t) as ->.
  { unfold finish in Hr. do 3 apply bind_ok in Hr as (? & _ & Hr). by injection Hr as <- _ _. }
  cbn [exit_code]. pose proof (verdict _ _ _ _ _ _ _ _ _ Hrun Hs Hf Ht) as Hv.
  split; [unfold exit_status; case_match; tauto|]. split; [by intros [_ H]%Hv|].
  intros Hn Hg. apply Hv. split; [|done].
  destruct (run_done _ _ _ _ _ _ _ Hrun Hs Hf) as (_ & _ & done & Hp & Hrep).
  rewrite (run_uninterrupted _ _ _ _ _ _ Hn Hs) in Hrep. apply reported_outcome in Hrep as ->. by rewrite Hp.
Qed.
End main.

(** ** An example *)

Definition demo_program (acts : list action) : exits (Z * list text * gmap text text) :=
  run_tests demo_options demo_config demo_fs ∅ (txt "/ns") (txt "linux") unquote (fun _ g => Ok g) no_eval always
    demo_runner (txt "now") 1 (fun _ => Some (txt "<Test/>")) (fun _ => Raise NameError) acts.

(** One worker runs the only suite. *)
Lemma run_tests_verdict_witness : exists r,
  demo_program [Put; Get 0; Put; Act 0; Finish 0; Get 0; Collect; Act 0] = Ok r /\ exit_code r = 0%Z.
Proof.
  assert (is_ok (demo_program [Put; Get 0; Put; Act 0; Finish 0; Get 0; Collect; Act 0]) = true) as Hok
    by (vm_compute; reflexivity).
  destruct (demo_program [Put; Get 0; Put; Act 0; Finish 0; Get 0; Collect; Act 0]) as [r| |] eqn:Hr;
    [clear Hok|discriminate Hok..].
  exists r. split; [reflexivity|].
  destruct demo_queue as [[c|jobs]| |] eqn:Hq; [vm_compute in Hq; discriminate Hq| |vm_compute in Hq; discriminate Hq..].
  refine (proj2 (proj2 (run_tests_verdict demo_options demo_config demo_fs ∅ (txt "/ns") (txt "linux") unquote
    (fun _ g => Ok g) no_eval always demo_runner (txt "now") 1 (fun _ => Some (txt "<Test/>")) (fun _ => Raise NameError)
    [Put; Get 0; Put; Act 0; Finish 0; Get 0; Collect; Act 0] demo_config jobs r read_demo_config Hq _ Hr)) _ _).
  - vm_compute in Hq. injection Hq as <-. intros j Hj%list_elem_of_singleton. rewrite Hj. reflexivity.
  - apply (bool_decide_unpack (Sigint ∉ [Put; Get 0; Put; Act 0; Finish 0; Get 0; Collect; Act 0])). vm_compute. exact I.
  - vm_compute in Hq. injection Hq as <-. constructor; [|constructor]. unfold succeeds.
    apply (bool_decide_unpack (_ ∈ [PASS; SKIP])). vm_compute. exact I.
Defined.
