(* ===== verification/FlowMon.v ===== *)
(** * [src/flow-monitor/examples/flowmon-parse-results.py].

    Reads the results of the flow monitor from XML and prints the statistics of
    every flow.  Flows are objects that the list and the map of a simulation
    share: the map holds their positions in the list. *)
From S2P Require Import Prelude PyNum PyString PyDict PyFloat PyXml.

(** ** Attributes *)

(** [s[:-4]] *)
Definition cut4 (s : text) : text := take (length s - 4) s.

Definition int_attr (e : element) (k : text) : res Z := s ← or_raise TypeError (eget e k); int_of_text s.
Definition long_attr (e : element) (k : text) : res Z := s ← or_raise TypeError (eget e k); long_of_text s.
Definition float_attr (e : element) (k : text) : res num := s ← or_raise TypeError (eget e k); float_of_text s.
(** [long(e.get(k)[:-4])] *)
Definition cut_attr (e : element) (k : text) : res Z := s ← or_raise TypeError (eget e k); long_of_text (cut4 s).

Definition parse_time_ns (tm : option text) : res Z :=
  tm ← or_raise AttributeError tm;
  if bool_decide (txt "ns" `suffix_of` tm) then long_of_text (cut4 tm) else Raise ValueError.

(** ** The data *)

Record five_tuple := FiveTuple {
  sourceAddress : option text; destinationAddress : option text; protocol : Z; sourcePort : Z; destinationPort : Z }.
Definition new_five_tuple (el : element) : res five_tuple :=
  sp ← int_attr el (txt "sourcePort");
  dp ← int_attr el (txt "destinationPort");
  p ← int_attr el (txt "protocol");
  Ok (FiveTuple (eget el (txt "sourceAddress")) (eget el (txt "destinationAddress")) p sp dp).

Definition histogram : Type := list (num * num * Z).
Definition new_histogram (el : element) : res histogram :=
  mapM (fun bin => s ← float_attr bin (txt "start"); w ← float_attr bin (txt "width"); c ← int_attr bin (txt "count");
                   Ok (s, w, c)) (findall el (txt "bin")).

Record probe_stats := ProbeFlowStats { probeId : Z; packets : Z; bytes : Z; delayFromFirstProbe : num }.

(** The slot [fiveTuple] is not set by the initializer. *)
Record flow := Flow {
  flowId : Z; delayMean : option num; packetLossRatio : option num; rxBitrate : option num; txBitrate : option num;
  fiveTuple : option five_tuple; packetSizeMean : option num; probe_stats_unsorted : list probe_stats;
  hopCount : num; flowInterruptionsHistogram : option histogram; rx_duration : num
}.
Definition set_fiveTuple (t : five_tuple) (f : flow) : flow :=
  Flow (flowId f) (delayMean f) (packetLossRatio f) (rxBitrate f) (txBitrate f) (Some t) (packetSizeMean f)
    (probe_stats_unsorted f) (hopCount f) (flowInterruptionsHistogram f) (rx_duration f).
Definition add_probe_stats (s : probe_stats) (f : flow) : flow :=
  Flow (flowId f) (delayMean f) (packetLossRatio f) (rxBitrate f) (txBitrate f) (fiveTuple f) (packetSizeMean f)
    (probe_stats_unsorted f ++ [s]) (hopCount f) (flowInterruptionsHistogram f) (rx_duration f).

Definition nano : num := frac 1 (10 ^ 9).

(** [float(long(last[:-4]) - long(first[:-4])) * 1e-9] *)
Definition duration (el : element) (last_ first : text) : res num :=
  l ← cut_attr el last_; f ← cut_attr el first; d ← py_float (PInt (l - f)); num_mul d nano.

(** [long(bytes) * 8 / duration] when that is positive. *)
Definition bitrate (el : element) (bytes : text) (duration : num) : res (option num) :=
  if num_gtb duration (PInt 0) then b ← long_attr el bytes; Some <$> num_div (PInt (b * 8)) duration else Ok None.

Definition new_flow (el : element) : res flow :=
  id ← int_attr el (txt "flowId");
  rxPackets ← long_attr el (txt "rxPackets");
  _ ← long_attr el (txt "txPackets");
  tx_duration ← duration el (txt "timeLastTxPacket") (txt "timeFirstTxPacket");
  rx_duration ← duration el (txt "timeLastRxPacket") (txt "timeFirstRxPacket");
  let received := negb (rxPackets =? 0)%Z in
  hops ← (if received then
            t ← float_attr el (txt "timesForwarded"); q ← num_div t (PInt rxPackets); num_add q (PInt 1)
          else Ok (PInt (-1000)));
  delay ← (if received then
             s ← or_raise TypeError (eget el (txt "delaySum"));
             d ← float_of_text (cut4 s); q ← num_div d (PInt rxPackets); Some <$> num_mul q nano
           else Ok None);
  size ← (if received then
            b ← float_attr el (txt "rxBytes"); Some <$> num_div b (PInt rxPackets)
          else Ok None);
  rx ← bitrate el (txt "rxBytes") rx_duration;
  tx ← bitrate el (txt "txBytes") tx_duration;
  lost ← float_attr el (txt "lostPackets");
  loss ← (if received then total ← num_add (PInt rxPackets) lost; Some <$> num_div lost total else Ok None);
  hist ← match efind el (txt "flowInterruptionsHistogram") with
         | None => Ok None
         | Some h => Some <$> new_histogram h
         end;
  Ok (Flow id delay loss rx tx None size [] hops hist rx_duration).

(** ** [Simulation] *)

Record simulation := Sim { flows : list flow; flow_map : gmap Z nat }.

(** [flow_map[id]] and a change of the flow. *)
Definition change_flow (id : Z) (g : flow -> flow) (s : simulation) : res simulation :=
  i ← or_raise KeyError (flow_map s !! id); Ok (Sim (alter g i (flows s)) (flow_map s)).

Fixpoint each {A} (f : A -> simulation -> res simulation) (l : list A) (s : simulation) : res simulation :=
  match l with
  | [] => Ok s
  | x :: l => s ← f x s; each f l s
  end.

Definition add_flow (flow_el : element) (s : simulation) : res simulation :=
  f ← new_flow flow_el; Ok (Sim (flows s ++ [f]) (<[flowId f := length (flows s)]> (flow_map s))).

(** The tuple is built before the flow is looked up. *)
Definition read_tuple (el : element) : res (Z * five_tuple) :=
  id ← int_attr el (txt "flowId"); t ← new_five_tuple el; Ok (id, t).
Definition add_tuple (flow_cls : element) (s : simulation) : res simulation :=
  '(id, t) ← read_tuple flow_cls; change_flow id (set_fiveTuple t) s.

Definition read_stats (probeId : Z) (stats : element) : res (Z * probe_stats) :=
  id ← int_attr stats (txt "flowId");
  packets ← int_attr stats (txt "packets");
  bytes ← long_attr stats (txt "bytes");
  delay ← (if (0 <? packets)%Z then
             t ← parse_time_ns (eget stats (txt "delayFromFirstProbeSum"));
             p ← py_float (PInt packets); num_div (PInt t) p
           else Ok (PInt 0));
  Ok (id, ProbeFlowStats probeId packets bytes delay).
Definition add_stats (probeId : Z) (stats : element) (s : simulation) : res simulation :=
  '(id, p) ← read_stats probeId stats; change_flow id (add_probe_stats p) s.
Definition add_probe (probe_elem : element) (s : simulation) : res simulation :=
  probeId ← int_attr probe_elem (txt "index"); each (add_stats probeId) (findall probe_elem (txt "FlowStats")) s.

Definition new_simulation (el : element) : res (list flow) :=
  match findall el (txt "Ipv4FlowClassifier") with
  | [classifier] =>
      s ← each add_flow (findall_in el (txt "FlowStats") (txt "Flow")) (Sim [] ∅);
      s ← each add_tuple (findall classifier (txt "Flow")) s;
      s ← each add_probe (findall_in el (txt "FlowProbes") (txt "FlowProbe")) s;
      Ok (flows s)
  | _ => Raise ValueError
  end.

(** ** The report *)

Definition proto_name (p : Z) : res text :=
  if (p =? 6)%Z then Ok (txt "TCP") else if (p =? 17)%Z then Ok (txt "UDP") else Raise KeyError.
Definition show_address (a : option text) : text := default (txt "None") a.

(** A line with a number, multiplied for its unit, or [None]. *)
Definition figure (title unit_ : text) (factor : num) (x : option num) : res text :=
  match x with
  | None => Ok (tab :: title ++ txt ": None")
  | Some x => v ← num_mul x factor; s ← fmt 2 v; Ok (tab :: title ++ txt ": " ++ s ++ txt " " ++ unit_)
  end.

Definition show_flow (f : flow) : res (list text) :=
  t ← or_raise AttributeError (fiveTuple f);
  proto ← proto_name (protocol t);
  tx ← figure (txt "TX bitrate") (txt "kbit/s") (frac 1 1000) (txBitrate f);
  rx ← figure (txt "RX bitrate") (txt "kbit/s") (frac 1 1000) (rxBitrate f);
  delay ← figure (txt "Mean Delay") (txt "ms") (frac 1000 1) (delayMean f);
  loss ← figure (txt "Packet Loss Ratio") (txt "%") (PInt 100) (packetLossRatio f);
  Ok [txt "FlowID: " ++ show_Z (flowId f) ++ txt " (" ++ proto ++ txt " " ++ show_address (sourceAddress t) ++ txt "/" ++
        show_Z (sourcePort t) ++ txt " --> " ++ show_address (destinationAddress t) ++ txt "/" ++
        show_Z (destinationPort t) ++ txt ")"; tx; rx; delay; loss].

Fixpoint show_flows (l : list flow) : res (list text) :=
  match l with
  | [] => Ok []
  | f :: l => a ← show_flow f; b ← show_flows l; Ok (a ++ b)
  end.

(** Only the root can end at level 0.  The comma of [print] leaves a space, unless
    something else is written first. *)
Definition report (root : element) : res (list text) :=
  if decide (etag root = txt "FlowMonitor") then
    fl ← new_simulation root; lines ← show_flows fl; Ok (txt "Reading XML file . done." :: lines)
  else Ok [txt "Reading XML file   done."].

(** ** The flows of a simulation *)

(** Changes to flows, by their identifier. *)
Notation change := (Z * (flow -> flow))%type.
Definition applied (changes : list change) (f : flow) : flow :=
  foldl (fun f g => g f) f (filter (fun c => c.1 = flowId f) changes).*2.
Definition tuple_change (p : Z * five_tuple) : change := (p.1, set_fiveTuple p.2).
Definition stats_change (p : Z * probe_stats) : change := (p.1, add_probe_stats p.2).
Definition tuple_changes (ts : list (Z * five_tuple)) : list change := tuple_change <$> ts.
Definition stats_changes (ss : list (Z * probe_stats)) : list change := stats_change <$> ss.

(** The change keeps the identifier. *)
Definition keeps_id (c : change) : Prop := forall f, flowId (c.2 f) = flowId f.

(** The map finds every flow by its identifier. *)
Definition indexed (s : simulation) : Prop :=
  NoDup (flowId <$> flows s) /\ forall i f, flows s !! i = Some f -> flow_map s !! flowId f = Some i.

Lemma change_flow_spec id g s : indexed s -> keeps_id (id, g) -> id ∈ flowId <$> flows s ->
  exists s', change_flow id g s = Ok s' /\ indexed s' /\ flowId <$> flows s' = flowId <$> flows s /\
    flows s' = (fun f => if decide (flowId f = id) then g f else f) <$> flows s.
Proof.
  intros [Hnd Hix] Hg Hid. apply list_elem_of_fmap in Hid as (f & -> & Hf). apply list_elem_of_lookup in Hf as [i Hi].
  unfold change_flow. rewrite (Hix _ _ Hi). eexists. split; [reflexivity|]. cbn [flows flow_map].
  assert (alter g i (flows s) = (fun f' => if decide (flowId f' = flowId f) then g f' else f') <$> flows s) as Heq.
  { apply list_eq. intros j. rewrite list_lookup_fmap. destruct (decide (i = j)) as [<-|Hij].
    - rewrite list_lookup_alter_eq, Hi. cbn. by rewrite decide_True.
    - rewrite list_lookup_alter_ne by done. destruct (flows s !! j) as [f'|] eqn:Hj; [|done]. cbn.
      rewrite decide_False; [done|]. intros Hff. apply Hij. eapply (NoDup_lookup _ i j (flowId f) Hnd).
      + by rewrite list_lookup_fmap, Hi.
      + by rewrite list_lookup_fmap, Hj; cbn; rewrite Hff. }
  assert (flowId <$> alter g i (flows s) = flowId <$> flows s) as Hids.
  { rewrite Heq, <- list_fmap_compose. apply list_fmap_ext. intros j f' _. cbn. case_decide; [apply (Hg f')|done]. }
  split; [|split; [done|done]]. unfold indexed. cbn [flows flow_map]. split; [by rewrite Hids|]. intros j f' Hj.
  rewrite Heq, list_lookup_fmap in Hj. destruct (flows s !! j) as [f0|] eqn:H0; [|done]. injection Hj as <-.
  apply Hix in H0. case_decide; [|done]. cbn in *. pose proof (Hg f0) as Hgf. cbn in Hgf. by rewrite Hgf.
Qed.

Lemma applied_cons c changes f : keeps_id c ->
  applied (c :: changes) f = applied changes (if decide (flowId f = c.1) then c.2 f else f).
Proof.
  intros Hc. unfold applied. rewrite filter_cons. destruct (decide (c.1 = flowId f)) as [Hid|Hid].
  - rewrite decide_True by done. cbn. by rewrite (Hc f).
  - rewrite decide_False by congruence. done.
Qed.

Lemma each_changes {A} (f : A -> simulation -> res simulation) (read : A -> res change) l changes s :
  (forall x s, f x s = ('(id, g) ← read x; change_flow id g s)) ->
  mapM read l = Ok changes -> Forall keeps_id changes -> indexed s ->
  Forall (fun c => c.1 ∈ flowId <$> flows s) changes ->
  exists s', each f l s = Ok s' /\ indexed s' /\ flowId <$> flows s' = flowId <$> flows s /\
    flows s' = applied changes <$> flows s.
Proof.
  intros Hf. revert changes s. induction l as [|x l IH]; intros changes s Hr Hk Hix Hid.
  - injection Hr as <-. exists s. split; [done|]. split; [done|]. split; [done|]. symmetry. apply list_fmap_id.
  - cbn [mapM] in Hr. apply bind_ok in Hr as ([id g] & Hx & Hr). apply bind_ok in Hr as (cs & Hcs & [= <-]).
    apply Forall_cons in Hk as [Hg Hk]. apply Forall_cons in Hid as [Hin Hid]. cbn [each]. rewrite Hf, Hx.
    cbn [mbind result_bind]. destruct (change_flow_spec id g s Hix Hg Hin) as (s1 & -> & Hix1 & Hids1 & Hfl1).
    cbn [mbind result_bind]. destruct (IH cs s1 Hcs Hk Hix1) as (s2 & He & Hix2 & Hids2 & Hfl2); [by rewrite Hids1|].
    exists s2. split; [done|]. split; [done|]. split; [by rewrite Hids2|].
    rewrite Hfl2, Hfl1, <- list_fmap_compose. apply list_fmap_ext. intros j f' _. unfold compose. by rewrite applied_cons.
Qed.

Lemma applied_app cs1 cs2 f : Forall keeps_id cs1 -> applied (cs1 ++ cs2) f = applied cs2 (applied cs1 f).
Proof.
  intros H. revert f. induction H as [|c cs Hc _ IH]; intros f; [done|].
  cbn [app]. by rewrite !applied_cons, IH by done.
Qed.

(** What the probes have measured, in the order of the document. *)
Definition read_probe (probe_elem : element) : res (list (Z * probe_stats)) :=
  probeId ← int_attr probe_elem (txt "index"); mapM (read_stats probeId) (findall probe_elem (txt "FlowStats")).

Lemma mapM_change {A B} (read : A -> res B) (g : B -> change) l (ss : list B) :
  mapM read l = Ok ss -> mapM (fun x => p ← read x; @Ok py_exn change (g p)) l = Ok (list_fmap _ _ g ss).
Proof.
  revert ss. induction l as [|x l IH]; intros ss H; [by injection H as <-|]. cbn [mapM] in *.
  apply bind_ok in H as (p & Hp & H). apply bind_ok in H as (ps & Hps & [= <-]). rewrite Hp. cbn [mbind result_bind].
  by rewrite (IH ps Hps).
Qed.

Lemma stats_keep ss : Forall keeps_id (stats_changes ss).
Proof. apply Forall_fmap, Forall_forall. by intros p _ f. Qed.

Lemma each_probes l sss s : mapM read_probe l = Ok sss -> indexed s ->
  Forall (fun p => p.1 ∈ flowId <$> flows s) (concat sss) ->
  exists s', each add_probe l s = Ok s' /\ flows s' = applied (stats_changes (concat sss)) <$> flows s.
Proof.
  revert sss s. induction l as [|x l IH]; intros sss s H Hix Hid.
  { injection H as <-. exists s. split; [done|]. symmetry. apply list_fmap_id. }
  cbn [mapM] in H. apply bind_ok in H as (ss & Hss & H). apply bind_ok in H as (rest & Hrest & [= <-]).
  cbn [concat] in *. apply Forall_app in Hid as [Hid1 Hid2].
  apply bind_ok in Hss as (probe & Hprobe & Hss). cbn [each].
  assert (add_probe x s = each (add_stats probe) (findall x (txt "FlowStats")) s) as ->
    by (unfold add_probe; by rewrite Hprobe).
  destruct (each_changes (add_stats probe) (fun x => p ← read_stats probe x; @Ok py_exn change (stats_change p))
    (findall x (txt "FlowStats")) (stats_changes ss) s) as (s1 & -> & Hix1 & Hids1 & Hfl1); [|by apply mapM_change|apply stats_keep|done| |].
  { intros y t. unfold add_stats. by destruct (read_stats probe y) as [[]| |]. }
  { unfold stats_changes. by rewrite Forall_fmap. }
  cbn [mbind result_bind]. destruct (IH rest s1 Hrest Hix1) as (s2 & He & Hfl2); [by rewrite Hids1|].
  exists s2. split; [done|]. rewrite Hfl2, Hfl1, <- list_fmap_compose. apply list_fmap_ext. intros j f _.
  unfold compose. replace (stats_changes (ss ++ concat rest)) with (stats_changes ss ++ stats_changes (concat rest)) by (symmetry; apply fmap_app).
  rewrite applied_app; [done|apply stats_keep].
Qed.

Lemma each_flows l fl s : mapM new_flow l = Ok fl -> indexed s -> NoDup (flowId <$> flows s ++ fl) ->
  exists s', each add_flow l s = Ok s' /\ indexed s' /\ flows s' = flows s ++ fl.
Proof.
  revert fl s. induction l as [|x l IH]; intros fl s H Hix Hnd.
  { injection H as <-. exists s. by rewrite app_nil_r. }
  cbn [mapM] in H. apply bind_ok in H as (f & Hf & H). apply bind_ok in H as (fs & Hfs & [= <-]).
  cbn [each].
  assert (add_flow x s = Ok (Sim (flows s ++ [f]) (<[flowId f := length (flows s)]> (flow_map s)))) as ->
    by (unfold add_flow; by rewrite Hf).
  cbn [mbind result_bind].
  assert (NoDup (flowId <$> flows s ++ [f])) as Hnd1.
  { replace (flows s ++ f :: fs) with ((flows s ++ [f]) ++ fs) in Hnd by (by rewrite <- app_assoc).
    rewrite fmap_app in Hnd. by apply NoDup_app in Hnd as [? _]. }
  destruct (IH fs (Sim (flows s ++ [f]) (<[flowId f := length (flows s)]> (flow_map s))) Hfs) as (s' & He & Hix' & Hfl).
  - split; [done|]. cbn [flows flow_map]. intros i g Hi. apply lookup_app_Some in Hi as [Hi|[Hge Hi]].
    + rewrite lookup_insert_ne; [by apply Hix|]. intros Heq. rewrite fmap_app in Hnd1.
      apply NoDup_app in Hnd1 as (_ & Hnot & _). apply (Hnot (flowId g)).
      * apply list_elem_of_fmap_2. by eapply list_elem_of_lookup_2.
      * rewrite <- Heq. constructor.
    + apply list_lookup_singleton_Some in Hi as [Hi <-]. rewrite lookup_insert_eq. f_equal. lia.
  - cbn [flows]. by rewrite <- app_assoc.
  - exists s'. split; [done|]. split; [done|]. rewrite Hfl. cbn [flows]. by rewrite <- app_assoc.
Qed.

(** The changes to one flow: the probe measurements are added ... *)
Lemma applied_stats ss f :
  applied (stats_changes ss) f =
    Flow (flowId f) (delayMean f) (packetLossRatio f) (rxBitrate f) (txBitrate f) (fiveTuple f) (packetSizeMean f)
      (probe_stats_unsorted f ++ (filter (fun p => p.1 = flowId f) ss).*2) (hopCount f)
      (flowInterruptionsHistogram f) (rx_duration f).
Proof.
  revert f. induction ss as [|p ss IH]; intros f; [cbn; rewrite app_nil_r; by destruct f|].
  unfold stats_changes in *. cbn [fmap list_fmap]. rewrite applied_cons, filter_cons by by intros g.
  cbn [stats_change fst snd]. rewrite IH. destruct (decide (p.1 = flowId f)) as [Hp|Hp].
  - rewrite decide_True by done. cbn. by rewrite <- app_assoc.
  - by rewrite decide_False by congruence.
Qed.

(** ... and of several five-tuples the last one stays. *)
Lemma applied_tuples ts f :
  applied (tuple_changes ts) f =
    match last (filter (fun p => p.1 = flowId f) ts) with Some p => set_fiveTuple p.2 f | None => f end.
Proof.
  induction ts as [|p ts IH] using rev_ind; [done|].
  unfold tuple_changes in *. rewrite fmap_app, applied_app, IH, filter_app.
  2: { apply Forall_fmap, Forall_forall. by intros q _ g. }
  set (g := match last _ with Some q => _ | None => _ end).
  assert (flowId g = flowId f) as Hg by (unfold g; by case_match).
  change (tuple_change <$> [p]) with [tuple_change p].
  rewrite applied_cons by by intros h. change (applied [] ?h) with h. cbn [tuple_change fst snd]. rewrite Hg.
  rewrite filter_cons, filter_nil. destruct (decide (p.1 = flowId f)) as [Hp|Hp].
  - rewrite decide_True, last_snoc by done. unfold g. by case_match.
  - by rewrite decide_False, app_nil_r by congruence.
Qed.

(** The last five-tuple of the classifier for the flow and all its probe
    measurements, in order. *)
Definition completed (ts : list (Z * five_tuple)) (ss : list (Z * probe_stats)) (f : flow) : flow :=
  let tuple := match last (filter (fun p => p.1 = flowId f) ts) with Some p => Some p.2 | None => fiveTuple f end in
  Flow (flowId f) (delayMean f) (packetLossRatio f) (rxBitrate f) (txBitrate f) tuple (packetSizeMean f)
    (probe_stats_unsorted f ++ (filter (fun p => p.1 = flowId f) ss).*2) (hopCount f)
    (flowInterruptionsHistogram f) (rx_duration f).

Lemma applied_completed ts ss f : applied (stats_changes ss) (applied (tuple_changes ts) f) = completed ts ss f.
Proof. rewrite applied_stats, applied_tuples. unfold completed. by destruct (last _); destruct f. Qed.

(** ** Correctness *)

(** When the flows have distinct identifiers and the classifier and the probes
    only name these, a simulation has its flows in the order of the document, each
    with the last of its five-tuples and all its probe measurements, in order. *)
Theorem new_simulation_spec el classifier fl ts sss :
  findall el (txt "Ipv4FlowClassifier") = [classifier] ->
  mapM new_flow (findall_in el (txt "FlowStats") (txt "Flow")) = Ok fl -> NoDup (flowId <$> fl) ->
  mapM read_tuple (findall classifier (txt "Flow")) = Ok ts ->
  mapM read_probe (findall_in el (txt "FlowProbes") (txt "FlowProbe")) = Ok sss ->
  Forall (fun id => id ∈ flowId <$> fl) (ts.*1 ++ (concat sss).*1) ->
  new_simulation el = Ok (completed ts (concat sss) <$> fl).
Proof.
  intros Hc Hfl Hnd Hts Hsss [Hid1 Hid2]%Forall_app. rewrite Forall_fmap in Hid1. rewrite Forall_fmap in Hid2.
  unfold new_simulation. rewrite Hc.
  destruct (each_flows _ _ (Sim [] ∅) Hfl) as (s1 & -> & Hix1 & Hs1); [by split; [constructor|]|done|].
  cbn [mbind result_bind flows app] in *.
  destruct (each_changes add_tuple (fun x => p ← read_tuple x; @Ok py_exn change (tuple_change p))
    (findall classifier (txt "Flow")) (tuple_changes ts) s1) as (s2 & -> & Hix2 & Hids2 & Hfl2).
  { intros y t. unfold add_tuple. by destruct (read_tuple y) as [[]| |]. }
  { by apply mapM_change. }
  { apply Forall_fmap, Forall_forall. by intros p _ f. }
  { done. }
  { unfold tuple_changes. by rewrite Forall_fmap, Hs1. }
  cbn [mbind result_bind].
  destruct (each_probes _ _ s2 Hsss Hix2) as (s3 & -> & Hfl3); [by rewrite Hids2, Hs1|].
  cbn [mbind result_bind]. f_equal. rewrite Hfl3, Hfl2, Hs1, <- list_fmap_compose. apply list_fmap_ext. intros i f _.
  unfold compose. apply applied_completed.
Qed.

Definition demo_flow (id : string) : element :=
  Element (txt "Flow") None
    [(txt "flowId", txt id); (txt "rxPackets", txt "2"); (txt "txPackets", txt "3"); (txt "timesForwarded", txt "4");
     (txt "timeFirstTxPacket", txt "+0.0ns"); (txt "timeLastTxPacket", txt "+2000000000.0ns");
     (txt "timeFirstRxPacket", txt "+5.0ns"); (txt "timeLastRxPacket", txt "+5.0ns"); (txt "delaySum", txt "+6.0ns");
     (txt "rxBytes", txt "100"); (txt "txBytes", txt "1000"); (txt "lostPackets", txt "1")] [].
Definition demo_class (id : string) : element :=
  Element (txt "Flow") None
    [(txt "flowId", txt id); (txt "sourceAddress", txt "10.1.1.1"); (txt "destinationAddress", txt "10.1.1.2");
     (txt "protocol", txt "17"); (txt "sourcePort", txt "9"); (txt "destinationPort", txt "10")] [].
Definition demo_stats (id packets : string) : element :=
  Element (txt "FlowStats") None
    [(txt "flowId", txt id); (txt "packets", txt packets); (txt "bytes", txt "64");
     (txt "delayFromFirstProbeSum", txt "+8.0ns")] [].
Definition demo (classes : list element) : element :=
  Element (txt "FlowMonitor") None []
    [Element (txt "FlowStats") None [] [demo_flow "1"; demo_flow "2"];
     Element (txt "Ipv4FlowClassifier") None [] classes;
     Element (txt "FlowProbes") None []
       [Element (txt "FlowProbe") None [(txt "index", txt "0")] [demo_stats "2" "4"; demo_stats "1" "0"];
        Element (txt "FlowProbe") None [(txt "index", txt "1")] [demo_stats "2" "1"]]].

Definition ok_or {A} (d : A) (r : res A) : A := match r with Ok a => a | _ => d end.

Lemma new_simulation_spec_witness :
  let el := demo [demo_class "1"; demo_class "2"] in
  let fl := ok_or [] (mapM new_flow (findall_in el (txt "FlowStats") (txt "Flow"))) in
  let ts := ok_or [] (mapM read_tuple [demo_class "1"; demo_class "2"]) in
  let sss := ok_or [] (mapM read_probe (findall_in el (txt "FlowProbes") (txt "FlowProbe"))) in
  length <$> sss = [2; 1] /\ new_simulation el = Ok (completed ts (concat sss) <$> fl).
Proof.
  split; [vm_compute; reflexivity|].
  eapply new_simulation_spec; try (vm_compute; reflexivity).
  - apply (bool_decide_unpack _). vm_compute. exact I.
  - apply (bool_decide_unpack _). vm_compute. exact I.
Defined.

Example report_ex : report (demo [demo_class "1"; demo_class "2"]) = Ok
  [txt "Reading XML file . done.";
   txt "FlowID: 1 (UDP 10.1.1.1/9 --> 10.1.1.2/10)"; tab :: txt "TX bitrate: 4.00 kbit/s"; tab :: txt "RX bitrate: None";
   tab :: txt "Mean Delay: 0.00 ms"; tab :: txt "Packet Loss Ratio: 33.33 %";
   txt "FlowID: 2 (UDP 10.1.1.1/9 --> 10.1.1.2/10)"; tab :: txt "TX bitrate: 4.00 kbit/s"; tab :: txt "RX bitrate: None";
   tab :: txt "Mean Delay: 0.00 ms"; tab :: txt "Packet Loss Ratio: 33.33 %"].
Proof. vm_compute. reflexivity. Qed.

(** A flow that the classifier leaves out cannot be printed, and one that only the
    classifier names is not found. *)
Example report_unclassified : report (demo [demo_class "1"]) = Raise AttributeError.
Proof. vm_compute. reflexivity. Qed.
Example report_unknown : report (demo [demo_class "3"]) = Raise KeyError.
Proof. vm_compute. reflexivity. Qed.
