(* ===== verification/VizThread.v ===== *)
(** * The threads of the visualizer ([src/visualizer/visualizer/core.py]).

    The simulation thread runs the simulator up to the target time when the view
    gives the signal [go]; the view, in the main loop of GTK, displays the state
    and sets the next target.  They share a lock, which is not re-entrant.  The
    handlers of the view are a stack: the one that waits for the lock in
    [update_view_timeout] runs the main loop inside.  An execution is a list of
    actions.  The simulator itself is a parameter, and so is what [update_view] does, which
    may raise. *)
From S2P Require Import Prelude PyNum PyString PyFloat.
From Stdlib Require Import SpecFloat.
#[local] Open Scope Z_scope.

Section viz_thread.
(** The state of the simulator, with its clock in nanoseconds.  Running it up to a
    time gives the pause messages, transmissions and drops of that run. *)
Context {World T D : Type} (now : World -> Z).
Context (simulate : Z -> World -> World * list text * list T * list D).
(** [ns.core.Seconds(x)] and [t.GetSeconds()] *)
Context (seconds : num -> Z) (get_seconds : Z -> spec_float).

(** [ns.visualizer.PyViz] *)
Record pyviz := PyViz {
  world : World; pauseMessages : list text; transmissionSamples : list T; packetDrops : list D; nodesOfInterest : list Z }.

(** Of the C++ method only what Python can see: the lists are emptied in any case. *)
Definition SimulatorRunUntil (time : Z) (p : pyviz) : pyviz :=
  if time <=? now (world p) then PyViz (world p) [] [] [] (nodesOfInterest p)
  else let '(w, m, ts, ds) := simulate time (world p) in PyViz w m ts ds (nodesOfInterest p).

(** ** The state *)

Inductive owner := BySimulation | ByView.

(** Where the thread is in [SimulationThread.run]. *)
Inductive sim_pc := TestQuit | Waiting | Clearing | TestAgain | Acquiring | RunningSim | Extending | Releasing | Ended.

(** [SimulationThread] *)
Record thread := Thread {
  pc : sim_pc; lock : option owner; go : bool; quit : bool; target_time : num; pause_messages : list text;
  sim_helper : pyviz }.

(** A handler of the view that has not returned. *)
Inductive frame :=
| Trying (id : nat)                          (* update_view_timeout, in its first loop *)
| Updating (id : nat) (messages : list text) (* it holds the lock *)
| Updated (id : nat) (messages : list text)  (* it has released the lock *)
| ModelWait | ModelHold                      (* update_model *)
| NodesWait (nodes : list Z) | NodesHold (nodes : list Z) (* set_nodes_of_interest *)
| Quitting | Joining.                        (* _quit *)

(** [Visualizer] *)
Record view := View {
  frames : list frame; play : bool; update_timeout_id : option nat;
  speed : spec_float; sample_period : spec_float; smoothing : spec_float;
  last_transmissions : list (list T); last_drops : list (list D) }.

(** The main loop: the callbacks of [idle_add] that wait, and the timers. *)
Record main_loop := MainLoop { idles : nat; sources : list nat; next_source : nat; running : bool }.

(** What has happened: the pause messages of the simulator; those that handlers are done
    with, and whether they were shown; the times at which the view was updated, to the end;
    and the timers that were removed without being there. *)
Record history := History { said : list text; handled : list (text * bool); displayed : list Z; missing : list nat }.
Definition shown (h : history) : list text := (filter (fun m => m.2 = true) (handled h)).*1.
Definition lost (h : history) : list text := (filter (fun m => m.2 = false) (handled h)).*1.
Definition handle_messages (ms : list text) (b : bool) (h : history) : history :=
  History (said h) (handled h ++ ((fun m => (m, b)) <$> ms)) (displayed h) (missing h).

Record viz_system := System { th : thread; vw : view; lp : main_loop; hi : history }.

Definition at_pc (p : sim_pc) (t : thread) : thread :=
  Thread p (lock t) (go t) (quit t) (target_time t) (pause_messages t) (sim_helper t).
Definition set_lock (o : option owner) (t : thread) : thread :=
  Thread (pc t) o (go t) (quit t) (target_time t) (pause_messages t) (sim_helper t).
Definition set_go (b : bool) (t : thread) : thread :=
  Thread (pc t) (lock t) b (quit t) (target_time t) (pause_messages t) (sim_helper t).
Definition set_quit (t : thread) : thread :=
  Thread (pc t) (lock t) (go t) true (target_time t) (pause_messages t) (sim_helper t).
Definition set_target (x : num) (t : thread) : thread :=
  Thread (pc t) (lock t) (go t) (quit t) x (pause_messages t) (sim_helper t).
Definition set_messages (m : list text) (t : thread) : thread :=
  Thread (pc t) (lock t) (go t) (quit t) (target_time t) m (sim_helper t).
Definition set_helper (p : pyviz) (t : thread) : thread :=
  Thread (pc t) (lock t) (go t) (quit t) (target_time t) (pause_messages t) p.
Definition set_frames (fs : list frame) (v : view) : view :=
  View fs (play v) (update_timeout_id v) (speed v) (sample_period v) (smoothing v) (last_transmissions v) (last_drops v).
Definition set_play (b : bool) (v : view) : view :=
  View (frames v) b (update_timeout_id v) (speed v) (sample_period v) (smoothing v) (last_transmissions v) (last_drops v).
Definition set_timeout (o : option nat) (v : view) : view :=
  View (frames v) (play v) o (speed v) (sample_period v) (smoothing v) (last_transmissions v) (last_drops v).
Definition set_speed (x period : spec_float) (v : view) : view :=
  View (frames v) (play v) (update_timeout_id v) x period (smoothing v) (last_transmissions v) (last_drops v).
Definition set_smoothing (x : spec_float) (v : view) : view :=
  View (frames v) (play v) (update_timeout_id v) (speed v) (sample_period v) x (last_transmissions v) (last_drops v).
Definition set_samples (ts : list (list T)) (ds : list (list D)) (v : view) : view :=
  View (frames v) (play v) (update_timeout_id v) (speed v) (sample_period v) (smoothing v) ts ds.

(** ** The simulation thread *)

Definition sim_step (s : viz_system) : option viz_system :=
  let 'System t v l h := s in
  match pc t with
  | TestQuit => Some (System (at_pc (if quit t then Ended else Waiting) t) v l h)
  | Waiting => if go t then Some (System (at_pc Clearing t) v l h) else None
  | Clearing => Some (System (at_pc TestAgain (set_go false t)) v l h)
  | TestAgain => Some (System (at_pc (if quit t then Ended else Acquiring) t) v l h)
  | Acquiring =>
      match lock t with
      | None => Some (System (at_pc RunningSim (set_lock (Some BySimulation) t)) v l h)
      | Some _ => None
      end
  | RunningSim =>
      let p := SimulatorRunUntil (seconds (target_time t)) (sim_helper t) in
      Some (System (at_pc Extending (set_helper p t)) v l
              (History (said h ++ pauseMessages p) (handled h) (displayed h) (missing h)))
  | Extending =>
      let t := set_messages (pause_messages t ++ pauseMessages (sim_helper t)) t in
      Some (System (at_pc Releasing t) v (MainLoop (S (idles l)) (sources l) (next_source l) (running l)) h)
  | Releasing => Some (System (at_pc TestQuit (set_lock None t)) v l h)
  | Ended => None
  end.

(** ** The timer of the view *)

Definition SAMPLE_PERIOD : num := frac 1 10.

(** [GLib.source_remove]: a source that is not there is only reported. *)
Definition source_remove (id : nat) (l : main_loop) (h : history) : main_loop * history :=
  if decide (id ∈ sources l) then
    (MainLoop (idles l) (filter (fun i => i <> id) (sources l)) (next_source l) (running l), h)
  else (l, History (said h) (handled h) (displayed h) (missing h ++ [id])).

Definition remove_timeout (v : view) (l : main_loop) (h : history) : main_loop * history :=
  match update_timeout_id v with Some id => source_remove id l h | None => (l, h) end.

(** [int(SAMPLE_PERIOD/min(self.speed, 1)*1e3)] *)
Definition timer_interval (x : spec_float) : res num :=
  q ← num_div SAMPLE_PERIOD (num_min (PFloat x) (PInt 1)); ms ← num_mul q (frac 1000 1); py_int ms.

(** [_start_update_timer]; how long the timer takes does not matter here. *)
Definition start_update_timer (v : view) (l : main_loop) (h : history) : view * main_loop * history :=
  let '(l, h) := remove_timeout v l h in
  match timer_interval (speed v) with
  | Ok _ =>
      (set_timeout (Some (next_source l)) v,
       MainLoop (idles l) (sources l ++ [next_source l]) (S (next_source l)) (running l), h)
  | _ => (v, l, h)
  end.

(** ** The handlers of the view *)

(** Append and forget the oldest. *)
Definition remember {A} (n : Z) (l : list A) (x : A) : res (list A) :=
  let l := l ++ [x] in if n <? 0 then Raise IndexError else Ok (drop (length l - Z.to_nat n) l).

Definition do_simulation_periodic_update (p : pyviz) (v : view) : res view :=
  x ← num_mul (PFloat (smoothing v)) (PInt 10);
  n ← py_int x;
  match n with
  | PInt smooth_factor =>
      ts ← remember smooth_factor (last_transmissions v) (transmissionSamples p);
      ds ← remember smooth_factor (last_drops v) (packetDrops p);
      Ok (set_samples ts ds v)
  | PFloat _ => Raise TypeError
  end.

Definition set_nodes (nodes : list Z) (p : pyviz) : pyviz :=
  PyViz (world p) (pauseMessages p) (transmissionSamples p) (packetDrops p) nodes.

(** [_on_play_button_toggled], when the button has got another state. *)
Definition toggled (v : view) (l : main_loop) (h : history) : view * main_loop * history :=
  if play v then start_update_timer v l h
  else let '(l, h) := remove_timeout v l h in (v, l, h).

(** [update_view_timeout] from the test of [pause_messages] on; whether the timer
    stays, and the signal. *)
Definition after_update (messages : list text) (v : view) (l : main_loop) (h : history) :
    bool * (view * main_loop * history) :=
  let '(v, l, h) :=
    match messages with
    | [] => (v, l, h)
    | _ =>
        let h := handle_messages messages true h in
        if play v then toggled (set_play false v) l h else (v, l, h)
    end in
  if play v then (true, (v, l, h)) else (false, (set_timeout None v, l, h)).

(** A source that returns [False] is removed, if it is still there. *)
Definition drop_source (id : nat) (l : main_loop) : main_loop :=
  MainLoop (idles l) (filter (fun i => i <> id) (sources l)) (next_source l) (running l).

(** The next step of the innermost handler; [None] while it waits. *)
Definition view_step (s : viz_system) : option viz_system :=
  let 'System t v l h := s in
  match frames v with
  | [] => None
  | Trying id :: fs =>
      match lock t with
      | Some _ => None
      | None =>
          Some (System (set_messages [] (set_lock (Some ByView) t)) (set_frames (Updating id (pause_messages t) :: fs) v) l h)
      end
  | Updating id messages :: fs =>
      let time := now (world (sim_helper t)) in
      let target := PFloat (SFadd prec emax (get_seconds time) (sample_period v)) in
      Some (System (set_lock None (set_target target t)) (set_frames (Updated id messages :: fs) v) l
              (History (said h) (handled h) (displayed h ++ [time]) (missing h)))
  | Updated id messages :: fs =>
      let '(stays, (v, l, h)) := after_update messages (set_frames fs v) l h in
      if stays then Some (System (set_go true t) v l h) else Some (System t v (drop_source id l) h)
  | ModelWait :: fs =>
      match lock t with
      | Some _ => None
      | None => Some (System (set_lock (Some ByView) t) (set_frames (ModelHold :: fs) v) l h)
      end
  | ModelHold :: fs =>
      let v := match do_simulation_periodic_update (sim_helper t) v with Ok v => v | _ => v end in
      Some (System (set_lock None t) (set_frames fs v) l h)
  | NodesWait nodes :: fs =>
      match lock t with
      | Some _ => None
      | None => Some (System (set_lock (Some ByView) t) (set_frames (NodesHold nodes :: fs) v) l h)
      end
  | NodesHold nodes :: fs =>
      Some (System (set_lock None (set_helper (set_nodes nodes (sim_helper t)) t)) (set_frames fs v) l h)
  | Quitting :: fs => Some (System (set_go true t) (set_frames (Joining :: fs) v) l h)
  | Joining :: fs =>
      match pc t with
      | Ended => Some (System t (set_frames fs v) (MainLoop (idles l) (sources l) (next_source l) false) h)
      | _ => None
      end
  end.

(** [update_view] raises: the lock is released, and the exception leaves the handler with
    the messages that it has taken.  GLib removes a source whose callback raises; the
    identifier stays. *)
Definition view_raise (s : viz_system) : option viz_system :=
  let 'System t v l h := s in
  match frames v with
  | Updating id messages :: fs =>
      Some (System (set_lock None t) (set_frames fs v) (drop_source id l) (handle_messages messages false h))
  | _ => None
  end.

(** ** Events *)

(** What the main loop dispatches: a timer, a callback of [idle_add], a click on
    the play button, new values of the speed and the smoothing, a handler that
    chooses the nodes of interest, the end of the window. *)
Inductive gui_event :=
| Timeout (id : nat) | RunIdle | Click | ChangeSpeed (x : spec_float) | ChangeSmoothing (x : spec_float)
| ChooseNodes (nodes : list Z) | Close.

(** The main loop runs outside of the handlers and in the first loop of
    [update_view_timeout]. *)
Definition listening (v : view) (l : main_loop) : bool :=
  match frames v with [] => running l | Trying _ :: _ => true | _ => false end.

(** A source is not dispatched again inside its own callback. *)
Definition is_trying (id : nat) (f : frame) : bool := match f with Trying i => (i =? id)%nat | _ => false end.

Definition push (f : frame) (v : view) : view := set_frames (f :: frames v) v.

Definition dispatch (e : gui_event) (s : viz_system) : option viz_system :=
  let 'System t v l h := s in
  if negb (listening v l) then None
  else
    match e with
    | Timeout id =>
        if decide (id ∈ sources l) then
          if existsb (is_trying id) (frames v) then None else Some (System t (push (Trying id) v) l h)
        else None
    | RunIdle =>
        match idles l with
        | O => None
        | S n => Some (System t (push ModelWait v) (MainLoop n (sources l) (next_source l) (running l)) h)
        end
    | Click => let '(v, l, h) := toggled (set_play (negb (play v)) v) l h in Some (System t v l h)
    | ChangeSpeed x =>
        match num_mul SAMPLE_PERIOD (PFloat x) with
        | Ok (PFloat period) => let '(v, l, h) := start_update_timer (set_speed x period v) l h in Some (System t v l h)
        | _ => None
        end
    | ChangeSmoothing x => Some (System t (set_smoothing x v) l h)
    | ChooseNodes nodes => Some (System t (push (NodesWait nodes) v) l h)
    | Close =>
        let '(l, h) := remove_timeout v l h in
        Some (System (set_quit t) (push Quitting (set_timeout None v)) l h)
    end.

(** [ViewRaise]: what [update_view] calls raises. *)
Inductive viz_action := Sim | ViewStep | ViewRaise | Event (e : gui_event).

Definition viz_step (a : viz_action) (s : viz_system) : option viz_system :=
  match a with Sim => sim_step s | ViewStep => view_step s | ViewRaise => view_raise s | Event e => dispatch e s end.

(** When [start] has scanned the topology and started the thread: the speed has been
    set once, which starts a timer. *)
Definition initial (w : World) (nodes : list Z) : viz_system :=
  System (Thread TestQuit None false false (PInt 0) [] (PyViz w [] [] [] nodes))
    (View [] false (Some 0%nat) (ratio 1 1) (ratio 1 10) (ratio 5 10) [] [])
    (MainLoop 0 [0%nat] 1 true) (History [] [] [] []).
End viz_thread.

(** ** The invariant *)

Section invariant.
Context {World T D : Type} (now : World -> Z).
Context (simulate : Z -> World -> World * list text * list T * list D).
Context (seconds : num -> Z) (get_seconds : Z -> spec_float).
Notation viz_system := (@viz_system World T D).
Notation viz_step := (viz_step now simulate seconds get_seconds).
Notation run_actions := (run_schedule viz_step).

Definition sim_holds (p : sim_pc) : bool := match p with RunningSim | Extending | Releasing => true | _ => false end.
Definition view_holds (f : frame) : bool := match f with Updating _ _ | ModelHold | NodesHold _ => true | _ => false end.
Definition top_holds (fs : list frame) : bool := match fs with f :: _ => view_holds f | [] => false end.
Definition trying (f : frame) : Prop := match f with Trying _ => True | _ => False end.
Definition closing (f : frame) : Prop := match f with Quitting | Joining => True | _ => False end.

(** The pause messages that a handler has taken and neither shown nor lost. *)
Definition carried (fs : list frame) : list text :=
  match fs with (Updating _ m | Updated _ m) :: _ => m | _ => [] end.
(** Those that the simulator has given and the thread has not stored. *)
Definition fresh_messages (t : @thread World T D) : list text :=
  match pc t with Extending => pauseMessages (sim_helper t) | _ => [] end.

Record viz_inv (s : viz_system) : Prop := Inv {
  i_frames : Forall trying (tail (frames (vw s)));
  i_lock : lock (th s) = if sim_holds (pc (th s)) then Some BySimulation
                         else if top_holds (frames (vw s)) then Some ByView else None;
  i_exclusive : sim_holds (pc (th s)) = true -> top_holds (frames (vw s)) = false;
  i_quit : quit (th s) = true -> pc (th s) = Waiting -> go (th s) = true \/ head (frames (vw s)) = Some Quitting;
  i_close : forall f, head (frames (vw s)) = Some f -> closing f -> quit (th s) = true;
  i_messages : said (hi s) = (handled (hi s)).*1 ++ carried (frames (vw s)) ++ pause_messages (th s) ++ fresh_messages (th s)
}.

(** What a change of the timers leaves alone. *)
Definition quiet (v v' : @view T D) (l l' : main_loop) (h h' : history) : Prop :=
  frames v' = frames v /\ running l' = running l /\ idles l' = idles l /\
  said h' = said h /\ handled h' = handled h /\ displayed h' = displayed h.

Lemma remove_timeout_quiet (v : @view T D) l h l' h' : remove_timeout v l h = (l', h') -> quiet v v l l' h h'.
Proof.
  unfold remove_timeout, source_remove. destruct (update_timeout_id v) as [id|]; [case_decide|]; intros [= <- <-]; done.
Qed.

Lemma start_update_timer_quiet (v v' : @view T D) l l' h h' : start_update_timer v l h = (v', l', h') -> quiet v v' l l' h h'.
Proof.
  unfold start_update_timer. destruct (remove_timeout v l h) as [l1 h1] eqn:Hr. apply remove_timeout_quiet in Hr.
  destruct (timer_interval (speed v)); intros [= <- <- <-]; done.
Qed.

Lemma toggled_quiet (v v' : @view T D) l l' h h' : toggled v l h = (v', l', h') -> quiet v v' l l' h h'.
Proof.
  unfold toggled. destruct (play v); [apply start_update_timer_quiet|].
  destruct (remove_timeout v l h) as [l1 h1] eqn:Hr. apply remove_timeout_quiet in Hr. by intros [= <- <- <-].
Qed.

Lemma after_update_quiet (v v' : @view T D) messages l l' h h' b : after_update messages v l h = (b, (v', l', h')) ->
  quiet v v' l l' (handle_messages messages true h) h'.
Proof.
  unfold after_update. intros Ha.
  assert (exists v1 l1 h1, quiet v v1 l l1 (handle_messages messages true h) h1 /\
    (if play v1 then (true, (v1, l1, h1)) else (false, (set_timeout None v1, l1, h1))) = (b, (v', l', h'))) as
    (v1 & l1 & h1 & Hq & Hb).
  { destruct messages as [|m ms]; [exists v, l, h; split; [|done]; unfold quiet; cbn; by rewrite app_nil_r|].
    destruct (play v); [|by exists v, l, (handle_messages (m :: ms) true h)].
    destruct (toggled _ _ _) as [[v1 l1] h1] eqn:Ht. apply toggled_quiet in Ht. by exists v1, l1, h1. }
  destruct (play v1); injection Hb as <- <- <- <-; done.
Qed.

Lemma sim_step_inv s s' : viz_inv s -> sim_step now simulate seconds s = Some s' -> viz_inv s'.
Proof.
  destruct s as [[p lk g q tg ms hp] v l h]. intros [Hf Hl He Hq Hc Hm] Hs.
  unfold sim_step in Hs. cbn in *. destruct p; cbn in *; simplify_eq/=.
  - destruct q; split; cbn; done.
  - destruct g; [|done]. simplify_eq. split; cbn; try done.
  - split; cbn; done.
  - destruct q; split; cbn; done.
  - destruct (top_holds (frames v)) eqn:Ht; [done|]. simplify_eq. split; cbn; done.
  - split; cbn; try done. by rewrite Hm, app_nil_r, <- !app_assoc.
  - split; cbn; try done. by rewrite app_nil_r, Hm.
  - split; cbn; try done. by rewrite (He eq_refl).
Qed.

Lemma trying_frames fs : Forall trying fs ->
  top_holds fs = false /\ carried fs = [] /\ Forall trying (tail fs) /\ forall f, head fs = Some f -> ~ closing f.
Proof.
  intros Hfs. destruct Hfs as [|f fs Hf Hfs]; [done|]. destruct f; try done. do 3 (split; [done|]).
  intros f [= <-] Hc. exact Hc.
Qed.

(** The frames below a handler do not matter when it returns. *)
Lemma pop_inv fs (th' : thread) (v' : view) l' h' :
  Forall trying fs -> frames v' = fs ->
  lock th' = (if sim_holds (pc th') then Some BySimulation else None) ->
  (quit th' = true -> pc th' = Waiting -> go th' = true) ->
  said h' = (handled h').*1 ++ pause_messages th' ++ fresh_messages th' -> viz_inv (System th' v' l' h').
Proof.
  intros Hfs <- Hl Hq Hm. destruct (trying_frames _ Hfs) as (Ht & Hc & Htl & Hcl).
  split; cbn; rewrite ?Ht, ?Hc; try done.
  - intros. left. auto.
  - intros f Hf Hcf. by destruct (Hcl f).
Qed.

Lemma handled_snd (l : list (text * bool)) ms b : (l ++ ((fun m => (m, b)) <$> ms)).*1 = l.*1 ++ ms.
Proof. rewrite fmap_app. f_equal. rewrite <- list_fmap_compose. by apply list_fmap_id. Qed.

Lemma view_raise_inv s s' : viz_inv s -> view_raise s = Some s' -> viz_inv s'.
Proof.
  destruct s as [[p lk g q tg ms hp] v l h]. intros [Hf Hl He Hq Hc Hm] Hs.
  unfold view_raise in Hs. cbn in *. destruct (frames v) as [|f fs] eqn:Hfs; [done|]. destruct f as [|id m| | | | | | |]; try done.
  injection Hs as <-. cbn in *. assert (sim_holds p = false) as Hp by (destruct (sim_holds p); [by specialize (He eq_refl)|done]).
  apply (pop_inv fs); [done|done|by cbn; rewrite Hp|..]; cbn.
  - intros Hqt Hpt. by destruct (Hq Hqt Hpt).
  - by rewrite handled_snd, Hm, <- app_assoc.
Qed.

Lemma view_step_inv s s' : viz_inv s -> view_step now get_seconds s = Some s' -> viz_inv s'.
Proof.
  destruct s as [[p lk g q tg ms hp] v l h]. intros [Hf Hl He Hq Hc Hm] Hs.
  unfold view_step in Hs. cbn in *. destruct (frames v) as [|f fs] eqn:Hfs; [done|]. cbn in *.
  assert (forall b, view_holds f = b -> (b = true -> sim_holds p = false)) as Hx.
  { intros b <- Hb. destruct (sim_holds p); [|done]. specialize (He eq_refl). congruence. }
  destruct f as [id|id m|id m| | |nodes|nodes| |]; cbn in *.
  - destruct lk; [done|]. injection Hs as <-. split; cbn; try done.
    + by destruct (sim_holds p).
    + by destruct (sim_holds p).
    + intros Hqt Hpt. by destruct (Hq Hqt Hpt) as [?|[=]]; left.
    + by intros f [= <-].
  - injection Hs as <-. specialize (Hx true eq_refl eq_refl). split; cbn; try done.
    + by rewrite Hx.
    + intros Hqt Hpt. by destruct (Hq Hqt Hpt) as [?|[=]]; left.
    + by intros f [= <-].
  - destruct (after_update m (set_frames fs v) l h) as [b [[v1 l1] h1]] eqn:Ha. apply after_update_quiet in Ha.
    destruct Ha as (Hv1 & _ & _ & Hsd & Hsh & _). cbn in Hsd, Hsh.
    destruct b; injection Hs as <-; (eapply (pop_inv fs); [done|done|done|..]); cbn.
    + done.
    + by rewrite Hsd, Hsh, handled_snd, Hm, <- app_assoc.
    + intros Hqt Hpt. by destruct (Hq Hqt Hpt).
    + by rewrite Hsd, Hsh, handled_snd, Hm, <- app_assoc.
  - destruct lk; [done|]. injection Hs as <-. split; cbn; try done.
    + by destruct (sim_holds p).
    + by destruct (sim_holds p).
    + intros Hqt Hpt. by destruct (Hq Hqt Hpt) as [?|[=]]; left.
    + by intros f [= <-].
  - specialize (Hx true eq_refl eq_refl). injection Hs as <-. apply (pop_inv fs); [done|..]; cbn.
    + done.
    + by rewrite Hx.
    + intros Hqt Hpt. by destruct (Hq Hqt Hpt).
    + done.
  - destruct lk; [done|]. injection Hs as <-. split; cbn; try done.
    + by destruct (sim_holds p).
    + by destruct (sim_holds p).
    + intros Hqt Hpt. by destruct (Hq Hqt Hpt) as [?|[=]]; left.
    + by intros f [= <-].
  - specialize (Hx true eq_refl eq_refl). injection Hs as <-. apply (pop_inv fs); [done|..]; cbn.
    + done.
    + by rewrite Hx.
    + intros Hqt Hpt. by destruct (Hq Hqt Hpt).
    + rewrite Hm. unfold fresh_messages. by destruct p.
  - injection Hs as <-. split; cbn; try done.
    + by left.
    + intros f [= <-] _. by apply (Hc Quitting).
  - destruct p; try done. injection Hs as <-. by apply (pop_inv fs).
Qed.

Lemma push_inv (t : thread) (v v' : view) l l' h h' f : viz_inv (System t v l h) -> listening v l = true ->
  quiet v v' l l' h h' -> view_holds f = false -> carried [f] = [] -> ~ closing f -> viz_inv (System t (push f v') l' h').
Proof.
  intros [Hf Hl He Hq Hc Hm] Hli (Hv & _ & _ & Hsd & Hsh & _) Hh Hca Hcl. cbn in *.
  assert (Forall trying (frames v) /\ top_holds (frames v) = false /\ carried (frames v) = [] /\
    head (frames v) <> Some Quitting) as (Hfs & Ht & Hcr & Hh').
  { unfold listening in Hli. destruct (frames v) as [|f0 fs]; [done|]. destruct f0; try done. cbn in *.
    split; [by constructor|done]. }
  split; cbn; rewrite ?Hv, ?Hsd, ?Hsh, ?Hh, ?Ht, ?Hcr, ?Hca in *; try done.
  - intros Hqt Hpt. left. by destruct (Hq Hqt Hpt).
  - by intros f' [= <-].
Qed.

Lemma quiet_inv (t : thread) (v v' : @view T D) l l' h h' : viz_inv (System t v l h) -> quiet v v' l l' h h' -> viz_inv (System t v' l' h').
Proof.
  intros [Hf Hl He Hq Hc Hm] (Hv & _ & _ & Hsd & Hsh & _). split; cbn in *; rewrite ?Hv, ?Hsd, ?Hsh; done.
Qed.

Lemma close_inv (t : thread) (v : view) l l' h h' : viz_inv (System t v l h) -> listening v l = true ->
  quiet v v l l' h h' -> viz_inv (System (set_quit t) (push Quitting (set_timeout None v)) l' h').
Proof.
  intros Hi Hli Hq. assert (viz_inv (System t (push ModelWait v) l' h')) as Hi'.
  { eapply push_inv; [exact Hi|done..|]. by intros []. }
  destruct Hi' as [Hf Hl He _ _ Hm]. split; cbn in *; try done. by right.
Qed.

Lemma dispatch_inv e s s' : viz_inv s -> dispatch e s = Some s' -> viz_inv s'.
Proof.
  destruct s as [t v l h]. intros Hi Hs. unfold dispatch in Hs.
  destruct (listening v l) eqn:Hli; cbn in Hs; [|done]. destruct e as [id| | |x|x|nodes|].
  - case_decide; [|done]. destruct (existsb _ _); [done|]. injection Hs as <-. eapply push_inv; [exact Hi|done..|by intros []].
  - destruct (idles l) as [|n]; [done|]. injection Hs as <-.
    assert (viz_inv (System t (push ModelWait v) l h)) as [] by (eapply push_inv; [exact Hi|done..|by intros []]). by split.
  - destruct (toggled _ _ _) as [[v1 l1] h1] eqn:Ht. injection Hs as <-. apply toggled_quiet in Ht. by apply (quiet_inv _ v _ l _ h).
  - destruct (start_update_timer _ _ _) as [[v1 l1] h1] eqn:Ht.
    injection Hs as <-. apply start_update_timer_quiet in Ht. by apply (quiet_inv _ v _ l _ h).
  - injection Hs as <-. by apply (quiet_inv _ v _ l _ h).
  - injection Hs as <-. eapply push_inv; [exact Hi|done..|by intros []].
  - destruct (remove_timeout v l h) as [l1 h1] eqn:Hr. injection Hs as <-. apply remove_timeout_quiet in Hr.
    by apply (close_inv _ _ l _ h).
Qed.

Lemma do_action_inv a s s' : viz_step a s = Some s' -> viz_inv s -> viz_inv s'.
Proof. destruct a; cbn; intros Ha Hi; [by eapply sim_step_inv|by eapply view_step_inv|by eapply view_raise_inv|by eapply dispatch_inv]. Qed.

Lemma initial_inv w nodes : viz_inv (initial w nodes).
Proof. split; cbn; try done. Qed.

Lemma run_keeps acts s s' : viz_inv s -> run_actions acts s = Some s' -> viz_inv s'.
Proof. intros Hi Hr. apply (run_schedule_ind _ viz_inv _ _ _ Hr); [done|]. intros a t t' _ Ha. by apply (do_action_inv a). Qed.
Lemma viz_run_inv acts w nodes s : run_actions acts (initial w nodes) = Some s -> viz_inv s.
Proof. apply run_keeps, initial_inv. Qed.

(** ** Progress *)

(** The steps that the thread still makes once it has been told to quit. *)
Definition rank (p : sim_pc) : nat :=
  match p with
  | Ended => 0 | TestQuit | TestAgain => 1 | Clearing | Releasing => 2 | Waiting | Extending => 3 | RunningSim => 4 | Acquiring => 5
  end.

Lemma join_step s : viz_inv s -> head (frames (vw s)) = Some Joining -> pc (th s) <> Ended ->
  exists s', viz_step Sim s = Some s' /\ vw s' = vw s /\ S (rank (pc (th s'))) = rank (pc (th s)).
Proof.
  intros [_ Hl _ Hq Hc _] Hj Hp. specialize (Hc Joining Hj I). destruct s as [[p lk g q tg ms hp] v l h]. cbn in *. subst q.
  assert (top_holds (frames v) = false) as Ht by (destruct (frames v); cbn in *; by simplify_eq/=).
  destruct p; cbn in *; try (eexists; split; [reflexivity|split; [done|done]]); try done.
  - destruct (Hq eq_refl eq_refl) as [->|Hx]; [by eexists|congruence].
  - rewrite Hl, Ht. by eexists.
Qed.

Lemma joining_only a s s' : head (frames (vw s)) = Some Joining -> viz_step a s = Some s' ->
  a = Sim \/ (a = ViewStep /\ pc (th s) = Ended).
Proof.
  destruct s as [[p lk g q tg ms hp] v l h]. cbn. intros Hj Ha. destruct a as [| | |e]; [by left|right| |].
  - cbn in Ha. destruct (frames v) as [|f fs]; simplify_eq/=. by destruct p.
  - cbn in Ha. destruct (frames v) as [|f fs]; by simplify_eq/=.
  - cbn in Ha. unfold listening in Ha. destruct (frames v) as [|f fs]; simplify_eq/=.
Qed.

Lemma join_schedule n s : viz_inv s -> head (frames (vw s)) = Some Joining -> rank (pc (th s)) = n ->
  (exists s', run_actions (replicate n Sim) s = Some s' /\ pc (th s') = Ended /\ vw s' = vw s) /\
  forall acts s', run_actions acts s = Some s' -> ViewStep ∉ acts -> acts = replicate (length acts) Sim /\ (length acts <= n)%nat.
Proof.
  revert s. induction n as [|n IH]; intros s Hi Hj Hr.
  - assert (pc (th s) = Ended) as Hp by (by destruct (pc (th s))). split; [by exists s|].
    intros [|a acts] s' Hs Hn; [done|]. rewrite run_schedule_cons in Hs.
    destruct (viz_step a s) as [t|] eqn:Ha; [|done]. apply not_elem_of_cons in Hn as [Hn _].
    destruct (joining_only _ _ _ Hj Ha) as [->|[-> _]]; [|done].
    destruct s as [[] v l h]. cbn in *. by subst.
  - assert (pc (th s) <> Ended) as Hp by (intros Hp; by rewrite Hp in Hr).
    destruct (join_step s Hi Hj Hp) as (t & Ht & Hv & Hrt).
    destruct (IH t) as [(s' & Hs' & He & Hvs) Hall]; [by eapply do_action_inv|by rewrite Hv|lia|]. split.
    + exists s'. cbn [replicate]. rewrite run_schedule_cons, Ht. split; [done|]. split; [done|congruence].
    + intros [|a acts] u Hu Hn; [split; [done|cbn; lia]|]. rewrite run_schedule_cons in Hu.
      apply not_elem_of_cons in Hn as [Hn1 Hn2].
      destruct (viz_step a s) as [t'|] eqn:Ha; [|done].
      destruct (joining_only _ _ _ Hj Ha) as [->|[-> _]]; [|done]. rewrite Ht in Ha. injection Ha as <-.
      destruct (Hall acts u Hu Hn2) as [-> Hlen]. cbn. rewrite length_replicate in *. split; [done|lia].
Qed.

(** The lock becomes free when the view does not hold it. *)
Lemma lock_released s : viz_inv s -> top_holds (frames (vw s)) = false ->
  exists n s', (n <= 3)%nat /\ run_actions (replicate n Sim) s = Some s' /\ lock (th s') = None /\ vw s' = vw s /\ viz_inv s'.
Proof.
  intros Hi Ht.
  assert (exists n s', (n <= 3)%nat /\ run_actions (replicate n Sim) s = Some s' /\ lock (th s') = None /\ vw s' = vw s) as
    (n & s' & Hn & Hr & Hl & Hv).
  { destruct (sim_holds (pc (th s))) eqn:Hh.
    - destruct s as [[p lk g q tg ms hp] v l h].
      destruct p; try done; [exists 3%nat|exists 2%nat|exists 1%nat]; (eexists; split; [lia|split; [reflexivity|done]]).
    - exists 0%nat, s. split; [lia|]. split; [done|]. by rewrite (i_lock _ Hi), Hh, Ht. }
  exists n, s'. do 4 (split; [done|]). by eapply run_keeps.
Qed.

(** Steps of the threads, of which none raises. *)
Definition only_steps (acts : list viz_action) : Prop := Forall (fun a => match a with Sim | ViewStep => True | _ => False end) acts.

Lemma replicate_steps n : only_steps (replicate n Sim).
Proof. by apply Forall_replicate. Qed.

Definition returns (n : nat) (s : viz_system) (fs : list frame) : Prop :=
  exists s', run_actions (replicate n ViewStep) s = Some s' /\ frames (vw s') = fs.

Lemma returns_step n s s' fs : viz_step ViewStep s = Some s' -> returns n s' fs -> returns (S n) s fs.
Proof. intros Hs (t & Ht & Hf). exists t. cbn [replicate]. by rewrite run_schedule_cons, Hs. Qed.

Lemma updated_returns s id m fs : frames (vw s) = Updated id m :: fs -> returns 1 s fs.
Proof.
  destruct s as [t v l h]. cbn. intros Hfs. unfold returns. cbn. rewrite Hfs.
  destruct (after_update m (set_frames fs v) l h) as [b [[v1 l1] h1]] eqn:Ha. apply after_update_quiet in Ha as [Hv _].
  destruct b; by eexists.
Qed.

Lemma updating_returns s id m fs : frames (vw s) = Updating id m :: fs -> returns 2 s fs.
Proof.
  destruct s as [t v l h]. cbn. intros Hfs.
  eapply returns_step; [cbn; rewrite Hfs; reflexivity|]. by apply (updated_returns _ id m).
Qed.

(** A handler that waits for the lock gets it, does its work and returns. *)
Lemma waiting_returns s f fs : frames (vw s) = f :: fs -> lock (th s) = None -> view_holds f = false -> ~ closing f ->
  exists n, (n <= 3)%nat /\ returns n s fs.
Proof.
  destruct s as [[p lk g q tg ms hp] v l h]. cbn. intros Hfs -> Hh Hc.
  destruct f as [id|id m|id m| | |nodes|nodes| |]; try done; try (exfalso; by apply Hc).
  - exists 3%nat. split; [done|]. eapply returns_step; [cbn; rewrite Hfs; reflexivity|]. by apply (updating_returns _ id ms).
  - exists 1%nat. split; [lia|]. by apply (updated_returns _ id m).
  - exists 2%nat. split; [lia|]. do 2 (eapply returns_step; [cbn; rewrite ?Hfs; reflexivity|]). by eexists.
  - exists 2%nat. split; [lia|]. do 2 (eapply returns_step; [cbn; rewrite ?Hfs; reflexivity|]). by eexists.
Qed.

Lemma holding_returns s f fs : frames (vw s) = f :: fs -> view_holds f = true -> exists n, (n <= 3)%nat /\ returns n s fs.
Proof.
  destruct f as [id|id m|id m| | |nodes|nodes| |]; try done; intros Hfs _.
  - exists 2%nat. split; [lia|]. by apply (updating_returns _ id m).
  - destruct s as [t v l h]. exists 1%nat. split; [lia|]. eapply returns_step; [cbn in *; rewrite Hfs; reflexivity|]. by eexists.
  - destruct s as [t v l h]. exists 1%nat. split; [lia|]. eapply returns_step; [cbn in *; rewrite Hfs; reflexivity|]. by eexists.
Qed.

Lemma joining_returns s fs : viz_inv s -> frames (vw s) = Joining :: fs ->
  exists acts s', only_steps acts /\ (length acts <= 6)%nat /\ run_actions acts s = Some s' /\ frames (vw s') = fs.
Proof.
  intros Hi Hf. destruct (join_schedule _ s Hi ltac:(by rewrite Hf) eq_refl) as [(t & Ht & He & Hv) _].
  assert (exists s', view_step now get_seconds t = Some s' /\ frames (vw s') = fs) as (s' & Hs' & Hfs).
  { destruct t as [t v l h]. cbn in *. subst v. rewrite Hf, He. by eexists. }
  exists (replicate (rank (pc (th s))) Sim ++ [ViewStep]), s'. split; [|split; [|split; [|done]]].
  - apply Forall_app. split; [apply replicate_steps|by repeat constructor].
  - rewrite length_app, length_replicate. cbn. destruct (pc (th s)); cbn; lia.
  - rewrite run_schedule_app, Ht. cbn [mbind option_bind]. rewrite run_schedule_cons. cbn [VizThread.viz_step]. by rewrite Hs'.
Qed.

(** The threads alone bring the state to one with these handlers. *)
Definition settles (n : nat) (s : viz_system) (fs : list frame) : Prop :=
  exists acts s', only_steps acts /\ (length acts <= n)%nat /\ run_actions acts s = Some s' /\ frames (vw s') = fs.

Lemma returns_settles n s fs : returns n s fs -> settles n s fs.
Proof.
  intros (s' & Hs' & Hf). exists (replicate n ViewStep), s'. split; [by apply Forall_replicate|].
  by rewrite length_replicate.
Qed.

Lemma settles_after acts s t n fs : only_steps acts -> run_actions acts s = Some t -> settles n t fs ->
  settles (length acts + n) s fs.
Proof.
  intros Ha Ht (acts' & s' & Hn & Hl & Hr & Hf). exists (acts ++ acts'), s'. split; [by apply Forall_app|].
  rewrite length_app. split; [lia|]. by rewrite run_schedule_app, Ht.
Qed.

Lemma settles_le m n s fs : (m <= n)%nat -> settles m s fs -> settles n s fs.
Proof. intros Hmn (acts & s' & Hn & Hl & Hr). exists acts, s'. split; [done|]. split; [lia|done]. Qed.

(** C10: No handler of the view waits for ever: whatever has happened, at most seven
    steps of the two threads, without a further event, bring the innermost one to
    its end. *)
Theorem handler_returns acts w nodes s f fs : run_actions acts (initial w nodes) = Some s -> frames (vw s) = f :: fs ->
  settles 7 s fs.
Proof.
  intros Hi%viz_run_inv Hf. destruct (view_holds f) eqn:Hh.
  { destruct (holding_returns s f fs Hf Hh) as (n & Hn & Hr%returns_settles). by apply (settles_le n); [lia|]. }
  assert (closing f \/ ~ closing f) as [Hc|Hc] by (destruct f; cbn; tauto).
  - destruct f; try done; [|by apply (settles_le 6); [lia|apply joining_returns]].
    assert (exists t, viz_step ViewStep s = Some t /\ frames (vw t) = Joining :: fs) as (t & Ht & Hft).
    { destruct s as [t v l h]. cbn in *. rewrite Hf. by eexists. }
    apply (settles_after [ViewStep] s t 6); [by repeat constructor|by rewrite run_schedule_cons, Ht|].
    apply joining_returns; [by eapply do_action_inv|done].
  - destruct (lock_released s Hi) as (k & t & Hk & Ht & Hl & Hv & Hit); [by rewrite Hf|].
    destruct (waiting_returns t f fs) as (n & Hn & Hr%returns_settles); [by rewrite Hv|done..|].
    apply (settles_le (length (replicate k Sim) + n)); [rewrite length_replicate; lia|].
    by apply (settles_after _ s t); [apply replicate_steps| |].
Qed.

(** C11: Once the window is closed and the view waits for the simulation thread, only
    that thread moves: every schedule has it ended after at most five steps, and
    then the view goes on. *)
Theorem quit_ends acts w nodes s : run_actions acts (initial w nodes) = Some s -> head (frames (vw s)) = Some Joining ->
  exists n, (n <= 5)%nat /\
    (exists s', run_actions (replicate n Sim) s = Some s' /\ pc (th s') = Ended /\ is_Some (viz_step ViewStep s')) /\
    forall acts' s', run_actions acts' s = Some s' -> ViewStep ∉ acts' -> acts' = replicate (length acts') Sim /\ (length acts' <= n)%nat.
Proof.
  intros Hi%viz_run_inv Hj. exists (rank (pc (th s))). split; [destruct (pc (th s)); cbn; lia|].
  destruct (join_schedule _ s Hi Hj eq_refl) as [(s' & Hs' & He & Hv) Hall]. split; [|done].
  exists s'. split; [done|]. split; [done|]. rewrite <- Hv in Hj. destruct s' as [t v l h]. cbn in *.
  destruct (frames v) as [|f fs]; simplify_eq/=. rewrite He. by eexists.
Qed.

(** The messages of an update that raises are lost, and no others. *)
Definition loses (a : viz_action) (s : viz_system) : list text := match a with ViewRaise => carried (frames (vw s)) | _ => [] end.

Lemma lost_app h ms b : lost (handle_messages ms b h) = lost h ++ (if b : bool then [] else ms).
Proof.
  unfold lost, handle_messages. cbn [handled]. rewrite filter_app, fmap_app. f_equal. induction ms as [|m ms IH]; [by destruct b|].
  rewrite fmap_cons, filter_cons. cbn [snd]. destruct b; [by rewrite decide_False|]. rewrite decide_True, fmap_cons by done. by rewrite IH.
Qed.
Lemma lost_handled h h' : handled h' = handled h -> lost h' = lost h.
Proof. unfold lost. by intros ->. Qed.

Lemma step_loses a s s' : viz_step a s = Some s' -> lost (hi s') = lost (hi s) ++ loses a s.
Proof.
  destruct s as [[p lk g q tg ms hp] v l h]. intros H. destruct a as [| | |e]; cbn [VizThread.viz_step] in H; unfold loses; cbn [vw hi].
  - rewrite app_nil_r. apply lost_handled. unfold sim_step in H. cbn in H.
    destruct p; try (destruct g; [|done]); try (destruct lk; [done|]); try done; by injection H as <-.
  - rewrite app_nil_r. unfold view_step in H. cbn -[after_update] in H. destruct (frames v) as [|f fs]; [done|].
    destruct f as [id|id m|id m| | |nds|nds| |]; cbn -[after_update] in H; try (destruct lk; [done|]); try (by injection H as <-).
    + destruct (after_update m (set_frames fs v) l h) as [b [[v1 l1] h1]] eqn:Ha. apply after_update_quiet in Ha as (_ & _ & _ & _ & Hh & _).
      rewrite <- (app_nil_r (lost h)). change (@nil text) with (if true then [] else m). rewrite <- lost_app. apply lost_handled.
      destruct b; by injection H as <-.
    + destruct p; by simplify_eq.
  - unfold view_raise in H. cbn in H. destruct (frames v) as [|f fs]; [done|]. destruct f; simplify_eq/=. apply (lost_app _ _ false).
  - rewrite app_nil_r. apply lost_handled. unfold dispatch in H. destruct (negb (listening v l)); [done|]. destruct e as [id| | |x|x|nds|].
    + case_decide; [|done]. destruct (existsb _ _); by simplify_eq.
    + destruct (idles l); by simplify_eq.
    + destruct (toggled _ _ _) as [[v1 l1] h1] eqn:Ht. injection H as <-. by apply toggled_quiet in Ht as (_ & _ & _ & _ & Hh & _).
    + destruct (num_mul SAMPLE_PERIOD (PFloat x)) as [[z|f]| |]; try done. destruct (start_update_timer _ _ _) as [[v1 l1] h1] eqn:Ht.
      injection H as <-. by apply start_update_timer_quiet in Ht as (_ & _ & _ & _ & Hh & _).
    + by injection H as <-.
    + by injection H as <-.
    + destruct (remove_timeout v l h) as [l1 h1] eqn:Hr. injection H as <-. by apply remove_timeout_quiet in Hr as (_ & _ & _ & _ & Hh & _).
Qed.

Lemma none_lost acts s s' : run_actions acts s = Some s' -> ViewRaise ∉ acts -> lost (hi s') = lost (hi s).
Proof.
  intros Hr Hn. apply (run_schedule_ind _ (fun t => lost (hi t) = lost (hi s)) _ _ _ Hr); [done|].
  intros a t t' Ha Hs Hl. rewrite (step_loses a t t' Hs), Hl. destruct a; try (by rewrite app_nil_r). done.
Qed.

Lemma shown_all h : lost h = [] -> shown h = (handled h).*1.
Proof.
  unfold lost, shown. induction (handled h) as [|[m b] l IH]; [done|]. rewrite !filter_cons. cbn [snd].
  destruct b; [|by rewrite (decide_True (P := false = false))]. rewrite decide_False, decide_True by done. intros H. rewrite !fmap_cons. by rewrite IH.
Qed.

(** C12: Of the pause messages that the simulator has given, in their order, the first were
    shown or lost, then come those that a handler has taken, then those that the thread
    holds, each once.  Only an update of the view that raises loses messages, and it loses
    those that it has taken; when none raises all are shown.  Between the handlers those
    that are neither shown nor lost are the list [pause_messages]. *)
Theorem pause_messages_kept acts w nodes s : run_actions acts (initial w nodes) = Some s ->
  said (hi s) = (handled (hi s)).*1 ++ carried (frames (vw s)) ++ pause_messages (th s) ++ fresh_messages (th s) /\
  (frames (vw s) = [] -> pc (th s) <> Extending -> said (hi s) = (handled (hi s)).*1 ++ pause_messages (th s)) /\
  (forall a s', viz_step a s = Some s' -> lost (hi s') = lost (hi s) ++ loses a s) /\
  (ViewRaise ∉ acts -> lost (hi s) = [] /\ shown (hi s) = (handled (hi s)).*1).
Proof.
  intros Hr. pose proof (viz_run_inv _ _ _ _ Hr) as Hi. split; [apply (i_messages _ Hi)|]. split; [|split; [intros a s'; apply step_loses|]].
  - intros Hf Hp. rewrite (i_messages _ Hi), Hf. cbn. unfold fresh_messages. destruct (pc (th s)); rewrite ?app_nil_r; done.
  - intros Hn. assert (lost (hi s) = []) as Hl by (by rewrite (none_lost _ _ _ Hr Hn)). split; [done|]. by apply shown_all.
Qed.

(** C13: The simulator only runs while its thread holds the lock; then no handler of
    the view is between taking and releasing it, and a handler that is not the
    innermost never holds it. *)
Theorem lock_exclusive acts w nodes s : run_actions acts (initial w nodes) = Some s ->
  (sim_holds (pc (th s)) = true <-> lock (th s) = Some BySimulation) /\
  (top_holds (frames (vw s)) = true <-> lock (th s) = Some ByView) /\
  Forall (fun f => view_holds f = false) (tail (frames (vw s))).
Proof.
  intros [Hf Hl He _ _ _]%viz_run_inv. rewrite Hl. split; [|split].
  - destruct (sim_holds _); [done|]. by destruct (top_holds _).
  - destruct (sim_holds _); [by rewrite He|]. by destruct (top_holds _).
  - eapply Forall_impl; [exact Hf|]. by intros [].
Qed.
End invariant.

(** ** The view follows the simulation *)

Section time.
Context {World T D : Type} (now : World -> Z).
Context (simulate : Z -> World -> World * list text * list T * list D).
Context (seconds : num -> Z) (get_seconds : Z -> spec_float).
Notation viz_system := (@viz_system World T D).
Notation viz_step := (viz_step now simulate seconds get_seconds).
Notation run_actions := (run_schedule viz_step).

(** The simulator goes forward and stops at the time it is given. *)
Context (simulate_time : forall time w, now w < time ->
  let '(w', _, _, _) := simulate time w in now w <= now w' <= time).

(** A sample period of the user: that of the speed 1 or of a speed chosen. *)
Definition chosen (acts : list viz_action) (period : spec_float) : Prop :=
  period = ratio 1 10 \/ exists x, Event (ChangeSpeed x) ∈ acts /\ num_mul SAMPLE_PERIOD (PFloat x) = Ok (PFloat period).

(** The state of the clock: what was displayed last, the target that was set then,
    and the time between them. *)
Definition on_time (acts : list viz_action) (w0 : World) (s : viz_system) : Prop :=
  let time := now (world (sim_helper (th s))) in
  match last (displayed (hi s)) with
  | None => target_time (th s) = PInt 0 /\ now w0 <= time <= Z.max (now w0) (seconds (PInt 0))
  | Some d => exists period, chosen acts period /\
      target_time (th s) = PFloat (SFadd prec emax (get_seconds d) period) /\
      d <= time <= Z.max d (seconds (target_time (th s)))
  end.

Record clock (acts : list viz_action) (w0 : World) (s : viz_system) : Prop := Clock {
  c_period : chosen acts (sample_period (vw s));
  c_time : on_time acts w0 s;
  c_sorted : StronglySorted Z.le (displayed (hi s));
  c_past : Forall (fun d => d <= now (world (sim_helper (th s)))) (displayed (hi s))
}.

Lemma run_until_time time p : now (world p) <= now (world (SimulatorRunUntil now simulate time p)) <= Z.max (now (world p)) time.
Proof.
  unfold SimulatorRunUntil. destruct (Z.leb_spec time (now (world p))); [cbn; lia|].
  pose proof (simulate_time time (world p) ltac:(lia)) as Ht. destruct (simulate time (world p)) as [[[w' m] ts] ds]. cbn in *. lia.
Qed.

(** Neither the timers nor the lock matter for the clock. *)
Lemma clock_same acts w0 (s : viz_system) th' v' l' h' : clock acts w0 s ->
  target_time th' = target_time (th s) -> world (sim_helper th') = world (sim_helper (th s)) ->
  chosen acts (sample_period v') -> displayed h' = displayed (hi s) -> clock acts w0 (System th' v' l' h').
Proof.
  intros [Hp Ht Hs Hf] Htg Hw Hp' Hd. split; cbn; rewrite ?Hd, ?Hw; try done.
  unfold on_time in *. cbn. by rewrite Hd, Hw, Htg.
Qed.

Lemma sim_step_clock acts w0 s s' : clock acts w0 s -> sim_step now simulate seconds s = Some s' -> clock acts w0 s'.
Proof.
  intros Hc Hs. pose proof Hc as [Hp Ht Hso Hf]. destruct s as [[p lk g q tg ms hp] v l h]. unfold sim_step in Hs. cbn in *.
  destruct p; try (destruct g; [|done]); try (destruct lk; [done|]); try done; injection Hs as <-;
    try (by apply (clock_same acts w0 _ _ _ _ _ Hc)).
  pose proof (run_until_time (seconds tg) hp) as Hr. split; cbn; try done.
  - unfold on_time in *. cbn in *. destruct (last (displayed h)) as [d|].
    + destruct Ht as (period & Hch & Htg & Hd). exists period. split; [done|]. split; [done|]. lia.
    + destruct Ht as [Htg Hd]. split; [done|]. subst tg. lia.
  - eapply Forall_impl; [exact Hf|]. cbn. intros d Hd. lia.
Qed.

(** The sample period only changes with the speed. *)
Lemma start_update_timer_period (v v' : @view T D) l l' h h' : start_update_timer v l h = (v', l', h') ->
  sample_period v' = sample_period v.
Proof.
  unfold start_update_timer. destruct (remove_timeout v l h) as [l1 h1]. by destruct (timer_interval (speed v)); intros [= <- <- <-].
Qed.
Lemma toggled_period (v v' : @view T D) l l' h h' : toggled v l h = (v', l', h') -> sample_period v' = sample_period v.
Proof.
  unfold toggled. destruct (play v); [apply start_update_timer_period|].
  destruct (remove_timeout v l h). by intros [= <- <- <-].
Qed.
Lemma after_update_period (v v' : @view T D) messages l l' h h' b : after_update messages v l h = (b, (v', l', h')) ->
  sample_period v' = sample_period v.
Proof.
  unfold after_update. intros Ha.
  destruct (match messages with [] => _ | _ => _ end) as [[v1 l1] h1] eqn:Hm.
  assert (sample_period v1 = sample_period v) as <-; [|by destruct (play v1); injection Ha as <- <- <- <-].
  destruct messages as [|m ms]; [by injection Hm as <- <- <-|].
  destruct (play v); [by apply toggled_period in Hm|by injection Hm as <- <- <-].
Qed.
Lemma periodic_update_period p (v v' : @view T D) : do_simulation_periodic_update (World:=World) p v = Ok v' -> sample_period v' = sample_period v.
Proof.
  unfold do_simulation_periodic_update. intros H. apply bind_ok in H as (x & _ & H). apply bind_ok in H as (n & _ & H).
  destruct n as [n|]; [|done]. apply bind_ok in H as (ts & _ & H). by apply bind_ok in H as (ds & _ & [= <-]).
Qed.

Lemma update_clock acts w0 (t : thread) (v : view) l h fs : clock acts w0 (System t v l h) ->
  let time := now (world (sim_helper t)) in
  clock acts w0 (System (set_lock None (set_target (PFloat (SFadd prec emax (get_seconds time) (sample_period v))) t))
    (set_frames fs v) l (History (said h) (handled h) (displayed h ++ [time]) (missing h))).
Proof.
  intros [Hp Ht Hs Hf] time. split; cbn in *; [done| | |].
  - unfold on_time. cbn. rewrite last_snoc. exists (sample_period v). split; [done|]. split; [done|]. subst time. lia.
  - apply StronglySorted_app. split; [|split; [done|by repeat constructor]].
    intros x y Hx Hy%list_elem_of_singleton. subst y. rewrite Forall_forall in Hf. by apply Hf.
  - apply Forall_app. split; [done|]. by repeat constructor.
Qed.

Lemma view_step_clock acts w0 s s' : clock acts w0 s -> view_step now get_seconds s = Some s' -> clock acts w0 s'.
Proof.
  intros Hc Hs. pose proof (c_period _ _ _ Hc) as Hp. destruct s as [[p lk g q tg ms hp] v l h]. unfold view_step in Hs. cbn -[do_simulation_periodic_update] in *.
  destruct (frames v) as [|f fs]; [done|].
  destruct f as [id|id m|id m| | |nodes|nodes| |]; cbn -[do_simulation_periodic_update] in *.
  1, 4, 6: destruct lk; [done|]; injection Hs as <-; apply (clock_same acts w0 _ _ _ _ _ Hc); cbn; done.
  - injection Hs as <-. by apply (update_clock acts w0 (Thread p lk g q tg ms hp)).
  - destruct (after_update _ _ _ _) as [b [[v1 l1] h1]] eqn:Ha. pose proof (after_update_quiet _ _ _ _ _ _ _ _ Ha) as Hq.
    apply after_update_period in Ha. destruct Hq as (_ & _ & _ & _ & _ & Hd).
    destruct b; injection Hs as <-; (apply (clock_same acts w0 _ _ _ _ _ Hc); try done; by rewrite Ha).
  - injection Hs as <-. apply (clock_same acts w0 _ _ _ _ _ Hc); try done. cbn -[do_simulation_periodic_update].
    destruct (do_simulation_periodic_update hp v) as [v1| |] eqn:Hu; [by rewrite (periodic_update_period _ _ _ Hu)|exact Hp|exact Hp].
  - injection Hs as <-. apply (clock_same acts w0 _ _ _ _ _ Hc); done.
  - injection Hs as <-. apply (clock_same acts w0 _ _ _ _ _ Hc); done.
  - destruct p; try done. injection Hs as <-. apply (clock_same acts w0 _ _ _ _ _ Hc); done.
Qed.

(** An update that raises sets no target. *)
Lemma view_raise_clock acts w0 s s' : clock acts w0 s -> view_raise s = Some s' -> clock acts w0 s'.
Proof.
  intros Hc Hs. pose proof (c_period _ _ _ Hc) as Hp. destruct s as [[p lk g q tg ms hp] v l h]. unfold view_raise in Hs. cbn in *.
  destruct (frames v) as [|f fs]; [done|]. destruct f; try done. injection Hs as <-. by apply (clock_same acts w0 _ _ _ _ _ Hc).
Qed.

Lemma dispatch_clock acts w0 e s s' : Event e ∈ acts -> clock acts w0 s -> dispatch e s = Some s' -> clock acts w0 s'.
Proof.
  intros He Hc Hs. pose proof (c_period _ _ _ Hc) as Hp. destruct s as [t v l h]. unfold dispatch in Hs.
  destruct (negb (listening v l)); [done|]. destruct e as [id| | |x|x|nodes|].
  - case_decide; [|done]. destruct (existsb _ _); [done|]. injection Hs as <-. apply (clock_same acts w0 _ _ _ _ _ Hc); done.
  - destruct (idles l) as [|n]; [done|]. injection Hs as <-. apply (clock_same acts w0 _ _ _ _ _ Hc); done.
  - destruct (toggled _ _ _) as [[v1 l1] h1] eqn:Ht. injection Hs as <-. pose proof (toggled_quiet _ _ _ _ _ _ Ht) as Hq.
    apply toggled_period in Ht. destruct Hq as (_ & _ & _ & _ & _ & Hd).
    apply (clock_same acts w0 _ _ _ _ _ Hc); try done. by rewrite Ht.
  - destruct (num_mul SAMPLE_PERIOD (PFloat x)) as [[z|f]| |] eqn:Hx; try done.
    destruct (start_update_timer _ _ _) as [[v1 l1] h1] eqn:Ht. injection Hs as <-.
    pose proof (start_update_timer_quiet _ _ _ _ _ _ Ht) as Hq. apply start_update_timer_period in Ht.
    destruct Hq as (_ & _ & _ & _ & _ & Hd). apply (clock_same acts w0 _ _ _ _ _ Hc); try done.
    rewrite Ht. cbn. right. by exists x.
  - injection Hs as <-. apply (clock_same acts w0 _ _ _ _ _ Hc); done.
  - injection Hs as <-. apply (clock_same acts w0 _ _ _ _ _ Hc); done.
  - destruct (remove_timeout v l h) as [l1 h1] eqn:Hr. injection Hs as <-. apply remove_timeout_quiet in Hr.
    destruct Hr as (_ & _ & _ & _ & _ & Hd). apply (clock_same acts w0 _ _ _ _ _ Hc); done.
Qed.

(** C14: The times displayed are ascending, and the simulator is never ahead of the
    view by more than a sample period: since the last display at [d] it has run to
    the target [d + period] at most. *)
Theorem view_follows acts w nodes s : run_actions acts (initial w nodes) = Some s ->
  StronglySorted Z.le (displayed (hi s)) /\
  match last (displayed (hi s)) with
  | None => now (world (sim_helper (th s))) <= Z.max (now w) (seconds (PInt 0))
  | Some d => exists period, chosen acts period /\
      d <= now (world (sim_helper (th s))) <= Z.max d (seconds (PFloat (SFadd prec emax (get_seconds d) period)))
  end.
Proof.
  intros Hr. assert (clock acts w s) as [_ Ht Hs _].
  { apply (run_schedule_ind _ (clock acts w) _ _ _ Hr).
    - split; cbn; [by left| |constructor|constructor]. unfold on_time. cbn. split; [done|lia].
    - intros [| | |e] t t' Ha Ho Hc; [by eapply sim_step_clock|by eapply view_step_clock|by eapply view_raise_clock|by eapply dispatch_clock]. }
  split; [done|]. unfold on_time in Ht. cbn in *. destruct (last (displayed (hi s))) as [d|]; [|lia].
  destruct Ht as (period & Hch & Htg & Hd). exists period. split; [done|]. by rewrite Htg in Hd.
Qed.
End time.

(** ** Executions *)

(** A simulator that does nothing until the time it is given: its transmission is
    the interval, and it pauses at 150 ms. *)
Definition demo_simulate (time w : Z) : Z * list text * list (Z * Z) * list Z :=
  (time, if decide (w < 15 * 10 ^ 7 <= time) then [txt "pause"] else [], [(w, time)], []).
Definition demo_seconds (x : num) : Z :=
  match num_mul x (frac (10 ^ 9) 1) with
  | Ok y => match py_int y with Ok (PInt z) => z | _ => 0 end
  | _ => 0
  end.
Definition demo_get_seconds (z : Z) : spec_float := ratio z (10 ^ 9).
Definition viz_run (acts : list viz_action) : option (@viz_system Z (Z * Z) Z) :=
  run_schedule (viz_step (fun w => w) demo_simulate demo_seconds demo_get_seconds) acts (initial 0 []).

Definition tick (id : nat) : list viz_action := [Event (Timeout id); ViewStep; ViewStep; ViewStep].
Definition update : list viz_action := [Event RunIdle; ViewStep; ViewStep].
Definition round : list viz_action := replicate 8 Sim.
(** Play, and the first period up to the release of the lock. *)
Definition first_period : list viz_action := Event Click :: tick 1 ++ replicate 5 Sim.

(** The normal course: play, an update of the view and of the model after every
    period; a pause stops the timer and its message is shown. *)
Definition normal : list viz_action := Event Click :: tick 1 ++ round ++ update ++ tick 1 ++ round ++ update ++ tick 1.
Example normal_course : exists s, viz_run normal = Some s /\
  last_transmissions (vw s) = [[(0, 10 ^ 8)]; [(10 ^ 8, 2 * 10 ^ 8)]] /\ displayed (hi s) = [0; 10 ^ 8; 2 * 10 ^ 8] /\
  shown (hi s) = [txt "pause"] /\ play (vw s) = false /\ sources (lp s) = [].
Proof. eexists. split; [vm_compute; reflexivity|]. repeat split; vm_compute; reflexivity. Qed.

(** When the view gives the next signal before the callback of [idle_add] has run,
    the samples of a period are lost and those of the next are taken twice. *)
Definition hasty : list viz_action :=
  first_period ++ [Event (Timeout 1)] ++ replicate 3 Sim ++ replicate 3 ViewStep ++ round ++ update ++ update.
Example samples_lost : exists s, viz_run hasty = Some s /\
  last_transmissions (vw s) = [[(10 ^ 8, 2 * 10 ^ 8)]; [(10 ^ 8, 2 * 10 ^ 8)]].
Proof. eexists. split; [vm_compute; reflexivity|]. vm_compute. reflexivity. Qed.

(** The identifier of the timer is kept when the button stops it, so that starting
    again removes a source that is not there ... *)
Example stale_timer : exists s, viz_run [Event Click; Event Click; Event Click] = Some s /\ missing (hi s) = [1%nat].
Proof. eexists. split; [vm_compute; reflexivity|]. vm_compute. reflexivity. Qed.

(** ... and the identifier of another timer is forgotten when the speed is changed
    while the view waits for the lock after a stop: then two timers run. *)
Definition restarted : list viz_action :=
  first_period ++ [Event (Timeout 1); Event Click; Event (ChangeSpeed (ratio 2 1))] ++ replicate 3 Sim ++ replicate 3 ViewStep ++ [Event Click].
Example two_timers : exists s, viz_run restarted = Some s /\ sources (lp s) = [2%nat; 3%nat] /\ play (vw s) = true.
Proof. eexists. split; [vm_compute; reflexivity|]. vm_compute. done. Qed.

(** The update after the pause raises: the message is lost, and the view stops with the
    button pressed. *)
Definition failing : list viz_action :=
  Event Click :: tick 1 ++ round ++ update ++ tick 1 ++ round ++ update ++ [Event (Timeout 1); ViewStep; ViewRaise].
Example message_lost : exists s, viz_run failing = Some s /\ lost (hi s) = [txt "pause"] /\ shown (hi s) = [] /\
  pause_messages (th s) = [] /\ play (vw s) = true /\ sources (lp s) = [] /\ lock (th s) = None.
Proof. eexists. split; [vm_compute; reflexivity|]. repeat split; vm_compute; reflexivity. Qed.

(** ** Witnesses *)

Lemma handler_returns_witness : exists s, viz_run (first_period ++ [Event (Timeout 1)]) = Some s /\
  frames (vw s) = [Trying 1] /\ settles (fun w => w) demo_simulate demo_seconds demo_get_seconds 7 s [].
Proof.
  eexists. split; [vm_compute; reflexivity|]. split; [reflexivity|].
  apply (handler_returns _ _ _ _ (first_period ++ [Event (Timeout 1)]) 0 [] _ (Trying 1)); vm_compute; reflexivity.
Defined.

Lemma quit_ends_witness : exists s, viz_run (first_period ++ [Event Close; ViewStep]) = Some s /\
  exists n, (n <= 5)%nat /\ exists s', run_schedule (viz_step (fun w => w) demo_simulate demo_seconds demo_get_seconds) (replicate n Sim) s = Some s' /\
    pc (th s') = Ended.
Proof.
  eexists. split; [vm_compute; reflexivity|].
  edestruct (quit_ends (fun w => w) demo_simulate demo_seconds demo_get_seconds (first_period ++ [Event Close; ViewStep]) 0 [])
    as (n & Hn & (s' & Hs & Hp & _) & _); [vm_compute; reflexivity|reflexivity|].
  exists n. split; [exact Hn|]. exists s'. split; [exact Hs|exact Hp].
Defined.

Lemma pause_messages_kept_witness : exists s, viz_run normal = Some s /\ said (hi s) = [txt "pause"] /\
  said (hi s) = (handled (hi s)).*1 ++ pause_messages (th s) /\ lost (hi s) = [] /\ shown (hi s) = (handled (hi s)).*1.
Proof.
  eexists. split; [vm_compute; reflexivity|]. split; [reflexivity|].
  edestruct (pause_messages_kept (fun w => w) demo_simulate demo_seconds demo_get_seconds normal 0 [])
    as (_ & H1 & _ & H2); [vm_compute; reflexivity|].
  split; [apply H1; [reflexivity|intros E; discriminate E]|]. apply H2.
  rewrite list_elem_of_In. vm_compute. intros E. repeat (destruct E as [E|E]; [discriminate E|]). exact E.
Defined.

Lemma lock_exclusive_witness : exists s, viz_run first_period = Some s /\
  (sim_holds (pc (th s)) = true <-> lock (th s) = Some BySimulation) /\ lock (th s) = Some BySimulation.
Proof.
  eexists. split; [vm_compute; reflexivity|]. split; [|reflexivity].
  apply (lock_exclusive (fun w => w) demo_simulate demo_seconds demo_get_seconds first_period 0 []). vm_compute. reflexivity.
Defined.

Lemma view_follows_witness : exists s, viz_run (first_period ++ replicate 3 Sim) = Some s /\ displayed (hi s) = [0] /\
  exists period, chosen (first_period ++ replicate 3 Sim) period /\
    0 <= world (sim_helper (th s)) <= Z.max 0 (demo_seconds (PFloat (SFadd prec emax (demo_get_seconds 0) period))).
Proof.
  eexists. split; [vm_compute; reflexivity|]. split; [reflexivity|].
  edestruct (view_follows (fun w => w) demo_simulate demo_seconds demo_get_seconds) with (acts := first_period ++ replicate 3 Sim) (w := 0)
    (nodes := @nil Z) as [_ H]; [|vm_compute; reflexivity|exact H].
  intros time w Hw. cbn. lia.
Defined.
