(* ===== verification/VizSvg.v ===== *)
(** * Icons of the visualizer ([src/visualizer/visualizer/svgitem.py]): position, size
    and scale of an image, and the cache of the files.  rsvg is outside: a handle is
    the size of its image. *)
From S2P Require Import Prelude PyNum PyString PyPath.
#[local] Open Scope Z_scope.

Notation point := (num * num)%type.
Definition one : num := frac 1 1.

Record svg_handle := Handle { h_width : num; h_height : num }.
Record svg_item := SvgItem {
  svg_x : num; svg_y : num; sx : num; sy : num; handle : svg_handle; width : num; height : num;
  custom_width : option num; custom_height : option num }.

(** [__init__] *)
Definition new_svg (x y : num) (h : svg_handle) : svg_item := SvgItem x y one one h (h_width h) (h_height h) None None.

Definition size_changed (it : svg_item) : res svg_item :=
  let h := handle it in
  let sized sx sy w ht := SvgItem (svg_x it) (svg_y it) sx sy h w ht (custom_width it) (custom_height it) in
  match custom_width it, custom_height it with
  | None, None => Ok (sized one one (h_width h) (h_height h))
  | Some w, None => k ← num_div w (h_width h); ht ← num_mul (h_height h) k; Ok (sized k k w ht)
  | None, Some ht => k ← num_div ht (h_height h); w ← num_mul (h_width h) k; Ok (sized k k w ht)
  | Some w, Some ht => kx ← num_div w (h_width h); ky ← num_div ht (h_height h); Ok (sized kx ky w ht)
  end.

Definition do_set_property (name : text) (v : num) (it : svg_item) : res svg_item :=
  if decide (name = txt "x") then
    Ok (SvgItem v (svg_y it) (sx it) (sy it) (handle it) (width it) (height it) (custom_width it) (custom_height it))
  else if decide (name = txt "y") then
    Ok (SvgItem (svg_x it) v (sx it) (sy it) (handle it) (width it) (height it) (custom_width it) (custom_height it))
  else if decide (name = txt "width") then
    size_changed (SvgItem (svg_x it) (svg_y it) (sx it) (sy it) (handle it) (width it) (height it) (Some v) (custom_height it))
  else if decide (name = txt "height") then
    size_changed (SvgItem (svg_x it) (svg_y it) (sx it) (sy it) (handle it) (width it) (height it) (custom_width it) (Some v))
  else Raise AttributeError.

(** Reading the width sets both sizes. *)
Definition do_get_property (name : text) (it : svg_item) : res (num * svg_item) :=
  if decide (name = txt "x") then Ok (svg_x it, it)
  else if decide (name = txt "y") then Ok (svg_y it, it)
  else if decide (name = txt "width") then
    let h := handle it in
    Ok (h_width h, SvgItem (svg_x it) (svg_y it) (sx it) (sy it) h (h_width h) (h_height h) (custom_width it) (custom_height it))
  else if decide (name = txt "height") then Ok (height it, it)
  else Raise AttributeError.

(** The ranges of [__gproperties__]: GObject does not set what is outside. *)
Definition gproperties (name : text) : option (num * num) :=
  if decide (name = txt "x" \/ name = txt "y") then Some (frac (-10000000) 1, frac 10000000 1)
  else if decide (name = txt "width" \/ name = txt "height") then Some (frac 0 1, frac 10000000 1)
  else None.
Definition set_property (name : text) (v : num) (it : svg_item) : res svg_item :=
  match gproperties name with
  | Some (lo, hi) => if num_ltb v lo || num_gtb v hi then Ok it else do_set_property name v it
  | None => do_set_property name v it
  end.

(** [bounds_x1 .. bounds_y2] *)
Definition do_simple_update (it : svg_item) : res (point * point) :=
  x1 ← py_float (svg_x it); y1 ← py_float (svg_y it);
  x2 ← num_add (svg_x it) (width it) ≫= py_float; y2 ← num_add (svg_y it) (height it) ≫= py_float;
  Ok ((x1, y1), (x2, y2)).

Definition do_simple_is_item_at (x y : num) (it : svg_item) : res bool :=
  if num_ltb x (svg_x it) then Ok false
  else
    r ← num_add (svg_x it) (width it);
    if num_gtb x r then Ok false
    else if num_ltb y (svg_y it) then Ok false
    else b ← num_add (svg_y it) (height it); Ok (negb (num_gtb y b)).

(** [Node._update_svg_position] of core.py: the alignment says which part of the icon is
    left of the node and above it. *)
Record icon := Icon { icon_item : svg_item; svg_align_x : num; svg_align_y : num }.
Definition update_svg_position (x y : num) (ic : icon) : res icon :=
  let it := icon_item ic in
  ax ← num_sub (PInt 1) (svg_align_x ic); dx ← num_mul ax (width it); px ← num_sub x dx;
  ay ← num_sub (PInt 1) (svg_align_y ic); dy ← num_mul ay (height it); py ← num_sub y dy;
  it ← set_property (txt "x") px it; it ← set_property (txt "y") py it;
  Ok (Icon it (svg_align_x ic) (svg_align_y ic)).

(** ** The cache of handles *)

Section Factory.
(** [rsvg.Handle] of a path, and the directory of the module. *)
Context (load : text -> res svg_handle) (dir : text).

Definition rsvg_handle_factory (base_file_name : text) (cache : gmap text svg_handle) : res (svg_handle * gmap text svg_handle) :=
  match cache !! base_file_name with
  | Some h => Ok (h, cache)
  | None =>
      h ← load (path_join (path_join dir (txt "resource")) base_file_name);
      Ok (h, <[base_file_name := h]> cache)
  end.

(** Every handle in the cache is that of its file. *)
Definition cache_ok (cache : gmap text svg_handle) : Prop :=
  forall f h, cache !! f = Some h -> load (path_join (path_join dir (txt "resource")) f) = Ok h.

Lemma rsvg_handle_factory_spec f cache : cache_ok cache ->
  fst <$> rsvg_handle_factory f cache = load (path_join (path_join dir (txt "resource")) f) /\
  forall h cache', rsvg_handle_factory f cache = Ok (h, cache') -> cache_ok cache'.
Proof.
  intros Hok. unfold rsvg_handle_factory. destruct (cache !! f) as [h|] eqn:Hf.
  { split; [by rewrite (Hok f h Hf)|]. by intros ? ? [= <- <-]. }
  destruct (load _) as [h| |] eqn:Hl; cbn; (split; [done|]); [|done..]. intros ? ? [= <- <-] g k.
  destruct (decide (f = g)) as [<-|Hg]; [rewrite lookup_insert_eq; by intros [= <-]|rewrite lookup_insert_ne by done; apply Hok].
Qed.
End Factory.

(** ** Sizes *)

(** What [size_changed] says of the handle and the sizes asked for. *)
Definition sized (it : svg_item) : Prop := size_changed it = Ok it.

Lemma size_changed_sized it it' : size_changed it = Ok it' -> sized it'.
Proof.
  unfold sized, size_changed. destruct (custom_width it) as [w|] eqn:Hw, (custom_height it) as [h|] eqn:Hh; intros H.
  - apply bind_ok in H as (kx & Hx & H). apply bind_ok in H as (ky & Hy & [= <-]). cbn. rewrite Hx. cbn. by rewrite Hy.
  - apply bind_ok in H as (k & Hk & H). apply bind_ok in H as (y & Hy & [= <-]). cbn. rewrite Hk. cbn. by rewrite Hy.
  - apply bind_ok in H as (k & Hk & H). apply bind_ok in H as (y & Hy & [= <-]). cbn. rewrite Hk. cbn. by rewrite Hy.
  - by injection H as <-.
Qed.

Lemma new_svg_sized x y h : sized (new_svg x y h).
Proof. done. Qed.

Lemma do_set_property_sized name v it it' : sized it -> do_set_property name v it = Ok it' -> sized it'.
Proof.
  intros Hs. unfold do_set_property. repeat case_decide; [| |apply size_changed_sized..|done]; intros [= <-]; revert Hs;
    unfold sized, size_changed; cbn; destruct it as [x y kx ky h w ht [cw|] [ch|]]; cbn; repeat (destruct (num_div _ _); cbn; try done);
    repeat (destruct (num_mul _ _); cbn; try done); congruence.
Qed.
Lemma set_property_sized name v it it' : sized it -> set_property name v it = Ok it' -> sized it'.
Proof.
  intros Hs. unfold set_property. destruct (gproperties name) as [[lo hi]|]; [|by apply do_set_property_sized].
  destruct (num_ltb v lo || num_gtb v hi)%bool; [by intros [= <-]|by apply do_set_property_sized].
Qed.

(** Where an item is after its position has been set. *)
Definition beyond (v : num) : bool := num_ltb v (frac (-10000000) 1) || num_gtb v (frac 10000000 1).
Definition move_item (x y : num) (it : svg_item) : svg_item :=
  SvgItem (if beyond x then svg_x it else x) (if beyond y then svg_y it else y) (sx it) (sy it) (handle it) (width it) (height it)
    (custom_width it) (custom_height it).
Lemma move_item_eq x y it : (it1 ← set_property (txt "x") x it; set_property (txt "y") y it1) = Ok (move_item x y it).
Proof.
  unfold set_property, move_item.
  change (gproperties (txt "x")) with (Some (frac (-10000000) 1, frac 10000000 1)).
  change (gproperties (txt "y")) with (Some (frac (-10000000) 1, frac 10000000 1)). cbv beta iota.
  fold (beyond x) (beyond y). destruct (beyond x), (beyond y), it; reflexivity.
Qed.

Lemma update_svg_position_eq x y ic : update_svg_position x y ic =
  (ax ← num_sub (PInt 1) (svg_align_x ic); dx ← num_mul ax (width (icon_item ic)); px ← num_sub x dx;
   ay ← num_sub (PInt 1) (svg_align_y ic); dy ← num_mul ay (height (icon_item ic)); py ← num_sub y dy;
   Ok (Icon (move_item px py (icon_item ic)) (svg_align_x ic) (svg_align_y ic))).
Proof.
  unfold update_svg_position. do 6 (destruct (num_sub _ _) || destruct (num_mul _ _); cbn [mbind result_bind]; [|done..]).
  match goal with |- context [move_item ?px ?py ?it] => pose proof (move_item_eq px py it) as Hm end.
  destruct (set_property (txt "x") _ _); cbn [mbind result_bind] in *; [by rewrite Hm|discriminate Hm..].
Qed.

(** Putting an icon where it is changes nothing. *)
Lemma update_svg_position_twice x y ic ic' : update_svg_position x y ic = Ok ic' -> update_svg_position x y ic' = Ok ic'.
Proof.
  rewrite !update_svg_position_eq. intros H.
  apply bind_ok in H as (ax & Hax & H). apply bind_ok in H as (dx & Hdx & H). apply bind_ok in H as (px & Hpx & H).
  apply bind_ok in H as (ay & Hay & H). apply bind_ok in H as (dy & Hdy & H). apply bind_ok in H as (py & Hpy & <-%ok_inj).
  cbn [svg_align_x svg_align_y icon_item width height move_item].
  rewrite Hax. cbn [mbind result_bind]. rewrite Hdx. cbn [mbind result_bind]. rewrite Hpx. cbn [mbind result_bind].
  rewrite Hay. cbn [mbind result_bind]. rewrite Hdy. cbn [mbind result_bind]. rewrite Hpy. cbn [mbind result_bind].
  do 2 f_equal. unfold move_item. cbn. by destruct (beyond px), (beyond py).
Qed.

Lemma update_svg_position_sized x y ic ic' : sized (icon_item ic) -> update_svg_position x y ic = Ok ic' -> sized (icon_item ic').
Proof.
  intros Hs. unfold update_svg_position. intros H. do 6 (apply bind_ok in H as (? & _ & H)).
  apply bind_ok in H as (it1 & H1 & H). apply bind_ok in H as (it2 & H2 & [= <-]). cbn.
  by eapply set_property_sized, H2; eapply set_property_sized, H1.
Qed.

#[global] Arguments update_svg_position : simpl never.

(** ** Examples *)

Definition house : svg_handle := Handle (PInt 48) (PInt 24).
Definition house_wide : res svg_item := set_property (txt "width") (frac 96 1) (new_svg (frac 5 1) (frac 5 1) house).

Example wide_keeps_aspect : (fun it => (width it, height it, sx it, sy it)) <$> house_wide =
  Ok (frac 96 1, frac 48 1, frac 2 1, frac 2 1).
Proof. vm_compute. reflexivity. Qed.
(** Out of range: not set. *)
Example too_wide : set_property (txt "width") (frac 10000001 1) (new_svg (frac 5 1) (frac 5 1) house) = Ok (new_svg (frac 5 1) (frac 5 1) house).
Proof. vm_compute. reflexivity. Qed.

(** Reading the width of a scaled icon loses its size: the area of the item is that of
    the image, which is still drawn twice as large. *)
Example width_read : ('(w, it) ← house_wide ≫= do_get_property (txt "width");
    hit ← do_simple_is_item_at (frac 90 1) (frac 10 1) it; Ok (w, width it, sx it, hit)) =
  Ok (PInt 48, PInt 48, frac 2 1, false).
Proof. vm_compute. reflexivity. Qed.
