(* ===== verification/VizScene.v ===== *)
(** * What the visualizer shows ([src/visualizer/visualizer/core.py] and
    [base.py]): nodes, channels and the links between them, their positions on the
    canvas, the scan of the topology and the selected node.

    Links are shared by the lists of their two ends: the scene has one list of them
    and the ends hold positions in it.  The network is that of the simulator. *)
From S2P Require Import Prelude PyNum PyString VizSvg.
#[local] Open Scope Z_scope.

(** ** [base.py] *)

Record device_traits := NetDeviceTraits { is_wireless : option bool; is_virtual : bool }.

(** The constructor: one of the two has to be known. *)
Definition new_traits (wireless : option bool) (virtual : bool) : res device_traits :=
  _ ← py_assert (virtual || bool_decide (wireless <> None)); Ok (NetDeviceTraits wireless virtual).

(** A class is its name. *)
Definition netdevice_traits : gmap text device_traits := list_to_map
  [(txt "PointToPointNetDevice", NetDeviceTraits (Some false) false); (txt "CsmaNetDevice", NetDeviceTraits (Some false) false);
   (txt "WifiNetDevice", NetDeviceTraits (Some true) false); (txt "BridgeNetDevice", NetDeviceTraits None true);
   (txt "LoopbackNetDevice", NetDeviceTraits (Some false) true); (txt "MeshPointDevice", NetDeviceTraits None true);
   (txt "SubscriberStationNetDevice", NetDeviceTraits (Some true) false);
   (txt "BaseStationNetDevice", NetDeviceTraits (Some true) false);
   (txt "LteUeNetDevice", NetDeviceTraits (Some true) false); (txt "LteEnbNetDevice", NetDeviceTraits (Some true) false)].

(** An unknown class is taken for wireless and remembered. *)
Definition lookup_netdevice_traits (class_type : text) (table : gmap text device_traits) : device_traits * gmap text device_traits :=
  match table !! class_type with
  | Some t => (t, table)
  | None => let t := NetDeviceTraits (Some true) false in (t, <[class_type := t]> table)
  end.

Definition PIXELS_PER_METER : num := frac 3 1.
Definition transform_distance_simulation_to_canvas (d : num) : res num := num_mul d PIXELS_PER_METER.
Definition transform_distance_canvas_to_simulation (d : num) : res num := num_div d PIXELS_PER_METER.
Definition transform_point_simulation_to_canvas (p : point) : res point :=
  x ← num_mul p.1 PIXELS_PER_METER; y ← num_mul p.2 PIXELS_PER_METER; Ok (x, y).
Definition transform_point_canvas_to_simulation (p : point) : res point :=
  x ← num_div p.1 PIXELS_PER_METER; y ← num_div p.2 PIXELS_PER_METER; Ok (x, y).

(** ** The network *)

Record ns3_device := Device { dev_type : text; dev_channel : option nat }.
Record ns3_node := Ns3Node { mobility : option point; devices : list ns3_device }.
(** The nodes by their number, and of every channel the nodes of its devices. *)
Record network := Network { net_nodes : list ns3_node; net_channels : gmap nat (list nat) }.

Definition mobile (net : network) (i : nat) : bool :=
  match net_nodes net !! i with Some n => bool_decide (mobility n <> None) | None => false end.

(** ** The scene *)

Inductive endpoint := ANode (i : nat) | AChannel (c : nat).
#[export] Instance endpoint_eq_dec : EqDecision endpoint.
Proof. solve_decision. Defined.

(** How the ellipse of a node is drawn. *)
Record appearance := Appearance { radius : num; fill_color_rgba : Z; line_width : num; stroke_color : text }.

Record canvas_node := Node {
  n_pos : point; n_links : list nat; n_selected : bool; n_highlighted : bool; n_color : Z; n_size : num;
  n_label : option text; n_label_pos : option point; n_item : option appearance; n_icon : option icon }.
Record channel := Channel { c_pos : point; c_links : list nat }.
(** The data of the path: the positions of the ends when they were last read. *)
Record link := WiredLink { l_node1 : nat; l_node2 : endpoint; l_data : option (point * point) }.

Inductive transmissions_mode := ShowAll | ShowNone | ShowSelected.

(** The items of the canvas are those of the nodes, the channels and the links, and icons that
    nodes had before and that nothing refers to. *)
Record scene := Scene {
  nodes : gmap nat canvas_node; channels : gmap nat channel; links : list link; left_icons : list icon; bounds : point * point;
  selected_node : option nat; show_transmissions_mode : transmissions_mode; nodes_of_interest : list nat;
  traits_table : gmap text device_traits }.

Definition set_nodes_map (m : gmap nat canvas_node) (s : scene) : scene :=
  Scene m (channels s) (links s) (left_icons s) (bounds s) (selected_node s) (show_transmissions_mode s) (nodes_of_interest s) (traits_table s).
Definition set_channels_map (m : gmap nat channel) (s : scene) : scene :=
  Scene (nodes s) m (links s) (left_icons s) (bounds s) (selected_node s) (show_transmissions_mode s) (nodes_of_interest s) (traits_table s).
Definition set_links (l : list link) (s : scene) : scene :=
  Scene (nodes s) (channels s) l (left_icons s) (bounds s) (selected_node s) (show_transmissions_mode s) (nodes_of_interest s) (traits_table s).
Definition set_canvas_bounds (b : point * point) (s : scene) : scene :=
  Scene (nodes s) (channels s) (links s) (left_icons s) b (selected_node s) (show_transmissions_mode s) (nodes_of_interest s) (traits_table s).
Definition set_selected_node (o : option nat) (s : scene) : scene :=
  Scene (nodes s) (channels s) (links s) (left_icons s) (bounds s) o (show_transmissions_mode s) (nodes_of_interest s) (traits_table s).
Definition set_mode (m : transmissions_mode) (s : scene) : scene :=
  Scene (nodes s) (channels s) (links s) (left_icons s) (bounds s) (selected_node s) m (nodes_of_interest s) (traits_table s).
Definition set_interest (l : list nat) (s : scene) : scene :=
  Scene (nodes s) (channels s) (links s) (left_icons s) (bounds s) (selected_node s) (show_transmissions_mode s) l (traits_table s).
Definition set_traits (t : gmap text device_traits) (s : scene) : scene :=
  Scene (nodes s) (channels s) (links s) (left_icons s) (bounds s) (selected_node s) (show_transmissions_mode s) (nodes_of_interest s) t.
Definition set_left_icons (l : list icon) (s : scene) : scene :=
  Scene (nodes s) (channels s) (links s) l (bounds s) (selected_node s) (show_transmissions_mode s) (nodes_of_interest s) (traits_table s).

(** ** Nodes on the canvas *)

Definition zero : num := PFloat (SpecFloat.S754_zero false).
Definition DEFAULT_NODE_SIZE : num := frac 1 1.

Definition look (n : canvas_node) : res appearance :=
  size ← transform_distance_simulation_to_canvas (n_size n);
  w ← num_mul size (if n_selected n then frac 3 10 else frac 15 100);
  let alpha := match n_icon n with Some _ => 0x80 | None => 0xff end in
  Ok (Appearance size (Z.lor (Z.land (n_color n) 0xffffff00) alpha) w (if n_highlighted n then txt "yellow" else txt "black")).

Definition set_item (a : appearance) (n : canvas_node) : canvas_node :=
  Node (n_pos n) (n_links n) (n_selected n) (n_highlighted n) (n_color n) (n_size n) (n_label n) (n_label_pos n) (Some a) (n_icon n).
Definition set_pos (p : point) (v : option icon) (o : option point) (n : canvas_node) : canvas_node :=
  Node p (n_links n) (n_selected n) (n_highlighted n) (n_color n) (n_size n) (n_label n) o (n_item n) v.
Definition set_node_links (l : list nat) (n : canvas_node) : canvas_node :=
  Node (n_pos n) l (n_selected n) (n_highlighted n) (n_color n) (n_size n) (n_label n) (n_label_pos n) (n_item n) (n_icon n).
Definition set_icon (v : option icon) (n : canvas_node) : canvas_node :=
  Node (n_pos n) (n_links n) (n_selected n) (n_highlighted n) (n_color n) (n_size n) (n_label n) (n_label_pos n) (n_item n) v.

(** [Node.__init__]: the attributes and [_update_appearance]; the default position of
    an ellipse is the origin. *)
Definition new_node : res canvas_node :=
  let n := Node (zero, zero) [] false false 0x808080ff DEFAULT_NODE_SIZE None None None None in
  a ← look n; Ok (set_item a n).

Definition position_of (e : endpoint) (s : scene) : option point :=
  match e with ANode i => n_pos <$> nodes s !! i | AChannel c => c_pos <$> channels s !! c end.

(** [WiredLink.update_points].  The ends of a link are always there. *)
Definition refresh (s : scene) (l : link) : link :=
  match position_of (ANode (l_node1 l)) s, position_of (l_node2 l) s with
  | Some p, Some q => WiredLink (l_node1 l) (l_node2 l) (Some (p, q))
  | _, _ => l
  end.
Definition update_points (k : nat) (s : scene) : scene := set_links (alter (refresh s) k (links s)) s.
Definition update_links (ks : list nat) (s : scene) : scene := foldl (fun s k => update_points k s) s ks.

Definition extend_bounds (p : point) (b : point * point) : point * point :=
  let '((min_x, min_y), (max_x, max_y)) := b in
  ((num_min p.1 min_x, num_min p.2 min_y), (num_max p.1 max_x, num_max p.2 max_y)).

Definition label_position (p : point) (n : canvas_node) : res (option point) :=
  match n_label_pos n with
  | None => Ok None
  | Some _ => d ← num_mul (n_size n) (PInt 3); y ← num_add p.2 d; Ok (Some (p.1, y))
  end.

Definition icon_position (p : point) (n : canvas_node) : res (option icon) :=
  match n_icon n with None => Ok None | Some ic => Some <$> update_svg_position p.1 p.2 ic end.

(** [Node.set_position] *)
Definition set_position (i : nat) (p : point) (s : scene) : res scene :=
  n ← or_raise KeyError (nodes s !! i);
  v ← icon_position p n;
  o ← label_position p n;
  let s := update_links (n_links n) (set_nodes_map (<[i := set_pos p v o n]> (nodes s)) s) in
  Ok (set_canvas_bounds (extend_bounds p (bounds s)) s).

(** [Channel.set_position] *)
Definition set_channel_position (c : nat) (p : point) (s : scene) : res scene :=
  ch ← or_raise KeyError (channels s !! c);
  Ok (update_links (c_links ch) (set_channels_map (<[c := Channel p (c_links ch)]> (channels s)) s)).

(** [_update_appearance]: a label is created at the origin and then put in place. *)
Definition update_appearance (i : nat) (s : scene) : res scene :=
  n ← or_raise KeyError (nodes s !! i);
  a ← look n;
  let n := set_item a n in
  match n_label n with
  | None => Ok (set_nodes_map (<[i := n]> (nodes s)) s)
  | Some _ =>
      let n := set_pos (n_pos n) (n_icon n) (Some (default (zero, zero) (n_label_pos n))) n in
      set_position i (n_pos n) (set_nodes_map (<[i := n]> (nodes s)) s)
  end.

(** A property of the node and its new look. *)
Definition change_node (g : canvas_node -> canvas_node) (i : nat) (s : scene) : res scene :=
  n ← or_raise KeyError (nodes s !! i); update_appearance i (set_nodes_map (<[i := g n]> (nodes s)) s).
Definition set_selected (b : bool) : nat -> scene -> res scene := change_node (fun n =>
  Node (n_pos n) (n_links n) b (n_highlighted n) (n_color n) (n_size n) (n_label n) (n_label_pos n) (n_item n) (n_icon n)).
Definition set_highlighted (b : bool) : nat -> scene -> res scene := change_node (fun n =>
  Node (n_pos n) (n_links n) (n_selected n) b (n_color n) (n_size n) (n_label n) (n_label_pos n) (n_item n) (n_icon n)).
Definition set_color (c : Z) : nat -> scene -> res scene := change_node (fun n =>
  Node (n_pos n) (n_links n) (n_selected n) (n_highlighted n) c (n_size n) (n_label n) (n_label_pos n) (n_item n) (n_icon n)).
Definition set_size (x : num) : nat -> scene -> res scene := change_node (fun n =>
  Node (n_pos n) (n_links n) (n_selected n) (n_highlighted n) (n_color n) x (n_label n) (n_label_pos n) (n_item n) (n_icon n)).
Definition set_label (t : text) : nat -> scene -> res scene := change_node (fun n =>
  Node (n_pos n) (n_links n) (n_selected n) (n_highlighted n) (n_color n) (n_size n) (Some t) (n_label_pos n) (n_item n) (n_icon n)).

(** [set_svg_icon], with the handle the factory gives: a new item of the sizes given,
    put in place by its alignment.  The item of an earlier icon stays on the canvas. *)
Definition icon_size (name : text) (d : option num) (it : svg_item) : res svg_item :=
  match d with None => Ok it | Some d => d ← transform_distance_simulation_to_canvas d; set_property name d it end.
Definition set_svg_icon (h : svg_handle) (width height : option num) (align_x align_y : num) (i : nat) (s : scene) : res scene :=
  if bool_decide (width = None) && bool_decide (height = None) then Raise ValueError
  else
    n ← or_raise KeyError (nodes s !! i);
    let '(x, y) := n_pos n in
    it ← icon_size (txt "width") width (new_svg x y h);
    it ← icon_size (txt "height") height it;
    ic ← update_svg_position x y (Icon it align_x align_y);
    change_node (set_icon (Some ic)) i (set_left_icons (left_icons s ++ option_list (n_icon n)) s).

(** ** Nodes, channels and links of the visualizer *)

(** [get_node] and [get_channel]: made when they are asked for first. *)
Definition get_node (i : nat) (s : scene) : res scene :=
  match nodes s !! i with
  | Some _ => Ok s
  | None => n ← new_node; Ok (set_nodes_map (<[i := n]> (nodes s)) s)
  end.
Definition get_channel (c : nat) (s : scene) : scene :=
  match channels s !! c with
  | Some _ => s
  | None => set_channels_map (<[c := Channel (zero, zero) []]> (channels s)) s
  end.

(** A link at the end of the lists of its two ends. *)
Definition attach (k : nat) (e : endpoint) (s : scene) : scene :=
  match e with
  | ANode i => set_nodes_map (alter (fun n => set_node_links (n_links n ++ [k]) n) i (nodes s)) s
  | AChannel c => set_channels_map (alter (fun ch => Channel (c_pos ch) (c_links ch ++ [k])) c (channels s)) s
  end.
Definition create_link (i : nat) (e : endpoint) (s : scene) : scene :=
  let k := length (links s) in
  attach k e (attach k (ANode i) (set_links (links s ++ [WiredLink i e None]) s)).

(** ** Selection *)

(** [set_nodes_of_interest] for the mode; [n] nodes are in the network. *)
Definition choose_nodes (n : nat) (s : scene) : scene :=
  match show_transmissions_mode s with
  | ShowAll => set_interest (seq 0 n) s
  | ShowNone => set_interest [] s
  | ShowSelected => set_interest (option_list (selected_node s)) s
  end.
Definition set_show_transmissions_mode (n : nat) (m : transmissions_mode) (s : scene) : scene := choose_nodes n (set_mode m s).

(** [select_node], for [None] or a node of the scene. *)
Definition select_node (o : option nat) (s : scene) : res scene :=
  if decide (o = selected_node s) then Ok s
  else
    s ← match selected_node s with Some i => set_selected false i s | None => Ok s end;
    let s := set_selected_node o s in
    s ← match o with Some i => set_selected true i s | None => Ok s end;
    Ok (match show_transmissions_mode s with ShowSelected => set_interest (option_list o) s | _ => s end).

(** ** The invariant of the scene *)

(** What a link shows is where its ends are, if it shows anything. *)
Definition current (s : scene) (l : link) : Prop :=
  exists p q, position_of (ANode (l_node1 l)) s = Some p /\ position_of (l_node2 l) s = Some q /\ l_data l = Some (p, q).
Definition end_links (e : endpoint) (s : scene) : list nat :=
  match e with
  | ANode i => from_option n_links [] (nodes s !! i)
  | AChannel c => from_option c_links [] (channels s !! c)
  end.
Definition link_ok (s : scene) (k : nat) (l : link) : Prop :=
  k ∈ end_links (ANode (l_node1 l)) s /\ k ∈ end_links (l_node2 l) s /\ (l_data l = None \/ current s l).

(** The icon is where its alignment says, with the size and the scale asked for. *)
Definition icon_good (p : point) (n : canvas_node) : Prop :=
  icon_position p n = Ok (n_icon n) /\ forall ic, n_icon n = Some ic -> sized (icon_item ic).

(** The ellipse shows the state of the node, its label is below it, and it is
    selected if it is the selected node. *)
Record node_ok (sel : option nat) (i : nat) (n : canvas_node) : Prop := NodeOk {
  k_look : exists a, n_item n = Some a /\ look n = Ok a;
  k_label : label_position (n_pos n) n = Ok (n_label_pos n);
  k_icon : icon_good (n_pos n) n;
  k_labelled : n_label n = None <-> n_label_pos n = None;
  k_selected : n_selected n = bool_decide (sel = Some i)
}.

Record scene_ok (sel : option nat) (s : scene) : Prop := SceneOk {
  v_nodes : forall i n, nodes s !! i = Some n -> node_ok sel i n;
  v_links : forall k l, links s !! k = Some l -> link_ok s k l
}.

Lemma end_links_some k e s : k ∈ end_links e s -> is_Some (position_of e s).
Proof.
  destruct e as [i|c]; cbn; [destruct (nodes s !! i)|destruct (channels s !! c)]; cbn; eauto; by intros ?%not_elem_of_nil.
Qed.

Lemma refresh_twice s l : refresh s (refresh s l) = refresh s l.
Proof. unfold refresh. destruct (position_of (ANode (l_node1 l)) s) eqn:H1, (position_of (l_node2 l) s) eqn:H2; cbn in *; by rewrite ?H1, ?H2. Qed.

Lemma update_links_eq ks s :
  update_links ks s = set_links (imap (fun k l => if decide (k ∈ ks) then refresh s l else l) (links s)) s.
Proof.
  unfold update_links. induction ks as [|k ks IH] using rev_ind.
  - cbn. replace (imap _ (links s)) with (links s); [by destruct s|]. symmetry. apply list_eq. intros j.
    rewrite list_lookup_imap. destruct (links s !! j); [|done]. cbn. by rewrite decide_False by apply not_elem_of_nil.
  - rewrite foldl_app, IH. cbn. unfold update_points. cbn [links set_links]. 
    unfold set_links at 1. cbn [nodes channels links left_icons bounds selected_node show_transmissions_mode nodes_of_interest traits_table set_links].
    unfold set_links. f_equal. apply list_eq. intros j. rewrite list_lookup_imap.
    destruct (decide (k = j)) as [<-|Hj].
    + rewrite list_lookup_alter_eq, list_lookup_imap. destruct (links s !! k) as [l|]; [|done]. cbn. f_equal.
      rewrite (decide_True (P := k ∈ ks ++ [k])) by set_solver. fold (set_links (links s) s).
      case_decide; [|by destruct s]. etransitivity; [|apply refresh_twice]. by destruct s.
    + rewrite list_lookup_alter_ne, list_lookup_imap by done. destruct (links s !! j) as [l|]; [|done]. cbn. f_equal.
      repeat case_decide; set_solver.
Qed.

Notation links_ok s := (forall k l, links s !! k = Some l -> link_ok s k l).

(** Nothing but the links differs. *)
Lemma update_links_same ks s : update_links ks s = set_links (links (update_links ks s)) s.
Proof. rewrite update_links_eq. by destruct s. Qed.

(** Only the links of what has moved have to be read again. *)
Lemma move_links s s1 e : links_ok s -> links s1 = links s ->
  (forall e', end_links e' s1 = end_links e' s) -> (forall e', e' <> e -> position_of e' s1 = position_of e' s) ->
  links_ok (update_links (end_links e s) s1).
Proof.
  intros Hok Hl He Hp k l. rewrite update_links_eq. cbn [links set_links]. rewrite list_lookup_imap, Hl.
  destruct (links s !! k) as [l0|] eqn:Hk; [|done]. cbn. intros [= <-]. destruct (Hok k l0 Hk) as (H1 & H2 & Hd).
  set (s2 := set_links _ s1). assert (forall e', end_links e' s2 = end_links e' s) as He2 by (intros e'; rewrite <- He; by destruct e').
  assert (forall e', position_of e' s2 = position_of e' s1) as Hp2 by (by intros []).
  destruct (decide (k ∈ end_links e s)) as [Hin|Hin].
  - destruct (end_links_some k (ANode (l_node1 l0)) s1) as [p Hp1]; [by rewrite He|].
    destruct (end_links_some k (l_node2 l0) s1) as [q Hq1]; [by rewrite He|].
    assert (refresh s1 l0 = WiredLink (l_node1 l0) (l_node2 l0) (Some (p, q))) as -> by (unfold refresh; by rewrite Hp1, Hq1).
    split; [by rewrite He2|]. split; [by rewrite He2|]. right. exists p, q. cbn [l_node1 l_node2 l_data]. by rewrite !Hp2.
  - split; [by rewrite He2|]. split; [by rewrite He2|]. destruct Hd as [Hd|(p & q & Hp' & Hq' & Hd)]; [by left|right].
    exists p, q. rewrite !Hp2, !Hp; [done|intros <-; done|intros <-; done].
Qed.

(** What a change of the nodes and of the positions leaves alone. *)
Definition same_choice (s s' : scene) : Prop :=
  selected_node s' = selected_node s /\ show_transmissions_mode s' = show_transmissions_mode s /\
  nodes_of_interest s' = nodes_of_interest s /\ traits_table s' = traits_table s.

Lemma label_position_label p n n' : n_label_pos n' = n_label_pos n -> n_size n' = n_size n -> label_position p n' = label_position p n.
Proof. unfold label_position. by intros -> ->. Qed.

Lemma icon_position_good p q n v o : (forall ic, n_icon n = Some ic -> sized (icon_item ic)) -> icon_position p n = Ok v ->
  icon_good p (set_pos q v o n).
Proof.
  intros Hs. unfold icon_good, icon_position. cbn. destruct (n_icon n) as [ic|] eqn:Hn; [|by intros [= <-]].
  intros (ic' & Hic & ->)%fmap_ok. split; [cbn; by rewrite (update_svg_position_twice _ _ _ _ Hic)|].
  intros ? [= <-]. eapply update_svg_position_sized, Hic. by apply Hs.
Qed.

Lemma look_set_pos p q n v o : icon_position p n = Ok v -> look (set_pos q v o n) = look n.
Proof.
  unfold icon_position, look. cbn. destruct (n_icon n) as [ic|]; [|by intros [= <-]]. by intros (ic' & _ & ->)%fmap_ok.
Qed.

(** [set_position] also puts the label and the icon of the node right. *)
Lemma set_position_ok sel i p s s' n0 :
  (forall j n, nodes s !! j = Some n -> j <> i -> node_ok sel j n) -> links_ok s -> nodes s !! i = Some n0 ->
  (exists a, n_item n0 = Some a /\ look n0 = Ok a) -> (n_label n0 = None <-> n_label_pos n0 = None) ->
  (forall ic, n_icon n0 = Some ic -> sized (icon_item ic)) ->
  n_selected n0 = bool_decide (sel = Some i) -> set_position i p s = Ok s' ->
  scene_ok sel s' /\ same_choice s s' /\ channels s' = channels s /\
  exists v o, nodes s' = <[i := set_pos p v o n0]> (nodes s).
Proof.
  intros Hn Hl Hi Hlook Hlab Hsz Hsel. unfold set_position. rewrite Hi. cbn [or_raise mbind result_bind].
  destruct (icon_position p n0) as [v| |] eqn:Hv; [|done..]. cbn [mbind result_bind].
  destruct (label_position p n0) as [o| |] eqn:Ho; [|done..]. cbn [mbind result_bind]. intros [= <-].
  set (s1 := set_nodes_map (<[i := set_pos p v o n0]> (nodes s)) s).
  assert (links_ok (update_links (n_links n0) s1)) as Hl1.
  { replace (n_links n0) with (end_links (ANode i) s) by (cbn; by rewrite Hi). apply (move_links s s1 (ANode i)); [done|done| |].
    - intros [j|c]; [|done]. cbn. destruct (decide (i = j)) as [<-|Hj]; [by rewrite lookup_insert_eq, Hi|by rewrite lookup_insert_ne].
    - intros [j|c] Hj; [|done]. cbn. by rewrite lookup_insert_ne by congruence. }
  pose proof (update_links_same (n_links n0) s1) as Hs. rewrite Hs. cbn. split; [|split; [done|split; [done|by exists v, o]]].
  split.
  - cbn. intros j n. destruct (decide (i = j)) as [<-|Hj]; [|rewrite lookup_insert_ne by done; auto].
    rewrite lookup_insert_eq. intros [= <-]. split; [by rewrite (look_set_pos _ _ _ _ _ Hv)| |by eapply icon_position_good| |done].
    + unfold label_position in *. cbn. destruct (n_label_pos n0) as [q|]; [|by injection Ho as <-].
      destruct (num_mul _ _) as [d| |]; [|done..]. cbn [mbind result_bind] in *.
      destruct (num_add _ _) as [y| |]; [|done..]. cbn [mbind result_bind] in *. by injection Ho as <-.
    + cbn. rewrite Hlab. unfold label_position in Ho. destruct (n_label_pos n0) as [q|]; [|by injection Ho as <-].
      apply bind_ok in Ho as (d & _ & Ho). apply bind_ok in Ho as (y & _ & [= <-]). done.
  - intros k l Hk. cbn in Hk. destruct (Hl1 k l Hk) as (H1 & H2 & Hd). rewrite Hs in H1, H2. split; [done|]. split; [done|].
    destruct Hd as [Hd|(a & b & Ha & Hb & Hd)]; [by left|right]. exists a, b. rewrite Hs in Ha, Hb. done.
Qed.

Lemma links_ok_same s s' : links_ok s -> links s' = links s ->
  (forall e, end_links e s' = end_links e s) -> (forall e, position_of e s' = position_of e s) -> links_ok s'.
Proof.
  intros Hok Hl He Hp k l Hk. rewrite Hl in Hk. destruct (Hok k l Hk) as (H1 & H2 & Hd).
  split; [by rewrite He|]. split; [by rewrite He|]. destruct Hd as [Hd|(p & q & H)]; [by left|right].
  exists p, q. by rewrite !Hp.
Qed.

(** A node replaced by one in the same place with the same links. *)
Lemma replace_node s i n n' : nodes s !! i = Some n -> n_pos n' = n_pos n -> n_links n' = n_links n -> links_ok s ->
  links_ok (set_nodes_map (<[i := n']> (nodes s)) s).
Proof.
  intros Hi Hp Hl Hok. apply (links_ok_same s); [done|done| |]; intros [j|c]; try done; cbn;
    (destruct (decide (i = j)) as [<-|Hj]; [rewrite lookup_insert_eq, Hi; cbn; congruence|by rewrite lookup_insert_ne]).
Qed.

(** What the changes of a node leave alone. *)
Definition keeps_place (g : canvas_node -> canvas_node) (n : canvas_node) : Prop :=
  n_pos (g n) = n_pos n /\ n_links (g n) = n_links n /\ n_label_pos (g n) = n_label_pos n /\
  (n_label (g n) = None -> n_label n = None) /\ (icon_good (n_pos n) n -> icon_good (n_pos n) (g n)).

Lemma change_node_ok sel sel' g i s s' : scene_ok sel s ->
  (forall n, nodes s !! i = Some n -> keeps_place g n /\ n_selected (g n) = bool_decide (sel' = Some i)) ->
  (forall j, j <> i -> sel = Some j <-> sel' = Some j) ->
  change_node g i s = Ok s' -> scene_ok sel' s' /\ same_choice s s' /\ dom (nodes s') = dom (nodes s).
Proof.
  intros [Hn Hl] Hg Hsel. unfold change_node. destruct (nodes s !! i) as [n|] eqn:Hi; [|done]. cbn [or_raise mbind result_bind].
  unfold update_appearance. cbn [nodes set_nodes_map]. rewrite lookup_insert_eq. cbn [or_raise mbind result_bind].
  intros H. apply bind_ok in H as (a & Ha & H). destruct (Hg n eq_refl) as [(Hgp & Hgl & Hgo & Hgb & Hgi) Hb].
  assert (i ∈ dom (nodes s)) as Hid by (by apply elem_of_dom).
  assert (forall j m, nodes s !! j = Some m -> j <> i -> node_ok sel' j m) as Hothers.
  { intros j m Hj Hji. destruct (Hn j m Hj) as [? ? ? ? Hs]. split; [done..|]. rewrite Hs. apply bool_decide_ext. by apply Hsel. }
  pose proof (Hn i n Hi) as [_ _ Hic Hlab _]. specialize (Hgi Hic).
  cbn [set_item n_label] in H. destruct (n_label (g n)) as [t|] eqn:Ht.
  - eapply set_position_ok in H as (Hok & Hc & _ & v & o & ->).
    + split; [exact Hok|]. split; [exact Hc|]. cbn. rewrite !dom_insert_L. set_solver.
    + cbn. intros j m Hj Hji. rewrite !lookup_insert_ne in Hj by done. by apply Hothers.
    + rewrite insert_insert_eq. by apply (replace_node s i n).
    + cbn. by rewrite lookup_insert_eq.
    + by exists a.
    + cbn. rewrite Ht. done.
    + apply Hgi.
    + cbn. auto.
  - injection H as <-. split; [|split; [done|cbn; rewrite !dom_insert_L; set_solver]].
    assert (n_label_pos n = None) as Hnone by (apply Hlab; auto). rewrite Hnone in Hgo. split.
    + cbn. intros j m. destruct (decide (i = j)) as [<-|Hj]; [|rewrite !lookup_insert_ne by done; auto].
      rewrite lookup_insert_eq. intros [= <-]. split; cbn; [by exists a|unfold label_position; cbn; by rewrite Hgo| |by rewrite Ht|auto].
      rewrite Hgp. exact Hgi.
    + cbn. rewrite insert_insert_eq. by apply (replace_node s i n).
Qed.

Lemma new_node_ok : exists n, new_node = Ok n /\ n_links n = [] /\ forall i sel, sel <> Some i -> node_ok sel i n.
Proof.
  eexists. split; [vm_compute; reflexivity|]. split; [done|]. intros i sel Hs. split; [by eexists; split; vm_compute|done|done|done|].
  by rewrite bool_decide_eq_false_2.
Qed.

(** The scene shows every node it has, with the present links. *)
Lemma get_node_ok sel i s : scene_ok sel s -> sel <> Some i \/ is_Some (nodes s !! i) ->
  exists s', get_node i s = Ok s' /\ scene_ok sel s' /\ same_choice s s' /\ links s' = links s /\ channels s' = channels s /\
    dom (nodes s') = {[i]} ∪ dom (nodes s) /\ forall e, end_links e s' = end_links e s.
Proof.
  intros [Hn Hl] Hi. unfold get_node. destruct (nodes s !! i) as [n|] eqn:Hni.
  { exists s. repeat (split; [done|]). split; [|done]. assert (i ∈ dom (nodes s)) by (by apply elem_of_dom). set_solver. }
  destruct Hi as [Hi|[? Hi]]; [|done]. destruct new_node_ok as (n & -> & Hnl & Hnok). cbn [mbind result_bind].
  assert (forall e, end_links e (set_nodes_map (<[i := n]> (nodes s)) s) = end_links e s) as He.
  { intros [j|c]; [|done]. cbn. destruct (decide (i = j)) as [<-|Hj]; [by rewrite lookup_insert_eq, Hni|by rewrite lookup_insert_ne]. }
  eexists. split; [done|]. split; [split|].
  - cbn. intros j m. destruct (decide (i = j)) as [<-|Hj]; [rewrite lookup_insert_eq|rewrite lookup_insert_ne by done; auto].
    intros [= <-]. by apply Hnok.
  - cbn. intros k l Hk. destruct (Hl k l Hk) as (H1 & H2 & Hd). unfold link_ok. rewrite !He. split; [done|]. split; [done|].
    destruct Hd as [Hd|(p & q & Hp & Hq & Hd)]; [by left|right]. exists p, q.
    assert (forall e r, position_of e s = Some r -> position_of e (set_nodes_map (<[i := n]> (nodes s)) s) = Some r) as Hpos.
    { intros [j|c] r; [|done]. cbn. destruct (decide (i = j)) as [<-|Hj]; [by rewrite Hni|by rewrite lookup_insert_ne]. }
    split; [by apply (Hpos (ANode _))|]. split; [by apply Hpos|done].
  - split; [done|]. split; [done|]. split; [done|]. split; [cbn; by rewrite dom_insert_L|exact He].
Qed.

Lemma get_channel_ok sel c s : scene_ok sel s -> scene_ok sel (get_channel c s).
Proof.
  intros [Hn Hl]. unfold get_channel. destruct (channels s !! c) as [ch|] eqn:Hc; [done|]. split; [done|].
  intros k l Hk. destruct (Hl k l Hk) as (H1 & H2 & Hd).
  assert (forall e, end_links e (set_channels_map (<[c := Channel (zero, zero) []]> (channels s)) s) = end_links e s) as He.
  { intros [i|j]; [done|]. cbn. destruct (decide (c = j)) as [<-|Hj]; [by rewrite lookup_insert_eq, Hc|by rewrite lookup_insert_ne]. }
  unfold link_ok. rewrite !He. split; [done|]. split; [done|]. destruct Hd as [Hd|(p & q & Hp & Hq & Hd)]; [by left|right].
  exists p, q. split; [done|]. split; [|done]. destruct (l_node2 l) as [i|j]; [done|]. cbn in *.
  destruct (decide (c = j)) as [<-|Hj]; [by rewrite Hc in Hq|by rewrite lookup_insert_ne].
Qed.

Lemma set_channel_position_ok sel c p s s' : scene_ok sel s -> set_channel_position c p s = Ok s' -> scene_ok sel s' /\ same_choice s s' /\ nodes s' = nodes s.
Proof.
  intros [Hn Hl]. unfold set_channel_position. destruct (channels s !! c) as [ch|] eqn:Hc; [|done]. cbn [or_raise mbind result_bind].
  intros [= <-]. set (s1 := set_channels_map (<[c := Channel p (c_links ch)]> (channels s)) s).
  assert (links_ok (update_links (c_links ch) s1)) as Hl1.
  { replace (c_links ch) with (end_links (AChannel c) s) by (cbn; by rewrite Hc). apply (move_links s s1 (AChannel c)); [done|done| |].
    - intros [i|j]; [done|]. cbn. destruct (decide (c = j)) as [<-|Hj]; [by rewrite lookup_insert_eq, Hc|by rewrite lookup_insert_ne].
    - intros [i|j] Hj; [done|]. cbn. by rewrite lookup_insert_ne by congruence. }
  pose proof (update_links_same (c_links ch) s1) as Hs. split; [split; [|done]|]; rewrite Hs; cbn; done.
Qed.

(** Links at the end of the lists of their ends. *)
Lemma end_links_attach k e e' s : is_Some (position_of e' s) ->
  end_links e' (attach k e s) = end_links e' s ++ (if decide (e = e') then [k] else []).
Proof.
  intros He'. destruct e as [i|c], e' as [j|d]; cbn in *; rewrite ?app_nil_r; try done.
  - destruct (nodes s !! j) as [n|] eqn:Hj; [|by destruct He'].
    destruct (decide (i = j)) as [<-|Hij]; [rewrite lookup_alter_eq, Hj, decide_True by done; done|].
    rewrite lookup_alter_ne, Hj, decide_False by congruence. by rewrite app_nil_r.
  - destruct (channels s !! d) as [n|] eqn:Hj; [|by destruct He'].
    destruct (decide (c = d)) as [<-|Hij]; [rewrite lookup_alter_eq, Hj, decide_True by done; done|].
    rewrite lookup_alter_ne, Hj, decide_False by congruence. by rewrite app_nil_r.
Qed.
Lemma position_attach k e e' s : position_of e' (attach k e s) = position_of e' s.
Proof.
  destruct e as [i|c], e' as [j|d]; cbn; try done.
  - destruct (decide (i = j)) as [<-|Hij]; [rewrite lookup_alter_eq; by destruct (nodes s !! i)|by rewrite lookup_alter_ne].
  - destruct (decide (c = d)) as [<-|Hij]; [rewrite lookup_alter_eq; by destruct (channels s !! c)|by rewrite lookup_alter_ne].
Qed.
Lemma links_attach k e s : links (attach k e s) = links s.
Proof. by destruct e. Qed.
Lemma choice_attach k e s : same_choice s (attach k e s).
Proof. by destruct e. Qed.
Lemma nodes_attach sel k e s : (forall i n, nodes s !! i = Some n -> node_ok sel i n) ->
  forall i n, nodes (attach k e s) !! i = Some n -> node_ok sel i n.
Proof.
  intros Hok i n Hi. destruct e as [j|c]; cbn in Hi; [|by apply Hok].
  destruct (decide (i = j)) as [<-|Hij].
  - rewrite lookup_alter_eq in Hi. destruct (nodes s !! i) as [m|] eqn:Hm; [|done]. injection Hi as <-.
    destruct (Hok i m Hm) as [H1 H2 H3 H4 H5]. by split.
  - rewrite lookup_alter_ne in Hi by done. by apply Hok.
Qed.
Lemma dom_attach k e s : dom (nodes (attach k e s)) = dom (nodes s).
Proof. destruct e; cbn; [apply dom_alter_L|done]. Qed.

Lemma create_link_ok sel i e s : scene_ok sel s -> is_Some (position_of (ANode i) s) -> is_Some (position_of e s) ->
  scene_ok sel (create_link i e s) /\ links (create_link i e s) = links s ++ [WiredLink i e None].
Proof.
  intros [Hn Hl] Hi He. unfold create_link.
  set (k := length (links s)). set (s1 := set_links _ s). set (s2 := attach k (ANode i) s1).
  assert (forall e', position_of e' (attach k e s2) = position_of e' s) as Hp.
  { intros e'. unfold s2. rewrite !position_attach. by destruct e'. }
  assert (forall e' j, is_Some (position_of e' s) -> (j ∈ end_links e' s \/ (j = k /\ (e' = ANode i \/ e' = e))) ->
    j ∈ end_links e' (attach k e s2)) as Hel.
  { intros e' j He' Hj. assert (is_Some (position_of e' s1)) as He1 by (by destruct e').
    unfold s2. rewrite end_links_attach, end_links_attach by (rewrite ?position_attach; done).
    replace (end_links e' s1) with (end_links e' s) by (by destruct e'). rewrite !elem_of_app.
    destruct Hj as [Hj|[-> [->| ->]]]; [by left; left|left; right|right]; rewrite decide_True by done; set_solver. }
  assert (links (attach k e s2) = links s ++ [WiredLink i e None]) as Hlk by (unfold s2; by rewrite !links_attach).
  split; [|done]. split.
  - by apply nodes_attach, nodes_attach.
  - intros j l. rewrite Hlk. intros [Hj|[Hge Hj]]%lookup_app_Some.
    + destruct (Hl j l Hj) as (H1 & H2 & Hd). split; [apply Hel; [by eapply end_links_some|by left]|].
      split; [apply Hel; [by eapply end_links_some|by left]|]. destruct Hd as [Hd|(p & q & H)]; [by left|right].
      exists p, q. by rewrite !Hp.
    + apply list_lookup_singleton_Some in Hj as [Hj <-]. assert (j = k) as -> by (subst k; lia).
      split; [apply Hel; [done|by right; split; [|left]]|]. split; [apply Hel; [done|by right; split; [|right]]|by left].
Qed.

(** ** Positions *)

Lemma set_position_shape i p s s' : set_position i p s = Ok s' -> exists n v o, nodes s !! i = Some n /\
  icon_position p n = Ok v /\ label_position p n = Ok o /\ nodes s' = <[i := set_pos p v o n]> (nodes s) /\ channels s' = channels s.
Proof.
  unfold set_position. destruct (nodes s !! i) as [n|] eqn:Hn; [|done]. cbn [or_raise mbind result_bind].
  intros H. apply bind_ok in H as (v & Hv & H). apply bind_ok in H as (o & Ho & <-%ok_inj). exists n, v, o.
  rewrite update_links_same. by cbn.
Qed.

(** Moving a node moves nothing else. *)
Lemma set_position_position i p s s' e : set_position i p s = Ok s' ->
  position_of e s' = if decide (e = ANode i) then Some p else position_of e s.
Proof.
  intros (n & v & o & Hn & _ & _ & Hns & Hcs)%set_position_shape. destruct e as [j|c]; cbn; rewrite ?Hns, ?Hcs.
  - destruct (decide (i = j)) as [<-|Hj]; [by rewrite lookup_insert_eq, decide_True|by rewrite lookup_insert_ne, decide_False by congruence].
  - by rewrite decide_False.
Qed.
Lemma set_channel_position_position c p s s' e : set_channel_position c p s = Ok s' ->
  position_of e s' = if decide (e = AChannel c) then Some p else position_of e s.
Proof.
  unfold set_channel_position. destruct (channels s !! c) as [ch|] eqn:Hc; [|done]. cbn [or_raise mbind result_bind].
  intros <-%ok_inj. rewrite update_links_same. destruct e as [j|d]; cbn; [by rewrite decide_False|].
  destruct (decide (c = d)) as [<-|Hd]; [by rewrite lookup_insert_eq, decide_True|by rewrite lookup_insert_ne, decide_False by congruence].
Qed.
Lemma change_node_position g i s s' e : (forall n, n_pos (g n) = n_pos n) -> change_node g i s = Ok s' -> position_of e s' = position_of e s.
Proof.
  intros Hg. unfold change_node. destruct (nodes s !! i) as [n|] eqn:Hn; [|done]. cbn [or_raise mbind result_bind].
  unfold update_appearance. cbn [nodes set_nodes_map]. rewrite lookup_insert_eq. cbn [or_raise mbind result_bind].
  intros H. apply bind_ok in H as (a & _ & H). destruct (n_label (set_item a (g n))) as [t|].
  - rewrite (set_position_position _ _ _ _ _ H). cbn [n_pos set_pos set_item]. case_decide as He.
    + subst e. cbn. by rewrite Hn, Hg.
    + destruct e as [j|c]; [|done]. cbn. rewrite !lookup_insert_ne by congruence. done.
  - injection H as <-. destruct e as [j|c]; [|done]. cbn. destruct (decide (i = j)) as [<-|Hj].
    + by rewrite lookup_insert_eq, Hn; cbn; rewrite Hg.
    + by rewrite !lookup_insert_ne.
Qed.
Lemma select_node_position o s s' e : select_node o s = Ok s' -> position_of e s' = position_of e s.
Proof.
  unfold select_node. case_decide as Ho; [by intros [= <-]|]. intros H. apply bind_ok in H as (s1 & H1 & H). apply bind_ok in H as (s2 & H2 & H).
  assert (position_of e s1 = position_of e s) as Hs1 by (destruct (selected_node s); [by eapply change_node_position in H1|by injection H1 as <-]).
  assert (position_of e s2 = position_of e s1) as Hs2.
  { destruct o as [i|]; [|injection H2 as <-; by destruct e]. eapply (change_node_position _ _ _ _ e) in H2; [|done].
    rewrite H2. by destruct e. }
  rewrite <- Hs1, <- Hs2. apply ok_inj in H as <-. destruct (show_transmissions_mode s2); by destruct e.
Qed.

(** ** Operations of the user and of the simulator *)

Inductive scene_op :=
| GetNode (i : nat) | GetChannel (c : nat) | CreateLink (i : nat) (e : endpoint)
| MoveNode (i : nat) (p : point) | MoveChannel (c : nat) (p : point)
| Highlight (b : bool) (i : nat) | SetColor (c : Z) (i : nat) | SetSize (x : num) (i : nat) | SetLabel (t : text) (i : nat)
| SetIcon (h : svg_handle) (width height : option num) (align_x align_y : num) (i : nat)
| Select (o : option nat) | SetMode (m : transmissions_mode).

(** A link needs its ends, which are objects. *)
Definition scene_step (n : nat) (op : scene_op) (s : scene) : res scene :=
  match op with
  | GetNode i => get_node i s
  | GetChannel c => Ok (get_channel c s)
  | CreateLink i e =>
      _ ← or_raise KeyError (position_of (ANode i) s); _ ← or_raise KeyError (position_of e s); Ok (create_link i e s)
  | MoveNode i p => set_position i p s
  | MoveChannel c p => set_channel_position c p s
  | Highlight b i => set_highlighted b i s
  | SetColor c i => set_color c i s
  | SetSize x i => set_size x i s
  | SetLabel t i => set_label t i s
  | SetIcon h w ht ax ay i => set_svg_icon h w ht ax ay i s
  | Select o => select_node o s
  | SetMode m => Ok (set_show_transmissions_mode n m s)
  end.

Fixpoint run_scene (n : nat) (ops : list scene_op) (s : scene) : res scene :=
  match ops with [] => Ok s | op :: ops => s ← scene_step n op s; run_scene n ops s end.

(** [Visualizer.__init__] and [create_gui], in a network of [n] nodes. *)
Definition empty_scene (n : nat) : scene :=
  Scene ∅ ∅ [] [] ((frac (-10000) 1, frac (-10000) 1), (frac 10000 1, frac 10000 1)) None ShowAll (seq 0 n) netdevice_traits.

(** The node selected is there, and the simulator watches it when it should. *)
Record scene_good (s : scene) : Prop := Consistent {
  z_scene : scene_ok (selected_node s) s;
  z_selected : forall i, selected_node s = Some i -> is_Some (nodes s !! i);
  z_interest : show_transmissions_mode s = ShowSelected -> nodes_of_interest s = option_list (selected_node s)
}.

Lemma consistent_choice s s' : scene_good s -> scene_ok (selected_node s) s' -> same_choice s s' -> dom (nodes s) ⊆ dom (nodes s') ->
  scene_good s'.
Proof.
  intros [_ Hsel Hi] Hok (H1 & H2 & H3 & _) Hd. split; rewrite ?H1, ?H2, ?H3; [done| |done].
  intros i Hs. specialize (Hsel i Hs). apply elem_of_dom. apply Hd. by apply elem_of_dom.
Qed.

(** A change of one attribute keeps the rest. *)
Ltac keeps := intros ? _; split; [do 4 (split; [done|]); exact id|done].

Lemma change_consistent g i s s' : scene_good s ->
  (forall n, nodes s !! i = Some n -> keeps_place g n /\ n_selected (g n) = n_selected n) ->
  change_node g i s = Ok s' -> scene_good s'.
Proof.
  intros Hc Hg H. apply (change_node_ok (selected_node s) (selected_node s)) in H as (Hok & Hsc & Hd); [|apply Hc| |done].
  - apply (consistent_choice s); [done..|by rewrite Hd].
  - intros n Hn. destruct (Hg n Hn) as [? ->]. split; [done|]. by apply (v_nodes _ _ (z_scene _ Hc)).
Qed.

(** An icon of the size asked for is put where its alignment says. *)
Lemma icon_size_sized name d it it' : sized it -> icon_size name d it = Ok it' -> sized it'.
Proof. destruct d as [d|]; cbn; [|by intros ? [= <-]]. intros Hs (c & _ & H)%bind_ok. by eapply set_property_sized. Qed.
(** The scene without what is chosen. *)
Lemma scene_ok_choice sel s s' : scene_ok sel s -> nodes s' = nodes s -> channels s' = channels s -> links s' = links s -> scene_ok sel s'.
Proof.
  intros [Hn Hl] H1 H2 H3. split; [by rewrite H1|].
  apply (links_ok_same s); [done..| |]; intros []; cbn; by rewrite ?H1, ?H2.
Qed.

Lemma set_svg_icon_consistent h w ht ax ay i s s' : scene_good s -> set_svg_icon h w ht ax ay i s = Ok s' -> scene_good s'.
Proof.
  intros Hc. unfold set_svg_icon. destruct (_ && _)%bool; [done|]. intros H. apply bind_ok in H as (n & Hn & H).
  destruct (n_pos n) as [x y] eqn:Hp. apply bind_ok in H as (it & Hit & H). apply bind_ok in H as (it' & Hit' & H).
  apply bind_ok in H as (ic & Hic & H).
  assert (scene_good (set_left_icons (left_icons s ++ option_list (n_icon n)) s)) as Hc'.
  { destruct Hc as [H1 H2 H3]. split; [|done|done]. by apply (scene_ok_choice _ s). }
  apply (change_consistent _ _ _ _ Hc') in H; [done|]. intros m Hm. cbn in Hm.
  rewrite Hm in Hn. injection Hn as ->. split; [|done]. do 4 (split; [done|]). intros _. split; cbn.
  - rewrite Hp. unfold icon_position. cbn. by rewrite (update_svg_position_twice _ _ _ _ Hic).
  - intros ? [= <-]. eapply update_svg_position_sized, Hic. cbn. by eapply icon_size_sized, Hit'; eapply icon_size_sized, Hit.
Qed.

Lemma set_selected_ok b sel sel' i s s' : scene_ok sel s -> (forall j, j <> i -> sel = Some j <-> sel' = Some j) ->
  b = bool_decide (sel' = Some i) -> set_selected b i s = Ok s' -> scene_ok sel' s' /\ same_choice s s' /\ dom (nodes s') = dom (nodes s).
Proof. intros Hok Hsel -> H. eapply change_node_ok in H; [exact H|exact Hok| |exact Hsel]. keeps. Qed.

Lemma select_node_consistent o s s' : scene_good s -> select_node o s = Ok s' -> scene_good s' /\ selected_node s' = o.
Proof.
  intros Hc. unfold select_node. case_decide as Ho; [by intros [= <-]|]. intros H. apply bind_ok in H as (s1 & H1 & H).
  assert (scene_ok None s1 /\ same_choice s s1 /\ dom (nodes s1) = dom (nodes s)) as (Hok1 & Hsc1 & Hd1).
  { pose proof (z_scene _ Hc) as Hok. destruct (selected_node s) as [i|]; [|by injection H1 as <-].
    eapply set_selected_ok in H1; [exact H1|exact Hok| |by rewrite bool_decide_eq_false_2]. intros j Hj. split; congruence. }
  apply bind_ok in H as (s2 & H2 & H).
  assert (scene_ok None (set_selected_node o s1)) as Hok1' by (by apply (scene_ok_choice None s1)).
  assert (scene_ok o s2 /\ same_choice (set_selected_node o s1) s2 /\ dom (nodes s2) = dom (nodes s1) /\
    forall i, o = Some i -> is_Some (nodes s2 !! i)) as (Hok2 & Hsc2 & Hd2 & Hin).
  { destruct o as [j|]; [|by injection H2 as <-]. assert (is_Some (nodes s1 !! j)) as Hj.
    { unfold set_selected, change_node in H2. cbn in H2. destruct (nodes s1 !! j); [by eexists|done]. }
    eapply (set_selected_ok true None (Some j)) in H2 as (? & ? & Hd); [|exact Hok1'| |by rewrite bool_decide_eq_true_2].
    - cbn in Hd. split; [done|]. split; [done|]. split; [done|]. intros i [= <-]. apply elem_of_dom. rewrite Hd. by apply elem_of_dom.
    - intros i Hi. split; congruence. }
  destruct Hsc2 as (Hs & Hm & Hi2 & _). cbn in Hs, Hm, Hi2.
  assert (selected_node s' = o /\ scene_ok o s' /\ (forall i, o = Some i -> is_Some (nodes s' !! i)) /\
    (show_transmissions_mode s' = ShowSelected -> nodes_of_interest s' = option_list o)) as (Hs' & ? & ? & ?);
    [|split; [split; by rewrite Hs'|done]].
  destruct (show_transmissions_mode s2) eqn:Hmode; injection H as <-; (split; [done|]); (split; [by apply (scene_ok_choice o s2)|]);
    (split; [done|]); cbn; congruence.
Qed.

Lemma scene_step_consistent n op s s' : scene_good s -> scene_step n op s = Ok s' -> scene_good s'.
Proof.
  intros Hc Hs. pose proof (z_scene _ Hc) as Hok. destruct op as [i|c|i e|i p|c p|b i|c i|x i|t i|h w ht ax ay i|o|m]; cbn in Hs.
  - assert (selected_node s <> Some i \/ is_Some (nodes s !! i)) as Hi.
    { destruct (decide (selected_node s = Some i)) as [Hi|Hi]; [right; by apply (z_selected _ Hc)|by left]. }
    destruct (get_node_ok _ _ _ Hok Hi) as (t & Ht & Hok' & Hsc & _ & _ & Hd & _). rewrite Ht in Hs. injection Hs as <-.
    apply (consistent_choice s); [done..|]. rewrite Hd. set_solver.
  - injection Hs as <-. apply (consistent_choice s); [done|by apply get_channel_ok| |]; unfold get_channel; by case_match.
  - apply bind_ok in Hs as (p & Hp & Hs). apply bind_ok in Hs as (q & Hq & [= <-]).
    assert (is_Some (position_of (ANode i) s)) as H1 by (cbn; destruct (nodes s !! i); [by eexists|done]).
    assert (is_Some (position_of e s)) as H2 by (destruct (position_of e s); [by eexists|done]).
    destruct (create_link_ok _ i e s Hok H1 H2) as [Hok' _].
    apply (consistent_choice s); [done|done| |]; unfold create_link.
    + by destruct e.
    + rewrite !dom_attach. done.
  - destruct (nodes s !! i) as [n0|] eqn:Hi; [|unfold set_position in Hs; by rewrite Hi in Hs].
    destruct (v_nodes _ _ Hok i n0 Hi) as [H1 H2 H3 H4 H5].
    eapply (set_position_ok (selected_node s)) in Hs as (Hok' & Hsc & _ & v & o & Hns); [|intros; by apply (v_nodes _ _ Hok)|apply Hok|done|done|done|apply H3|done].
    apply (consistent_choice s); [done..|]. rewrite Hns, dom_insert_L. set_solver.
  - eapply (set_channel_position_ok (selected_node s)) in Hs as (Hok' & Hsc & Hns); [|exact Hok]. apply (consistent_choice s); [done..|by rewrite Hns].
  - apply (change_consistent _ _ _ _ Hc) in Hs; [done|keeps].
  - apply (change_consistent _ _ _ _ Hc) in Hs; [done|keeps].
  - apply (change_consistent _ _ _ _ Hc) in Hs; [done|keeps].
  - apply (change_consistent _ _ _ _ Hc) in Hs; [done|keeps].
  - by eapply set_svg_icon_consistent.
  - by eapply select_node_consistent in Hs as [? _].
  - injection Hs as <-. destruct Hc as [_ Hsel Hint]. unfold set_show_transmissions_mode, choose_nodes. cbn.
    destruct m; split; cbn; try done; by apply (scene_ok_choice (selected_node s) s).
Qed.

Lemma run_scene_good n ops s : run_scene n ops (empty_scene n) = Ok s -> scene_good s.
Proof.
  assert (scene_good (empty_scene n)) as H0 by (split; [split; cbn; [intros i m Hi; by rewrite lookup_empty in Hi|done]|done|done]).
  revert H0. generalize (empty_scene n). induction ops as [|op ops IH]; intros s0 Hc Hr; [by injection Hr as <-|].
  cbn in Hr. apply bind_ok in Hr as (s1 & H1 & Hr). apply (IH s1); [|done]. by eapply scene_step_consistent.
Qed.

(** *** Icons that are left on the canvas *)

Definition icon_of (i : nat) (s : scene) : option icon := nodes s !! i ≫= n_icon.
(** The node that an operation gives an icon. *)
Definition icon_node (op : scene_op) : option nat := match op with SetIcon _ _ _ _ _ i => Some i | _ => None end.
Definition replaced_icon (op : scene_op) (s : scene) : list icon :=
  match icon_node op with Some i => option_list (icon_of i s) | None => [] end.

(** What does not give an icon to a node. *)
Definition same_icons (s s' : scene) : Prop := left_icons s' = left_icons s /\ forall i, is_Some (icon_of i s') <-> is_Some (icon_of i s).
Lemma same_icons_refl s : same_icons s s.
Proof. done. Qed.
Lemma same_icons_trans s1 s2 s3 : same_icons s1 s2 -> same_icons s2 s3 -> same_icons s1 s3.
Proof. intros [L1 I1] [L2 I2]. split; [congruence|]. intros i. by rewrite I2. Qed.
Lemma same_icons_nodes s s' : left_icons s' = left_icons s -> nodes s' = nodes s -> same_icons s s'.
Proof. intros Hl Hn. split; [done|]. intros i. unfold icon_of. by rewrite Hn. Qed.
Lemma same_icons_insert s s' i n n' : left_icons s' = left_icons s -> nodes s !! i = Some n -> nodes s' = <[i := n']> (nodes s) ->
  (is_Some (n_icon n') <-> is_Some (n_icon n)) -> same_icons s s'.
Proof.
  intros Hl Hi Hn Hic. split; [done|]. intros j. unfold icon_of. rewrite Hn. destruct (decide (i = j)) as [<-|Hj].
  - by rewrite lookup_insert_eq, Hi.
  - by rewrite lookup_insert_ne.
Qed.

Lemma set_position_icons i p s s' : set_position i p s = Ok s' -> same_icons s s'.
Proof.
  intros H. pose proof (set_position_shape _ _ _ _ H) as (n & v & o & Hn & Hv & _ & Hns & _). apply (same_icons_insert _ _ i n (set_pos p v o n)); [|done|done|].
  - unfold set_position in H. rewrite Hn in H. cbn [or_raise mbind result_bind] in H. apply bind_ok in H as (v' & _ & H).
    apply bind_ok in H as (o' & _ & <-%ok_inj). by rewrite update_links_same.
  - cbn. unfold icon_position in Hv. destruct (n_icon n); [|by injection Hv as <-]. by apply fmap_ok in Hv as (ic & _ & ->).
Qed.
(** The icon is that of the changed node. *)
Lemma change_node_icons g i s s' n : change_node g i s = Ok s' -> nodes s !! i = Some n ->
  left_icons s' = left_icons s /\ forall j, is_Some (icon_of j s') <-> if decide (j = i) then is_Some (n_icon (g n)) else is_Some (icon_of j s).
Proof.
  unfold change_node. intros H Hn. rewrite Hn in H. cbn [or_raise mbind result_bind] in H.
  unfold update_appearance in H. cbn [nodes set_nodes_map] in H. rewrite lookup_insert_eq in H. cbn [or_raise mbind result_bind] in H.
  apply bind_ok in H as (a & _ & H).
  assert (exists n2, n_icon n2 = n_icon (g n) /\ same_icons (set_nodes_map (<[i := n2]> (nodes s)) s) s') as (n2 & Hn2 & Hs & Hi).
  { destruct (n_label (set_item a (g n))) as [t|].
    - eexists. split; [|eapply same_icons_trans; [|eapply set_position_icons, H]; apply same_icons_nodes; [done|cbn; by rewrite !insert_insert_eq]]. done.
    - injection H as <-. exists (set_item a (g n)). split; [done|]. apply same_icons_nodes; [done|]. cbn. by rewrite insert_insert_eq. }
  split; [done|]. intros j. rewrite Hi. unfold icon_of. cbn. case_decide as Hj; [subst j|].
  - rewrite lookup_insert_eq. cbn. by rewrite Hn2.
  - by rewrite lookup_insert_ne.
Qed.
Lemma change_same_icons g i s s' : (forall n, n_icon (g n) = n_icon n) -> change_node g i s = Ok s' -> same_icons s s'.
Proof.
  intros Hg H. destruct (nodes s !! i) as [n|] eqn:Hn; [|unfold change_node in H; by rewrite Hn in H].
  destruct (change_node_icons _ _ _ _ _ H Hn) as [Hl Hi]. split; [done|]. intros j. rewrite Hi. case_decide as Hj; [|done]. subst j.
  unfold icon_of. by rewrite Hn, Hg.
Qed.
Lemma attach_icons k e s : same_icons s (attach k e s).
Proof.
  destruct e as [i|c]; [|done]. split; [done|]. intros j. unfold icon_of. cbn. destruct (decide (i = j)) as [<-|Hj].
  - rewrite lookup_alter_eq. by destruct (nodes s !! i).
  - by rewrite lookup_alter_ne.
Qed.

Lemma set_svg_icon_icons h w ht ax ay i s s' : set_svg_icon h w ht ax ay i s = Ok s' ->
  left_icons s' = left_icons s ++ option_list (icon_of i s) /\ forall j, is_Some (icon_of j s') <-> is_Some (icon_of j s) \/ j = i.
Proof.
  unfold set_svg_icon. destruct (_ && _)%bool; [done|]. intros H. apply bind_ok in H as (n & Hn & H).
  assert (nodes s !! i = Some n) as Hi by (destruct (nodes s !! i); [by injection Hn as ->|done]).
  destruct (n_pos n). do 3 (apply bind_ok in H as (? & _ & H)).
  destruct (change_node_icons _ _ _ _ n H Hi) as [Hl Hj]. split; [rewrite Hl; unfold icon_of; by rewrite Hi|].
  intros j. rewrite Hj. case_decide as E; [split; [by right|by eexists]|]. change (icon_of j (set_left_icons _ s)) with (icon_of j s). tauto.
Qed.

Lemma scene_step_icons n op s s' : scene_step n op s = Ok s' ->
  left_icons s' = left_icons s ++ replaced_icon op s /\ forall j, is_Some (icon_of j s') <-> is_Some (icon_of j s) \/ icon_node op = Some j.
Proof.
  intros H. assert (forall t, same_icons s t -> icon_node op = None -> left_icons t = left_icons s ++ replaced_icon op s /\
    forall j, is_Some (icon_of j t) <-> is_Some (icon_of j s) \/ icon_node op = Some j) as Hs.
  { intros t [Hl Hi] Ho. unfold replaced_icon. rewrite Ho, app_nil_r. split; [done|]. intros j. rewrite Hi. naive_solver. }
  destruct op as [i|c|i e|i p|c p|b i|c i|x i|t i|h w ht ax ay i|o|m]; cbn in H; try (apply Hs; [|done]).
  - unfold get_node in H. destruct (nodes s !! i) as [nd|] eqn:Hi; [by injection H as <-|]. apply bind_ok in H as (nd & Hnd & <-%ok_inj).
    split; [done|]. intros j. unfold icon_of. cbn. destruct (decide (i = j)) as [<-|Hj]; [|by rewrite lookup_insert_ne].
    rewrite lookup_insert_eq, Hi. cbn. vm_compute in Hnd. injection Hnd as <-. done.
  - injection H as <-. unfold get_channel. by destruct (channels s !! c).
  - apply bind_ok in H as (? & _ & H). apply bind_ok in H as (? & _ & <-%ok_inj). unfold create_link.
    eapply same_icons_trans; [|apply attach_icons]. eapply same_icons_trans; [|apply attach_icons]. done.
  - by eapply set_position_icons.
  - unfold set_channel_position in H. apply bind_ok in H as (ch & _ & <-%ok_inj). rewrite update_links_same. done.
  - eapply change_same_icons in H; [exact H|done].
  - eapply change_same_icons in H; [exact H|done].
  - eapply change_same_icons in H; [exact H|done].
  - eapply change_same_icons in H; [exact H|done].
  - apply set_svg_icon_icons in H as [Hl Hi]. split; [done|]. intros j. rewrite Hi. cbn. naive_solver.
  - unfold select_node in H. case_decide; [by injection H as <-|]. apply bind_ok in H as (s1 & H1 & H). apply bind_ok in H as (s2 & H2 & H).
    assert (same_icons s s1) as I1 by (destruct (selected_node s); [by eapply change_same_icons in H1|by injection H1 as <-]).
    assert (same_icons s1 s2) as I2.
    { destruct o as [i|]; [|by injection H2 as <-]. eapply change_same_icons in H2; [|done].
      eapply same_icons_trans; [|exact H2]. done. }
    eapply same_icons_trans; [exact I1|]. eapply same_icons_trans; [exact I2|]. apply ok_inj in H as <-. by destruct (show_transmissions_mode s2).
  - injection H as <-. unfold set_show_transmissions_mode, choose_nodes. by destruct m.
Qed.

(** Nodes that get one icon each leave none behind. *)
Lemma no_icon_left n ops s s' : NoDup (omap icon_node ops) -> (forall i, i ∈ omap icon_node ops -> icon_of i s = None) ->
  run_scene n ops s = Ok s' -> left_icons s' = left_icons s.
Proof.
  revert s. induction ops as [|op ops IH]; intros s Hnd Hno H; [by injection H as <-|]. cbn in H. apply bind_ok in H as (s1 & H1 & H).
  apply scene_step_icons in H1 as [Hl Hi]. cbn [omap list_omap] in Hnd, Hno. unfold replaced_icon in Hl.
  destruct (icon_node op) as [i|] eqn:Ho.
  - apply NoDup_cons in Hnd as [Hni Hnd]. rewrite (Hno i) in Hl by left. rewrite app_nil_r in Hl. rewrite <- Hl. apply IH; [done| |done].
    intros j Hj. apply eq_None_not_Some. rewrite Hi, (Hno j) by by right. intros [[? ?]|[= <-]]; done.
  - rewrite app_nil_r in Hl. rewrite <- Hl. apply IH; [done| |done].
    intros j Hj. apply eq_None_not_Some. rewrite Hi, (Hno j) by done. by intros [[? ?]|?].
Qed.


(** ** Examples *)

Definition demo_ops : list scene_op :=
  [GetNode 0; GetNode 1; GetChannel 4; CreateLink 0 (ANode 1); CreateLink 1 (AChannel 4); SetMode ShowSelected; Select (Some 0%nat);
   SetLabel (txt "sink") 1; MoveNode 1 (frac 6 1, frac 9 1); SetIcon house (Some (frac 16 1)) None (frac 1 2) (frac 1 1) 1;
   Select (Some 1%nat); Highlight true 0; SetSize (frac 2 1) 1].


(** A second icon, and a move: the first is still where the node was. *)
Example icon_left : (fun s => (fun ic => (svg_x (icon_item ic), svg_y (icon_item ic))) <$> left_icons s) <$>
    run_scene 1 [GetNode 0; SetIcon house (Some (frac 16 1)) None (frac 1 2) (frac 1 1) 0; SetIcon house (Some (frac 8 1)) None (frac 1 2) (frac 1 1) 0;
      MoveNode 0 (frac 60 1, frac 90 1)] (empty_scene 1) = Ok [(frac (-24) 1, zero)].
Proof. vm_compute. reflexivity. Qed.

Example demo_scene : (fun s => (nodes_of_interest s, l_data <$> links s)) <$> run_scene 2 demo_ops (empty_scene 2) =
  Ok ([1%nat], [Some ((zero, zero), (frac 6 1, frac 9 1)); Some ((frac 6 1, frac 9 1), (zero, zero))]).
Proof. vm_compute. reflexivity. Qed.

(** The icon of node 1, 48 pixels wide, at (6, 9): its middle is at the node and its lower edge below. *)
Example demo_icon : (fun s => n ← nodes s !! 1%nat; ic ← n_icon n; let it := icon_item ic in Some (svg_x it, svg_y it, width it, height it))
    <$> run_scene 2 demo_ops (empty_scene 2) =
  Ok (Some (frac (-18) 1, frac 9 1, frac 48 1, frac 24 1)).
Proof. vm_compute. reflexivity. Qed.
Example icon_without_size h s : set_svg_icon h None None (frac 1 2) (frac 1 2) 0 s = Raise ValueError.
Proof. reflexivity. Qed.
