(* ===== verification/VizScan.v ===== *)
(** * The scan of the topology ([Visualizer.scan_topology] in
    [src/visualizer/visualizer/core.py]): which links the scene gets and where its
    nodes are.  The layout of graphviz is a parameter. *)
From S2P Require Import Prelude PyNum PyString VizSvg VizScene.
#[local] Open Scope Z_scope.

(** ** The scan of the topology *)

(** The graph for the layout: undirected, without double edges. *)
Record graph := Graph { g_nodes : list endpoint; g_edges : list (endpoint * endpoint) }.
Definition graph_node (e : endpoint) (g : graph) : graph :=
  if decide (e ∈ g_nodes g) then g else Graph (g_nodes g ++ [e]) (g_edges g).
Definition graph_edge (a b : endpoint) (g : graph) : graph :=
  let g := graph_node b (graph_node a g) in
  if decide ((a, b) ∈ g_edges g \/ (b, a) ∈ g_edges g) then g else Graph (g_nodes g) (g_edges g ++ [(a, b)]).

(** The device [dev] of the node [i] on a channel with the nodes [members]. *)
Definition scan_other (net : network) (i other : nat) (sg : scene * graph) : res (scene * graph) :=
  let '(s, g) := sg in
  s ← get_node other s;
  if decide (other = i) then Ok (s, g)
  else
    let g := if mobile net i || mobile net other then g else graph_edge (ANode i) (ANode other) g in
    Ok (create_link i (ANode other) s, g).
Fixpoint scan_others (net : network) (i : nat) (others : list nat) (sg : scene * graph) : res (scene * graph) :=
  match others with [] => Ok sg | o :: others => sg ← scan_other net i o sg; scan_others net i others sg end.

Definition scan_device (net : network) (i : nat) (dev : ns3_device) (sg : scene * graph) : res (scene * graph) :=
  let '(s, g) := sg in
  let '(t, table) := lookup_netdevice_traits (dev_type dev) (traits_table s) in
  let s := set_traits table s in
  if bool_decide (is_wireless t = Some true) || is_virtual t then Ok (s, g)
  else
    c ← or_raise AttributeError (dev_channel dev);
    let members := default [] (net_channels net !! c) in
    if decide (2 < length members)%nat then
      let g := if mobile net i then g else graph_edge (ANode i) (AChannel c) g in
      Ok (create_link i (AChannel c) (get_channel c s), g)
    else scan_others net i members (s, g).
Fixpoint scan_devices (net : network) (i : nat) (devs : list ns3_device) (sg : scene * graph) : res (scene * graph) :=
  match devs with [] => Ok sg | d :: devs => sg ← scan_device net i d sg; scan_devices net i devs sg end.

(** [Gdk.color_parse("red")] *)
Definition red_rgba : Z := 0xff0000ff.

Definition scan_node (net : network) (i : nat) (sg : scene * graph) : res (scene * graph) :=
  let '(s, g) := sg in
  n ← or_raise IndexError (net_nodes net !! i);
  s ← get_node i s;
  sg ← match mobility n with
       | Some pos =>
           s ← set_color red_rgba i s; p ← transform_point_simulation_to_canvas pos; s ← set_position i p s; Ok (s, g)
       | None => Ok (s, graph_node (ANode i) g)
       end;
  scan_devices net i (devices n) sg.
Fixpoint scan_nodes (net : network) (ids : list nat) (sg : scene * graph) : res (scene * graph) :=
  match ids with [] => Ok sg | i :: ids => sg ← scan_node net i sg; scan_nodes net ids sg end.

(** The names in the graph are those of its nodes. *)
Definition place (e : endpoint) (p : point) (s : scene) : res scene :=
  match e with ANode i => set_position i p s | AChannel c => set_channel_position c p s end.
Fixpoint place_all (position : endpoint -> point) (es : list endpoint) (s : scene) : res scene :=
  match es with [] => Ok s | e :: es => s ← place e (position e) s; place_all position es s end.

(** The layout of graphviz is a parameter. *)
Definition scan_topology (layout : graph -> endpoint -> point) (net : network) (s : scene) : res scene :=
  '(s, g) ← scan_nodes net (seq 0 (length (net_nodes net))) (s, Graph [] []);
  place_all (layout g) (g_nodes g) s.

(** ** The links of a scan *)

(** A device of a class that the table does not have is taken for wireless. *)
Definition wired (dev : ns3_device) : bool :=
  let t := (lookup_netdevice_traits (dev_type dev) netdevice_traits).1 in
  negb (bool_decide (is_wireless t = Some true) || is_virtual t).

Definition wires (net : network) (i : nat) (dev : ns3_device) : list (nat * endpoint) :=
  match dev_channel dev with
  | Some c =>
      let members := default [] (net_channels net !! c) in
      if wired dev then
        if decide (2 < length members)%nat then [(i, AChannel c)]
        else (fun o => (i, ANode o)) <$> filter (fun o => o <> i) members
      else []
  | None => []
  end.
Definition node_wires (net : network) (i : nat) : list (nat * endpoint) :=
  match net_nodes net !! i with Some n => devices n ≫= wires net i | None => [] end.

Definition ends (s : scene) : list (nat * endpoint) := (fun l => (l_node1 l, l_node2 l)) <$> links s.

(** The table only grows by classes that are taken for wireless. *)
Definition known (t : gmap text device_traits) : Prop :=
  forall c, (lookup_netdevice_traits c t).1 = (lookup_netdevice_traits c netdevice_traits).1.

(** What the scan keeps while it places and changes nodes. *)
Definition same_ends (s s' : scene) : Prop := ends s' = ends s /\ traits_table s' = traits_table s.

Lemma refresh_ends s l : (l_node1 (refresh s l), l_node2 (refresh s l)) = (l_node1 l, l_node2 l).
Proof. unfold refresh. by destruct (position_of (ANode (l_node1 l)) s), (position_of (l_node2 l) s). Qed.

Lemma update_links_ends ks s : same_ends s (update_links ks s).
Proof.
  rewrite update_links_eq. split; [|by destruct s]. unfold ends. cbn [links set_links]. apply list_eq. intros j.
  rewrite !list_lookup_fmap, list_lookup_imap. destruct (links s !! j) as [l|]; [|done]. cbn. f_equal.
  case_decide; [apply refresh_ends|done].
Qed.

Lemma set_position_ends i p s s' : set_position i p s = Ok s' -> same_ends s s'.
Proof.
  unfold set_position. intros H. apply bind_ok in H as (n & _ & H). apply bind_ok in H as (v & _ & H). apply bind_ok in H as (o & _ & [= <-]).
  by destruct (update_links_ends (n_links n) (set_nodes_map (<[i := set_pos p v o n]> (nodes s)) s)).
Qed.
Lemma set_channel_position_ends c p s s' : set_channel_position c p s = Ok s' -> same_ends s s'.
Proof.
  unfold set_channel_position. intros H. apply bind_ok in H as (ch & _ & [= <-]).
  by destruct (update_links_ends (c_links ch) (set_channels_map (<[c := Channel p (c_links ch)]> (channels s)) s)).
Qed.
Lemma change_node_ends g i s s' : change_node g i s = Ok s' -> same_ends s s'.
Proof.
  unfold change_node, update_appearance. intros H. apply bind_ok in H as (n & _ & H). apply bind_ok in H as (m & _ & H).
  apply bind_ok in H as (a & _ & H). destruct (n_label (set_item a m)); [|by injection H as <-].
  by apply set_position_ends in H.
Qed.
Lemma get_node_ends i s s' : get_node i s = Ok s' -> same_ends s s'.
Proof. unfold get_node. destruct (nodes s !! i); intros H; [by injection H as <-|]. by apply bind_ok in H as (n & _ & [= <-]). Qed.
Lemma place_all_ends position es s s' : place_all position es s = Ok s' -> same_ends s s'.
Proof.
  revert s. induction es as [|e es IH]; intros s H; [by injection H as <-|]. cbn in H. apply bind_ok in H as (t & Ht & H).
  apply IH in H as [H1 H2]. assert (same_ends s t) as [H3 H4]; [|split; congruence].
  destruct e; [by eapply set_position_ends|by eapply set_channel_position_ends].
Qed.

Lemma create_link_ends i e s : ends (create_link i e s) = ends s ++ [(i, e)] /\ traits_table (create_link i e s) = traits_table s.
Proof. unfold ends, create_link. rewrite !links_attach. cbn [links set_links]. rewrite fmap_app. split; [done|by destruct e]. Qed.

(** The scan went on with these links. *)
Definition adds (l : list (nat * endpoint)) (sg sg' : scene * graph) : Prop :=
  known (traits_table sg.1) -> ends sg'.1 = ends sg.1 ++ l /\ known (traits_table sg'.1).

Lemma adds_nil s s' g g' : same_ends s s' -> adds [] (s, g) (s', g').
Proof. intros [He Ht] Hk. cbn in *. by rewrite He, Ht, app_nil_r. Qed.
Lemma adds_trans l1 l2 sg1 sg2 sg3 : adds l1 sg1 sg2 -> adds l2 sg2 sg3 -> adds (l1 ++ l2) sg1 sg3.
Proof. intros H1 H2 Hk. destruct (H1 Hk) as [He Hk2]. destruct (H2 Hk2) as [He2 Hk3]. by rewrite He2, He, <- app_assoc. Qed.

Lemma scan_other_adds net i o sg sg' : scan_other net i o sg = Ok sg' ->
  adds (if decide (o <> i) then [(i, ANode o)] else []) sg sg'.
Proof.
  destruct sg as [s g]. unfold scan_other. intros H. apply bind_ok in H as (t & Ht%get_node_ends & H).
  destruct (decide (o = i)) as [->|Ho].
  - rewrite decide_False by congruence. injection H as <-. by apply adds_nil.
  - rewrite decide_True by done. apply ok_inj in H as <-. destruct Ht as [He Hta]. destruct (create_link_ends i (ANode o) t) as [Hc Hct].
    intros Hk. cbn [fst] in *. by rewrite Hc, Hct, He, Hta.
Qed.

Lemma scan_others_adds net i members sg sg' : scan_others net i members sg = Ok sg' ->
  adds ((fun o => (i, ANode o)) <$> filter (fun o => o <> i) members) sg sg'.
Proof.
  revert sg. induction members as [|o members IH]; intros sg H; [injection H as <-; destruct sg; by apply adds_nil|].
  cbn in H. apply bind_ok in H as (t & Ht%scan_other_adds & H). apply IH in H. rewrite filter_cons.
  destruct (decide (o <> i)); [apply (adds_trans [(i, ANode o)] _ _ t)|apply (adds_trans [] _ _ t)]; done.
Qed.

Lemma known_lookup c t : known t -> (lookup_netdevice_traits c t).1 = (lookup_netdevice_traits c netdevice_traits).1 /\
  known (lookup_netdevice_traits c t).2.
Proof.
  intros Hk. split; [apply Hk|]. unfold lookup_netdevice_traits at 1. destruct (t !! c) as [tr|] eqn:Hc; [done|]. cbn.
  intros d. rewrite <- (Hk d). unfold lookup_netdevice_traits. destruct (decide (c = d)) as [<-|Hd].
  - by rewrite lookup_insert_eq, Hc.
  - rewrite lookup_insert_ne by done. by destruct (t !! d).
Qed.

Lemma scan_device_adds net i dev sg sg' : scan_device net i dev sg = Ok sg' -> adds (wires net i dev) sg sg'.
Proof.
  destruct sg as [s g]. unfold scan_device. intros H Hk. cbn [fst] in Hk. destruct (known_lookup (dev_type dev) _ Hk) as [Ht Hk'].
  unfold wires, wired. rewrite <- Ht. destruct (lookup_netdevice_traits (dev_type dev) (traits_table s)) as [t table]. cbn [fst snd] in *.
  destruct (bool_decide _ || _)%bool; cbn [negb].
  { apply ok_inj in H as <-. split; [|exact Hk']. cbn [fst]. destruct (dev_channel dev); rewrite app_nil_r; reflexivity. }
  destruct (dev_channel dev) as [c|]; [|discriminate H]. cbn [or_raise mbind result_bind] in H. case_decide.
  - apply ok_inj in H as <-. destruct (create_link_ends i (AChannel c) (get_channel c (set_traits table s))) as [Hc Hct].
    cbn [fst]. rewrite Hc, Hct. unfold get_channel. split; [|case_match; exact Hk'].
    case_match; reflexivity.
  - exact (scan_others_adds _ _ _ _ _ H Hk').
Qed.

Lemma scan_devices_adds net i devs sg sg' : scan_devices net i devs sg = Ok sg' -> adds (devs ≫= wires net i) sg sg'.
Proof.
  revert sg. induction devs as [|d devs IH]; intros sg H; [injection H as <-; destruct sg; by apply adds_nil|].
  cbn in H. apply bind_ok in H as (t & Ht%scan_device_adds & H). apply IH in H. cbn. by eapply adds_trans.
Qed.

Lemma scan_node_adds net i sg sg' : scan_node net i sg = Ok sg' -> adds (node_wires net i) sg sg'.
Proof.
  destruct sg as [s g]. unfold scan_node, node_wires. destruct (net_nodes net !! i) as [n|]; [|done]. cbn [or_raise mbind result_bind].
  intros H. apply bind_ok in H as (s1 & H1%get_node_ends & H). apply bind_ok in H as (sg2 & H2 & H). apply scan_devices_adds in H.
  assert (adds [] (s, g) sg2) as Ha; [|by apply (adds_trans [] _ _ sg2)].
  destruct (mobility n) as [pos|]; [|injection H2 as <-; by apply adds_nil].
  apply bind_ok in H2 as (s2 & Hs2%change_node_ends & H2). apply bind_ok in H2 as (p & _ & H2).
  apply bind_ok in H2 as (s3 & Hs3%set_position_ends & [= <-]). apply adds_nil.
  destruct H1, Hs2, Hs3. split; congruence.
Qed.

Lemma scan_nodes_adds net ids sg sg' : scan_nodes net ids sg = Ok sg' -> adds (ids ≫= node_wires net) sg sg'.
Proof.
  revert sg. induction ids as [|i ids IH]; intros sg H; [injection H as <-; destruct sg; by apply adds_nil|].
  cbn in H. apply bind_ok in H as (t & Ht%scan_node_adds & H). apply IH in H. cbn. by eapply adds_trans.
Qed.

(** ** The scan returns *)

(** A node that no one has labelled, resized or given an icon. *)
Definition plain_node (n : canvas_node) : Prop := n_label n = None /\ n_label_pos n = None /\ n_size n = DEFAULT_NODE_SIZE /\ n_icon n = None.

(** During the scan: the graph has nodes and channels that are there, and no node that
    knows its position. *)
Record scan_ok (net : network) (sg : scene * graph) : Prop := ScanOk {
  y_plain : forall i n, nodes sg.1 !! i = Some n -> plain_node n;
  y_there : forall e, e ∈ g_nodes sg.2 -> is_Some (position_of e sg.1);
  y_free : forall i, ANode i ∈ g_nodes sg.2 -> mobile net i = false
}.

(** What comes later keeps the positions of all but some. *)
Definition grows (moved : endpoint -> Prop) (sg sg' : scene * graph) : Prop :=
  (forall e p, position_of e sg.1 = Some p -> is_Some (position_of e sg'.1) /\ (~ moved e -> position_of e sg'.1 = Some p)) /\
  forall e, e ∈ g_nodes sg.2 -> e ∈ g_nodes sg'.2.
Notation nothing := (fun _ : endpoint => False).

Lemma extends_refl moved sg : grows moved sg sg.
Proof. split; [|done]. intros e p He. split; [by exists p|done]. Qed.
Lemma extends_trans m1 m2 sg1 sg2 sg3 : (forall e, m1 e -> m2 e) -> grows m1 sg1 sg2 -> grows m2 sg2 sg3 -> grows m2 sg1 sg3.
Proof.
  intros Hm [H1 G1] [H2 G2]. split; [|auto]. intros e p He. destruct (H1 e p He) as [[q Hq] Hp].
  destruct (H2 e q Hq) as [Hs Hp2]. split; [done|]. intros Hn. rewrite Hp in Hq by auto. injection Hq as <-. auto.
Qed.

Lemma plain_look n : plain_node n -> exists a, look n = Ok a.
Proof.
  intros (_ & _ & Hs & Hi). unfold look. rewrite Hs, Hi.
  assert (exists x, transform_distance_simulation_to_canvas DEFAULT_NODE_SIZE = Ok (PFloat x)) as [x ->]
    by (eexists; vm_compute; reflexivity).
  cbn [mbind result_bind].
  assert (exists w, num_mul (PFloat x) (if n_selected n then frac 3 10 else frac 15 100) = Ok w) as [w ->]
    by (destruct (n_selected n); by eexists).
  by eexists.
Qed.

Lemma there_node i s : is_Some (nodes s !! i) <-> is_Some (position_of (ANode i) s).
Proof. cbn. by rewrite fmap_is_Some. Qed.

(** A plain node or a channel is put in place, and nothing else moves. *)
Lemma place_position e p s : is_Some (position_of e s) -> (forall i n, nodes s !! i = Some n -> plain_node n) ->
  exists s', place e p s = Ok s' /\ (forall i n, nodes s' !! i = Some n -> plain_node n) /\
    forall e', position_of e' s' = if decide (e' = e) then Some p else position_of e' s.
Proof.
  intros He Hp. destruct e as [i|c]; cbn [place].
  - apply there_node in He. unfold set_position. destruct (nodes s !! i) as [n|] eqn:Hn; [|by destruct He].
    cbn [or_raise mbind result_bind]. destruct (Hp i n Hn) as (H1 & H2 & H3 & H4). unfold icon_position, label_position. rewrite H2, H4. cbn [mbind result_bind].
    eexists. split; [done|]. rewrite update_links_same. set (s' := set_canvas_bounds _ _).
    assert (nodes s' = <[i := set_pos p None None n]> (nodes s)) as Hns by done.
    assert (channels s' = channels s) as Hcs by done. clearbody s'. split.
    + rewrite Hns. intros j m. destruct (decide (i = j)) as [<-|Hj]; [rewrite lookup_insert_eq; by intros [= <-]|].
      rewrite lookup_insert_ne by done. apply Hp.
    + intros [j|c]; cbn; rewrite ?Hns, ?Hcs; [|done]. destruct (decide (i = j)) as [<-|Hj].
      * by rewrite lookup_insert_eq, decide_True.
      * by rewrite lookup_insert_ne, decide_False by congruence.
  - unfold set_channel_position. destruct (channels s !! c) as [ch|] eqn:Hc; [|by destruct He; cbn in *; rewrite Hc in *].
    cbn [or_raise mbind result_bind]. eexists. split; [done|]. rewrite update_links_same. set (s' := set_links _ _).
    assert (nodes s' = nodes s) as Hns by done.
    assert (channels s' = <[c := Channel p (c_links ch)]> (channels s)) as Hcs by done. clearbody s'. split; [by rewrite Hns|].
    intros [j|d]; cbn; rewrite ?Hns, ?Hcs; [done|]. destruct (decide (c = d)) as [<-|Hd].
    + by rewrite lookup_insert_eq, decide_True.
    + by rewrite lookup_insert_ne, decide_False by congruence.
Qed.

Lemma set_position_plain net i p s g : scan_ok net (s, g) -> is_Some (nodes s !! i) ->
  exists s', set_position i p s = Ok s' /\ scan_ok net (s', g) /\ grows (fun e => e = ANode i) (s, g) (s', g) /\
    position_of (ANode i) s' = Some p.
Proof.
  intros [Hp Ht Hf] Hi%there_node. destruct (place_position (ANode i) p s Hi Hp) as (s' & Hs & Hp' & Hpos).
  exists s'. split; [exact Hs|].
  assert (forall e, is_Some (position_of e s) -> is_Some (position_of e s')) as Hsome by (intros e; rewrite Hpos; case_decide; eauto).
  split; [split; cbn [fst snd]|split; [split; [|done]|by rewrite Hpos, decide_True]].
  - exact Hp'.
  - intros e He. by apply Hsome, Ht.
  - apply Hf.
  - cbn [fst]. intros e q He. split; [apply Hsome; eauto|]. intros Hne. by rewrite Hpos, decide_False.
Qed.

Lemma set_color_plain net c i s g : scan_ok net (s, g) -> is_Some (nodes s !! i) ->
  exists s', set_color c i s = Ok s' /\ scan_ok net (s', g) /\ grows nothing (s, g) (s', g).
Proof.
  intros [Hp Ht Hf] [n Hn]. unfold set_color, change_node. rewrite Hn. cbn [or_raise mbind result_bind].
  set (n' := Node _ _ _ _ c _ _ _ _ _). assert (plain_node n') as Hpl by by destruct (Hp i n Hn).
  unfold update_appearance. cbn [nodes set_nodes_map]. rewrite lookup_insert_eq. cbn [or_raise mbind result_bind].
  destruct (plain_look n' Hpl) as [a ->]. cbn [mbind result_bind]. destruct Hpl as (H1 & H2 & H3 & H4).
  cbn [set_item n_label]. rewrite H1. eexists. split; [done|]. rewrite insert_insert_eq. set (s' := set_nodes_map _ _).
  assert (forall e, position_of e s' = position_of e s) as Hpos.
  { intros [j|d]; [|done]. cbn. destruct (decide (i = j)) as [<-|Hj]; [by rewrite lookup_insert_eq, Hn|by rewrite lookup_insert_ne]. }
  split; [split; cbn [fst snd]|split; [|done]].
  - intros j m. cbn. destruct (decide (i = j)) as [<-|Hj]; [rewrite lookup_insert_eq; by intros [= <-]|].
    rewrite lookup_insert_ne by done. apply Hp.
  - intros e He. rewrite Hpos. by apply Ht.
  - apply Hf.
  - cbn [fst]. intros e q He. rewrite Hpos. eauto.
Qed.

Lemma new_node_plain : exists n, new_node = Ok n /\ plain_node n.
Proof. eexists. by split; [vm_compute; reflexivity|]. Qed.

(** Any change that only adds nodes and channels, or links. *)
Lemma scan_ok_more net s s' g : scan_ok net (s, g) -> (forall i n, nodes s' !! i = Some n -> plain_node n) ->
  (forall e p, position_of e s = Some p -> position_of e s' = Some p) ->
  scan_ok net (s', g) /\ grows nothing (s, g) (s', g).
Proof.
  intros [Hp Ht Hf] Hp' Hpos. split; [split; cbn [fst snd]|split; [|done]]; [done| |done|].
  - intros e [p He]%Ht. rewrite (Hpos e p He). eauto.
  - cbn [fst]. intros e p He. rewrite (Hpos e p He). eauto.
Qed.

Lemma get_node_plain net i s g : scan_ok net (s, g) ->
  exists s', get_node i s = Ok s' /\ scan_ok net (s', g) /\ grows nothing (s, g) (s', g) /\ is_Some (nodes s' !! i).
Proof.
  intros Hok. unfold get_node. destruct (nodes s !! i) as [n|] eqn:Hn.
  { exists s. split; [done|]. split; [done|]. split; [apply extends_refl|by rewrite Hn]. }
  destruct new_node_plain as (n & -> & Hpl). cbn [mbind result_bind]. eexists. split; [done|].
  match goal with |- ?P /\ ?Q /\ ?R => assert (P /\ Q) as [H1 H2]; [|split; [exact H1|split; [exact H2|]]] end;
    [|cbn; rewrite lookup_insert_eq; eauto].
  apply scan_ok_more; [done| |].
  - cbn. intros j m. destruct (decide (i = j)) as [<-|Hj]; [rewrite lookup_insert_eq; by intros [= <-]|].
    rewrite lookup_insert_ne by done. apply (y_plain _ _ Hok).
  - intros [j|c] p; [|done]. cbn. destruct (decide (i = j)) as [<-|Hj]; [by rewrite Hn|by rewrite lookup_insert_ne].
Qed.

Lemma create_link_plain net i e s g : scan_ok net (s, g) ->
  scan_ok net (create_link i e s, g) /\ grows nothing (s, g) (create_link i e s, g).
Proof.
  intros Hok. apply scan_ok_more; [done| |].
  - assert (forall k e' t, (forall j n, nodes t !! j = Some n -> plain_node n) -> forall j n, nodes (attach k e' t) !! j = Some n -> plain_node n) as Ha.
    { intros k [a|c] t Ht j n; [|apply Ht]. cbn. destruct (decide (a = j)) as [<-|Hj].
      - rewrite lookup_alter_eq. destruct (nodes t !! a) as [m|] eqn:Hm; [|done]. intros [= <-]. by destruct (Ht a m Hm).
      - rewrite lookup_alter_ne by done. apply Ht. }
    unfold create_link. do 2 apply Ha. apply (y_plain _ _ Hok).
  - intros e' p He'. unfold create_link. rewrite !position_attach. by destruct e'.
Qed.

(** More nodes in the graph, which are there and have no position of their own. *)
Lemma scan_ok_graph net s g g' : scan_ok net (s, g) ->
  (forall e, e ∈ g_nodes g' -> e ∈ g_nodes g \/ (is_Some (position_of e s) /\ forall i, e = ANode i -> mobile net i = false)) ->
  (forall e, e ∈ g_nodes g -> e ∈ g_nodes g') -> scan_ok net (s, g') /\ grows nothing (s, g) (s, g').
Proof.
  intros [Hp Ht Hf] Hnew Hold. split; [split; cbn [fst snd] in *|split; [|done]]; [done| | |].
  - intros e He. destruct (Hnew e He) as [?|[? _]]; auto.
  - intros i He. destruct (Hnew _ He) as [?|[_ Hm]]; auto.
  - intros e p He. cbn [fst] in *. eauto.
Qed.

Lemma add_node_in e a g : e ∈ g_nodes (graph_node a g) <-> e ∈ g_nodes g \/ e = a.
Proof. unfold graph_node. case_decide; cbn; set_solver. Qed.
Lemma add_edge_in e a b g : e ∈ g_nodes (graph_edge a b g) <-> e ∈ g_nodes g \/ e = a \/ e = b.
Proof. unfold graph_edge. case_decide; cbn; rewrite !add_node_in; tauto. Qed.

(** A step of the scan that returns, goes on from a good state to a good state and
    moves only some nodes. *)
Definition scans (net : network) (moved : endpoint -> Prop) (sg : scene * graph) (r : res (scene * graph)) : Prop :=
  exists sg', r = Ok sg' /\ scan_ok net sg' /\ grows moved sg sg'.

Lemma scans_bind net m1 m2 sg r (f : scene * graph -> res (scene * graph)) : scans net m1 sg r -> (forall e, m1 e -> m2 e) ->
  (forall sg', r = Ok sg' -> scan_ok net sg' -> grows m1 sg sg' -> scans net m2 sg' (f sg')) -> scans net m2 sg (r ≫= f).
Proof.
  intros (sg1 & -> & Hok & He) Hm Hf. destruct (Hf sg1 eq_refl Hok He) as (sg2 & Hr & Hok2 & He2).
  exists sg2. split; [done|]. split; [done|]. by eapply extends_trans.
Qed.

Lemma extends_there moved sg sg' e : grows moved sg sg' -> is_Some (position_of e sg.1) -> is_Some (position_of e sg'.1).
Proof. intros [H _] [p Hp]. by destruct (H e p Hp). Qed.

Lemma scan_other_scans net i o sg : scan_ok net sg -> is_Some (position_of (ANode i) sg.1) -> scans net nothing sg (scan_other net i o sg).
Proof.
  destruct sg as [s g]. intros Hok Hi. unfold scan_other.
  destruct (get_node_plain net o s g Hok) as (s1 & -> & Hok1 & He1 & Ho%there_node). cbn [mbind result_bind].
  case_decide as Hoi; [by exists (s1, g)|].
  set (g' := if (mobile net i || mobile net o)%bool then g else _).
  assert (scan_ok net (s1, g') /\ grows nothing (s1, g) (s1, g')) as [Hok2 He2].
  { subst g'. destruct (mobile net i) eqn:Hmi; cbn [orb]; [by split; [|apply extends_refl]|].
    destruct (mobile net o) eqn:Hmo; [by split; [|apply extends_refl]|].
    apply scan_ok_graph; [done| |]; intros e; rewrite add_edge_in; [|tauto]. intros [He|[->| ->]]; [by left|right; split..].
    - by apply (extends_there _ (s, g) (s1, g) _ He1).
    - by intros j [= <-].
    - done.
    - by intros j [= <-]. }
  destruct (create_link_plain net i (ANode o) s1 g' Hok2) as [Hok3 He3].
  eexists. split; [done|]. split; [done|].
  eapply extends_trans; [|exact He1|eapply extends_trans; [|exact He2|exact He3]]; done.
Qed.

Lemma scan_others_scans net i others sg : scan_ok net sg -> is_Some (position_of (ANode i) sg.1) ->
  scans net nothing sg (scan_others net i others sg).
Proof.
  revert sg. induction others as [|o others IH]; intros sg Hok Hi; [exists sg; split; [done|split; [done|apply extends_refl]]|].
  cbn [scan_others]. eapply scans_bind; [by apply scan_other_scans|done|].
  intros sg' _ Hok' He. apply IH; [done|]. by eapply extends_there.
Qed.

Lemma traits_plain net t s g : scan_ok net (s, g) -> scan_ok net (set_traits t s, g) /\ grows nothing (s, g) (set_traits t s, g).
Proof. intros Hok. apply scan_ok_more; [done|apply (y_plain _ _ Hok)|]. by intros []. Qed.

Lemma get_channel_plain net c s g : scan_ok net (s, g) -> scan_ok net (get_channel c s, g) /\ grows nothing (s, g) (get_channel c s, g).
Proof.
  intros Hok. unfold get_channel. destruct (channels s !! c) as [ch|] eqn:Hc; [by split; [|apply extends_refl]|].
  apply scan_ok_more; [done|apply (y_plain _ _ Hok)|]. intros [i|d] p; [done|]. cbn.
  destruct (decide (c = d)) as [<-|Hd]; [by rewrite Hc|by rewrite lookup_insert_ne].
Qed.

Lemma get_channel_there c s : is_Some (position_of (AChannel c) (get_channel c s)).
Proof.
  unfold get_channel. destruct (channels s !! c) as [ch|] eqn:Hc; cbn; [by rewrite Hc; eexists|].
  rewrite lookup_insert_eq. by eexists.
Qed.

Lemma scan_device_scans net i dev sg : scan_ok net sg -> is_Some (position_of (ANode i) sg.1) -> known (traits_table sg.1) ->
  (wired dev = true -> is_Some (dev_channel dev)) -> scans net nothing sg (scan_device net i dev sg).
Proof.
  destruct sg as [s g]. intros Hok Hi Hk Hw. unfold scan_device. unfold wired in Hw. rewrite <- (Hk (dev_type dev)) in Hw.
  cbn [fst] in Hw. destruct (lookup_netdevice_traits (dev_type dev) (traits_table s)) as [t table]. cbn [fst] in Hw.
  destruct (traits_plain net table s g Hok) as [Hok1 He1]. destruct (bool_decide _ || _)%bool.
  { eexists. split; [reflexivity|done]. }
  destruct (Hw eq_refl) as [c ->]. cbn [or_raise mbind result_bind].
  assert (is_Some (position_of (ANode i) (set_traits table s))) as Hi1 by (by apply (extends_there _ _ _ (ANode i) He1)).
  case_decide.
  - set (s1 := set_traits table s) in *. destruct (get_channel_plain net c s1 g Hok1) as [Hok2 He2].
    set (g' := if mobile net i then g else _).
    assert (scan_ok net (get_channel c s1, g') /\ grows nothing (get_channel c s1, g) (get_channel c s1, g')) as [Hok3 He3].
    { subst g'. destruct (mobile net i) eqn:Hmi; [by split; [|apply extends_refl]|].
      apply scan_ok_graph; [done| |]; intros e; rewrite add_edge_in; [|tauto]. intros [He|[->| ->]]; [by left|right; split..].
      - by apply (extends_there _ _ _ (ANode i) He2).
      - by intros j [= <-].
      - apply get_channel_there.
      - done. }
    destruct (create_link_plain net i (AChannel c) _ g' Hok3) as [Hok4 He4]. eexists. split; [reflexivity|]. split; [done|].
    eapply extends_trans; [|exact He1|]; [done|]. eapply extends_trans; [|exact He2|]; [done|].
    eapply extends_trans; [|exact He3|exact He4]. done.
  - destruct (scan_others_scans net i (default [] (net_channels net !! c)) _ Hok1 Hi1) as (sg' & -> & Hok2 & He2).
    exists sg'. split; [done|]. split; [done|]. eapply extends_trans; [|exact He1|exact He2]. done.
Qed.

Lemma scan_devices_scans net i devs sg : scan_ok net sg -> is_Some (position_of (ANode i) sg.1) -> known (traits_table sg.1) ->
  (forall d, d ∈ devs -> wired d = true -> is_Some (dev_channel d)) -> scans net nothing sg (scan_devices net i devs sg).
Proof.
  revert sg. induction devs as [|d devs IH]; intros sg Hok Hi Hk Hw; [exists sg; split; [done|split; [done|apply extends_refl]]|].
  cbn [scan_devices]. eapply scans_bind; [apply scan_device_scans; [done..|]|done|].
  - apply Hw. constructor.
  - intros sg' Hr Hok' He. apply IH; [done|by eapply extends_there| |].
    + by apply (scan_device_adds _ _ _ _ _ Hr).
    + intros d' Hd'. apply Hw. by constructor.
Qed.

(** Where a scanned node is in the end: where its mobility model has it, or free for
    the layout. *)
Definition in_place (net : network) (sg : scene * graph) (i : nat) : Prop :=
  forall n, net_nodes net !! i = Some n ->
  match mobility n with
  | Some pos => exists p, transform_point_simulation_to_canvas pos = Ok p /\ position_of (ANode i) sg.1 = Some p
  | None => ANode i ∈ g_nodes sg.2
  end.

Record net_ok (net : network) : Prop := NetOk {
  b_channels : forall i n d, net_nodes net !! i = Some n -> d ∈ devices n -> wired d = true -> is_Some (dev_channel d);
  b_positions : forall i n pos, net_nodes net !! i = Some n -> mobility n = Some pos ->
    exists p, transform_point_simulation_to_canvas pos = Ok p
}.

Lemma placed_extends net moved sg sg' i : in_place net sg i -> grows moved sg sg' -> ~ moved (ANode i) -> in_place net sg' i.
Proof.
  intros Hp [He Hg] Hm n Hn. specialize (Hp n Hn). destruct (mobility n) as [pos|]; [|auto].
  destruct Hp as (p & Ht & Hp). exists p. split; [done|]. by apply He.
Qed.

Lemma scan_node_scans net i n sg : net_ok net -> net_nodes net !! i = Some n -> scan_ok net sg -> known (traits_table sg.1) ->
  exists sg', scan_node net i sg = Ok sg' /\ scan_ok net sg' /\ grows (fun e => e = ANode i) sg sg' /\ in_place net sg' i.
Proof.
  destruct sg as [s g]. intros Hnet Hn Hok Hk. unfold scan_node. rewrite Hn. cbn [or_raise mbind result_bind].
  destruct (get_node_plain net i s g Hok) as (s1 & H1 & Hok1 & He1 & Hi1). rewrite H1. cbn [mbind result_bind].
  assert (exists sg2, match mobility n with
       | Some pos => s ← set_color red_rgba i s1; p ← transform_point_simulation_to_canvas pos; s ← set_position i p s; Ok (s, g)
       | None => Ok (s1, graph_node (ANode i) g) end = Ok sg2 /\ scan_ok net sg2 /\ grows (fun e => e = ANode i) (s1, g) sg2 /\
       in_place net sg2 i /\ same_ends s1 sg2.1) as (sg2 & -> & Hok2 & He2 & Hp2 & Hse).
  { destruct (mobility n) as [pos|] eqn:Hm.
    - destruct (set_color_plain net red_rgba i s1 g Hok1 Hi1) as (s2 & H2 & Hok2 & He2). rewrite H2. cbn [mbind result_bind].
      destruct (b_positions _ Hnet i n pos Hn Hm) as [p Hp]. rewrite Hp. cbn [mbind result_bind].
      assert (is_Some (nodes s2 !! i)) as Hi2 by (apply there_node; by apply (extends_there _ _ _ (ANode i) He2), there_node).
      destruct (set_position_plain net i p s2 g Hok2 Hi2) as (s3 & H3 & Hok3 & He3 & Hp3). rewrite H3. cbn [mbind result_bind].
      exists (s3, g). split; [done|]. split; [done|]. split; [by eapply extends_trans; [|exact He2|exact He3]|].
      split; [intros n' Hn'; assert (n' = n) as -> by congruence; rewrite Hm; by exists p|].
      apply change_node_ends in H2 as []. apply set_position_ends in H3 as []. split; cbn; congruence.
    - exists (s1, graph_node (ANode i) g).
      destruct (scan_ok_graph net s1 g (graph_node (ANode i) g) Hok1) as [Hok2 He2].
      + intros e. rewrite add_node_in. intros [He| ->]; [by left|right]. split; [by apply there_node|].
        intros j [= <-]. unfold mobile. rewrite Hn, Hm. done.
      + intros e He. apply add_node_in. by left.
      + split; [done|]. split; [done|]. split; [eapply extends_trans; [|apply (extends_refl nothing)|]; [by intros e []|]|split; [|done]].
        * destruct He2 as [He2 Hg2]. split; [|done]. intros e q Hq. destruct (He2 e q Hq). auto.
        * intros n' Hn'. assert (n' = n) as -> by congruence. rewrite Hm. apply add_node_in. by right. }
  cbn [mbind result_bind].
  destruct (scan_devices_scans net i (devices n) sg2 Hok2) as (sg' & -> & Hok' & He').
  - apply (extends_there _ _ _ _ He2). by apply there_node.
  - destruct Hse as [_ ->]. by destruct (get_node_ends _ _ _ H1) as [_ ->].
  - intros d Hd. by apply (b_channels _ Hnet i n).
  - exists sg'. split; [done|]. split; [done|].
    assert (grows (fun e => e = ANode i) sg2 sg') as He'' by (eapply extends_trans; [|exact He'|apply extends_refl]; by intros e []).
    split; [|apply (placed_extends net nothing sg2 sg'); [exact Hp2|exact He'|by intros []]]. eapply extends_trans; [|exact He1|]; [done|].
    eapply extends_trans; [|exact He2|exact He'']. done.
Qed.

Lemma scan_nodes_scans net ids sg : net_ok net -> scan_ok net sg -> known (traits_table sg.1) -> NoDup ids ->
  Forall (fun i => is_Some (net_nodes net !! i)) ids ->
  exists sg', scan_nodes net ids sg = Ok sg' /\ scan_ok net sg' /\ grows (fun e => exists i, e = ANode i /\ i ∈ ids) sg sg' /\
    Forall (in_place net sg') ids.
Proof.
  intros Hnet. revert sg. induction ids as [|i ids IH]; intros sg Hok Hk Hnd Hin.
  { exists sg. split; [done|]. split; [done|]. split; [apply extends_refl|constructor]. }
  apply Forall_cons in Hin as [[n Hn] Hin]. apply NoDup_cons in Hnd as [Hi Hnd]. cbn [scan_nodes].
  destruct (scan_node_scans net i n sg Hnet Hn Hok Hk) as (sg1 & H1 & Hok1 & He1 & Hp1). rewrite H1. cbn [mbind result_bind].
  destruct (IH sg1 Hok1) as (sg2 & H2 & Hok2 & He2 & Hp2); [by apply (scan_node_adds _ _ _ _ H1)|done..|].
  exists sg2. split; [done|]. split; [done|]. split.
  - assert (grows (fun e => exists j, e = ANode j /\ j ∈ i :: ids) sg1 sg2) as He2'.
    { eapply extends_trans; [|exact He2|apply extends_refl]. intros e (j & -> & Hj). exists j. split; [done|by constructor]. }
    eapply extends_trans; [|exact He1|exact He2']. intros e ->. exists i. split; [done|constructor].
  - constructor; [|done]. eapply placed_extends; [exact Hp1|exact He2|]. intros (j & [= <-] & Hj). done.
Qed.

(** The layout moves the nodes of the graph and no others. *)
Lemma place_all_positions position es s : Forall (fun e => is_Some (position_of e s)) es ->
  (forall i n, nodes s !! i = Some n -> plain_node n) ->
  exists s', place_all position es s = Ok s' /\
    forall e, position_of e s' = if decide (e ∈ es) then Some (position e) else position_of e s.
Proof.
  revert s. induction es as [|e es IH]; intros s Hes Hp; [by exists s|]. apply Forall_cons in Hes as [He Hes]. cbn [place_all].
  destruct (place_position e (position e) s He Hp) as (s1 & H1 & Hp1 & Hpos1). rewrite H1. cbn [mbind result_bind].
  destruct (IH s1) as (s2 & H2 & Hpos2); [|done|].
  { eapply Forall_impl; [exact Hes|]. cbn. intros e' He'. rewrite Hpos1. case_decide; [by eexists|done]. }
  exists s2. split; [done|]. intros e'. rewrite Hpos2. destruct (decide (e' ∈ es)) as [Hin|Hin].
  - rewrite decide_True by (by constructor). done.
  - rewrite Hpos1. destruct (decide (e' = e)) as [->|Hne].
    + rewrite decide_True by constructor. done.
    + rewrite decide_False; [done|]. intros [?|?]%elem_of_cons; done.
Qed.

(** C24: A scan of a network whose wired devices have channels ends.  There is a link
    for every device on a channel with more than two, to the channel, and otherwise
    one to each other node of the channel, in the order of the nodes and devices.
    Nodes that have a position are where it says, the others where the layout puts
    them. *)
Theorem scan_topology_spec layout net : net_ok net ->
  exists s0 g s, let n := length (net_nodes net) in
    scan_nodes net (seq 0 n) (empty_scene n, Graph [] []) = Ok (s0, g) /\
    scan_topology layout net (empty_scene n) = Ok s /\
    ends s = seq 0 n ≫= node_wires net /\
    forall i nd, net_nodes net !! i = Some nd ->
      match mobility nd with
      | Some pos => exists p, transform_point_simulation_to_canvas pos = Ok p /\ position_of (ANode i) s = Some p
      | None => position_of (ANode i) s = Some (layout g (ANode i))
      end.
Proof.
  intros Hnet. set (n := length (net_nodes net)). set (sg := (empty_scene n, Graph [] [])).
  assert (scan_ok net sg) as Hok.
  { split; unfold sg, empty_scene; cbn [fst snd nodes g_nodes]; [|intros e He; by apply not_elem_of_nil in He..].
    intros i m Hm. by rewrite lookup_empty in Hm. }
  assert (known (traits_table sg.1)) as Hk by (intros c; reflexivity).
  destruct (scan_nodes_scans net (seq 0 n) sg Hnet Hok Hk) as ([s0 g] & H0 & Hok0 & _ & Hpl).
  { apply NoDup_seq. }
  { apply Forall_seq. intros i Hi. apply lookup_lt_is_Some_2. lia. }
  destruct (place_all_positions (layout g) (g_nodes g) s0) as (s & Hs & Hpos).
  { apply Forall_forall. intros e He. by apply (y_there _ _ Hok0). }
  { apply (y_plain _ _ Hok0). }
  exists s0, g, s. cbn zeta. split; [done|]. split; [|split].
  - unfold scan_topology. fold n sg. rewrite H0. exact Hs.
  - destruct (scan_nodes_adds _ _ _ _ H0 Hk) as [He _]. destruct (place_all_ends _ _ _ _ Hs) as [-> _]. exact He.
  - intros i nd Hi. assert (i ∈ seq 0 n) as Hin by (apply elem_of_seq; apply lookup_lt_Some in Hi; lia).
    rewrite Forall_forall in Hpl. specialize (Hpl i Hin nd Hi). rewrite Hpos. cbn [fst snd] in Hpl.
    destruct (mobility nd) as [pos|] eqn:Hm; [|by rewrite decide_True].
    rewrite decide_False; [done|]. intros Hg%(y_free _ _ Hok0). unfold mobile in Hg. by rewrite Hi, Hm in Hg.
Qed.

(** ** Examples *)

(** Two nodes and a cable, a third node that knows its position, and three nodes on a
    bus. *)
Definition cable : ns3_device := Device (txt "PointToPointNetDevice") (Some 0%nat).
Definition bus : ns3_device := Device (txt "CsmaNetDevice") (Some 1%nat).
Definition radio : ns3_device := Device (txt "AnotherNetDevice") None.
Definition demo_network : network :=
  Network [Ns3Node None [cable; bus]; Ns3Node None [cable; radio; bus]; Ns3Node (Some (frac 1 1, frac 2 1)) [bus]]
    (list_to_map [(0%nat, [0%nat; 1%nat]); (1%nat, [0%nat; 1%nat; 2%nat])]).
Definition demo_layout (_ : graph) (e : endpoint) : point :=
  match e with ANode i => (PInt (Z.of_nat i), PInt 7) | AChannel c => (PInt 100, PInt (Z.of_nat c)) end.

(** [net_ok] can be decided. *)
Definition net_okb (net : network) : bool :=
  forallb (fun n =>
    forallb (fun d => implb (wired d) (bool_decide (dev_channel d <> None))) (devices n) &&
    match mobility n with Some pos => is_ok (transform_point_simulation_to_canvas pos) | None => true end) (net_nodes net).
Lemma net_okb_ok net : net_okb net = true -> net_ok net.
Proof.
  intros H. unfold net_okb in H. rewrite forallb_forall in H.
  assert (forall i n, net_nodes net !! i = Some n -> In n (net_nodes net)) as Hin.
  { intros i n Hi. apply list_elem_of_In. by eapply list_elem_of_lookup_2. }
  split.
  - intros i n d Hi%Hin Hd Hw. apply H, andb_true_iff in Hi as [Hi _]. rewrite forallb_forall in Hi.
    apply list_elem_of_In, Hi in Hd. rewrite Hw in Hd. apply bool_decide_eq_true in Hd.
    destruct (dev_channel d) as [c|]; [exists c; reflexivity|destruct Hd; reflexivity].
  - intros i n pos Hi%Hin Hm. apply H, andb_true_iff in Hi as [_ Hi]. rewrite Hm in Hi.
    destruct (transform_point_simulation_to_canvas pos) as [p| |]; [by exists p|done..].
Qed.
Lemma demo_network_ok : net_ok demo_network.
Proof. apply net_okb_ok. vm_compute. reflexivity. Qed.

Lemma scan_topology_spec_witness : exists s0 g s, scan_nodes demo_network [0; 1; 2]%nat (empty_scene 3, Graph [] []) = Ok (s0, g) /\
  scan_topology demo_layout demo_network (empty_scene 3) = Ok s /\
  ends s = [(0, ANode 1); (0, AChannel 1); (1, ANode 0); (1, AChannel 1); (2, AChannel 1)]%nat.
Proof.
  destruct (scan_topology_spec demo_layout demo_network demo_network_ok) as (s0 & g & s & H0 & Hs & He & _).
  exists s0, g, s. split; [exact H0|]. split; [exact Hs|]. rewrite He. vm_compute. reflexivity.
Defined.

(** A cable is found from both of its ends and gets two links. *)
Definition cable_network : network :=
  Network [Ns3Node None [cable]; Ns3Node None [cable]] {[0%nat := [0%nat; 1%nat]]}.
Example cable_twice : ends <$> scan_topology demo_layout cable_network (empty_scene 2) = Ok [(0, ANode 1); (1, ANode 0)]%nat.
Proof. vm_compute. reflexivity. Qed.

(** A bus between nodes that all know their positions is not in the graph and stays
    at the origin. *)
Definition bus_network : network :=
  Network [Ns3Node (Some (frac 1 1, frac 5 1)) [bus]; Ns3Node (Some (frac 3 1, frac 5 1)) [bus]; Ns3Node (Some (frac 2 1, frac 5 1)) [bus]]
    {[1%nat := [0%nat; 1%nat; 2%nat]]}.
Example bus_at_origin : position_of (AChannel 1) <$> scan_topology demo_layout bus_network (empty_scene 3) = Ok (Some (zero, zero)).
Proof. vm_compute. reflexivity. Qed.
