(* ===== verification/VizArrows.v ===== *)
(** * Transmissions and drops on the canvas ([_update_transmissions_view] and
    [_update_drops_view] of [src/visualizer/visualizer/core.py]): averages of the
    samples in memory, and arrows with labels that are used again.

    Arrows are shared by the lists that hold them: a pool is a list of positions in the
    list of all items.  Drawing may raise (the logarithm of a rate of zero), and what was
    changed until then stays, so the views are calls of type [stateful].  [math.log], [math.atan2] and the geometry of the screen are
    parameters. *)
From S2P Require Import Prelude PyNum PyString PyFloat PyDict VizSvg VizScene.
#[local] Open Scope Z_scope.

Record transmission := Transmission { transmitter : nat; receiver : nat; tx_bytes : Z }.
Record packet_drop := PacketDrop { dropper : nat; drop_bytes : Z }.

(** ** Averages *)

Section averages.
Context {K S : Type} `{Countable K} (key : S -> K) (bytes : S -> Z).

Definition add_sample (d : gmap K (Z * Z)) (x : S) : gmap K (Z * Z) :=
  let '(b, count) := default (0, 0) (d !! key x) in <[key x := (b + bytes x, count + 1)]> d.
Definition average (memory : list (list S)) : gmap K (Z * Z) := foldl (foldl add_sample) ∅ memory.

Definition samples_of (k : K) (l : list S) : list S := filter (fun x => key x = k) l.
Definition total (l : list S) : Z := foldr Z.add 0 (bytes <$> l).

Lemma total_app l1 l2 : total (l1 ++ l2) = total l1 + total l2.
Proof. unfold total. induction l1 as [|x l1 IH]; cbn in *; [done|]. rewrite IH. lia. Qed.

Lemma average_concat memory : average memory = foldl add_sample ∅ (concat memory).
Proof.
  unfold average. generalize (∅ : gmap K (Z * Z)). induction memory as [|l memory IH]; intros d; [done|]. cbn.
  by rewrite IH, foldl_app.
Qed.

Lemma add_sample_lookup d x k : add_sample d x !! k =
  if decide (key x = k) then Some ((default (0, 0) (d !! k)).1 + bytes x, (default (0, 0) (d !! k)).2 + 1) else d !! k.
Proof.
  unfold add_sample. destruct (default (0, 0) (d !! key x)) as [b c] eqn:Hd. case_decide as Hk.
  - subst k. by rewrite lookup_insert_eq, Hd.
  - by rewrite lookup_insert_ne.
Qed.

(** A key is there when it has samples, with their bytes and their number. *)
Lemma average_lookup memory k : average memory !! k =
  match samples_of k (concat memory) with [] => None | l => Some (total l, zlen l) end.
Proof.
  rewrite average_concat. induction (concat memory) as [|x l IH] using rev_ind; [done|].
  rewrite foldl_app. cbn [foldl]. rewrite add_sample_lookup. unfold samples_of in *. rewrite filter_app, filter_cons, filter_nil.
  case_decide as Hk; [|by rewrite app_nil_r]. rewrite IH.
  destruct (filter (fun y => key y = k) l) as [|y l']; [cbn; do 2 f_equal; lia|].
  rewrite <- app_comm_cons. cbn [from_option id fst snd]. rewrite app_comm_cons, total_app. unfold zlen. rewrite length_app.
  do 2 f_equal; cbn; lia.
Qed.
End averages.

(** ** Arrows *)

Inductive rate_text := ToRight (kbps : text) | ToLeft (kbps : text) | Plain (kbps : text).
Inductive anchor := AnchorS | AnchorN | AnchorCenter.

(** An arrow and its label. *)
Record arrow := Arrow {
  visible : bool; arrow_width : num; arrow_points : option (point * point); label_visible : bool;
  label_font : text; label_text : rate_text; label_anchor : anchor; label_xy : point; label_transform : option (point * num) }.
Definition hide (a : arrow) : arrow :=
  Arrow false (arrow_width a) (arrow_points a) false (label_font a) (label_text a) (label_anchor a) (label_xy a) (label_transform a).
Definition show_line (a : arrow) : arrow :=
  Arrow true (arrow_width a) (arrow_points a) (label_visible a) (label_font a) (label_text a) (label_anchor a) (label_xy a) (label_transform a).
Definition set_width (x : num) (a : arrow) : arrow :=
  Arrow (visible a) x (arrow_points a) (label_visible a) (label_font a) (label_text a) (label_anchor a) (label_xy a) (label_transform a).
Definition set_points (p q : point) (a : arrow) : arrow :=
  Arrow (visible a) (arrow_width a) (Some (p, q)) (label_visible a) (label_font a) (label_text a) (label_anchor a) (label_xy a) (label_transform a).
Definition show_label (font : text) (a : arrow) : arrow :=
  Arrow (visible a) (arrow_width a) (arrow_points a) true font (label_text a) (label_anchor a) (label_xy a) (label_transform a).
Definition write_label (t : rate_text) (an : anchor) (p : point) (a : arrow) : arrow :=
  Arrow (visible a) (arrow_width a) (arrow_points a) (label_visible a) (label_font a) t an p (label_transform a).
Definition set_transform (l : point) (angle : num) (a : arrow) : arrow :=
  Arrow (visible a) (arrow_width a) (arrow_points a) (label_visible a) (label_font a) (label_text a) (label_anchor a) (label_xy a) (Some (l, angle)).
(** A new pair of items: the width is given, the label is empty. *)
Definition new_arrow : arrow := Arrow true (frac 2 1) None true [] (Plain []) AnchorCenter (zero, zero) None.

(** All items of one kind and the list [_transmission_arrows] or [_drop_arrows]. *)
Record arrows := Arrows { items : list arrow; pool : list nat }.

Definition hide_all (ks : list nat) (l : list arrow) : list arrow := foldl (fun l k => alter hide k l) l ks.

(** [old_arrows.pop()], or a new pair. *)
Definition take_arrow (old : list nat) (l : list arrow) : nat * list nat * list arrow :=
  match last old with
  | Some k => (k, take (length old - 1) old, l)
  | None => (length l, [], l ++ [new_arrow])
  end.

Section show.
(** The factor [k], the nodes that are asked for and may be new, and what is drawn for a
    key between them; each can raise. *)
Context {K : Type} (factor : res num) (ask : K -> stateful scene unit) (draw : num -> K -> Z * Z -> scene -> stateful arrow unit).

(** [old_arrows] and [new_arrows] while the arrows are drawn. *)
Record drawing := Drawing { dr_scene : scene; dr_items : list arrow; dr_old : list nat; dr_new : list nat }.

Definition in_scene {A} (m : stateful scene A) : stateful drawing A := fun d =>
  let '(s, r) := m (dr_scene d) in (Drawing s (dr_items d) (dr_old d) (dr_new d), r).
Definition pop_arrow : stateful drawing nat := fun d =>
  let '(k, old, l) := take_arrow (dr_old d) (dr_items d) in (Drawing (dr_scene d) l old (dr_new d), Ok k).
Definition on_arrow {A} (i : nat) (m : stateful arrow A) : stateful drawing A := fun d =>
  match dr_items d !! i with
  | Some a => let '(a, r) := m a in (Drawing (dr_scene d) (<[i := a]> (dr_items d)) (dr_old d) (dr_new d), r)
  | None => (d, Raise IndexError)
  end.
Definition append_new (i : nat) (d : drawing) : drawing := Drawing (dr_scene d) (dr_items d) (dr_old d) (dr_new d ++ [i]).

Definition show_one (k : num) (entry : K * (Z * Z)) : stateful drawing unit :=
  _ ← in_scene (ask entry.1);
  i ← pop_arrow;
  s ← st_get dr_scene;
  _ ← on_arrow i (draw k entry.1 entry.2 s);
  st_set (append_new i).
Definition show_all (entries : list (K * (Z * Z))) : stateful drawing unit :=
  k ← st_call factor; st_each (show_one k) entries.

(** The list of the arrows is only set at the end: after an exception it is the old one,
    without those that were taken from it. *)
Definition show_partly (entries : list (K * (Z * Z))) : stateful (arrows * scene) unit := fun '(ar, s) =>
  let '(d, r) := show_all entries (Drawing s (hide_all (pool ar) (items ar)) (pool ar) []) in
  (Arrows (dr_items d) (if is_ok r then dr_new d ++ dr_old d else dr_old d), dr_scene d, r).
End show.

(** [d.items()] *)
Definition dict_items {K V} `{DictOrder K} (d : gmap K V) : list (K * V) := omap (fun k => pair k <$> d !! k) (dict_keys d).

(** [Node.get_position], of a node that is there. *)
Definition node_position (i : nat) (s : scene) : res point := or_raise KeyError (position_of (ANode i) s).

Section view.
(** The natural logarithm of a positive number, [math.atan2], and the middle of the part
    of a line that is on the screen. *)
Context (ln : num -> num) (atan2 : num -> num -> num) (over_line : point -> point -> res point).
Context (node_size sample_period : num).

Definition math_log (x : num) : res num := if num_leb x (PInt 0) then Raise ValueError else Ok (ln x).

Definition PI_OVER_2 : num := frac 884279719003555 562949953421312.
Definition BITRATE_FONT_SIZE : num := PInt 10.

(** [max(0.1, math.log(float(bytes)/count/self.sample_period)*k)] *)
Definition line_width_of (k : num) (bytes count : Z) : res num :=
  b ← py_float (PInt bytes); q ← num_div b (PInt count); q ← num_div q sample_period;
  x ← math_log q; x ← num_mul x k; Ok (num_max (frac 1 10) x).
Definition kbps_of (bytes count : Z) : res num :=
  b ← py_float (PInt (bytes * 8)); q ← num_div b (frac 1000 1); q ← num_div q (PInt count); num_div q sample_period.
Definition font_of (digits : nat) (k : num) : res text :=
  x ← num_mul BITRATE_FONT_SIZE k; x ← num_add (PInt 1) x; n ← py_int x; t ← fmt digits n; Ok (txt "Sans Serif " ++ t).

(** What the arrow and the label of a sum show: the width, the text and its font. *)
Record rate := Rate { r_width : num; r_kbps : text; r_font : text }.
Definition rate_of (digits : nat) (sum : Z * Z) : res rate :=
  let '(bytes, count) := sum in
  k ← num_div node_size (PInt 5);
  w ← line_width_of k bytes count;
  kbps ← kbps_of bytes count; t ← fmt 2 kbps;
  font ← font_of digits k;
  Ok (Rate w t font).

Definition ask_node (i : nat) : stateful scene unit := fun s =>
  match get_node i s with Ok s => (s, Ok ()) | Raise e => (s, Raise e) | NoFuel => (s, NoFuel) end.
Definition ask_nodes (key : nat * nat) : stateful scene unit := _ ← ask_node key.1; ask_node key.2.

Definition draw_transmission (k : num) (key : nat * nat) (sum : Z * Z) (s : scene) : stateful arrow unit :=
  let '(bytes, count) := sum in
  _ ← st_set show_line;
  width ← st_call (line_width_of k bytes count);
  _ ← st_set (set_width width);
  p1 ← st_call (node_position key.1 s); p2 ← st_call (node_position key.2 s);
  _ ← st_set (set_points p1 p2);
  kbps ← st_call (kbps_of bytes count); font ← st_call (font_of 6 k);
  _ ← st_set (show_label font);
  dy ← st_call (num_sub p2.2 p1.2); dx ← st_call (num_sub p2.1 p1.1);
  let angle := atan2 dy dx in
  t ← st_call (fmt 2 kbps);
  _ ← (if num_leb (num_opp PI_OVER_2) angle && num_leb angle PI_OVER_2
       then up ← st_call (num_div (num_opp width) (PInt 2)); st_set (write_label (ToRight t) AnchorS (PInt 0, up))
       else down ← st_call (num_div width (PInt 2)); st_set (write_label (ToLeft t) AnchorN (PInt 0, down)));
  l ← st_call (over_line p1 p2);
  st_set (set_transform l angle).

(** [edge_y]: the lower edge of the screen. *)
Definition draw_drop (edge_y k : num) (i : nat) (sum : Z * Z) (s : scene) : stateful arrow unit :=
  let '(bytes, count) := sum in
  _ ← st_set show_line;
  width ← st_call (line_width_of k bytes count);
  _ ← st_set (set_width width);
  p1 ← st_call (node_position i s);
  _ ← st_set (set_points p1 (p1.1, edge_y));
  font ← st_call (font_of 0 k); kbps ← st_call (kbps_of bytes count); t ← st_call (fmt 2 kbps);
  x ← st_call (num_add p1.1 p1.1); x ← st_call (num_div x (PInt 2));
  y ← st_call (num_add p1.2 edge_y); y ← st_call (num_div y (PInt 2));
  _ ← st_set (show_label font);
  st_set (write_label (Plain t) AnchorCenter (x, y)).

Context `{!DictOrder (nat * nat), !DictOrder nat}.

Definition arrow_factor : res num := num_div node_size (PInt 5).
(** The views up to an exception, and as a whole. *)
Definition transmissions_partly (memory : list (list transmission)) : stateful (arrows * scene) unit :=
  show_partly arrow_factor ask_nodes draw_transmission (dict_items (average (fun t => (transmitter t, receiver t)) tx_bytes memory)).
Definition drops_partly (edge_y : num) (memory : list (list packet_drop)) : stateful (arrows * scene) unit :=
  show_partly arrow_factor ask_node (draw_drop edge_y) (dict_items (average dropper drop_bytes memory)).
Definition update_transmissions_view (memory : list (list transmission)) (s : scene) (ar : arrows) : res (arrows * scene) :=
  st_result (transmissions_partly memory (ar, s)).
Definition update_drops_view (edge_y : num) (memory : list (list packet_drop)) (s : scene) (ar : arrows) : res (arrows * scene) :=
  st_result (drops_partly edge_y memory (ar, s)).
End view.

(** ** The pool of arrows *)

(** Every item is in the pool once, or is lost: in no pool. *)
Definition arrows_hold (lost : list nat) (ar : arrows) : Prop := lost ++ pool ar ≡ₚ seq 0 (length (items ar)).
Definition arrows_ok (ar : arrows) : Prop := arrows_hold [] ar.

Definition hidden (l : list arrow) (k : nat) : Prop := exists a, l !! k = Some a /\ visible a = false.

Lemma hide_all_length ks l : length (hide_all ks l) = length l.
Proof. unfold hide_all. revert l. induction ks as [|k ks IH]; intros l; [done|]. cbn. by rewrite IH, length_alter. Qed.
Lemma hide_hidden l k j : hidden l j -> hidden (alter hide k l) j.
Proof.
  intros (a & Ha & Hv). unfold hidden. destruct (decide (k = j)) as [<-|Hj].
  - rewrite list_lookup_alter_eq, Ha. cbn. eauto.
  - rewrite list_lookup_alter_ne by done. eauto.
Qed.
Lemma hide_all_hidden ks l k : k ∈ ks -> (k < length l)%nat -> hidden (hide_all ks l) k.
Proof.
  assert (forall js l, hidden l k -> hidden (hide_all js l) k) as Hkeep.
  { unfold hide_all. induction js as [|j js IH]; intros l'; [done|]. intros Hh. cbn. by apply IH, hide_hidden. }
  unfold hide_all. revert l. induction ks as [|j ks IH]; intros l; [by intros ?%not_elem_of_nil|]. cbn.
  intros [<-|Hk]%elem_of_cons Hl; [|apply IH; [done|by rewrite length_alter]].
  destruct (lookup_lt_is_Some_2 l k ltac:(lia)) as [a Ha]. apply Hkeep.
  exists (hide a). by rewrite list_lookup_alter_eq, Ha.
Qed.

Lemma take_arrow_spec old l k old' l' : take_arrow old l = (k, old', l') ->
  (old = old' ++ [k] /\ l' = l) \/ (old = [] /\ old' = [] /\ k = length l /\ l' = l ++ [new_arrow]).
Proof.
  unfold take_arrow. destruct (last old) as [j|] eqn:Hl.
  - intros [= <- <- <-]. left. split; [|done]. apply last_Some in Hl as [o ->].
    rewrite length_app. cbn. replace (length o + 1 - 1)%nat with (length o) by lia. by rewrite take_app_length.
  - apply last_None in Hl as ->. intros [= <- <- <-]. by right.
Qed.

Section show_spec.
Context {K : Type} (factor : res num) (ask : K -> stateful scene unit) (draw : num -> K -> Z * Z -> scene -> stateful arrow unit).
Context (k : num) (factor_ok : factor = Ok k).
(** What holds of the scene, what later scenes keep, and what an arrow shows of its
    entry in the scene of the time and in later ones. *)
Context (good_scene : scene -> Prop) (later : scene -> scene -> Prop) (good : K * (Z * Z) -> arrow -> scene -> Prop).
Context (later_refl : forall s, later s s) (later_trans : forall s1 s2 s3, later s1 s2 -> later s2 s3 -> later s1 s3).
Context (good_later : forall e a s s', good e a s -> later s s' -> good e a s').

(** Asking for nodes keeps the scene good; what is drawn without an exception is good. *)
Definition asks (e : K * (Z * Z)) : Prop := forall s s1 r, good_scene s -> ask e.1 s = (s1, r) -> good_scene s1 /\ later s s1.
Definition draws (e : K * (Z * Z)) : Prop := asks e /\ forall s s1 a a', good_scene s -> ask e.1 s = (s1, Ok ()) ->
  draw k e.1 e.2 s1 a = (a', Ok ()) -> good e a' s1 /\ visible a' = true.
Definition draw_returns (e : K * (Z * Z)) : Prop := forall s, good_scene s ->
  exists s1, ask e.1 s = (s1, Ok ()) /\ forall a, exists a', draw k e.1 e.2 s1 a = (a', Ok ()).

Definition shows (s : scene) (l : list arrow) (e : K * (Z * Z)) (i : nat) : Prop :=
  exists a, l !! i = Some a /\ visible a = true /\ good e a s.

Record drawing_ok (lost : list nat) (d : drawing) : Prop := DrawingOk {
  d_pool : lost ++ dr_new d ++ dr_old d ≡ₚ seq 0 (length (dr_items d));
  d_hidden : forall i, i ∈ dr_old d -> hidden (dr_items d) i;
  d_scene : good_scene (dr_scene d)
}.
(** After an exception: the arrows that were drawn are in no list. *)
Definition drawing_left (d : drawing) : Prop :=
  good_scene (dr_scene d) /\ exists lost, lost ++ dr_old d ≡ₚ seq 0 (length (dr_items d)).

Lemma drawing_stops lost d s : drawing_ok lost d -> good_scene s -> drawing_left (Drawing s (dr_items d) (dr_old d) (dr_new d)).
Proof. intros [Hp _ _] Hs. split; [done|]. exists (lost ++ dr_new d). cbn. by rewrite <- app_assoc. Qed.

(** The item taken for an entry: from the end of the pool, or a new one. *)
Lemma take_arrow_ok lost d i old l : drawing_ok lost d -> take_arrow (dr_old d) (dr_items d) = (i, old, l) ->
  is_Some (l !! i) /\ lost ++ dr_new d ++ i :: old ≡ₚ seq 0 (length l) /\ (forall j, j ∈ old -> hidden l j /\ j <> i) /\
  (forall j, j ∈ dr_new d -> l !! j = dr_items d !! j /\ j <> i) /\
  S (length (dr_new d) + length old)%nat = Nat.max (length (dr_new d ++ dr_old d)) (length (dr_new d) + 1)%nat.
Proof.
  intros [Hp Hh Hs] Ht. apply take_arrow_spec in Ht as [[Hold ->]|(Hold & -> & -> & ->)]; rewrite Hold in *.
  - assert (lost ++ dr_new d ++ i :: old ≡ₚ seq 0 (length (dr_items d))) as Hp' by (rewrite <- Hp; solve_Permutation).
    assert (NoDup (lost ++ dr_new d ++ i :: old)) as Hnd by (rewrite Hp'; apply NoDup_seq).
    assert (i ∈ seq 0 (length (dr_items d))) as Hin%elem_of_seq by (rewrite <- Hp'; set_solver).
    apply NoDup_app in Hnd as (_ & _ & Hnd). apply NoDup_app in Hnd as (_ & Hnd1 & [Hnd2 _]%NoDup_cons).
    split; [apply lookup_lt_is_Some_2; lia|]. split; [done|]. split; [|split].
    + intros j Hj. split; [apply Hh; set_solver|]. by intros ->.
    + intros j Hj. split; [done|]. intros ->. apply (Hnd1 i Hj). set_solver.
    + rewrite !length_app. cbn. lia.
  - rewrite app_nil_r in Hp. split; [by rewrite lookup_app_r, Nat.sub_diag by lia|].
    split; [by rewrite app_assoc, Hp, length_app, seq_app|].
    split; [by intros ? ?%not_elem_of_nil|]. split; [|rewrite !length_app; cbn; lia].
    intros j Hj. assert (j ∈ seq 0 (length (dr_items d))) as Hin%elem_of_seq by (rewrite <- Hp; set_solver).
    split; [by rewrite lookup_app_l by lia|lia].
Qed.

(** One round after the nodes are there. *)
Lemma show_one_eq e d s1 i old l a : ask e.1 (dr_scene d) = (s1, Ok ()) -> take_arrow (dr_old d) (dr_items d) = (i, old, l) -> l !! i = Some a ->
  show_one ask draw k e d = let '(a', r) := draw k e.1 e.2 s1 a in
    (Drawing s1 (<[i := a']> l) old (if is_ok r then dr_new d ++ [i] else dr_new d), r).
Proof.
  intros Hask Ht Ha. unfold show_one, mbind, stateful_bind, in_scene, pop_arrow, st_get, on_arrow. rewrite Hask.
  cbn [dr_scene dr_items dr_old dr_new]. rewrite Ht. cbn [dr_scene dr_items dr_old dr_new]. rewrite Ha.
  by destruct (draw k e.1 e.2 s1 a) as [a' [[]| |]].
Qed.

Lemma show_one_returns lost e d : draw_returns e -> drawing_ok lost d -> exists d', show_one ask draw k e d = (d', Ok ()).
Proof.
  intros He Hd. destruct (take_arrow (dr_old d) (dr_items d)) as [[i old] l] eqn:Ht.
  destruct (take_arrow_ok lost d i old l Hd Ht) as ([a Ha] & _). destruct (He (dr_scene d) (d_scene _ _ Hd)) as (s1 & Hask & Hdraw).
  rewrite (show_one_eq e d s1 i old l a Hask Ht Ha). destruct (Hdraw a) as [a' ->]. by eexists.
Qed.

Lemma show_one_ok lost e d d' : draws e -> drawing_ok lost d -> show_one ask draw k e d = (d', Ok ()) ->
  exists i, drawing_ok lost d' /\ later (dr_scene d) (dr_scene d') /\ dr_new d' = dr_new d ++ [i] /\
    shows (dr_scene d') (dr_items d') e i /\ (forall j, j ∈ dr_new d -> dr_items d' !! j = dr_items d !! j) /\
    length (dr_new d' ++ dr_old d') = Nat.max (length (dr_new d ++ dr_old d)) (length (dr_new d) + 1)%nat.
Proof.
  intros [Hasks He] Hd H. destruct (take_arrow (dr_old d) (dr_items d)) as [[i old] l] eqn:Ht.
  destruct (take_arrow_ok lost d i old l Hd Ht) as ([a0 Ha0] & Hp' & Ho & Hn & Hlen).
  destruct (ask e.1 (dr_scene d)) as [s1 r1] eqn:Hask. destruct (Hasks _ _ _ (d_scene _ _ Hd) Hask) as [Hs1 Hl1].
  assert (r1 = Ok ()) as ->.
  { unfold show_one, in_scene in H. apply st_bind_ok in H as ([] & d1 & H1 & _). rewrite Hask in H1. by injection H1. }
  rewrite (show_one_eq e d s1 i old l a0 Hask Ht Ha0) in H. destruct (draw k e.1 e.2 s1 a0) as [a r] eqn:Hdraw.
  injection H as <- ->. destruct (He _ _ _ _ (d_scene _ _ Hd) Hask Hdraw) as [Hg Hv].
  assert (<[i:=a]> l !! i = Some a) as Hka by (apply list_lookup_insert_eq; by eapply lookup_lt_Some).
  exists i. cbn [dr_scene dr_items dr_old dr_new is_ok]. split; [split; cbn [dr_scene dr_items dr_old dr_new]|].
  - rewrite length_insert, <- Hp'. solve_Permutation.
  - intros j Hj. destruct (Ho j Hj) as [(b & Hb & Hbv) Hjk]. exists b. by rewrite list_lookup_insert_ne by done.
  - done.
  - split; [done|]. split; [done|]. split; [by exists a|]. split.
    + intros j Hj. destruct (Hn j Hj) as [<- Hjk]. by rewrite list_lookup_insert_ne by done.
    + rewrite <- Hlen, !length_app. cbn. lia.
Qed.

(** A round that raises leaves the taken arrow in no list. *)
Lemma show_one_raises lost e d d' r : asks e -> drawing_ok lost d -> show_one ask draw k e d = (d', r) -> is_ok r = false -> drawing_left d'.
Proof.
  intros Hasks Hd H Hr. destruct (take_arrow (dr_old d) (dr_items d)) as [[i old] l] eqn:Ht.
  destruct (take_arrow_ok lost d i old l Hd Ht) as ([a0 Ha0] & Hp' & _).
  destruct (ask e.1 (dr_scene d)) as [s1 r1] eqn:Hask. destruct (Hasks _ _ _ (d_scene _ _ Hd) Hask) as [Hs1 Hl1].
  destruct r1 as [[]|x|].
  - rewrite (show_one_eq e d s1 i old l a0 Hask Ht Ha0) in H. destruct (draw k e.1 e.2 s1 a0) as [a r1].
    injection H as <- ->. rewrite Hr. split; [done|]. exists (lost ++ dr_new d ++ [i]). cbn. rewrite length_insert, <- Hp'. solve_Permutation.
  - unfold show_one, in_scene, mbind, stateful_bind in H. rewrite Hask in H. injection H as <- <-. by eapply drawing_stops.
  - unfold show_one, in_scene, mbind, stateful_bind in H. rewrite Hask in H. injection H as <- <-. by eapply drawing_stops.
Qed.

Lemma show_loop_returns lost entries d : Forall draws entries -> Forall draw_returns entries -> drawing_ok lost d ->
  exists d', st_each (show_one ask draw k) entries d = (d', Ok ()).
Proof.
  revert d. induction entries as [|e entries IH]; intros d Hall Hr Hd; [by eexists|].
  apply Forall_cons in Hall as [He Hall]. apply Forall_cons in Hr as [Hre Hr]. cbn. unfold mbind, stateful_bind.
  destruct (show_one_returns lost e d Hre Hd) as [d1 Hd1]. rewrite Hd1.
  destruct (show_one_ok lost e d d1 He Hd Hd1) as (i & Hok & _). by apply IH.
Qed.

Lemma show_loop_ok lost entries d d' : Forall draws entries -> drawing_ok lost d -> st_each (show_one ask draw k) entries d = (d', Ok ()) ->
  exists ks, drawing_ok lost d' /\ later (dr_scene d) (dr_scene d') /\
    dr_new d' = dr_new d ++ ks /\ Forall2 (shows (dr_scene d') (dr_items d')) entries ks /\
    (forall j, j ∈ dr_new d -> dr_items d' !! j = dr_items d !! j) /\
    length (dr_new d' ++ dr_old d') = Nat.max (length (dr_new d ++ dr_old d)) (length (dr_new d) + length entries)%nat.
Proof.
  revert d. induction entries as [|e entries IH]; intros d Hall Hd H.
  - injection H as <-. exists []. rewrite app_nil_r. do 3 (split; [done|]). split; [constructor|]. split; [done|]. rewrite length_app. cbn. lia.
  - apply Forall_cons in Hall as [He Hall]. apply st_bind_ok in H as ([] & d1 & H1 & H2).
    destruct (show_one_ok lost e d d1 He Hd H1) as (i & Hd1 & Hl1 & Hn1 & Hs1 & Hk1 & Hlen1).
    destruct (IH d1 Hall Hd1 H2) as (ks & Hd2 & Hl2 & Hn2 & Hs2 & Hk2 & Hlen2). exists (i :: ks).
    split; [done|]. split; [by eapply later_trans|].
    split; [rewrite Hn2, Hn1; by rewrite <- app_assoc|]. split; [constructor; [|done]|split].
    + destruct Hs1 as (a & Ha & Hv & Hg). exists a. split; [rewrite Hk2, Ha by (rewrite Hn1; set_solver); done|]. split; [done|]. by eapply good_later.
    + intros j Hj. rewrite Hk2, Hk1; [done|done|rewrite Hn1; set_solver].
    + rewrite Hlen2, Hlen1, Hn1, !length_app. cbn. lia.
Qed.

Lemma start_drawing lost ar s : good_scene s -> arrows_hold lost ar -> drawing_ok lost (Drawing s (hide_all (pool ar) (items ar)) (pool ar) []).
Proof.
  intros Hs Hok. split; cbn; [by rewrite hide_all_length| |done]. intros i Hi. apply hide_all_hidden; [done|].
  assert (i ∈ lost ++ pool ar) as Hin by set_solver. unfold arrows_hold in Hok. rewrite Hok in Hin. apply elem_of_seq in Hin. lia.
Qed.

Lemma show_partly_eq entries ar s : show_partly factor ask draw entries (ar, s) =
  let '(d, r) := st_each (show_one ask draw k) entries (Drawing s (hide_all (pool ar) (items ar)) (pool ar) []) in
  (Arrows (dr_items d) (if is_ok r then dr_new d ++ dr_old d else dr_old d), dr_scene d, r).
Proof. unfold show_partly, show_all, st_call, mbind, stateful_bind. by rewrite factor_ok. Qed.

Lemma show_partly_returns entries s ar : Forall draws entries -> Forall draw_returns entries -> good_scene s -> arrows_ok ar ->
  exists x, show_partly factor ask draw entries (ar, s) = (x, Ok ()).
Proof.
  intros Hd Hr Hs Hok. rewrite show_partly_eq.
  destruct (show_loop_returns [] entries _ Hd Hr (start_drawing [] ar s Hs Hok)) as [d ->]. by eexists.
Qed.

(** The first arrows of the pool show the entries, the others are hidden; none is lost
    and none is made without need. *)
Lemma show_partly_ok entries s ar ar' s' : Forall draws entries -> good_scene s -> arrows_ok ar ->
  show_partly factor ask draw entries (ar, s) = (ar', s', Ok ()) ->
  exists shown rest, arrows_ok ar' /\ good_scene s' /\ later s s' /\
    pool ar' = shown ++ rest /\ Forall2 (shows s' (items ar')) entries shown /\ (forall i, i ∈ rest -> hidden (items ar') i) /\
    length (items ar') = Nat.max (length (items ar)) (length entries).
Proof.
  intros Hall Hs Hok H. rewrite show_partly_eq in H. destruct (st_each _ _ _) as [d r] eqn:Hd. injection H as <- <- ->.
  destruct (show_loop_ok [] entries _ d Hall (start_drawing [] ar s Hs Hok) Hd) as (ks & [Hp Hh Hg] & Hl & Hn & Hsh & _ & Hlen).
  cbn in Hn, Hl, Hlen, Hp. subst ks. exists (dr_new d), (dr_old d). do 6 (split; [done|]).
  unfold arrows_ok, arrows_hold in Hok. cbn in *. rewrite Hp, Hok, !length_seq in Hlen. exact Hlen.
Qed.

(** The arrows after the view was shown, up to an exception or not: an exception loses
    arrows, nothing else does. *)
Lemma show_partly_hold entries lost s ar ar' s' r : Forall draws entries -> good_scene s -> arrows_hold lost ar ->
  show_partly factor ask draw entries (ar, s) = (ar', s', r) ->
  good_scene s' /\ (if is_ok r then arrows_hold lost ar' else exists lost', arrows_hold lost' ar').
Proof.
  intros Hall Hs Hok H. rewrite show_partly_eq in H. destruct (st_each _ _ _) as [d r'] eqn:Hd. injection H as <- <- ->.
  rewrite Forall_forall in Hall.
  pose proof (st_each_inv (show_one ask draw k) (drawing_ok lost) drawing_left entries) as Hinv.
  eapply Hinv in Hd; [|..|apply (start_drawing lost ar s Hs Hok)].
  - destruct (is_ok r); [destruct Hd as [Hp _ Hg]; by split|]. by destruct Hd.
  - intros e d1 d2 r2 He Hd1 H2. destruct r2 as [[]|x|]; cbn [is_ok].
    + by destruct (show_one_ok lost e d1 d2 (Hall e He) Hd1 H2) as (i & ? & _).
    + by eapply (show_one_raises lost e d1 d2); [apply Hall|..].
    + by eapply (show_one_raises lost e d1 d2); [apply Hall|..].
Qed.
End show_spec.

(** ** What is drawn *)

Definition is_float (x : num) : Prop := exists f, x = PFloat f.
Lemma sub_floats x y : is_float x -> is_float y -> exists f, num_sub x y = Ok (PFloat f).
Proof. intros [f ->] [g ->]. by eexists. Qed.
(** Division by a small number never raises. *)
Lemma div_returns x n : n = 2 \/ n = 5 -> exists y, num_div x (PInt n) = Ok y.
Proof.
  assert (forall m, m = 2 \/ m = 5 -> exists t, to_float (PInt m) = Ok (SpecFloat.S754_finite false t (if m =? 2 then -51 else -50))) as Hf
    by (intros m [-> | ->]; eexists; vm_compute; reflexivity).
  intros Hn. destruct (Hf n Hn) as [t Ht]. unfold num_div, arith. destruct x as [z|f].
  - destruct Hn as [-> | ->]; by eexists.
  - rewrite Ht. by eexists.
Qed.
Lemma add_floats x y : is_float x -> is_float y -> exists z, num_add x y = Ok z.
Proof. intros [f ->] [g ->]. by eexists. Qed.

(** Positions on the canvas are floats. *)
Definition scene_float (s : scene) : Prop := scene_good s /\ forall e p, position_of e s = Some p -> is_float p.1 /\ is_float p.2.
Definition later (s s' : scene) : Prop := forall e p, position_of e s = Some p -> position_of e s' = Some p.

Definition floats (p : point) : bool := match p with (PFloat _, PFloat _) => true | _ => false end.
Lemma scene_floats s : scene_good s -> forallb (fun n => floats (n_pos n.2)) (map_to_list (nodes s)) = true ->
  forallb (fun c => floats (c_pos c.2)) (map_to_list (channels s)) = true -> scene_float s.
Proof.
  assert (forall p, floats p = true -> is_float p.1 /\ is_float p.2) as Hp by (intros [[|f] [|g]]; [done..|]; by split; eexists).
  intros Hs Hn Hc. split; [done|]. rewrite forallb_forall in Hn, Hc. intros [i|c] p; cbn.
  - intros (n & Hi & ->)%fmap_Some. apply Hp, (Hn (i, n)), list_elem_of_In, elem_of_map_to_list, Hi.
  - intros (n & Hi & ->)%fmap_Some. apply Hp, (Hc (c, n)), list_elem_of_In, elem_of_map_to_list, Hi.
Qed.

Lemma get_node_later i s : scene_float s ->
  exists s', get_node i s = Ok s' /\ scene_float s' /\ later s s' /\ is_Some (position_of (ANode i) s').
Proof.
  intros [Hs Hf]. assert (exists s', get_node i s = Ok s') as [s' Hg].
  { unfold get_node. destruct (nodes s !! i); [by eexists|]. destruct new_node_ok as (n & -> & _). by eexists. }
  exists s'. split; [done|]. pose proof (scene_step_consistent 0 (GetNode i) s s' Hs Hg) as Hs'.
  revert Hg. unfold get_node. destruct (nodes s !! i) as [n|] eqn:Hi.
  - intros [= <-]. split; [by split|]. split; [by intros ? ?|]. cbn. rewrite Hi. by eexists.
  - intros (n & Hn & <-%ok_inj)%bind_ok.
    assert (n_pos n = (zero, zero)) as Hp by (vm_compute in Hn; injection Hn as <-; reflexivity). split; [split; [done|]|split].
    + intros [j|c] p; [|apply (Hf (AChannel c))]. cbn. destruct (decide (i = j)) as [<-|Hj].
      * rewrite lookup_insert_eq. cbn. rewrite Hp. intros [= <-]. split; by eexists.
      * rewrite lookup_insert_ne by done. apply (Hf (ANode j)).
    + intros [j|c] p; [|done]. cbn. destruct (decide (i = j)) as [<-|Hj]; [by rewrite Hi|by rewrite lookup_insert_ne].
    + cbn. rewrite lookup_insert_eq. by eexists.
Qed.

Section view_spec.
Context (ln : num -> num) (atan2 : num -> num -> num) (over_line : point -> point -> res point).
Context (node_size sample_period : num).
(** The part of a line that is on the screen has a middle. *)
Context (over_line_ok : forall p q, is_float p.1 -> is_float p.2 -> is_float q.1 -> is_float q.2 -> is_ok (over_line p q) = true).

Notation rate_of := (rate_of ln node_size sample_period).

(** The arrow of a transmission between its nodes, as wide as its rate says. *)
Definition transmission_arrow (e : (nat * nat) * (Z * Z)) (a : arrow) (s : scene) : Prop := exists p q r,
  position_of (ANode e.1.1) s = Some p /\ position_of (ANode e.1.2) s = Some q /\ rate_of 6 e.2 = Ok r /\
  arrow_points a = Some (p, q) /\ arrow_width a = r_width r /\ label_font a = r_font r /\
  (label_text a = ToRight (r_kbps r) \/ label_text a = ToLeft (r_kbps r)).

(** The arrow of a drop, down to the edge of the screen. *)
Definition drop_arrow (edge_y : num) (e : nat * (Z * Z)) (a : arrow) (s : scene) : Prop := exists p r,
  position_of (ANode e.1) s = Some p /\ rate_of 0 e.2 = Ok r /\
  arrow_points a = Some (p, (p.1, edge_y)) /\ arrow_width a = r_width r /\ label_text a = Plain (r_kbps r) /\ label_font a = r_font r.

(** The factor is there. *)
Context (k : num) (factor_ok : arrow_factor node_size = Ok k).

Lemma rate_of_eq digits bytes count r : rate_of digits (bytes, count) = Ok r <->
  exists w kbps t font, line_width_of ln sample_period k bytes count = Ok w /\ kbps_of sample_period bytes count = Ok kbps /\
    fmt 2 kbps = Ok t /\ font_of digits k = Ok font /\ r = Rate w t font.
Proof.
  unfold VizArrows.rate_of. unfold arrow_factor in factor_ok. rewrite factor_ok. cbn [mbind result_bind]. split.
  - intros (w & Hw & (kbps & Hk & (t & Ht & (font & Hf & <-%ok_inj)%bind_ok)%bind_ok)%bind_ok)%bind_ok. eauto 10.
  - intros (w & kbps & t & font & -> & Hk & Ht & Hf & ->). cbn [mbind result_bind]. rewrite Hk. cbn [mbind result_bind]. rewrite Ht.
    cbn [mbind result_bind]. by rewrite Hf.
Qed.

Lemma ask_node_later i s s1 r : scene_float s -> ask_node i s = (s1, r) ->
  r = Ok () /\ scene_float s1 /\ later s s1 /\ is_Some (position_of (ANode i) s1).
Proof.
  intros Hs. unfold ask_node. destruct (get_node_later i s Hs) as (s2 & -> & H). by intros [= <- <-].
Qed.
Lemma ask_nodes_later key s s1 r : scene_float s -> ask_nodes key s = (s1, r) ->
  r = Ok () /\ scene_float s1 /\ later s s1 /\ is_Some (position_of (ANode key.1) s1) /\ is_Some (position_of (ANode key.2) s1).
Proof.
  intros Hs. unfold ask_nodes, mbind, stateful_bind. destruct (ask_node key.1 s) as [s2 r2] eqn:H2.
  destruct (ask_node_later _ _ _ _ Hs H2) as (-> & Hs2 & Hl2 & [p Hp]). intros H1.
  destruct (ask_node_later _ _ _ _ Hs2 H1) as (-> & Hs1 & Hl1 & Hq). split; [done|]. split; [done|].
  split; [by intros e r He; apply Hl1, Hl2|]. split; [exists p; by apply Hl1|done].
Qed.

Lemma draw_transmission_draws e :
  draws ask_nodes (draw_transmission ln atan2 over_line sample_period) k scene_float later transmission_arrow e.
Proof.
  split.
  - intros s s1 r Hs H. by destruct (ask_nodes_later _ _ _ _ Hs H) as (_ & ? & ? & _).
  - intros s s1 a a' Hs Hask. destruct (ask_nodes_later _ _ _ _ Hs Hask) as (_ & Hs1 & _ & [p Hp] & [q Hq]).
    destruct e as [[i j] [bytes count]]. unfold draw_transmission, node_position. cbn [fst snd] in *. rewrite Hp, Hq. cbn [or_raise].
    intros H. st_walk H. subst. injection Ha0 as <-. injection Ha1 as <-. st_walk H.
    apply st_bind_ok in H as ([] & a1 & Hl & H). st_walk H. injection H as <-.
    split; [|by destruct (_ && _)%bool; st_walk Hl; injection Hl as <-].
    exists p, q, (Rate a0 a7 a4). cbn [fst snd r_width r_kbps r_font]. split; [done|]. split; [done|]. split; [apply rate_of_eq; eauto 10|].
    destruct (_ && _)%bool; st_walk Hl; injection Hl as <-; cbn; auto 10.
Qed.
Lemma draw_transmission_returns e : is_ok (rate_of 6 e.2) = true ->
  draw_returns ask_nodes (draw_transmission ln atan2 over_line sample_period) k scene_float e.
Proof.
  intros Hr s Hs. destruct (ask_nodes e.1 s) as [s1 r] eqn:Hask.
  destruct (ask_nodes_later _ _ _ _ Hs Hask) as (-> & Hs1 & _ & [p Hp] & [q Hq]). exists s1. split; [done|]. intros a.
  destruct e as [[i j] [bytes count]]. cbn [fst snd] in *. destruct (rate_of 6 (bytes, count)) as [r| |] eqn:Hrate; [|discriminate Hr..].
  apply rate_of_eq in Hrate as (w & kbps & t & font & Hw & Hk & Ht & Hf & _).
  destruct (proj2 Hs1 _ _ Hp) as [Hp_1 Hp_2], (proj2 Hs1 _ _ Hq) as [Hq_1 Hq_2].
  destruct (sub_floats q.2 p.2 Hq_2 Hp_2) as [dy Hdy], (sub_floats q.1 p.1 Hq_1 Hp_1) as [dx Hdx].
  pose proof (over_line_ok p q Hp_1 Hp_2 Hq_1 Hq_2) as Ho. destruct (over_line p q) as [l| |] eqn:Hl; [|discriminate Ho..].
  destruct (div_returns (num_opp w) 2) as [up Hup]; [by left|]. destruct (div_returns w 2) as [down Hdown]; [by left|].
  unfold draw_transmission, node_position. cbn [fst snd]. rewrite Hp, Hq.
  repeat first [rewrite st_set_bind | erewrite st_call_bind_eq by eassumption | erewrite (st_call_bind_eq (or_raise _ _)) by reflexivity].
  destruct (_ && _)%bool; unfold mbind, stateful_bind, st_call, st_set; [rewrite Hup|rewrite Hdown]; rewrite Hl; by eexists.
Qed.

Lemma draw_drop_draws edge_y e :
  draws ask_node (draw_drop ln sample_period edge_y) k scene_float later (drop_arrow edge_y) e.
Proof.
  split.
  - intros s s1 r Hs H. by destruct (ask_node_later _ _ _ _ Hs H) as (_ & ? & ? & _).
  - intros s s1 a a' Hs Hask. destruct (ask_node_later _ _ _ _ Hs Hask) as (_ & Hs1 & _ & [p Hp]).
    destruct e as [i [bytes count]]. unfold draw_drop, node_position. cbn [fst snd] in *. rewrite Hp. cbn [or_raise].
    intros H. st_walk H. subst. injection Ha0 as <-. st_walk H. injection H as <-. split; [|done].
    exists p; eexists (Rate _ _ _). split; [done|]. split; [apply rate_of_eq; eauto 10|]. cbn. auto 10.
Qed.
Lemma draw_drop_returns edge_y e : is_float edge_y -> is_ok (rate_of 0 e.2) = true ->
  draw_returns ask_node (draw_drop ln sample_period edge_y) k scene_float e.
Proof.
  intros He Hr s Hs. destruct (ask_node e.1 s) as [s1 r] eqn:Hask.
  destruct (ask_node_later _ _ _ _ Hs Hask) as (-> & Hs1 & _ & [p Hp]). exists s1. split; [done|]. intros a.
  destruct e as [i [bytes count]]. cbn [fst snd] in *. destruct (rate_of 0 (bytes, count)) as [r| |] eqn:Hrate; [|discriminate Hr..].
  apply rate_of_eq in Hrate as (w & kbps & t & font & Hw & Hk & Ht & Hf & _). destruct (proj2 Hs1 _ _ Hp) as [H1 H2].
  destruct (add_floats p.1 p.1 H1 H1) as [x Hx], (add_floats p.2 edge_y H2 He) as [y Hy].
  destruct (div_returns x 2) as [hx Hhx]; [by left|]. destruct (div_returns y 2) as [hy Hhy]; [by left|].
  unfold draw_drop, node_position. cbn [fst snd]. rewrite Hp.
  repeat first [rewrite st_set_bind | erewrite st_call_bind_eq by eassumption | erewrite (st_call_bind_eq (or_raise _ _)) by reflexivity].
  by eexists.
Qed.

Lemma transmission_arrow_later e a s s' : transmission_arrow e a s -> later s s' -> transmission_arrow e a s'.
Proof. intros (p & q & r & Hp & Hq & H) Hl. exists p, q, r. auto. Qed.
Lemma drop_arrow_later y e a s s' : drop_arrow y e a s -> later s s' -> drop_arrow y e a s'.
Proof. intros (p & r & Hp & H) Hl. exists p, r. auto. Qed.

End view_spec.

Lemma dict_items_entries {K V} `{DictOrder K} (d : gmap K V) :
  NoDup (dict_items d).*1 /\ (forall k v, (k, v) ∈ dict_items d <-> d !! k = Some v).
Proof.
  assert (forall k v, (k, v) ∈ dict_items d <-> d !! k = Some v) as Hin.
  { intros k v. unfold dict_items. rewrite list_elem_of_omap. split.
    - intros (j & _ & Hj). destruct (d !! j) eqn:Hd; cbn in Hj; [|done]. injection Hj as <- <-. done.
    - intros Hd. exists k. rewrite Hd. split; [by apply elem_of_dict_keys; eexists|done]. }
  split; [|done]. unfold dict_items. pose proof (NoDup_dict_keys d) as Hnd.
  assert (forall ks, (omap (fun k => pair k <$> d !! k) ks).*1 = filter (fun k => is_Some (d !! k)) ks) as Hf.
  { induction ks as [|k ks IH]; [done|]. rewrite filter_cons. destruct (decide (is_Some (d !! k))) as [[v Hv]|Hv].
    - cbn. rewrite Hv. cbn. by rewrite IH.
    - apply eq_None_not_Some in Hv. cbn. by rewrite Hv. }
  rewrite Hf. by apply NoDup_filter.
Qed.

Section theorems.
Context (ln : num -> num) (atan2 : num -> num -> num) (over_line : point -> point -> res point) (node_size sample_period : num).
Context `{!DictOrder (nat * nat), !DictOrder nat}.
Notation tx_key := (fun t => (transmitter t, receiver t)).
Notation rate_of := (rate_of ln node_size sample_period).

(** The entries of the averages, by their keys. *)
Lemma average_entries {K S} `{DictOrder K} (key : S -> K) bytes memory (P : K * (Z * Z) -> Prop) (R : K * (Z * Z) -> nat -> Prop) shown :
  (forall k sum, average key bytes memory !! k = Some sum -> P (k, sum)) ->
  let es := dict_items (average key bytes memory) in
  Forall P es /\ NoDup es.*1 /\ (forall k, k ∈ es.*1 <-> samples_of key k (concat memory) <> []) /\
  (Forall2 R es shown -> Forall2 (fun k => R (k, (total bytes (samples_of key k (concat memory)), zlen (samples_of key k (concat memory))))) es.*1 shown).
Proof.
  intros HP es. destruct (dict_items_entries (average key bytes memory)) as [Hnd Hin]. fold es in Hnd, Hin.
  assert (forall k sum, (k, sum) ∈ es -> sum = (total bytes (samples_of key k (concat memory)), zlen (samples_of key k (concat memory))) /\
    samples_of key k (concat memory) <> []) as Hsum.
  { intros k sum Hk%Hin. rewrite average_lookup in Hk. destruct (samples_of key k (concat memory)); [done|]. by injection Hk as <-. }
  split; [|split; [done|split]].
  - apply Forall_forall. intros [k sum] Hk%Hin. by apply HP.
  - intros k. rewrite list_elem_of_fmap. split.
    + intros ([k' sum] & -> & Hk). by apply (Hsum k' sum).
    + intros Hne. exists (k, (total bytes (samples_of key k (concat memory)), zlen (samples_of key k (concat memory)))). split; [done|]. apply Hin. rewrite average_lookup. by destruct (samples_of key k (concat memory)).
  - intros HR. rewrite Forall2_fmap_l. clearbody es. clear Hnd Hin. revert Hsum. induction HR as [|[k sum] i l l' Hk HR IH]; intros Hsum; constructor.
    + destruct (Hsum k sum ltac:(constructor)) as [-> _]. exact Hk.
    + apply IH. intros k' sum' Hin. apply Hsum. by constructor.
Qed.

(** The new arrows [ar'] and scene [s'] after a memory of samples is shown: one arrow for
    every key with samples, that fits the sum of all its samples; all others are hidden,
    none is lost and new ones are only made when the pool is too small. *)
Definition all_shown {K S} `{Countable K} (key : S -> K) (bytes : S -> Z) (good : K * (Z * Z) -> arrow -> scene -> Prop)
    (memory : list (list S)) (s : scene) (ar ar' : arrows) (s' : scene) : Prop :=
  exists keys shown rest,
    scene_float s' /\ later s s' /\ arrows_ok ar' /\
    NoDup keys /\ (forall k, k ∈ keys <-> samples_of key k (concat memory) <> []) /\
    pool ar' = shown ++ rest /\
    Forall2 (fun k => let l := samples_of key k (concat memory) in shows good s' (items ar') (k, (total bytes l, zlen l))) keys shown /\
    (forall i, i ∈ rest -> hidden (items ar') i) /\
    length (items ar') = Nat.max (length (items ar)) (length keys).

Section averages_shown.
Context {K S : Type} `{DictOrder K} (key : S -> K) (bytes : S -> Z) (good : K * (Z * Z) -> arrow -> scene -> Prop).
Context (factor : res num) (ask : K -> stateful scene unit) (draw : num -> K -> Z * Z -> scene -> stateful arrow unit).
Context (k : num) (factor_ok : factor = Ok k) (good_later : forall e a s s', good e a s -> later s s' -> good e a s').
Context (good_draws : forall e, draws ask draw k scene_float later good e).

Lemma later_refl s : later s s.
Proof. by intros ? ?. Qed.
Lemma later_trans s1 s2 s3 : later s1 s2 -> later s2 s3 -> later s1 s3.
Proof. intros H1 H2 e p He. by apply H2, H1. Qed.

Lemma averages_shown memory s ar ar' s' : scene_float s -> arrows_ok ar ->
  show_partly factor ask draw (dict_items (average key bytes memory)) (ar, s) = (ar', s', Ok ()) ->
  all_shown key bytes good memory s ar ar' s'.
Proof.
  intros Hs Har Hsh. set (es := dict_items _) in *.
  destruct (average_entries key bytes memory (fun e => True) (shows good s' (items ar')) [] ltac:(done)) as (_ & Hnd & Hin & _).
  destruct (show_partly_ok factor ask draw k factor_ok scene_float later good later_refl later_trans good_later es s ar ar' s'
    ltac:(by apply Forall_true) Hs Har Hsh) as (shown & rest & H2 & H3 & H4 & H5 & H6 & H7 & H8).
  exists es.*1, shown, rest. do 3 (split; [done|]). split; [exact Hnd|]. split; [exact Hin|]. split; [exact H5|].
  split; [|split; [exact H7|by rewrite length_fmap]].
  by apply (average_entries key bytes memory (fun e => True) (shows good s' (items ar')) shown ltac:(done)).
Qed.

Lemma averages_return (ok : Z * Z -> Prop) memory s ar :
  (forall e, ok e.2 -> draw_returns ask draw k scene_float e) -> scene_float s -> arrows_ok ar ->
  (forall key0 sum, average key bytes memory !! key0 = Some sum -> ok sum) ->
  exists ar' s', show_partly factor ask draw (dict_items (average key bytes memory)) (ar, s) = (ar', s', Ok ()).
Proof.
  intros Hr Hs Har Hok.
  destruct (show_partly_returns factor ask draw k factor_ok scene_float later good later_refl later_trans good_later (dict_items (average key bytes memory)) s ar) as [[ar' s'] Hsh];
    [by apply Forall_true| |done|done|by exists ar', s'].
  destruct (average_entries key bytes memory (fun e => ok e.2) (fun _ _ => True) [] Hok) as (Hes & _).
  eapply Forall_impl; [exact Hes|exact Hr].
Qed.

Lemma averages_hold memory lost s ar ar' s' r : scene_float s -> arrows_hold lost ar ->
  show_partly factor ask draw (dict_items (average key bytes memory)) (ar, s) = (ar', s', r) ->
  scene_float s' /\ (if is_ok r then arrows_hold lost ar' else exists lost', arrows_hold lost' ar').
Proof.
  intros Hs Har. apply (show_partly_hold factor ask draw k factor_ok scene_float later good later_refl later_trans good_later); [by apply Forall_true|done|done].
Qed.
End averages_shown.

Lemma factor_returns : exists k, arrow_factor node_size = Ok k.
Proof. apply div_returns. by right. Qed.


(** The same of the view of the drops, whose arrows go down to the edge of the screen. *)
Theorem drops_shown edge_y memory s ar : is_float edge_y -> scene_float s -> arrows_ok ar ->
  (forall k sum, average dropper drop_bytes memory !! k = Some sum -> is_ok (rate_of 0 sum) = true) ->
  exists ar' s', update_drops_view ln node_size sample_period edge_y memory s ar = Ok (ar', s') /\
    all_shown dropper drop_bytes (drop_arrow ln node_size sample_period edge_y) memory s ar ar' s'.
Proof.
  intros He Hs Har Hr. destruct factor_returns as [k Hk].
  pose proof (draw_drop_draws ln node_size sample_period k Hk edge_y) as Hd.
  destruct (averages_return dropper drop_bytes _ _ _ _ k Hk (drop_arrow_later ln node_size sample_period edge_y) Hd (fun sum => is_ok (rate_of 0 sum) = true) memory s ar
    ltac:(intros e; by apply draw_drop_returns) Hs Har Hr) as (ar' & s' & Hsh).
  exists ar', s'. split; [unfold update_drops_view, drops_partly; by rewrite Hsh|].
  by eapply (averages_shown dropper drop_bytes); [exact Hk|apply drop_arrow_later|exact Hd|..].
Qed.

(** Up to an exception or not, the views keep the scene, and only an exception loses arrows. *)
Lemma transmissions_hold over memory lost s ar ar' s' r : scene_float s -> arrows_hold lost ar ->
  transmissions_partly ln atan2 over node_size sample_period memory (ar, s) = (ar', s', r) ->
  scene_float s' /\ (if is_ok r then arrows_hold lost ar' else exists lost', arrows_hold lost' ar').
Proof.
  intros Hs Har. destruct factor_returns as [k Hk].
  apply (averages_hold tx_key tx_bytes _ _ _ _ k Hk (transmission_arrow_later ln node_size sample_period)
    (draw_transmission_draws ln atan2 over node_size sample_period k Hk)); done.
Qed.
Lemma drops_hold edge_y memory lost s ar ar' s' r : scene_float s -> arrows_hold lost ar ->
  drops_partly ln node_size sample_period edge_y memory (ar, s) = (ar', s', r) ->
  scene_float s' /\ (if is_ok r then arrows_hold lost ar' else exists lost', arrows_hold lost' ar').
Proof.
  intros Hs Har. destruct factor_returns as [k Hk].
  apply (averages_hold dropper drop_bytes _ _ _ _ k Hk (drop_arrow_later ln node_size sample_period edge_y)
    (draw_drop_draws ln node_size sample_period k Hk edge_y)); done.
Qed.
End theorems.

(** ** Examples *)

Definition demo_ln (x : num) : num := frac 2 1.
Definition demo_atan2 (y x : num) : num := zero.
Definition demo_line (p q : point) : res point := Ok p.
Definition demo_memory : list (list transmission) := [[Transmission 0 1 1000; Transmission 1 0 40]; [Transmission 0 1 500]].
Definition two_nodes : res scene := run_scene 2 [GetNode 0; GetNode 1; MoveNode 1 (frac 6 1, frac 9 1)] (empty_scene 2).
Definition demo_show (memory : list (list transmission)) (s : scene) (ar : arrows) :=
  update_transmissions_view demo_ln demo_atan2 demo_line (frac 1 1) (frac 1 10) memory s ar.

(** 1500 bytes in two periods of a tenth of a second are 60 kbit/s. *)
Example demo_rate : r_kbps <$> rate_of demo_ln (frac 1 1) (frac 1 10) 6 (1500, 2) = Ok (txt "60.00").
Proof. vm_compute. reflexivity. Qed.
(** Nothing was sent: the logarithm raises. *)
Example empty_packets : (fun s => demo_show [[Transmission 0 1 0]] s (Arrows [] [])) <$> two_nodes = Ok (Raise ValueError).
Proof. vm_compute. reflexivity. Qed.


(** One pair fewer: the pool still has both arrows, the second is hidden. *)
Example arrow_kept : (s ← two_nodes; '(ar, s) ← demo_show demo_memory s (Arrows [] []);
    '(ar, s) ← demo_show [[Transmission 1 0 40]] s ar; Ok (pool ar, visible <$> items ar)) =
  Ok ([1; 0]%nat, [false; true]).
Proof. vm_compute. reflexivity. Qed.

(** Two channels between the same nodes count as two periods: 1000 bytes sent in a tenth of
    a second are shown as 40 kbit/s. *)
Example two_channels : average (fun t => (transmitter t, receiver t)) tx_bytes [[Transmission 0 1 500; Transmission 0 1 500]] !! (0, 1)%nat = Some (1000, 2) /\
  r_kbps <$> rate_of demo_ln (frac 1 1) (frac 1 10) 6 (1000, 2) = Ok (txt "40.00").
Proof. split; vm_compute; reflexivity. Qed.

(** An update in which the logarithm raises: the arrow it had taken stays visible, with
    its old width and without a new place, and is in no list any more. *)
Example arrow_lost : (s ← two_nodes; '(ar, s) ← demo_show demo_memory s (Arrows [] []);
    let '(ar, _, r) := transmissions_partly demo_ln demo_atan2 demo_line (frac 1 1) (frac 1 10) [[Transmission 1 0 0]] (ar, s) in
    Ok (pool ar, visible <$> items ar, label_visible <$> items ar, r)) =
  Ok ([0]%nat, [false; true], [false; false], Raise ValueError).
Proof. vm_compute. reflexivity. Qed.
