(* ===== verification/VizView.v ===== *)
(** * The window of the visualizer ([src/visualizer/visualizer/core.py]): the positions of
    moving nodes, following a node, dragging, panning, zooming, and the update of the
    view.

    What GooCanvas does with its scale and its scroll bars is the interface
    [CanvasGeometry]. *)
From S2P Require Import Prelude PyNum PyString PyDict VizThread VizSvg VizScene VizArrows.
#[local] Open Scope Z_scope.

(** ** The canvas *)

(** The visible part of a canvas of type [G], with the bounds of the whole: conversions,
    scale, scroll bars (value and page of the horizontal and of the vertical one), and
    the value the zoom takes when it is set. *)
Class CanvasGeometry (G : Type) := {
  convert_to_pixels : point * point -> G -> point -> point;
  convert_from_pixels : point * point -> G -> point -> point;
  set_scale : num -> G -> G;
  scroll_to : point -> G -> G;
  scroll_value : G -> point;
  scroll_page : G -> point;
  set_scroll : point -> G -> G;
  zoom_value : num -> num;
  (** They are doubles. *)
  to_pixels_floats b g p : floats (convert_to_pixels b g p) = true;
  from_pixels_floats b g p : floats (convert_from_pixels b g p) = true;
  page_floats g : floats (scroll_page g) = true
}.

Record node_drag_state := NodeDragState { drag_canvas0 : point; drag_sim0 : point; motion_signal : nat }.
Record panning_state := PanningState { initial_mouse_pos : point; initial_canvas_pos : point; pan_signal : nat }.

Record window (G : Type) := Window {
  w_net : network; w_scene : scene; w_geometry : G; w_zoom : num; w_node_size : num; w_period : num;
  transmission_arrows : arrows; drop_arrows : arrows;
  w_transmissions : list (list transmission); w_drops : list (list packet_drop);
  follow_node : option nat; node_drag : option node_drag_state; panning : option panning_state;
  (** The handlers of motion events, on nodes and on the canvas, and the next number. *)
  node_handlers : gmap nat nat; canvas_handlers : list nat; next_signal : nat;
  (** The node that has grabbed the pointer. *)
  grab : option nat }.
Arguments Window {_} _ _ _ _ _ _ _ _ _ _ _ _ _ _ _ _ _.
Arguments w_net {_} _.
Arguments w_scene {_} _.
Arguments w_geometry {_} _.
Arguments w_zoom {_} _.
Arguments w_node_size {_} _.
Arguments w_period {_} _.
Arguments transmission_arrows {_} _.
Arguments drop_arrows {_} _.
Arguments w_transmissions {_} _.
Arguments w_drops {_} _.
Arguments follow_node {_} _.
Arguments node_drag {_} _.
Arguments panning {_} _.
Arguments node_handlers {_} _.
Arguments canvas_handlers {_} _.
Arguments next_signal {_} _.
Arguments grab {_} _.

Section window.
Context {G : Type} `{!CanvasGeometry G}.
Notation window := (window G).

Definition put_scene (s : scene) (w : window) : window :=
  Window (w_net w) s (w_geometry w) (w_zoom w) (w_node_size w) (w_period w) (transmission_arrows w) (drop_arrows w)
    (w_transmissions w) (w_drops w) (follow_node w) (node_drag w) (panning w) (node_handlers w) (canvas_handlers w) (next_signal w) (grab w).
Definition put_net (n : network) (w : window) : window :=
  Window n (w_scene w) (w_geometry w) (w_zoom w) (w_node_size w) (w_period w) (transmission_arrows w) (drop_arrows w)
    (w_transmissions w) (w_drops w) (follow_node w) (node_drag w) (panning w) (node_handlers w) (canvas_handlers w) (next_signal w) (grab w).
Definition put_geometry (g : G) (w : window) : window :=
  Window (w_net w) (w_scene w) g (w_zoom w) (w_node_size w) (w_period w) (transmission_arrows w) (drop_arrows w)
    (w_transmissions w) (w_drops w) (follow_node w) (node_drag w) (panning w) (node_handlers w) (canvas_handlers w) (next_signal w) (grab w).
Definition put_zoom (z : num) (w : window) : window :=
  Window (w_net w) (w_scene w) (w_geometry w) z (w_node_size w) (w_period w) (transmission_arrows w) (drop_arrows w)
    (w_transmissions w) (w_drops w) (follow_node w) (node_drag w) (panning w) (node_handlers w) (canvas_handlers w) (next_signal w) (grab w).
Definition put_node_size (x : num) (w : window) : window :=
  Window (w_net w) (w_scene w) (w_geometry w) (w_zoom w) x (w_period w) (transmission_arrows w) (drop_arrows w)
    (w_transmissions w) (w_drops w) (follow_node w) (node_drag w) (panning w) (node_handlers w) (canvas_handlers w) (next_signal w) (grab w).
Definition put_period (x : num) (w : window) : window :=
  Window (w_net w) (w_scene w) (w_geometry w) (w_zoom w) (w_node_size w) x (transmission_arrows w) (drop_arrows w)
    (w_transmissions w) (w_drops w) (follow_node w) (node_drag w) (panning w) (node_handlers w) (canvas_handlers w) (next_signal w) (grab w).
Definition put_arrows (ta da : arrows) (w : window) : window :=
  Window (w_net w) (w_scene w) (w_geometry w) (w_zoom w) (w_node_size w) (w_period w) ta da
    (w_transmissions w) (w_drops w) (follow_node w) (node_drag w) (panning w) (node_handlers w) (canvas_handlers w) (next_signal w) (grab w).
Definition put_samples (ts : list (list transmission)) (ds : list (list packet_drop)) (w : window) : window :=
  Window (w_net w) (w_scene w) (w_geometry w) (w_zoom w) (w_node_size w) (w_period w) (transmission_arrows w) (drop_arrows w)
    ts ds (follow_node w) (node_drag w) (panning w) (node_handlers w) (canvas_handlers w) (next_signal w) (grab w).
Definition set_follow_node (o : option nat) (w : window) : window :=
  Window (w_net w) (w_scene w) (w_geometry w) (w_zoom w) (w_node_size w) (w_period w) (transmission_arrows w) (drop_arrows w)
    (w_transmissions w) (w_drops w) o (node_drag w) (panning w) (node_handlers w) (canvas_handlers w) (next_signal w) (grab w).
Definition put_drag (o : option node_drag_state) (hs : gmap nat nat) (next : nat) (w : window) : window :=
  Window (w_net w) (w_scene w) (w_geometry w) (w_zoom w) (w_node_size w) (w_period w) (transmission_arrows w) (drop_arrows w)
    (w_transmissions w) (w_drops w) (follow_node w) o (panning w) hs (canvas_handlers w) next (grab w).
Definition put_panning (o : option panning_state) (hs : list nat) (next : nat) (w : window) : window :=
  Window (w_net w) (w_scene w) (w_geometry w) (w_zoom w) (w_node_size w) (w_period w) (transmission_arrows w) (drop_arrows w)
    (w_transmissions w) (w_drops w) (follow_node w) (node_drag w) o (node_handlers w) hs next (grab w).
Definition put_grab (o : option nat) (w : window) : window :=
  Window (w_net w) (w_scene w) (w_geometry w) (w_zoom w) (w_node_size w) (w_period w) (transmission_arrows w) (drop_arrows w)
    (w_transmissions w) (w_drops w) (follow_node w) (node_drag w) (panning w) (node_handlers w) (canvas_handlers w) (next_signal w) o.

(** ** Positions *)

Definition to_pixels (w : window) : point -> point := convert_to_pixels (bounds (w_scene w)) (w_geometry w).
Definition from_pixels (w : window) : point -> point := convert_from_pixels (bounds (w_scene w)) (w_geometry w).

(** The point of the canvas in the middle of the window. *)
Definition center_point (p : point) (w : window) : res window :=
  let '(px, py) := to_pixels w p in
  let '(pw, ph) := scroll_page (w_geometry w) in
  hw ← num_div pw (PInt 2); x ← num_sub px hw;
  hh ← num_div ph (PInt 2); y ← num_sub py hh;
  Ok (put_geometry (set_scroll (x, y) (w_geometry w)) w).

(** [center_on_node], of a node by its number. *)
Definition center_on_node (i : nat) (w : window) : res window := p ← node_position i (w_scene w); center_point p w.

Definition mobility_of (net : network) (i : nat) : option point := net_nodes net !! i ≫= mobility.

(** One round of the loop of [_update_node_positions]. *)
Definition update_node_position (w : window) (i : nat) : res window :=
  match mobility_of (w_net w) i with
  | None => Ok w
  | Some pos =>
      p ← transform_point_simulation_to_canvas pos;
      s ← set_position i p (w_scene w);
      let w := put_scene s w in
      if decide (follow_node w = Some i) then center_point p w else Ok w
  end.
Definition update_node_positions `{!DictOrder nat} (w : window) : res window :=
  for_each update_node_position (dict_keys (nodes (w_scene w))) w.

(** ** Zoom and scroll bars *)

(** [self.zoom.set_value] and its handler [_zoom_changed]. *)
Definition set_zoom (x : num) (w : window) : window :=
  let z := zoom_value x in
  if num_eqb z (w_zoom w) then w else put_geometry (set_scale z (w_geometry w)) (put_zoom z w).

Inductive scroll_direction := ScrollUp | ScrollDown | ScrollOther.
Definition canvas_scroll_event (d : scroll_direction) (w : window) : res (bool * window) :=
  match d with
  | ScrollUp => x ← num_mul (w_zoom w) (frac 5 4); Ok (true, set_zoom x w)
  | ScrollDown => x ← num_div (w_zoom w) (frac 5 4); Ok (true, set_zoom x w)
  | ScrollOther => Ok (false, w)
  end.

(** [min] and [max] of a generator that is not empty. *)
Definition min_of (l : list num) : res num := match l with [] => Raise ValueError | x :: l => Ok (foldl num_min x l) end.
Definition max_of (l : list num) : res num := match l with [] => Raise ValueError | x :: l => Ok (foldl num_max x l) end.

Definition autoscale_view `{!DictOrder nat} (w : window) : res window :=
  if decide (nodes (w_scene w) = ∅) then Ok w
  else
    w ← update_node_positions w;
    let positions := omap (fun i => n_pos <$> nodes (w_scene w) !! i) (dict_keys (nodes (w_scene w))) in
    min_x ← min_of positions.*1; min_y ← min_of positions.*2;
    max_x ← max_of positions.*1; max_y ← max_of positions.*2;
    let '(min_x_px, min_y_px) := to_pixels w (min_x, min_y) in
    let '(max_x_px, max_y_px) := to_pixels w (max_x, max_y) in
    dx_px ← num_sub max_x_px min_x_px; dy_px ← num_sub max_y_px min_y_px;
    new_dx ← num_mul (frac 3 2) dx_px; new_dy ← num_mul (frac 3 2) dy_px;
    if num_eqb new_dx (PInt 0) || num_eqb new_dy (PInt 0) then Ok w
    else
      let '(pw, ph) := scroll_page (w_geometry w) in
      zx ← num_div pw new_dx; zy ← num_div ph new_dy;
      let w := set_zoom (num_min zx zy) w in
      let '(vx, vy) := scroll_value (w_geometry w) in
      let '(pw, ph) := scroll_page (w_geometry w) in
      let '(x1, y1) := from_pixels w (vx, vy) in
      rx ← num_add vx pw; ry ← num_add vy ph;
      let '(x2, y2) := from_pixels w (rx, ry) in
      width ← num_sub x2 x1; height ← num_sub y2 y1;
      cx ← num_add min_x max_x; cx ← num_div cx (PInt 2); cy ← num_add min_y max_y; cy ← num_div cy (PInt 2);
      hw ← num_div width (PInt 2); hh ← num_div height (PInt 2);
      x ← num_sub cx hw; y ← num_sub cy hh;
      Ok (put_geometry (scroll_to (x, y) (w_geometry w)) w).

(** ** Panning *)

Definition begin_panning (mouse : point) (w : window) : window :=
  let k := next_signal w in
  put_panning (Some (PanningState mouse (scroll_value (w_geometry w)) k)) (canvas_handlers w ++ [k]) (S k) w.
Definition end_panning (w : window) : window :=
  match panning w with
  | None => w
  | Some st => put_panning None (filter (fun k => k <> pan_signal st) (canvas_handlers w)) (next_signal w) w
  end.
Definition panning_motion (mouse : point) (w : window) : res window :=
  st ← or_raise AssertionError (panning w);
  let '(mx0, my0) := initial_mouse_pos st in
  let '(cx0, cy0) := initial_canvas_pos st in
  dx ← num_sub mouse.1 mx0; dy ← num_sub mouse.2 my0;
  x ← num_sub cx0 dx; y ← num_sub cy0 dy;
  Ok (put_geometry (set_scroll (x, y) (w_geometry w)) w).

(** ** Dragging a node *)

(** [mob.SetPosition] *)
Definition set_mobility (i : nat) (p : point) (net : network) : network :=
  Network (alter (fun n => Ns3Node (Some p) (devices n)) i (net_nodes net)) (net_channels net).

Definition begin_node_drag (i : nat) (devpos : point) (w : window) : window :=
  match mobility_of (w_net w) i with
  | None => w
  | Some pos =>
      match node_drag w with
      | Some _ => w
      | None =>
          let k := next_signal w in
          put_drag (Some (NodeDragState (from_pixels w devpos) pos k)) (<[k := i]> (node_handlers w)) (S k) w
      end
  end.

(** Where the drag takes the node, in the simulation. *)
Definition drag_position (st : node_drag_state) (p : point) : res point :=
  dx ← num_sub p.1 (drag_canvas0 st).1; dy ← num_sub p.2 (drag_canvas0 st).2;
  mx ← transform_distance_canvas_to_simulation dx; x ← num_add (drag_sim0 st).1 mx;
  my ← transform_distance_canvas_to_simulation dy; y ← num_add (drag_sim0 st).2 my;
  Ok (x, y).
Definition node_drag_motion (i : nat) (devpos : point) (w : window) : res window :=
  match mobility_of (w_net w) i, node_drag w with
  | None, _ | _, None => Ok w
  | Some _, Some st =>
      pos ← drag_position st (from_pixels w devpos);
      p ← transform_point_simulation_to_canvas pos;
      s ← set_position i p (w_scene w);
      Ok (put_scene s (put_net (set_mobility i pos (w_net w)) w))
  end.
Definition end_node_drag (i : nat) (w : window) : window :=
  match node_drag w with
  | None => w
  | Some st =>
      let hs := node_handlers w in
      put_drag None (if decide (hs !! motion_signal st = Some i) then delete (motion_signal st) hs else hs) (next_signal w) w
  end.

(** The handlers of the canvas and of a node when the pointer moves. *)
Definition canvas_motion (mouse : point) (w : window) : res window :=
  for_each (fun w _ => panning_motion mouse w) (canvas_handlers w) w.
Definition node_motion `{!DictOrder nat} (i : nat) (devpos : point) (w : window) : res window :=
  for_each (fun w _ => node_drag_motion i devpos w) (filter (fun k => node_handlers w !! k = Some i) (dict_keys (node_handlers w))) w.

(** ** The view *)

Section update.
(** [math.log], [math.atan2] and [PyViz.LineClipping]: the part of a line, given by its
    ends, that is inside a rectangle, given by two corners. *)
Context (ln : num -> num) (atan2 : num -> num -> num) (line_clipping : point -> point -> point -> point -> point * point).
Context `{!DictOrder nat, !DictOrder (nat * nat)}.

(** The lower right end of the visible part, in pixels. *)
Definition scroll_end (w : window) : res point :=
  let '(vx, vy) := scroll_value (w_geometry w) in
  let '(pw, ph) := scroll_page (w_geometry w) in
  rx ← num_add vx pw; ry ← num_add vy ph; Ok (rx, ry).

Definition get_label_over_line_position (w : window) (p1 p2 : point) : res point :=
  let b1 := from_pixels w (scroll_value (w_geometry w)) in
  e ← scroll_end w;
  let '(q1, q2) := line_clipping b1 (from_pixels w e) p1 p2 in
  x ← num_add q1.1 q2.1; x ← num_div x (PInt 2); y ← num_add q1.2 q2.2; y ← num_div y (PInt 2);
  Ok (x, y).

(** The two views of samples, on the window. *)
Definition show_transmissions : stateful window unit := fun w =>
  let '(ta, s, r) := transmissions_partly ln atan2 (get_label_over_line_position w) (w_node_size w) (w_period w)
                       (w_transmissions w) (transmission_arrows w, w_scene w) in
  (put_arrows ta (drop_arrows w) (put_scene s w), r).
Definition show_drops (edge_y : num) : stateful window unit := fun w =>
  let '(da, s, r) := drops_partly ln (w_node_size w) (w_period w) edge_y (w_drops w) (drop_arrows w, w_scene w) in
  (put_arrows (transmission_arrows w) da (put_scene s w), r).

(** What a handler leaves: the window and the exception that GTK prints, if there was one. *)
Definition left_window (x : window * res unit) : res (window * option py_exn) :=
  let '(w, r) := x in match r with Ok _ => Ok (w, None) | Raise e => Ok (w, Some e) | NoFuel => NoFuel end.
(** A handler that computes before it changes anything. *)
Definition computed (w : window) (r : res window) : res (window * option py_exn) :=
  match r with Ok w => Ok (w, None) | Raise e => Ok (w, Some e) | NoFuel => NoFuel end.

(** [update_view]; [windows] is what the updates of the information windows answer. *)
Definition update_view (windows : res unit) (w : window) : res (window * option py_exn) :=
  w ← update_node_positions w;
  left_window ((_ ← st_call windows;
             _ ← show_transmissions;
             w ← st_get (fun w => w); e ← st_call (scroll_end w);
             show_drops (from_pixels w (PInt 0, e.2)).2) w).

(** [node_size_changed]: the size of every node. *)
Definition node_size_changed (x : num) (w : window) : res window :=
  s ← for_each (fun s i => set_size x i s) (dict_keys (nodes (w_scene w))) (w_scene w);
  Ok (put_node_size x (put_scene s w)).

(** ** Events *)

(** The simulator changes the positions of the nodes; [Sampled] adds its samples to
    those of [smooth] periods.  A node whose button 2 is pressed grabs the pointer until
    it is released. *)
Inductive window_event :=
| Simulated (net : network) | Sampled (smooth : Z) (ts : list transmission) (ds : list packet_drop)
| UpdateView (windows : res unit) | Scrolled (d : scroll_direction) | Autoscale | Center (i : nat) | Follow (o : option nat) | NodeSize (x : num)
| Period (x : num) | PanPress (mouse : point) | PanMotion (mouse : point) | PanRelease
| NodePress (i : nat) (devpos : point) | NodeMotion (i : nat) (devpos : point) | NodeRelease
| SceneOp (op : scene_op).

(** The window after an event, with the exception of its handler: GTK prints it and goes
    on.  [Raise] is left for the handlers that place nodes, labels and icons, of which the
    model does not say what they leave when that raises. *)
Definition handle_event (e : window_event) (w : window) : res (window * option py_exn) :=
  match e with
  | UpdateView windows => update_view windows w
  | Scrolled d => computed w (snd <$> canvas_scroll_event d w)
  | Center i => computed w (center_on_node i w)
  | PanMotion mouse => computed w (canvas_motion mouse w)
  | _ =>
      w ← match e with
          | Simulated net => Ok (put_net net w)
          | Sampled n ts ds =>
              ts ← remember n (w_transmissions w) ts; ds ← remember n (w_drops w) ds; Ok (put_samples ts ds w)
          | Autoscale => autoscale_view w
          | Follow o => Ok (set_follow_node o w)
          | NodeSize x => node_size_changed x w
          | Period x => Ok (put_period x w)
          | PanPress mouse => Ok (begin_panning mouse w)
          | PanRelease => Ok (end_panning w)
          | NodePress i p =>
              let i := default i (grab w) in Ok (put_grab (Some i) (begin_node_drag i p w))
          | NodeMotion i p => node_motion (default i (grab w)) p w
          | NodeRelease =>
              match grab w with None => Ok w | Some i => Ok (put_grab None (end_node_drag i w)) end
          | SceneOp op => s ← scene_step (length (net_nodes (w_net w))) op (w_scene w); Ok (put_scene s w)
          | _ => Ok w
          end;
      Ok (w, None)
  end.
(** The window at the end, and the exceptions that were printed. *)
Fixpoint run_events (es : list window_event) (w : window) : res (window * list py_exn) :=
  match es with
  | [] => Ok (w, [])
  | e :: es => '(w, x) ← handle_event e w; '(w, xs) ← run_events es w; Ok (w, option_list x ++ xs)
  end.
End update.
End window.

(** ** Positions of the nodes *)

Lemma floats_spec p : floats p = true <-> is_float p.1 /\ is_float p.2.
Proof. destruct p as [[z|f] [z'|g]]; cbn; split; try done; try (by intros [[? ?] [? ?]]); intros _; split; by eexists. Qed.

(** The sum of a double and anything is a double. *)
Lemma add_float x y z : is_float x -> num_add x y = Ok z -> is_float z.
Proof. intros [f ->]. unfold num_add, arith. intros (g & _ & (h & _ & <-%ok_inj)%bind_ok)%bind_ok. by eexists. Qed.
Lemma transform_floats p q : transform_point_simulation_to_canvas p = Ok q -> floats q = true.
Proof.
  unfold transform_point_simulation_to_canvas. intros (x & Hx & (y & Hy & <-%ok_inj)%bind_ok)%bind_ok.
  assert (forall a b, num_mul a PIXELS_PER_METER = Ok b -> is_float b) as Hm; [|apply floats_spec; by split; eapply Hm].
  intros a b. unfold num_mul, arith. destruct a; intros H; [apply bind_ok in H as (f & _ & H)|]; apply bind_ok in H as (g & _ & H);
    try (apply bind_ok in H as (h & _ & H)); apply ok_inj in H as <-; by eexists.
Qed.
Lemma transform_returns p : floats p = true -> exists q, transform_point_simulation_to_canvas p = Ok q.
Proof.
  destruct p as [[|f] [|g]]; try done. intros _. unfold transform_point_simulation_to_canvas.
  assert (exists t, PIXELS_PER_METER = PFloat t) as [t ->] by (eexists; vm_compute; reflexivity). by eexists.
Qed.

Definition net_float (net : network) : Prop := forall i p, mobility_of net i = Some p -> floats p = true.

(** A node whose label and icon can follow it wherever it goes. *)
Definition placeable (n : canvas_node) : Prop :=
  forall p, floats p = true -> is_ok (icon_position p n) = true /\ is_ok (label_position p n) = true.

Lemma icon_position_again p q n v o : icon_position p n = Ok v -> is_ok (icon_position q n) = true -> is_ok (icon_position q (set_pos p v o n)) = true.
Proof.
  unfold icon_position. cbn. destruct (n_icon n) as [ic|]; [|by intros [= <-]]. intros (ic' & Hic & ->)%fmap_ok.
  rewrite update_svg_position_eq in Hic.
  apply bind_ok in Hic as (ax & Hax & Hic). apply bind_ok in Hic as (dx & Hdx & Hic). apply bind_ok in Hic as (px & _ & Hic).
  apply bind_ok in Hic as (ay & Hay & Hic). apply bind_ok in Hic as (dy & Hdy & Hic). apply bind_ok in Hic as (py & _ & <-%ok_inj).
  rewrite !update_svg_position_eq. cbn [icon_item svg_align_x svg_align_y width height move_item]. rewrite Hax. cbn [mbind result_bind].
  rewrite Hdx. cbn [mbind result_bind]. destruct (num_sub q.1 dx); [|done..]. cbn [mbind result_bind]. rewrite Hay. cbn [mbind result_bind].
  rewrite Hdy. cbn [mbind result_bind]. by destruct (num_sub q.2 dy).
Qed.
Lemma label_position_again p q n v o : label_position p n = Ok o -> is_ok (label_position q n) = true -> is_ok (label_position q (set_pos p v o n)) = true.
Proof.
  unfold label_position. cbn. destruct (n_label_pos n) as [r|]; [|by intros [= <-]].
  intros (d & Hd & (y & _ & <-%ok_inj)%bind_ok)%bind_ok. rewrite Hd. cbn [mbind result_bind]. by destruct (num_add q.2 d).
Qed.

Lemma set_position_placeable i p s : floats p = true -> (forall j n, nodes s !! j = Some n -> placeable n) -> is_Some (nodes s !! i) ->
  exists s', set_position i p s = Ok s' /\ (forall j n, nodes s' !! j = Some n -> placeable n) /\ dom (nodes s') = dom (nodes s).
Proof.
  intros Hp Hpl [n Hn]. assert (is_ok (set_position i p s) = true) as Hok.
  { unfold set_position. rewrite Hn. cbn [or_raise mbind result_bind]. destruct (Hpl i n Hn p Hp) as [H1 H2].
    destruct (icon_position p n); [|discriminate H1..]. cbn [mbind result_bind]. by destruct (label_position p n). }
  destruct (set_position i p s) as [s'| |] eqn:Hs; [|discriminate Hok..]. exists s'. split; [done|].
  apply set_position_shape in Hs as (n' & v & o & Hn' & Hv & Ho & Hns & _). rewrite Hn in Hn'. injection Hn' as <-. rewrite Hns. split.
  - intros j m. destruct (decide (i = j)) as [<-|Hj]; [rewrite lookup_insert_eq|rewrite lookup_insert_ne by done; apply Hpl].
    intros [= <-] q Hq. destruct (Hpl i n Hn q Hq) as [H1 H2]. split; [by eapply icon_position_again|by eapply label_position_again].
  - apply dom_insert_lookup_L. by eexists.
Qed.

Section positions.
Context {G : Type} `{!CanvasGeometry G} `{!DictOrder nat}.
Implicit Types w : window G.

Lemma half_float x : is_float x -> exists y, num_div x (PInt 2) = Ok y /\ is_float y.
Proof.
  intros [f ->]. assert (exists t, to_float (PInt 2) = Ok (SpecFloat.S754_finite false t (-51))) as [t Ht] by (eexists; vm_compute; reflexivity).
  eexists. unfold num_div, arith. rewrite Ht. split; [reflexivity|by eexists].
Qed.
(** Following only scrolls. *)
Lemma center_point_spec p w : exists g, center_point p w = Ok (put_geometry g w).
Proof.
  unfold center_point, to_pixels. pose proof (to_pixels_floats (bounds (w_scene w)) (w_geometry w) p) as Hp.
  pose proof (page_floats (w_geometry w)) as Hg. destruct (convert_to_pixels _ _ p) as [px py], (scroll_page (w_geometry w)) as [pw ph].
  apply floats_spec in Hp as [Hpx Hpy], Hg as [Hpw Hph]. cbn [fst snd] in *.
  destruct (half_float _ Hpw) as (hw & -> & Hhw), (half_float _ Hph) as (hh & -> & Hhh). cbn [mbind result_bind].
  destruct (sub_floats _ _ Hpx Hhw) as [x ->], (sub_floats _ _ Hpy Hhh) as [y ->]. by eexists.
Qed.

(** [w'] comes from [w] by moving nodes and scrolling. *)
Definition moved_nodes (w w' : window G) : Prop := exists s g, w' = put_geometry g (put_scene s w).
Lemma moved_refl w : moved_nodes w w.
Proof. exists (w_scene w), (w_geometry w). by destruct w. Qed.
Lemma moved_trans w1 w2 w3 : moved_nodes w1 w2 -> moved_nodes w2 w3 -> moved_nodes w1 w3.
Proof. intros (s & g & ->) (s' & g' & ->). by exists s', g'. Qed.

(** The node is where its mobility model says, if it has one. *)
Definition at_mobility (w : window G) (i : nat) (o : option point) : Prop :=
  match mobility_of (w_net w) i with
  | Some pos => exists p, transform_point_simulation_to_canvas pos = Ok p /\ o = Some p
  | None => True
  end.

Lemma update_node_position_moved w i w' : update_node_position w i = Ok w' -> moved_nodes w w' /\
  at_mobility w i (position_of (ANode i) (w_scene w')) /\
  (forall e, (e = ANode i -> mobility_of (w_net w) i = None) -> position_of e (w_scene w') = position_of e (w_scene w)).
Proof.
  unfold update_node_position, at_mobility. destruct (mobility_of (w_net w) i) as [pos|].
  - intros H. apply bind_ok in H as (p & Hp & H). apply bind_ok in H as (s & Hs & H). rewrite Hp.
    assert (exists g, w' = put_geometry g (put_scene s w)) as [g ->].
    { case_decide; [destruct (center_point_spec p (put_scene s w)) as [g Hg]; rewrite Hg in H; exists g; congruence|].
      injection H as <-. exists (w_geometry w). by destruct w. }
    split; [by exists s, g|]. cbn [w_scene put_geometry put_scene]. split.
    + rewrite (set_position_position _ _ _ _ _ Hs), decide_True by done. eauto.
    + intros e He. rewrite (set_position_position _ _ _ _ e Hs), decide_False; [done|]. intros Hi. by specialize (He Hi).
  - intros [= <-]. split; [apply moved_refl|]. by split.
Qed.

Lemma update_node_positions_moved ids w w' : for_each update_node_position ids w = Ok w' -> moved_nodes w w' /\
  (forall i, i ∈ ids -> at_mobility w i (position_of (ANode i) (w_scene w'))) /\
  (forall e, (forall i, i ∈ ids -> e = ANode i -> mobility_of (w_net w) i = None) -> position_of e (w_scene w') = position_of e (w_scene w)).
Proof.
  revert w. induction ids as [|i ids IH]; intros w H.
  - injection H as <-. split; [apply moved_refl|]. split; [by intros i ?%not_elem_of_nil|done].
  - cbn in H. apply bind_ok in H as (w1 & H1 & H). apply update_node_position_moved in H1 as ((s & g & ->) & Hi & Ho).
    destruct (IH _ H) as (Hm & Hin & Hout). split; [eapply moved_trans; [by exists s, g|exact Hm]|]. split.
    + intros j Hj. destruct (decide (j ∈ ids)) as [Hjs|Hjs]; [by apply Hin|]. apply elem_of_cons in Hj as [->|Hj]; [|done].
      rewrite Hout; [exact Hi|]. intros k Hk [= <-]. done.
    + intros e He. rewrite Hout; [apply Ho|]; [apply He; constructor|].
      intros j Hj. apply He. by constructor.
Qed.

Lemma update_node_positions_returns ids w : net_float (w_net w) -> (forall j n, nodes (w_scene w) !! j = Some n -> placeable n) ->
  (forall i, i ∈ ids -> i ∈ dom (nodes (w_scene w))) -> is_ok (for_each update_node_position ids w) = true.
Proof.
  revert w. induction ids as [|i ids IH]; intros w Hf Hp Hin; [done|]. cbn.
  assert (update_node_position w i = match mobility_of (w_net w) i with None => Ok w | Some pos =>
    p ← transform_point_simulation_to_canvas pos; s ← set_position i p (w_scene w);
    if decide (follow_node w = Some i) then center_point p (put_scene s w) else Ok (put_scene s w) end) as -> by done.
  destruct (mobility_of (w_net w) i) as [pos|] eqn:Hm; [|apply IH; [done..|set_solver]].
  destruct (transform_returns pos (Hf i pos Hm)) as [p Ht]. rewrite Ht. cbn [mbind result_bind].
  destruct (set_position_placeable i p (w_scene w) (transform_floats _ _ Ht) Hp) as (s & -> & Hps & Hd).
  { apply elem_of_dom, Hin. constructor. }
  cbn [mbind result_bind]. case_decide.
  - destruct (center_point_spec p (put_scene s w)) as [g ->]. cbn [mbind result_bind].
    apply IH; [done..|]. cbn. rewrite Hd. set_solver.
  - apply IH; [done..|]. cbn. rewrite Hd. set_solver.
Qed.

(** The update of the view puts every node with a mobility model where the
    simulation has it, moves nothing else and changes nothing but the scene and the
    scroll bars; it returns, unless a label or an icon cannot be placed. *)
Theorem positions_updated w : net_float (w_net w) -> (forall i n, nodes (w_scene w) !! i = Some n -> placeable n) ->
  exists w', update_node_positions w = Ok w' /\ moved_nodes w w' /\
    (forall i pos, is_Some (nodes (w_scene w) !! i) -> mobility_of (w_net w) i = Some pos ->
       exists p, transform_point_simulation_to_canvas pos = Ok p /\ position_of (ANode i) (w_scene w') = Some p) /\
    (forall e, (forall i, e = ANode i -> mobility_of (w_net w) i = None) -> position_of e (w_scene w') = position_of e (w_scene w)).
Proof.
  intros Hf Hp. unfold update_node_positions.
  assert (is_ok (for_each update_node_position (dict_keys (nodes (w_scene w))) w) = true) as Hok.
  { apply update_node_positions_returns; [done..|]. intros i Hi%elem_of_dict_keys. by apply elem_of_dom. }
  destruct (for_each _ _ w) as [w'| |] eqn:Hw; [|discriminate Hok..]. exists w'. split; [done|].
  apply update_node_positions_moved in Hw as (Hm & Hin & Hout). split; [done|]. split.
  - intros i pos Hi%elem_of_dict_keys Hpos. specialize (Hin i Hi). unfold at_mobility in Hin. by rewrite Hpos in Hin.
  - intros e He. apply Hout. intros i _ ->. by apply He.
Qed.
End positions.

(** ** What holds of the window between events *)

Definition scene_op_ok (op : scene_op) : Prop :=
  match op with MoveNode _ p | MoveChannel _ p => floats p = true | _ => True end.

Lemma scene_step_float n op s s' : scene_op_ok op -> scene_float s -> scene_step n op s = Ok s' -> scene_float s'.
Proof.
  intros Hop Hs H. pose proof (scene_step_consistent n op s s' (proj1 Hs) H) as Hgood. split; [done|].
  assert ((forall e, position_of e s' = position_of e s) -> forall e p, position_of e s' = Some p -> is_float p.1 /\ is_float p.2) as Hsame
    by (intros He e p; rewrite He; apply (proj2 Hs)).
  destruct op as [i|c|i e0|i p|c p|b i|c i|x i|t i|h wd ht ax ay i|o|m]; cbn in H.
  - destruct (get_node_later i s Hs) as (s1 & H1 & [_ Hf] & _). rewrite H1 in H. injection H as <-. exact Hf.
  - injection H as <-. unfold get_channel. destruct (channels s !! c) as [ch|] eqn:Hc; [apply Hs|].
    intros [i|d] p; [apply (proj2 Hs (ANode i))|]. cbn. destruct (decide (c = d)) as [<-|Hd].
    + rewrite lookup_insert_eq. intros [= <-]. split; by eexists.
    + rewrite lookup_insert_ne by done. apply (proj2 Hs (AChannel d)).
  - apply bind_ok in H as (? & _ & H). apply bind_ok in H as (? & _ & <-%ok_inj). apply Hsame. intros e.
    unfold create_link. rewrite !position_attach. by destruct e.
  - intros e q. rewrite (set_position_position _ _ _ _ e H). case_decide; [|apply Hs]. intros [= <-]. by apply floats_spec.
  - intros e q. rewrite (set_channel_position_position _ _ _ _ e H). case_decide; [|apply Hs]. intros [= <-]. by apply floats_spec.
  - apply Hsame. intros e. by eapply change_node_position in H.
  - apply Hsame. intros e. by eapply change_node_position in H.
  - apply Hsame. intros e. by eapply change_node_position in H.
  - apply Hsame. intros e. by eapply change_node_position in H.
  - apply Hsame. intros e. unfold set_svg_icon in H. destruct (_ && _)%bool; [done|]. apply bind_ok in H as (n0 & _ & H).
    destruct (n_pos n0). do 3 (apply bind_ok in H as (? & _ & H)). by eapply change_node_position in H.
  - apply Hsame. intros e. by eapply select_node_position in H.
  - injection H as <-. apply Hsame. intros e. unfold set_show_transmissions_mode, choose_nodes. by destruct m, e.
Qed.

Section invariant.
Context {G : Type} `{!CanvasGeometry G} (ln : num -> num) (atan2 : num -> num -> num)
  (line_clipping : point -> point -> point -> point -> point * point) `{!DictOrder nat, !DictOrder (nat * nat)}.
Implicit Types w : window G.
Notation handle_event := (handle_event ln atan2 line_clipping).

(** While a node is dragged it has the pointer and the only handler of motions. *)
Definition drag_good w : Prop :=
  match node_drag w with
  | None => node_handlers w = ∅
  | Some st => floats (drag_sim0 st) = true /\ exists i, grab w = Some i /\ node_handlers w = {[motion_signal st := i]}
  end.

(** What holds between events when the arrows [lt] and [ld] are in no pool. *)
Record window_good (lt ld : list nat) w : Prop := WindowGood {
  g_scene : scene_float (w_scene w);
  g_transmissions : arrows_hold lt (transmission_arrows w);
  g_drops : arrows_hold ld (drop_arrows w);
  g_net : net_float (w_net w);
  g_drag : drag_good w
}.

Arguments g_scene {_ _} _ _.
Arguments g_net {_ _} _ _.
Arguments g_drag {_ _} _ _.

Section lost.
Context (lt ld : list nat).

Lemma put_scene_good s g w : window_good lt ld w -> scene_float s -> window_good lt ld (put_geometry g (put_scene s w)).
Proof. intros [H1 H2 H3 H4 H5] Hs. by split. Qed.
Lemma put_scene_only s w : window_good lt ld w -> scene_float s -> window_good lt ld (put_scene s w).
Proof. intros [H1 H2 H3 H4 H5] Hs. by split. Qed.

Lemma update_node_position_good w i w' : window_good lt ld w -> update_node_position w i = Ok w' -> window_good lt ld w'.
Proof.
  intros Hw. unfold update_node_position. destruct (mobility_of (w_net w) i) as [pos|]; [|by intros [= <-]].
  intros H. apply bind_ok in H as (p & Hp & H). apply bind_ok in H as (s & Hs & H).
  assert (scene_float s) as Hsf.
  { eapply (scene_step_float 0 (MoveNode i p)); [by eapply transform_floats|apply (g_scene _ Hw)|exact Hs]. }
  case_decide; [|injection H as <-; by apply put_scene_only].
  destruct (center_point_spec p (put_scene s w)) as [g Hg]. rewrite Hg in H. injection H as <-. by apply put_scene_good.
Qed.
Lemma update_node_positions_good w w' : window_good lt ld w -> update_node_positions w = Ok w' -> window_good lt ld w'.
Proof. intros Hw H. eapply for_each_preserve; [|exact Hw|exact H]. intros. by eapply update_node_position_good. Qed.

(** An exception of the drawing may add to the arrows that are lost. *)
Definition good_after (x : option py_exn) w : Prop :=
  match x with None => window_good lt ld w | Some _ => exists lt' ld', window_good lt' ld' w end.

Lemma show_transmissions_good w w' r : window_good lt ld w -> show_transmissions ln atan2 line_clipping w = (w', r) ->
  if is_ok r then window_good lt ld w' else exists lt' ld', window_good lt' ld' w'.
Proof.
  intros [H1 H2 H3 H4 H5]. unfold show_transmissions. destruct (transmissions_partly _ _ _ _ _ _ _) as [[ta s] r'] eqn:H. intros [= <- <-].
  destruct (transmissions_hold _ _ _ _ _ _ lt _ _ _ _ _ H1 H2 H) as [Hs Ht].
  destruct (is_ok r'); [by split|]. destruct Ht as [lt' Ht]. exists lt', ld. by split.
Qed.
Lemma show_drops_good edge_y w w' r : window_good lt ld w -> show_drops ln edge_y w = (w', r) ->
  if is_ok r then window_good lt ld w' else exists lt' ld', window_good lt' ld' w'.
Proof.
  intros [H1 H2 H3 H4 H5]. unfold show_drops. destruct (drops_partly _ _ _ _ _ _) as [[da s] r'] eqn:H. intros [= <- <-].
  destruct (drops_hold _ _ _ _ _ ld _ _ _ _ _ H1 H3 H) as [Hs Hd].
  destruct (is_ok r'); [by split|]. destruct Hd as [ld' Hd]. exists lt, ld'. by split.
Qed.
Lemma update_view_good windows w w' x : window_good lt ld w -> update_view ln atan2 line_clipping windows w = Ok (w', x) -> good_after x w'.
Proof.
  intros Hw. unfold update_view. intros (w1 & H1 & H)%bind_ok. apply (update_node_positions_good w w1 Hw) in H1. clear Hw.
  destruct (mbind (M := stateful _) _ _ w1) as [w2 r] eqn:H2 in H.
  assert (if is_ok r then window_good lt ld w2 else exists lt' ld', window_good lt' ld' w2) as Hw2.
  { assert (forall r : res unit, is_ok r = false -> if is_ok r then window_good lt ld w1 else exists lt' ld', window_good lt' ld' w1) as Hraise
      by (intros r1 ->; by exists lt, ld).
    apply st_bind_inv in H2 as [([] & w3 & [= <- ->] & H2)|[[= <- _] Hr]]; [|by apply Hraise].
    apply st_bind_inv in H2 as [([] & w3 & H3 & H2)|[H3 Hr]].
    2: { apply (show_transmissions_good _ _ _ H1) in H3. rewrite Hr. by destruct r. }
    pose proof (show_transmissions_good _ _ _ H1 H3) as Hw3. cbn in Hw3. clear Hraise H1 H3.
    apply st_bind_inv in H2 as [(? & ? & [= <- <-] & H2)|[? Hr]]; [|by destruct r].
    apply st_bind_inv in H2 as [(e & ? & [= <- He] & H2)|[[= <- _] Hr]]; [by eapply show_drops_good|].
    rewrite Hr. eauto. }
  destruct r as [[]|e|]; [injection H as <- <-; exact Hw2..|discriminate H].
Qed.

Lemma canvas_scroll_good d w r w' : window_good lt ld w -> canvas_scroll_event d w = Ok (r, w') -> window_good lt ld w'.
Proof.
  intros [H1 H2 H3 H4 H5]. destruct d; cbn; [intros (x & _ & [= _ <-])%bind_ok|intros (x & _ & [= _ <-])%bind_ok|by intros [= _ <-]];
    unfold set_zoom; destruct (num_eqb _ _); by split.
Qed.

Lemma set_zoom_good x w : window_good lt ld w -> window_good lt ld (set_zoom x w).
Proof. intros [H1 H2 H3 H4 H5]. unfold set_zoom. destruct (num_eqb _ _); by split. Qed.
Lemma autoscale_good w w' : window_good lt ld w -> autoscale_view w = Ok w' -> window_good lt ld w'.
Proof.
  intros Hw. unfold autoscale_view. case_decide as He; [by intros [= <-]|]. intros H. apply bind_ok in H as (w1 & H1 & H).
  apply (update_node_positions_good w w1 Hw) in H1. do 4 (apply bind_ok in H as (? & _ & H)).
  destruct (to_pixels _ _), (to_pixels _ _). do 4 (apply bind_ok in H as (? & _ & H)). destruct (_ || _)%bool; [by injection H as <-|].
  destruct (scroll_page _). do 2 (apply bind_ok in H as (? & _ & H)). set (w2 := set_zoom _ w1) in H.
  assert (window_good lt ld w2) as [G1 G2 G3 G4 G5] by (by apply set_zoom_good). clearbody w2.
  destruct (scroll_value _), (scroll_page _), (from_pixels _ _). do 2 (apply bind_ok in H as (? & _ & H)). destruct (from_pixels _ _).
  do 10 (apply bind_ok in H as (? & _ & H)). apply ok_inj in H as <-. by split.
Qed.

Lemma set_mobility_float i p net : floats p = true -> net_float net -> net_float (set_mobility i p net).
Proof.
  intros Hp Hn j q. unfold mobility_of. cbn. destruct (decide (i = j)) as [<-|Hj].
  - rewrite list_lookup_alter_eq. destruct (net_nodes net !! i) as [nd|]; cbn; [by intros [= <-]|done].
  - rewrite list_lookup_alter_ne by done. apply Hn.
Qed.

Lemma drag_position_floats st p q : floats (drag_sim0 st) = true -> drag_position st p = Ok q -> floats q = true.
Proof.
  intros [Hx Hy]%floats_spec. unfold drag_position. intros H. do 3 (apply bind_ok in H as (? & _ & H)).
  apply bind_ok in H as (rx & H1 & H). apply bind_ok in H as (? & _ & H). apply bind_ok in H as (ry & H2 & <-%ok_inj).
  apply floats_spec. split; cbn; [by eapply (add_float _ _ rx Hx)|by eapply (add_float _ _ ry Hy)].
Qed.

Lemma node_drag_motion_good i p w w' : window_good lt ld w -> node_drag_motion i p w = Ok w' -> window_good lt ld w'.
Proof.
  intros [H1 H2 H3 H4 H5]. unfold node_drag_motion. destruct (mobility_of (w_net w) i); [|by intros [= <-]].
  destruct (node_drag w) as [st|] eqn:Hd; [|by intros [= <-]]. intros H. apply bind_ok in H as (pos & Hpos & H).
  apply bind_ok in H as (q & Hq & H). apply bind_ok in H as (s & Hs & <-%ok_inj). pose proof H5 as Hg. unfold drag_good in Hg. rewrite Hd in Hg.
  split; [|done|done| |done].
  - eapply (scene_step_float 0 (MoveNode i q)); [by eapply transform_floats|exact H1|exact Hs].
  - apply set_mobility_float; [|done]. eapply drag_position_floats, Hpos. by destruct Hg.
Qed.

Lemma begin_node_drag_good i p w : window_good lt ld w -> (node_drag w <> None -> grab w = Some i) ->
  window_good lt ld (put_grab (Some i) (begin_node_drag i p w)).
Proof.
  intros [H1 H2 H3 H4 H5] Hg. unfold begin_node_drag. unfold drag_good in H5.
  assert (window_good lt ld (put_grab (Some i) w)) as Hsame.
  { split; [done..|]. unfold drag_good. cbn. destruct (node_drag w) as [st|] eqn:Hd; [|done]. destruct H5 as [Hf (j & Hj & Hh)].
    rewrite Hg in Hj by congruence. injection Hj as <-. eauto. }
  destruct (mobility_of (w_net w) i) as [pos|] eqn:Hm; [|done]. destruct (node_drag w) as [st|] eqn:Hd; [done|].
  split; [done..|]. unfold drag_good. cbn. split; [by eapply H4|]. exists i. split; [done|]. by rewrite H5.
Qed.
Lemma end_node_drag_good i w : window_good lt ld w -> grab w = Some i -> window_good lt ld (put_grab None (end_node_drag i w)).
Proof.
  intros [H1 H2 H3 H4 H5] Hi. unfold end_node_drag, drag_good in *. destruct (node_drag w) as [st|] eqn:Hd; (split; [done..|]); unfold drag_good; cbn.
  - destruct H5 as [_ (j & Hj & ->)]. rewrite Hi in Hj. injection Hj as <-. rewrite lookup_singleton_eq, decide_True by done. apply delete_singleton_eq.
  - by rewrite Hd.
Qed.

(** Positions from the simulator are doubles, as are those the user gives. *)
Definition event_ok (e : window_event) : Prop :=
  match e with Simulated net => net_float net | SceneOp op => scene_op_ok op | _ => True end.

Lemma center_on_node_good i w w' : window_good lt ld w -> center_on_node i w = Ok w' -> window_good lt ld w'.
Proof.
  intros [H1 H2 H3 H4 H5]. unfold center_on_node. intros (p & _ & H)%bind_ok. destruct (center_point_spec p w) as [g Hg].
  rewrite Hg in H. injection H as <-. by split.
Qed.
Lemma canvas_motion_good m w w' : window_good lt ld w -> canvas_motion m w = Ok w' -> window_good lt ld w'.
Proof.
  intros Hw H. unfold canvas_motion in H. eapply (for_each_preserve _ (window_good lt ld)); [|exact Hw|exact H].
  intros w1 k w2 [G1 G2 G3 G4 G5]. unfold panning_motion. intros H'. apply bind_ok in H' as (st & _ & H').
  destruct (initial_mouse_pos st), (initial_canvas_pos st). do 4 (apply bind_ok in H' as (? & _ & H')). apply ok_inj in H' as <-. by split.
Qed.

(** A handler that computes first leaves the window as it was when it raises. *)
Lemma computed_good r w w' x : window_good lt ld w -> (forall w1, r = Ok w1 -> window_good lt ld w1) -> computed w r = Ok (w', x) -> good_after x w'.
Proof. intros Hw Hr. destruct r as [w1|e|]; [|..|done]; intros [= <- <-]; cbn; eauto. Qed.

Lemma handle_event_good e w w' x : event_ok e -> window_good lt ld w -> handle_event e w = Ok (w', x) -> good_after x w'.
Proof.
  intros He Hw H. pose proof Hw as [H1 H2 H3 H4 H5].
  destruct e as [net|n ts ds|windows|d| |i|o|y|y|m|m| |i p|i p| |op]; cbn beta iota zeta delta [VizView.handle_event] in H;
    try (apply bind_ok in H as (w1 & H & [= <- <-]); cbn [good_after]).
  - injection H as <-. by split.
  - apply bind_ok in H as (? & _ & H). apply bind_ok in H as (? & _ & <-%ok_inj). by split.
  - by eapply update_view_good.
  - eapply computed_good in H; [done..|]. intros w1 ([r w2] & Hs & ->)%fmap_ok. by eapply canvas_scroll_good.
  - by eapply autoscale_good.
  - eapply computed_good in H; [done..|]. intros w1 Hc. by eapply center_on_node_good.
  - injection H as <-. by split.
  - unfold node_size_changed in H. apply bind_ok in H as (s & Hs & <-%ok_inj). split; [|done..].
    eapply (for_each_preserve (fun s i => set_size y i s) scene_float); [|exact H1|exact Hs].
    intros s1 i s2 Hs1 Hs2. by eapply (scene_step_float 0 (SetSize y i)).
  - injection H as <-. by split.
  - injection H as <-. by split.
  - eapply computed_good in H; [done..|]. intros w1 Hc. by eapply canvas_motion_good.
  - injection H as <-. unfold end_panning. by destruct (panning w); split.
  - injection H as <-. apply begin_node_drag_good; [done|]. intros Hd. unfold drag_good in H5.
    destruct (node_drag w); [|done]. destruct H5 as (_ & j & -> & _). done.
  - eapply (for_each_preserve _ (window_good lt ld)); [|exact Hw|exact H]. intros w2 k w3 Hw1 Hw2. exact (node_drag_motion_good _ _ _ _ Hw1 Hw2).
  - destruct (grab w) as [i|] eqn:Hi; injection H as <-; [|done]. by apply end_node_drag_good.
  - apply bind_ok in H as (s & Hs & <-%ok_inj). apply put_scene_only; [done|]. by eapply scene_step_float.
Qed.
End lost.


(** ** Dragging *)

Definition motion (e : window_event) : Prop := match e with NodeMotion _ _ => True | _ => False end.

(** The node [i] is being dragged since the window was [w0]. *)
Record dragging (i : nat) (st : node_drag_state) w0 w : Prop := Dragging {
  h_grab : grab w = Some i;
  h_drag : node_drag w = Some st;
  h_handlers : node_handlers w = {[motion_signal st := i]};
  h_mobile : is_Some (mobility_of (w_net w) i);
  h_others : forall j, j <> i -> mobility_of (w_net w) j = mobility_of (w_net w0) j;
  h_scene : forall e, e <> ANode i -> position_of e (w_scene w) = position_of e (w_scene w0)
}.

Lemma motion_step i st w0 w j p w' x : dragging i st w0 w -> handle_event (NodeMotion j p) w = Ok (w', x) ->
  dragging i st w0 w' /\ exists pos q, drag_position st (from_pixels w p) = Ok pos /\ transform_point_simulation_to_canvas pos = Ok q /\
    mobility_of (w_net w') i = Some pos /\ position_of (ANode i) (w_scene w') = Some q.
Proof.
  intros [Hg Hd Hh [pos0 Hm] Hn Hs]. cbn. rewrite Hg. cbn [default]. unfold node_motion. rewrite Hh.
  assert (dict_keys ({[motion_signal st := i]} : gmap nat nat) = [motion_signal st]) as ->.
  { apply Permutation_singleton_r. rewrite dict_keys_perm, map_to_list_singleton. done. }
  rewrite filter_cons, filter_nil. rewrite decide_True by apply lookup_singleton_eq. cbn [for_each from_option id].
  intros H. apply bind_ok in H as (w2 & H & [= <- _]). apply bind_ok in H as (w1 & H & <-%ok_inj). unfold node_drag_motion in H. rewrite Hm, Hd in H.
  apply bind_ok in H as (pos & Hpos & H). apply bind_ok in H as (q & Hq & H). apply bind_ok in H as (s & Hs' & <-%ok_inj).
  assert (mobility_of (set_mobility i pos (w_net w)) i = Some pos) as Hmi.
  { unfold mobility_of in *. cbn. rewrite list_lookup_alter_eq. by destruct (net_nodes (w_net w) !! i). }
  split.
  - split; [done|done|done| | |]; cbn [w_net w_scene put_scene put_net].
    + rewrite Hmi. by eexists.
    + intros k Hk. rewrite <- Hn by done. unfold mobility_of. cbn. by rewrite list_lookup_alter_ne by congruence.
    + intros e He. rewrite (set_position_position _ _ _ _ e Hs'), decide_False by done. by apply Hs.
  - exists pos, q. split; [done|]. split; [done|]. split; [done|]. cbn. 
    pose proof (set_position_position _ _ _ _ (ANode i) Hs') as Hp. by rewrite decide_True in Hp by done.
Qed.

Lemma motions_drag es i st w0 w w1 raised : Forall motion es -> dragging i st w0 w ->
  run_events ln atan2 line_clipping es w = Ok (w1, raised) -> dragging i st w0 w1.
Proof.
  intros Hes. revert w raised. induction Hes as [|e es He Hes IH]; intros w raised Hd H; [by injection H as <- _|].
  cbn in H. apply bind_ok in H as ([w2 x] & H2 & H). apply bind_ok in H as ([w3 xs] & H3 & [= <- _]). apply (IH w2 xs); [|done].
  destruct e; try done. by eapply motion_step in H2 as [? _].
Qed.

(** While a node is dragged, it is moved in the simulation from where it was when its
    button was pressed by as much as the pointer has moved since, whatever the motions
    in between; it is drawn there, and no other node moves. *)
Theorem drag_follows es i j p0 p pos0 lt ld w w1 w2 raised x :
  window_good lt ld w -> grab w = None -> mobility_of (w_net w) i = Some pos0 -> Forall motion es ->
  run_events ln atan2 line_clipping (NodePress i p0 :: es) w = Ok (w1, raised) -> handle_event (NodeMotion j p) w1 = Ok (w2, x) ->
  exists st pos q, drag_canvas0 st = from_pixels w p0 /\ drag_sim0 st = pos0 /\
    drag_position st (from_pixels w1 p) = Ok pos /\ transform_point_simulation_to_canvas pos = Ok q /\
    mobility_of (w_net w2) i = Some pos /\ position_of (ANode i) (w_scene w2) = Some q /\
    (forall k, k <> i -> mobility_of (w_net w2) k = mobility_of (w_net w) k) /\
    (forall e, e <> ANode i -> position_of e (w_scene w2) = position_of e (w_scene w)).
Proof.
  intros Hw Hg Hm Hes H1 H2. set (st := NodeDragState (from_pixels w p0) pos0 (next_signal w)).
  assert (dragging i st w w1) as Hd.
  { cbn in H1. rewrite Hg in H1. cbn [default from_option id] in H1. unfold begin_node_drag in H1. rewrite Hm in H1.
    pose proof (g_drag _ Hw) as Hdr. unfold drag_good in Hdr. destruct (node_drag w) as [st'|]; [destruct Hdr as (_ & k & Hk & _); congruence|].
    assert (dragging i st w (put_grab (Some i) (put_drag (Some st) (<[next_signal w := i]> (node_handlers w)) (S (next_signal w)) w))) as Hd.
    { split; [done|done|by cbn; rewrite Hdr|by eexists|done|done]. }
    apply bind_ok in H1 as ([w3 xs] & H1 & [= <- <-]). by eapply motions_drag. }
  destruct (motion_step i st w w1 j p w2 x Hd H2) as ([_ _ _ _ Hn Hs] & pos & q & Hp & Hq & Hmi & Hpi).
  exists st, pos, q. auto 10.
Qed.
End invariant.

(** ** Examples *)

(** A canvas without margins: pixels are multiples of the distance from the corner. *)
Record flat_canvas := Flat { fl_scale : SpecFloat.spec_float; fl_scroll : SpecFloat.spec_float * SpecFloat.spec_float;
  fl_page : SpecFloat.spec_float * SpecFloat.spec_float }.
Definition double_of (x : num) : SpecFloat.spec_float := match x with PFloat f => f | PInt z => match float_of_Z z with Ok f => f | _ => SpecFloat.S754_nan end end.
Definition pair_of (p : SpecFloat.spec_float * SpecFloat.spec_float) : point := (PFloat p.1, PFloat p.2).
Definition scale_by (s x : SpecFloat.spec_float) : SpecFloat.spec_float := SpecFloat.SFmul 53 1024 s x.
Definition sub_of (x y : num) : SpecFloat.spec_float := SpecFloat.SFsub 53 1024 (double_of x) (double_of y).
Definition unscale (s : SpecFloat.spec_float) (x o : num) : SpecFloat.spec_float :=
  SpecFloat.SFadd 53 1024 (SpecFloat.SFdiv 53 1024 (double_of x) s) (double_of o).
#[export, refine] Instance flat_geometry : CanvasGeometry flat_canvas := {|
  convert_to_pixels b g p := pair_of (scale_by (fl_scale g) (sub_of p.1 b.1.1), scale_by (fl_scale g) (sub_of p.2 b.1.2));
  convert_from_pixels b g p := pair_of (unscale (fl_scale g) p.1 b.1.1, unscale (fl_scale g) p.2 b.1.2);
  set_scale z g := Flat (double_of z) (fl_scroll g) (fl_page g);
  scroll_to p g := Flat (fl_scale g) (double_of p.1, double_of p.2) (fl_page g);
  scroll_value g := pair_of (fl_scroll g);
  scroll_page g := pair_of (fl_page g);
  set_scroll p g := Flat (fl_scale g) (double_of p.1, double_of p.2) (fl_page g);
  zoom_value z := num_max (frac 1 100) (num_min z (frac 9 1))
|}.
Proof. all: done. Defined.

Definition demo_net : network :=
  Network [Ns3Node (Some (frac 1 1, frac 2 1)) []; Ns3Node None []; Ns3Node (Some (frac 5 1, frac 4 1)) []] ∅.
Definition demo_scene_of : res scene := run_scene 3 [GetNode 0; GetNode 1; GetNode 2; CreateLink 0 (ANode 1)] (empty_scene 3).
Definition open_window (z : num) (s : scene) : window flat_canvas :=
  Window demo_net s (Flat (double_of z) (double_of zero, double_of zero) (double_of (frac 600 1), double_of (frac 450 1))) z
    (frac 1 1) (frac 1 10) (Arrows [] []) (Arrows [] []) [] [] None None None ∅ [] 0 None.
Definition demo_clip (b1 b2 p q : point) : point * point := (p, q).
Definition run_demo (es : list window_event) (w : window flat_canvas) := run_events demo_ln demo_atan2 demo_clip es w.

Definition demo_events : list window_event :=
  [UpdateView (Ok ()); Sampled 5 [Transmission 0 2 500] [PacketDrop 1 64]; UpdateView (Ok ()); NodePress 2 (frac 10 1, frac 10 1);
   NodeMotion 0 (frac 40 1, frac 10 1); NodeMotion 0 (frac 70 1, frac 40 1); NodeRelease; Follow (Some 2%nat); UpdateView (Raise OtherError);
   Sampled 5 [Transmission 0 2 0] []; Sampled 1 [Transmission 0 1 0] []; UpdateView (Ok ()); UpdateView (Ok ())].

Lemma empty_window_good z s : run_scene 3 [GetNode 0; GetNode 1; GetNode 2; CreateLink 0 (ANode 1)] (empty_scene 3) = Ok s ->
  window_good [] [] (open_window z s).
Proof.
  intros Hs. split; [|constructor|constructor| |reflexivity].
  - apply scene_floats; [by eapply run_scene_good| |].
    + by apply (ok_test (fun s => forallb (fun n => floats (n_pos n.2)) (map_to_list (nodes s))) demo_scene_of); [|vm_compute].
    + by apply (ok_test (fun s => forallb (fun c => floats (c_pos c.2)) (map_to_list (channels s))) demo_scene_of); [|vm_compute].
  - intros i p. unfold mobility_of. destruct i as [|[|[|i]]]; cbn; by intros [= <-].
Qed.


(** The arrows that the last two updates had taken or made are in no pool and stay visible. *)
Example arrow_left_out : (s ← demo_scene_of; '(w, _) ← run_demo demo_events (open_window (frac 1 1) s);
    Ok (pool (transmission_arrows w), visible <$> items (transmission_arrows w))) = Ok ([], [true; true]).
Proof. vm_compute. reflexivity. Qed.

(** Node 2 has followed the pointer by 60 and 30 pixels, 20 and 10 metres. *)
Lemma drag_follows_witness : exists s w1 w2 pos, demo_scene_of = Ok s /\
  run_demo [NodePress 2 (frac 10 1, frac 10 1); NodeMotion 0 (frac 40 1, frac 10 1)] (open_window (frac 1 1) s) = Ok (w1, []) /\
  handle_event demo_ln demo_atan2 demo_clip (NodeMotion 0 (frac 70 1, frac 40 1)) w1 = Ok (w2, None) /\
  mobility_of (w_net w2) 2 = Some pos /\ pos = (frac 25 1, frac 14 1).
Proof.
  assert ((s ← demo_scene_of;
      '(w, xs) ← run_demo [NodePress 2 (frac 10 1, frac 10 1); NodeMotion 0 (frac 40 1, frac 10 1)] (open_window (frac 1 1) s);
      '(w, x) ← handle_event demo_ln demo_atan2 demo_clip (NodeMotion 0 (frac 70 1, frac 40 1)) w;
      Ok (xs, x, mobility_of (w_net w) 2)) = Ok ([], None, Some (frac 25 1, frac 14 1))) as H
    by (vm_compute; reflexivity).
  destruct demo_scene_of as [s| |] eqn:Hs; [|discriminate H..]. cbn [mbind result_bind] in H.
  destruct (run_demo _ _) as [[w1 xs]| |] eqn:H1; [|discriminate H..]. cbn [mbind result_bind] in H.
  destruct (handle_event _ _ _ _ w1) as [[w2 x]| |] eqn:H2; [|discriminate H..]. cbn [mbind result_bind] in H. injection H as -> -> H.
  destruct (drag_follows demo_ln demo_atan2 demo_clip [NodeMotion 0 (frac 40 1, frac 10 1)] 2 0 (frac 10 1, frac 10 1) (frac 70 1, frac 40 1)
    (frac 5 1, frac 4 1) [] [] (open_window (frac 1 1) s) w1 w2 [] None) as (st & pos & q & _ & _ & _ & _ & Hm & _).
  - by apply empty_window_good.
  - reflexivity.
  - reflexivity.
  - repeat constructor.
  - exact H1.
  - exact H2.
  - exists s, w1, w2, pos. split; [reflexivity|]. split; [exact H1|]. split; [exact H2|]. split; [exact Hm|].
    rewrite Hm in H. by injection H as <-.
Defined.

Lemma positions_updated_witness : exists s w, demo_scene_of = Ok s /\ update_node_positions (open_window (frac 1 1) s) = Ok w /\
  position_of (ANode 2) (w_scene w) = Some (frac 15 1, frac 12 1).
Proof.
  assert (is_ok demo_scene_of = true) as H by (vm_compute; reflexivity).
  destruct demo_scene_of as [s| |] eqn:Hs; [|discriminate H..]. exists s.
  destruct (positions_updated (open_window (frac 1 1) s)) as (w & Hw & _ & Hp & _).
  - apply (g_net [] [] _ (empty_window_good (frac 1 1) s Hs)).
  - assert (forallb (fun n => bool_decide (n_icon n.2 = None) && bool_decide (n_label_pos n.2 = None)) (map_to_list (nodes s)) = true) as Hn
      by (by apply (ok_test (fun s => forallb _ (map_to_list (nodes s))) demo_scene_of); [|vm_compute]).
    rewrite forallb_forall in Hn. intros i n Hi p _. specialize (Hn (i, n)). rewrite <- list_elem_of_In, elem_of_map_to_list in Hn.
    apply andb_prop in Hn as [H1%bool_decide_eq_true H2%bool_decide_eq_true]; [|exact Hi]. cbn in H1, H2.
    unfold icon_position, label_position. by rewrite H1, H2.
  - exists w. split; [reflexivity|]. split; [exact Hw|]. destruct (Hp 2%nat (frac 5 1, frac 4 1)) as (p & Ht & ->).
    + pose proof (ok_test (fun s => if nodes s !! 2%nat then true else false) demo_scene_of s Hs ltac:(by vm_compute)) as H2.
      cbn in H2 |- *. destruct (nodes s !! 2%nat); [by eexists|discriminate H2].
    + reflexivity.
    + vm_compute in Ht. injection Ht as <-. vm_compute. reflexivity.
Defined.

(** A double click with the middle button begins to pan twice before the second release:
    the handler of the first stays, and fails at every motion that follows. *)
Example double_click_pan : (s ← demo_scene_of;
    (fun x => canvas_handlers x.1) <$> run_demo [PanPress (frac 5 1, frac 5 1); PanRelease; PanPress (frac 5 1, frac 5 1);
      PanPress (frac 5 1, frac 5 1); PanRelease] (open_window (frac 1 1) s)) = Ok [1%nat].
Proof. vm_compute. reflexivity. Qed.
Example double_click_motion : (s ← demo_scene_of;
    snd <$> run_demo [PanPress (frac 5 1, frac 5 1); PanRelease; PanPress (frac 5 1, frac 5 1); PanPress (frac 5 1, frac 5 1);
      PanRelease; PanMotion (frac 6 1, frac 5 1); PanMotion (frac 7 1, frac 5 1)] (open_window (frac 1 1) s)) = Ok [AssertionError; AssertionError].
Proof. vm_compute. reflexivity. Qed.

(** The size of the topology is measured in pixels of the present zoom, the new zoom is
    not: with zoom 8 the result is half of that with zoom 4. *)
Example autoscale_zoomed : (s ← demo_scene_of; w4 ← autoscale_view (open_window (frac 4 1) s); w8 ← autoscale_view (open_window (frac 8 1) s);
    Ok (w_zoom w4, w_zoom w8)) = Ok (frac 25 4, frac 25 8).
Proof. vm_compute. reflexivity. Qed.
