(* ===== verification/VizPlugins.v ===== *)
(** * The plugins of the visualizer ([src/visualizer/visualizer/plugins]): interface
    statistics, links between WiFi stations and access points, and the packet
    filter.  Their windows and menus are not modelled. *)
From S2P Require Import Prelude PyNum PyString VizSvg VizScene.
#[local] Open Scope Z_scope.

(** ** [interface_statistics.py] *)

Record raw_stats := RawStats { transmittedPackets : Z; transmittedBytes : Z; receivedPackets : Z; receivedBytes : Z }.
Record net_dev_stats := NetDevStats {
  txPackets : Z; txBytes : Z; rxPackets : Z; rxBytes : Z;
  txPacketRate : num; txBitRate : num; rxPacketRate : num; rxBitRate : num }.

Definition NODE_STATISTICS_MEMORY : nat := 10.

(** [while len(raw_stats_list) > NODE_STATISTICS_MEMORY: raw_stats_list.pop(0)] *)
Fixpoint trim_samples {A} (l : list A) : list A :=
  match l with
  | [] => []
  | _ :: l' => if decide (NODE_STATISTICS_MEMORY < length l)%nat then trim_samples l' else l
  end.

(** [node_statistics]: of every node its last samples, a list with an entry for each
    interface. *)
Abbreviation collector := (gmap nat (list (list raw_stats))).
Definition add_statistics (c : collector) (stats : nat * list raw_stats) : collector :=
  <[stats.1 := trim_samples (default [] (c !! stats.1) ++ [stats.2])]> c.
Definition statistics_periodic_update (c : collector) (nodes_statistics : list (nat * list raw_stats)) : collector :=
  foldl add_statistics c nodes_statistics.

Definition interface_rates (k : num) (s s1 : raw_stats) : res net_dev_stats :=
  tp ← num_div (PInt (transmittedPackets s - transmittedPackets s1)) k;
  rp ← num_div (PInt (receivedPackets s - receivedPackets s1)) k;
  tb ← num_div (PInt ((transmittedBytes s - transmittedBytes s1) * 8)) k;
  rb ← num_div (PInt ((receivedBytes s - receivedBytes s1) * 8)) k;
  Ok (NetDevStats (transmittedPackets s) (transmittedBytes s) (receivedPackets s) (receivedBytes s) tp tb rp rb).
(** For each interface of the last sample, the one of that index in the first. *)
Fixpoint all_rates (k : num) (stats stats1 : list raw_stats) : res (list net_dev_stats) :=
  match stats with
  | [] => Ok []
  | s :: stats =>
      s1 ← or_raise IndexError (head stats1);
      out ← interface_rates k s s1; retval ← all_rates k stats (tail stats1); Ok (out :: retval)
  end.
Definition get_interface_statistics (sample_period : num) (nodeId : nat) (c : collector) : res (list net_dev_stats) :=
  match c !! nodeId with
  | None => Ok []
  | Some raw_stats_list =>
      if decide (length raw_stats_list < NODE_STATISTICS_MEMORY)%nat then Ok []
      else
        _ ← py_assert (bool_decide (length raw_stats_list = NODE_STATISTICS_MEMORY));
        first ← py_get raw_stats_list 0; last ← py_get raw_stats_list (-1);
        k ← num_mul sample_period (PInt (Z.of_nat NODE_STATISTICS_MEMORY - 1));
        all_rates k last first
  end.

(** ** [wifi_intrastructure_link.py] *)

(** A link; [w_ap] is [node2].  [WifiLink.destroy] removes its canvas item. *)
Record wifi_link := WifiLink {
  w_sta : nat; w_ap : option nat; w_visible : bool; w_points : option (point * point); w_destroyed : bool }.
(** The monitor: the links, those in the list of each node, the nodes of the access
    points by their address, and the stations: device, node and link. *)
Record wifi_monitor := WifiMonitor {
  wifi_links : list wifi_link; wifi_node_links : gmap nat (list nat);
  access_points : gmap text nat; stations : list (nat * nat * nat) }.

Definition with_wifi_links l (m : wifi_monitor) : wifi_monitor := WifiMonitor l (wifi_node_links m) (access_points m) (stations m).
Definition with_node_links d (m : wifi_monitor) : wifi_monitor := WifiMonitor (wifi_links m) d (access_points m) (stations m).

Section wifi.
(** [get_position] of the nodes. *)
Context (get_position : nat -> point).

Definition update_link_points (l : wifi_link) : wifi_link :=
  match w_ap l with
  | None => l
  | Some ap => WifiLink (w_sta l) (w_ap l) (w_visible l) (Some (get_position (w_sta l), get_position ap)) (w_destroyed l)
  end.

Definition links_at (i : nat) (m : wifi_monitor) : list nat := default [] (wifi_node_links m !! i).
Definition remove_wifi_link (i k : nat) (m : wifi_monitor) : res wifi_monitor :=
  if decide (k ∈ links_at i m) then Ok (with_node_links (<[i := remove_first k (links_at i m)]> (wifi_node_links m)) m)
  else Raise ValueError.
Definition add_wifi_link (i k : nat) (m : wifi_monitor) : wifi_monitor :=
  with_node_links (<[i := links_at i m ++ [k]]> (wifi_node_links m)) m.

Definition set_ap (k : nat) (ap : option nat) (m : wifi_monitor) : res wifi_monitor :=
  l ← or_raise AttributeError (wifi_links m !! k);
  if decide (ap = w_ap l) then Ok m
  else
    m ← (match w_ap l with None => Ok m | Some i => remove_wifi_link i k m end);
    let m := match ap with None => m | Some i => add_wifi_link i k m end in
    let l := WifiLink (w_sta l) ap (bool_decide (ap <> None)) (w_points l) (w_destroyed l) in
    Ok (with_wifi_links (<[k := update_link_points l]> (wifi_links m)) m).

(** What the station of a device says: whether its link is up, and the address of its
    access point. *)
Definition station_update (status : nat -> bool * text) (m : wifi_monitor) (station : nat * nat * nat) : res wifi_monitor :=
  let '(sta_netdevice, _, k) := station in
  let '(up, bssid) := status sta_netdevice in
  if negb up then set_ap k None m
  else if decide (bssid = txt "00:00:00:00:00:00") then set_ap k None m
  else ap ← or_raise KeyError (access_points m !! bssid); set_ap k (Some ap) m.
Definition wifi_periodic_update (status : nat -> bool * text) (m : wifi_monitor) : res wifi_monitor :=
  for_each (station_update status) (stations m) m.

Definition wifi_update_view (m : wifi_monitor) : wifi_monitor :=
  with_wifi_links (foldl (fun ls (s : nat * nat * nat) => alter update_link_points s.2 ls) (wifi_links m) (stations m)) m.

(** [Node.set_position] asks the links of the node for their points. *)
Definition wifi_node_moved (i : nat) (m : wifi_monitor) : wifi_monitor :=
  with_wifi_links (foldl (fun ls k => alter update_link_points k ls) (wifi_links m) (links_at i m)) m.

(** [set_ap(None)] at the end of [WifiLink.__init__] changes nothing. *)
Definition new_wifi_link (sta : nat) : wifi_link := WifiLink sta None true None false.
Definition destroy_link (l : wifi_link) : wifi_link := WifiLink (w_sta l) None (w_visible l) (w_points l) true.

(** A WiFi device is a station, an access point with its address, or neither. *)
Inductive wifi_mac := StaWifiMac | ApWifiMac (bssid : text) | OtherMac.
(** The wireless devices of the nodes, in the order of the scan: node, device, role. *)
Definition scan_wifi_device (m : wifi_monitor) (d : nat * nat * wifi_mac) : wifi_monitor :=
  let '(node, dev, mac) := d in
  match mac with
  | StaWifiMac =>
      WifiMonitor (wifi_links m ++ [new_wifi_link node]) (wifi_node_links m) (access_points m)
        (stations m ++ [(dev, node, length (wifi_links m))])
  | ApWifiMac bssid => WifiMonitor (wifi_links m) (wifi_node_links m) (<[bssid := node]> (access_points m)) (stations m)
  | OtherMac => m
  end.
Definition wifi_scan_nodes (devices : list (nat * nat * wifi_mac)) (m : wifi_monitor) : wifi_monitor :=
  let ls := foldl (fun ls (s : nat * nat * nat) => alter destroy_link s.2 ls) (wifi_links m) (stations m) in
  foldl scan_wifi_device (WifiMonitor ls (wifi_node_links m) ∅ []) devices.
End wifi.

(** The signals that the monitor is connected to, and the moves of nodes. *)
Inductive wifi_event :=
| Scanned (devices : list (nat * nat * wifi_mac))
| PeriodicUpdate (status : nat -> bool * text)
| ViewUpdated
| Moved (i : nat).
(** Each comes with the present positions of the nodes. *)
Definition wifi_step (m : wifi_monitor) (e : (nat -> point) * wifi_event) : res wifi_monitor :=
  match e.2 with
  | Scanned devices => Ok (wifi_scan_nodes devices m)
  | PeriodicUpdate status => wifi_periodic_update e.1 status m
  | ViewUpdated => Ok (wifi_update_view e.1 m)
  | Moved i => Ok (wifi_node_moved e.1 i m)
  end.
Definition no_wifi : wifi_monitor := WifiMonitor [] ∅ ∅ [].

(** ** [show_last_packets.py]: the packet filter *)

Section type_ids.
(** The registered types by number, with their parents; the types [ns3::Header] and
    [ns3::Trailer]. *)
Context (parents : list (option nat)) (Header Trailer : nat).

(** [while 1]: goes up to a header or trailer, or to a type without a parent. *)
Definition type_step (typeid : nat) : res (nat + bool) :=
  if decide (typeid = Header \/ typeid = Trailer) then Ok (inr true)
  else match parents !! typeid with
       | Some (Some p) => Ok (inl p)
       | _ => Ok (inr false)
       end.
Definition type_is_good (typeid : nat) : res bool := loop (S (length parents)) type_step typeid.

Definition offer_type (offered : list nat) (typeid : nat) : res (list nat) :=
  good ← type_is_good typeid;
  if negb good then Ok offered
  else if decide (typeid = Header \/ typeid = Trailer) then Ok offered
  else Ok (offered ++ [typeid]).
Definition offered_types : res (list nat) := for_each offer_type (seq 0 (length parents)) [].
End type_ids.

(** [PacketCaptureOptions]; the mode is AND or OR. *)
Record capture_options := CaptureOptions { mode_and : bool; numLastPackets : Z; headers : list nat }.
(** The window: which types are selected, the radio button; and the options that the
    simulator has. *)
Record packet_filter := PacketFilter { filter_list : list (nat * bool); and_active : bool; simulator_options : option capture_options }.

Definition update_capture_options (w : packet_filter) : packet_filter :=
  PacketFilter (filter_list w) (and_active w)
    (Some (CaptureOptions (and_active w) 100 (omap (fun c => if c.2 : bool then Some c.1 else None) (filter_list w)))).
Definition select_types (b : bool) (w : packet_filter) : packet_filter :=
  PacketFilter ((fun c => (c.1, b)) <$> filter_list w) (and_active w) (simulator_options w).

Inductive filter_event := SelectAll | SelectNone | OperatorToggled (is_and : bool) | CellEdited (i : nat) (selected : bool).
Definition filter_step (w : packet_filter) (e : filter_event) : packet_filter :=
  match e with
  | SelectAll => update_capture_options (select_types true w)
  | SelectNone => update_capture_options (select_types false w)
  | OperatorToggled b =>
      if decide (b = and_active w) then w
      else update_capture_options (PacketFilter (filter_list w) b (simulator_options w))
  | CellEdited i b =>
      update_capture_options (PacketFilter (alter (fun c => (c.1, b)) i (filter_list w)) (and_active w) (simulator_options w))
  end.
(** [ShowLastPackets.__init__] *)
Definition new_filter (types : list nat) : packet_filter :=
  update_capture_options (PacketFilter ((fun t => (t, true)) <$> types) false None).

(** ** Interface statistics: the rates are over the last ten samples *)

Lemma trim_samples_drop {A} (l : list A) : trim_samples l = drop (length l - NODE_STATISTICS_MEMORY) l.
Proof.
  induction l as [|x l IH]; [done|]. cbn [trim_samples]. case_decide as Hl; unfold NODE_STATISTICS_MEMORY in *; cbn [length] in *.
  - rewrite IH. by replace (S (length l) - 10)%nat with (S (length l - 10)) by lia.
  - by replace (S (length l) - 10)%nat with 0%nat by lia.
Qed.

Definition samples_of (id : nat) (us : list (nat * list raw_stats)) : list (list raw_stats) :=
  omap (fun u => if decide (u.1 = id) then Some u.2 else None) us.

Lemma samples_of_snoc id us i s : samples_of id (us ++ [(i, s)]) = samples_of id us ++ if decide (i = id) then [s] else [].
Proof. unfold samples_of. rewrite omap_app. f_equal. cbn. by case_decide. Qed.

Lemma last_samples {A} (n : nat) (l : list A) s : l <> [] ->
  drop (length (drop (length l - n) l ++ [s]) - n) (drop (length l - n) l ++ [s]) = drop (length (l ++ [s]) - n) (l ++ [s]).
Proof.
  intros Hl. rewrite !length_app, length_drop. cbn [length]. destruct (decide (n = 0)%nat) as [->|Hn].
  - rewrite !drop_ge; [done|rewrite length_app; cbn; lia|rewrite length_app, length_drop; cbn; lia].
  - rewrite !drop_app_le by (rewrite ?length_drop; lia). rewrite drop_drop. do 2 f_equal. lia.
Qed.

Lemma collected us id : foldl add_statistics ∅ us !! id =
  match samples_of id us with [] => None | l => Some (drop (length l - NODE_STATISTICS_MEMORY) l) end.
Proof.
  induction us as [|[i s] us IH] using rev_ind; [done|]. rewrite foldl_app, samples_of_snoc. cbn [foldl].
  set (c := foldl add_statistics ∅ us) in *. unfold add_statistics. cbn [fst snd]. destruct (decide (i = id)) as [->|Hi].
  - rewrite lookup_insert_eq, trim_samples_drop, IH. destruct (samples_of id us) as [|x l]; [done|]. cbn [default from_option]. unfold Datatypes.id.
    rewrite last_samples by done. by destruct ((x :: l) ++ [s]) eqn:E.
  - by rewrite lookup_insert_ne, IH, app_nil_r by done.
Qed.

Lemma all_rates_short k stats stats1 : (forall i s s1, stats !! i = Some s -> stats1 !! i = Some s1 -> is_ok (interface_rates k s s1) = true) ->
  if decide (length stats <= length stats1)%nat
  then exists out, all_rates k stats stats1 = Ok out /\ length out = length stats /\
    forall i s s1, stats !! i = Some s -> stats1 !! i = Some s1 -> interface_rates k s s1 = or_raise IndexError (out !! i)
  else all_rates k stats stats1 = Raise IndexError.
Proof.
  revert stats1. induction stats as [|s stats IH]; intros stats1 Hok.
  - rewrite decide_True by (cbn; lia). by exists [].
  - destruct stats1 as [|s1 stats1]; [rewrite decide_False by (cbn; lia); done|]. cbn [all_rates head or_raise mbind result_bind tail length].
    pose proof (Hok 0%nat s s1 eq_refl eq_refl) as H0. destruct (interface_rates k s s1) as [o| |] eqn:Ho; [|done..]. cbn [mbind result_bind].
    specialize (IH stats1 (fun i => Hok (S i))). destruct (decide (length stats <= length stats1)%nat).
    + rewrite decide_True by lia. destruct IH as (out & -> & Hl & Hout). exists (o :: out). split; [done|]. split; [by cbn; rewrite Hl|].
      intros [|i] x x1; cbn; [|apply Hout]. by intros [= <-] [= <-].
    + rewrite decide_False by lia. by rewrite IH.
Qed.

(** The statistics of a node are those of its last sample, with the rates since the
    tenth last; there are none before the tenth sample, and [IndexError] when an
    interface is newer than that. *)
Theorem interface_statistics_spec p k us id : let l := samples_of id us in
  num_mul p (PInt 9) = Ok k ->
  (forall first lst i s s1, l !! (length l - 10)%nat = Some first -> last l = Some lst ->
     lst !! i = Some s -> first !! i = Some s1 -> is_ok (interface_rates k s s1) = true) ->
  let r := get_interface_statistics p id (statistics_periodic_update ∅ us) in
  if decide (length l < 10)%nat then r = Ok []
  else exists first lst, l !! (length l - 10)%nat = Some first /\ last l = Some lst /\
    if decide (length lst <= length first)%nat
    then exists out, r = Ok out /\ length out = length lst /\
      forall i s s1, lst !! i = Some s -> first !! i = Some s1 -> interface_rates k s s1 = or_raise IndexError (out !! i)
    else r = Raise IndexError.
Proof.
  intros l Hk Hok. unfold get_interface_statistics, statistics_periodic_update. rewrite collected. fold l. cbv zeta.
  destruct l as [|x l'] eqn:El; [done|]. rewrite <- El in *. clear El x l'. unfold NODE_STATISTICS_MEMORY. rewrite length_drop.
  destruct (decide (length l < 10)%nat) as [Hl|Hl]; [by rewrite decide_True by lia|]. rewrite decide_False by lia.
  rewrite bool_decide_true by lia. cbn [py_assert mbind result_bind].
  destruct (lookup_lt_is_Some_2 l (length l - 10)%nat) as [first Hfirst]; [lia|].
  destruct (lookup_lt_is_Some_2 l (pred (length l))) as [lst Hlast]; [lia|].
  exists first, lst. split; [done|]. split; [by rewrite last_lookup|].
  assert (py_get (drop (length l - 10) l) 0 = Ok first) as -> by (unfold py_get; cbn; by rewrite lookup_drop, Nat.add_0_r, Hfirst).
  assert (py_get (drop (length l - 10) l) (-1) = Ok lst) as ->.
  { unfold py_get, zlen. rewrite length_drop. replace (Z.of_nat (length l - (length l - 10))) with 10 by lia.
    change (or_raise IndexError (drop (length l - 10) l !! 9%nat) = Ok lst). rewrite lookup_drop.
    by replace (length l - 10 + 9)%nat with (pred (length l)) by lia; rewrite Hlast. }
  change (Z.of_nat 10 - 1) with 9. rewrite Hk. cbn [mbind result_bind].
  pose proof (all_rates_short k lst first) as H. case_decide; apply H; intros i s s1 Hs Hs1;
    (apply (Hok first lst i); [done|by rewrite last_lookup|done|done]).
Qed.

(** ** WiFi links *)

Section wifi_facts.

(** The points between which a link is drawn. *)
Definition drawn (l : wifi_link) : option (point * point) :=
  if w_destroyed l then None else if w_visible l then w_points l else None.
(** A link is drawn exactly when it has an access point. *)
Definition link_ok (l : wifi_link) : Prop := w_destroyed l = false -> (is_Some (drawn l) <-> is_Some (w_ap l)).
(** What changing its points leaves of a link. *)
Definition link_key (l : wifi_link) : nat * option nat * bool := (w_sta l, w_ap l, w_destroyed l).
(** A link that has not been destroyed. *)
Definition live (m : wifi_monitor) (k : nat) (l : wifi_link) : Prop := wifi_links m !! k = Some l /\ w_destroyed l = false.

(** A link is in the list of a node, once, exactly when that is its access point
    (destroyed links stay in the lists). *)
Record wifi_ok (m : wifi_monitor) : Prop := WifiOk {
  ok_attached : forall k l i, live m k l -> (k ∈ links_at i m <-> w_ap l = Some i);
  ok_lists : forall i, NoDup (links_at i m) /\ Forall (fun k => k < length (wifi_links m))%nat (links_at i m);
  ok_drawn : Forall link_ok (wifi_links m);
  ok_stations : NoDup (stations m).*2;
  ok_links : forall d n k, (d, n, k) ∈ stations m -> exists l, live m k l /\ w_sta l = n
}.

Lemma live_key m ls k l : link_key <$> ls = link_key <$> wifi_links m -> live (with_wifi_links ls m) k l ->
  exists l0, live m k l0 /\ link_key l0 = link_key l.
Proof.
  intros He [Hl Hd]. cbn in Hl. assert ((link_key <$> ls) !! k = Some (link_key l)) as Hk by (by rewrite list_lookup_fmap, Hl).
  rewrite He, list_lookup_fmap in Hk. destruct (wifi_links m !! k) as [l0|] eqn:Hl0; [|done]. injection Hk as E1 E2 E3.
  exists l0. split; [split; [done|congruence]|]. unfold link_key. congruence.
Qed.

Lemma wifi_ok_links m ls : link_key <$> ls = link_key <$> wifi_links m -> Forall link_ok ls -> wifi_ok m -> wifi_ok (with_wifi_links ls m).
Proof.
  intros He Hok [Ha Hl Hd Hs Hst]. assert (length ls = length (wifi_links m)) as Hlen by (by rewrite <- (length_fmap link_key), He, length_fmap).
  split; [|by cbn; rewrite Hlen|done|done|].
  - intros k l i Hlive. destruct (live_key _ _ _ _ He Hlive) as (l0 & Hl0 & [= _ <- _]). by apply (Ha k l0 i).
  - intros d n k Hin. destruct (Hst d n k Hin) as (l0 & [Hl0 Hd0] & Hn).
    assert ((link_key <$> ls) !! k = Some (link_key l0)) as Hk by (by rewrite He, list_lookup_fmap, Hl0).
    rewrite list_lookup_fmap in Hk. destruct (ls !! k) as [l|] eqn:E; [|done]. injection Hk as E1 E2 E3. exists l. split; [split; [done|congruence]|congruence].
Qed.

Lemma alter_keys (f : wifi_link -> wifi_link) (k : nat) (ls : list wifi_link) : (forall l, link_key (f l) = link_key l) -> link_key <$> alter f k ls = link_key <$> ls.
Proof.
  intros Hf. revert k. induction ls as [|l ls IH]; intros [|k]; [done..| |]; cbn; [by rewrite Hf|f_equal; apply IH].
Qed.

Lemma update_link_points_key pos l : link_key (update_link_points pos l) = link_key l.
Proof. destruct l as [sta [ap|] v p d]; done. Qed.

Lemma update_link_points_ok pos l : link_ok l -> link_ok (update_link_points pos l).
Proof.
  unfold link_ok, update_link_points, drawn. destruct (w_ap l) as [i|] eqn:E; [|by rewrite E]. cbn. intros H Hd. specialize (H Hd).
  rewrite Hd in *. split; [by eexists|]. destruct (w_visible l); [by eexists|]. intros Hi. apply H in Hi. by destruct Hi.
Qed.

Lemma points_ok pos m ks : wifi_ok m ->
  wifi_ok (with_wifi_links (foldl (fun ls k => alter (update_link_points pos) k ls) (wifi_links m) ks) m).
Proof.
  intros H. assert (forall ls, Forall link_ok ls ->
    Forall link_ok (foldl (fun ls k => alter (update_link_points pos) k ls) ls ks) /\
    link_key <$> foldl (fun ls k => alter (update_link_points pos) k ls) ls ks = link_key <$> ls) as Hf.
  { induction ks as [|k ks IH]; intros ls Hls; [done|]. cbn [foldl]. destruct (IH (alter (update_link_points pos) k ls)) as [H1 H2].
    - apply Forall_alter; [done|]. intros. by apply update_link_points_ok.
    - split; [done|]. rewrite H2. apply alter_keys, update_link_points_key. }
  destruct (Hf _ (ok_drawn _ H)). by apply wifi_ok_links.
Qed.

Lemma wifi_ok_set m m' k l l' : wifi_ok m -> live m k l -> wifi_links m' = <[k := l']> (wifi_links m) ->
  w_destroyed l' = false -> w_sta l' = w_sta l -> link_ok l' -> stations m' = stations m ->
  (forall x j, j ∈ links_at x m' <-> if decide (j = k) then w_ap l' = Some x else j ∈ links_at x m) ->
  (forall x, NoDup (links_at x m')) -> wifi_ok m'.
Proof.
  intros [Ha Hl Hd Hs Hst] [Hk Hkd] Els Hd' Hsta Hok Est Hin Hnd.
  assert (k < length (wifi_links m))%nat as Hlt by (by eapply lookup_lt_Some).
  split; rewrite ?Est, ?Els.
  - intros j lj i [Hj Hdj]. rewrite Els in Hj. rewrite Hin. destruct (decide (j = k)) as [->|Hjk].
    + rewrite list_lookup_insert_eq in Hj by done. by injection Hj as <-.
    + rewrite list_lookup_insert_ne in Hj by done. by apply Ha.
  - intros x. split; [done|]. apply Forall_forall. intros j Hj. rewrite length_insert. apply Hin in Hj.
    destruct (decide (j = k)) as [->|]; [done|]. destruct (Hl x) as [_ Hf]. rewrite Forall_forall in Hf. auto.
  - by apply Forall_insert.
  - done.
  - intros d n j Hj. destruct (Hst d n j Hj) as (lj & [Hlj Hdj] & Hn). unfold live. rewrite Els. destruct (decide (j = k)) as [->|].
    + exists l'. rewrite list_lookup_insert_eq by done. split; [done|]. congruence.
    + exists lj. by rewrite list_lookup_insert_ne.
Qed.

Lemma links_at_insert i v x m : links_at x (with_node_links (<[i := v]> (wifi_node_links m)) m) = if decide (x = i) then v else links_at x m.
Proof. unfold links_at. cbn. rewrite lookup_insert. repeat case_decide; congruence || done. Qed.

(** Leaving an access point. *)
Definition leave (k : nat) (l : wifi_link) (m : wifi_monitor) : res wifi_monitor :=
  match w_ap l with None => Ok m | Some i => remove_wifi_link i k m end.

Lemma leave_spec m k l : wifi_ok m -> live m k l -> exists m', leave k l m = Ok m' /\
  wifi_links m' = wifi_links m /\ stations m' = stations m /\ access_points m' = access_points m /\
  (forall x, NoDup (links_at x m')) /\ (forall x j, j ∈ links_at x m' <-> j <> k /\ j ∈ links_at x m).
Proof.
  intros [Ha Hl _ _ _] Hk. unfold leave. destruct (w_ap l) as [i|] eqn:Hap.
  - unfold remove_wifi_link. rewrite decide_True by (by apply (Ha k l)). eexists. split; [done|]. split; [done|]. split; [done|]. split; [done|].
    assert (forall x, links_at x (with_node_links (<[i := remove_first k (links_at i m)]> (wifi_node_links m)) m) =
      filter (fun j => j <> k) (links_at x m)) as E.
    { intros x. rewrite links_at_insert. destruct (decide (x = i)) as [->|Hx]; [apply remove_first_filter, Hl|].
      symmetry. apply filter_id, Forall_forall. intros j Hj ->. apply (Ha k l x Hk) in Hj. congruence. }
    split; intros x; [rewrite E; apply NoDup_filter, Hl|]. intros j. by rewrite E, list_elem_of_filter.
  - exists m. do 4 (split; [done|]). split; [apply Hl|]. intros x j. split; [|by intros [_ ?]].
    intros Hj. split; [|done]. intros ->. apply (Ha k l x Hk) in Hj. congruence.
Qed.

(** One link changes its access point; the others stay. *)
Lemma set_ap_ok pos k ap m l : wifi_ok m -> live m k l ->
  exists m' l', set_ap pos k ap m = Ok m' /\ wifi_ok m' /\ live m' k l' /\ w_ap l' = ap /\ w_sta l' = w_sta l /\
    (forall j, j <> k -> wifi_links m' !! j = wifi_links m !! j) /\ stations m' = stations m /\ access_points m' = access_points m.
Proof.
  intros Hm Hk. pose proof Hk as [Hl Hd]. unfold set_ap. rewrite Hl. cbn [or_raise mbind result_bind].
  case_decide as Hap; [subst ap; by exists m, l|]. fold (leave k l m).
  destruct (leave_spec m k l Hm Hk) as (m1 & -> & E1 & E2 & E3 & Hnd & Hin). cbn [mbind result_bind].
  set (m2 := match ap with None => m1 | Some i => add_wifi_link i k m1 end).
  assert (wifi_links m2 = wifi_links m /\ stations m2 = stations m /\ access_points m2 = access_points m) as (F1 & F2 & F3)
    by (unfold m2; destruct ap; cbn; auto).
  assert (forall x, NoDup (links_at x m2)) as Hnd2.
  { intros x. unfold m2. destruct ap as [i|]; [|done]. unfold add_wifi_link. rewrite links_at_insert. case_decide; [|done].
    apply NoDup_app. split; [done|]. split; [|apply NoDup_singleton]. intros y Hy ->%list_elem_of_singleton. by apply Hin in Hy as [? _]. }
  assert (forall x j, j ∈ links_at x m2 <-> if decide (j = k) then ap = Some x else j ∈ links_at x m) as Hin2.
  { intros x j. unfold m2. destruct ap as [i|].
    - unfold add_wifi_link. rewrite links_at_insert. destruct (decide (x = i)) as [->|Hx].
      + rewrite elem_of_app, list_elem_of_singleton, Hin. case_decide; naive_solver.
      + rewrite Hin. case_decide; naive_solver.
    - rewrite Hin. case_decide; naive_solver. }
  set (l' := update_link_points pos (WifiLink (w_sta l) ap (bool_decide (ap <> None)) (w_points l) (w_destroyed l))).
  assert (w_ap l' = ap /\ w_sta l' = w_sta l /\ w_destroyed l' = false /\ link_ok l') as (G1 & G2 & G3 & G4).
  { unfold l', update_link_points, link_ok, drawn. destruct ap as [i|]; cbn; rewrite Hd; repeat split; try done; try (by eexists). }
  exists (with_wifi_links (<[k := l']> (wifi_links m2)) m2), l'. split; [done|].
  assert (k < length (wifi_links m))%nat as Hlt by (by eapply lookup_lt_Some).
  split; [|split; [|repeat split; try done]].
  - apply (wifi_ok_set m _ k l l'); try done; [cbn; by rewrite F1|]. by rewrite G1.
  - split; [|done]. cbn. by rewrite F1, list_lookup_insert_eq.
  - intros j Hj. cbn. by rewrite F1, list_lookup_insert_ne.
Qed.

(** The access point that a station asks for. *)
Definition wanted (status : nat -> bool * text) (m : wifi_monitor) (d : nat) : option nat :=
  let '(up, bssid) := status d in
  if up && negb (bool_decide (bssid = txt "00:00:00:00:00:00")) then access_points m !! bssid else None.
Definition known (status : nat -> bool * text) (m : wifi_monitor) (d : nat) : Prop :=
  let '(up, bssid) := status d in up = true -> bssid <> txt "00:00:00:00:00:00" -> is_Some (access_points m !! bssid).

Lemma station_update_ok pos status m d n k l : wifi_ok m -> live m k l -> known status m d ->
  exists m' l', station_update pos status m (d, n, k) = Ok m' /\ wifi_ok m' /\ live m' k l' /\ w_ap l' = wanted status m d /\ w_sta l' = w_sta l /\
    (forall j, j <> k -> wifi_links m' !! j = wifi_links m !! j) /\ stations m' = stations m /\ access_points m' = access_points m.
Proof.
  intros Hm Hk Hkn. unfold station_update, wanted, known in *. destruct (status d) as [up bssid].
  destruct up; cbn [negb andb]; [|by apply set_ap_ok with (l := l)]. case_decide as Hb.
  - rewrite bool_decide_true by done. by apply set_ap_ok with (l := l).
  - rewrite bool_decide_false by done. cbn [negb]. destruct (Hkn eq_refl Hb) as [ap ->]. cbn [or_raise mbind result_bind].
    by apply set_ap_ok with (l := l).
Qed.

Lemma periodic_update_ok pos status m : wifi_ok m -> (forall d n k, (d, n, k) ∈ stations m -> known status m d) ->
  exists m', wifi_periodic_update pos status m = Ok m' /\ wifi_ok m' /\ stations m' = stations m /\ access_points m' = access_points m /\
    forall d n k, (d, n, k) ∈ stations m -> exists l, live m' k l /\ w_ap l = wanted status m d /\ w_sta l = n.
Proof.
  intros Hm Hkn. unfold wifi_periodic_update.
  destruct (for_each_inv (station_update pos status) (fun pre post m' => stations m = pre ++ post /\ wifi_ok m' /\ stations m' = stations m /\
    access_points m' = access_points m /\
    forall d n k, (d, n, k) ∈ pre -> exists l, live m' k l /\ w_ap l = wanted status m d /\ w_sta l = n))
    with (l := stations m) (s := m) as (m' & Hr & _ & Hm' & Hs & Ha & Hl).
  - intros pre [[d n] k] post m1 (Hall & Hm1 & Hs1 & Ha1 & Hl1).
    assert ((d, n, k) ∈ stations m) as Hin by (rewrite Hall; apply elem_of_app; right; left).
    destruct (ok_links _ Hm1 d n k) as (l & Hk & Hn); [by rewrite Hs1|].
    destruct (station_update_ok pos status m1 d n k l Hm1 Hk) as (m2 & l2 & Hr2 & Hm2 & Hk2 & Hap2 & Hsta2 & Hother & Hs2 & Ha2).
    { specialize (Hkn d n k Hin). unfold known in *. by rewrite Ha1. }
    exists m2. split; [done|]. split; [by rewrite <- app_assoc|]. split; [done|]. split; [congruence|]. split; [congruence|].
    assert (wanted status m1 d = wanted status m d) as Hw by (unfold wanted; by rewrite Ha1).
    intros d' n' k' [Hin'|Hin'%list_elem_of_singleton]%elem_of_app.
    + destruct (Hl1 d' n' k' Hin') as (l' & [Hl' Hd'] & ? & ?). exists l'. split; [|done]. split; [|done]. rewrite Hother; [done|].
      intros ->. pose proof (ok_stations _ Hm) as Hnd. rewrite Hall, fmap_app, NoDup_app in Hnd. destruct Hnd as (_ & Hnd & _).
      apply (Hnd k); [apply list_elem_of_fmap; by exists (d', n', k)|left].
    + injection Hin' as -> -> ->. exists l2. split; [done|]. split; congruence.
  - split; [done|]. split; [done|]. split; [done|]. split; [done|]. intros d n k H. by apply not_elem_of_nil in H.
  - exists m'. auto.
Qed.

Lemma destroy_ok ss : forall m, wifi_ok m -> ss = stations m ->
  wifi_ok (WifiMonitor (foldl (fun ls (s : nat * nat * nat) => alter destroy_link s.2 ls) (wifi_links m) ss) (wifi_node_links m) ∅ []).
Proof.
  intros m Hm _. destruct Hm as [Ha Hl Hd _ _].
  set (f := fun ls (s : nat * nat * nat) => alter destroy_link s.2 ls).
  assert (forall ls, Forall link_ok ls -> Forall link_ok (foldl f ls ss) /\ length (foldl f ls ss) = length ls /\
    forall k l, foldl f ls ss !! k = Some l -> w_destroyed l = false -> ls !! k = Some l) as Hf.
  { induction ss as [|s ss IH]; intros ls Hls; [done|]. cbn [foldl].
    destruct (IH (f ls s)) as (H1 & H2 & H3); [apply Forall_alter; [done|]; by intros|]. split; [done|].
    split; [rewrite H2; unfold f; by rewrite length_alter|]. intros k l Hk Hdl. specialize (H3 k l Hk Hdl). unfold f in H3.
    rewrite list_lookup_alter in H3. case_decide; [|done].
    subst k. destruct (ls !! s.2) as [l0|]; [|done]. cbn in H3. injection H3 as <-. done. }
  destruct (Hf _ Hd) as (H1 & H2 & H3). split; [|intros x; cbn; rewrite H2; apply Hl|done|constructor|].
  - intros k l i [Hk Hdl]. cbn in Hk. apply (Ha k l i). split; [by apply H3|done].
  - intros d n k H. by apply not_elem_of_nil in H.
Qed.

Lemma scan_device_ok m x : wifi_ok m -> wifi_ok (scan_wifi_device m x).
Proof.
  intros Hm. destruct x as [[node dev] [|bssid|]]; [|by destruct Hm|done]. destruct Hm as [Ha Hl Hd Hs Hst]. cbn. split; cbn.
  - intros k l i [Hk Hdl]. cbn in Hk. destruct (decide (k < length (wifi_links m))%nat) as [Hlt|Hge].
    + rewrite lookup_app_l in Hk by done. by apply (Ha k l i).
    + rewrite lookup_app_r in Hk by lia. apply list_lookup_singleton_Some in Hk as [_ <-]. cbn. split; [|done].
      intros Hin. destruct (Hl i) as [_ Hf]. rewrite Forall_forall in Hf. apply Hf in Hin. lia.
  - intros x. split; [apply Hl|]. eapply Forall_impl; [apply Hl|]. intros k Hk. rewrite length_app. cbn in *. lia.
  - apply Forall_app. split; [done|]. constructor; [|constructor]. intros _. split; intros H; by apply is_Some_None in H.
  - rewrite fmap_app, NoDup_app. split; [done|]. split; [|apply NoDup_singleton]. intros k (y & -> & Hin)%list_elem_of_fmap Hk. destruct y as [[d n] k'].
    apply list_elem_of_singleton in Hk. cbn in Hk. destruct (Hst d n k' Hin) as (l & [Hlk _] & _). apply lookup_lt_Some in Hlk.
    lia.
  - intros d n k [Hin|Hin%list_elem_of_singleton]%elem_of_app.
    + destruct (Hst d n k Hin) as (l & [Hlk ?] & ?). exists l. split; [|done]. split; [|done]. cbn. rewrite lookup_app_l; [done|]. by eapply lookup_lt_Some.
    + injection Hin as -> -> ->. exists (new_wifi_link node). split; [|done]. split; [|done]. cbn. by rewrite lookup_app_r, Nat.sub_diag by lia.
Qed.

Lemma scan_ok devices m : wifi_ok m -> wifi_ok (wifi_scan_nodes devices m).
Proof.
  intros Hm. unfold wifi_scan_nodes. pose proof (destroy_ok _ m Hm eq_refl) as H. revert H.
  generalize (WifiMonitor (foldl (fun ls (s : nat * nat * nat) => alter destroy_link s.2 ls) (wifi_links m) (stations m)) (wifi_node_links m) ∅ []).
  induction devices as [|x devices IH]; intros m1 H1; [done|]. cbn [foldl]. by apply IH, scan_device_ok.
Qed.

Lemma station_links (f : wifi_link -> wifi_link) ss (ls : list wifi_link) :
  foldl (fun ls (s : nat * nat * nat) => alter f s.2 ls) ls ss = foldl (fun ls (k : nat) => alter f k ls) ls ss.*2.
Proof. revert ls. induction ss as [|s ss IH]; intros ls; [done|]. cbn [foldl fmap list_fmap]. by rewrite IH. Qed.

(** Nothing that the monitor does fails, except an update with an address that no
    access point has. *)
Lemma station_update_any pos status m d n k l : wifi_ok m -> live m k l -> w_sta l = n ->
  match station_update pos status m (d, n, k) with
  | Ok m' => wifi_ok m' /\ stations m' = stations m /\ access_points m' = access_points m
  | r => r = Raise KeyError
  end.
Proof.
  intros Hm Hk Hn. unfold station_update. destruct (status d) as [up bssid].
  assert (forall ap, match set_ap pos k ap m with
    | Ok m' => wifi_ok m' /\ stations m' = stations m /\ access_points m' = access_points m | r => r = Raise KeyError end) as H.
  { intros ap. destruct (set_ap_ok pos k ap m l Hm Hk) as (m' & l' & -> & ? & _ & _ & _ & _ & ? & ?). auto. }
  destruct up; cbn [negb]; [|apply H]. case_decide; [apply H|]. destruct (access_points m !! bssid) as [ap|]; [apply H|done].
Qed.

Lemma station_updates_any pos status ss : forall m, wifi_ok m -> (forall s, s ∈ ss -> s ∈ stations m) ->
  match for_each (station_update pos status) ss m with
  | Ok m' => wifi_ok m'
  | r => r = Raise KeyError
  end.
Proof.
  induction ss as [|[[d n] k] ss IH]; intros m Hm Hin; [done|]. cbn [for_each].
  destruct (ok_links _ Hm d n k) as (l & Hk & Hn); [apply Hin; left|].
  pose proof (station_update_any pos status m d n k l Hm Hk Hn) as H.
  destruct (station_update pos status m (d, n, k)) as [m1| |]; [|by rewrite H|done]. destruct H as (H1 & Hs & _).
  cbn [mbind result_bind]. apply IH; [done|]. intros s Hs'. rewrite Hs. apply Hin. by right.
Qed.

Lemma wifi_step_ok m e : wifi_ok m -> match wifi_step m e with Ok m' => wifi_ok m' | r => r = Raise KeyError end.
Proof.
  intros Hm. destruct e as [pos [devices|status| |i]]; cbn.
  - by apply scan_ok.
  - by apply station_updates_any.
  - unfold wifi_update_view. rewrite station_links. by apply points_ok.
  - by apply points_ok.
Qed.

Lemma wifi_run_ok es : forall m, wifi_ok m -> match for_each wifi_step es m with Ok m' => wifi_ok m' | r => r = Raise KeyError end.
Proof.
  induction es as [|e es IH]; intros m Hm; [done|]. cbn [for_each]. pose proof (wifi_step_ok m e Hm) as H.
  destruct (wifi_step m e) as [m1| |]; [by apply IH|by rewrite H|done].
Qed.

Lemma no_wifi_ok : wifi_ok no_wifi.
Proof.
  split; [by intros ? ? ? []|intros i; split; [constructor|constructor]|constructor|constructor|].
  intros d n k H. by apply not_elem_of_nil in H.
Qed.

Lemma new_points_at pos ks : forall (ls : list wifi_link) (k : nat),
  foldl (fun ls k => alter (update_link_points pos) k ls) ls ks !! k =
  if decide (k ∈ ks) then update_link_points pos <$> ls !! k else ls !! k.
Proof.
  induction ks as [|j ks IH]; intros ls k; cbn [foldl]; [by rewrite decide_False by apply not_elem_of_nil|]. rewrite IH, list_lookup_alter.
  assert (forall l, update_link_points pos (update_link_points pos l) = update_link_points pos l) as Hidem by (by intros [? [?|] ? ? ?]).
  destruct (decide (j = k)) as [->|Hjk].
  - rewrite (decide_True (P := k ∈ k :: ks)) by left. case_decide; [|done]. destruct (ls !! k); [|done]. cbn. by rewrite Hidem.
  - assert (k ∈ j :: ks <-> k ∈ ks) as E by (rewrite elem_of_cons; split; [intros [->|]|]; auto; done).
    repeat case_decide; tauto || done.
Qed.

(** C32: Whatever was scanned, updated and moved before: when all access points are known, a
    periodic update and a redrawing never fail, and then the link of every station is
    drawn between the present positions of the station and of the access point of the
    address that it has, and is hidden when its link is down or it has none. *)
Theorem wifi_links_shown events m pos status pos' :
  for_each wifi_step events no_wifi = Ok m ->
  (forall d n k, (d, n, k) ∈ stations m -> known status m d) ->
  exists m', for_each wifi_step [(pos, PeriodicUpdate status); (pos', ViewUpdated)] m = Ok m' /\
    stations m' = stations m /\
    forall d n k, (d, n, k) ∈ stations m -> exists l, live m' k l /\ w_sta l = n /\
      drawn l = (fun ap => (pos' n, pos' ap)) <$> wanted status m d.
Proof.
  intros Hrun Hkn. pose proof (wifi_run_ok events _ no_wifi_ok) as Hm. rewrite Hrun in Hm.
  destruct (periodic_update_ok pos status m Hm Hkn) as (m1 & Hr & Hm1 & Hs & Ha & Hl).
  exists (wifi_update_view pos' m1). cbn [for_each wifi_step fst snd]. rewrite Hr. split; [done|]. split; [done|].
  intros d n k Hin. destruct (Hl d n k Hin) as (l & [Hlk Hd] & Hap & Hn). exists (update_link_points pos' l).
  assert (k ∈ (stations m1).*2) as Hk by (rewrite Hs; apply list_elem_of_fmap; by exists (d, n, k)).
  pose proof (proj1 (Forall_lookup _ _) (ok_drawn _ Hm1) k l Hlk Hd) as Hok. unfold drawn in *. rewrite Hd, Hap in Hok.
  split; [split; [|by destruct l as [? [?|] ? ? ?]]|].
  - unfold wifi_update_view. cbn. by rewrite station_links, new_points_at, decide_True, Hlk.
  - unfold update_link_points. rewrite Hap. destruct (wanted status m d) as [ap|]; cbn; rewrite Hd.
    + split; [done|]. rewrite Hn. destruct (w_visible l); [done|]. destruct (proj2 Hok) as [? [=]]. by eexists.
    + split; [done|]. destruct (w_visible l); [|done]. destruct (w_points l); [|done]. destruct (proj1 Hok) as [? [=]]. by eexists.
Qed.
End wifi_facts.

(** ** The packet filter *)

Section filter_facts.
Context (parents : list (option nat)) (Header Trailer : nat).

(** A header or trailer type: one of the two is above it, or it is one. *)
Definition parent_type (t p : nat) : Prop := parents !! t = Some (Some p).
Definition of_interest (a : nat) : Prop := a = Header \/ a = Trailer.
Definition below_interest (t : nat) : Prop := exists a, rtc parent_type t a /\ of_interest a.

(** The chains of parents end: types have a depth. *)
Context (depth : nat -> nat).
Context (depth_parent : forall t p, parent_type t p -> (depth p < depth t)%nat).
Context (depth_bound : forall t, (depth t <= length parents)%nat).

Lemma below_parent t p : parent_type t p -> ~ of_interest t -> below_interest t <-> below_interest p.
Proof.
  intros Hp Hi. split; intros (a & Ha & Hai).
  - apply rtc_inv in Ha as [<-|(q & Hq & Ha)]; [done|]. assert (q = p) as -> by (unfold parent_type in *; congruence). by exists a.
  - exists a. split; [by eapply rtc_l|done].
Qed.

Lemma type_is_good_spec t : exists b, type_is_good parents Header Trailer t = Ok b /\ (b = true <-> below_interest t).
Proof.
  unfold type_is_good. apply (loop_total _ (fun s => below_interest t <-> below_interest s) depth
    (fun r => exists b, r = Ok b /\ (b = true <-> below_interest t))); [|done|specialize (depth_bound t); lia].
  intros s Hs. unfold type_step. case_decide as Hi; cbn.
  - eexists. split; [done|]. rewrite Hs. split; [intros _|done]. by exists s.
  - destruct (parents !! s) as [[p|]|] eqn:Hp; cbn.
    + split; [by rewrite <- (below_parent s p)|by apply depth_parent].
    + eexists. split; [done|]. rewrite Hs. split; [done|]. intros (a & Ha & Hai).
      apply rtc_inv in Ha as [<-|(q & Hq & _)]; [done|]. unfold parent_type in Hq. congruence.
    + eexists. split; [done|]. rewrite Hs. split; [done|]. intros (a & Ha & Hai).
      apply rtc_inv in Ha as [<-|(q & Hq & _)]; [done|]. unfold parent_type in Hq. congruence.
Qed.

(** What the window lists: the registered types below [ns3::Header] or
    [ns3::Trailer], without these two, in the order of registration. *)
Theorem offered_types_spec : exists l, offered_types parents Header Trailer = Ok l /\ StronglySorted lt l /\
  forall t, t ∈ l <-> (t < length parents)%nat /\ ~ of_interest t /\ below_interest t.
Proof.
  unfold offered_types.
  destruct (for_each_inv (offer_type parents Header Trailer) (fun pre post l => seq 0 (length parents) = pre ++ post /\
    StronglySorted lt l /\ forall t, t ∈ l <-> t ∈ pre /\ ~ of_interest t /\ below_interest t)) with (l := seq 0 (length parents)) (s := @nil nat)
    as (l & -> & _ & Hs & Hl).
  - intros pre x post l (Hall & Hs & Hl). unfold offer_type. destruct (type_is_good_spec x) as (b & -> & Hb). cbn [mbind result_bind].
    assert (forall t, t ∈ pre -> (t < x)%nat) as Hlt.
    { intros t Ht. assert (forall i, seq 0 (length parents) !! i = (pre ++ x :: post) !! i) as Hi by (by rewrite Hall).
      apply list_elem_of_lookup in Ht as [i Hi']. pose proof (Hi i) as E1. pose proof (Hi (length pre)) as E2.
      rewrite lookup_app_l, Hi' in E1 by (by eapply lookup_lt_Some). rewrite list_lookup_middle in E2 by done.
      apply lookup_seq in E1, E2. apply lookup_lt_Some in Hi'. lia. }
    assert (seq 0 (length parents) = (pre ++ [x]) ++ post) as Hall' by (by rewrite <- app_assoc).
    destruct b; cbn [negb]; [case_decide as Hi|]; eexists; (split; [done|]); (split; [done|]).
    + split; [done|]. intros t. rewrite Hl, elem_of_app, list_elem_of_singleton. unfold of_interest in *. naive_solver.
    + split.
      * clear -Hs Hl Hlt. assert (Forall (fun t => (t < x)%nat) l) as Hf by (apply Forall_forall; intros t Ht; by apply Hlt, (Hl t)).
        clear Hl Hlt. induction Hs as [|y l Hs IH Hy]; cbn; [by repeat constructor|]. apply Forall_cons in Hf as [? ?].
        constructor; [by apply IH|]. apply Forall_app. split; [done|]. by constructor.
      * intros t. rewrite !elem_of_app, !list_elem_of_singleton, Hl. unfold of_interest in *. naive_solver.
    + split; [done|]. intros t. rewrite Hl, elem_of_app, list_elem_of_singleton. naive_solver.
  - split; [done|]. split; [constructor|]. intros t. split; [intros H; by apply not_elem_of_nil in H|intros [H _]; by apply not_elem_of_nil in H].
  - exists l. split; [done|]. split; [done|]. intros t. rewrite Hl, elem_of_seq. naive_solver lia.
Qed.
End filter_facts.

(** The types that are selected in the window. *)
Definition selected_types (w : packet_filter) : list nat := (filter (fun c : nat * bool => c.2 = true) (filter_list w)).*1.

Lemma selected_headers w : headers <$> simulator_options (update_capture_options w) = Some (selected_types w).
Proof.
  cbn. f_equal. unfold selected_types. induction (filter_list w) as [|[t b] l IH]; [done|]. rewrite filter_cons.
  destruct b; [rewrite decide_True by done; cbn -[filter]; f_equal|rewrite decide_False by done]; exact IH.
Qed.

(** From the opening of the window on, through every click: the simulator filters by the
    selected types and the active button of the window, which lists the same types
    throughout. *)
Theorem capture_filter_spec types es : let w := foldl filter_step (new_filter types) es in
  (filter_list w).*1 = types /\
  simulator_options w = Some (CaptureOptions (and_active w) 100 (selected_types w)).
Proof.
  cbv zeta. assert (forall w, simulator_options (update_capture_options w) =
    Some (CaptureOptions (and_active (update_capture_options w)) 100 (selected_types (update_capture_options w)))) as Hup.
  { intros w. pose proof (selected_headers w) as H. cbn in *. by injection H as ->. }
  induction es as [|e es IH] using rev_ind; [split; [|apply Hup]; cbn; rewrite <- list_fmap_compose; apply list_fmap_id|].
  rewrite foldl_app. destruct IH as [Ht Hw]. cbn [foldl]. set (w := foldl filter_step (new_filter types) es) in *.
  assert ((filter_list (filter_step w e)).*1 = types) as Ht'.
  { destruct e as [| |b|i b]; cbn; [rewrite <- list_fmap_compose; exact Ht..| |].
    - by case_decide.
    - rewrite <- Ht. clear. revert i. induction (filter_list w) as [|c l IH]; intros [|i]; [done..| |]; cbn; [done|f_equal; apply IH]. }
  split; [done|]. destruct e as [| |b|i b]; try apply Hup. unfold filter_step. case_decide; [done|apply Hup].
Qed.

(** ** Examples *)

Definition traffic (n : Z) : list raw_stats := [RawStats n (100 * n) 0 0].

(** Eleven samples of node 7, each with five packets more. *)
Definition samples_7 : list (nat * list raw_stats) := (fun i => (7%nat, traffic (5 * Z.of_nat i))) <$> seq 0 11.
Lemma interface_statistics_spec_witness :
  exists k out, num_mul (frac 1 10) (PInt 9) = Ok k /\
    get_interface_statistics (frac 1 10) 7 (statistics_periodic_update ∅ samples_7) = Ok out /\ length out = 1%nat /\
    interface_rates k (RawStats 50 5000 0 0) (RawStats 5 500 0 0) = or_raise IndexError (out !! 0%nat).
Proof.
  eexists. destruct (interface_statistics_spec (frac 1 10) _ samples_7 7 eq_refl) as (first & lst & Hf & Hl & Hr).
  { intros first lst i s s1 Hf Hl. vm_compute in Hf, Hl. injection Hf as <-. injection Hl as <-.
    destruct i; cbn; [|done]. intros [= <-] [= <-]. vm_compute. reflexivity. }
  vm_compute in Hf, Hl. injection Hf as <-. injection Hl as <-.
  destruct Hr as (out & Hr & Hlen & Hout). exists out. split; [reflexivity|]. split; [exact Hr|]. split; [exact Hlen|].
  apply (Hout 0%nat); reflexivity.
Defined.

(** A node that gets its second interface after the first of the last ten samples. *)
Example new_interface : let us := samples_7 ++ [(7%nat, traffic 55 ++ traffic 0)] in
  get_interface_statistics (frac 1 10) 7 (statistics_periodic_update ∅ us) = Raise IndexError.
Proof. vm_compute. reflexivity. Qed.

(** Node 1 is an access point, node 0 a station that is connected to it. *)
Definition address : text := txt "00:00:00:00:00:02".
Definition wifi_devices : list (nat * nat * wifi_mac) := [(0%nat, 10%nat, StaWifiMac); (1%nat, 11%nat, ApWifiMac address)].
Definition origin : nat -> point := fun i => (PInt (Z.of_nat i), PInt 0).
Definition connected : nat -> bool * text := fun _ => (true, address).
Definition scanned : wifi_monitor := wifi_scan_nodes wifi_devices no_wifi.

Lemma wifi_links_shown_witness : exists m',
  for_each wifi_step [(origin, PeriodicUpdate connected); (origin, ViewUpdated)] scanned = Ok m' /\
  exists l, live m' 0 l /\ drawn l = Some ((PInt 0, PInt 0), (PInt 1, PInt 0)).
Proof.
  destruct (wifi_links_shown [(origin, Scanned wifi_devices)] scanned origin connected origin eq_refl) as (m' & Hr & _ & Hl).
  { intros d n k Hin. assert (stations scanned = [(10%nat, 0%nat, 0%nat)]) as E by reflexivity. rewrite E in Hin.
    apply list_elem_of_singleton in Hin. injection Hin as -> -> ->. intros _ _. exists 1%nat. vm_compute. reflexivity. }
  exists m'. split; [exact Hr|]. destruct (Hl 10%nat 0%nat 0%nat) as (l & Hk & _ & Hd); [vm_compute; left|].
  exists l. split; [exact Hk|]. rewrite Hd. vm_compute. reflexivity.
Defined.

(** A station that is connected to an access point which the scan did not find, say
    since it came later, ends every update: [KeyError]. *)
Example unknown_access_point : wifi_step scanned (origin, PeriodicUpdate (fun _ => (true, txt "00:00:00:00:00:09"))) = Raise KeyError.
Proof. vm_compute. reflexivity. Qed.

(** A new scan leaves the destroyed link in the list of its access point: the list
    grows with each scan. *)
Example destroyed_links_stay :
  (m ← for_each wifi_step [(origin, Scanned wifi_devices); (origin, PeriodicUpdate connected);
                          (origin, Scanned wifi_devices); (origin, PeriodicUpdate connected)] no_wifi; Ok (links_at 1 m, w_destroyed <$> wifi_links m))
  = Ok ([0%nat; 1%nat], [true; false]).
Proof. vm_compute. reflexivity. Qed.

(** Type 0 is [ns3::Header], 1 is [ns3::Trailer], 2 a header, 3 a header below it, 4 neither. *)
Lemma offered_types_spec_witness : exists l, offered_types [None; None; Some 0%nat; Some 2%nat; None] 0 1 = Ok l /\ l = [2%nat; 3%nat].
Proof.
  destruct (offered_types_spec [None; None; Some 0%nat; Some 2%nat; None] 0 1 (fun t => if decide (t = 2%nat) then 1%nat else if decide (t = 3%nat) then 2%nat else 0%nat))
    as (l & Hl & _).
  - intros t p. unfold parent_type. destruct t as [|[|[|[|[|t]]]]]; cbn; intros [= <-]; repeat case_decide; lia.
  - intros t. cbn. repeat case_decide; lia.
  - exists l. split; [exact Hl|]. vm_compute in Hl. congruence.
Defined.
