(* ===== verification/VizHud.v ===== *)
(** * The axes of the visualizer ([src/visualizer/visualizer/hud.py]).

    The marks of the two axes follow the view; the labels are canvas items that are
    used again from view to view.  Under Python 3, so that [math.floor] gives an
    integer; [log10] and the powers of ten are those of the C library. *)
From S2P Require Import Prelude PyNum PyString VizSvg VizScene.
#[local] Open Scope Z_scope.

(** [math.floor] and [math.ceil] *)
Definition floor_of (m e : Z) : Z := if 0 <=? e then Z.shiftl m e else m / 2 ^ (- e).
Definition num_floor (x : num) : res num :=
  match num_value x with VNan => Raise ValueError | VInf _ => Raise OverflowError | Fin m e => Ok (PInt (floor_of m e)) end.
Definition num_ceil (x : num) : res num :=
  match num_value x with VNan => Raise ValueError | VInf _ => Raise OverflowError | Fin m e => Ok (PInt (- floor_of (- m) e)) end.

(** A label: whether it is shown, the number that it has, the size of its font, where. *)
Record axis_label := AxisLabel { lb_visible : bool; lb_number : num; lb_font : num; lb_at : point }.
Definition hide_label (l : axis_label) : axis_label := AxisLabel false (lb_number l) (lb_font l) (lb_at l).

(** The lines of an axis are segments; [hlines] and [vlines] have their own visibility. *)
Record axes := Axes {
  line_width : num; hlines : list (point * point); vlines : list (point * point); lines_visible : bool;
  labels : list axis_label; visible : bool }.

(** The zoom ([None] before it is made), value and page size of the two adjustments, and
    [convert_from_pixels] of the canvas. *)
Record hud_view := View { zoom : option num; hadj : num * num; vadj : num * num; convert : num * num -> point }.

Section hud.
Context (log10 : num -> res num) (pow10 : num -> res num).
(** What bounds the loops over the marks. *)
Context (fuel : nat).

Definition rint (x : num) : res num := y ← num_add x (frac 1 2); num_floor y.

(** [div / 2]: a float. *)
Definition half (x : num) : res num := num_div x (frac 2 1).
Definition distance (a b : num) : res num := d ← num_sub a b; Ok (num_abs d).

(** One of the five rounds: the division, and the first one. *)
Definition division_round (xi dx_over_ndiv : num) : res (num * num) :=
  tbe ← log10 dx_over_ndiv; k ← rint tbe; div ← pow10 k;
  h ← half div; dh ← distance h dx_over_ndiv; d ← distance div dx_over_ndiv;
  div ← (if num_ltb dh d then half div
         else
           t ← num_mul div (PInt 2); dt ← distance t dx_over_ndiv; d ← distance div dx_over_ndiv;
           if num_ltb dt d then num_mul div (PInt 2) else Ok div);
  q ← num_div xi div; c ← num_ceil q; p ← num_mul div c; x0 ← num_sub p div;
  Ok (x0, div).
(** [for n in range(5)], without what is left of the rounds before: [ndiv] is not used
    after the first line. *)
Fixpoint division_rounds (n : nat) (xi size text_width dx_over_ndiv : num) (found : num * num) : res (num * num) :=
  match n with
  | O => Ok found
  | S n' =>
      r ← division_round xi dx_over_ndiv;
      _ ← (if (5 - n <=? 1)%nat then Ok (PInt 5) else q ← num_div size text_width; rint q);
      division_rounds n' xi size text_width dx_over_ndiv r
  end.
Definition _compute_divisions (xi xf : num) : res (num * num) :=
  _ ← py_assert (num_gtb xf xi);
  dx ← num_sub xf xi; w ← num_div dx (PInt 5); text_width ← half w;
  dx_over_ndiv ← num_div dx (PInt 5);
  division_rounds 5 xi dx text_width dx_over_ndiv (PInt 0, PInt 0).

(** The labels in use, and those that are left of the last view. *)
Abbreviation pool := (list axis_label * list axis_label)%type.
(** [get_label], and [set_properties]. *)
Definition put_label (number font : num) (at_ : point) (p : pool) : pool := (p.1 ++ [AxisLabel true number font at_], tail p.2).

Record mark := Mark { m_line : point * point; m_at : point }.
(** [while x < sim_x2], for either axis. *)
Fixpoint draw_marks (fuel : nat) (mark_of : num -> res mark) (font : res num) (x div limit : num) (st : list (point * point) * pool)
    : res (list (point * point) * pool) :=
  match fuel with
  | O => NoFuel
  | S fuel =>
      if num_ltb x limit then
        m ← mark_of x; size ← font;
        y ← num_add x div; draw_marks fuel mark_of font y div limit (st.1 ++ [m_line m], put_label x size (m_at m) st.2)
      else Ok st
  end.

(** The marks on the horizontal and on the vertical axis. *)
Definition hmark (yc offset x : num) : res mark :=
  px ← num_mul PIXELS_PER_METER x; top ← num_sub yc offset; Ok (Mark ((px, top), (px, yc)) (px, top)).
Definition vmark (xc offset y : num) : res mark :=
  py ← num_mul PIXELS_PER_METER y; right ← num_add xc offset; Ok (Mark ((xc, py), (right, py)) (right, py)).

(** The corners of the view, the width of the lines, [yc] and [xc], and the size of the
    font, which is computed for each label. *)
Record hud_frame := Frame { corner1 : point; corner2 : point; f_offset : num; f_width : num; yc : num; xc : num; f_font : res num }.
Definition frame_of (z : num) (v : hud_view) : res hud_frame :=
  offset ← num_div (PInt 10) z;
  let p1 := convert v ((hadj v).1, (vadj v).1) in
  hx ← num_add (hadj v).1 (hadj v).2; vy ← num_add (vadj v).1 (vadj v).2;
  let p2 := convert v (hx, vy) in
  w ← num_div (frac 5 1) z; w2 ← half w; y ← num_sub p2.2 w2; x ← num_add p1.1 w2;
  Ok (Frame p1 p2 offset w y x (f ← num_div (PInt 12) z; py_int f)).

Definition draw_axis (from to : num) (line : point * point) (mark_of : num -> res mark) (font : res num) (p : pool)
    : res (list (point * point) * pool) :=
  s1 ← num_div from PIXELS_PER_METER; s2 ← num_div to PIXELS_PER_METER;
  '(x0, div) ← _compute_divisions s1 s2;
  draw_marks fuel mark_of font x0 div s2 ([line], p).

Definition axes_update_view (v : hud_view) (a : axes) : res axes :=
  match zoom v with
  | None => Ok a
  | Some z =>
      f ← frame_of z v;
      let '((x1, y1), (x2, y2)) := (corner1 f, corner2 f) in
      '(h, p) ← draw_axis x1 x2 ((x1, yc f), (x2, yc f)) (hmark (yc f) (f_offset f)) (f_font f) ([], hide_label <$> labels a);
      '(w, p) ← draw_axis y1 y2 ((xc f, y1), (xc f, y2)) (vmark (xc f) (f_offset f)) (f_font f) p;
      Ok (Axes (f_width f) h w (lines_visible a) (p.1 ++ p.2) (visible a))
  end.

Definition set_visible (b : bool) (a : axes) : axes :=
  Axes (line_width a) (hlines a) (vlines a) b (if b then labels a else hide_label <$> labels a) b.

(** The signals of the two adjustments, and [set_visible]. *)
Inductive axes_event := Adjusted (v : hud_view) | SetVisible (b : bool).
Definition axes_step (a : axes) (e : axes_event) : res axes :=
  match e with
  | Adjusted v => if visible a then axes_update_view v a else Ok a
  | SetVisible b => Ok (set_visible b a)
  end.
Definition new_axes (v : hud_view) : res axes := axes_update_view v (Axes (PInt 0) [] [] true [] true).
End hud.

(** ** The division of an axis *)

Section hud_facts.
Context (log10 : num -> res num) (pow10 : num -> res num) (fuel : nat).

Lemma rounds_same n xi size width dx found r : (0 < n)%nat ->
  division_rounds log10 pow10 n xi size width dx found = Ok r -> division_round log10 pow10 xi dx = Ok r.
Proof.
  revert found. induction n as [|n IH]; intros found Hn H; [lia|]. cbn [division_rounds] in H. inv_bind H. inv_bind H.
  destruct n as [|n]; [cbn in H; congruence|]. eapply IH; [lia|exact H].
Qed.

(** The division is that of the first round: the other four only repeat it. *)
Theorem compute_divisions_once xi xf r : _compute_divisions log10 pow10 xi xf = Ok r ->
  num_gtb xf xi = true /\ exists dx d, num_sub xf xi = Ok dx /\ num_div dx (PInt 5) = Ok d /\ division_round log10 pow10 xi d = Ok r.
Proof.
  intros H. unfold _compute_divisions in H. destruct (num_gtb xf xi); [|done]. cbn [py_assert mbind result_bind] in H. split; [done|].
  inv_bind H. inv_bind H. inv_bind H. inv_bind H. exists a, a0. split; [done|]. split; [done|].
  assert (a2 = a0) as -> by congruence. eapply rounds_same; [|exact H]. lia.
Qed.

(** ** The marks of an axis, and the labels *)

(** The numbers at the marks. *)
Inductive tick_numbers (div limit : num) : num -> list num -> Prop :=
| ticks_end x : num_ltb x limit = false -> tick_numbers div limit x []
| ticks_next x y l : num_ltb x limit = true -> num_add x div = Ok y -> tick_numbers div limit y l -> tick_numbers div limit x (x :: l).

(** The label of a mark. *)
Definition label_of (font : num) (x : num) (m : mark) : axis_label := AxisLabel true x font (m_at m).
(** What an axis draws: its marks, and their labels. *)
Definition drawn_marks (mark_of : num -> res mark) (font : res num) (xs : list num) (ms : list mark) (ls : list axis_label) : Prop :=
  Forall2 (fun x m => mark_of x = Ok m) xs ms /\
  length ls = length xs /\ forall i x m, xs !! i = Some x -> ms !! i = Some m -> exists size, font = Ok size /\ ls !! i = Some (label_of size x m).

Lemma draw_marks_spec n mark_of font x div limit path used unused st' :
  draw_marks n mark_of font x div limit (path, (used, unused)) = Ok st' ->
  exists xs ms ls, tick_numbers div limit x xs /\ drawn_marks mark_of font xs ms ls /\
    st' = (path ++ (m_line <$> ms), (used ++ ls, drop (length xs) unused)).
Proof.
  revert x path used unused. induction n as [|n IH]; intros x path used unused H; [done|]. cbn [draw_marks] in H.
  destruct (num_ltb x limit) eqn:Hx.
  - inv_bind H. inv_bind H. inv_bind H. cbn [fst snd] in H. unfold put_label in H. cbn [fst snd] in H.
    apply IH in H as (xs & ms & ls & Ht & (Hm & Hl & Hls) & ->). exists (x :: xs), (a :: ms), (label_of a0 x a :: ls).
    split; [by eapply ticks_next|]. split.
    + split; [by constructor|]. split; [by cbn; rewrite Hl|]. intros [|i] x' m'; cbn.
      * intros [= <-] [= <-]. by exists a0.
      * apply Hls.
    + cbn [fmap list_fmap length]. rewrite <- !app_assoc. by destruct unused as [|u unused]; cbn; rewrite ?drop_nil.
  - injection H as <-. exists [], [], []. split; [by constructor|]. split; [by repeat constructor|]. by rewrite !app_nil_r.
Qed.

Definition shown (a : axes) : list axis_label := filter (fun l => lb_visible l = true) (labels a).

Lemma hidden_none ls : filter (fun l => lb_visible l = true) (hide_label <$> ls) = [].
Proof. induction ls as [|l ls IH]; [done|]. rewrite fmap_cons, filter_cons_False by done. exact IH. Qed.
Lemma drawn_visible mark_of font xs ms ls : drawn_marks mark_of font xs ms ls -> filter (fun l => lb_visible l = true) ls = ls.
Proof.
  intros (Hm & Hl & Hls). apply filter_id, Forall_lookup. intros i l Hi.
  destruct (lookup_lt_is_Some_2 xs i) as [x Hx]; [rewrite <- Hl; by eapply lookup_lt_Some|].
  destruct (Forall2_lookup_l _ _ _ _ _ Hm Hx) as (m & Hmi & _). destruct (Hls i x m Hx Hmi) as (size & _ & Hi'). rewrite Hi in Hi'. by injection Hi' as ->.
Qed.

(** What an axis shows between two coordinates. *)
Definition axis_shows (from to : num) (mark_of : num -> res mark) (font : res num) (line : point * point)
    (lines : list (point * point)) (ls : list axis_label) : Prop :=
  exists s1 s2 x0 div xs ms,
    num_div from PIXELS_PER_METER = Ok s1 /\ num_div to PIXELS_PER_METER = Ok s2 /\ _compute_divisions log10 pow10 s1 s2 = Ok (x0, div) /\
    tick_numbers div s2 x0 xs /\ drawn_marks mark_of font xs ms ls /\ lines = line :: (m_line <$> ms).

Lemma draw_axis_spec from to line mark_of font used unused r :
  draw_axis log10 pow10 fuel from to line mark_of font (used, unused) = Ok r ->
  exists lines ls, axis_shows from to mark_of font line lines ls /\ r = (lines, (used ++ ls, drop (length ls) unused)).
Proof.
  intros H. unfold draw_axis in H. inv_bind H. inv_bind H. inv_bind H. destruct a1 as [x0 div].
  apply draw_marks_spec in H as (xs & ms & ls & Ht & Hd & ->). exists (line :: (m_line <$> ms)), ls.
  split; [exists a, a0, x0, div, xs, ms; by do 5 (split; [done|])|]. destruct Hd as (_ & -> & _). done.
Qed.

(** Drawing a view: the two axes have the marks of that view, exactly these have a
    visible label, the horizontal ones first, whatever was shown before; the labels that
    are there are used before new ones are made, and none is lost. *)
Theorem axes_update_view_spec v a a' z : zoom v = Some z -> axes_update_view log10 pow10 fuel v a = Ok a' ->
  exists f hls vls, frame_of z v = Ok f /\
    axis_shows (corner1 f).1 (corner2 f).1 (hmark (yc f) (f_offset f)) (f_font f) (((corner1 f).1, yc f), ((corner2 f).1, yc f)) (hlines a') hls /\
    axis_shows (corner1 f).2 (corner2 f).2 (vmark (xc f) (f_offset f)) (f_font f) ((xc f, (corner1 f).2), (xc f, (corner2 f).2)) (vlines a') vls /\
    shown a' = hls ++ vls /\ length (labels a') = Nat.max (length (labels a)) (length (hls ++ vls)) /\
    lines_visible a' = lines_visible a /\ visible a' = visible a.
Proof.
  intros Hz H. unfold axes_update_view in H. rewrite Hz in H. inv_bind H. exists a0.
  destruct (corner1 a0) as [x1 y1] eqn:E1, (corner2 a0) as [x2 y2] eqn:E2.
  apply bind_ok in H as ([h p] & Hh & H). apply bind_ok in H as ([w p'] & Hv & H). injection H as <-.
  apply draw_axis_spec in Hh as (hl & hls & Hh & [= -> ->]). apply draw_axis_spec in Hv as (vl & vls & Hv & [= -> ->]).
  exists hls, vls. split; [done|]. split; [exact Hh|]. split; [exact Hv|]. cbn [app fst snd labels lines_visible visible].
  rewrite drop_drop, <- fmap_drop. split; [|split; [|done]].
  - unfold shown. cbn [labels]. rewrite !filter_app, hidden_none, app_nil_r. destruct Hh as (? & ? & ? & ? & ? & ? & _ & _ & _ & _ & Hh & _).
    destruct Hv as (? & ? & ? & ? & ? & ? & _ & _ & _ & _ & Hv & _). by rewrite (drawn_visible _ _ _ _ _ Hh), (drawn_visible _ _ _ _ _ Hv).
  - rewrite !length_app, length_fmap, length_drop. lia.
Qed.

(** From the making of the axes on: lines and labels are hidden with them, the lines
    shown with them, and the number of labels never falls. *)
Theorem axes_session v0 events a0 a : new_axes log10 pow10 fuel v0 = Ok a0 ->
  for_each (axes_step log10 pow10 fuel) events a0 = Ok a ->
  lines_visible a = visible a /\ (visible a = false -> shown a = []) /\ (length (labels a0) <= length (labels a))%nat.
Proof.
  intros H0. set (I := fun a : axes => lines_visible a = visible a /\ (visible a = false -> shown a = [])).
  assert (forall v b b', axes_update_view log10 pow10 fuel v b = Ok b' -> visible b = true -> I b ->
    I b' /\ (length (labels b) <= length (labels b'))%nat) as Hup.
  { intros v b b' Hb Hvis HI. destruct (zoom v) as [z|] eqn:Hz.
    - destruct (axes_update_view_spec v b b' z Hz Hb) as (f & hls & vls & _ & _ & _ & _ & Hlen & Hlv & Hv). unfold I.
      rewrite Hlv, Hv, Hlen. destruct HI as [-> _]. split; [split; [done|congruence]|lia].
    - unfold axes_update_view in Hb. rewrite Hz in Hb. by injection Hb as <-. }
  assert (I a0) as Hi0 by (apply (Hup _ _ _ H0); [done|]; split; [done|discriminate]).
  clear H0. revert a0 Hi0. induction events as [|e events IH]; intros a0 Hi0 H; [injection H as <-; by split; [apply Hi0|split; [apply Hi0|]]|].
  cbn [for_each] in H. apply bind_ok in H as (a1 & H1 & H).
  assert (I a1 /\ (length (labels a0) <= length (labels a1))%nat) as [Hi1 Hl1].
  { destruct e as [v|b]; cbn in H1.
    - destruct (visible a0) eqn:Hvis; [by apply (Hup v)|by injection H1 as <-].
    - injection H1 as <-. unfold set_visible, I. cbn. split; [split; [done|intros ->; apply hidden_none]|]. destruct b; rewrite ?length_fmap; lia. }
  destruct (IH a1 Hi1 H) as (? & ? & ?). split; [done|]. split; [done|lia].
Qed.
End hud_facts.

(** ** The end of the loops *)

Lemma floor_spec a m e : a <= floor_of m e <-> scale a 0 (Z.min 0 e) <= scale m e (Z.min 0 e).
Proof.
  unfold floor_of, scale. destruct (Z.leb_spec 0 e) as [He|He].
  - rewrite Z.min_l, !Z.sub_0_r, !Z.shiftl_0_r by lia. done.
  - rewrite Z.min_r, Z.sub_diag, Z.shiftl_0_r by lia. replace (0 - e) with (- e) by lia. rewrite !Z.shiftl_mul_pow2 by lia.
    assert (0 < 2 ^ (- e)) as Hp by (apply Z.pow_pos_nonneg; lia).
    pose proof (Z.mul_div_le m (2 ^ (- e)) Hp). split; [nia|]. intros H1. apply Z.div_le_lower_bound; lia.
Qed.

(** An integer is below a number if it is below the number rounded up. *)
Lemma num_ltb_ceil a x c : num_ceil x = Ok (PInt c) -> num_ltb (PInt a) x = (a <? c).
Proof.
  unfold num_ceil, num_ltb, num_compare. cbn [num_value]. destruct (num_value x) as [| |m e]; [done..|]. intros [= <-]. cbn.
  pose proof (floor_spec (- a) (- m) e) as Hf. unfold scale in *. rewrite !Z.shiftl_mul_pow2 in * by lia.
  destruct (Z.compare_spec (a * 2 ^ (0 - Z.min 0 e)) (m * 2 ^ (e - Z.min 0 e))), (Z.ltb_spec a (- floor_of (- m) e)); try done; lia.
Qed.

Section end_facts.
Context (mark_of : num -> res mark) (font : res num).

(** On integers: the marks are at the multiples up to the end of the view, and as much
    fuel as there are marks is enough. *)
Theorem draw_marks_ends n x div limit c size st : 0 < div -> num_ceil limit = Ok (PInt c) -> font = Ok size ->
  (forall i, x <= i < c -> exists m, mark_of (PInt i) = Ok m) -> (Z.to_nat (c - x) < n)%nat ->
  exists ms ls, let xs := (fun i => PInt (x + Z.of_nat i * div)) <$> seq 0 (Z.to_nat ((c - x + div - 1) / div)) in
    draw_marks n mark_of font (PInt x) (PInt div) limit st = Ok (st.1 ++ (m_line <$> ms), (st.2.1 ++ ls, drop (length xs) st.2.2)) /\
    drawn_marks mark_of font xs ms ls.
Proof.
  intros Hdiv Hc Hfont. revert x st. induction n as [|n IH]; intros x [path [used unused]] Hmarks Hn; [lia|].
  cbn [draw_marks fst snd]. rewrite (num_ltb_ceil _ _ _ Hc). destruct (Z.ltb_spec x c) as [Hx|Hx].
  - destruct (Hmarks x) as [m Em]; [lia|]. rewrite Em. rewrite Hfont in IH |- *. cbn [mbind result_bind num_add arith].
    destruct (IH (x + div) (path ++ [m_line m], put_label (PInt x) size (m_at m) (used, unused))) as (ms & ls & -> & Hf & Hl & Hls);
      [intros i Hi; apply Hmarks; lia|lia|].
    exists (m :: ms), (label_of size (PInt x) m :: ls). cbv zeta in *.
    assert ((c - x + div - 1) / div = (c - (x + div) + div - 1) / div + 1) as E
      by (rewrite <- Z.div_add by lia; f_equal; lia).
    assert (0 <= (c - (x + div) + div - 1) / div) as Hpos by (apply Z.div_pos; lia).
    set (k := Z.to_nat ((c - (x + div) + div - 1) / div)) in *.
    assert ((fun i => PInt (x + Z.of_nat i * div)) <$> seq 0 (Z.to_nat ((c - x + div - 1) / div)) =
      PInt x :: ((fun i => PInt (x + div + Z.of_nat i * div)) <$> seq 0 k)) as ->.
    { rewrite E. replace (Z.to_nat (_ + 1)) with (S k) by lia. cbn [seq fmap list_fmap]. f_equal; [f_equal; lia|].
      rewrite <- fmap_S_seq, <- list_fmap_compose. apply list_fmap_ext. intros i j _. cbn. f_equal. lia. }
    split; [|split; [by constructor|]].
    + cbn [fst snd put_label fmap list_fmap length]. rewrite <- !app_assoc. unfold put_label. cbn [fst snd].
      by destruct unused as [|u unused]; cbn; rewrite ?drop_nil.
    + split; [by cbn; rewrite Hl|]. intros [|i] y my; cbn; [intros [= <-] [= <-]; by exists size|apply Hls].
  - exists [], []. cbv zeta. assert ((c - x + div - 1) / div <= 0) as H0 by (apply Z.div_le_upper_bound in Hx || (assert ((c - x + div - 1) / div < 1) by (apply Z.div_lt_upper_bound; lia); lia)).
    replace (Z.to_nat ((c - x + div - 1) / div)) with 0%nat by lia. cbn. rewrite !app_nil_r. split; [done|]. by repeat constructor.
Qed.

(** Where the division is lost in the rounding of the sum, the loop never ends. *)
Lemma draw_marks_stuck n x m div limit size st : num_ltb x limit = true -> num_add x div = Ok x -> mark_of x = Ok m -> font = Ok size ->
  draw_marks n mark_of font x div limit st = NoFuel.
Proof.
  intros Hx Ha Hm Hf. revert st. induction n as [|n IH]; intros st; [done|]. cbn [draw_marks]. rewrite Hx, Hm. rewrite Hf in IH |- *. cbn [mbind result_bind].
  rewrite Ha. cbn [mbind result_bind]. apply IH.
Qed.
End end_facts.

(** ** Examples *)

(** Enough of the C library for these: a logarithm that is right to the nearest integer
    around [10], and its power. *)
Definition log10_of_some (x : num) : res num := Ok (if num_ltb x (PInt 3) then PInt 0 else PInt 1).
Definition pow10_of_some (k : num) : res num := Ok (if num_ltb k (PInt 1) then PInt 1 else PInt 10).

(** The view of [300] by [150] pixels at [(0, 0)], as the canvas has it at zoom 1. *)
Definition wide : hud_view := View (Some (frac 1 1)) (frac 0 1, frac 300 1) (frac 0 1, frac 150 1) (fun p => p).
Definition axes_of (events : list axes_event) : res axes :=
  a ← new_axes log10_of_some pow10_of_some 20 wide; for_each (axes_step log10_of_some pow10_of_some 20) events a.
Definition first_axes : axes := match axes_of [] with Ok a => a | _ => Axes (PInt 0) [] [] true [] true end.

(** 100 and 50 metres: marks every 20 and every 10 metres, the first ones outside. *)
Example first_labels : (lb_number <$> labels first_axes) = PInt <$> [-20; 0; 20; 40; 60; 80; -10; 0; 10; 20; 30; 40].
Proof. vm_compute. reflexivity. Qed.

Lemma axes_update_view_spec_witness : exists a', axes_update_view log10_of_some pow10_of_some 20 wide first_axes = Ok a' /\
  length (shown a') = 12%nat.
Proof.
  destruct (axes_update_view log10_of_some pow10_of_some 20 wide first_axes) as [a'| |] eqn:E; [|vm_compute in E; discriminate..].
  exists a'. split; [reflexivity|]. destruct (axes_update_view_spec log10_of_some pow10_of_some 20 wide first_axes a' _ eq_refl E)
    as (f & hls & vls & _ & _ & _ & Hs & _). rewrite Hs. rewrite <- Hs. clear Hs. vm_compute in E. injection E as <-. vm_compute. reflexivity.
Defined.

Lemma axes_session_witness : exists a, axes_of [SetVisible false; Adjusted wide] = Ok a /\ shown a = [].
Proof.
  destruct (axes_of [SetVisible false; Adjusted wide]) as [a| |] eqn:E; [|vm_compute in E; discriminate..].
  exists a. split; [reflexivity|]. apply (axes_session log10_of_some pow10_of_some 20 wide [SetVisible false; Adjusted wide] first_axes a).
  - vm_compute. reflexivity.
  - exact E.
  - vm_compute in E. injection E as <-. reflexivity.
Defined.

Lemma compute_divisions_once_witness : exists dx d, num_sub (frac 100 1) (frac 0 1) = Ok dx /\ num_div dx (PInt 5) = Ok d /\
  division_round log10_of_some pow10_of_some (frac 0 1) d = Ok (PInt (-20), PInt 20).
Proof.
  destruct (compute_divisions_once log10_of_some pow10_of_some (frac 0 1) (frac 100 1) (PInt (-20), PInt 20)) as [_ H]; [vm_compute; reflexivity|exact H].
Defined.

Lemma draw_marks_ends_witness : exists ms ls,
  draw_marks 200 (hmark (frac 0 1) (frac 1 1)) (Ok (PInt 12)) (PInt (-20)) (PInt 20) (frac 100 1) ([], ([], [])) = Ok (ms, (ls, [])) /\ length ls = 6%nat.
Proof.
  destruct (draw_marks_ends (hmark (frac 0 1) (frac 1 1)) (Ok (PInt 12)) 200 (-20) 20 (frac 100 1) 100 (PInt 12) ([], ([], [])))
    as (ms & ls & H & _ & Hl & _); [lia|vm_compute; reflexivity|reflexivity| |vm_compute; lia|].
  - intros i Hi. assert (forallb (fun j => is_ok (hmark (frac 0 1) (frac 1 1) (PInt (Z.of_nat j - 20)))) (seq 0 120) = true) as Hall by (vm_compute; reflexivity).
    rewrite forallb_forall in Hall. specialize (Hall (Z.to_nat (i + 20))). rewrite in_seq in Hall. replace (Z.of_nat (Z.to_nat (i + 20)) - 20) with i in Hall by lia.
    destruct (hmark (frac 0 1) (frac 1 1) (PInt i)) as [m| |]; [by exists m| |]; discriminate Hall; lia.
  - eexists _, ls. split; [rewrite H; reflexivity|]. rewrite Hl. reflexivity.
Defined.

(** The labels are not shown again with the axes, but only when the view moves next. *)
Example labels_stay_hidden : (a ← axes_of [SetVisible false; SetVisible true]; Ok (lines_visible a, length (labels a), shown a)) = Ok (true, 12%nat, []).
Proof. vm_compute. reflexivity. Qed.

(** Far away the division is a half power of ten, a float that is lost in the sum: the
    first view there never ends. *)
Definition far : num := frac (10 ^ 17) 1.
Definition far_end : num := frac (10 ^ 17 + 16) 1.
Example far_marks n st : _compute_divisions log10_of_some pow10_of_some far far_end = Ok (far, frac 5 1) /\
  draw_marks n (hmark (frac 0 1) (frac 1 1)) (Ok (PInt 12)) far (frac 5 1) far_end st = NoFuel.
Proof.
  split; [vm_compute; reflexivity|]. eapply draw_marks_stuck; [vm_compute; reflexivity|vm_compute; reflexivity|vm_compute; reflexivity|reflexivity].
Qed.
