(* ===== verification/VizWindows.v ===== *)
(** * Around the canvas of the visualizer: the loading of its plugins ([base.py]), the
    information windows with their tables ([plugins/ipv4_routing_table.py], [olsr.py],
    [interface_statistics.py], [show_last_packets.py]), the tooltips and the snapshot
    ([core.py]).

    What raises keeps what it changed before: such operations return the state and the
    exception. *)
From S2P Require Import Prelude PyNum PyString PyPath VizSvg VizScene VizPlugins.
#[local] Open Scope Z_scope.

(** ** Plugins *)

(** [os.path.splitext] *)
Definition splitext (p : text) : text * text :=
  let name := basename p in
  let ext := "."%char :: default [] (last (split_on "."%char name)) in
  let stem := take (length name - length ext) name in
  if bool_decide ("."%char ∈ name) && existsb (fun c => negb (bool_decide (c = "."%char))) stem
  then (take (length p - length ext) p, ext) else (p, []).

(** What [__import__] does: it fails with [ImportError] or another exception, or gives a
    module, which may have a function [register]. *)
Inductive imported (F : Type) := ImportFails | ImportRaises (e : py_exn) | Module (register : option F).
Arguments ImportFails {F}. Arguments ImportRaises {F}. Arguments Module {F}.

Section plugins.
Context {F : Type}.
Record plugin_table := PluginTable {
  plugins : list F; plugin_modules : gmap text F; plugins_loaded : bool; sys_path : list text }.

(** [plugin_module] is known by its function. *)
Definition register_plugin (f : F) (name : text) (t : plugin_table) : plugin_table :=
  PluginTable (plugins t ++ [f]) (<[name := f]> (plugin_modules t)) (plugins_loaded t) (sys_path t).

Context (import : text -> imported F).

Fixpoint load_files (filenames : list text) (t : plugin_table) : plugin_table * option py_exn :=
  match filenames with
  | [] => (t, None)
  | filename :: filenames =>
      let '(name, ext) := splitext filename in
      if decide (ext <> txt ".py") then load_files filenames t
      else match import name with
           | ImportFails | Module None => load_files filenames t
           | ImportRaises e => (t, Some e)
           | Module (Some f) => load_files filenames (register_plugin f name t)
           end
  end.
(** [listing] is [os.listdir(plugins_dir)]. *)
Definition load_plugins (plugins_dir : text) (listing : list text) (t : plugin_table) : plugin_table * option py_exn :=
  if plugins_loaded t then (t, None)
  else
    let old_path := sys_path t in
    let '(t, e) := load_files listing (PluginTable (plugins t) (plugin_modules t) true (plugins_dir :: sys_path t)) in
    match e with
    | Some e => (t, Some e)
    | None => (PluginTable (plugins t) (plugin_modules t) (plugins_loaded t) old_path, None)
    end.
End plugins.

(** ** Tables *)

Record route := Route { r_dest : text; r_gateway : text; r_interface : Z }.
Inductive protocol := StaticRouting (rs : list route) | GlobalRouting (rs : list route) | OtherRouting.
Inductive routing := OneProtocol (p : protocol) | ListRouting (ps : list (protocol * Z)).
Record olsr_entry := OlsrEntry { o_dest : text; o_next : text; o_interface : Z; o_distance : Z }.
(** [Ipv4]: [GetRoutingProtocol] and [GetNetDevice]. *)
Record ipv4_object := Ipv4Object { get_routing : option routing; get_net_device : Z -> option nat }.
(** What a node has: [GetObject] may find nothing. *)
Record net_node := NetNode { nn_ipv4 : option ipv4_object; nn_olsr : option (list olsr_entry) }.

Record ipv4_row := Ipv4Row { i_dest : text; i_hop : text; i_interface : text; i_type : text; i_prio : Z }.
Record olsr_row := OlsrRow { l_dest : text; l_hop : text; l_interface : text; l_hops : Z }.

Section tables.
(** [Names.FindName] of a device: empty without a name. *)
Context (find_name : nat -> text).

Definition numbered_interface (i : Z) : text := txt "(interface " ++ show_Z i ++ txt ")".
Definition interface_name (ip : ipv4_object) (i : Z) : text :=
  match get_net_device ip i with
  | None => txt "lo"
  | Some dev => match find_name dev with [] => numbered_interface i | name => name end
  end.

Definition static_type : text := txt "static".
Definition global_type : text := txt "global".
Definition routing_protocols (r : routing) : list (list route * text * Z) :=
  match r with
  | OneProtocol (StaticRouting rs) => [(rs, static_type, 0)]
  | OneProtocol _ => []
  | ListRouting ps => omap (fun p : protocol * Z => match p.1 with
      | StaticRouting rs => Some (rs, static_type, p.2)
      | GlobalRouting rs => Some (rs, global_type, p.2)
      | OtherRouting => None
      end) ps
  end.
Definition ipv4_rows (ip : ipv4_object) (ps : list (list route * text * Z)) : list ipv4_row :=
  ps ≫= fun p => (fun r => Ipv4Row (r_dest r) (r_gateway r) (interface_name ip (r_interface r)) p.1.2 p.2) <$> p.1.1.
(** [ShowIpv4RoutingTable.update] *)
Definition update_ipv4_table (n : net_node) (table : list ipv4_row) : res (list ipv4_row) :=
  ip ← or_raise AttributeError (nn_ipv4 n);
  match get_routing ip with
  | None => Ok table
  | Some r => match routing_protocols r with [] => Ok table | ps => Ok (ipv4_rows ip ps) end
  end.
(** [ShowOlsrRoutingTable.update] *)
Definition olsr_row_of (n : net_node) (rows : list olsr_row) (r : olsr_entry) : res (list olsr_row) :=
  ip ← or_raise AttributeError (nn_ipv4 n);
  Ok (rows ++ [OlsrRow (o_dest r) (o_next r) (interface_name ip (o_interface r)) (o_distance r)]).
Definition update_olsr_table (n : net_node) (table : list olsr_row) : res (list olsr_row) :=
  match nn_olsr n with
  | None => Ok table
  | Some entries => for_each (olsr_row_of n) entries []
  end.

(** [PacketList.update] and [ShowInterfaceStatistics.update]: a sample is its time, its
    device with its index, its size and contents. *)
Record packet_sample := PacketSample { p_time : text; p_device : option (nat * Z); p_size : Z; p_contents : text }.
Definition packet_row (s : packet_sample) : list text :=
  [p_time s;
   match p_device s with
   | None => txt "(unknown)"
   | Some (dev, i) => match find_name dev with [] => numbered_interface i | name => name end
   end; show_Z (p_size s); p_contents s].
Definition packet_rows (samples : list packet_sample) : list (list text) := packet_row <$> samples.
(** [get_device] is that of the node; the rates stay numbers. *)
Fixpoint statistics_rows (get_device : nat -> nat) (i : nat) (stats : list net_dev_stats) : list (text * net_dev_stats) :=
  match stats with
  | [] => []
  | s :: stats =>
      (match find_name (get_device i) with [] => numbered_interface (Z.of_nat i) | name => name end, s)
        :: statistics_rows get_device (S i) stats
  end.
End tables.

(** ** Information windows *)

Section windows.
(** A window has an identity, and [update] may raise. *)
Context {W : Type} (update : W -> res W).
Abbreviation windows := (list (nat * W)).

Definition update_window (k : nat) (ws : windows) : windows * option py_exn :=
  match find (fun w => bool_decide (w.1 = k)) ws with
  | None => (ws, None)
  | Some w => match update w.2 with
              | Ok w' => ((fun x => if decide (x.1 = k) then (k, w') else x) <$> ws, None)
              | Raise e => (ws, Some e)
              | NoFuel => (ws, None)
              end
  end.
Definition add_information_window (k : nat) (w : W) (ws : windows) : windows * option py_exn := update_window k (ws ++ [(k, w)]).
Fixpoint remove_information_window (k : nat) (ws : windows) : res windows :=
  match ws with
  | [] => Raise ValueError
  | w :: ws => if decide (w.1 = k) then Ok ws else ws ← remove_information_window k ws; Ok (w :: ws)
  end.
(** The loop of [update_view] over the windows. *)
Fixpoint update_windows (ws : windows) : windows * option py_exn :=
  match ws with
  | [] => ([], None)
  | w :: ws =>
      match update w.2 with
      | Ok w' => let '(ws, e) := update_windows ws in ((w.1, w') :: ws, e)
      | Raise e => (w :: ws, Some e)
      | NoFuel => (w :: ws, None)
      end
  end.
End windows.

(** ** Tooltips *)

Section items.
(** The canvas items: the parent of each, and whether it has a [pyviz_object]. *)
Context (item_parent : nat -> option nat) (has_object : nat -> bool) (depth : nat).

(** [while item is not None]: from the item under the pointer upwards. *)
Definition tooltip_step (item : option nat) : res (option nat + option nat) :=
  match item with
  | None => Ok (inr None)
  | Some i => if has_object i then Ok (inr (Some i)) else Ok (inl (item_parent i))
  end.
Definition tooltip_object (item : option nat) : res (option nat) := loop (S (S depth)) tooltip_step item.
End items.

(** The tooltip of a node: what the simulator says of it. *)
Record device_info := DeviceInfo {
  di_name : text; di_type : text; di_ipv4 : option (list (text * text)); di_ipv6 : option (list (text * text)); di_mac : text }.
Definition address_line (what : text) (addresses : list (text * text)) : text :=
  txt "    <b>" ++ what ++ txt " Addresses:</b> " ++ join (txt "; ") ((fun a => a.1 ++ txt "/" ++ a.2) <$> addresses).
Definition device_lines (i : nat) (d : device_info) : list text :=
  [[]; txt "  <u>NetDevice " ++ show_Z (Z.of_nat i) ++ txt ":</u>"] ++
  (match di_name d with [] => [] | name => [txt "    <b>Name:</b> " ++ name] end) ++ [txt "    <b>Type:</b> " ++ di_type d] ++
  (match di_ipv4 d with Some l => [address_line (txt "IPv4") l] | None => [] end) ++
  (match di_ipv6 d with Some l => [address_line (txt "IPv6") l] | None => [] end) ++ [txt "    <b>MAC Address:</b> " ++ di_mac d].
(** [extra] is what the handlers of [query-extra-tooltip-info] add. *)
Definition node_tooltip (index : nat) (node_name : text) (extra : list text) (mobility : option text) (devices : list device_info) : list text :=
  [txt "<b><u>Node " ++ show_Z (Z.of_nat index) ++ txt "</u></b>" ++
     match node_name with [] => [] | _ => txt " <b>(" ++ node_name ++ txt ")</b>" end; []] ++ extra ++
  (match mobility with None => [] | Some m => [txt "  <b>Mobility Model</b>: " ++ m] end) ++
  concat (imap device_lines devices).

(** ** The snapshot *)

Inductive snapshot_kind := PSSurface | PDFSurface | SVGSurface.
(** The surface for a file name, or the extension that is not known. *)
Definition snapshot_surface (file_name : text) : snapshot_kind + text :=
  let extension := lower (splitext file_name).2 in
  if decide (extension = txt ".eps") then inl PSSurface
  else if decide (extension = txt ".pdf") then inl PDFSurface
  else if decide (extension = txt ".svg") then inl SVGSurface
  else inr extension.
(** The bounds of what is visible, in the coordinates of the canvas, and the size of the
    surface. *)
Definition snapshot_bounds (hadj vadj : num * num) (convert : num * num -> point) : res (point * point * point) :=
  x2 ← num_add hadj.1 hadj.2; y2 ← num_add vadj.1 vadj.2;
  let p1 := convert (hadj.1, vadj.1) in let p2 := convert (x2, y2) in
  w ← num_sub p2.1 p1.1; h ← num_sub p2.2 p1.2; Ok (p1, p2, (w, h)).

(** ** What is loaded *)

Lemma split_on_end (c : ascii) l1 l2 : c ∉ l2 -> exists w ws, split_on c (l1 ++ c :: l2) = w :: ws ++ [l2].
Proof.
  intros H. induction l1 as [|x l1 (w & ws & IH)]; cbn [app split_on].
  - rewrite decide_True, split_on_none by done. by exists [], [].
  - rewrite IH. case_decide; [by exists [], (w :: ws)|by exists (x :: w), ws].
Qed.

(** A name before [.py], with a character that is no dot. *)
Lemma splitext_py name : slash ∉ name -> existsb (fun c => negb (bool_decide (c = "."%char))) name = true ->
  splitext (name ++ txt ".py") = (name, txt ".py").
Proof.
  intros Hs Hn. unfold splitext, basename.
  assert (slash ∉ name ++ txt ".py") as Hs' by (rewrite elem_of_app; intros [?|H]; [done|]; revert H; apply (bool_decide_unpack _); vm_compute; exact I).
  rewrite split_on_none by done. cbn [last default from_option]. unfold id.
  destruct (split_on_end "."%char name (txt "py")) as (w & ws & E); [apply (bool_decide_unpack _); vm_compute; exact I|].
  change (txt ".py") with ("."%char :: txt "py") in *. rewrite E. change (w :: ws ++ [txt "py"]) with ((w :: ws) ++ [txt "py"]). rewrite last_snoc.
  cbn [default from_option]. rewrite length_app. replace (length name + length ("."%char :: txt "py") - length ("."%char :: txt "py"))%nat with (length name) by lia.
  rewrite take_app_length, Hn, bool_decide_true by (rewrite elem_of_app; right; left). done.
Qed.

Section plugin_facts.
Context {F : Type} (import : text -> imported F).

(** The functions that a directory registers, with the names of their modules. *)
Definition registers (listing : list text) : list (text * F) :=
  omap (fun filename => let '(name, ext) := splitext filename in
    if decide (ext = txt ".py") then match import name with Module (Some f) => Some (name, f) | _ => None end else None) listing.

Lemma load_files_spec listing t : (forall filename e, filename ∈ listing -> import (splitext filename).1 <> ImportRaises e) ->
  load_files import listing t =
    (PluginTable (plugins t ++ (registers listing).*2) (foldl (fun m p => <[p.1 := p.2]> m) (plugin_modules t) (registers listing))
       (plugins_loaded t) (sys_path t), None).
Proof.
  revert t. induction listing as [|filename listing IH]; intros t Hi.
  - destruct t. cbn. by rewrite app_nil_r.
  - assert (forall f e, f ∈ listing -> import (splitext f).1 <> ImportRaises e) as Hi' by (intros; apply Hi; by right).
    cbn [load_files]. unfold registers. cbn [omap list_omap]. fold (registers listing). specialize (Hi filename).
    destruct (splitext filename) as [name ext]. cbn [fst] in Hi. destruct (decide (ext = txt ".py")) as [->|Hext].
    + rewrite decide_False by (intros H; by apply H). destruct (import name) as [|e|[f|]] eqn:Ei.
      * by apply IH.
      * destruct (Hi e); [left|done].
      * rewrite IH by done. cbn. by rewrite <- app_assoc.
      * by apply IH.
    + rewrite decide_True by done. by apply IH.
Qed.

(** When no module raises anything but [ImportError], loading registers every module of
    the directory that has a function [register], in the order of the listing, leaves the
    path as it was, and is done only once. *)
Theorem load_plugins_spec dir listing t : plugins_loaded t = false ->
  (forall filename e, filename ∈ listing -> import (splitext filename).1 <> ImportRaises e) ->
  exists t', load_plugins import dir listing t = (t', None) /\ plugins t' = plugins t ++ (registers listing).*2 /\ sys_path t' = sys_path t /\
    (forall name f, plugin_modules t' !! name = Some f -> (name, f) ∈ registers listing \/ plugin_modules t !! name = Some f) /\
    forall dir' listing', load_plugins import dir' listing' t' = (t', None).
Proof.
  intros Hl Hi. unfold load_plugins at 1. rewrite Hl, load_files_spec by done. cbn. eexists. split; [done|].
  split; [done|]. split; [done|]. split; [|done]. cbn. generalize (plugin_modules t). clear. induction (registers listing) as [|[n g] l IH]; intros m name f; cbn; [auto|].
  intros H. destruct (IH _ _ _ H) as [Hin|Hm]; [left; by right|]. destruct (decide (n = name)) as [->|Hn].
  - rewrite lookup_insert_eq in Hm. injection Hm as ->. left. left.
  - rewrite lookup_insert_ne in Hm by done. by right.
Qed.
End plugin_facts.

(** ** The windows *)

Section window_facts.
Context {W : Type} (update : W -> res W).

(** The windows before the first that raises are updated, the others are not. *)
Lemma update_windows_spec ws : Forall (fun w => update w.2 <> NoFuel) ws ->
  let good := fun w : nat * W => is_ok (update w.2) in
  let '(ws', e) := update_windows update ws in
  ws'.*1 = ws.*1 /\
  (forall i w, ws !! i = Some w -> exists w', ws' !! i = Some w' /\
     (if forallb good (take (S i) ws) then update w.2 = Ok w'.2 else w' = w)) /\
  match e with None => forallb good ws = true | Some e => exists w, w ∈ ws /\ update w.2 = Raise e end.
Proof.
  intros H. cbv zeta. induction H as [|w ws Hw H IH]; [by split; [|split]|]. cbn [update_windows]. destruct (update w.2) as [w'|e|] eqn:E; [| |done].
  - destruct (update_windows update ws) as [ws' e]. destruct IH as (Hk & Hi & He). cbn [fmap list_fmap fst]. split; [by rewrite Hk|]. split.
    + intros [|i] x; cbn [lookup list_lookup].
      * intros [= <-]. exists (w.1, w'). split; [done|]. cbn. by rewrite E.
      * intros Hx. destruct (Hi i x Hx) as (x' & Hx' & Hg). exists x'. split; [done|]. cbn [take forallb]. rewrite E. exact Hg.
    + destruct e as [e|]; [|cbn; by rewrite E]. destruct He as (x & Hx & Hxe). exists x. split; [by right|done].
  - split; [done|]. split.
    + intros i x Hx. exists x. split; [done|]. cbn [take forallb]. by rewrite E.
    + exists w. split; [left|done].
Qed.

End window_facts.

(** An [update] at some time, that does return or raise, and raises on [w]. *)
Definition fails_on {W} (w : W) (update : W -> res W) : Prop := (forall x, update x <> NoFuel) /\ exists e, update w = Raise e.

Lemma failing_stays {W} (update : W -> res W) k w ws : fails_on w update -> (k, w) ∈ ws ->
  (k, w) ∈ (update_windows update ws).1 /\ is_Some (update_windows update ws).2.
Proof.
  intros [Hf [e He]] Hin. pose proof (update_windows_spec update ws) as H. cbv zeta in H. destruct (update_windows update ws) as [ws' r].
  destruct H as (_ & Hi & Hr); [by apply Forall_true|]. split.
  - apply list_elem_of_lookup in Hin as [i Hin]. destruct (Hi i _ Hin) as (w' & Hw' & H). apply list_elem_of_lookup. exists i. cbn [fst].
    destruct (forallb _ (take (S i) ws)); [cbn in H; by rewrite He in H|by subst w'].
  - destruct r as [e'|]; [by exists e'|]. rewrite forallb_forall in Hr. rewrite list_elem_of_In in Hin. specialize (Hr _ Hin). cbn in Hr. by rewrite He in Hr.
Qed.

(** C17: A window whose update raises is shown all the same, and as long as it raises no
    update of the view gets past the windows, until it is closed. *)
Theorem failing_window_blocks {W} (update : W -> res W) k w e ws us : k ∉ ws.*1 -> update w = Raise e -> Forall (fails_on w) us ->
  let ws' := ws ++ [(k, w)] in
  add_information_window update k w ws = (ws', Some e) /\ remove_information_window k ws' = Ok ws /\
  forall u, fails_on w u -> is_Some (update_windows u (foldl (fun ws u => (update_windows u ws).1) ws' us)).2.
Proof.
  intros Hk He Hus. cbv zeta.
  assert (find (fun x : nat * W => bool_decide (x.1 = k)) (ws ++ [(k, w)]) = Some (k, w)) as Hfind.
  { induction ws as [|x ws IH]; cbn; [by rewrite bool_decide_true|]. apply not_elem_of_cons in Hk as [Hx Hk].
    rewrite bool_decide_false by (intros E; by apply Hx). by apply IH. }
  split; [|split].
  - unfold add_information_window, update_window. rewrite Hfind. cbn [snd]. by rewrite He.
  - clear Hfind. induction ws as [|x ws IH]; cbn; [by rewrite decide_True|]. apply not_elem_of_cons in Hk as [Hx Hk]. rewrite decide_False by congruence. by rewrite IH.
  - intros u Hu. apply (failing_stays u k w); [done|]. assert ((k, w) ∈ ws ++ [(k, w)]) as Hin by (apply elem_of_app; right; left).
    clear -Hin Hus. revert Hin. generalize (ws ++ [(k, w)]). induction Hus as [|v us Hv _ IH]; intros l Hin; [done|]. cbn [foldl]. apply IH. by apply failing_stays.
Qed.

(** ** The tables *)

(** The routing table shows the routes of the static and global protocols, and stays as
    it is where the node has no such protocol; without IPv4 the update raises. *)
Definition shown_routes (n : net_node) : list (list route * text * Z) :=
  match nn_ipv4 n with Some ip => match get_routing ip with Some r => routing_protocols r | None => [] end | None => [] end.
Lemma ipv4_table_spec find_name n table : update_ipv4_table find_name n table =
  match nn_ipv4 n with
  | None => Raise AttributeError
  | Some ip => Ok (if decide (shown_routes n = []) then table else ipv4_rows find_name ip (shown_routes n))
  end.
Proof.
  unfold update_ipv4_table, shown_routes. destruct (nn_ipv4 n) as [ip|]; [|done]. cbn. destruct (get_routing ip) as [r|]; [|done].
  by destruct (routing_protocols r).
Qed.

Lemma olsr_table_spec find_name n ip entries table : nn_ipv4 n = Some ip -> nn_olsr n = Some entries ->
  update_olsr_table find_name n table =
    Ok ((fun r => OlsrRow (o_dest r) (o_next r) (interface_name find_name ip (o_interface r)) (o_distance r)) <$> entries).
Proof.
  intros Hip Ho. unfold update_olsr_table. rewrite Ho. enough (forall rows, for_each (olsr_row_of find_name n) entries rows =
    Ok (rows ++ ((fun r => OlsrRow (o_dest r) (o_next r) (interface_name find_name ip (o_interface r)) (o_distance r)) <$> entries))) as H by apply H.
  clear Ho. induction entries as [|r entries IH]; intros rows; [cbn; by rewrite app_nil_r|]. cbn [for_each].
  assert (olsr_row_of find_name n rows r = Ok (rows ++ [OlsrRow (o_dest r) (o_next r) (interface_name find_name ip (o_interface r)) (o_distance r)])) as ->
    by (unfold olsr_row_of; by rewrite Hip).
  cbn [mbind result_bind]. rewrite IH. by rewrite <- app_assoc.
Qed.

(** ** The tooltip that is asked *)

Section item_facts.
Context (item_parent : nat -> option nat) (has_object : nat -> bool) (depth : nat).
Context (level : nat -> nat).
Context (level_parent : forall i p, item_parent i = Some p -> (level p < level i)%nat).
Context (level_bound : forall i, (level i <= depth)%nat).

Definition parent_of (i p : nat) : Prop := item_parent i = Some p /\ has_object i = false.

(** The search ends at the nearest item, from the one under the pointer upwards, that has
    an object of the visualizer, or finds that none has. *)
Theorem tooltip_object_spec item : exists found, tooltip_object item_parent has_object depth (Some item) = Ok found /\
  match found with
  | Some i => rtc parent_of item i /\ has_object i = true
  | None => forall i, rtc parent_of item i -> has_object i = false
  end.
Proof.
  unfold tooltip_object.
  apply (loop_total (tooltip_step item_parent has_object)
    (fun s => match s with Some i => rtc parent_of item i /\ forall j, rtc parent_of item j -> has_object j = true -> rtc parent_of i j
              | None => forall i, rtc parent_of item i -> has_object i = false end)
    (fun s => match s with Some i => S (level i) | None => 0%nat end)
    (fun r => exists found, r = Ok found /\ match found with Some i => rtc parent_of item i /\ has_object i = true
                                                           | None => forall i, rtc parent_of item i -> has_object i = false end)).
  - intros [i|] Hs; cbn; [|by eexists]. destruct Hs as [Hi Hj]. destruct (has_object i) eqn:Ho; cbn.
    + eexists. by split.
    + destruct (item_parent i) as [p|] eqn:Hp.
      * split; [|apply level_parent in Hp; lia]. split; [by eapply rtc_r|]. intros j H1 H2. destruct (rtc_inv _ _ (Hj j H1 H2)) as [<-|(q & [Hq _] & Hqj)]; [congruence|].
        assert (q = p) as -> by congruence. done.
      * split; [|lia]. intros j H1. destruct (has_object j) eqn:Hoj; [|done]. destruct (rtc_inv _ _ (Hj j H1 Hoj)) as [<-|(q & [Hq _] & _)]; congruence.
  - split; [done|auto].
  - specialize (level_bound item). lia.
Qed.
End item_facts.

(** ** Examples *)

Definition demo_import (name : text) : imported nat :=
  if decide (name = txt "olsr") then Module (Some 1%nat) else if decide (name = txt "wifi") then Module (Some 2%nat)
  else if decide (name = txt "broken") then ImportRaises NameError else if decide (name = txt "helper") then Module None else ImportFails.
Definition no_plugins : @plugin_table nat := PluginTable [] ∅ false [txt "/usr/lib/python3"].
Definition demo_listing : list text := txt <$> ["__init__.py"; "olsr.py"; "olsr.pyc"; "helper.py"; "wifi.py"; ".py"]%string.

Lemma load_plugins_spec_witness : exists t', load_plugins demo_import (txt "/viz/plugins") demo_listing no_plugins = (t', None) /\
  plugins t' = [1%nat; 2%nat] /\ sys_path t' = sys_path no_plugins.
Proof.
  destruct (load_plugins_spec demo_import (txt "/viz/plugins") demo_listing no_plugins eq_refl) as (t' & Hr & Hp & Hs & _).
  - intros filename e Hin. repeat (apply elem_of_cons in Hin as [->|Hin]); [..|by apply not_elem_of_nil in Hin]; vm_compute; discriminate.
  - exists t'. split; [exact Hr|]. split; [rewrite Hp; vm_compute; reflexivity|exact Hs].
Defined.

(** A plugin that raises anything but [ImportError] ends the loading: the directory stays
    in the path, and no later call loads the rest. *)
Example broken_plugin : let r := load_plugins demo_import (txt "/viz/plugins") [txt "broken.py"; txt "wifi.py"] no_plugins in
  r.2 = Some NameError /\ sys_path r.1 = [txt "/viz/plugins"; txt "/usr/lib/python3"] /\
  load_plugins demo_import (txt "/viz/plugins") [txt "wifi.py"] r.1 = (r.1, None) /\ plugins r.1 = [].
Proof. vm_compute. repeat split. Qed.

(** A node without IPv4, and the windows of two nodes. *)
Definition bare : net_node := NetNode None None.
Definition routed : net_node := NetNode (Some (Ipv4Object (Some (OneProtocol (StaticRouting [Route (txt "10.0.0.0") (txt "10.0.0.1") 1]))) (fun _ => Some 5%nat))) None.
Definition table_update (w : net_node * list ipv4_row) : res (net_node * list ipv4_row) :=
  t ← update_ipv4_table (fun _ => []) w.1 w.2; Ok (w.1, t).

Lemma table_update_returns w : table_update w <> NoFuel.
Proof. unfold table_update. rewrite ipv4_table_spec. by destruct (nn_ipv4 w.1). Qed.

(** The routing table of a node without IPv4: [AttributeError], and no update of the
    view gets further. *)
Lemma failing_window_blocks_witness :
  add_information_window table_update 2 (bare, []) [(1%nat, (routed, []))] = ([(1%nat, (routed, [])); (2%nat, (bare, []))], Some AttributeError) /\
  is_Some (update_windows table_update (update_windows table_update [(1%nat, (routed, [])); (2%nat, (bare, []))]).1).2.
Proof.
  destruct (failing_window_blocks table_update 2 (bare, []) AttributeError [(1%nat, (routed, []))] [table_update]) as (H1 & _ & H3).
  - apply (bool_decide_unpack _). vm_compute. exact I.
  - reflexivity.
  - apply Forall_singleton. split; [exact table_update_returns|]. exists AttributeError. reflexivity.
  - split; [exact H1|]. apply H3. split; [exact table_update_returns|]. exists AttributeError. reflexivity.
Defined.

(** Item 3 is in 2, which is in 1, the item of an object, in the root 0. *)
Definition demo_parent (i : nat) : option nat := match i with 1 => Some 0 | 2 => Some 1 | 3 => Some 2 | _ => None end%nat.
Lemma tooltip_object_spec_witness : exists found, tooltip_object demo_parent (Nat.eqb 1) 3 (Some 3%nat) = Ok found /\ found = Some 1%nat.
Proof.
  destruct (tooltip_object_spec demo_parent (Nat.eqb 1) 3 (fun i => match i with 1 => 1 | 2 => 2 | 3 => 3 | _ => 0 end%nat)) with (item := 3%nat) as (found & H & _).
  - intros [|[|[|[|i]]]] p; cbn; intros [= <-]; lia.
  - intros [|[|[|[|i]]]]; lia.
  - exists found. split; [exact H|]. vm_compute in H. congruence.
Defined.

(** Names are put into the markup of a tooltip as they are. *)
Example markup_in_name : head (node_tooltip 3 (txt "a<b") [] None []) = Some (txt "<b><u>Node 3</u></b> <b>(a<b)</b>").
Proof. vm_compute. reflexivity. Qed.

Example snapshot_upper : snapshot_surface (txt "/tmp/view.PDF") = inl PDFSurface /\ snapshot_surface (txt "/tmp/view") = inr [].
Proof. vm_compute. done. Qed.
