(* ===== verification/Console.v ===== *)
(** * The console of the visualizer: [src/visualizer/visualizer/ipython_view.py].

    A text view whose last line is the command, with the history and the completion of a
    shell.  What the handlers of keys want to change is queued with [idle_add] and done
    later, in order.  IPython and what GTK does with a key by itself are parameters. *)
From S2P Require Import Prelude PyString WafTasks.

(** ** The buffer

    [Gtk.TextBuffer] is an interface: the operations that the console uses, and what GTK
    documents of them.  The theorems hold for any such buffer; the examples are evaluated
    with [plain_buffer] below. *)

(** A character with its tags: [notouch] is not editable. *)
Record console_cell := Cell { chr : ascii; notouch : bool; colour : option text }.
Definition freeze (c : console_cell) : console_cell := Cell (chr c) true (colour c).

(** A mark with left gravity stays at the place of an insertion, one with right gravity goes
    behind it; the marks in a range that is deleted are where it was. *)
Definition stay (n k p : nat) : nat := if decide (n < p)%nat then (p + k)%nat else p.
Definition follow (n k p : nat) : nat := if decide (n <= p)%nat then (p + k)%nat else p.
Definition removed (a e p : nat) : nat := if decide (p <= a)%nat then p else if decide (p <= e)%nat then a else (p - (e - a))%nat.
(** The end of the line of a position; from an end of a line, that of the next one. *)
Definition line_end (cs : list console_cell) (p : nat) : nat :=
  let ahead (p : nat) := (p + length (span (fun c => negb (bool_decide (chr c = newline))) (drop p cs)).1)%nat in
  if decide (chr <$> (cs !! p) = Some newline) then ahead (S p) else ahead p.

(** The text, the mark [line_start], the cursor and the other end of the selection. *)
Class TextBuffer (B : Type) := {
  empty_buffer : B; cells : B -> list console_cell; line_start : B -> nat; insert_mark : B -> nat; selection_mark : B -> nat;
  insert_at : nat -> list console_cell -> B -> B; delete_range : nat -> nat -> B -> B; apply_notouch : nat -> nat -> B -> B;
  forward_to_line_end : B -> nat -> nat; editable : B -> nat -> bool;
  move_line_start : nat -> B -> B; set_insert : nat -> B -> B; set_selection : nat -> B -> B; place_cursor : nat -> B -> B }.
Definition buffer_end {B} `{TextBuffer B} (b : B) : nat := length (cells b).
Definition chars {B} `{TextBuffer B} (b : B) : text := chr <$> cells b.
(** What is in a buffer, as one value. *)
Definition contents {B} `{TextBuffer B} (b : B) : list console_cell * nat * (nat * nat) := (cells b, line_start b, (insert_mark b, selection_mark b)).

(** The places are in the buffer. *)
Class TextBufferLaws (B : Type) `{TextBuffer B} : Prop := {
  empty_contents : contents (empty_buffer (B := B)) = ([], 0, (0, 0))%nat;
  insert_contents n cs (b : B) : (n <= buffer_end b)%nat ->
    contents (insert_at n cs b) = (take n (cells b) ++ cs ++ drop n (cells b), stay n (length cs) (line_start b),
                                   (follow n (length cs) (insert_mark b), follow n (length cs) (selection_mark b)));
  delete_contents a e (b : B) : (a <= e <= buffer_end b)%nat ->
    contents (delete_range a e b) = (take a (cells b) ++ drop e (cells b), removed a e (line_start b), (removed a e (insert_mark b), removed a e (selection_mark b)));
  notouch_contents a e (b : B) : (a <= e <= buffer_end b)%nat ->
    contents (apply_notouch a e b) = (imap (fun i c => if decide (a <= i < e)%nat then freeze c else c) (cells b), line_start b, (insert_mark b, selection_mark b));
  forward_line_end (b : B) p : (p <= buffer_end b)%nat -> forward_to_line_end b p = line_end (cells b) p;
  editable_char (b : B) p c : cells b !! p = Some c -> editable b p = negb (notouch c);
  line_start_contents p (b : B) : (p <= buffer_end b)%nat -> contents (move_line_start p b) = (cells b, p, (insert_mark b, selection_mark b));
  set_insert_contents p (b : B) : (p <= buffer_end b)%nat -> contents (set_insert p b) = (cells b, line_start b, (p, selection_mark b));
  set_selection_contents p (b : B) : (p <= buffer_end b)%nat -> contents (set_selection p b) = (cells b, line_start b, (insert_mark b, p));
  place_cursor_contents p (b : B) : (p <= buffer_end b)%nat -> contents (place_cursor p b) = (cells b, line_start b, (p, p)) }.

(** ** [ConsoleView._write] *)

Definition char1 : ascii := "001"%char.
Definition char2 : ascii := "002"%char.
Definition esc : ascii := "027"%char.
Definition skip_char (c : ascii) (s : text) : text := match s with x :: s' => if decide (x = c) then s' else s | [] => [] end.
(** [color_pat]: the tag, and the length of the match. *)
Definition color_pat (s : text) : option (text * nat) :=
  match skip_char char1 s with
  | c1 :: c2 :: s1 =>
      if decide (c1 = esc /\ c2 = "["%char) then
        match span (fun c => negb (bool_decide (c = "m"%char)) && negb (bool_decide (c = newline))) s1 with
        | (tag, c3 :: s2) => if decide (c3 = "m"%char) then Some (tag, (length s - length (skip_char char2 s2))%nat) else None
        | _ => None
        end
      else None
  | _ => None
  end.

(** [color_pat.split(text)] without its first item, which comes first here. *)
Fixpoint segments_of (ps : list (ascii + text)) : text * list text :=
  match ps with
  | [] => ([], [])
  | inl c :: ps => let '(s, rest) := segments_of ps in (c :: s, rest)
  | inr tag :: ps => let '(s, rest) := segments_of ps in ([], tag :: s :: rest)
  end.
Definition split_colors (t : text) : text * list text := segments_of (pieces color_pat 0 t).
Definition plain_cells (t : text) : list console_cell := (fun c => Cell c false None) <$> t.
Definition tagged_cells (tag t : text) : list console_cell := (fun c => Cell c false (Some tag)) <$> t.

(** The tags of the buffer; PyGObject raises [ValueError] for another name. *)
Definition ANSI_COLORS : list text :=
  txt <$> ["0;30"; "0;31"; "0;32"; "0;33"; "0;34"; "0;35"; "0;36"; "0;37"; "1;30"; "1;31"; "1;32"; "1;33"; "1;34"; "1;35"; "1;36"; "1;37"]%string.
Definition check_tag (tag : text) : option py_exn :=
  if decide (tag ∈ ANSI_COLORS ++ [txt "0"; txt "notouch"]) then None else Some ValueError.

Section console.
Context {B : Type} `{TB : TextBuffer B}.
(** The rest of the text with its tags; what was inserted before an exception stays. *)
Fixpoint insert_tagged (ansi_tags segments : list text) : list console_cell * option py_exn :=
  match ansi_tags with
  | [] => ([], None)
  | tag :: ansi_tags =>
      match py_index tag segments with
      | Ok i =>
          match segments !! S i with
          | None => ([], Some IndexError)
          | Some s =>
              match check_tag tag with
              | Some e => ([], Some e)
              | None => let '(cs, e) := insert_tagged ansi_tags (take i segments ++ drop (S i) segments) in (tagged_cells tag s ++ cs, e)
              end
          end
      | _ => ([], Some ValueError)
      end
  end.
Definition written (t : text) : list console_cell * option py_exn :=
  let '(segment, segments) := split_colors t in
  let '(cs, e) := insert_tagged (re_findall color_pat t) segments in (plain_cells segment ++ cs, e).

(** The changes of the buffer that a callback makes until it ends or raises. *)
Definition _write (t : text) (editable : bool) (b : B) : B * option py_exn :=
  let '(cs, e) := written t in
  let b' := insert_at (buffer_end b) cs b in
  match e with
  | Some e => (b', Some e)
  | None => (if editable then b' else apply_notouch (buffer_end b) (buffer_end b') b', None)
  end.
Definition next (m : B * option py_exn) (f : B -> B * option py_exn) : B * option py_exn :=
  match m with (b, None) => f b | (b, Some e) => (b, Some e) end.

Definition _showPrompt (prompt : text) (b : B) : B * option py_exn :=
  next (_write prompt false b) (fun b => (move_line_start (buffer_end b) b, None)).
Definition _changeLine (t : text) (b : B) : B * option py_exn :=
  _write t true (delete_range (line_start b) (forward_to_line_end b (line_start b)) b).
Definition getCurrentLine (b : B) : text := drop (line_start b) (chars b).
(** [indent] is what is inserted at the cursor, if anything. *)
Definition _showReturned (t prompt : text) (indent : option nat) (b : B) : B * option py_exn :=
  let b := apply_notouch (line_start b) (forward_to_line_end b (line_start b)) b in
  next (_write (newline :: t) false b) (fun b =>
  next (match t with [] => (b, None) | _ => _write [newline] false b end) (fun b =>
  next (_showPrompt prompt b) (fun b =>
    let b := place_cursor (buffer_end b) (move_line_start (buffer_end b) b) in
    (match indent with Some n => insert_at (insert_mark b) (plain_cells (replicate n space)) b | None => b end, None)))).

(** ** The shell *)

Context {Sh : Type}.
(** IPython: a line is given to the splitter, which says whether it wants more; the cell is
    run, with what it prints; an interrupt; the prompt, and that of a continuation; the inputs
    so far ([In]); the completions of a word; whether it indents, and by how much. *)
Context (push : text -> Sh -> Sh * bool) (run_cell : Sh -> Sh * text) (interrupted : Sh -> Sh * text) (generatePrompt : Sh -> bool -> text).
Context (inputs : Sh -> list text) (completions : Sh -> text -> list text) (autoindent : Sh -> bool) (indent_spaces : Sh -> nat).

(** [_getHistory]: [self.IP.user_ns['In'][level]] *)
Definition strip_newlines (t : text) : text := let nl c := bool_decide (c = newline) in rstrip nl (lstrip nl t).
Definition _getHistory (ins : list text) (level : Z) : text := match py_get ins level with Ok t => strip_newlines t | _ => [] end.
Definition historyBack (ins : list text) (level : Z) : Z * text :=
  let level := (level - 1)%Z in
  let level := if decide (_getHistory ins level = []) then (level + 1)%Z else level in (level, _getHistory ins level).
Definition historyForward (ins : list text) (level : Z) : Z * text :=
  let level := if decide (level < 0)%Z then (level + 1)%Z else level in (level, _getHistory ins level).

(** [_commonPrefix]: up to the first prefix of [str1] that [str2] does not have. *)
Fixpoint _commonPrefix (str1 str2 : text) : text :=
  match str1, str2 with
  | x :: str1, y :: str2 => if decide (x = y) then x :: _commonPrefix str1 str2 else []
  | _, _ => []
  end.
Definition is_sep (c : ascii) : bool := is_space c || bool_decide (c ∈ ["{"; "}"; "["; "]"; "("; ")"]%char).
(** The last item of [complete_sep.split(line)]. *)
Definition last_word (line : text) : text := reverse (span (fun c => negb (is_sep c)) (reverse line)).1.
Definition complete (sh : Sh) (line : text) : text * list text :=
  match last_word line with
  | [] => (line, [])
  | word =>
      match completions sh word with
      | [] => (line, [])
      | p :: ps =>
          let common := match foldl _commonPrefix p ps with [] => match last line with Some c => [c] | None => [] end | q => q end in
          (take (length line - length word) line ++ common, p :: ps)
      end
  end.

(** ** Keys *)

Inductive idle := IWrite (t : text) | IShowPrompt (t : text) | IChangeLine (t : text) | IShowReturned (t : text).
Record console := Console {
  buf : B; pending : list idle; shell : Sh; history_level : Z; prompt : text; interrupt : bool;
  iter_more : bool; rl_do_indent : bool }.
Definition with_buf (b : B) (c : console) : console :=
  Console b (pending c) (shell c) (history_level c) (prompt c) (interrupt c) (iter_more c) (rl_do_indent c).
Definition with_pending (ids : list idle) (c : console) : console :=
  Console (buf c) ids (shell c) (history_level c) (prompt c) (interrupt c) (iter_more c) (rl_do_indent c).
Definition idle_add (ids : list idle) (c : console) : console := with_pending (pending c ++ ids) c.
Definition at_level (l : Z) (c : console) : console :=
  Console (buf c) (pending c) (shell c) l (prompt c) (interrupt c) (iter_more c) (rl_do_indent c).

(** A key: which one, whether Control or Alt, Control, and Shift are held, and whether it
    stands for a character. *)
Inductive keyval := KHome | KLeft | KReturn | KUp | KDown | KTab | KC | KOther.
Record key_press := Key { k_val : keyval; k_control : bool; k_alt : bool; k_shift : bool; k_string : text }.

(** [raw_input]: nothing for [KeyboardInterrupt]. *)
Definition raw_input (c : console) : option text := if interrupt c then None else Some (getCurrentLine (buf c)).
(** [execute]: the new state, without changes of the buffer, and what was printed.  An
    interrupt takes the place of the line, if Control-C was pressed. *)
Definition execute_line (c : console) : console * text :=
  let indent := (iter_more c && autoindent (shell c)) || rl_do_indent c in
  match raw_input c with
  | None =>
      let '(sh, out) := interrupted (shell c) in
      (Console (buf c) (pending c) sh 0 (generatePrompt (shell c) (iter_more c)) false (iter_more c) indent, out)
  | Some line =>
      let '(sh, more) := push line (shell c) in
      let p := generatePrompt sh more in
      let '(sh, out) := if more : bool then (sh, []) else run_cell sh in
      (Console (buf c) (pending c) sh 0 p false more more, out)
  end.
Definition _processLine (c : console) : console :=
  let '(c, out) := execute_line c in idle_add [IShowReturned (strip_newlines out)] c.

Definition interrupted_by_key (c : console) : console :=
  Console (buf c) (pending c) (shell c) (history_level c) (prompt c) true (iter_more c) (rl_do_indent c).
Definition onKeyPressExtend (k : key_press) (c : console) : console * bool :=
  match k_val k with
  | KReturn => (_processLine c, true)
  | KUp => let '(l, t) := historyBack (inputs (shell c)) (history_level c) in (idle_add [IChangeLine t] (at_level l c), true)
  | KDown => let '(l, t) := historyForward (inputs (shell c)) (history_level c) in (idle_add [IChangeLine t] (at_level l c), true)
  | KTab =>
      let line := getCurrentLine (buf c) in
      if decide (strip line = []) then (c, false)
      else
        let '(completed, possibilities) := complete (shell c) line in
        let listed := match possibilities with
                      | _ :: _ :: _ => IWrite [newline] :: ((fun s => IWrite (s ++ [newline])) <$> possibilities) ++ [IShowPrompt (prompt c)]
                      | _ => [] end in
        (idle_add (listed ++ [IChangeLine completed]) c, true)
  | KC => if k_control k then (_processLine (interrupted_by_key c), true) else (c, false)
  | KHome | KLeft | KOther => (c, false)
  end.

(** The cursor and the selection are kept behind the prompt. *)
Definition keep_behind (b : B) : B :=
  let s := line_start b in let i := insert_mark b in let e := selection_mark b in
  if decide (s <= i /\ s <= e)%nat then b
  else if decide (i < s /\ e < s)%nat then place_cursor s b
  else if decide (i < e)%nat then set_insert s b
  else if decide (e < i)%nat then set_selection s b else b.
(** [True] says that GTK has nothing more to do. *)
Definition onKeyPress (k : key_press) (c : console) : console * bool :=
  let b := buf c in
  match k_val k with
  | KHome =>
      if k_control k || k_alt k then onKeyPressExtend k c
      else if k_shift k then (with_buf (set_insert (line_start b) b) c, true) else (with_buf (place_cursor (line_start b) b) c, true)
  | KLeft => if editable b (insert_mark b - 1) then onKeyPressExtend k c else (c, true)
  | _ => if decide (k_string k = []) then onKeyPressExtend k c else onKeyPressExtend k (with_buf (keep_behind b) c)
  end.

(** [IPythonView.__init__]: a line is executed, without text, before the first prompt. *)
Definition initial_console (sh : Sh) : console :=
  let '(c, _) := execute_line (Console empty_buffer [] sh 0 [] false false false) in
  let p := generatePrompt (shell c) false in
  idle_add [IShowPrompt p] (Console (buf c) (pending c) (shell c) (history_level c) p (interrupt c) (iter_more c) (rl_do_indent c)).

(** ** The main loop *)

(** What GTK does with a key, and with a click of the middle button at a place, which pastes.
    A click with the first button sets the cursor and the selection. *)
Context (default_key : key_press -> B -> B) (default_paste : nat -> B -> B).
Inductive console_event := KeyPress (k : key_press) | Click (insert selection : nat) | MiddleClick (p : nat) | Idle.
Definition run_idle (i : idle) (c : console) : B * option py_exn :=
  match i with
  | IWrite t => _write t false (buf c)
  | IShowPrompt t => _showPrompt t (buf c)
  | IChangeLine t => _changeLine t (buf c)
  | IShowReturned t => _showReturned t (prompt c) (if rl_do_indent c then Some (indent_spaces (shell c)) else None) (buf c)
  end.
(** What is raised in a callback is printed, and the loop goes on. *)
Definition console_step (e : console_event) (c : console) : console :=
  match e with
  | KeyPress k => let '(c, handled) := onKeyPress k c in if handled then c else with_buf (default_key k (buf c)) c
  | Click i s => with_buf (set_selection (Nat.min s (buffer_end (buf c))) (set_insert (Nat.min i (buffer_end (buf c))) (buf c))) c
  | MiddleClick p => with_buf (default_paste p (buf c)) c
  | Idle =>
      match pending c with
      | [] => c
      | i :: rest => with_buf (run_idle i c).1 (with_pending rest c)
      end
  end.
Definition console_run (es : list console_event) (c : console) : console := foldl (fun c e => console_step e c) c es.
End console.

#[export] Instance keyval_eq_dec : EqDecision keyval.
Proof. solve_decision. Defined.

(** ** What the callbacks keep *)

Section kept.
Context {B : Type} `{TB : TextBuffer B} {TL : TextBufferLaws B}.

(** The marks are in the buffer, and what is in front of the command cannot be edited. *)
Record buffer_wf (b : B) : Prop := {
  wf_start : (line_start b <= buffer_end b)%nat; wf_insert : (insert_mark b <= buffer_end b)%nat; wf_selection : (selection_mark b <= buffer_end b)%nat;
  wf_guard : line_start b = 0%nat \/ notouch <$> cells b !! (line_start b - 1)%nat = Some true }.

(** The text in front of the command is still there, and there can be more of it. *)
Record kept (b b' : B) : Prop := {
  k_wf : buffer_wf b'; k_start : (line_start b <= line_start b')%nat;
  k_chars : take (line_start b) (chars b') = take (line_start b) (chars b) }.

Lemma kept_refl b : buffer_wf b -> kept b b.
Proof. by intros W. Qed.
Lemma kept_trans b1 b2 b3 : kept b1 b2 -> kept b2 b3 -> kept b1 b3.
Proof.
  intros [_ S1 C1] [W S2 C2]. split; [done|lia|]. rewrite <- C1. apply (f_equal (take (line_start b1))) in C2. by rewrite !take_take, !Nat.min_l in C2 by lia.
Qed.

(** The parts of a buffer of which the contents are known. *)
Lemma contents_inv (b : B) cs s i e : contents b = (cs, s, (i, e)) -> cells b = cs /\ line_start b = s /\ insert_mark b = i /\ selection_mark b = e.
Proof. by intros [= -> -> -> ->]. Qed.

Lemma appended cs (b : B) : (line_start b <= buffer_end b)%nat -> let b' := insert_at (buffer_end b) cs b in
  cells b' = cells b ++ cs /\ line_start b' = line_start b /\
  insert_mark b' = follow (buffer_end b) (length cs) (insert_mark b) /\ selection_mark b' = follow (buffer_end b) (length cs) (selection_mark b).
Proof.
  intros Hs b'. destruct (contents_inv _ _ _ _ _ (insert_contents (buffer_end b) cs b ltac:(done))) as (E1 & E2 & E3 & E4). fold b' in E1, E2, E3, E4.
  split; [|split; [|done]].
  - rewrite E1. unfold buffer_end. by rewrite take_ge, drop_ge, app_nil_r.
  - rewrite E2. unfold stay. rewrite decide_False; [done|lia].
Qed.

Lemma appended_end cs (b : B) : (line_start b <= buffer_end b)%nat -> buffer_end (insert_at (buffer_end b) cs b) = (buffer_end b + length cs)%nat.
Proof. intros Hs. unfold buffer_end at 1. destruct (appended cs b Hs) as (-> & _). by rewrite length_app. Qed.

Lemma append_kept cs b : buffer_wf b -> kept b (insert_at (buffer_end b) cs b).
Proof.
  intros [W1 W2 W3 W4]. pose proof (appended cs b W1) as E. cbv zeta in E. set (b' := insert_at (buffer_end b) cs b) in *. destruct E as (E1 & E2 & E3 & E4). clearbody b'.
  assert (forall p, (p <= buffer_end b)%nat -> (follow (buffer_end b) (length cs) p <= length (cells b ++ cs))%nat) as Ef
    by (intros p Hp; unfold follow; rewrite length_app; unfold buffer_end in *; case_decide; lia).
  split; [split|..].
  - unfold buffer_end in *. rewrite E1, E2, length_app. lia.
  - unfold buffer_end at 1. rewrite E1, E3. by apply Ef.
  - unfold buffer_end at 1. rewrite E1, E4. by apply Ef.
  - rewrite E1, E2. destruct W4 as [?|W4]; [by left|right]. rewrite lookup_app_l; [done|]. apply fmap_Some in W4 as (c & Hc & _). by apply lookup_lt_Some in Hc.
  - by rewrite E2.
  - unfold chars. rewrite E1, fmap_app, take_app_le by (rewrite length_fmap; unfold buffer_end in W1; lia). done.
Qed.

Lemma notouch_kept a e b : (a <= e <= buffer_end b)%nat -> buffer_wf b -> kept b (apply_notouch a e b).
Proof.
  intros Hae [W1 W2 W3 W4]. destruct (contents_inv _ _ _ _ _ (notouch_contents a e b Hae)) as (E1 & E2 & E3 & E4).
  split; [split|..]; unfold buffer_end in *; rewrite ?E2, ?E1, ?E3, ?E4, ?length_imap; try done.
  - destruct W4 as [?|W4]; [by left|right]. rewrite list_lookup_imap. destruct (cells b !! _); [|done]. cbn in *. by case_decide.
  - unfold chars. rewrite E1. f_equal. rewrite fmap_imap. apply list_eq. intros i. rewrite list_lookup_imap, list_lookup_fmap. destruct (cells b !! i); [|done]. cbn. by case_decide.
Qed.

Lemma line_end_bounds b p : (p <= buffer_end b)%nat -> (p <= forward_to_line_end b p <= buffer_end b)%nat.
Proof.
  intros Hp. rewrite forward_line_end by done. unfold line_end, buffer_end in *. set (f := fun c => negb (bool_decide (chr c = newline))).
  assert (forall q, (length (span f (drop q (cells b))).1 <= length (cells b) - q)%nat) as Hq.
  { intros q. rewrite <- length_drop. rewrite <- (span_app f (drop q (cells b))) at 2. rewrite length_app. lia. }
  case_decide as Hd; [|specialize (Hq p); lia]. apply fmap_Some in Hd as (c & Hc & _). apply lookup_lt_Some in Hc. specialize (Hq (S p)). lia.
Qed.

Lemma delete_kept e b : buffer_wf b -> (line_start b <= e <= buffer_end b)%nat -> kept b (delete_range (line_start b) e b).
Proof.
  intros [W1 W2 W3 W4] He. destruct (contents_inv _ _ _ _ _ (delete_contents _ _ _ He)) as (E1 & E2 & E3 & E4).
  assert (removed (line_start b) e (line_start b) = line_start b) as Er by (unfold removed; by rewrite decide_True). rewrite Er in E2. unfold buffer_end in *.
  assert (forall p, (p <= length (cells b))%nat -> (removed (line_start b) e p <= line_start b + (length (cells b) - e))%nat) as Ef
    by (intros p Hp; unfold removed; repeat case_decide; lia).
  split; [split|..]; unfold buffer_end; rewrite ?E2, ?E1, ?E3, ?E4, ?length_app, ?length_take, ?length_drop; try done.
  - lia.
  - rewrite Nat.min_l by lia. by apply Ef.
  - rewrite Nat.min_l by lia. by apply Ef.
  - destruct (decide (line_start b = 0)%nat) as [->|Hn]; [by left|right]. destruct W4 as [?|W4]; [done|].
    rewrite lookup_app_l, lookup_take_lt; [done|lia|rewrite length_take; lia].
  - unfold chars. rewrite E1, fmap_app, take_app_le by (rewrite length_fmap, length_take; lia). by rewrite fmap_take, take_take, Nat.min_id.
Qed.

Lemma place_cursor_kept p b : buffer_wf b -> (p <= buffer_end b)%nat -> kept b (place_cursor p b).
Proof.
  intros [W1 W2 W3 W4] Hp. destruct (contents_inv _ _ _ _ _ (place_cursor_contents p b Hp)) as (E1 & E2 & E3 & E4).
  split; [split|..]; unfold buffer_end, chars in *; by rewrite ?E2, ?E1, ?E3, ?E4.
Qed.
Lemma set_insert_kept p b : buffer_wf b -> (p <= buffer_end b)%nat -> kept b (set_insert p b).
Proof.
  intros [W1 W2 W3 W4] Hp. destruct (contents_inv _ _ _ _ _ (set_insert_contents p b Hp)) as (E1 & E2 & E3 & E4).
  split; [split|..]; unfold buffer_end, chars in *; by rewrite ?E2, ?E1, ?E3, ?E4.
Qed.
Lemma set_selection_kept p b : buffer_wf b -> (p <= buffer_end b)%nat -> kept b (set_selection p b).
Proof.
  intros [W1 W2 W3 W4] Hp. destruct (contents_inv _ _ _ _ _ (set_selection_contents p b Hp)) as (E1 & E2 & E3 & E4).
  split; [split|..]; unfold buffer_end, chars in *; by rewrite ?E2, ?E1, ?E3, ?E4.
Qed.
Lemma select_kept i j b : buffer_wf b -> kept b (set_selection (Nat.min j (buffer_end b)) (set_insert (Nat.min i (buffer_end b)) b)).
Proof.
  intros W. assert (Nat.min i (buffer_end b) <= buffer_end b)%nat as Hi by lia. pose proof (set_insert_kept _ b W Hi) as K.
  destruct (contents_inv _ _ _ _ _ (set_insert_contents _ b Hi)) as (E1 & _). eapply kept_trans; [exact K|]. apply set_selection_kept; [apply K|].
  unfold buffer_end at 2. rewrite E1. unfold buffer_end. lia.
Qed.
Lemma same_contents_kept b b' : contents b' = contents b -> buffer_wf b -> kept b b'.
Proof.
  intros (E1 & E2 & E3 & E4)%contents_inv [W1 W2 W3 W4]. split; [split|..]; unfold buffer_end, chars in *; by rewrite ?E2, ?E1, ?E3, ?E4.
Qed.
(** The cursor behind the text, where the command begins already. *)
Lemma last_cursor b : buffer_wf b -> line_start b = buffer_end b -> let b' := place_cursor (buffer_end b) (move_line_start (buffer_end b) b) in
  kept b b' /\ insert_mark b' = buffer_end b'.
Proof.
  intros W Hs. pose proof (line_start_contents (buffer_end b) b ltac:(done)) as E.
  assert (contents (move_line_start (buffer_end b) b) = contents b) as Es by (rewrite E; unfold contents; by rewrite Hs). clear E.
  set (b1 := move_line_start _ b) in *. clearbody b1. pose proof (same_contents_kept b b1 Es W) as K. destruct (contents_inv _ _ _ _ _ Es) as (E1 & _).
  assert (buffer_end b = buffer_end b1) as -> by (unfold buffer_end; by rewrite E1). cbv zeta.
  destruct (contents_inv _ _ _ _ _ (place_cursor_contents (buffer_end b1) b1 ltac:(done))) as (P1 & _ & P3 & _). split.
  - eapply kept_trans; [exact K|]. apply place_cursor_kept; [apply K|done].
  - rewrite P3. unfold buffer_end at 2. by rewrite P1.
Qed.
End kept.

Section facts.
Context {B : Type} `{TB : TextBuffer B} {TL : TextBufferLaws B} {Sh : Type}.
Context (push : text -> Sh -> Sh * bool) (run_cell : Sh -> Sh * text) (interrupted : Sh -> Sh * text) (generatePrompt : Sh -> bool -> text).
Context (inputs : Sh -> list text) (completions : Sh -> text -> list text) (autoindent : Sh -> bool) (indent_spaces : Sh -> nat).
Context (default_key : key_press -> B -> B) (default_paste : nat -> B -> B).

(** A prompt that is shown as something. *)
Definition prompt_shows (t : text) : Prop := (written t).1 <> [].

Lemma next_kept b m f : kept b m.1 -> (forall b', m = (b', None) -> kept b (f b').1) -> kept b (next m f).1.
Proof. destruct m as [b' [e|]]; cbn; auto. Qed.

Lemma write_kept t e b : buffer_wf b -> kept b (_write t e b).1.
Proof.
  intros W. unfold _write. destruct (written t) as [cs [x|]]; cbn [fst]; [by apply append_kept|].
  destruct e; [by apply append_kept|]. eapply kept_trans; [by apply append_kept|]. apply notouch_kept; [|by apply (k_wf _ _ (append_kept cs b W))].
  rewrite appended_end by apply W. lia.
Qed.

(** After something was written that is not editable, the command can begin at the end. *)
Lemma write_then_start t b b' : buffer_wf b -> prompt_shows t -> _write t false b = (b', None) -> kept b (move_line_start (buffer_end b') b').
Proof.
  intros W Hs E. pose proof (write_kept t false b W) as K. rewrite E in K. cbn [fst] in K.
  destruct K as [[W1 W2 W3 _] Hst Hc]. pose proof (wf_start _ W) as Hsb.
  unfold prompt_shows, _write in *. destruct (written t) as [cs [x|]]; [done|]. injection E as E. cbn [fst] in Hs.
  pose proof (appended cs b Hsb) as A. pose proof (appended_end cs b Hsb) as Ae. cbv zeta in A. set (b1 := insert_at (buffer_end b) cs b) in *. destruct A as (A1 & _).
  destruct (contents_inv _ _ _ _ _ (notouch_contents (buffer_end b) (buffer_end b1) b1 ltac:(lia))) as (N1 & _).
  rewrite E in N1. assert (buffer_end b' = (buffer_end b + length cs)%nat) as Hend by (unfold buffer_end at 1; rewrite N1, length_imap; exact Ae).
  destruct (contents_inv _ _ _ _ _ (line_start_contents (buffer_end b') b' ltac:(done))) as (M1 & M2 & M3 & M4).
  assert (buffer_end (move_line_start (buffer_end b') b') = buffer_end b') as Me by (unfold buffer_end at 1; by rewrite M1).
  assert (0 < length cs)%nat by (destruct cs; [done|cbn; lia]).
  split; [split|..]; rewrite ?Me, ?M2, ?M3, ?M4; try done.
  - right. rewrite M1, N1, list_lookup_imap, A1, Hend.
    destruct (lookup_lt_is_Some_2 (cells b ++ cs) (buffer_end b + length cs - 1)) as [c Hc'%eq_sym]; [rewrite length_app; unfold buffer_end; lia|]. rewrite <- Hc'. cbn.
    rewrite decide_True; [done|]. lia.
  - lia.
  - unfold chars. rewrite M1. exact Hc.
Qed.

Lemma show_prompt_kept p b : buffer_wf b -> prompt_shows p -> kept b (_showPrompt p b).1.
Proof.
  intros W Hs. unfold _showPrompt. apply next_kept; [by apply write_kept|]. intros b' E. cbn. by eapply write_then_start.
Qed.

Lemma change_line_kept t b : buffer_wf b -> kept b (_changeLine t b).1.
Proof.
  intros W. unfold _changeLine. assert (kept b (delete_range (line_start b) (forward_to_line_end b (line_start b)) b)) as K
    by (apply delete_kept; [done|apply line_end_bounds, W]).
  eapply kept_trans; [exact K|]. apply write_kept, K.
Qed.

Lemma show_returned_kept t p i b : buffer_wf b -> prompt_shows p -> kept b (_showReturned t p i b).1.
Proof.
  intros W Hs. unfold _showReturned. set (b0 := apply_notouch _ _ b).
  assert (kept b b0) as K0 by (apply notouch_kept; [split; [apply line_end_bounds, W|apply line_end_bounds, W]|done]). eapply kept_trans; [exact K0|]. apply k_wf in K0. clearbody b0.
  apply next_kept; [by apply write_kept|]. intros b1 E1. pose proof (write_kept (newline :: t) false b0 K0) as K1. rewrite E1 in K1. eapply kept_trans; [exact K1|]. apply k_wf in K1.
  apply next_kept; [destruct t; [by apply kept_refl|by apply write_kept]|]. intros b2 E2.
  assert (kept b1 b2) as K2 by (destruct t; [injection E2 as <-; by apply kept_refl|pose proof (write_kept [newline] false b1 K1) as K; by rewrite E2 in K]).
  eapply kept_trans; [exact K2|]. apply k_wf in K2.
  apply next_kept; [by apply show_prompt_kept|]. intros b3 E3.
  unfold _showPrompt in E3. destruct (_write p false b2) as [b4 [x|]] eqn:E4; [done|]. cbn in E3. injection E3 as <-.
  pose proof (write_then_start p b2 b4 K2 Hs E4) as K3.
  assert (line_start (move_line_start (buffer_end b4) b4) = buffer_end (move_line_start (buffer_end b4) b4)) as Hl.
  { destruct (contents_inv _ _ _ _ _ (line_start_contents (buffer_end b4) b4 ltac:(done))) as (L1 & L2 & _). rewrite L2. unfold buffer_end at 2. by rewrite L1. }
  clear E4. set (b5 := move_line_start (buffer_end b4) b4) in *. clearbody b5. destruct (last_cursor b5 (k_wf _ _ K3) Hl) as [K4 Ei].
  pose proof (kept_trans _ _ _ K3 K4) as K5. cbn zeta. set (b6 := place_cursor _ _) in *. clearbody b6.
  destruct i as [n|]; [|exact K5]. eapply kept_trans; [exact K5|]. cbn [fst]. rewrite Ei. apply append_kept, K4.
Qed.

(** Keys that only move the cursor, when GTK sees them. *)
Definition moves_only (k : key_press) : Prop := k_val k = KHome \/ k_val k = KLeft \/ k_string k = [].
(** The keys that paste, like Control-V or Shift-Insert: GTK asks for the clipboard and puts
    its text where the cursor is when it comes. *)
Context (pastes : key_press -> bool).
(** What GTK does with a key by itself: the keys that move the cursor do no more; the
    others change nothing in front of a character that cannot be edited, when cursor and
    selection are behind it. *)
Hypothesis default_moves : forall k b, moves_only k -> pastes k = false -> buffer_wf b ->
  cells (default_key k b) = cells b /\ line_start (default_key k b) = line_start b /\
  (insert_mark (default_key k b) <= buffer_end b)%nat /\ (selection_mark (default_key k b) <= buffer_end b)%nat.
Hypothesis default_edits : forall k b, ~ moves_only k -> pastes k = false -> buffer_wf b -> (line_start b <= insert_mark b)%nat -> (line_start b <= selection_mark b)%nat ->
  let b' := default_key k b in
  take (line_start b) (cells b') = take (line_start b) (cells b) /\ line_start b' = line_start b /\ (line_start b <= buffer_end b')%nat /\
  (insert_mark b' <= buffer_end b')%nat /\ (selection_mark b' <= buffer_end b')%nat.
(** A prompt is not empty. *)
Hypothesis prompts_show : forall sh more, prompt_shows (generatePrompt sh more).

Lemma keep_behind_kept b : buffer_wf b -> kept b (keep_behind b) /\ (line_start (keep_behind b) <= insert_mark (keep_behind b))%nat /\
  (line_start (keep_behind b) <= selection_mark (keep_behind b))%nat.
Proof.
  intros W. pose proof (wf_start _ W) as Hs. unfold keep_behind.
  destruct (contents_inv _ _ _ _ _ (place_cursor_contents (line_start b) b Hs)) as (_ & P2 & P3 & P4).
  destruct (contents_inv _ _ _ _ _ (set_insert_contents (line_start b) b Hs)) as (_ & I2 & I3 & I4).
  destruct (contents_inv _ _ _ _ _ (set_selection_contents (line_start b) b Hs)) as (_ & S2 & S3 & S4).
  case_decide; [split; [by apply kept_refl|done]|]. case_decide; [split; [by apply place_cursor_kept|lia]|].
  case_decide; [split; [by apply set_insert_kept|lia]|]. case_decide; [split; [by apply set_selection_kept|lia]|lia].
Qed.

Lemma default_kept k b : pastes k = false -> buffer_wf b -> (~ moves_only k -> (line_start b <= insert_mark b)%nat /\ (line_start b <= selection_mark b)%nat) ->
  kept b (default_key k b).
Proof using default_moves default_edits.
  intros Hp W Hb. pose proof W as [W1 W2 W3 W4]. assert (Decision (moves_only k)) as D by (unfold moves_only; apply _).
  destruct (decide (moves_only k)) as [Hm|Hm].
  - destruct (default_moves k b Hm Hp W) as (E1 & E2 & H1 & H2). split; [split|..]; unfold buffer_end, chars in *; rewrite ?E1, ?E2; done.
  - destruct (Hb Hm) as [Hi Hs]. destruct (default_edits k b Hm Hp W Hi Hs) as (E1 & E2 & H1 & H2 & H3). split; [split|..]; rewrite ?E2; try done.
    + destruct (decide (line_start b = 0)%nat) as [->|Hn]; [by left|right]. destruct W4 as [?|W4]; [done|].
      rewrite <- W4. f_equal. rewrite <- (lookup_take_lt (cells b) (line_start b)), <- E1, lookup_take_lt by lia. done.
    + unfold chars. rewrite <- !fmap_take. by f_equal.
Qed.

(** What is pending, and the present prompt. *)
Record console_inv (c : console (Sh := Sh)) : Prop := {
  ci_wf : buffer_wf (buf c); ci_prompt : prompt_shows (prompt c); ci_pending : forall t, IShowPrompt t ∈ pending c -> prompt_shows t }.

Lemma idle_add_inv ids c : console_inv c -> (forall t, IShowPrompt t ∈ ids -> prompt_shows t) -> console_inv (idle_add ids c).
Proof. intros [H1 H2 H3] H. split; cbn; [done|done|]. intros t [Ht|Ht]%elem_of_app; auto. Qed.

Lemma process_line_inv c : console_inv c -> console_inv (_processLine push run_cell interrupted generatePrompt autoindent c) /\
  buf (_processLine push run_cell interrupted generatePrompt autoindent c) = buf c.
Proof using prompts_show.
  intros [H1 H2 H3]. unfold _processLine, execute_line, raw_input.
  assert (forall c', buf c' = buf c -> pending c' = pending c -> prompt_shows (prompt c') -> forall t, console_inv (idle_add [IShowReturned t] c') /\ buf (idle_add [IShowReturned t] c') = buf c) as Hc.
  { intros c' E1 E2 Hp t. split; [|done]. apply idle_add_inv; [split; [by rewrite E1|done|by rewrite E2]|]. intros t' [[=]|[]%not_elem_of_nil]%elem_of_cons. }
  destruct (interrupt c).
  - destruct (interrupted (shell c)) as [sh out]. cbv iota zeta. apply Hc; [done|done|apply prompts_show].
  - destruct (push _ _) as [sh more]. destruct more; [|destruct (run_cell sh) as [sh' out]]; cbv iota zeta; (apply Hc; [done|done|apply prompts_show]).
Qed.

Lemma empty_wf : buffer_wf (empty_buffer (B := B)).
Proof.
  destruct (contents_inv _ _ _ _ _ (empty_contents (B := B))) as (E1 & E2 & E3 & E4). split; unfold buffer_end; rewrite ?E1, ?E2, ?E3, ?E4; [done..|by left].
Qed.
(** The invariant holds from the start. *)
Lemma initial_console_inv sh : console_inv (initial_console push run_cell interrupted generatePrompt autoindent sh).
Proof using TL prompts_show.
  unfold initial_console, execute_line, raw_input. cbn [interrupt]. destruct (push _ _) as [sh' more]. destruct more; [|destruct (run_cell sh') as [sh'' out]]; cbv iota zeta;
    (apply idle_add_inv; [split; [apply empty_wf|apply prompts_show|intros t []%not_elem_of_nil]|]);
    intros t [[= ->]|[]%not_elem_of_nil]%elem_of_cons; apply prompts_show.
Qed.

Lemma extend_inv k c : console_inv c ->
  let r := onKeyPressExtend push run_cell interrupted generatePrompt inputs completions autoindent k c in console_inv r.1 /\ buf r.1 = buf c.
Proof using prompts_show.
  intros H. unfold onKeyPressExtend. destruct (k_val k); cbn [fst]; try done.
  - by apply process_line_inv.
  - destruct (historyBack _ _) as [l t]. split; [|done]. apply (idle_add_inv [IChangeLine t] (at_level l c)); [by destruct H|]. intros t' [[=]|[]%not_elem_of_nil]%elem_of_cons.
  - destruct (historyForward _ _) as [l t]. split; [|done]. apply (idle_add_inv [IChangeLine t] (at_level l c)); [by destruct H|]. intros t' [[=]|[]%not_elem_of_nil]%elem_of_cons.
  - case_decide; [done|]. destruct (complete _ _ _) as [completed ps]. split; [|done]. apply idle_add_inv; [done|].
    intros t [Ht|[[=]|[]%not_elem_of_nil]%elem_of_cons]%elem_of_app. destruct ps as [|p [|p' ps]]; [by apply not_elem_of_nil in Ht..|].
    apply elem_of_cons in Ht as [[=]|[Ht|[[= ->]|[]%not_elem_of_nil]%elem_of_cons]%elem_of_app]; [|apply H]. by apply list_elem_of_fmap in Ht as (? & [=] & _).
  - destruct (k_control k); [|done]. apply (process_line_inv (interrupted_by_key c)). by destruct H.
Qed.

Lemma with_buf_inv b c : console_inv c -> buffer_wf b -> console_inv (with_buf b c).
Proof. intros [H1 H2 H3] W. by split. Qed.

Abbreviation step := (console_step push run_cell interrupted generatePrompt inputs completions autoindent indent_spaces default_key default_paste).
(** Nothing is pasted, with the middle button or with a key. *)
Definition no_paste (e : console_event) : Prop := match e with KeyPress k => pastes k = false | MiddleClick _ => False | _ => True end.
Lemma step_kept e c : no_paste e -> console_inv c -> console_inv (step e c) /\ kept (buf c) (buf (step e c)).
Proof using TL default_moves default_edits prompts_show.
  intros Hp H. pose proof (ci_wf _ H) as W. destruct e as [k|i j|p|]; cbn [console_step]; [| |done|].
  - assert (forall b', kept (buf c) b' -> (~ moves_only k -> (line_start b' <= insert_mark b')%nat /\ (line_start b' <= selection_mark b')%nat) ->
      let '(c', handled) := onKeyPressExtend push run_cell interrupted generatePrompt inputs completions autoindent k (with_buf b' c) in
      let c' := if handled then c' else with_buf (default_key k (buf c')) c' in console_inv c' /\ kept (buf c) (buf c')) as Hext.
    { intros b' K Hb. pose proof (extend_inv k (with_buf b' c) (with_buf_inv b' c H (k_wf _ _ K))) as [Hi Eb].
      destruct (onKeyPressExtend _ _ _ _ _ _ _ k (with_buf b' c)) as [c' handled]. cbn [fst] in Hi, Eb. destruct handled; cbn zeta; [by rewrite Eb|].
      rewrite Eb. cbn [buf with_buf]. assert (kept b' (default_key k b')) as K' by (apply default_kept; [exact Hp|apply K|done]).
      split; [apply with_buf_inv; [done|apply K']|by eapply kept_trans]. }
    assert (with_buf (buf c) c = c) as Ec by (by destruct c).
    unfold onKeyPress. destruct (k_val k) eqn:Ek.
    2:{ destruct (editable _ _); [|split; [done|by apply kept_refl]]. specialize (Hext (buf c) (kept_refl _ W)). rewrite Ec in Hext. destruct (onKeyPressExtend _ _ _ _ _ _ _ k c) as [c' []];
        apply Hext; intros Hm; exfalso; apply Hm; right; by left. }
    1:{ destruct (k_control k || k_alt k).
        - specialize (Hext (buf c) (kept_refl _ W)). rewrite Ec in Hext. destruct (onKeyPressExtend _ _ _ _ _ _ _ k c) as [c' []];
          apply Hext; intros Hm; exfalso; apply Hm; by left.
        - destruct (k_shift k).
          + pose proof (set_insert_kept (line_start (buf c)) (buf c) W (wf_start _ W)) as K. split; [apply with_buf_inv; [done|apply K]|exact K].
          + pose proof (place_cursor_kept (line_start (buf c)) (buf c) W (wf_start _ W)) as K. split; [apply with_buf_inv; [done|apply K]|exact K]. }
    all: case_decide as Hs; [specialize (Hext (buf c) (kept_refl _ W)); rewrite Ec in Hext; destruct (onKeyPressExtend _ _ _ _ _ _ _ k c) as [c' []];
        apply Hext; intros Hm; exfalso; apply Hm; right; by right|].
    all: destruct (keep_behind_kept (buf c) W) as (K & Hi & Hj); specialize (Hext _ K (fun _ => conj Hi Hj));
        destruct (onKeyPressExtend _ _ _ _ _ _ _ k (with_buf (keep_behind (buf c)) c)) as [c' []]; apply Hext.
  - cbn [buf with_buf]. pose proof (select_kept i j (buf c) W) as K. split; [apply with_buf_inv; [done|apply K]|exact K].
  - destruct (pending c) as [|i rest] eqn:Ep; [split; [done|by apply kept_refl]|]. cbn [buf with_buf].
    assert (kept (buf c) (run_idle indent_spaces i c).1) as K.
    { destruct i as [t|t|t|t]; cbn [run_idle].
      - by apply write_kept.
      - apply show_prompt_kept; [done|]. apply (ci_pending _ H). rewrite Ep. left.
      - by apply change_line_kept.
      - apply show_returned_kept; [done|apply H]. }
    split; [|exact K]. destruct H as [H1 H2 H3]. split; cbn; [apply K|done|]. intros t Ht. apply H3. rewrite Ep. by right.
Qed.

End facts.

(** ** A buffer *)

Record buffer := Buffer { pb_cells : list console_cell; pb_start : nat; pb_insert : nat; pb_selection : nat }.
#[export] Instance plain_buffer : TextBuffer buffer := {
  empty_buffer := Buffer [] 0 0 0; cells := pb_cells; line_start := pb_start; insert_mark := pb_insert; selection_mark := pb_selection;
  insert_at n cs b := let k := length cs in
    Buffer (take n (pb_cells b) ++ cs ++ drop n (pb_cells b)) (stay n k (pb_start b)) (follow n k (pb_insert b)) (follow n k (pb_selection b));
  delete_range a e b := Buffer (take a (pb_cells b) ++ drop e (pb_cells b)) (removed a e (pb_start b)) (removed a e (pb_insert b)) (removed a e (pb_selection b));
  apply_notouch a e b := Buffer (imap (fun i c => if decide (a <= i < e)%nat then freeze c else c) (pb_cells b)) (pb_start b) (pb_insert b) (pb_selection b);
  forward_to_line_end b := line_end (pb_cells b);
  editable b p := match pb_cells b !! p with Some c => negb (notouch c) | None => true end;
  move_line_start p b := Buffer (pb_cells b) p (pb_insert b) (pb_selection b);
  set_insert p b := Buffer (pb_cells b) (pb_start b) p (pb_selection b);
  set_selection p b := Buffer (pb_cells b) (pb_start b) (pb_insert b) p;
  place_cursor p b := Buffer (pb_cells b) (pb_start b) p p }.
#[export] Instance plain_buffer_laws : TextBufferLaws buffer.
Proof. split; try done. intros b p c E. cbn in *. by rewrite E. Qed.

(** A text view that puts the text of a key at the cursor. *)
Definition typed_key (k : key_press) (b : buffer) : buffer :=
  if decide (k_val k = KHome \/ k_val k = KLeft \/ k_string k = []) then b else insert_at (insert_mark b) (plain_cells (k_string k)) b.
(** A click of the middle button puts a letter where it was made. *)
Definition paste_at (p : nat) (b : buffer) : buffer := insert_at p (plain_cells (txt "X")) b.
Lemma typed_key_moves k (b : buffer) : moves_only k -> false = false -> buffer_wf b ->
  cells (typed_key k b) = cells b /\ line_start (typed_key k b) = line_start b /\
  (insert_mark (typed_key k b) <= buffer_end b)%nat /\ (selection_mark (typed_key k b) <= buffer_end b)%nat.
Proof. intros H _ [_ W2 W3 _]. unfold typed_key. rewrite decide_True by done. done. Qed.
Lemma typed_key_edits k (b : buffer) : ~ moves_only k -> false = false -> buffer_wf b -> (line_start b <= insert_mark b)%nat -> (line_start b <= selection_mark b)%nat ->
  let b' := typed_key k b in
  take (line_start b) (cells b') = take (line_start b) (cells b) /\ line_start b' = line_start b /\ (line_start b <= buffer_end b')%nat /\
  (insert_mark b' <= buffer_end b')%nat /\ (selection_mark b' <= buffer_end b')%nat.
Proof.
  intros H _ [W1 W2 W3 _] Hi Hs. unfold typed_key, buffer_end in *. rewrite decide_False by done. cbn in *. rewrite !length_app, length_take, length_drop.
  split_and!; [by rewrite take_app_le, take_take, Nat.min_l by (rewrite ?length_take; lia)|unfold stay; by rewrite decide_False by lia|lia|unfold follow; case_decide; lia..].
Qed.

Section session.
(** A shell that counts its commands, and prints the number of each. *)
Definition counting_push (t : text) (n : nat) : nat * bool := (n, false).
Definition counting_cell (n : nat) : nat * text := (S n, show_Z (Z.of_nat (S n))).
Definition counting_prompt (n : nat) (more : bool) : text := txt "[" ++ show_Z (Z.of_nat (S n)) ++ txt "]: ".
Abbreviation counting_run := (console_run counting_push counting_cell (fun n => (n, [])) counting_prompt (fun _ => []) (fun _ _ => []) (fun _ => false) (fun _ => 0%nat) typed_key paste_at).
Definition letter_key (t : text) : key_press := Key KOther false false false t.
Definition return_key : key_press := Key KReturn false false false [newline].
Definition first_view : console (B := buffer) (Sh := nat) := Console (Buffer (freeze <$> plain_cells (txt "[1]: ")) 5 5 5) [] 0%nat 0 (txt "[1]: ") false false false.

Lemma counting_prompts n more : prompt_shows (counting_prompt n more).
Proof.
  unfold prompt_shows, counting_prompt, written, split_colors. generalize (show_Z (Z.of_nat (S n)) ++ txt "]: "). intros t.
  assert (pieces color_pat 0 ("["%char :: t) = inl "["%char :: pieces color_pat 0 t) as E by (by destruct t). change (txt "[" ++ t) with ("["%char :: t). rewrite E. cbn.
  destruct (segments_of _) as [s rest]. destruct (insert_tagged _ _) as [cs e]. done.
Qed.

End session.

(** *** The history *)

Section history.
Context (first : text) (cmds : list text).
(** The first input is empty, and no command is. *)
Hypothesis first_empty : strip_newlines first = [].
Hypothesis cmds_given : Forall (fun t => strip_newlines t <> []) cmds.
Abbreviation ins := (first :: cmds).

(** The command [n] back from the present one, which is empty. *)
Definition command_back (n : nat) : text := match n with 0%nat => [] | S k => strip_newlines (default [] (reverse cmds !! k)) end.

Lemma get_history n : (n <= length cmds)%nat -> _getHistory ins (- Z.of_nat n) = command_back n.
Proof using first_empty.
  intros Hn. unfold _getHistory, py_get, zlen. cbn [length]. destruct n as [|n]; [exact first_empty|].
  rewrite (proj2 (Z.leb_gt _ _)) by lia. rewrite (proj2 (Z.leb_le _ _)) by lia.
  replace (Z.to_nat (- Z.of_nat (S n) + Z.of_nat (S (length cmds)))) with (length cmds - n)%nat by lia.
  replace (length cmds - n)%nat with (S (length cmds - S n)) by lia. cbn [lookup list_lookup]. unfold command_back. rewrite reverse_lookup by lia.
  by destruct (cmds !! _) eqn:E; [|apply lookup_ge_None in E; lia].
Qed.

Lemma history_oldest n : (length cmds <= n)%nat -> _getHistory ins (- Z.of_nat (S n)) = [].
Proof using first_empty.
  intros Hn. unfold _getHistory, py_get, zlen. cbn [length]. rewrite (proj2 (Z.leb_gt _ _)) by lia.
  destruct (Z.leb_spec 0 (- Z.of_nat (S n) + Z.of_nat (S (length cmds)))); [|done].
  replace (Z.to_nat (- Z.of_nat (S n) + Z.of_nat (S (length cmds)))) with 0%nat by lia. exact first_empty.
Qed.

Lemma command_back_given n : (0 < n <= length cmds)%nat -> command_back n <> [].
Proof using cmds_given.
  intros [H1 H2]. destruct n as [|n]; [lia|]. cbn. destruct (lookup_lt_is_Some_2 (reverse cmds) n) as [t Ht]; [rewrite length_reverse; lia|].
  rewrite Ht. cbn. rewrite Forall_forall in cmds_given. apply cmds_given. apply list_elem_of_lookup_2 in Ht. by apply elem_of_reverse.
Qed.

(** The keys Up and Down from the level [-n]. *)
Theorem history_steps n : (n <= length cmds)%nat ->
  historyBack ins (- Z.of_nat n) = (let m := Nat.min (S n) (length cmds) in (- Z.of_nat m, command_back m))%Z /\
  historyForward ins (- Z.of_nat n) = (- Z.of_nat (n - 1), command_back (n - 1))%Z.
Proof using first_empty cmds_given.
  intros Hn. split.
  - unfold historyBack. replace (- Z.of_nat n - 1)%Z with (- Z.of_nat (S n))%Z by lia. destruct (decide (S n <= length cmds)%nat) as [Hs|Hs].
    + rewrite get_history by done. rewrite decide_False by (apply command_back_given; lia). rewrite get_history by done. by rewrite Nat.min_l.
    + rewrite history_oldest by lia. rewrite decide_True by done. replace (- Z.of_nat (S n) + 1)%Z with (- Z.of_nat n)%Z by lia.
      rewrite get_history by done. cbn zeta. by replace (Nat.min (S n) (length cmds)) with n by lia.
  - unfold historyForward. destruct n as [|n].
    + rewrite decide_False by lia. by rewrite (get_history 0) by lia.
    + rewrite decide_True by lia. replace (- Z.of_nat (S n) + 1)%Z with (- Z.of_nat n)%Z by lia. rewrite get_history by lia. cbn. by rewrite Nat.sub_0_r.
Qed.
End history.

(** *** Completion *)

Lemma commonPrefix_spec a b r : r `prefix_of` _commonPrefix a b <-> r `prefix_of` a /\ r `prefix_of` b.
Proof.
  revert b r. induction a as [|x a IH]; intros b r; cbn.
  - split; [intros H; apply prefix_nil_inv in H as ->; by split; apply prefix_nil|by intros [? _]].
  - destruct b as [|y b]; [split; [intros H; apply prefix_nil_inv in H as ->; by split; apply prefix_nil|by intros [_ ?]]|].
    destruct r as [|z r]; [split; intros _; [split|]; apply prefix_nil|]. case_decide as E; [subst y|].
    + split.
      * intros H. pose proof (prefix_cons_inv_1 _ _ _ _ H) as ->. apply prefix_cons_inv_2, IH in H as [? ?]. by split; apply prefix_cons.
      * intros [H1 H2]. pose proof (prefix_cons_inv_1 _ _ _ _ H1) as ->. apply prefix_cons, IH. split; by eapply prefix_cons_inv_2.
    + split; [intros H; by apply prefix_nil_inv in H|]. intros [H1 H2]. apply prefix_cons_inv_1 in H1, H2. congruence.
Qed.
Lemma common_prefixes_spec ps : forall p r, r `prefix_of` foldl _commonPrefix p ps <-> Forall (fun q => r `prefix_of` q) (p :: ps).
Proof.
  induction ps as [|q ps IH]; intros p r; cbn [foldl]; [by rewrite Forall_singleton|]. rewrite IH, !Forall_cons, commonPrefix_spec. tauto.
Qed.

Lemma last_word_suffix line : exists before, line = before ++ last_word line.
Proof.
  unfold last_word. set (f := fun c => negb (is_sep c)). exists (reverse (span f (reverse line)).2).
  rewrite <- reverse_app, span_app. by rewrite reverse_involutive.
Qed.

(** A completed line keeps everything in front of its last word, which is replaced by
    the longest text that all possibilities begin with; a line that cannot be completed
    stays. *)
Theorem complete_spec {Sh} (completions : Sh -> text -> list text) sh line :
  let '(completed, ps) := complete completions sh line in
  exists before word, line = before ++ word /\ word = last_word line /\
    (ps = [] -> completed = line) /\
    (forall common, ps <> [] -> common <> [] -> (forall r, r `prefix_of` common <-> Forall (fun q => r `prefix_of` q) ps) -> completed = before ++ common).
Proof.
  unfold complete. destruct (last_word_suffix line) as [before Hb]. destruct (last_word line) as [|c word] eqn:Ew.
  - exists before, []. split; [done|]. split; [done|]. split; [done|]. done.
  - destruct (completions sh (c :: word)) as [|p ps]; [by exists before, (c :: word)|]. exists before, (c :: word). split; [done|]. split; [done|]. split; [done|].
    intros common _ Hc Hp.
    assert (foldl _commonPrefix p ps = common) as Eq.
    { apply (anti_symm prefix).
      - apply Hp, common_prefixes_spec. done.
      - apply common_prefixes_spec, Hp. done. }
    rewrite Eq. destruct common as [|d common]; [done|]. f_equal. rewrite Hb at 1 2. rewrite length_app, Nat.add_sub. by rewrite take_app_length.
Qed.

(** *** What is written *)

(** The colour codes of a text with what stands behind each. *)
Definition flat_pair (p : text * text) : list text := [p.1; p.2].
Lemma split_pairs t : exists first ps, split_colors t = (first, ps ≫= flat_pair) /\ re_findall color_pat t = fst <$> ps.
Proof.
  unfold split_colors, re_findall. induction (pieces color_pat 0 t) as [|[c|tag] l (first & ps & E1 & E2)].
  - by exists [], [].
  - exists (c :: first), ps. split; [cbn; by rewrite E1|done].
  - exists [], ((tag, first) :: ps). split; cbn; [by rewrite E1|by rewrite E2].
Qed.

Lemma insert_tagged_pairs ps past : Forall (fun p : text * text => check_tag p.1 = None) ps ->
  (forall s p, s ∈ past ++ (snd <$> ps) -> p ∈ ps -> s <> p.1) ->
  insert_tagged (fst <$> ps) (past ++ (ps ≫= flat_pair)) = (ps ≫= (fun p => tagged_cells p.1 p.2), None).
Proof.
  intros Hc. revert past. induction Hc as [|[tag s] ps Hc _ IH]; intros past Hd; [done|]. cbn [mbind list_bind flat_pair fmap list_fmap fst snd app insert_tagged] in *.
  rewrite (py_index_app tag past).
  2:{ intros H. by apply (Hd tag (tag, s)); [apply elem_of_app; left|left|]. }
  rewrite lookup_app_r by lia. replace (S (length past) - length past) with 1 by lia. cbn [lookup list_lookup app].
  rewrite Hc. rewrite take_app_length. replace (S (length past)) with (length past + 1) by lia. rewrite <- drop_drop, drop_app_length. cbn [drop].
  rewrite (cons_middle s), app_assoc, IH; [done|].
  intros s' p Hs Hp. apply Hd; [|by right]. rewrite <- app_assoc in Hs. exact Hs.
Qed.

(** Every part of a text gets the colour of the code in front of it, when no part is itself
    the code of a colour of this text, and GTK knows the colours. *)
Theorem written_spec t : exists first ps,
  split_colors t = (first, ps ≫= flat_pair) /\ re_findall color_pat t = fst <$> ps /\
  (Forall (fun p => check_tag p.1 = None) ps -> (forall p q, p ∈ ps -> q ∈ ps -> p.2 <> q.1) ->
   written t = (plain_cells first ++ (ps ≫= (fun p => tagged_cells p.1 p.2)), None)).
Proof.
  destruct (split_pairs t) as (first & ps & E1 & E2). exists first, ps. split_and!; [done..|]. intros Hc Hd.
  unfold written. rewrite E1, E2. pose proof (insert_tagged_pairs ps [] Hc) as H. cbn [app] in H. rewrite H; [done|].
  intros s p (q & -> & Hq)%list_elem_of_fmap Hp. by apply Hd.
Qed.

(** A part that is the code of the next colour is written twice, and the part of that colour is not. *)
Lemma colour_mistaken :
  let code t := esc :: txt "[" ++ t ++ txt "m" in
  chr <$> (written (code (txt "0") ++ txt "1;31" ++ code (txt "1;31") ++ txt "warning")).1 = txt "1;311;31".
Proof. by vm_compute. Qed.

(** *** The command line *)

Section command_line.
Context {B : Type} `{TB : TextBuffer B} {TL : TextBufferLaws B}.

Lemma line_end_last b : buffer_wf b -> newline ∉ getCurrentLine b -> line_end (cells b) (line_start b) = buffer_end b.
Proof.
  intros [W1 _ _ _] Hn. unfold line_end, getCurrentLine, buffer_end, chars in *. rewrite <- fmap_drop in Hn.
  assert (forall l, newline ∉ chr <$> l -> (span (fun c => negb (bool_decide (chr c = newline))) l).1 = l) as Hs.
  { intros l Hl. rewrite <- (app_nil_r l) at 1. rewrite span_all; [done| |done]. apply Forall_forall. intros c Hc.
    rewrite bool_decide_false; [done|]. intros E. apply Hl. apply list_elem_of_fmap. by exists c. }
  rewrite decide_False.
  - rewrite Hs by done. rewrite length_drop. lia.
  - intros H. apply Hn. rewrite list_elem_of_lookup. exists 0. rewrite list_lookup_fmap, lookup_drop, Nat.add_0_r. exact H.
Qed.

(** A new command takes the place of one of a single line. *)
Theorem change_line_spec t b cs : buffer_wf b -> newline ∉ getCurrentLine b -> written t = (cs, None) ->
  let '(b', e) := _changeLine t b in e = None /\ line_start b' = line_start b /\ getCurrentLine b' = chr <$> cs.
Proof.
  intros W Hn Hw. pose proof (wf_start _ W) as W1. unfold _changeLine, _write. rewrite Hw, forward_line_end, line_end_last by done.
  pose proof (delete_kept (buffer_end b) b W ltac:(done)) as [[V1 _ _ _] _ _].
  destruct (contents_inv _ _ _ _ _ (delete_contents (line_start b) (buffer_end b) b ltac:(done))) as (E1 & E2 & _).
  set (b1 := delete_range _ _ b) in *. clearbody b1. destruct (appended cs b1 V1) as (A1 & A2 & _). set (b2 := insert_at _ cs b1) in *. clearbody b2.
  assert (line_start b2 = line_start b) as Hl by (rewrite A2, E2; unfold removed; by rewrite decide_True).
  split; [done|]. split; [done|]. unfold getCurrentLine, chars. rewrite Hl, A1, E1. unfold buffer_end in *. rewrite (drop_ge (cells b)), app_nil_r, fmap_app by done.
  apply drop_app_length'. rewrite length_fmap, length_take. lia.
Qed.

(** When the output has a colour without a tag, the prompt is not shown: the command
    begins where it did, in front of the output. *)
Lemma unknown_colour t p i b e : (written (newline :: t)).2 = Some e -> buffer_wf b ->
  let '(b', e') := _showReturned t p i b in e' = Some e /\ line_start b' = line_start b.
Proof.
  intros He W. unfold _showReturned, _write. destruct (written (newline :: t)) as [cs [x|]]; [|done]. cbn in He. injection He as ->.
  destruct (contents_inv _ _ _ _ _ (notouch_contents (line_start b) _ b (line_end_bounds b (line_start b) (wf_start _ W)))) as (E1 & E2 & _).
  pose proof (notouch_kept (line_start b) _ b (line_end_bounds b (line_start b) (wf_start _ W)) W) as K.
  set (b1 := apply_notouch _ _ b) in *. clearbody b1. destruct (appended cs b1 (wf_start _ (k_wf _ _ K))) as (_ & A2 & _). cbn [next].
  split; [done|]. by rewrite A2.
Qed.
End command_line.

(** Bold text without a colour. *)
Lemma bold_unknown : (written (newline :: esc :: txt "[1mbold")).2 = Some ValueError.
Proof. by vm_compute. Qed.

(** Of a command of several lines only the first is taken away. *)
Lemma second_line_stays :
  let b : buffer := Buffer (freeze <$> plain_cells (txt "> ") ) 2 2 2 in
  let '(b1, _) := _changeLine (txt "if a:" ++ newline :: txt "  b") b in
  let '(b2, _) := _changeLine (txt "c") b1 in getCurrentLine b2 = newline :: txt "  bc".
Proof. by vm_compute. Qed.
